(* ===== verification/_CoqProject ===== *)
-Q . S2P
Prelude.v
GoLang.v
GoFormat.v
Core.v
HashChain.v
TenantId.v
MemoryStore.v
MemoryFacts.v
MemorySystem.v
AuditChain.v
StoreSpec.v
Soc.v
SocSpec.v
SocProps.v
DetectionModel.v
SigmaRule.v
SigmaCompile.v
SigmaFacts.v
SigmaProps.v
Correlation.v
CorrelationFacts.v
CorrelationProps.v
PipelineRules.v
Pipeline.v
PipelineFacts.v
PipelineProps.v
Playbook.v
PlaybookFacts.v
PlaybookProps.v
SoarModel.v
Sql.v
AuditTable.v
SoarDb.v
SoarRuntime.v
SoarService.v
SoarWorker.v
SoarInvariant.v
SoarChanges.v
SoarOps.v
SoarSystem.v
SoarSafety.v
SoarCalm.v
SoarProps.v
SoarProgress.v
SoarIsolation.v
SoarWorkerProps.v
GoUtf8.v
Json.v
GoTime.v
CaseModel.v
CaseDb.v
EvidenceDb.v
EvidenceService.v
CaseService.v
CaseRules.v
CaseTables.v
EvidenceTables.v
Desk.v
DeskProps.v
DeskExamples.v
AgentEvent.v
HostFiles.v
DiskQueue.v
Forwarding.v
JournalSource.v
Syslog.v
FileTail.v
HttpReceiver.v
ApiPoll.v
CollectorConfig.v
QueueFacts.v
Delivery.v
QueueOrder.v
StoreForward.v
StoreForwardProps.v
CollectorFacts.v
CollectorProps.v
SourceHealth.v
Ingestion.v
IngestionProps.v
