(* ===== verification/Prelude.v ===== *)
(** * KCSP: a verification library for the platform's Go core

    The platform (src/) is a security operations server.  Agents and collectors
    deliver events; the detection pipeline normalises them, evaluates rules and
    correlations and raises alerts; analysts turn alerts into incidents and
    follow them to their closure in incidents and investigation cases with
    evidence; playbooks automate the response, with approvals by people before a
    dangerous action.  Between collectors and pipeline the events travel through
    Kafka in signed envelopes.  Everything a tenant does is
    kept apart from other tenants and recorded in an audit log chained by
    hashes.  This library models the Go code that decides (src/internal, src/cmd) and
    proves what makes it correct.

    ** How the code is modelled

    Go code becomes Rocq functions on immutable values.  Code that reads or
    writes a store is a computation in the monad [M St A] of this file, which
    passes a state and returns [Ok], [Err] or [Panic] (an index out of range, for
    instance); [let!], [do!] sequence, [guard] and [fail] return early.  The clock
    and the random source are part of the state ([Core.World]): a call of
    [time.Now] or [core.NewID] takes the next reading of an arbitrary
    function.  Records have the Go fields with a prefix ([al_Status] is
    [Alert.Status]); [r {{ f := v }}] is an assignment to a field.  An [int] is a
    [Z], with [wrap64] where the code can overflow, a time is the [Z] of
    nanoseconds since the zero time, a string is a string of bytes, a map is a
    [gmap], and the iteration order of a map is whatever it may be or proved not
    to matter.  A [map[string]interface{}] is a [gmap] to [GoValue].  Loops and
    recursive descents run on fuel that is proved to be enough ([visit] has one
    unit more than there are nodes; the condition parser has four per token).

    ** The files

    - Prelude: the monad, record updates, notations ([==], [!=], [∈?]), options
      and lists, the [evolves] preorder reasoning.  GoLang, GoFormat, GoUtf8,
      Json, GoTime: the parts of Go's library the code uses (strings, sort, time,
      fmt, SHA-256, mime, UTF-8, encoding/json with its round trips, RFC 3339).
    - Core, TenantId: the records of internal/core and the identifiers of
      tenants, the clock and the random source.  DetectionModel: those of rules and correlations.
    - MemoryStore: every operation of internal/store/memory.go.  MemoryFacts,
      MemorySystem: its invariants, over any sequence of operations.
      AuditChain: the hash chain.  StoreSpec: tenants, well-formedness,
      deduplication, listings.
    - Soc: internal/soc/service.go over a repository; SocSpec: the life cycles of
      alerts and incidents as a step relation; SocProps.
    - SigmaRule, SigmaCompile: internal/detection/compiler.go, from the decoded
      YAML document to the compiled rule; SigmaFacts, SigmaProps.
    - Correlation: internal/detection/correlation.go; CorrelationFacts,
      CorrelationProps.
    - PipelineRules, Pipeline: internal/pipeline/engine.go, which calls the
      compiler, the correlation store and the repository; PipelineFacts,
      PipelineProps.
    - Playbook: internal/soar/validate.go.  PlaybookFacts: what a sound playbook
      is, without algorithms; PlaybookProps.
    - SoarModel: the records of internal/core/soar.go.  Sql: tables as lists of
      rows.  HashChain, AuditTable: the chained audit log of internal/store, in
      memory and in a table (internal/store/postgres.go).  SoarDb, SoarRuntime:
      internal/store/soar.go and soar_runtime.go.  SoarService, SoarWorker:
      internal/soar/service.go and worker.go, as trees of calls of the store, so
      that programs can interleave.
    - SoarInvariant: what holds of the tables, and the few ways they change.
      SoarChanges, SoarOps: every query is made of those ways.  SoarSystem,
      SoarSafety: any number of services and workers over one database.
      SoarCalm: calls that run alone leave no execution behind.  SoarProps,
      SoarProgress, SoarWorkerProps: the guarantees, and a playbook run step by
      step.  SoarIsolation: transactions that overlap, statement by statement.
    - CaseModel: the records of internal/core/case.go, evidence.go and
      retention.go.  CaseDb, EvidenceDb: the tables of internal/store/cases.go,
      retention.go and evidence.go.  CaseService, EvidenceService:
      internal/cases/service.go and internal/evidence/service.go.  CaseRules,
      CaseTables, EvidenceTables: life cycles and what the tables keep.  Desk: any
      sequence of calls of the two services; DeskProps, DeskExamples.
    - AgentEvent: the event and the queue item of internal/agent/queue.go and
      their JSON.  HostFiles: two directories of a host, and system calls each of
      which may work, fail or end the process.  DiskQueue: queue.go.  Forwarding:
      forwarder.go and the loops of cmd/agent and cmd/collector.  JournalSource:
      journal.go.  Syslog, FileTail, HttpReceiver, ApiPoll: the four files of
      internal/collector; CollectorConfig: their constructors and lists of sources.
      SourceHealth: sourcehealth.go.
    - QueueFacts: what a call leaves alone, and what the queue's calls do to
      the files.  Delivery, QueueOrder: events are kept until they are
      acknowledged, and leave in order.  StoreForward: any sequence of calls of an
      agent or a collector, with crashes and restarts between them.
      CollectorFacts: offsets and cursors.  StoreForwardProps, CollectorProps: the
      guarantees and the runs they are tried on.
    - Ingestion: internal/ingest: the gateway and the envelope (envelope.go), its
      signature (integrity.go), the topics and the transport's security
      configuration (kafka.go), the processor (processor.go), over an interface of
      the pipeline that Pipeline implements.  IngestionProps: the guarantees.

    ** What the theorems show

    - Audit: a log that was only appended to verifies; two logs that verify with
      the same head are equal in all that the hash covers, or exhibit a SHA-256
      collision; the request identifier is not covered.
    - Store: no operation touches another tenant; the tables and their orders
      agree; alerts are merged exactly within their window; listings are sound
      and complete.
    - SOC: every call, concurrent ones included, moves alerts and incidents along
      their life cycles; a stale version does not overwrite; creation is
      idempotent.
    - Sigma: printing and parsing a condition round-trips, the parser terminates
      on every input, evaluation does not depend on the order of selections, a
      compiled rule is well formed and its bounds hold.
    - Correlation: the pruned window decides like the whole history, the three
      searches find what their specification says exists, an event counts once,
      tenants are apart; a late event can hide a detection.
    - Pipeline: ingestion preserves the store's invariant, an event is detected at
      most once, the answer is exactly what the rules in force detect, the built-in authentication rule
      fires at the fifth failure.
    - Playbooks: the cycle search is exact, and the validator accepts precisely
      the sound playbooks.
    - SOAR: in every reachable state of any number of services and workers an
      action of level 4 to 6 about to be executed has its approvals; leases
      exclude other workers; a recorded success is not repeated; retries keep to
      the policy.  A promotion and reconciliation that no other transaction
      disturbs makes the status of its execution tell the truth and leaves a node
      somebody can act upon, unless the execution is over; two that overlap may
      strand it.

    - Cases and evidence: every call keeps to the life cycle of cases, a stale
      update is refused, the custody chain of every item verifies, a verification
      is positive exactly for the recorded bytes, and an upload cut short
      stays pending.
    - Store and forward: a queued event is on disk or acknowledged after any
      calls, failures and crashes; the checkpoint of the journal, the offset of a
      log file and the cursor of an API never pass an event that is not queued;
      a drain ends and delivers in order; a queue file decodes to what was
      written; an answer of 202 means that the events are stored; framed
      payloads come out of a stream as they went in; failing sources are retried
      on the schedule.

    - Ingestion: no record is committed before its event is in the platform or
      in the dead letters, whatever fails and in whatever order workers finish; an
      accepted event, if its texts are UTF-8 and its payload is not nested to the
      limit, is decoded as it was submitted, and it is said exactly when its
      signature holds; one signature stands for one event.

    ** Assumptions

    Code outside of src/ is a parameter, but for the parts of Go's
    library, which are defined (SHA-256 too, in GoFormat): YAML decoding and the
    action executor are arguments of the definitions; what a JSONB column
    does to an object is the interface [JsonColumn], with an instance in
    SoarProps.  The object store of evidence, the gateway and its HTTP exchange,
    journalctl, other programs' log files and API servers are interfaces whose
    answers are arbitrary functions of the moment; net/url and the dates of
    net/http belong to the last.  A system call fails or ends the process where an
    arbitrary function says so; what was renamed stays renamed, that is, the
    machine itself does not lose what it has synced.  A call of Kafka or of the
    store of envelopes works, is refused, fails after it took effect or is the
    last of its process, as an arbitrary function says; the parser of an
    envelope is one too.  A time text that is no RFC
    3339 is an error here, also where time.Parse is more lenient.  The time a
    network payload states for itself ([originalEventTimestamp] of
    collector/syslog.go, which reads floating-point numbers) is an arbitrary function of the
    payload and the time of receipt.  In the text of an error, [%q] is written
    as [%s].  A step of the in-memory store is one critical section of its mutex.

    A database transaction is one atomic step: the transactions of a store run
    one at a time.  The code runs them at READ COMMITTED, where a statement sees
    what others have committed since the last.  Cases, evidence, approvals, the
    row a worker claims or holds and the head of an audit chain are locked by the
    statement that reads or updates them, FOR UPDATE or by the update itself, so
    that the decisions on them are those of one at a time.  The promotion and
    reconciliation of an execution lock nothing that would order them; the
    theorems that rest on their being alone are those of SoarCalm and
    SoarProgress, which say so, and SoarIsolation shows, with transactions as
    sequences of statements, what happens to two that overlap.

    ** Not modelled

    Of the ingestion: several partitions and the assignment of consumers to them,
    creating topics, record headers, health checks, what PostgreSQL and
    ClickHouse do with a raw envelope.

    The HTTP API, authentication, licensing, event search, the parsers of vendor
    formats, the Windows readers of the agent, the AI and UEBA services, threat
    intelligence feeds, SOAR connectors, reports, disaster recovery, the other SQL
    and ClickHouse stores and the start-up of the programs: the manifest lists
    them with the reason.  Of the modelled files: metrics, logging, sockets and
    TLS, row scanning and the constant demo fields of the overview. *)

From Stdlib Require Export ZArith Lia Ascii String.
From stdpp Require Export base gmap strings list list_numbers sorting pretty.
From coqutil Require Export Datatypes.RecordSetters.
Export DoubleBraceUpdate.
Arguments constant / : rename.

(** ** Record update

    [r {{ f := v; g ::= h }}] is coqutil's notation.  A record with an [Eta]
    instance (the record rebuilt from its projections) gets setters written
    with projections, so that [cbn] reduces a field of an updated record. *)

Class Eta (R : Type) : Type := eta_of : R -> R.

Ltac projection_setter R E getter :=
  let inst := constr:(_ : Eta R) in
  let body := lazymatch inst with ?i => let b := eval cbv delta [i] in i in b end in
  lazymatch (eval pattern getter in body) with
  | ?abs _ => let b := eval cbv beta in (fun (upd : E -> E) => abs (fun r : R => upd (getter r))) in exact b
  end.

#[export] Hint Extern 0 (@Setter ?R ?E ?getter) => projection_setter R E getter : typeclass_instances.

#[global] Arguments String.append !_ _ / : simpl nomatch.
#[global] Arguments ascii_dec : simpl never.

#[global] Open Scope string_scope.
#[global] Open Scope list_scope.
#[global] Open Scope Z_scope.

(** ** Decidable comparisons as Go's [==] and [!=] *)

Declare Scope go_scope.
Delimit Scope go_scope with go.
Notation "a == b" := (bool_decide (a = b)) (at level 70, no associativity) : go_scope.
Notation "a != b" := (negb (bool_decide (a = b))) (at level 70, no associativity) : go_scope.
Notation "x ∈? l" := (bool_decide (x ∈ l)) (at level 70, no associativity) : go_scope.
#[global] Open Scope go_scope.

(** ** Errors and outcomes

    A Go error is a value made by [errors.New] or wrapped by [fmt.Errorf] with
    [%w]; only the chain of sentinels matters to callers ([errors.Is]).
    Two error types have fields of their own: [NodeError] (soar/worker.go) and
    [StatusError], the [apiResponseError] of collector/apipoll.go.  A call
    of a Go function ends with its results, with an error, or with a run-time
    panic. *)

Inductive error : Type :=
  | New (text : string)
  | Wrap (context : string) (cause : error)
  | NodeError (code detail : string) (permanent : bool)
  | StatusError (status retryAfter : Z).

#[global] Instance error_eq_dec : EqDecision error.
Proof. solve_decision. Defined.

Fixpoint errors_Is (err target : error) : bool :=
  (err == target) || match err with Wrap _ cause => errors_Is cause target | _ => false end.

Inductive outcome (A : Type) : Type :=
  | Ok (result : A)
  | Err (e : error)
  | Panic.
Arguments Ok {A} result.
Arguments Err {A} e.
Arguments Panic {A}.

#[global] Instance outcome_eq_dec {A} `{EqDecision A} : EqDecision (outcome A).
Proof. solve_decision. Defined.

Definition outcome_bind {A B} (m : outcome A) (k : A -> outcome B) : outcome B :=
  match m with Ok a => k a | Err e => Err e | Panic => Panic end.

Definition is_ok {A} (m : outcome A) : bool :=
  match m with Ok _ => true | _ => false end.

(** ** The state-and-error monad of stateful Go code

    Go does not roll state back when a function returns an error, so the state
    is returned in every case. *)

Definition M (St A : Type) : Type := St -> outcome A * St.

Definition ret {St A} (a : A) : M St A := fun s => (Ok a, s).
Definition fail {St A} (e : error) : M St A := fun s => (Err e, s).
Definition panic {St A} : M St A := fun s => (Panic, s).
Definition bind {St A B} (m : M St A) (k : A -> M St B) : M St B :=
  fun s => match m s with
           | (Ok a, s') => k a s'
           | (Err e, s') => (Err e, s')
           | (Panic, s') => (Panic, s')
           end.
Definition get {St} : M St St := fun s => (Ok s, s).
Definition modify {St} (f : St -> St) : M St unit := fun s => (Ok tt, f s).
Definition lift {St A} (m : outcome A) : M St A := fun s => (m, s).
(** Running a total operation, reading a component, and calling a function
    that returns its error together with the new state. *)
Definition state {St A} (f : St -> A * St) : M St A := fun s => let '(a, s') := f s in (Ok a, s').
Definition gets {St A} (f : St -> A) : M St A := fun s => (Ok (f s), s).
Definition gets_outcome {St A} (f : St -> outcome A) : M St A := fun s => (f s, s).
Definition guard {St} (ok : bool) (e : error) : M St unit := if ok then ret tt else fail e.

Declare Scope outcome_scope.
Delimit Scope outcome_scope with outcome.
Declare Scope monad_scope.
Delimit Scope monad_scope with monad.
Notation "'let?' x ':=' m 'in' k" := (outcome_bind m (fun x => k))
  (at level 10, x pattern, m at level 100, k at level 200).
Notation "'let!' x ':=' m 'in' k" := (bind m (fun x => k))
  (at level 10, x pattern, m at level 100, k at level 200).
Notation "'do!' m 'in' k" := (bind m (fun _ => k))
  (at level 10, m at level 100, k at level 200).

(** Loops over a slice: with an accumulator, and for their effect only. *)
Fixpoint foldM {St A B} (f : B -> A -> M St B) (acc : B) (l : list A) : M St B :=
  match l with
  | [] => ret acc
  | x :: rest => let! acc' := f acc x in foldM f acc' rest
  end.

Fixpoint forM_ {St A} (l : list A) (f : A -> M St unit) : M St unit :=
  match l with
  | [] => ret tt
  | x :: rest => do! f x in forM_ rest f
  end.

(** [if err != nil { return fmt.Errorf("context: %w", err) }] *)
Definition wrapping {St A} (context : string) (m : M St A) : M St A :=
  fun s => match m s with (Err e, s') => (Err (Wrap context e), s') | r => r end.

(** ** Lemmas on the monad *)

Section MonadLemmas.
Context {St : Type}.

Lemma bind_Ok {A B} (m : M St A) (k : A -> M St B) s b s' :
  bind m k s = (Ok b, s') <-> exists a s1, m s = (Ok a, s1) /\ k a s1 = (Ok b, s').
Proof.
  unfold bind. destruct (m s) as [[a|e|] s1]; split; intros H.
  - by exists a, s1.
  - destruct H as (a' & s1' & [= <- <-] & H). done.
  - done.
  - by destruct H as (? & ? & [=] & _).
  - done.
  - by destruct H as (? & ? & [=] & _).
Qed.

Lemma bind_run {A B} (m : M St A) (k : A -> M St B) s a s1 :
  m s = (Ok a, s1) -> bind m k s = k a s1.
Proof. unfold bind. by intros ->. Qed.

Lemma bind_err {A B} (m : M St A) (k : A -> M St B) s e s1 :
  m s = (Err e, s1) -> bind m k s = (Err e, s1).
Proof. unfold bind. by intros ->. Qed.

Lemma foldM_Ok_inv {A B} (Inv : B -> Prop) (f : B -> A -> M St B) l :
  (forall b a s b' s', a ∈ l -> Inv b -> f b a s = (Ok b', s') -> Inv b') ->
  forall acc s r s', Inv acc -> foldM f acc l s = (Ok r, s') -> Inv r.
Proof.
  induction l as [|x l IH]; intros Hf acc s r s' HI E; cbn [foldM] in E; [by injection E as <- _|].
  apply bind_Ok in E as (b & s1 & E1 & E2). eapply IH; [|eapply Hf; [left|exact HI|exact E1]|exact E2].
  intros b' a s2 b2 s3 Ha. apply Hf. by right.
Qed.

Lemma wrapping_Ok {A} c (m : M St A) s a s' : wrapping c m s = (Ok a, s') <-> m s = (Ok a, s').
Proof. unfold wrapping. destruct (m s) as [[?|?|] ?]; split; congruence. Qed.

End MonadLemmas.

(** Proves a closed decidable proposition by evaluation. *)
Ltac by_decide := apply (bool_decide_unpack _); vm_compute; exact I.

(** Splits a successful run of a sequence of statements into the runs of its
    statements. *)
Ltac run_inv H :=
  match type of H with
  | bind _ _ _ = (Ok _, _) =>
      let a := fresh "r" in let s := fresh "s" in let H1 := fresh "Hr" in
      apply bind_Ok in H as (a & s & H1 & H); run_inv H1; run_inv H
  | wrapping _ _ _ = (Ok _, _) => apply wrapping_Ok in H; run_inv H
  | _ => idtac
  end.

(** ** Frame reasoning: statements that only move the state along a preorder *)

Section Evolves.
Context {St : Type} (rel : St -> St -> Prop) `{!PreOrder rel}.

Definition evolves {A} (m : M St A) : Prop := forall s, rel s (m s).2.

Lemma evolves_ret {A} (a : A) : evolves (ret a).
Proof. intros s. reflexivity. Qed.

Lemma evolves_fail {A} e : evolves (@fail St A e).
Proof. intros s. reflexivity. Qed.

Lemma evolves_panic {A} : evolves (@panic St A).
Proof. intros s. reflexivity. Qed.

Lemma evolves_bind {A B} (m : M St A) (k : A -> M St B) :
  evolves m -> (forall a, evolves (k a)) -> evolves (bind m k).
Proof.
  intros Hm Hk s. specialize (Hm s). unfold bind. destruct (m s) as [[a|e|] s1]; [|exact Hm..].
  etransitivity; [exact Hm|apply Hk].
Qed.

Lemma evolves_wrapping {A} c (m : M St A) : evolves m -> evolves (wrapping c m).
Proof. intros Hm s. specialize (Hm s). unfold wrapping. by destruct (m s) as [[a|e|] s1]. Qed.

Lemma evolves_foldM {A B} (f : B -> A -> M St B) acc l :
  (forall b a, evolves (f b a)) -> evolves (foldM f acc l).
Proof.
  intros Hf. revert acc. induction l as [|x l IH]; intros acc; [apply evolves_ret|].
  apply evolves_bind; [apply Hf|intros; apply IH].
Qed.

Lemma evolves_forM {A} (l : list A) (f : A -> M St unit) : (forall a, evolves (f a)) -> evolves (forM_ l f).
Proof.
  intros Hf. induction l as [|x l IH]; [apply evolves_ret|]. apply evolves_bind; [apply Hf|intros; apply IH].
Qed.

(** A loop whose accumulator keeps an invariant. *)
Lemma evolves_foldM_inv {A B} (Inv : B -> Prop) (f : B -> A -> M St B) acc l :
  Inv acc -> (forall b a, Inv b -> evolves (f b a)) ->
  (forall b a s b' s', Inv b -> f b a s = (Ok b', s') -> Inv b') -> evolves (foldM f acc l).
Proof.
  intros HI Hf Hk. revert acc HI. induction l as [|x l IH]; intros acc HI; [apply evolves_ret|].
  cbn [foldM]. intros s. assert (E := Hf acc x HI s). unfold bind. destruct (f acc x s) as [[b|e|] s1] eqn:F; [|exact E..].
  etransitivity; [exact E|]. apply IH. by eapply Hk.
Qed.

(** Statements of which only the successful runs count: what a failed
    transaction did is undone. *)
Definition lands {A} (m : M St A) : Prop := forall s a s', m s = (Ok a, s') -> rel s s'.

Lemma lands_evolves {A} (m : M St A) : evolves m -> lands m.
Proof. intros Hm s a s' E. specialize (Hm s). by rewrite E in Hm. Qed.

Lemma lands_bind {A B} (m : M St A) (k : A -> M St B) : lands m -> (forall a, lands (k a)) -> lands (bind m k).
Proof.
  intros Hm Hk s b s' (a & s1 & E1 & E2)%bind_Ok. etransitivity; [by eapply Hm|by eapply Hk].
Qed.

(** A sequence whose second part relies on what the first returned. *)
Lemma evolves_bind_post {A B} (Post : A -> Prop) (m : M St A) (k : A -> M St B) :
  evolves m -> (forall s a s', m s = (Ok a, s') -> Post a) -> (forall a, Post a -> evolves (k a)) -> evolves (bind m k).
Proof.
  intros Hm Hp Hk s. assert (E := Hm s). unfold bind. destruct (m s) as [[a|e|] s1] eqn:F; [|exact E..].
  etransitivity; [exact E|]. apply Hk. by eapply Hp.
Qed.

Lemma evolves_if {A} (b : bool) (m1 m2 : M St A) : evolves m1 -> evolves m2 -> evolves (if b then m1 else m2).
Proof. by destruct b. Qed.

End Evolves.

Create HintDb evolves.
#[export] Hint Resolve evolves_ret evolves_fail evolves_panic evolves_bind evolves_wrapping
  evolves_foldM evolves_forM evolves_if : evolves.

(** Closes a goal [evolves rel m] along the structure of [m]. *)
Ltac evolve := repeat first
  [ progress intros | solve [eauto 1 with evolves] | apply evolves_bind | apply evolves_wrapping
  | apply evolves_if | apply evolves_foldM | apply evolves_forM | case_match ].

(** ** The development's hint database: rewriting lemmas of the components *)

Create HintDb kcsp discriminated.
Create Rewrite HintDb kcsp.
