(* ===== verification/GoLang.v ===== *)
(** * The parts of Go and its standard library that the program uses

    Strings are byte strings.  [strings.ToLower], [strings.ToUpper],
    [strings.EqualFold] and [strings.TrimSpace] are given on ASCII text: a byte
    above 127 is neither a letter with a case nor a space.  A [time.Time] is
    the number of nanoseconds since Go's zero time (1 January of year 1, UTC),
    a [time.Duration] a signed 64-bit number of nanoseconds, a Go [int] a
    signed 64-bit integer.  A value of type [interface{}] is a [GoValue]. *)

From S2P Require Import Prelude.

(** ** 64-bit integers *)

Definition two63 : Z := 9223372036854775808.
Definition two64 : Z := 18446744073709551616.
Definition max_int : Z := two63 - 1.
Definition min_int : Z := - two63.

(** The value of an [int] or [int64] expression whose exact value is [z]. *)
Definition wrap64 (z : Z) : Z := (z + two63) mod two64 - two63.

Definition in_int (z : Z) : Prop := min_int <= z <= max_int.

(** ** Strings *)

Definition string_len (s : string) : Z := Z.of_nat (String.length s).

Definition byte_code (c : ascii) : Z := Z.of_N (N_of_ascii c).

Definition is_space (c : ascii) : bool :=
  let n := byte_code c in (n =? 32) || ((9 <=? n) && (n <=? 13)).

Definition lower_ascii (c : ascii) : ascii :=
  let n := byte_code c in
  if (65 <=? n) && (n <=? 90) then ascii_of_N (Z.to_N (n + 32)) else c.

Definition upper_ascii (c : ascii) : ascii :=
  let n := byte_code c in
  if (97 <=? n) && (n <=? 122) then ascii_of_N (Z.to_N (n - 32)) else c.

Fixpoint string_map (f : ascii -> ascii) (s : string) : string :=
  match s with EmptyString => EmptyString | String c r => String (f c) (string_map f r) end.

Definition ToLower (s : string) : string := string_map lower_ascii s.
Definition ToUpper (s : string) : string := string_map upper_ascii s.
Definition EqualFold (a b : string) : bool := ToLower a == ToLower b.

Fixpoint trim_left (s : string) : string :=
  match s with
  | EmptyString => EmptyString
  | String c r => if is_space c then trim_left r else s
  end.

Fixpoint trim_right (s : string) : string :=
  match s with
  | EmptyString => EmptyString
  | String c r => let r' := trim_right r in
                  if is_space c && (r' == "") then "" else String c r'
  end.

Definition TrimSpace (s : string) : string := trim_right (trim_left s).

Definition HasPrefix (s pre : string) : bool := String.prefix pre s.

Fixpoint Contains (s sub : string) : bool :=
  String.prefix sub s || match s with EmptyString => false | String _ r => Contains r sub end.

Fixpoint HasSuffix (s suf : string) : bool :=
  (s == suf) || match s with EmptyString => false | String _ r => HasSuffix r suf end.

Fixpoint string_drop (n : nat) (s : string) : string :=
  match n, s with O, _ => s | S n', String _ r => string_drop n' r | S _, EmptyString => "" end.

Definition TrimPrefix (s pre : string) : string :=
  if HasPrefix s pre then string_drop (String.length pre) s else s.

Fixpoint string_take (n : nat) (s : string) : string :=
  match n, s with S n', String c r => String c (string_take n' r) | _, _ => "" end.

Definition TrimSuffix (s suf : string) : string :=
  if HasSuffix s suf then string_take (String.length s - String.length suf) s else s.

Fixpoint Join (l : list string) (sep : string) : string :=
  match l with
  | [] => ""
  | [s] => s
  | s :: rest => s +:+ sep +:+ Join rest sep
  end.

(** [strings.Split] for a separator of one byte. *)
Fixpoint Split (s : string) (sep : ascii) : list string :=
  match s with
  | EmptyString => [""]
  | String c r =>
      if c == sep then "" :: Split r sep
      else match Split r sep with
           | w :: ws => String c w :: ws
           | [] => [String c ""]
           end
  end.

(** [strings.Fields]: the maximal runs of bytes that are not spaces. *)
Fixpoint fields_acc (s : string) : string * list string :=
  match s with
  | EmptyString => ("", [])
  | String c r =>
      let '(w, ws) := fields_acc r in
      if is_space c then ("", if w == "" then ws else w :: ws) else (String c w, ws)
  end.

Definition Fields (s : string) : list string :=
  let '(w, ws) := fields_acc s in if w == "" then ws else w :: ws.

Fixpoint ContainsAny (s chars : string) : bool :=
  match s with
  | EmptyString => false
  | String c r => existsb (fun d => c == d) (String.list_ascii_of_string chars) || ContainsAny r chars
  end.

Definition Itoa (z : Z) : string := pretty z.

(** The text of an error, as far as the model keeps it. *)
Fixpoint error_text (e : error) : string :=
  match e with
  | New text => text
  | Wrap context cause => context +:+ ": " +:+ error_text cause
  | NodeError code detail _ => code +:+ ": " +:+ detail
  | StatusError status _ => "API source returned HTTP " +:+ Itoa status
  end.

(** [sort.Strings]: byte-wise lexicographic order. *)
Definition sort_Strings (l : list string) : list string := merge_sort String.le l.

(** ** Time *)

Definition Time := Z.
Definition Duration := Z.

Definition Nanosecond : Duration := 1.
Definition Microsecond : Duration := 1000.
Definition Millisecond : Duration := 1000000.
Definition Second : Duration := 1000000000.
Definition Minute : Duration := 60 * Second.
Definition Hour : Duration := 60 * Minute.

Definition zero_time : Time := 0.
Definition IsZero (t : Time) : bool := t =? zero_time.
Definition Before (t u : Time) : bool := t <? u.
Definition After (t u : Time) : bool := u <? t.
Definition time_Add (t : Time) (d : Duration) : Time := t + d.

(** [Time.Truncate] counts from the zero time. *)
Definition time_Truncate (t : Time) (d : Duration) : Time := t - t mod d.

(** [Time.Sub] saturates at the bounds of a Duration. *)
Definition time_Sub (t u : Time) : Duration := Z.max min_int (Z.min max_int (t - u)).

(** ** Dynamic values ([interface{}])

    A [float64] is carried by its two renderings, the one of [fmt.Sprint] and
    the one of [encoding/json]; the program never computes with it.  A
    [map[string]interface{}] is an association list without repeated keys. *)

#[warnings="-register-all"]
Inductive GoValue : Type :=
  | VNil
  | VBool (b : bool)
  | VInt (z : Z)
  | VFloat (sprint json : string)
  | VString (s : string)
  | VStrings (l : list string)
  | VList (l : list GoValue)
  | VMap (m : list (string * GoValue)).

Definition Metadata : Type := option (gmap string GoValue).

(** Reading a possibly nil map. *)
Definition metadata_get (m : Metadata) (key : string) : option GoValue :=
  match m with Some g => g !! key | None => None end.

Fixpoint assoc_get (m : list (string * GoValue)) (key : string) : option GoValue :=
  match m with
  | [] => None
  | (k, v) :: rest => if k == key then Some v else assoc_get rest key
  end.

Definition key_le (a b : string * GoValue) : Prop := String.le a.1 b.1.
#[global] Instance key_le_dec a b : Decision (key_le a b).
Proof. unfold key_le. apply _. Defined.

(** [fmt.Sprint] of one value (maps are printed in key order). *)
Definition FormatBool (b : bool) : string := if b then "true" else "false".

Fixpoint Sprint (v : GoValue) : string :=
  match v with
  | VNil => "<nil>"
  | VBool b => FormatBool b
  | VInt z => Itoa z
  | VFloat s _ => s
  | VString s => s
  | VStrings l => "[" +:+ Join l " " +:+ "]"
  | VList l => "[" +:+ Join (List.map Sprint l) " " +:+ "]"
  | VMap m =>
      "map[" +:+ Join (List.map snd (merge_sort (fun a b => String.le a.1 b.1)
                        (List.map (fun '(k, w) => (k, k +:+ ":" +:+ Sprint w)) m))) " " +:+ "]"
  end.

Fixpoint string_forallb (P : ascii -> bool) (s : string) : bool :=
  match s with EmptyString => true | String c r => P c && string_forallb P r end.

(** Only spaces, or nothing. *)
Definition blank (s : string) : bool := string_forallb is_space s.

#[global] Arguments TrimSpace : simpl never.
#[global] Arguments ToUpper : simpl never.
#[global] Arguments ToLower : simpl never.
#[global] Arguments HasPrefix : simpl never.

(** ** Lemmas on strings *)

Section Strings.

Lemma ToLower_length s : String.length (ToLower s) = String.length s.
Proof. unfold ToLower. induction s; cbn; congruence. Qed.

Lemma trim_left_idemp s : trim_left (trim_left s) = trim_left s.
Proof. induction s as [|c s IH]; cbn; [done|]. destruct (is_space c) eqn:E; cbn; [done|by rewrite E]. Qed.

Lemma trim_right_idemp s : trim_right (trim_right s) = trim_right s.
Proof.
  induction s as [|c s IH]; cbn; [done|].
  destruct (is_space c && (trim_right s == "")) eqn:E; cbn; [done|].
  by rewrite IH, E.
Qed.

Lemma trim_left_head s : match trim_left s with String c _ => is_space c = false | _ => True end.
Proof. induction s as [|c s IH]; cbn; [done|]. destruct (is_space c) eqn:E; cbn; done. Qed.

Lemma trim_left_stable s :
  match s with String c _ => is_space c = false | _ => True end -> trim_left s = s.
Proof. destruct s as [|c s]; cbn; [done|]. by intros ->. Qed.

Lemma trim_right_head s :
  match s with String c _ => is_space c = false | _ => True end ->
  match trim_right s with String c _ => is_space c = false | _ => True end.
Proof. destruct s as [|c s]; cbn; [done|]. intros E. rewrite E. cbn. exact E. Qed.

Lemma TrimSpace_idemp s : TrimSpace (TrimSpace s) = TrimSpace s.
Proof.
  unfold TrimSpace. rewrite (trim_left_stable (trim_right _)).
  - apply trim_right_idemp.
  - apply trim_right_head, trim_left_head.
Qed.

Lemma prefix_app_l pre s : String.prefix pre (pre +:+ s) = true.
Proof. induction pre as [|c pre IH]; simpl; [by destruct s|]. destruct (ascii_dec c c) as [_|n]; [exact IH|by destruct n]. Qed.

Lemma HasPrefix_app s pre : HasPrefix s pre = true -> exists rest, s = pre +:+ rest.
Proof.
  unfold HasPrefix. revert s. induction pre as [|c pre IH]; intros s H; [by exists s|].
  destruct s as [|d s]; [done|]. cbn in H. destruct (ascii_dec c d) as [->|]; [|done].
  destruct (IH s H) as [rest ->]. by exists rest.
Qed.

Lemma append_assoc (a b c : string) : (a +:+ b) +:+ c = a +:+ b +:+ c.
Proof. induction a as [|x a IH]; cbn; [done|]. by f_equal. Qed.

Lemma Split_nonempty s sep : Split s sep <> [].
Proof. induction s as [|c s IH]; cbn; [done|]. destruct (c == sep); [done|]. by destruct (Split s sep). Qed.

Lemma trim_left_empty s : trim_left s = "" <-> blank s = true.
Proof.
  unfold blank. induction s as [|c s IH]; cbn; [done|]. destruct (is_space c); cbn; [exact IH|done].
Qed.

Lemma trim_right_empty s : trim_right s = "" <-> blank s = true.
Proof.
  unfold blank. induction s as [|c s IH]; cbn; [done|].
  destruct (is_space c); cbn; [|done]. case_bool_decide as E.
  - by rewrite IH in E.
  - split; [done|]. intros B. by apply IH in B.
Qed.

Lemma TrimSpace_empty s : TrimSpace s = "" <-> blank s = true.
Proof.
  unfold TrimSpace. rewrite trim_right_empty. unfold blank.
  induction s as [|c s IH]; cbn; [done|].
  destruct (is_space c) eqn:E; cbn; [by rewrite IH|by rewrite E].
Qed.

Lemma upper_is_space c : is_space (upper_ascii c) = is_space c.
Proof. by destruct c as [[] [] [] [] [] [] [] []]. Qed.

Lemma ToUpper_blank s : blank (ToUpper s) = blank s.
Proof. unfold blank, ToUpper. induction s as [|c s IH]; cbn; [done|]. by rewrite upper_is_space, IH. Qed.

Lemma ToUpper_TrimSpace_empty s : TrimSpace (ToUpper s) = "" <-> TrimSpace s = "".
Proof. by rewrite !TrimSpace_empty, ToUpper_blank. Qed.

End Strings.

#[export] Hint Rewrite TrimSpace_idemp ToLower_length : kcsp.

(** ** Lemmas on integers and time *)

Section Integers.

Lemma wrap64_id z : in_int z -> wrap64 z = z.
Proof. unfold in_int, wrap64, min_int, max_int, two63, two64. intros. rewrite Z.mod_small; lia. Qed.

Lemma wrap64_range z : in_int (wrap64 z).
Proof.
  unfold in_int, wrap64, min_int, max_int, two63, two64.
  pose proof (Z.mod_pos_bound (z + 9223372036854775808) 18446744073709551616). lia.
Qed.

(** Incrementing a counter always changes it, even when it wraps around. *)
Lemma wrap64_succ_ne z : wrap64 (z + 1) <> z.
Proof.
  intros E. assert (R := wrap64_range (z + 1)). rewrite E in R.
  unfold in_int, wrap64, min_int, max_int, two63, two64 in *.
  destruct (decide (z = 9223372036854775807)) as [->|]; [by vm_compute in E|].
  rewrite Z.mod_small in E; lia.
Qed.

Lemma time_Sub_range t u : in_int (time_Sub t u).
Proof. unfold in_int, time_Sub, min_int, max_int, two63. lia. Qed.

Lemma time_Sub_le t u d : in_int d -> d < max_int -> time_Sub t u <= d <-> t - u <= d.
Proof. unfold in_int, time_Sub, min_int, max_int, two63. lia. Qed.

End Integers.
