(* ===== verification/GoFormat.v ===== *)
(** * Digests and encodings: SHA-256, hexadecimal, JSON and RFC 3339

    Executable definitions of the standard-library functions whose output the
    program stores or compares: [crypto/sha256], [encoding/hex],
    [encoding/json] on dynamic values and [time.Format(time.RFC3339Nano)]. *)

From S2P Require Import Prelude GoLang.

(** ** SHA-256 (FIPS 180-4) on 32-bit words *)

Module Sha256.

Definition w32 (z : Z) : Z := z mod 4294967296.
Definition rotr (n x : Z) : Z := Z.lor (Z.shiftr x n) (w32 (Z.shiftl x (32 - n))).
Definition ch (x y z : Z) : Z := Z.lxor (Z.land x y) (Z.land (Z.lxor x 4294967295) z).
Definition maj (x y z : Z) : Z := Z.lxor (Z.lxor (Z.land x y) (Z.land x z)) (Z.land y z).
Definition bsig0 (x : Z) : Z := Z.lxor (Z.lxor (rotr 2 x) (rotr 13 x)) (rotr 22 x).
Definition bsig1 (x : Z) : Z := Z.lxor (Z.lxor (rotr 6 x) (rotr 11 x)) (rotr 25 x).
Definition ssig0 (x : Z) : Z := Z.lxor (Z.lxor (rotr 7 x) (rotr 18 x)) (Z.shiftr x 3).
Definition ssig1 (x : Z) : Z := Z.lxor (Z.lxor (rotr 17 x) (rotr 19 x)) (Z.shiftr x 10).

(** The constants are the first 32 bits of the fractional parts of the cube
    roots of the first 64 primes and of the square roots of the first 8. *)
Definition primes : list Z :=
  Eval vm_compute in
    take 64 (filter (fun n => forallb (fun d => negb (n mod d =? 0)) (seqZ 2 (n - 2)) = true) (seqZ 2 310)).

(** The integer cube root of [n] below [2 ^ bits], found bit by bit. *)
Fixpoint cube_root (bits : nat) (acc n : Z) : Z :=
  match bits with
  | O => acc
  | S b => let acc' := acc + Z.shiftl 1 (Z.of_nat b) in
           cube_root b (if acc' * acc' * acc' <=? n then acc' else acc) n
  end.

Definition K : list Z :=
  Eval vm_compute in List.map (fun p => w32 (cube_root 36 0 (Z.shiftl p 96))) primes.

Definition H0 : list Z :=
  Eval vm_compute in List.map (fun p => w32 (Z.sqrt (Z.shiftl p 64))) (take 8 primes).

(** Big-endian bytes of a number, and back. *)
Fixpoint be_bytes (n : nat) (z : Z) : list Z :=
  match n with O => [] | S n' => be_bytes n' (z / 256) ++ [z mod 256] end.

Definition pad (msg : list Z) : list Z :=
  let len := Z.of_nat (length msg) in
  let zeros := (55 - len) mod 64 in
  msg ++ [128] ++ repeat 0 (Z.to_nat zeros) ++ be_bytes 8 (8 * len).

Fixpoint words (bytes : list Z) : list Z :=
  match bytes with
  | a :: b :: c :: d :: rest => (((a * 256 + b) * 256 + c) * 256 + d) :: words rest
  | _ => []
  end.

(** The message schedule, newest word first. *)
Fixpoint schedule (rounds : nat) (ws : list Z) : list Z :=
  match rounds with
  | O => ws
  | S n => let w := w32 (ssig1 (nth 1 ws 0) + nth 6 ws 0 + ssig0 (nth 14 ws 0) + nth 15 ws 0) in
           schedule n (w :: ws)
  end.

Definition round (st : list Z) (kw : Z * Z) : list Z :=
  match st with
  | [a; b; c; d; e; f; g; h] =>
      let t1 := h + bsig1 e + ch e f g + kw.1 + kw.2 in
      let t2 := bsig0 a + maj a b c in
      [w32 (t1 + t2); a; b; c; w32 (d + t1); e; f; g]
  | _ => st
  end.

Definition compress (st block : list Z) : list Z :=
  let ws := rev (schedule 48 (rev block)) in
  let st' := fold_left round (zip K ws) st in
  zip_with (fun x y => w32 (x + y)) st st'.

Fixpoint blocks (fuel : nat) (st ws : list Z) : list Z :=
  match fuel, ws with
  | S n, _ :: _ => blocks n (compress st (take 16 ws)) (drop 16 ws)
  | _, _ => st
  end.

Definition digest (msg : list Z) : list Z :=
  let ws := words (pad msg) in
  flat_map (be_bytes 4) (blocks (length ws) H0 ws).

End Sha256.

(** ** Hexadecimal *)

Definition hex_digit (n : Z) : ascii :=
  ascii_of_N (Z.to_N (if n <? 10 then 48 + n else 87 + n)).

Definition EncodeToString (bytes : list Z) : string :=
  foldr (fun b acc => String (hex_digit (b / 16)) (String (hex_digit (b mod 16)) acc)) "" bytes.

Definition string_bytes (s : string) : list Z := List.map byte_code (String.list_ascii_of_string s).

Definition sha256_hex (s : string) : string := EncodeToString (Sha256.digest (string_bytes s)).

Example sha256_empty :
  sha256_hex "" = "e3b0c44298fc1c149afbf4c8996fb92427ae41e4649b934ca495991b7852b855".
Proof. vm_compute. reflexivity. Qed.

Example sha256_abc :
  sha256_hex "abc" = "ba7816bf8f01cfea414140de5dae2223b00361a396177a9cb410ff61f20015ad".
Proof. vm_compute. reflexivity. Qed.

Example sha256_two_blocks :
  sha256_hex "abcdbcdecdefdefgefghfghighijhijkijkljklmklmnlmnomnopnopq" =
  "248d6a61d20638b8e5c026930c3e6039a33ce45964ff2167f6ecedd419db06c1".
Proof. vm_compute. reflexivity. Qed.

(** ** JSON *)

Definition json_char (c : ascii) : string :=
  let n := byte_code c in
  if n =? 34 then String "092" (String "034" "")
  else if n =? 92 then String "092" (String "092" "")
  else if n =? 8 then String "092" "b" else if n =? 12 then String "092" "f"
  else if n =? 10 then String "092" "n" else if n =? 13 then String "092" "r"
  else if n =? 9 then String "092" "t"
  else if (n <? 32) || (n =? 60) || (n =? 62) || (n =? 38)
       then String "092" "u00" +:+ String (hex_digit (n / 16)) (String (hex_digit (n mod 16)) "")
  else String c "".

Fixpoint json_chars (s : string) : string :=
  match s with EmptyString => "" | String c r => json_char c +:+ json_chars r end.

Definition quote : string := String "034" "".
Definition json_string (s : string) : string := quote +:+ json_chars s +:+ quote.

Definition json_object (fields : list (string * string)) : string :=
  "{" +:+ Join (List.map (fun '(k, v) => json_string k +:+ ":" +:+ v) fields) "," +:+ "}".

Definition json_array (items : list string) : string := "[" +:+ Join items "," +:+ "]".

Definition sort_keys (fields : list (string * string)) : list (string * string) :=
  merge_sort (fun a b => String.le a.1 b.1) fields.

Fixpoint json_value (v : GoValue) : string :=
  match v with
  | VNil => "null"
  | VBool b => FormatBool b
  | VInt z => Itoa z
  | VFloat _ j => j
  | VString s => json_string s
  | VStrings l => json_array (List.map json_string l)
  | VList l => json_array (List.map json_value l)
  | VMap m => json_object (sort_keys (List.map (fun '(k, w) => (k, json_value w)) m))
  end.

Definition json_metadata (m : Metadata) : string :=
  match m with
  | None => "null"
  | Some g => json_object (sort_keys (List.map (fun '(k, w) => (k, json_value w)) (map_to_list g)))
  end.

(** ** RFC 3339 timestamps *)

(** Year, month and day of a day counted from 1 January of year 1. *)
Definition civil_of_days (days : Z) : Z * Z * Z :=
  let z := days + 306 in
  let era := z / 146097 in
  let doe := z mod 146097 in
  let yoe := (doe - doe / 1460 + doe / 36524 - doe / 146096) / 365 in
  let doy := doe - (365 * yoe + yoe / 4 - yoe / 100) in
  let mp := (5 * doy + 2) / 153 in
  let d := doy - (153 * mp + 2) / 5 + 1 in
  let m := if mp <? 10 then mp + 3 else mp - 9 in
  let y := yoe + era * 400 + (if m <=? 2 then 1 else 0) in
  (y, m, d).

(** [n] in decimal with at least [width] digits. *)
Fixpoint pad_digits (width : nat) (n : Z) : string :=
  match width with
  | O => ""
  | S w => pad_digits w (n / 10) +:+ String (hex_digit (n mod 10)) ""
  end.

Fixpoint trim_zeros (s : string) : string :=
  match s with
  | EmptyString => ""
  | String c r => let r' := trim_zeros r in
                  if (c == "0"%char) && (r' == "") then "" else String c r'
  end.

Definition FormatRFC3339Nano (t : Time) : string :=
  let secs := t / Second in
  let nanos := t mod Second in
  let '(y, m, d) := civil_of_days (secs / 86400) in
  let sod := secs mod 86400 in
  let frac := trim_zeros (pad_digits 9 nanos) in
  pad_digits 4 y +:+ "-" +:+ pad_digits 2 m +:+ "-" +:+ pad_digits 2 d +:+ "T" +:+
  pad_digits 2 (sod / 3600) +:+ ":" +:+ pad_digits 2 (sod / 60 mod 60) +:+ ":" +:+
  pad_digits 2 (sod mod 60) +:+ (if frac == "" then "" else "." +:+ frac) +:+ "Z".

Example rfc3339_zero : FormatRFC3339Nano zero_time = "0001-01-01T00:00:00Z".
Proof. vm_compute. reflexivity. Qed.

(** 1710506096.789 s after 1970, which is day 719162 of the calendar. *)
Example rfc3339_leap_year :
  FormatRFC3339Nano ((719162 * 86400 + 1710506096) * Second + 789000000) = "2024-03-15T12:34:56.789Z".
Proof. vm_compute. reflexivity. Qed.

(** ** [time.ParseDuration]

    A sequence of decimal numbers with units.  Go scales the fractional digits
    in floating point; here they are scaled exactly and rounded down. *)

Definition is_digit (c : ascii) : bool := let n := byte_code c in (48 <=? n) && (n <=? 57).

Fixpoint take_digits (s : string) : string * string :=
  match s with
  | String c r => if is_digit c then let '(d, rest) := take_digits r in (String c d, rest) else ("", s)
  | EmptyString => ("", s)
  end.

Fixpoint take_unit (s : string) : string * string :=
  match s with
  | String c r => if (c == "."%char) || is_digit c then ("", s)
                  else let '(u, rest) := take_unit r in (String c u, rest)
  | EmptyString => ("", s)
  end.

Fixpoint digits_value (acc : Z) (s : string) : Z :=
  match s with EmptyString => acc | String c r => digits_value (acc * 10 + (byte_code c - 48)) r end.

Definition duration_unit (u : string) : option Z :=
  if u == "ns" then Some 1
  else if (u == "us") || (u == "µs") || (u == "μs") then Some 1000
  else if u == "ms" then Some Millisecond
  else if u == "s" then Some Second
  else if u == "m" then Some Minute
  else if u == "h" then Some Hour
  else None.

Fixpoint parse_duration_terms (fuel : nat) (acc : Z) (s : string) : option Z :=
  match fuel with
  | O => None
  | S n =>
      if s == "" then Some acc else
      let '(whole, s1) := take_digits s in
      let v := digits_value 0 whole in
      let '(frac, s2) := match s1 with
        | String c r => if c == "."%char then take_digits r else ("", s1)
        | EmptyString => ("", s1) end in
      if (whole == "") && (frac == "") then None
      else if two63 <? v then None else
      let '(u, s3) := take_unit s2 in
      match duration_unit u with
      | None => None
      | Some unit =>
          if two63 / unit <? v then None else
          let v := v * unit + digits_value 0 frac * unit / 10 ^ Z.of_nat (String.length frac) in
          if two63 <? v then None
          else if two63 <? acc + v then None else parse_duration_terms n (acc + v) s3
      end
  end.

Definition ParseDuration (s : string) : option Duration :=
  let '(neg, r) := match s with
    | String c r => if c == "-"%char then (true, r) else if c == "+"%char then (false, r) else (false, s)
    | EmptyString => (false, s) end in
  if r == "0" then Some 0
  else if r == "" then None
  else match parse_duration_terms (S (String.length r)) 0 r with
       | None => None
       | Some d => if neg then Some (- d) else if max_int <? d then None else Some d
       end.

Example ParseDuration_mixed : ParseDuration "1h15m30.5s" = Some (4530 * Second + 500000000).
Proof. vm_compute. reflexivity. Qed.
Example ParseDuration_no_unit : ParseDuration "90" = None /\ ParseDuration "5 m" = None.
Proof. vm_compute. done. Qed.

(** ** What the digest looks like: 64 hexadecimal digits *)

Section Digest.

Lemma be_bytes_length n z : length (Sha256.be_bytes n z) = n.
Proof. revert z. induction n as [|n IH]; intros z; cbn; [done|]. rewrite length_app, IH. cbn. lia. Qed.

Lemma be_bytes_range n z : Forall (fun b => 0 <= b < 256) (Sha256.be_bytes n z).
Proof.
  revert z. induction n as [|n IH]; intros z; cbn; [constructor|].
  apply Forall_app. split; [apply IH|]. repeat constructor; apply Z.mod_pos_bound; lia.
Qed.

Lemma round_length st kw : length (Sha256.round st kw) = length st.
Proof. by do 9 (destruct st as [|? st]; [done|]). Qed.

Lemma rounds_length kws st : length (fold_left Sha256.round kws st) = length st.
Proof. revert st. induction kws as [|kw kws IH]; intros st; cbn; [done|]. by rewrite IH, round_length. Qed.

Lemma blocks_length fuel st ws : length (Sha256.blocks fuel st ws) = length st.
Proof.
  revert st ws. induction fuel as [|n IH]; intros st ws; cbn; [done|].
  destruct ws as [|w ws]; [done|]. rewrite IH. unfold Sha256.compress.
  rewrite length_zip_with, rounds_length. lia.
Qed.

Lemma digest_length msg : length (Sha256.digest msg) = 32%nat.
Proof.
  unfold Sha256.digest. set (st := Sha256.blocks _ _ _).
  assert (L : length st = 8%nat) by (unfold st; by rewrite blocks_length).
  clearbody st. do 8 (destruct st as [|? st]; [done|]). destruct st; [|done].
  cbn [flat_map]. by rewrite !length_app, !be_bytes_length.
Qed.

Lemma digest_range msg : Forall (fun b => 0 <= b < 256) (Sha256.digest msg).
Proof.
  unfold Sha256.digest. generalize (Sha256.blocks (length (Sha256.words (Sha256.pad msg))) Sha256.H0
    (Sha256.words (Sha256.pad msg))). intros st.
  induction st as [|w st IH]; cbn [flat_map]; [constructor|].
  apply Forall_app. split; [apply be_bytes_range|exact IH].
Qed.

Definition hex_byte (c : ascii) : bool :=
  let n := byte_code c in (48 <=? n) && (n <=? 57) || (97 <=? n) && (n <=? 102).

Lemma hex_digit_hex n : 0 <= n < 16 -> hex_byte (hex_digit n) = true.
Proof.
  intros H. assert (F : forallb (fun n => hex_byte (hex_digit n)) (seqZ 0 16) = true) by by vm_compute.
  rewrite forallb_forall in F. apply F, list_elem_of_In, elem_of_seqZ. lia.
Qed.

Lemma EncodeToString_cons b l :
  EncodeToString (b :: l) = String (hex_digit (b / 16)) (String (hex_digit (b mod 16)) (EncodeToString l)).
Proof. done. Qed.

Lemma EncodeToString_length l : String.length (EncodeToString l) = (2 * length l)%nat.
Proof. induction l as [|b l IH]; [done|]. rewrite EncodeToString_cons. cbn [String.length length]. rewrite IH. lia. Qed.

Lemma EncodeToString_hex l : Forall (fun b => 0 <= b < 256) l ->
  string_forallb hex_byte (EncodeToString l) = true.
Proof.
  induction 1 as [|b l Hb _ IH]; [done|]. rewrite EncodeToString_cons. cbn [string_forallb].
  assert (0 <= b / 16 < 16) by (split; [apply Z.div_pos|apply Z.div_lt_upper_bound]; lia).
  assert (0 <= b mod 16 < 16) by (apply Z.mod_pos_bound; lia).
  by rewrite !hex_digit_hex, IH.
Qed.

Lemma sha256_hex_length s : String.length (sha256_hex s) = 64%nat.
Proof. unfold sha256_hex. by rewrite EncodeToString_length, digest_length. Qed.

Lemma sha256_hex_hex s : string_forallb hex_byte (sha256_hex s) = true.
Proof. apply EncodeToString_hex, digest_range. Qed.

End Digest.

#[global] Opaque sha256_hex FormatRFC3339Nano json_metadata.

(** * [mime.ParseMediaType] and [path.Base]

    The functions of the Go standard library with which the evidence service
    normalises content types and file names, on ASCII text. *)

(** ** Media types *)

Definition isTSpecial (c : ascii) : bool :=
  c ∈? ["("; ")"; "<"; ">"; "@"; ","; ";"; ":"; "\"; "034"; "/"; "["; "]"; "?"; "="]%char.

Definition isTokenChar (c : ascii) : bool :=
  let n := byte_code c in (32 <? n) && (n <? 127) && negb (isTSpecial c).

Fixpoint consumeToken (v : string) : string * string :=
  match v with
  | EmptyString => ("", "")
  | String c v' => if isTokenChar c then let '(token, rest) := consumeToken v' in (String c token, rest) else ("", v)
  end.

(** The quoted string after its opening quote; [None] if it has no end. *)
Fixpoint consumeQuoted (v : string) : option (string * string) :=
  match v with
  | EmptyString => None
  | String r v' =>
      if r == "034"%char then Some ("", v')
      else if r == "\"%char then
        match v' with
        | String q v'' =>
            if isTSpecial q then option_map (fun '(value, rest) => (String q value, rest)) (consumeQuoted v'')
            else option_map (fun '(value, rest) => (String r value, rest)) (consumeQuoted v')
        | EmptyString => None
        end
      else if (r == "013"%char) || (r == "010"%char) then None
      else option_map (fun '(value, rest) => (String r value, rest)) (consumeQuoted v')
  end.

Definition consumeValue (v : string) : string * string :=
  match v with
  | EmptyString => ("", "")
  | String c v' => if c == "034"%char then default ("", v) (consumeQuoted v') else consumeToken v
  end.

(** [None] is the empty parameter name. *)
Definition consumeMediaParam (v : string) : option (string * string * string) :=
  match trim_left v with
  | String ";" rest =>
      let '(param, rest) := consumeToken (trim_left rest) in
      let param := ToLower param in
      if param == "" then None else
      match trim_left rest with
      | String "=" rest =>
          let rest := trim_left rest in
          let '(value, rest2) := consumeValue rest in
          if (value == "") && (rest2 == rest) then None else Some (param, value, rest2)
      | _ => None
      end
  | _ => None
  end.

Definition checkMediaTypeDisposition (s : string) : bool :=
  let '(typ, rest) := consumeToken s in
  if typ == "" then false else
  match rest with
  | EmptyString => true
  | String "/" rest => let '(subtype, rest) := consumeToken rest in (subtype != "") && (rest == "")
  | _ => false
  end.

(** The loop over the parameters.  A parameter may be repeated with the same
    value; the pieces of a continued parameter have names of their own, so that
    one map serves for both of the code's. *)
Fixpoint media_params (fuel : nat) (v : string) (params : gmap string string) : bool :=
  match fuel with
  | O => false
  | S fuel =>
      let v := trim_left v in
      if v == "" then true else
      match consumeMediaParam v with
      | None => TrimSpace v == ";"
      | Some (key, value, rest) =>
          match params !! key with
          | Some old => if old == value then media_params fuel rest params else false
          | None => media_params fuel rest (<[key := value]> params)
          end
      end
  end.

(** [strings.Cut v ";"], its first part and what follows with the separator. *)
Fixpoint cut_semicolon (v : string) : string * string :=
  match v with
  | EmptyString => ("", "")
  | String c v' => if c == ";"%char then ("", v) else let '(base, rest) := cut_semicolon v' in (String c base, rest)
  end.

(** The media type, [None] for an error. *)
Definition ParseMediaType (v : string) : option string :=
  let '(base, rest) := cut_semicolon v in
  let mediatype := TrimSpace (ToLower base) in
  if checkMediaTypeDisposition mediatype && media_params (S (String.length rest)) rest ∅ then Some mediatype else None.

Example media_type_parameters : ParseMediaType "Text/HTML; charset=utf-8; q=a" = Some "text/html".
Proof. reflexivity. Qed.

(** ** Paths *)

Fixpoint trim_slashes (s : string) : string :=
  match s with
  | EmptyString => ""
  | String c r => let r' := trim_slashes r in if (c == "/"%char) && (r' == "") then "" else String c r'
  end.

(** What follows the last slash. *)
Fixpoint after_slash (s : string) : string :=
  match s with
  | EmptyString => ""
  | String c r => if existsb (fun x => x == "/"%char) (String.list_ascii_of_string r) then after_slash r
                  else if c == "/"%char then r else s
  end.

Definition path_Base (s : string) : string :=
  if s == "" then "." else
  let base := after_slash (trim_slashes s) in
  if base == "" then "/" else base.

Example path_Base_dirs : path_Base "/var/log//auth.log/" = "auth.log".
Proof. reflexivity. Qed.

(** [strings.Trim s cutset] *)
Fixpoint trim_left_set (cutset : list ascii) (s : string) : string :=
  match s with
  | EmptyString => ""
  | String c r => if c ∈? cutset then trim_left_set cutset r else s
  end.

Fixpoint trim_right_set (cutset : list ascii) (s : string) : string :=
  match s with
  | EmptyString => ""
  | String c r => let r' := trim_right_set cutset r in if (c ∈? cutset) && (r' == "") then "" else String c r'
  end.

Definition strings_Trim (s : string) (cutset : list ascii) : string := trim_right_set cutset (trim_left_set cutset s).
