(* ===== verification/Core.v ===== *)
(** * The core data model (internal/core/model.go)

    The records of the platform with all their fields, in the order of the
    source, the zero values of their types, the severity scale and
    identifiers.  A field [X] of a struct is [<prefix>_X].  A nil slice and an
    empty slice are the same list; a pointer is an option; a nil map and an
    empty map differ ([Metadata]). *)

From S2P Require Import Prelude GoLang.

(** ** Severities *)

Definition Severity := string.
Definition SeverityCritical : Severity := "CRITICAL".
Definition SeverityHigh : Severity := "HIGH".
Definition SeverityMedium : Severity := "MEDIUM".
Definition SeverityLow : Severity := "LOW".
Definition SeverityInformational : Severity := "INFORMATIONAL".

Definition SeverityRank (value : Severity) : Z :=
  if value == SeverityCritical then 5
  else if value == SeverityHigh then 4
  else if value == SeverityMedium then 3
  else if value == SeverityLow then 2
  else 1.

Definition SeverityFromRisk (score : Z) : Severity :=
  if 85 <=? score then SeverityCritical
  else if 65 <=? score then SeverityHigh
  else if 40 <=? score then SeverityMedium
  else if 20 <=? score then SeverityLow
  else SeverityInformational.

(** ** Records *)

Record EventSource : Type := {
  src_Vendor : string;
  src_Product : string;
  src_Type : string
}.
#[export] Instance eta_EventSource : Eta EventSource := fun r => {|
  src_Vendor := src_Vendor r; src_Product := src_Product r; src_Type := src_Type r
|}.

Record SchemaRef : Type := {
  sch_OCSFVersion : string;
  sch_ClassUID : Z
}.
#[export] Instance eta_SchemaRef : Eta SchemaRef := fun r => {|
  sch_OCSFVersion := sch_OCSFVersion r; sch_ClassUID := sch_ClassUID r
|}.

Record UserRef : Type := {
  usr_ID : string;
  usr_Name : string;
  usr_IsPrivileged : bool
}.
#[export] Instance eta_UserRef : Eta UserRef := fun r => {|
  usr_ID := usr_ID r; usr_Name := usr_Name r; usr_IsPrivileged := usr_IsPrivileged r
|}.

Record DeviceRef : Type := {
  dev_ID : string;
  dev_Hostname : string;
  dev_IP : string;
  dev_Department : string;
  dev_Criticality : Z
}.
#[export] Instance eta_DeviceRef : Eta DeviceRef := fun r => {|
  dev_ID := dev_ID r; dev_Hostname := dev_Hostname r; dev_IP := dev_IP r;
  dev_Department := dev_Department r; dev_Criticality := dev_Criticality r
|}.

Record EndpointRef : Type := {
  ep_IP : string;
  ep_Port : Z;
  ep_Hostname : string
}.
#[export] Instance eta_EndpointRef : Eta EndpointRef := fun r => {|
  ep_IP := ep_IP r; ep_Port := ep_Port r; ep_Hostname := ep_Hostname r
|}.

Record ProcessRef : Type := {
  proc_Name : string;
  proc_PID : Z;
  proc_CommandLine : string;
  proc_ParentName : string
}.
#[export] Instance eta_ProcessRef : Eta ProcessRef := fun r => {|
  proc_Name := proc_Name r; proc_PID := proc_PID r; proc_CommandLine := proc_CommandLine r;
  proc_ParentName := proc_ParentName r
|}.

Record SecurityResult : Type := {
  sr_Action : string;
  sr_Outcome : string
}.
#[export] Instance eta_SecurityResult : Eta SecurityResult := fun r => {|
  sr_Action := sr_Action r; sr_Outcome := sr_Outcome r
|}.

Record RawRef : Type := {
  raw_Message : string;
  raw_Hash : string;
  raw_Reference : string
}.
#[export] Instance eta_RawRef : Eta RawRef := fun r => {|
  raw_Message := raw_Message r; raw_Hash := raw_Hash r; raw_Reference := raw_Reference r
|}.

Record ParserRef : Type := {
  prs_ID : string;
  prs_Version : string
}.
#[export] Instance eta_ParserRef : Eta ParserRef := fun r => {|
  prs_ID := prs_ID r; prs_Version := prs_Version r
|}.

Record CanonicalEvent : Type := {
  ev_ID : string;
  ev_TenantID : string;
  ev_EventTime : Time;
  ev_IngestTime : Time;
  ev_CollectorID : string;
  ev_SourceID : string;
  ev_SourceAddress : string;
  ev_Category : string;
  ev_ActivityName : string;
  ev_Source : EventSource;
  ev_Schema : SchemaRef;
  ev_Severity : Z;
  ev_Confidence : Z;
  ev_User : UserRef;
  ev_Device : DeviceRef;
  ev_SrcEndpoint : EndpointRef;
  ev_DstEndpoint : EndpointRef;
  ev_Process : ProcessRef;
  ev_SecurityResult : SecurityResult;
  ev_Raw : RawRef;
  ev_Parser : ParserRef;
  ev_Metadata : Metadata
}.
#[export] Instance eta_CanonicalEvent : Eta CanonicalEvent := fun r => {|
  ev_ID := ev_ID r; ev_TenantID := ev_TenantID r; ev_EventTime := ev_EventTime r;
  ev_IngestTime := ev_IngestTime r; ev_CollectorID := ev_CollectorID r; ev_SourceID := ev_SourceID r;
  ev_SourceAddress := ev_SourceAddress r; ev_Category := ev_Category r; ev_ActivityName := ev_ActivityName r;
  ev_Source := ev_Source r; ev_Schema := ev_Schema r; ev_Severity := ev_Severity r;
  ev_Confidence := ev_Confidence r; ev_User := ev_User r; ev_Device := ev_Device r;
  ev_SrcEndpoint := ev_SrcEndpoint r; ev_DstEndpoint := ev_DstEndpoint r; ev_Process := ev_Process r;
  ev_SecurityResult := ev_SecurityResult r; ev_Raw := ev_Raw r; ev_Parser := ev_Parser r;
  ev_Metadata := ev_Metadata r
|}.

Record RiskFactor : Type := {
  rf_Code : string;
  rf_Label : string;
  rf_Delta : Z;
  rf_SourceReference : string
}.
#[export] Instance eta_RiskFactor : Eta RiskFactor := fun r => {|
  rf_Code := rf_Code r; rf_Label := rf_Label r; rf_Delta := rf_Delta r;
  rf_SourceReference := rf_SourceReference r
|}.

Record RuleRef : Type := {
  rr_ID : string;
  rr_Title : string;
  rr_Version : string
}.
#[export] Instance eta_RuleRef : Eta RuleRef := fun r => {|
  rr_ID := rr_ID r; rr_Title := rr_Title r; rr_Version := rr_Version r
|}.

Record DetectionRule : Type := {
  dr_ID : string;
  dr_Title : string;
  dr_Description : string;
  dr_Version : string;
  dr_Severity : Severity;
  dr_Confidence : Z;
  dr_MITRE : list string;
  dr_RequiredDataSources : list string;
  dr_KnownFalsePositives : list string;
  dr_Owner : string;
  dr_State : string;
  dr_UpdatedAt : Time
}.
#[export] Instance eta_DetectionRule : Eta DetectionRule := fun r => {|
  dr_ID := dr_ID r; dr_Title := dr_Title r; dr_Description := dr_Description r;
  dr_Version := dr_Version r; dr_Severity := dr_Severity r; dr_Confidence := dr_Confidence r;
  dr_MITRE := dr_MITRE r; dr_RequiredDataSources := dr_RequiredDataSources r; dr_KnownFalsePositives := dr_KnownFalsePositives r;
  dr_Owner := dr_Owner r; dr_State := dr_State r; dr_UpdatedAt := dr_UpdatedAt r
|}.

Record Finding : Type := {
  fi_ID : string;
  fi_TenantID : string;
  fi_EventID : string;
  fi_Rule : RuleRef;
  fi_Title : string;
  fi_Severity : Severity;
  fi_Confidence : Z;
  fi_MITRE : list string;
  fi_MatchedFields : list string;
  fi_RiskScore : Z;
  fi_RiskBreakdown : list RiskFactor;
  fi_CreatedAt : Time
}.
#[export] Instance eta_Finding : Eta Finding := fun r => {|
  fi_ID := fi_ID r; fi_TenantID := fi_TenantID r; fi_EventID := fi_EventID r;
  fi_Rule := fi_Rule r; fi_Title := fi_Title r; fi_Severity := fi_Severity r;
  fi_Confidence := fi_Confidence r; fi_MITRE := fi_MITRE r; fi_MatchedFields := fi_MatchedFields r;
  fi_RiskScore := fi_RiskScore r; fi_RiskBreakdown := fi_RiskBreakdown r; fi_CreatedAt := fi_CreatedAt r
|}.

Record EntitySummary : Type := {
  es_Type : string;
  es_ID : string;
  es_Name : string;
  es_Label : string
}.
#[export] Instance eta_EntitySummary : Eta EntitySummary := fun r => {|
  es_Type := es_Type r; es_ID := es_ID r; es_Name := es_Name r;
  es_Label := es_Label r
|}.

Record SLAInfo : Type := {
  sla_AcknowledgeBy : Time;
  sla_Breached : bool;
  sla_Acknowledged : option Time
}.
#[export] Instance eta_SLAInfo : Eta SLAInfo := fun r => {|
  sla_AcknowledgeBy := sla_AcknowledgeBy r; sla_Breached := sla_Breached r; sla_Acknowledged := sla_Acknowledged r
|}.

Record Alert : Type := {
  al_ID : string;
  al_TenantID : string;
  al_Title : string;
  al_Severity : Severity;
  al_RiskScore : Z;
  al_RiskBreakdown : list RiskFactor;
  al_Status : string;
  al_Disposition : string;
  al_Assignee : string;
  al_Rule : RuleRef;
  al_MITRE : list string;
  al_Entity : EntitySummary;
  al_FindingIDs : list string;
  al_EventIDs : list string;
  al_EventCount : Z;
  al_FirstSeen : Time;
  al_LastSeen : Time;
  al_SLA : SLAInfo;
  al_Version : Z;
  al_CreatedAt : Time;
  al_UpdatedAt : Time
}.
#[export] Instance eta_Alert : Eta Alert := fun r => {|
  al_ID := al_ID r; al_TenantID := al_TenantID r; al_Title := al_Title r;
  al_Severity := al_Severity r; al_RiskScore := al_RiskScore r; al_RiskBreakdown := al_RiskBreakdown r;
  al_Status := al_Status r; al_Disposition := al_Disposition r; al_Assignee := al_Assignee r;
  al_Rule := al_Rule r; al_MITRE := al_MITRE r; al_Entity := al_Entity r;
  al_FindingIDs := al_FindingIDs r; al_EventIDs := al_EventIDs r; al_EventCount := al_EventCount r;
  al_FirstSeen := al_FirstSeen r; al_LastSeen := al_LastSeen r; al_SLA := al_SLA r;
  al_Version := al_Version r; al_CreatedAt := al_CreatedAt r; al_UpdatedAt := al_UpdatedAt r
|}.

Record TimelineEntry : Type := {
  te_ID : string;
  te_Type : string;
  te_Message : string;
  te_Actor : string;
  te_CreatedAt : Time;
  te_Data : Metadata
}.
#[export] Instance eta_TimelineEntry : Eta TimelineEntry := fun r => {|
  te_ID := te_ID r; te_Type := te_Type r; te_Message := te_Message r;
  te_Actor := te_Actor r; te_CreatedAt := te_CreatedAt r; te_Data := te_Data r
|}.

Record Incident : Type := {
  in_ID : string;
  in_TenantID : string;
  in_Title : string;
  in_Summary : string;
  in_Severity : Severity;
  in_Status : string;
  in_Disposition : string;
  in_ClosureReason : string;
  in_Assignee : string;
  in_AlertIDs : list string;
  in_FindingIDs : list string;
  in_EventIDs : list string;
  in_Entities : list EntitySummary;
  in_MITRE : list string;
  in_RiskScore : Z;
  in_Timeline : list TimelineEntry;
  in_SLA : SLAInfo;
  in_AllowedTransitions : list string;
  in_Version : Z;
  in_CreatedAt : Time;
  in_UpdatedAt : Time
}.
#[export] Instance eta_Incident : Eta Incident := fun r => {|
  in_ID := in_ID r; in_TenantID := in_TenantID r; in_Title := in_Title r;
  in_Summary := in_Summary r; in_Severity := in_Severity r; in_Status := in_Status r;
  in_Disposition := in_Disposition r; in_ClosureReason := in_ClosureReason r; in_Assignee := in_Assignee r;
  in_AlertIDs := in_AlertIDs r; in_FindingIDs := in_FindingIDs r; in_EventIDs := in_EventIDs r;
  in_Entities := in_Entities r; in_MITRE := in_MITRE r; in_RiskScore := in_RiskScore r;
  in_Timeline := in_Timeline r; in_SLA := in_SLA r; in_AllowedTransitions := in_AllowedTransitions r;
  in_Version := in_Version r; in_CreatedAt := in_CreatedAt r; in_UpdatedAt := in_UpdatedAt r
|}.

Record AuditEntry : Type := {
  au_ID : string;
  au_TenantID : string;
  au_Actor : string;
  au_Action : string;
  au_ResourceType : string;
  au_ResourceID : string;
  au_Outcome : string;
  au_RequestID : string;
  au_Metadata : Metadata;
  au_PreviousHash : string;
  au_Hash : string;
  au_CreatedAt : Time
}.
#[export] Instance eta_AuditEntry : Eta AuditEntry := fun r => {|
  au_ID := au_ID r; au_TenantID := au_TenantID r; au_Actor := au_Actor r;
  au_Action := au_Action r; au_ResourceType := au_ResourceType r; au_ResourceID := au_ResourceID r;
  au_Outcome := au_Outcome r; au_RequestID := au_RequestID r; au_Metadata := au_Metadata r;
  au_PreviousHash := au_PreviousHash r; au_Hash := au_Hash r; au_CreatedAt := au_CreatedAt r
|}.

Record IngestResult : Type := {
  ir_Event : CanonicalEvent;
  ir_Findings : list Finding;
  ir_Alerts : list Alert;
  ir_Duplicate : bool
}.
#[export] Instance eta_IngestResult : Eta IngestResult := fun r => {|
  ir_Event := ir_Event r; ir_Findings := ir_Findings r; ir_Alerts := ir_Alerts r;
  ir_Duplicate := ir_Duplicate r
|}.

(** ** Zero values *)

Definition zero_EventSource : EventSource := {|
  src_Vendor := "";
  src_Product := "";
  src_Type := ""
|}.

Definition zero_SchemaRef : SchemaRef := {|
  sch_OCSFVersion := "";
  sch_ClassUID := 0
|}.

Definition zero_UserRef : UserRef := {|
  usr_ID := "";
  usr_Name := "";
  usr_IsPrivileged := false
|}.

Definition zero_DeviceRef : DeviceRef := {|
  dev_ID := "";
  dev_Hostname := "";
  dev_IP := "";
  dev_Department := "";
  dev_Criticality := 0
|}.

Definition zero_EndpointRef : EndpointRef := {|
  ep_IP := "";
  ep_Port := 0;
  ep_Hostname := ""
|}.

Definition zero_ProcessRef : ProcessRef := {|
  proc_Name := "";
  proc_PID := 0;
  proc_CommandLine := "";
  proc_ParentName := ""
|}.

Definition zero_SecurityResult : SecurityResult := {|
  sr_Action := "";
  sr_Outcome := ""
|}.

Definition zero_RawRef : RawRef := {|
  raw_Message := "";
  raw_Hash := "";
  raw_Reference := ""
|}.

Definition zero_ParserRef : ParserRef := {|
  prs_ID := "";
  prs_Version := ""
|}.

Definition zero_CanonicalEvent : CanonicalEvent := {|
  ev_ID := "";
  ev_TenantID := "";
  ev_EventTime := zero_time;
  ev_IngestTime := zero_time;
  ev_CollectorID := "";
  ev_SourceID := "";
  ev_SourceAddress := "";
  ev_Category := "";
  ev_ActivityName := "";
  ev_Source := zero_EventSource;
  ev_Schema := zero_SchemaRef;
  ev_Severity := 0;
  ev_Confidence := 0;
  ev_User := zero_UserRef;
  ev_Device := zero_DeviceRef;
  ev_SrcEndpoint := zero_EndpointRef;
  ev_DstEndpoint := zero_EndpointRef;
  ev_Process := zero_ProcessRef;
  ev_SecurityResult := zero_SecurityResult;
  ev_Raw := zero_RawRef;
  ev_Parser := zero_ParserRef;
  ev_Metadata := None
|}.

Definition zero_RiskFactor : RiskFactor := {|
  rf_Code := "";
  rf_Label := "";
  rf_Delta := 0;
  rf_SourceReference := ""
|}.

Definition zero_RuleRef : RuleRef := {|
  rr_ID := "";
  rr_Title := "";
  rr_Version := ""
|}.

Definition zero_DetectionRule : DetectionRule := {|
  dr_ID := "";
  dr_Title := "";
  dr_Description := "";
  dr_Version := "";
  dr_Severity := "";
  dr_Confidence := 0;
  dr_MITRE := [];
  dr_RequiredDataSources := [];
  dr_KnownFalsePositives := [];
  dr_Owner := "";
  dr_State := "";
  dr_UpdatedAt := zero_time
|}.

Definition zero_Finding : Finding := {|
  fi_ID := "";
  fi_TenantID := "";
  fi_EventID := "";
  fi_Rule := zero_RuleRef;
  fi_Title := "";
  fi_Severity := "";
  fi_Confidence := 0;
  fi_MITRE := [];
  fi_MatchedFields := [];
  fi_RiskScore := 0;
  fi_RiskBreakdown := [];
  fi_CreatedAt := zero_time
|}.

Definition zero_EntitySummary : EntitySummary := {|
  es_Type := "";
  es_ID := "";
  es_Name := "";
  es_Label := ""
|}.

Definition zero_SLAInfo : SLAInfo := {|
  sla_AcknowledgeBy := zero_time;
  sla_Breached := false;
  sla_Acknowledged := None
|}.

Definition zero_Alert : Alert := {|
  al_ID := "";
  al_TenantID := "";
  al_Title := "";
  al_Severity := "";
  al_RiskScore := 0;
  al_RiskBreakdown := [];
  al_Status := "";
  al_Disposition := "";
  al_Assignee := "";
  al_Rule := zero_RuleRef;
  al_MITRE := [];
  al_Entity := zero_EntitySummary;
  al_FindingIDs := [];
  al_EventIDs := [];
  al_EventCount := 0;
  al_FirstSeen := zero_time;
  al_LastSeen := zero_time;
  al_SLA := zero_SLAInfo;
  al_Version := 0;
  al_CreatedAt := zero_time;
  al_UpdatedAt := zero_time
|}.

Definition zero_TimelineEntry : TimelineEntry := {|
  te_ID := "";
  te_Type := "";
  te_Message := "";
  te_Actor := "";
  te_CreatedAt := zero_time;
  te_Data := None
|}.

Definition zero_Incident : Incident := {|
  in_ID := "";
  in_TenantID := "";
  in_Title := "";
  in_Summary := "";
  in_Severity := "";
  in_Status := "";
  in_Disposition := "";
  in_ClosureReason := "";
  in_Assignee := "";
  in_AlertIDs := [];
  in_FindingIDs := [];
  in_EventIDs := [];
  in_Entities := [];
  in_MITRE := [];
  in_RiskScore := 0;
  in_Timeline := [];
  in_SLA := zero_SLAInfo;
  in_AllowedTransitions := [];
  in_Version := 0;
  in_CreatedAt := zero_time;
  in_UpdatedAt := zero_time
|}.

Definition zero_AuditEntry : AuditEntry := {|
  au_ID := "";
  au_TenantID := "";
  au_Actor := "";
  au_Action := "";
  au_ResourceType := "";
  au_ResourceID := "";
  au_Outcome := "";
  au_RequestID := "";
  au_Metadata := None;
  au_PreviousHash := "";
  au_Hash := "";
  au_CreatedAt := zero_time
|}.

(** ** Identifiers

    [NewID] draws twelve random bytes; the draw is an argument, given in
    hexadecimal. *)

Definition NewID (prefix random : string) : string := prefix +:+ "_" +:+ random.

(** ** Lemmas *)

Lemma SeverityRank_bounds s : 1 <= SeverityRank s <= 5.
Proof. unfold SeverityRank. repeat case_bool_decide; lia. Qed.

Lemma SeverityFromRisk_rank score :
  SeverityRank (SeverityFromRisk score) =
  if 85 <=? score then 5 else if 65 <=? score then 4
  else if 40 <=? score then 3 else if 20 <=? score then 2 else 1.
Proof. unfold SeverityFromRisk. repeat case_match; reflexivity. Qed.

Lemma NewID_inj prefix : Inj (=) (=) (NewID prefix).
Proof.
  intros a b. unfold NewID. induction prefix as [|c p IH]; cbn; intros E; injection E; auto.
Qed.

Lemma NewID_nonempty prefix random : NewID prefix random <> "".
Proof. by destruct prefix. Qed.

#[export] Hint Resolve SeverityRank_bounds NewID_nonempty : kcsp.

(** * The runtime a service runs in: the clock, random bytes, the repository

    A service reads the wall clock ([time.Now]) and draws random identifiers
    ([crypto/rand]).  Both are oracles: arbitrary functions of how often they
    were asked.  A [World] is a repository state together with that runtime. *)

Record Runtime : Type := {
  rt_clock : nat -> Time;
  rt_random : nat -> string;
  rt_ticks : nat;
  rt_draws : nat
}.
#[export] Instance eta_Runtime : Eta Runtime := fun r => {|
  rt_clock := rt_clock r; rt_random := rt_random r; rt_ticks := rt_ticks r; rt_draws := rt_draws r
|}.

Record World (R : Type) : Type := mkWorld { w_repo : R; w_rt : Runtime }.
Arguments mkWorld {R} _ _.
Arguments w_repo {R} _.
Arguments w_rt {R} _.

Section Effects.
Context {R : Type}.

(** [time.Now().UTC()] *)
Definition Now : M (World R) Time := fun w =>
  let rt := w_rt w in
  (Ok (rt_clock rt (rt_ticks rt)), mkWorld (w_repo w) (rt {{ rt_ticks ::= S }})).

(** The twelve random bytes of [core.NewID], in hexadecimal. *)
Definition Random : M (World R) string := fun w =>
  let rt := w_rt w in
  (Ok (rt_random rt (rt_draws rt)), mkWorld (w_repo w) (rt {{ rt_draws ::= S }})).

(** A call of the repository. *)
Definition on_repo {A} (m : M R A) : M (World R) A := fun w =>
  let '(a, r) := m (w_repo w) in (a, mkWorld r (w_rt w)).

Lemma on_repo_Ok {A} (m : M R A) w a w' :
  on_repo m w = (Ok a, w') <-> m (w_repo w) = (Ok a, w_repo w') /\ w_rt w' = w_rt w.
Proof.
  unfold on_repo. destruct w as [r rt], w' as [r' rt'], (m r) as [o r2] eqn:E. cbn. rewrite E.
  split; [by intros [= -> -> ->]|]. by intros [[= -> ->] ->].
Qed.

End Effects.

(** A runtime for the examples: the clock stands still in 2022 and the random
    strings grow by one letter a draw. *)
Fixpoint tally (n : nat) : string := match n with O => "" | S n' => String "a" (tally n') end.

Lemma tally_inj : Inj (=) (=) tally.
Proof. intros n. induction n as [|n IH]; intros [|m]; cbn; try done. intros [= E]. f_equal. by apply IH. Qed.

Definition steady_runtime : Runtime :=
  {| rt_clock := fun _ => 63800000000 * Second; rt_random := tally; rt_ticks := 0; rt_draws := 0 |}.
