(* ===== verification/HashChain.v ===== *)
(** * Hash chains

    The audit log and the chain of custody are lists of entries each of which
    carries the digest of its predecessor and a digest of its own text.  The
    loop that checks such a list, and what a checked list protects, for any
    kind of entry. *)

From S2P Require Import Prelude GoLang GoFormat.

Section HashChain.
Context {E : Type} (link hash text : E -> string).
Implicit Types (l : list E) (e : E) (p q : string).

Definition digest (e : E) : string := sha256_hex (text e).

Definition link_checks (previous : string) (e : E) : bool := (link e == previous) && (digest e == hash e).

(** [None] is the loop's early [return false]. *)
Fixpoint verify_links (previous : string) (entries : list E) : option string :=
  match entries with
  | [] => Some previous
  | e :: rest => if link_checks previous e then verify_links (hash e) rest else None
  end.

(** Two entries of the lists with different texts and one digest. *)
Definition collides (l1 l2 : list E) : Prop :=
  exists e1 e2, e1 ∈ l1 /\ e2 ∈ l2 /\ text e1 <> text e2 /\ digest e1 = digest e2.

Lemma link_checks_true p e : link_checks p e = true <-> link e = p /\ hash e = digest e.
Proof. unfold link_checks. rewrite andb_true_iff, !bool_decide_eq_true. naive_solver. Qed.

Lemma verify_links_app p l1 l2 :
  verify_links p (l1 ++ l2) = match verify_links p l1 with Some q => verify_links q l2 | None => None end.
Proof. revert p. induction l1 as [|e l1 IH]; intros p; [done|]. cbn. by destruct (link_checks p e). Qed.

Lemma verify_links_snoc p l e q :
  verify_links p (l ++ [e]) = Some q <-> verify_links p l = Some (link e) /\ hash e = digest e /\ q = digest e.
Proof.
  rewrite verify_links_app. destruct (verify_links p l) as [r|]; [cbn|naive_solver].
  destruct (link_checks r e) eqn:K.
  - apply link_checks_true in K. naive_solver congruence.
  - split; [done|]. intros ([= ->] & H & _). assert (link_checks (link e) e = true) by (by apply link_checks_true). congruence.
Qed.

Lemma verify_links_ext p l (f : E -> E) :
  (forall e, link (f e) = link e /\ hash (f e) = hash e /\ text (f e) = text e) ->
  verify_links p (List.map f l) = verify_links p l.
Proof.
  intros Hf. revert p. induction l as [|e l IH]; intros p; [done|]. cbn. destruct (Hf e) as (E1 & E2 & E3).
  unfold link_checks, digest. by rewrite E1, E2, E3, IH.
Qed.

Lemma digest_hex e : string_forallb hex_byte (digest e) = true.
Proof. apply sha256_hex_hex. Qed.

Lemma digest_nonempty e : digest e <> "".
Proof. intros K. assert (L := sha256_hex_length (text e)). unfold digest in K. by rewrite K in L. Qed.

Lemma verified_hex l q : verify_links "" l = Some q -> string_forallb hex_byte q = true.
Proof.
  destruct l as [|e l _] using rev_ind; [by intros [= <-]|]. intros (_ & _ & ->)%verify_links_snoc. apply digest_hex.
Qed.

Lemma collides_app l1 l2 e1 e2 : collides l1 l2 -> collides (l1 ++ [e1]) (l2 ++ [e2]).
Proof. intros (a & b & ? & ? & ? & ?). exists a, b. set_solver. Qed.

(** Lists that check up to the same digest have the same texts or a collision,
    if a text determines the link it contains. *)
Lemma chains_agree l1 l2 q :
  (forall e1 e2, string_forallb hex_byte (link e1) = true -> string_forallb hex_byte (link e2) = true ->
     text e1 = text e2 -> link e1 = link e2) ->
  verify_links "" l1 = Some q -> verify_links "" l2 = Some q ->
  List.map text l1 = List.map text l2 \/ collides l1 l2.
Proof.
  intros Hlink. revert l2 q. induction l1 as [|e1 l1 IH] using rev_ind; intros l2 q V1 V2;
    (destruct l2 as [|e2 l2 _] using rev_ind; [|apply verify_links_snoc in V2 as (V2 & _ & Q2)]).
  - by left.
  - cbn in V1. injection V1 as <-. by destruct (digest_nonempty e2).
  - apply verify_links_snoc in V1 as (_ & _ & Q1). cbn in V2. injection V2 as <-. by destruct (digest_nonempty e1).
  - apply verify_links_snoc in V1 as (V1 & _ & Q1).
    destruct (decide (text e1 = text e2)) as [P|P].
    + assert (L : link e1 = link e2) by (apply Hlink; [by eapply verified_hex..|done]).
      rewrite <- L in V2. destruct (IH _ _ V1 V2) as [K|C]; [left|right; by apply collides_app].
      by rewrite !map_app, K; cbn; rewrite P.
    + right. exists e1, e2. split_and!; [set_solver..|done|congruence].
Qed.

End HashChain.
