(* ===== verification/TenantId.v ===== *)
(** * Tenant identifiers (internal/platform/tenant/id.go)

    The validation of a tenant identifier, what a valid identifier looks like,
    and why the flat keys ["tenant|rest"] the platform builds from it keep
    tenants apart. *)

From S2P Require Import Prelude GoLang.

Definition MaxIDLength : Z := 63.

Definition ErrInvalidID : error := New "invalid tenant ID".

Definition isLowerAlphaNumeric (value : ascii) : bool :=
  let n := byte_code value in
  (97 <=? n) && (n <=? 122) || (48 <=? n) && (n <=? 57).

(** The body of the loop of [Valid], on the byte at [index]. *)
Definition valid_inner (value : string) (index : nat) : bool :=
  match String.get index value with
  | Some c => isLowerAlphaNumeric c || (c == "-"%char)
  | None => false
  end.

Definition Valid (value : string) : bool :=
  if (value == "") || (MaxIDLength <? string_len value)
     || negb (match String.get 0 value with Some c => isLowerAlphaNumeric c | None => false end)
     || negb (match String.get (String.length value - 1) value with
              | Some c => isLowerAlphaNumeric c | None => false end)
  then false
  else forallb (valid_inner value) (seq 1 (String.length value - 2)).

Definition Validate (value : string) : outcome unit :=
  if Valid value then Ok tt else Err ErrInvalidID.

(** ** Lemmas *)

Definition tenant_byte (c : ascii) : bool := isLowerAlphaNumeric c || (c == "-"%char).

Lemma Valid_bytes value : Valid value = true ->
  forall i c, String.get i value = Some c -> tenant_byte c = true.
Proof.
  unfold Valid. case_match eqn:G; [done|]. intros F i c Hi.
  rewrite !orb_false_iff, !negb_false_iff in G. destruct G as [[[G1 G2] G3] G4].
  assert (Hlt : (i < String.length value)%nat).
  { destruct (decide (i < String.length value)%nat); [done|].
    assert (String.get i value = None) as E; [|congruence].
    clear -n. revert i n. induction value as [|d v IH]; intros i n; destruct i; cbn in *; try done; [lia|].
    apply IH. lia. }
  unfold tenant_byte. destruct (decide (i = 0%nat)) as [->|Hi0].
  { rewrite Hi in G3. by rewrite G3. }
  destruct (decide (i = (String.length value - 1)%nat)) as [->|Hil].
  { rewrite Hi in G4. by rewrite G4. }
  rewrite forallb_forall in F. specialize (F i). unfold valid_inner in F. rewrite Hi in F.
  apply F, in_seq. lia.
Qed.

Fixpoint free_of (sep : ascii) (s : string) : bool :=
  match s with EmptyString => true | String c r => (c != sep) && free_of sep r end.

Definition no_bar : string -> bool := free_of "|"%char.

Lemma Valid_free_of sep value : tenant_byte sep = false -> Valid value = true -> free_of sep value = true.
Proof.
  intros Hs V. assert (B := Valid_bytes _ V). clear V.
  induction value as [|c v IH]; [done|]. cbn.
  rewrite IH by (intros i d; exact (B (S i) d)).
  rewrite andb_true_r. specialize (B 0%nat c eq_refl).
  destruct (decide (c = sep)) as [->|]; [congruence|].
  by rewrite bool_decide_false.
Qed.

Lemma Valid_no_bar value : Valid value = true -> no_bar value = true.
Proof. by apply Valid_free_of. Qed.

(** The key made of [t], the separator and [k] starts with [u] and the
    separator only for [u = t], when neither tenant has the separator. *)
Lemma separated_prefix sep t u k : free_of sep t = true -> free_of sep u = true ->
  HasPrefix (t +:+ String sep k) (u +:+ String sep "") = (t == u).
Proof.
  unfold HasPrefix. revert u. induction t as [|c t IH]; intros u Ht Hu.
  - destruct u as [|d u]; cbn in *; [destruct (ascii_dec sep sep); [by destruct k|done]|].
    apply andb_true_iff in Hu as [Hd _]. rewrite negb_true_iff, bool_decide_eq_false in Hd.
    destruct (ascii_dec d sep); done.
  - cbn in Ht. apply andb_true_iff in Ht as [Hc Ht].
    rewrite negb_true_iff, bool_decide_eq_false in Hc.
    destruct u as [|d u]; cbn.
    + destruct (ascii_dec sep c); [congruence|done].
    + cbn in Hu. apply andb_true_iff in Hu as [Hd Hu].
      destruct (ascii_dec d c) as [->|Hne].
      * etrans; [exact (IH u Ht Hu)|]. apply bool_decide_ext. split; congruence.
      * symmetry. apply bool_decide_eq_false. congruence.
Qed.

Lemma bar_key_prefix t u k : no_bar t = true -> no_bar u = true ->
  HasPrefix (t +:+ "|" +:+ k) (u +:+ "|") = (t == u).
Proof. apply (separated_prefix "|"). Qed.

Lemma bar_key_inj t u k j : no_bar t = true -> no_bar u = true ->
  t +:+ "|" +:+ k = u +:+ "|" +:+ j -> t = u /\ k = j.
Proof.
  intros Ht Hu E.
  assert (t = u) as <-.
  { assert (P := bar_key_prefix t u k Ht Hu). rewrite E in P. unfold HasPrefix in P.
    assert (String.prefix (u +:+ "|") (u +:+ "|" +:+ j) = true) as Q.
    { replace (u +:+ "|" +:+ j) with ((u +:+ "|") +:+ j); [apply prefix_app_l|].
      clear. induction u; cbn; [done|]. by f_equal. }
    rewrite Q in P. symmetry in P. by apply bool_decide_eq_true in P. }
  split; [done|]. clear -E. induction t as [|c t IH]; cbn in E; injection E; auto.
Qed.
