(* ===== verification/MemoryStore.v ===== *)
(** * The in-memory repository (internal/store/memory.go, repository.go)

    The state of [store.Memory] and one definition per operation.  Every
    operation takes the lock for its whole body, so it is one atomic step on
    the state.  What an operation reads from the clock or from [core.NewID] is
    an argument.  A map of maps is a [gmap] of [gmap]s; the zero value read
    from a missing key is written out. *)

From S2P Require Import Prelude GoLang GoFormat Core TenantId.

(** ** Errors *)

Definition ErrNotFound : error := New "resource not found".
Definition ErrVersionConflict : error := New "resource version conflict".
Definition ErrAlreadyExists : error := New "resource already exists".

(** ** State *)

Record EventFilter : Type := {
  ef_Query : string; ef_Category : string; ef_Severity : Z; ef_Limit : Z
}.

Record AlertFilter : Type := {
  af_Status : string; af_Severity : Severity; af_Assignee : string; af_Query : string; af_Limit : Z
}.

Record IncidentFilter : Type := {
  if_Status : string; if_Severity : Severity; if_Query : string; if_Limit : Z
}.

Record Memory : Type := {
  m_events : gmap string (gmap string CanonicalEvent);
  m_eventOrder : gmap string (list string);
  m_findings : gmap string (gmap string Finding);
  m_findingOrder : gmap string (list string);
  m_alerts : gmap string (gmap string Alert);
  m_alertOrder : gmap string (list string);
  m_dedup : gmap string string;
  m_incidents : gmap string (gmap string Incident);
  m_incidentOrder : gmap string (list string);
  m_audit : gmap string (list AuditEntry);
  m_auditHeads : gmap string string;
  m_rules : list DetectionRule
}.
#[export] Instance eta_Memory : Eta Memory := fun r => {|
  m_events := m_events r; m_eventOrder := m_eventOrder r; m_findings := m_findings r;
  m_findingOrder := m_findingOrder r; m_alerts := m_alerts r; m_alertOrder := m_alertOrder r;
  m_dedup := m_dedup r; m_incidents := m_incidents r; m_incidentOrder := m_incidentOrder r;
  m_audit := m_audit r; m_auditHeads := m_auditHeads r; m_rules := m_rules r
|}.

Definition NewMemory : Memory := {|
  m_events := ∅; m_eventOrder := ∅; m_findings := ∅; m_findingOrder := ∅;
  m_alerts := ∅; m_alertOrder := ∅; m_dedup := ∅; m_incidents := ∅;
  m_incidentOrder := ∅; m_audit := ∅; m_auditHeads := ∅; m_rules := []
|}.

(** ** Reads and writes of the two-level maps *)

(** [m[t]] for a map of maps: the nil map reads as the empty one. *)
Definition tenant_map {A} (m : gmap string (gmap string A)) (t : string) : gmap string A :=
  default ∅ (m !! t).
(** [m[t][k]] with its [ok]. *)
Definition lookup2 {A} (m : gmap string (gmap string A)) (t k : string) : option A :=
  tenant_map m t !! k.
(** [m[t][k] = v] for a tenant whose map exists ([tenants_agree] below). *)
Definition put2 {A} (m : gmap string (gmap string A)) (t k : string) (v : A) : gmap string (gmap string A) :=
  <[t := <[k := v]> (tenant_map m t)]> m.
(** [m[t]] for a map of slices and for a map of strings. *)
Definition slice_of {A} (m : gmap string (list A)) (t : string) : list A := default [] (m !! t).
Definition append_to {A} (m : gmap string (list A)) (t : string) (v : A) : gmap string (list A) :=
  <[t := slice_of m t ++ [v]]> m.
Definition string_of (m : gmap string string) (t : string) : string := default "" (m !! t).

(** ** Helpers *)

Definition normalizedLimit (value : Z) : Z :=
  if value <=? 0 then 100 else if 500 <? value then 500 else value.

(** The loop of [appendUnique], with its [seen] map. *)
Fixpoint appendUnique_loop (seen : gset string) (values additions : list string) : list string :=
  match additions with
  | [] => values
  | value :: rest =>
      if (value != "") && negb (value ∈? seen)
      then appendUnique_loop ({[value]} ∪ seen) (values ++ [value]) rest
      else appendUnique_loop seen values rest
  end.

Definition appendUnique (values additions : list string) : list string :=
  appendUnique_loop (list_to_set values) values additions.

(** The loop of the List operations: walk the order from its end, keep what the
    filter accepts, stop when [limit] elements are collected. *)
Fixpoint collect {A} (limit : nat) (read : string -> A) (keep : A -> bool) (newest_first : list string) : list A :=
  match newest_first, limit with
  | [], _ | _, O => []
  | id :: rest, S limit' =>
      let x := read id in
      if keep x then x :: collect limit' read keep rest else collect limit read keep rest
  end.

Definition list_tenant {A} (m : gmap string (gmap string A)) (order : gmap string (list string))
    (zero : A) (tenantID : string) (limit : Z) (keep : A -> bool) : list A :=
  collect (Z.to_nat (normalizedLimit limit)) (fun id => default zero (lookup2 m tenantID id)) keep
          (rev (slice_of order tenantID)).

(** ** Operations *)

Definition SetRules (rules : list DetectionRule) (m : Memory) : Memory := m {{ m_rules := rules }}.

(** [sort.Slice] is not stable: this is the order among equal times that a
    stable sort gives. *)
Definition newer_rule (a b : DetectionRule) : Prop := dr_UpdatedAt b <= dr_UpdatedAt a.
#[global] Instance newer_rule_dec a b : Decision (newer_rule a b).
Proof. unfold newer_rule. apply _. Defined.
Definition ListRules (m : Memory) : list DetectionRule := merge_sort newer_rule (m_rules m).

Definition ensureTenantLocked (tenantID : string) (m : Memory) : Memory :=
  match m_events m !! tenantID with
  | Some _ => m
  | None => m {{ m_events ::= <[tenantID := ∅]>; m_findings ::= <[tenantID := ∅]>;
                 m_alerts ::= <[tenantID := ∅]>; m_incidents ::= <[tenantID := ∅]> }}
  end.

Definition ResetTenant (tenantID : string) (m : Memory) : Memory :=
  m {{ m_events ::= <[tenantID := ∅]>; m_eventOrder ::= <[tenantID := []]>;
       m_findings ::= <[tenantID := ∅]>; m_findingOrder ::= <[tenantID := []]>;
       m_alerts ::= <[tenantID := ∅]>; m_alertOrder ::= <[tenantID := []]>;
       m_incidents ::= <[tenantID := ∅]>; m_incidentOrder ::= <[tenantID := []]>;
       m_audit ::= <[tenantID := []]>; m_auditHeads ::= <[tenantID := ""]>;
       m_dedup ::= filter (fun kv => HasPrefix kv.1 (tenantID +:+ "|") = false) }}.

Definition PutEvent (event : CanonicalEvent) (m : Memory) : CanonicalEvent * bool * Memory :=
  let m := ensureTenantLocked (ev_TenantID event) m in
  match lookup2 (m_events m) (ev_TenantID event) (ev_ID event) with
  | Some existing => (existing, true, m)
  | None => (event, false,
      m {{ m_events ::= fun es => put2 es (ev_TenantID event) (ev_ID event) event;
           m_eventOrder ::= fun o => append_to o (ev_TenantID event) (ev_ID event) }})
  end.

Definition GetEvent (tenantID eventID : string) (m : Memory) : outcome CanonicalEvent :=
  match lookup2 (m_events m) tenantID eventID with Some event => Ok event | None => Err ErrNotFound end.

Definition eventContains (event : CanonicalEvent) (query : string) : bool :=
  let searchable := Join [
    ev_ID event; ev_Category event; ev_ActivityName event; src_Vendor (ev_Source event);
    src_Product (ev_Source event); usr_Name (ev_User event); dev_Hostname (ev_Device event);
    dev_IP (ev_Device event); ep_IP (ev_SrcEndpoint event); ep_IP (ev_DstEndpoint event);
    proc_Name (ev_Process event); proc_CommandLine (ev_Process event);
    sr_Outcome (ev_SecurityResult event); raw_Message (ev_Raw event)] " " in
  Contains (ToLower searchable) query.

Definition event_selected (filter : EventFilter) (event : CanonicalEvent) : bool :=
  let query := ToLower (TrimSpace (ef_Query filter)) in
  negb ((ef_Category filter != "") && negb (EqualFold (ev_Category event) (ef_Category filter)))
  && negb ((0 <? ef_Severity filter) && negb (ev_Severity event =? ef_Severity filter))
  && negb ((query != "") && negb (eventContains event query)).

Definition ListEvents (tenantID : string) (filter : EventFilter) (m : Memory) : list CanonicalEvent :=
  list_tenant (m_events m) (m_eventOrder m) zero_CanonicalEvent tenantID (ef_Limit filter) (event_selected filter).

Definition PutFinding (finding : Finding) (m : Memory) : Memory :=
  let m := ensureTenantLocked (fi_TenantID finding) m in
  match lookup2 (m_findings m) (fi_TenantID finding) (fi_ID finding) with
  | Some _ => m
  | None => m {{ m_findings ::= fun fs => put2 fs (fi_TenantID finding) (fi_ID finding) finding;
                 m_findingOrder ::= fun o => append_to o (fi_TenantID finding) (fi_ID finding) }}
  end.

Definition ListFindings (tenantID eventID : string) (limit : Z) (m : Memory) : list Finding :=
  list_tenant (m_findings m) (m_findingOrder m) zero_Finding tenantID limit
    (fun finding => negb ((eventID != "") && (fi_EventID finding != eventID))).

(** The merge of a candidate into an existing alert. *)
Definition merge_alert (existing candidate : Alert) : Alert :=
  let eventIDs := appendUnique (al_EventIDs existing) (al_EventIDs candidate) in
  let existing := existing {{
    al_FindingIDs := appendUnique (al_FindingIDs existing) (al_FindingIDs candidate);
    al_EventIDs := eventIDs;
    al_EventCount := Z.of_nat (length eventIDs);
    al_LastSeen := al_LastSeen candidate;
    al_UpdatedAt := al_UpdatedAt candidate;
    al_Version := wrap64 (al_Version existing + 1) }} in
  if al_RiskScore existing <? al_RiskScore candidate
  then existing {{ al_RiskScore := al_RiskScore candidate;
                   al_RiskBreakdown := al_RiskBreakdown candidate;
                   al_Severity := al_Severity candidate }}
  else existing.

(** The alert a candidate is merged into: the one its key points to, while it
    is open and inside the window. *)
Definition mergeable (candidate : Alert) (key : string) (window : Duration) (m : Memory) : option (string * Alert) :=
  let existingID := string_of (m_dedup m) key in
  if existingID != "" then
    match lookup2 (m_alerts m) (al_TenantID candidate) existingID with
    | Some existing =>
        if (al_Status existing != "CLOSED")
           && (time_Sub (al_LastSeen candidate) (al_LastSeen existing) <=? window)
        then Some (existingID, existing) else None
    | None => None
    end
  else None.

Definition UpsertAlert (candidate : Alert) (dedupKey : string) (window : Duration) (m : Memory)
    : Alert * bool * Memory :=
  let m := ensureTenantLocked (al_TenantID candidate) m in
  let key := al_TenantID candidate +:+ "|" +:+ dedupKey in
  match mergeable candidate key window m with
  | Some (existingID, existing) =>
      let existing := merge_alert existing candidate in
      (existing, false, m {{ m_alerts ::= fun a => put2 a (al_TenantID candidate) existingID existing }})
  | None =>
      (candidate, true,
       m {{ m_alerts ::= fun a => put2 a (al_TenantID candidate) (al_ID candidate) candidate;
            m_alertOrder ::= fun o => append_to o (al_TenantID candidate) (al_ID candidate);
            m_dedup ::= <[key := al_ID candidate]> }})
  end.

Definition GetAlert (tenantID alertID : string) (m : Memory) : outcome Alert :=
  match lookup2 (m_alerts m) tenantID alertID with Some alert => Ok alert | None => Err ErrNotFound end.

Definition alert_selected (filter : AlertFilter) (alert : Alert) : bool :=
  let query := ToLower (TrimSpace (af_Query filter)) in
  let value := ToLower (al_Title alert +:+ " " +:+ rr_Title (al_Rule alert) +:+ " " +:+
                        es_Name (al_Entity alert) +:+ " " +:+ al_Assignee alert) in
  negb ((af_Status filter != "") && negb (EqualFold (al_Status alert) (af_Status filter)))
  && negb ((af_Severity filter != "") && (al_Severity alert != af_Severity filter))
  && negb ((af_Assignee filter != "") && negb (EqualFold (al_Assignee alert) (af_Assignee filter)))
  && negb ((query != "") && negb (Contains value query)).

Definition ListAlerts (tenantID : string) (filter : AlertFilter) (m : Memory) : list Alert :=
  list_tenant (m_alerts m) (m_alertOrder m) zero_Alert tenantID (af_Limit filter) (alert_selected filter).

(** [mutate] receives the address of a copy: it returns the changed copy, or
    its error.  [now] is the clock read at the end. *)
Definition MutateAlert (now : Time) (tenantID alertID : string) (expectedVersion : Z)
    (mutate : Alert -> outcome Alert) (m : Memory) : outcome Alert * Memory :=
  match lookup2 (m_alerts m) tenantID alertID with
  | None => (Err ErrNotFound, m)
  | Some alert =>
      if (0 <? expectedVersion) && negb (al_Version alert =? expectedVersion)
      then (Err ErrVersionConflict, m)
      else match mutate alert with
           | Ok alert =>
               let alert := alert {{ al_Version ::= fun v => wrap64 (v + 1); al_UpdatedAt := now }} in
               (Ok alert, m {{ m_alerts ::= fun a => put2 a tenantID alertID alert }})
           | Err e => (Err e, m)
           | Panic => (Panic, m)
           end
  end.

Definition CreateIncident (incident : Incident) (m : Memory) : outcome Incident * Memory :=
  let m := ensureTenantLocked (in_TenantID incident) m in
  match lookup2 (m_incidents m) (in_TenantID incident) (in_ID incident) with
  | Some _ => (Err ErrVersionConflict, m)
  | None =>
      (Ok incident,
       m {{ m_incidents ::= fun i => put2 i (in_TenantID incident) (in_ID incident) incident;
            m_incidentOrder ::= fun o => append_to o (in_TenantID incident) (in_ID incident) }})
  end.

Definition GetIncident (tenantID incidentID : string) (m : Memory) : outcome Incident :=
  match lookup2 (m_incidents m) tenantID incidentID with
  | Some incident => Ok incident | None => Err ErrNotFound end.

Definition incident_selected (filter : IncidentFilter) (incident : Incident) : bool :=
  let query := ToLower (TrimSpace (if_Query filter)) in
  negb ((if_Status filter != "") && negb (EqualFold (in_Status incident) (if_Status filter)))
  && negb ((if_Severity filter != "") && (in_Severity incident != if_Severity filter))
  && negb ((query != "") && negb (Contains (ToLower (in_Title incident +:+ " " +:+ in_Summary incident
                                                     +:+ " " +:+ in_Assignee incident)) query)).

Definition ListIncidents (tenantID : string) (filter : IncidentFilter) (m : Memory) : list Incident :=
  list_tenant (m_incidents m) (m_incidentOrder m) zero_Incident tenantID (if_Limit filter)
    (incident_selected filter).

Definition MutateIncident (now : Time) (tenantID incidentID : string) (expectedVersion : Z)
    (mutate : Incident -> outcome Incident) (m : Memory) : outcome Incident * Memory :=
  match lookup2 (m_incidents m) tenantID incidentID with
  | None => (Err ErrNotFound, m)
  | Some incident =>
      if (0 <? expectedVersion) && negb (in_Version incident =? expectedVersion)
      then (Err ErrVersionConflict, m)
      else match mutate incident with
           | Ok incident =>
               let incident := incident {{ in_Version ::= fun v => wrap64 (v + 1); in_UpdatedAt := now }} in
               (Ok incident, m {{ m_incidents ::= fun i => put2 i tenantID incidentID incident }})
           | Err e => (Err e, m)
           | Panic => (Panic, m)
           end
  end.

(** ** The audit chain *)

Definition audit_preimage (entry : AuditEntry) : string :=
  au_PreviousHash entry +:+ "|" +:+ Join [
    au_ID entry; au_TenantID entry; au_Actor entry; au_Action entry; au_ResourceType entry;
    au_ResourceID entry; au_Outcome entry; FormatRFC3339Nano (au_CreatedAt entry);
    json_metadata (au_Metadata entry)] "|".

Definition auditHash (entry : AuditEntry) : string := sha256_hex (audit_preimage entry).

(** [random] is what [core.NewID] would draw and [now] the clock. *)
Definition appendAuditLocked (random : string) (now : Time) (entry : AuditEntry) (m : Memory)
    : AuditEntry * Memory :=
  let entry := if au_ID entry == "" then entry {{ au_ID := NewID "aud" random }} else entry in
  let entry := if IsZero (au_CreatedAt entry) then entry {{ au_CreatedAt := now }} else entry in
  let entry := entry {{ au_PreviousHash := string_of (m_auditHeads m) (au_TenantID entry) }} in
  let entry := entry {{ au_Hash := auditHash entry }} in
  (entry, m {{ m_audit ::= fun a => append_to a (au_TenantID entry) entry;
               m_auditHeads ::= <[au_TenantID entry := au_Hash entry]> }}).

Definition AppendAudit := appendAuditLocked.

Definition ListAudit (tenantID : string) (limit : Z) (m : Memory) : list AuditEntry :=
  let entries := slice_of (m_audit m) tenantID in
  let limit := normalizedLimit limit in
  let limit := if Z.of_nat (length entries) <? limit then Z.of_nat (length entries) else limit in
  take (Z.to_nat limit) (rev entries).

(** The loop of [VerifyAudit]: [None] is its early [return false]. *)
Fixpoint verify_entries (previous : string) (entries : list AuditEntry) : option string :=
  match entries with
  | [] => Some previous
  | entry :: rest =>
      if (au_PreviousHash entry != previous) || (auditHash entry != au_Hash entry)
      then None else verify_entries (au_Hash entry) rest
  end.

Definition VerifyAudit (tenantID : string) (m : Memory) : bool :=
  match verify_entries "" (slice_of (m_audit m) tenantID) with
  | Some previous => previous == string_of (m_auditHeads m) tenantID
  | None => false
  end.

(** ** The overview (the constant fields of its response are left out) *)

Record OverviewResult : Type := {
  ov_events_24h : Z; ov_open_alerts : Z; ov_critical_alerts : Z; ov_unassigned_alerts : Z;
  ov_active_incidents : Z;
  ov_severity_distribution : list (Severity * Z);
  ov_top_rules : list (string * Z);
  ov_generated_at : Time
}.

Definition count_where {A} (P : A -> bool) (m : gmap string A) : Z :=
  Z.of_nat (length (filter (fun kv => P kv.2 = true) (map_to_list m))).

Definition bump (key : string) (counts : gmap string Z) : gmap string Z :=
  <[key := default 0 (counts !! key) + 1]> counts.

Definition count_by {A} (P : A -> bool) (key : A -> string) (m : gmap string A) : gmap string Z :=
  foldr (fun kv counts => if P kv.2 then bump (key kv.2) counts else counts) ∅ (map_to_list m).

Definition more_frequent (a b : string * Z) : Prop := b.2 <= a.2.
#[global] Instance more_frequent_dec a b : Decision (more_frequent a b).
Proof. unfold more_frequent. apply _. Defined.

Definition alert_open (alert : Alert) : bool := al_Status alert != "CLOSED".

Definition Overview (now : Time) (tenantID : string) (m : Memory) : OverviewResult :=
  let dayAgo := time_Add now (-24 * Hour) in
  let alerts := tenant_map (m_alerts m) tenantID in
  let severityCounts := count_by alert_open al_Severity alerts in
  let ruleCounts := count_by alert_open (fun a => rr_Title (al_Rule a)) alerts in
  {| ov_events_24h := count_where (fun e => After (ev_IngestTime e) dayAgo) (tenant_map (m_events m) tenantID);
     ov_open_alerts := count_where alert_open alerts;
     ov_critical_alerts := count_where (fun a => alert_open a && (al_Severity a == SeverityCritical)) alerts;
     ov_unassigned_alerts := count_where (fun a => alert_open a && (al_Assignee a == "")) alerts;
     ov_active_incidents := count_where (fun i => in_Status i != "CLOSED") (tenant_map (m_incidents m) tenantID);
     ov_severity_distribution :=
       List.map (fun s => (s, default 0 (severityCounts !! s)))
         [SeverityCritical; SeverityHigh; SeverityMedium; SeverityLow];
     ov_top_rules := merge_sort more_frequent (map_to_list ruleCounts);
     ov_generated_at := now |}.

(** ** [MemoryRepository]: the operations behind the [Repository] interface

    Each method first returns [ctx.Err()] when the context is done; [ctx] is
    that error. *)

Definition Context := option error.

Definition check_ctx {St} (ctx : Context) : M St unit :=
  match ctx with Some e => fail e | None => ret tt end.

Definition repo_Health (ctx : Context) : M Memory unit := check_ctx ctx.
Definition repo_EnsureTenant (ctx : Context) (_ _ : string) : M Memory unit := check_ctx ctx.
Definition repo_SetRules (ctx : Context) (rules : list DetectionRule) : M Memory unit :=
  do! check_ctx ctx in modify (SetRules rules).
Definition repo_ListRules (ctx : Context) : M Memory (list DetectionRule) :=
  do! check_ctx ctx in gets ListRules.
Definition repo_PutEvent (ctx : Context) (event : CanonicalEvent) : M Memory (CanonicalEvent * bool) :=
  do! check_ctx ctx in state (PutEvent event).
Definition repo_GetEvent (ctx : Context) (tenantID eventID : string) : M Memory CanonicalEvent :=
  do! check_ctx ctx in gets_outcome (GetEvent tenantID eventID).
Definition repo_ListEvents (ctx : Context) (tenantID : string) (filter : EventFilter) : M Memory (list CanonicalEvent) :=
  do! check_ctx ctx in gets (ListEvents tenantID filter).
Definition repo_PutFinding (ctx : Context) (finding : Finding) : M Memory unit :=
  do! check_ctx ctx in modify (PutFinding finding).
Definition repo_ListFindings (ctx : Context) (tenantID eventID : string) (limit : Z) : M Memory (list Finding) :=
  do! check_ctx ctx in gets (ListFindings tenantID eventID limit).
Definition repo_UpsertAlert (ctx : Context) (candidate : Alert) (dedupKey : string) (window : Duration)
    : M Memory (Alert * bool) :=
  do! check_ctx ctx in state (UpsertAlert candidate dedupKey window).
Definition repo_GetAlert (ctx : Context) (tenantID alertID : string) : M Memory Alert :=
  do! check_ctx ctx in gets_outcome (GetAlert tenantID alertID).
Definition repo_ListAlerts (ctx : Context) (tenantID : string) (filter : AlertFilter) : M Memory (list Alert) :=
  do! check_ctx ctx in gets (ListAlerts tenantID filter).
Definition repo_MutateAlert (ctx : Context) (now : Time) (tenantID alertID : string) (expectedVersion : Z)
    (mutate : Alert -> outcome Alert) : M Memory Alert :=
  do! check_ctx ctx in MutateAlert now tenantID alertID expectedVersion mutate.
Definition repo_CreateIncident (ctx : Context) (incident : Incident) : M Memory Incident :=
  do! check_ctx ctx in CreateIncident incident.
Definition repo_GetIncident (ctx : Context) (tenantID incidentID : string) : M Memory Incident :=
  do! check_ctx ctx in gets_outcome (GetIncident tenantID incidentID).
Definition repo_ListIncidents (ctx : Context) (tenantID : string) (filter : IncidentFilter) : M Memory (list Incident) :=
  do! check_ctx ctx in gets (ListIncidents tenantID filter).
Definition repo_MutateIncident (ctx : Context) (now : Time) (tenantID incidentID : string) (expectedVersion : Z)
    (mutate : Incident -> outcome Incident) : M Memory Incident :=
  do! check_ctx ctx in MutateIncident now tenantID incidentID expectedVersion mutate.
Definition repo_AppendAudit (ctx : Context) (random : string) (now : Time) (entry : AuditEntry) : M Memory AuditEntry :=
  do! check_ctx ctx in state (AppendAudit random now entry).
Definition repo_ListAudit (ctx : Context) (tenantID : string) (limit : Z) : M Memory (list AuditEntry) :=
  do! check_ctx ctx in gets (ListAudit tenantID limit).
Definition repo_VerifyAudit (ctx : Context) (tenantID : string) : M Memory bool :=
  do! check_ctx ctx in gets (VerifyAudit tenantID).
Definition repo_Overview (ctx : Context) (now : Time) (tenantID : string) : M Memory OverviewResult :=
  do! check_ctx ctx in gets (Overview now tenantID).
