(* ===== verification/MemoryFacts.v ===== *)
(** * Facts about the in-memory repository

    Lemmas on the two-level maps, on [appendUnique] and [collect]; the
    well-formedness invariant of the store and its preservation by every
    operation; the audit chain. *)

From S2P Require Import Prelude GoLang GoFormat Core TenantId MemoryStore.

#[global] Arguments lookup2 : simpl never.
#[global] Arguments put2 : simpl never.
#[global] Arguments append_to : simpl never.
#[global] Arguments slice_of : simpl never.
#[global] Arguments appendUnique : simpl never.

(** ** Two-level maps *)

Section TwoLevel.
Context {A : Type}.
Implicit Types (mm : gmap string (gmap string A)) (t u k j : string) (v : A).

Lemma lookup2_put2_eq mm t k v : lookup2 (put2 mm t k v) t k = Some v.
Proof. unfold lookup2, put2, tenant_map. rewrite lookup_insert_eq. apply lookup_insert_eq. Qed.

Lemma lookup2_put2_ne mm t k v u j : (t, k) <> (u, j) -> lookup2 (put2 mm t k v) u j = lookup2 mm u j.
Proof.
  intros Hne. unfold lookup2, put2, tenant_map.
  destruct (decide (t = u)) as [->|?].
  - rewrite lookup_insert_eq. cbn. apply lookup_insert_ne. congruence.
  - by rewrite lookup_insert_ne.
Qed.

Lemma lookup2_put2 mm t k v u j :
  lookup2 (put2 mm t k v) u j = if decide ((t, k) = (u, j)) then Some v else lookup2 mm u j.
Proof.
  case_decide as E; [injection E as -> ->; apply lookup2_put2_eq|by apply lookup2_put2_ne].
Qed.

Lemma lookup2_clear mm t u k :
  lookup2 (<[t := ∅]> mm) u k = if decide (t = u) then None else lookup2 mm u k.
Proof.
  unfold lookup2, tenant_map. case_decide as E.
  - subst. rewrite lookup_insert_eq. exact (lookup_empty k).
  - by rewrite lookup_insert_ne.
Qed.

Lemma lookup2_ensure mm t u k : mm !! t = None -> lookup2 (<[t := ∅]> mm) u k = lookup2 mm u k.
Proof.
  intros Hn. rewrite lookup2_clear. case_decide as E; [|done]. subst.
  unfold lookup2, tenant_map. rewrite Hn. cbn. by rewrite lookup_empty.
Qed.

Lemma lookup2_empty t k : lookup2 (∅ : gmap string (gmap string A)) t k = None.
Proof. unfold lookup2, tenant_map. rewrite lookup_empty. cbn. apply lookup_empty. Qed.

Lemma slice_append_eq (o : gmap string (list A)) t v : slice_of (append_to o t v) t = slice_of o t ++ [v].
Proof. unfold append_to, slice_of at 1. by rewrite lookup_insert_eq. Qed.

Lemma slice_append_ne (o : gmap string (list A)) t v u : t <> u -> slice_of (append_to o t v) u = slice_of o u.
Proof. intros. unfold append_to, slice_of at 1. by rewrite lookup_insert_ne. Qed.

Lemma slice_insert_eq (o : gmap string (list A)) t l : slice_of (<[t := l]> o) t = l.
Proof. unfold slice_of. by rewrite lookup_insert_eq. Qed.

Lemma slice_insert_ne (o : gmap string (list A)) t l u : t <> u -> slice_of (<[t := l]> o) u = slice_of o u.
Proof. intros. unfold slice_of. by rewrite lookup_insert_ne. Qed.

End TwoLevel.

#[export] Hint Rewrite @lookup2_put2_eq @lookup2_empty @slice_append_eq @slice_insert_eq : kcsp.
#[export] Hint Rewrite @lookup2_put2_ne @slice_append_ne @slice_insert_ne using congruence : kcsp.

(** ** [appendUnique] *)

Section AppendUnique.

Lemma appendUnique_nil values : appendUnique values [] = values.
Proof. done. Qed.

Lemma appendUnique_cons values v rest :
  appendUnique values (v :: rest) =
  appendUnique (if (v != "") && (negb (v ∈? values)) then values ++ [v] else values) rest.
Proof.
  unfold appendUnique. cbn.
  assert (bool_decide (v ∈ (list_to_set values : gset string)) = (v ∈? values)) as ->
    by (apply bool_decide_ext; apply elem_of_list_to_set).
  destruct (_ && _); [|done]. f_equal. rewrite list_to_set_app_L. cbn. set_solver.
Qed.

Lemma appendUnique_elem values additions x :
  x ∈ appendUnique values additions <-> x ∈ values \/ (x ∈ additions /\ x <> "").
Proof.
  revert values. induction additions as [|v rest IH]; intros values; [set_solver|].
  rewrite appendUnique_cons, IH.
  destruct ((v != "") && negb (v ∈? values)) eqn:E.
  - apply andb_true_iff in E as [E1 E2].
    rewrite negb_true_iff, bool_decide_eq_false in E1. set_solver.
  - apply andb_false_iff in E as [E|E]; rewrite negb_false_iff, bool_decide_eq_true in E; set_solver.
Qed.

Lemma appendUnique_NoDup values additions : NoDup values -> NoDup (appendUnique values additions).
Proof.
  revert values. induction additions as [|v rest IH]; intros values Hn; [done|].
  rewrite appendUnique_cons. apply IH. destruct (_ && _) eqn:E; [|done].
  apply andb_true_iff in E as [_ E]. rewrite negb_true_iff, bool_decide_eq_false in E.
  apply NoDup_app. repeat split; [done| |by apply NoDup_singleton]. set_solver.
Qed.

Lemma appendUnique_prefix values additions : values `prefix_of` appendUnique values additions.
Proof.
  revert values. induction additions as [|v rest IH]; intros values; [done|].
  rewrite appendUnique_cons. etrans; [|apply IH]. destruct (_ && _); [|done]. by apply prefix_app_r.
Qed.

Lemma appendUnique_absorbs values additions :
  (forall x, x ∈ additions -> x <> "" -> x ∈ values) -> appendUnique values additions = values.
Proof.
  revert values. induction additions as [|v rest IH]; intros values Hsub; [done|].
  rewrite appendUnique_cons. destruct (_ && _) eqn:E.
  - exfalso. apply andb_true_iff in E as [E1 E2].
    rewrite negb_true_iff, bool_decide_eq_false in E1, E2. set_solver.
  - apply IH. set_solver.
Qed.

End AppendUnique.

#[export] Hint Resolve appendUnique_NoDup appendUnique_prefix : kcsp.

(** ** [collect] is a bounded filter *)

Lemma collect_spec {A} limit (read : string -> A) keep order :
  collect limit read keep order = take limit (filter (fun x => keep x = true) (List.map read order)).
Proof.
  revert limit. induction order as [|id rest IH]; intros limit; [by destruct limit|].
  destruct limit as [|limit]; [done|]. cbn [collect List.map]. rewrite filter_cons.
  case_decide as E; [rewrite E|apply not_true_iff_false in E; rewrite E]; cbn; [by rewrite IH|apply IH].
Qed.

Lemma normalizedLimit_bounds v : 1 <= normalizedLimit v <= 500.
Proof. unfold normalizedLimit. repeat case_match; lia. Qed.

#[export] Hint Resolve normalizedLimit_bounds : kcsp.

(** ** The well-formedness invariant *)

(** A table keyed by tenant and identifier, with the insertion order of each
    tenant: the keys are the records' own, the order lists each key once. *)
Section Keyed.
Context {A : Type} (tenant_of id_of : A -> string).
Implicit Types (mm : gmap string (gmap string A)) (o : gmap string (list string)).

Definition keyed mm o : Prop :=
  (forall t i x, lookup2 mm t i = Some x -> tenant_of x = t /\ id_of x = i) /\
  (forall t, NoDup (slice_of o t)) /\
  (forall t i, i ∈ slice_of o t <-> is_Some (lookup2 mm t i)).

Lemma keyed_empty : keyed ∅ ∅.
Proof.
  split_and!.
  - intros t i x. by rewrite lookup2_empty.
  - intros t. unfold slice_of. rewrite lookup_empty. constructor.
  - intros t i. unfold slice_of. rewrite lookup_empty, lookup2_empty. cbn.
    split; [by intros ?%elem_of_nil|by intros []].
Qed.

Lemma keyed_new mm o x : keyed mm o -> lookup2 mm (tenant_of x) (id_of x) = None ->
  keyed (put2 mm (tenant_of x) (id_of x) x) (append_to o (tenant_of x) (id_of x)).
Proof.
  intros (K & N & D) Hn. split_and!.
  - intros t i y. rewrite lookup2_put2. case_decide as E; [|by apply K].
    injection E as <- <-. by intros [= <-].
  - intros t. destruct (decide (tenant_of x = t)) as [<-|]; [|by rewrite slice_append_ne].
    rewrite slice_append_eq. apply NoDup_app. split_and!; [apply N| |apply NoDup_singleton].
    intros i Hi ->%list_elem_of_singleton. apply D in Hi. rewrite Hn in Hi. by destruct Hi.
  - intros t i. rewrite lookup2_put2.
    destruct (decide (tenant_of x = t)) as [<-|].
    + rewrite slice_append_eq, elem_of_app, list_elem_of_singleton, D.
      case_decide as E; [injection E as ->; naive_solver|]. split; [|naive_solver].
      intros [?| ->]; [done|]. congruence.
    + rewrite slice_append_ne by done. rewrite decide_False by congruence. apply D.
Qed.

Lemma keyed_update mm o t i x y : keyed mm o -> lookup2 mm t i = Some x ->
  tenant_of y = tenant_of x -> id_of y = id_of x -> keyed (put2 mm t i y) o.
Proof.
  intros (K & N & D) Hx Ht Hi. destruct (K _ _ _ Hx) as [<- <-]. split_and!; [|done|].
  - intros u j z. rewrite lookup2_put2. case_decide as E; [|by apply K].
    injection E as <- <-. by intros [= <-].
  - intros u j. rewrite lookup2_put2, D. case_decide as E; [|done].
    injection E as <- <-. rewrite Hx. naive_solver.
Qed.

Lemma keyed_clear mm o t : keyed mm o -> keyed (<[t := ∅]> mm) (<[t := []]> o).
Proof.
  intros (K & N & D). split_and!.
  - intros u i x. rewrite lookup2_clear. case_decide; [done|apply K].
  - intros u. destruct (decide (t = u)) as [->|];
      [rewrite slice_insert_eq; constructor|by rewrite slice_insert_ne].
  - intros u i. rewrite lookup2_clear. case_decide as E.
    + subst. rewrite slice_insert_eq. split; [by intros ?%elem_of_nil|by intros []].
    + by rewrite slice_insert_ne.
Qed.

Lemma keyed_ensure mm o t : mm !! t = None -> keyed mm o -> keyed (<[t := ∅]> mm) o.
Proof.
  intros Hn (K & N & D). split_and!; [|done|].
  - intros u i x. rewrite lookup2_ensure by done. apply K.
  - intros u i. rewrite lookup2_ensure by done. apply D.
Qed.

End Keyed.

(** What every stored alert satisfies. *)
Record alert_ok (a : Alert) : Prop := {
  ok_count : al_EventCount a = Z.of_nat (length (al_EventIDs a));
  ok_events : NoDup (al_EventIDs a);
  ok_findings : NoDup (al_FindingIDs a);
  ok_risk : 0 <= al_RiskScore a <= 100;
  ok_severity : al_Severity a = SeverityFromRisk (al_RiskScore a)
}.

(** The tenants a two-level map has a map for. *)
Definition tenants {A} (mm : gmap string (gmap string A)) : gset string := dom mm.
#[global] Arguments tenants : simpl never.

Lemma tenants_insert {A} (mm : gmap string (gmap string A)) t v : tenants (<[t := v]> mm) = {[t]} ∪ tenants mm.
Proof. apply dom_insert_L. Qed.

Lemma not_tenant {A} (mm : gmap string (gmap string A)) t : t ∉ tenants mm <-> mm !! t = None.
Proof. apply not_elem_of_dom. Qed.

Lemma is_tenant {A} (mm : gmap string (gmap string A)) t : t ∈ tenants mm <-> is_Some (mm !! t).
Proof. apply elem_of_dom. Qed.

Definition tenants_agree (m : Memory) : Prop :=
  tenants (m_findings m) = tenants (m_events m) /\ tenants (m_alerts m) = tenants (m_events m)
  /\ tenants (m_incidents m) = tenants (m_events m).
#[global] Arguments tenants_agree _ /.

Record wf (m : Memory) : Prop := {
  wf_tenants : tenants_agree m;
  wf_events : keyed ev_TenantID ev_ID (m_events m) (m_eventOrder m);
  wf_findings : keyed fi_TenantID fi_ID (m_findings m) (m_findingOrder m);
  wf_alerts : keyed al_TenantID al_ID (m_alerts m) (m_alertOrder m);
  wf_incidents : keyed in_TenantID in_ID (m_incidents m) (m_incidentOrder m);
  wf_alert_ok : forall t i a, lookup2 (m_alerts m) t i = Some a -> alert_ok a;
  wf_dedup : forall t k i, no_bar t = true -> m_dedup m !! (t +:+ "|" +:+ k) = Some i ->
             is_Some (lookup2 (m_alerts m) t i)
}.

Lemma merge_alert_ok existing candidate :
  alert_ok existing -> alert_ok candidate -> alert_ok (merge_alert existing candidate).
Proof.
  intros [C1 E1 F1 R1 S1] [C2 E2 F2 R2 S2]. unfold merge_alert. cbn.
  case_match; constructor; cbn; auto with kcsp.
Qed.

Lemma merge_alert_identity existing candidate :
  al_ID (merge_alert existing candidate) = al_ID existing /\
  al_TenantID (merge_alert existing candidate) = al_TenantID existing /\
  al_Status (merge_alert existing candidate) = al_Status existing.
Proof. unfold merge_alert. cbn. by case_match. Qed.
