(* ===== verification/MemorySystem.v ===== *)
(** * The repository as a transition system

    Every mutating operation of [Memory] as a label of one step relation (each
    holds the lock for its whole body, so concurrent callers interleave whole
    operations), the runs of any number of callers as sequences of labels, the
    invariants of the reachable states, and the audit chain. *)

From S2P Require Import Prelude GoLang GoFormat Core TenantId MemoryStore MemoryFacts.

Inductive op : Type :=
  | OpSetRules (rules : list DetectionRule)
  | OpResetTenant (tenantID : string)
  | OpPutEvent (event : CanonicalEvent)
  | OpPutFinding (finding : Finding)
  | OpUpsertAlert (candidate : Alert) (dedupKey : string) (window : Duration)
  | OpMutateAlert (now : Time) (tenantID alertID : string) (version : Z) (mutate : Alert -> outcome Alert)
  | OpCreateIncident (incident : Incident)
  | OpMutateIncident (now : Time) (tenantID incidentID : string) (version : Z) (mutate : Incident -> outcome Incident)
  | OpAppendAudit (random : string) (now : Time) (entry : AuditEntry).

(** The state after one operation, whatever it answers its caller. *)
Definition exec (o : op) (m : Memory) : Memory :=
  match o with
  | OpSetRules rules => SetRules rules m
  | OpResetTenant t => ResetTenant t m
  | OpPutEvent e => (PutEvent e m).2
  | OpPutFinding f => PutFinding f m
  | OpUpsertAlert c k w => (UpsertAlert c k w m).2
  | OpMutateAlert now t i v f => (MutateAlert now t i v f m).2
  | OpCreateIncident i => (CreateIncident i m).2
  | OpMutateIncident now t i v f => (MutateIncident now t i v f m).2
  | OpAppendAudit r now e => (AppendAudit r now e m).2
  end.

Definition run (ops : list op) (m : Memory) : Memory := fold_left (fun m o => exec o m) ops m.

(** What the callers of the store respect: candidate alerts are well formed
    and carry a fresh identifier, a mutation keeps the identity of its record
    (and the well-formedness of an alert), and tenants have no bar in their
    identifier ([TenantId.Valid_no_bar]). *)
Definition admissible (o : op) (m : Memory) : Prop :=
  match o with
  | OpResetTenant t => no_bar t = true
  | OpUpsertAlert c _ _ =>
      no_bar (al_TenantID c) = true /\ alert_ok c /\ lookup2 (m_alerts m) (al_TenantID c) (al_ID c) = None
  | OpMutateAlert _ _ _ _ f =>
      forall a b, alert_ok a -> f a = Ok b ->
        alert_ok b /\ al_ID b = al_ID a /\ al_TenantID b = al_TenantID a
  | OpMutateIncident _ _ _ _ f =>
      forall a b, f a = Ok b -> in_ID b = in_ID a /\ in_TenantID b = in_TenantID a
  | _ => True
  end.

Inductive step : Memory -> Memory -> Prop :=
  | step_op o m : admissible o m -> step m (exec o m).

Definition reachable (m : Memory) : Prop := rtc step NewMemory m.

(** ** Preservation of the invariant, operation by operation *)

Section Preservation.
Implicit Types (m : Memory) (t : string).

Lemma wf_NewMemory : wf NewMemory.
Proof.
  constructor; try apply keyed_empty; cbn.
  - done.
  - intros t i a. by rewrite lookup2_empty.
  - intros t k i _. by rewrite lookup_empty.
Qed.

(** A tenant without events has none of the four maps. *)
Lemma no_tenant m t : tenants_agree m -> m_events m !! t = None ->
  m_findings m !! t = None /\ m_alerts m !! t = None /\ m_incidents m !! t = None.
Proof.
  intros (T1 & T2 & T3) E. apply not_tenant in E. rewrite <- !not_tenant, T1, T2, T3. done.
Qed.

Lemma agree_ensure t m : tenants_agree m -> tenants_agree (ensureTenantLocked t m).
Proof.
  intros (T1 & T2 & T3). unfold ensureTenantLocked. destruct (m_events m !! t); [done|].
  unfold tenants_agree. cbn. rewrite !tenants_insert. by rewrite T1, T2, T3.
Qed.

Lemma wf_ensure t m : wf m -> wf (ensureTenantLocked t m).
Proof.
  intros W. assert (A := agree_ensure t m (wf_tenants _ W)). revert A.
  unfold ensureTenantLocked. destruct (m_events m !! t) eqn:E; [done|].
  destruct W as [T WE WF WA WI WO WD]. destruct (no_tenant _ _ T E) as (NF & NA & NI).
  intros A. constructor; [exact A|..]; cbn; auto using keyed_ensure.
  - intros u i a. rewrite lookup2_ensure by done. apply WO.
  - intros u k i Hb. rewrite lookup2_ensure by done. by apply WD.
Qed.

Lemma ensure_tenant t m : t ∈ tenants (m_events (ensureTenantLocked t m)).
Proof.
  unfold ensureTenantLocked. destruct (m_events m !! t) eqn:E; [by apply is_tenant|].
  cbn. rewrite tenants_insert. set_solver.
Qed.

Lemma ensure_alerts t m u i : tenants_agree m ->
  lookup2 (m_alerts (ensureTenantLocked t m)) u i = lookup2 (m_alerts m) u i.
Proof.
  intros T. unfold ensureTenantLocked. destruct (m_events m !! t) eqn:E; [done|]. cbn.
  by apply lookup2_ensure, (no_tenant m t).
Qed.

Lemma ensure_incidents t m u i : tenants_agree m ->
  lookup2 (m_incidents (ensureTenantLocked t m)) u i = lookup2 (m_incidents m) u i.
Proof.
  intros T. unfold ensureTenantLocked. destruct (m_events m !! t) eqn:E; [done|]. cbn.
  by apply lookup2_ensure, (no_tenant m t).
Qed.

(** Writing under a tenant that exists does not change which tenants exist. *)
Lemma tenants_put2 {A} (mm : gmap string (gmap string A)) t k v : t ∈ tenants mm ->
  tenants (put2 mm t k v) = tenants mm.
Proof. intros Ht. unfold put2. rewrite tenants_insert. set_solver. Qed.

Lemma lookup2_tenant {A} (mm : gmap string (gmap string A)) t k v :
  lookup2 mm t k = Some v -> t ∈ tenants mm.
Proof.
  unfold lookup2, tenant_map. intros H. apply is_tenant.
  destruct (mm !! t); [by eexists|]. cbn in H. by rewrite lookup_empty in H.
Qed.

Lemma wf_PutEvent event m : wf m -> wf (PutEvent event m).2.
Proof.
  intros W. unfold PutEvent. assert (W' := wf_ensure (ev_TenantID event) m W).
  assert (D := ensure_tenant (ev_TenantID event) m). revert W' D.
  generalize (ensureTenantLocked (ev_TenantID event) m). clear W m. intros m W D.
  destruct (lookup2 _ _ _) eqn:E; [done|]. destruct W as [(T1 & T2 & T3) WE WF WA WI WO WD].
  constructor; cbn; auto using keyed_new.
  rewrite tenants_put2 by (rewrite ?T1; done). done.
Qed.

Lemma wf_PutFinding finding m : wf m -> wf (PutFinding finding m).
Proof.
  intros W. unfold PutFinding. assert (W' := wf_ensure (fi_TenantID finding) m W).
  assert (D := ensure_tenant (fi_TenantID finding) m). revert W' D.
  generalize (ensureTenantLocked (fi_TenantID finding) m). clear W m. intros m W D.
  destruct (lookup2 _ _ _) eqn:E; [done|]. destruct W as [(T1 & T2 & T3) WE WF WA WI WO WD].
  constructor; cbn; auto using keyed_new.
  rewrite tenants_put2 by (rewrite ?T1; done). done.
Qed.

Lemma wf_CreateIncident incident m : wf m -> wf (CreateIncident incident m).2.
Proof.
  intros W. unfold CreateIncident. assert (W' := wf_ensure (in_TenantID incident) m W).
  assert (D := ensure_tenant (in_TenantID incident) m). revert W' D.
  generalize (ensureTenantLocked (in_TenantID incident) m). clear W m. intros m W D.
  destruct (lookup2 _ _ _) eqn:E; [done|]. destruct W as [(T1 & T2 & T3) WE WF WA WI WO WD].
  constructor; cbn; auto using keyed_new.
  rewrite tenants_put2 by (rewrite T3; done). done.
Qed.

Lemma wf_ResetTenant t m : no_bar t = true -> wf m -> wf (ResetTenant t m).
Proof.
  intros Hb [(T1 & T2 & T3) WE WF WA WI WO WD]. constructor; cbn; auto using keyed_clear.
  - rewrite !tenants_insert. by rewrite T1, T2, T3.
  - intros u i a. rewrite lookup2_clear. case_decide; [done|apply WO].
  - intros u k i Hu. rewrite lookup2_clear, map_lookup_filter_Some. cbn. intros [Hk Hf].
    assert (P := bar_key_prefix u t k Hu Hb).
  change (HasPrefix (u +:+ "|" +:+ k) (t +:+ "|") = false) in Hf. rewrite P in Hf. apply bool_decide_eq_false in Hf.
    rewrite decide_False by congruence. exact (WD u k i Hu Hk).
Qed.

Lemma mergeable_Some candidate key window m i e :
  mergeable candidate key window m = Some (i, e) ->
  i = string_of (m_dedup m) key /\ i <> "" /\ lookup2 (m_alerts m) (al_TenantID candidate) i = Some e
  /\ al_Status e <> "CLOSED" /\ time_Sub (al_LastSeen candidate) (al_LastSeen e) <= window.
Proof.
  unfold mergeable. case_match eqn:N; [|done]. case_match eqn:L; [|done].
  case_match eqn:G; [|done]. intros [= <- <-].
  apply andb_true_iff in G as [G1 G2]. rewrite negb_true_iff, bool_decide_eq_false in N, G1.
  repeat split; try done. lia.
Qed.

Lemma wf_put_alert m t i e e' : wf m -> lookup2 (m_alerts m) t i = Some e ->
  alert_ok e' -> al_ID e' = al_ID e -> al_TenantID e' = al_TenantID e ->
  wf (m {{ m_alerts ::= fun a => put2 a t i e' }}).
Proof.
  intros [(T1 & T2 & T3) WE WF WA WI WO WD] L O I T. constructor; cbn; auto.
  - rewrite tenants_put2; [done|by eapply lookup2_tenant].
  - by eapply keyed_update.
  - intros u j a. rewrite lookup2_put2. case_decide; [by intros [= <-]|apply WO].
  - intros u k j Hu Hk. rewrite lookup2_put2. case_decide; [by eexists|exact (WD u k j Hu Hk)].
Qed.

Lemma wf_new_alert m c key : wf m -> al_TenantID c ∈ tenants (m_events m) -> alert_ok c ->
  no_bar (al_TenantID c) = true -> lookup2 (m_alerts m) (al_TenantID c) (al_ID c) = None ->
  wf (m {{ m_alerts ::= fun a => put2 a (al_TenantID c) (al_ID c) c;
           m_alertOrder ::= fun o => append_to o (al_TenantID c) (al_ID c);
           m_dedup ::= <[al_TenantID c +:+ "|" +:+ key := al_ID c]> }}).
Proof.
  intros [(T1 & T2 & T3) WE WF WA WI WO WD] D O B L. constructor; cbn; auto using keyed_new.
  - rewrite tenants_put2; [done|by rewrite T2].
  - intros u j a. rewrite lookup2_put2. case_decide; [by intros [= <-]|apply WO].
  - intros u k j Hu. rewrite lookup_insert_Some. intros [[E <-]|[_ Hk]].
    + apply bar_key_inj in E as [<- _]; [|done..]. rewrite lookup2_put2_eq. by eexists.
    + rewrite lookup2_put2. case_decide; [by eexists|exact (WD u k j Hu Hk)].
Qed.

Lemma agree_UpsertAlert c key window m : tenants_agree m -> tenants_agree (UpsertAlert c key window m).2.
Proof.
  intros T. unfold UpsertAlert. assert (T' := agree_ensure (al_TenantID c) m T).
  assert (D := ensure_tenant (al_TenantID c) m). revert T' D.
  generalize (ensureTenantLocked (al_TenantID c) m). clear T m. intros m (T1 & T2 & T3) D.
  destruct (mergeable _ _ _ _) as [[i e]|]; cbn; (rewrite tenants_put2; [done|by rewrite T2]).
Qed.

Lemma wf_UpsertAlert c key window m : no_bar (al_TenantID c) = true -> alert_ok c ->
  lookup2 (m_alerts m) (al_TenantID c) (al_ID c) = None -> wf m -> wf (UpsertAlert c key window m).2.
Proof.
  intros B O L W. unfold UpsertAlert.
  rewrite <- (ensure_alerts (al_TenantID c) m) in L by apply W.
  assert (W' := wf_ensure (al_TenantID c) m W). assert (D := ensure_tenant (al_TenantID c) m).
  revert W' D L. generalize (ensureTenantLocked (al_TenantID c) m). clear W m. intros m W D L.
  destruct (mergeable _ _ _ _) as [[i e]|] eqn:E; cbn; [|by apply wf_new_alert].
  apply mergeable_Some in E as (_ & _ & Le & _). eapply wf_put_alert; [done|done| |..].
  - apply merge_alert_ok; [by eapply wf_alert_ok|done].
  - apply merge_alert_identity.
  - apply merge_alert_identity.
Qed.

Lemma wf_MutateAlert now t i v f m :
  (forall a b, alert_ok a -> f a = Ok b -> alert_ok b /\ al_ID b = al_ID a /\ al_TenantID b = al_TenantID a) ->
  wf m -> wf (MutateAlert now t i v f m).2.
Proof.
  intros Hf W. unfold MutateAlert. destruct (lookup2 _ _ _) as [a|] eqn:L; [|done].
  case_match; [done|]. destruct (f a) as [b| |] eqn:F; [|done..].
  destruct (Hf a b (wf_alert_ok _ W _ _ _ L) F) as ([C1 C2 C3 C4 C5] & I & T).
  by eapply wf_put_alert.
Qed.

Lemma wf_MutateIncident now t i v f m :
  (forall a b, f a = Ok b -> in_ID b = in_ID a /\ in_TenantID b = in_TenantID a) ->
  wf m -> wf (MutateIncident now t i v f m).2.
Proof.
  intros Hf W. unfold MutateIncident. destruct (lookup2 _ _ _) as [a|] eqn:L; [|done].
  case_match; [done|]. destruct (f a) as [b| |] eqn:F; [|done..].
  destruct (Hf a b F) as (I & T). destruct W as [(T1 & T2 & T3) WE WF WA WI WO WD].
  constructor; cbn; auto.
  - rewrite tenants_put2; [done|by eapply lookup2_tenant].
  - by eapply keyed_update.
Qed.

Lemma wf_exec o m : admissible o m -> wf m -> wf (exec o m).
Proof.
  destruct o; cbn; intros Ha W.
  - by destruct W.
  - by apply wf_ResetTenant.
  - by apply wf_PutEvent.
  - by apply wf_PutFinding.
  - destruct Ha as (? & ? & ?). by apply wf_UpsertAlert.
  - by apply wf_MutateAlert.
  - by apply wf_CreateIncident.
  - by apply wf_MutateIncident.
  - by destruct W.
Qed.

Lemma reachable_invariant m : reachable m -> wf m.
Proof.
  intros R. apply rtc_ind_r with (P := wf) (x := NewMemory) in R; [done|apply wf_NewMemory|].
  intros y z _ [o n Ha] W. by apply wf_exec.
Qed.

End Preservation.
