(* ===== verification/AuditChain.v ===== *)
(** * The audit chain of the repository

    [VerifyAudit] holds in every state the operations produce, and what a
    verified chain protects: two verified logs with the same head record the
    same entries, in the digested fields, unless two of their entries collide
    under SHA-256. *)

From S2P Require Import Prelude GoLang GoFormat Core HashChain TenantId MemoryStore MemoryFacts MemorySystem.

Abbreviation collision := (collides audit_preimage).

(** ** Lemmas *)

Section Chain.
Implicit Types (l : list AuditEntry) (p q : string) (e : AuditEntry).

Lemma verify_entries_links p l : verify_entries p l = verify_links au_PreviousHash au_Hash audit_preimage p l.
Proof.
  revert p. induction l as [|e l IH]; intros p; [done|]. cbn. rewrite <- IH. unfold link_checks.
  change (digest audit_preimage e) with (auditHash e). by destruct (_ == _), (_ == _).
Qed.

(** The digest of an entry is over the fields [AppendAudit] has set. *)
Lemma AppendAudit_entry random now e m :
  let e' := (AppendAudit random now e m).1 in
  au_PreviousHash e' = string_of (m_auditHeads m) (au_TenantID e) /\ au_Hash e' = auditHash e' /\
  au_TenantID e' = au_TenantID e.
Proof. unfold AppendAudit, appendAuditLocked. destruct (au_ID e == ""); cbn; by destruct (IsZero (au_CreatedAt e)). Qed.

Lemma AppendAudit_state random now e m :
  let e' := (AppendAudit random now e m).1 in
  m_audit (AppendAudit random now e m).2 = append_to (m_audit m) (au_TenantID e) e' /\
  m_auditHeads (AppendAudit random now e m).2 = <[au_TenantID e := au_Hash e']> (m_auditHeads m).
Proof. unfold AppendAudit, appendAuditLocked. destruct (au_ID e == ""); cbn; by destruct (IsZero (au_CreatedAt e)). Qed.

Definition chain_ok (t : string) (m : Memory) : Prop :=
  verify_entries "" (slice_of (m_audit m) t) = Some (string_of (m_auditHeads m) t).

Lemma VerifyAudit_chain t m : VerifyAudit t m = true <-> chain_ok t m.
Proof.
  unfold VerifyAudit, chain_ok. destruct (verify_entries _ _) as [q|]; [|by split].
  rewrite bool_decide_eq_true. split; congruence.
Qed.

Lemma chain_AppendAudit t random now e m : chain_ok t m -> chain_ok t (AppendAudit random now e m).2.
Proof.
  unfold chain_ok. intros C.
  destruct (AppendAudit_state random now e m) as [-> ->].
  destruct (AppendAudit_entry random now e m) as (P & H & T).
  set (e' := (AppendAudit random now e m).1) in *. unfold string_of.
  destruct (decide (au_TenantID e = t)) as [E|Hne].
  - rewrite verify_entries_links in *. rewrite E, slice_append_eq, lookup_insert_eq. cbn [default].
    apply verify_links_snoc. rewrite C, P, E. by split_and!.
  - by rewrite slice_append_ne, lookup_insert_ne.
Qed.

Lemma chain_exec t o m : chain_ok t m -> chain_ok t (exec o m).
Proof.
  destruct o; cbn [exec]; [..|apply chain_AppendAudit]; unfold chain_ok.
  - done.
  - intros C. cbn. destruct (decide (tenantID = t)) as [->|].
    + unfold string_of. by rewrite slice_insert_eq, lookup_insert_eq.
    + unfold string_of. by rewrite slice_insert_ne, lookup_insert_ne.
  - unfold PutEvent, ensureTenantLocked. by repeat case_match; simplify_eq/=.
  - unfold PutFinding, ensureTenantLocked. by repeat case_match; simplify_eq/=.
  - unfold UpsertAlert, ensureTenantLocked. by repeat case_match; simplify_eq/=.
  - unfold MutateAlert. by repeat case_match; simplify_eq/=.
  - unfold CreateIncident, ensureTenantLocked. by repeat case_match; simplify_eq/=.
  - unfold MutateIncident. by repeat case_match; simplify_eq/=.
Qed.

Lemma string_forallb_no_bar s : string_forallb hex_byte s = true -> no_bar s = true.
Proof.
  induction s as [|c s IH]; [done|]. cbn. rewrite andb_true_iff. intros [H1 H2].
  rewrite IH by done. rewrite andb_true_r, negb_true_iff. apply bool_decide_eq_false.
  intros ->. by vm_compute in H1.
Qed.

(** Equal digested texts give equal links, for links that are digests or
    the empty start of the chain. *)
Lemma preimage_link e1 e2 :
  string_forallb hex_byte (au_PreviousHash e1) = true -> string_forallb hex_byte (au_PreviousHash e2) = true ->
  audit_preimage e1 = audit_preimage e2 -> au_PreviousHash e1 = au_PreviousHash e2.
Proof.
  intros B1%string_forallb_no_bar B2%string_forallb_no_bar E. unfold audit_preimage in E. by apply bar_key_inj in E as [? _].
Qed.

End Chain.

(** ** Properties *)

(** C1. After any sequence of repository operations by any callers, on any
    tenants, with any clock and any random draws, [VerifyAudit] answers true
    for every tenant. *)
Theorem audit_chain_always_verifies (ops : list op) (tenantID : string) :
  VerifyAudit tenantID (run ops NewMemory) = true.
Proof.
  apply VerifyAudit_chain. unfold run.
  assert (C : chain_ok tenantID NewMemory) by done. revert C. generalize NewMemory.
  induction ops as [|o ops IH]; intros m C; [done|]. apply IH. by apply chain_exec.
Qed.

(** C2. Tamper evidence: two states whose audit logs of a tenant both verify
    and whose stored heads agree hold the same digested entries in the same
    order, unless two of those entries have different digested texts with the
    same SHA-256 digest. *)
Theorem audit_tamper_evident (m1 m2 : Memory) (tenantID : string)
    (V1 : VerifyAudit tenantID m1 = true) (V2 : VerifyAudit tenantID m2 = true)
    (H : string_of (m_auditHeads m1) tenantID = string_of (m_auditHeads m2) tenantID) :
  List.map audit_preimage (slice_of (m_audit m1) tenantID) =
  List.map audit_preimage (slice_of (m_audit m2) tenantID)
  \/ collision (slice_of (m_audit m1) tenantID) (slice_of (m_audit m2) tenantID).
Proof.
  apply VerifyAudit_chain in V1, V2. unfold chain_ok in V1, V2.
  rewrite verify_entries_links in V1, V2. eapply chains_agree; [apply preimage_link|exact V1|by rewrite H].
Qed.

(** Two logs that were tampered with where the digest does not look. *)
Definition sample_entry (request : string) : AuditEntry :=
  zero_AuditEntry {{ au_ID := "aud_1"; au_TenantID := "acme"; au_Action := "alert.created";
                     au_RequestID := request; au_CreatedAt := 63800000000 * Second }}.
Definition sample_log (request : string) : Memory :=
  exec (OpAppendAudit "" 0 (sample_entry request)) NewMemory.

Lemma audit_tamper_evident_witness :
  List.map audit_preimage (slice_of (m_audit (sample_log "req-1")) "acme") =
  List.map audit_preimage (slice_of (m_audit (sample_log "req-2")) "acme")
  \/ collision (slice_of (m_audit (sample_log "req-1")) "acme") (slice_of (m_audit (sample_log "req-2")) "acme").
Proof. apply (audit_tamper_evident (sample_log "req-1") (sample_log "req-2") "acme"); vm_compute; reflexivity. Defined.

(** The request identifier of an entry is outside the chain: replacing it
    in every stored entry goes unnoticed by [VerifyAudit]. *)
Theorem audit_request_id_unprotected (m : Memory) (tenantID request : string) :
  VerifyAudit tenantID (m {{ m_audit ::= fmap (M := gmap string)
    (List.map (fun e => e {{ au_RequestID := request }})) }}) = VerifyAudit tenantID m.
Proof.
  unfold VerifyAudit. cbn. unfold slice_of. rewrite lookup_fmap.
  destruct (m_audit m !! tenantID) as [l|]; [cbn|done].
  assert (E : forall p, verify_entries p (List.map (fun e => e {{ au_RequestID := request }}) l) = verify_entries p l).
  { induction l as [|e l IH]; intros p; [done|]. cbn. by rewrite <- IH. }
  cbn in E. by rewrite E.
Qed.
