(* ===== verification/StoreSpec.v ===== *)
(** * What the repository promises its callers

    The invariant of the reachable states, the isolation of tenants, the
    deduplication contract of [UpsertAlert], optimistic concurrency, and the
    soundness and completeness of the bounded listings. *)

From S2P Require Import Prelude GoLang GoFormat Core TenantId MemoryStore MemoryFacts MemorySystem.

(** ** Definitions *)

(** Everything the store holds for one tenant. *)
Record TenantView : Type := {
  tv_events : gmap string CanonicalEvent; tv_eventOrder : list string;
  tv_findings : gmap string Finding; tv_findingOrder : list string;
  tv_alerts : gmap string Alert; tv_alertOrder : list string;
  tv_incidents : gmap string Incident; tv_incidentOrder : list string;
  tv_audit : list AuditEntry; tv_auditHead : string;
  tv_dedup : gmap string string
}.

Definition tenant_view (t : string) (m : Memory) : TenantView := {|
  tv_events := tenant_map (m_events m) t; tv_eventOrder := slice_of (m_eventOrder m) t;
  tv_findings := tenant_map (m_findings m) t; tv_findingOrder := slice_of (m_findingOrder m) t;
  tv_alerts := tenant_map (m_alerts m) t; tv_alertOrder := slice_of (m_alertOrder m) t;
  tv_incidents := tenant_map (m_incidents m) t; tv_incidentOrder := slice_of (m_incidentOrder m) t;
  tv_audit := slice_of (m_audit m) t; tv_auditHead := string_of (m_auditHeads m) t;
  tv_dedup := filter (fun kv => HasPrefix kv.1 (t +:+ "|") = true) (m_dedup m)
|}.

(** The tenant an operation is about; rules are shared by all tenants. *)
Definition op_tenant (o : op) : option string :=
  match o with
  | OpSetRules _ => None
  | OpResetTenant t => Some t
  | OpPutEvent e => Some (ev_TenantID e)
  | OpPutFinding f => Some (fi_TenantID f)
  | OpUpsertAlert c _ _ => Some (al_TenantID c)
  | OpMutateAlert _ t _ _ _ => Some t
  | OpCreateIncident i => Some (in_TenantID i)
  | OpMutateIncident _ t _ _ _ => Some t
  | OpAppendAudit _ _ e => Some (au_TenantID e)
  end.

(** ** Lemmas *)

Section Isolation.
Context (u : string).

Lemma tenant_map_insert_ne {A} (mm : gmap string (gmap string A)) t v :
  t <> u -> tenant_map (<[t := v]> mm) u = tenant_map mm u.
Proof. intros. unfold tenant_map. by rewrite lookup_insert_ne. Qed.

Lemma tenant_map_put2_ne {A} (mm : gmap string (gmap string A)) t k v :
  t <> u -> tenant_map (put2 mm t k v) u = tenant_map mm u.
Proof. intros. unfold put2. by apply tenant_map_insert_ne. Qed.

Lemma string_of_insert_ne (o : gmap string string) t v :
  t <> u -> string_of (<[t := v]> o) u = string_of o u.
Proof. intros. unfold string_of. by rewrite lookup_insert_ne. Qed.

Lemma view_ensure t m : t <> u -> tenant_view u (ensureTenantLocked t m) = tenant_view u m.
Proof.
  intros. unfold ensureTenantLocked. destruct (m_events m !! t); [done|].
  unfold tenant_view. cbn. by rewrite !tenant_map_insert_ne.
Qed.

Lemma dedup_insert_other (d : gmap string string) t k v : no_bar t = true -> no_bar u = true -> t <> u ->
  filter (fun kv => HasPrefix kv.1 (u +:+ "|") = true) (<[t +:+ "|" +:+ k := v]> d) =
  filter (fun kv => HasPrefix kv.1 (u +:+ "|") = true) d.
Proof.
  intros Bt Bu Hne. apply map_filter_insert_not. intros w H.
  change (HasPrefix (t +:+ "|" +:+ k) (u +:+ "|") = true) in H.
  rewrite bar_key_prefix in H by done. by apply bool_decide_eq_true in H.
Qed.

(** A key under [u] is not under [t]. *)
Lemma prefix_apart t key : no_bar t = true -> no_bar u = true -> t <> u ->
  HasPrefix key (u +:+ "|") = true -> HasPrefix key (t +:+ "|") = false.
Proof.
  unfold HasPrefix. intros Bt Bu Hne Hp. revert t u Bt Bu Hne Hp.
  induction key as [|c key IH]; intros t u0 Bt Bu Hne Hp; [by destruct t, u0|].
  destruct t as [|d t], u0 as [|e u0]; cbn in *; try done.
  - destruct (ascii_dec e c) as [->|]; [|done]. apply andb_true_iff in Bu as [Bc _].
    rewrite negb_true_iff, bool_decide_eq_false in Bc. by destruct (ascii_dec "|"%char c).
  - destruct (ascii_dec "|"%char c) as [<-|]; [|done]. apply andb_true_iff in Bt as [Bc _].
    rewrite negb_true_iff, bool_decide_eq_false in Bc. by destruct (ascii_dec d "|"%char).
  - destruct (ascii_dec e c) as [->|]; [|done]. destruct (ascii_dec d c) as [->|]; [|done].
    apply andb_true_iff in Bt as [_ Bt], Bu as [_ Bu]. apply (IH t u0); congruence.
Qed.

Lemma dedup_reset_other (d : gmap string string) t : no_bar t = true -> no_bar u = true -> t <> u ->
  filter (fun kv => HasPrefix kv.1 (u +:+ "|") = true)
    (filter (fun kv : string * string => HasPrefix kv.1 (t +:+ "|") = false) d) =
  filter (fun kv => HasPrefix kv.1 (u +:+ "|") = true) d.
Proof.
  intros. apply map_eq. intros key. apply option_eq. intros v.
  rewrite !map_lookup_filter_Some. cbn. split; [naive_solver|].
  intros [? ?]. split_and!; try done. by apply prefix_apart.
Qed.

End Isolation.

Ltac view_other u :=
  unfold tenant_view; cbn;
  rewrite ?tenant_map_put2_ne, ?tenant_map_insert_ne, ?slice_append_ne, ?slice_insert_ne,
          ?string_of_insert_ne by done; try done.

Lemma exec_view_other (o : op) (m : Memory) (t u : string) :
  op_tenant o = Some t -> no_bar t = true -> no_bar u = true -> t <> u ->
  tenant_view u (exec o m) = tenant_view u m.
Proof.
  intros Ht Bt Bu Hne.
  destruct o; simplify_eq/=; rewrite <- ?(view_ensure u (ev_TenantID event) m),
    <- ?(view_ensure u (fi_TenantID finding) m), <- ?(view_ensure u (al_TenantID candidate) m),
    <- ?(view_ensure u (in_TenantID incident) m) by done.
  - view_other u. by rewrite dedup_reset_other.
  - unfold PutEvent. case_match; [done|]. view_other u.
  - unfold PutFinding. case_match; [done|]. view_other u.
  - unfold UpsertAlert. case_match; [case_match; view_other u|].
    view_other u. by rewrite (dedup_insert_other u _ (al_TenantID candidate) dedupKey).
  - unfold MutateAlert. repeat case_match; try done. view_other u.
  - unfold CreateIncident. case_match; [done|]. view_other u.
  - unfold MutateIncident. repeat case_match; try done. view_other u.
  - unfold AppendAudit, appendAuditLocked. destruct (au_ID entry == ""); cbn;
      destruct (IsZero (au_CreatedAt entry)); view_other u.
Qed.

(** ** Properties *)

(** C27. Every state reachable through admissible operations is well formed:
    the tenants of the four tables agree (no write goes to a nil map), each
    record sits under its own tenant and identifier and is listed exactly once
    in its insertion order, every alert has as many events as it counts,
    without repetition, a risk between 0 and 100 and the severity of that
    risk, and every deduplication key points to a stored alert. *)
Theorem reachable_well_formed (m : Memory) (R : reachable m) : wf m.
Proof. by apply reachable_invariant. Qed.

(** C26. Tenant isolation of the store: an operation on one tenant leaves
    everything the store holds for any other tenant unchanged, deduplication
    keys included. *)
Theorem operations_isolate_tenants (o : op) (m : Memory) (t u : string)
    (Ht : op_tenant o = Some t) (Bt : TenantId.Valid t = true) (Bu : TenantId.Valid u = true) (Hne : t <> u) :
  tenant_view u (exec o m) = tenant_view u m.
Proof.
  by apply (exec_view_other o m t u); [|apply Valid_no_bar..|].
Qed.

Definition sample_alert (id event : string) (risk : Z) : Alert :=
  zero_Alert {{ al_ID := id; al_TenantID := "acme"; al_Title := "Suspicious PowerShell execution";
                al_RiskScore := risk; al_Severity := SeverityFromRisk risk; al_Status := "NEW";
                al_EventIDs := [event]; al_EventCount := 1; al_FindingIDs := ["fnd_" +:+ event];
                al_LastSeen := 63800000000 * Second; al_Version := 1 }}.

Definition sample_store : Memory := exec (OpUpsertAlert (sample_alert "alt_1" "evt_1" 70) "rule|user|kim" (15 * Minute)) NewMemory.

Lemma reachable_well_formed_witness : wf sample_store.
Proof.
  apply (reachable_well_formed sample_store). apply rtc_once. constructor. cbn. split_and!; [done| |done].
  constructor; cbn; try apply NoDup_singleton; try done.
Defined.

Lemma operations_isolate_tenants_witness :
  tenant_view "acme" (exec (OpResetTenant "beta") sample_store) = tenant_view "acme" sample_store.
Proof.
  apply (operations_isolate_tenants (OpResetTenant "beta") sample_store "beta" "acme");
    [reflexivity|vm_compute; reflexivity|vm_compute; reflexivity|done].
Defined.

(** ** Deduplication *)

Section Dedup.
Implicit Types (m : Memory) (c a : Alert).

Lemma ensure_idemp t m : t ∈ tenants (m_events m) -> ensureTenantLocked t m = m.
Proof. unfold ensureTenantLocked. intros [g ->]%is_tenant. done. Qed.

Lemma ensure_dedup t m : m_dedup (ensureTenantLocked t m) = m_dedup m.
Proof. unfold ensureTenantLocked. by destruct (m_events m !! t). Qed.

Lemma upsert_tenant c k w m : al_TenantID c ∈ tenants (m_events (UpsertAlert c k w m).2).
Proof.
  unfold UpsertAlert. assert (E := ensure_tenant (al_TenantID c) m). by destruct (mergeable _ _ _ _) as [[i e]|].
Qed.

(** What a call leaves behind for the next one: the key points to the
    returned alert, which is stored and was last seen with the candidate. *)
Lemma upsert_post c k w m a created m1 : wf m -> al_ID c <> "" -> al_Status c <> "CLOSED" ->
  UpsertAlert c k w m = (a, created, m1) ->
  string_of (m_dedup m1) (al_TenantID c +:+ "|" +:+ k) = al_ID a /\ al_ID a <> "" /\
  lookup2 (m_alerts m1) (al_TenantID c) (al_ID a) = Some a /\
  al_Status a <> "CLOSED" /\ al_LastSeen a = al_LastSeen c.
Proof.
  intros W Hid Hst. unfold UpsertAlert. apply (wf_ensure (al_TenantID c)) in W. revert W.
  generalize (ensureTenantLocked (al_TenantID c) m). clear m. intros m W.
  destruct (mergeable _ _ _ _) as [[i e]|] eqn:E; intros [= <- <- <-]; cbn [m_dedup m_alerts].
  - apply mergeable_Some in E as (-> & Hi & L & S & _).
    destruct (wf_alerts _ W) as (K & _). destruct (K _ _ _ L) as [Tn In].
    destruct (merge_alert_identity e c) as (MI & MT & MS). cbn. rewrite MI, In, MS.
    split_and!; try done.
    + by rewrite lookup2_put2_eq.
    + unfold merge_alert. cbn. by case_match.
  - cbn. unfold string_of. rewrite lookup_insert_eq, lookup2_put2_eq. done.
Qed.

Lemma merge_alert_union e c x :
  x ∈ al_EventIDs (merge_alert e c) <-> x ∈ al_EventIDs e \/ (x ∈ al_EventIDs c /\ x <> "").
Proof. unfold merge_alert. cbn. case_match; cbn; apply appendUnique_elem. Qed.

Lemma merge_alert_risk e c : al_RiskScore (merge_alert e c) = Z.max (al_RiskScore e) (al_RiskScore c).
Proof. unfold merge_alert. cbn. case_match; cbn; lia. Qed.

End Dedup.

(** C25. The deduplication contract: after any [UpsertAlert] of an open
    candidate, a second candidate with the same tenant and key whose time is
    within the window after the first creates no alert.  It is merged into the
    alert the first call returned: the merged alert keeps its identifier and
    status, holds the union of the events, counts them, has the greater risk
    and a new version, and no other alert changes. *)
Theorem upsert_deduplicates (m m1 m2 : Memory) (c1 c2 a1 a2 : Alert) (key : string) (window : Duration)
    (created1 created2 : bool) (W : wf m) (Hid : al_ID c1 <> "") (Hst : al_Status c1 <> "CLOSED")
    (Ht : al_TenantID c2 = al_TenantID c1)
    (Hw : time_Sub (al_LastSeen c2) (al_LastSeen c1) <= window)
    (U1 : UpsertAlert c1 key window m = (a1, created1, m1))
    (U2 : UpsertAlert c2 key window m1 = (a2, created2, m2)) :
  created2 = false /\ al_ID a2 = al_ID a1 /\ al_Status a2 = al_Status a1 /\
  (forall x, x ∈ al_EventIDs a2 <-> x ∈ al_EventIDs a1 \/ (x ∈ al_EventIDs c2 /\ x <> "")) /\
  al_EventCount a2 = Z.of_nat (length (al_EventIDs a2)) /\
  al_RiskScore a2 = Z.max (al_RiskScore a1) (al_RiskScore c2) /\
  al_Version a2 <> al_Version a1 /\
  (forall u i, lookup2 (m_alerts m2) u i =
     if decide ((al_TenantID c1, al_ID a1) = (u, i)) then Some a2 else lookup2 (m_alerts m1) u i).
Proof.
  assert (T : al_TenantID c2 ∈ tenants (m_events m1)).
  { rewrite Ht. assert (E := upsert_tenant c1 key window m). by rewrite U1 in E. }
  destruct (upsert_post _ _ _ _ _ _ _ W Hid Hst U1) as (D & N & L & S & F).
  revert U2. unfold UpsertAlert. rewrite (ensure_idemp _ _ T). rewrite Ht.
  assert (M : mergeable c2 (al_TenantID c1 +:+ "|" +:+ key) window m1 = Some (al_ID a1, a1)).
  { unfold mergeable. rewrite D, Ht, L, F. rewrite !bool_decide_false by done. cbn.
    destruct (Z.leb_spec (time_Sub (al_LastSeen c2) (al_LastSeen c1)) window); [done|lia]. }
  rewrite M. intros [= <- <- <-]. destruct (merge_alert_identity a1 c2) as (MI & MT & MS).
  split_and!; try done.
  - apply merge_alert_union.
  - unfold merge_alert. cbn. by case_match.
  - apply merge_alert_risk.
  - unfold merge_alert. cbn. case_match; apply wrap64_succ_ne.
  - intros u i. apply lookup2_put2.
Qed.

Lemma upsert_deduplicates_witness :
  let r := UpsertAlert (sample_alert "alt_2" "evt_2" 90) "rule|user|kim" (15 * Minute) sample_store in
  r.1.2 = false /\ al_ID r.1.1 = "alt_1" /\ al_EventCount r.1.1 = 2.
Proof.
  cbv zeta.
  destruct (UpsertAlert (sample_alert "alt_2" "evt_2" 90) "rule|user|kim" (15 * Minute) sample_store)
    as [[a2 created2] m2] eqn:U2.
  destruct (upsert_deduplicates NewMemory sample_store m2 (sample_alert "alt_1" "evt_1" 70)
    (sample_alert "alt_2" "evt_2" 90) (sample_alert "alt_1" "evt_1" 70) a2 "rule|user|kim" (15 * Minute) true created2
    wf_NewMemory) as (E1 & E2 & _); try done.
  clear E1 E2. vm_compute in U2. injection U2 as <- <- <-. done.
Defined.

(** ** Listings *)

Lemma sublist_map {A B} (f : A -> B) l1 l2 : l1 `sublist_of` l2 -> List.map f l1 `sublist_of` List.map f l2.
Proof. induction 1; cbn; by constructor. Qed.

Section Listing.
Context {A : Type} (tenant_of id_of : A -> string) (zero : A).
Implicit Types (mm : gmap string (gmap string A)) (o : gmap string (list string)).

Lemma list_tenant_spec mm o t limit keep : keyed tenant_of id_of mm o ->
  exists all, NoDup (List.map id_of all) /\
    (forall x, x ∈ all <-> lookup2 mm t (id_of x) = Some x) /\
    List.map id_of all = rev (slice_of o t) /\
    list_tenant mm o zero t limit keep =
      take (Z.to_nat (normalizedLimit limit)) (filter (fun x => keep x = true) all).
Proof.
  intros (K & N & D).
  set (read := fun id => default zero (lookup2 mm t id)).
  assert (R : forall i, i ∈ slice_of o t -> lookup2 mm t i = Some (read i) /\ id_of (read i) = i).
  { intros i Hi. apply D in Hi as [x Hx]. unfold read. rewrite Hx. cbn. by destruct (K _ _ _ Hx). }
  assert (Hids : List.map id_of (List.map read (rev (slice_of o t))) = rev (slice_of o t)).
  { rewrite map_map. rewrite <- (map_id (rev (slice_of o t))) at 2. apply map_ext_in.
    intros i Hi%in_rev%list_elem_of_In. by apply R. }
  exists (List.map read (rev (slice_of o t))). split_and!.
  - rewrite Hids, <- Permutation_rev. apply N.
  - intros x. split.
    + intros Hx%list_elem_of_In. apply in_map_iff in Hx as (i & <- & Hi%in_rev%list_elem_of_In).
      destruct (R i Hi) as [H1 H2]. by rewrite H2.
    + intros Hx. apply list_elem_of_In, in_map_iff. exists (id_of x). split.
      * unfold read. by rewrite Hx.
      * apply in_rev. rewrite rev_involutive. apply list_elem_of_In, D. by eexists.
  - done.
  - apply collect_spec.
Qed.

End Listing.

(** [ListEvents] is a bounded filter of the tenant's own events, newest
    insertion first: what it returns is stored under the tenant and selected
    by the filter, in reverse order of insertion and without repetition; it
    returns at most 500 events, and when it returns fewer than its limit no
    selected event of the tenant is missing. *)
Theorem ListEvents_sound_complete (m : Memory) (t : string) (filter : EventFilter) (W : wf m) :
  let out := ListEvents t filter m in
  (forall e, e ∈ out -> GetEvent t (ev_ID e) m = Ok e /\ ev_TenantID e = t /\ event_selected filter e = true) /\
  sublist (List.map ev_ID out) (rev (slice_of (m_eventOrder m) t)) /\
  Z.of_nat (length out) <= normalizedLimit (ef_Limit filter) <= 500 /\
  (Z.of_nat (length out) < normalizedLimit (ef_Limit filter) ->
   forall e, lookup2 (m_events m) t (ev_ID e) = Some e -> event_selected filter e = true -> e ∈ out).
Proof.
  cbv zeta. unfold ListEvents.
  destruct (list_tenant_spec ev_TenantID ev_ID zero_CanonicalEvent _ _ t (ef_Limit filter)
    (event_selected filter) (wf_events _ W)) as (all & N & All & Ids & ->).
  assert (B := normalizedLimit_bounds (ef_Limit filter)).
  set (n := Z.to_nat _). set (sel := base.filter _ all).
  assert (Sub : take n sel `sublist_of` all).
  { etrans; [apply sublist_take|apply sublist_filter]. }
  split_and!; try lia.
  - intros e He. assert (Ha : e ∈ sel) by (eapply elem_of_sublist; [exact He|apply sublist_take]).
    apply list_elem_of_filter in Ha as [Hs Ha]. apply All in Ha. unfold GetEvent. rewrite Ha.
    destruct (wf_events _ W) as (K & _). by destruct (K _ _ _ Ha).
  - rewrite <- Ids. by apply sublist_map.
  - rewrite length_take. lia.
  - rewrite length_take. intros Hlt e He Hs. rewrite take_ge by lia.
    apply list_elem_of_filter. split; [done|by apply All].
Qed.

Definition sample_event (id category : string) : CanonicalEvent :=
  zero_CanonicalEvent {{ ev_ID := id; ev_TenantID := "acme"; ev_Category := category }}.

Definition two_events : Memory :=
  (PutEvent (sample_event "evt_2" "Process") (PutEvent (sample_event "evt_1" "Authentication") NewMemory).2).2.

Definition sample_filter : EventFilter :=
  {| ef_Query := " EVT "; ef_Category := "process"; ef_Severity := 0; ef_Limit := 5 |}.

Lemma ListEvents_sound_complete_witness :
  (ListEvents "acme" sample_filter two_events = [sample_event "evt_2" "Process"]) /\
  GetEvent "acme" "evt_2" two_events = Ok (sample_event "evt_2" "Process").
Proof.
  assert (W : wf two_events) by (apply wf_PutEvent, wf_PutEvent, wf_NewMemory).
  destruct (ListEvents_sound_complete two_events "acme" sample_filter W) as (S & _).
  split; [vm_compute; reflexivity|]. apply (S (sample_event "evt_2" "Process")). vm_compute. constructor.
Defined.
