(* ===== verification/Soc.v ===== *)
(** * The SOC service (internal/soc/service.go)

    Alert triage and incident handling over an abstract repository: the
    [SocRepository] class is the service's port, its operations as the service
    calls them.  The clock a repository reads inside an operation, and the
    random bytes it would draw, are arguments of the port.  A mutation closure
    that draws identifiers gets them as arguments: [UpdateIncident] draws the
    three it may need before the call. *)

From S2P Require Import Prelude GoLang GoFormat Core MemoryStore.

(** ** Errors and inputs *)

Definition ErrInvalidTransition : error := New "invalid state transition".
Definition ErrClosureDetails : error := New "closure requires disposition and reason".
Definition ErrNoAlerts : error := New "at least one alert is required".

Record AlertPatch : Type := {
  ap_Status : string; ap_Assignee : string; ap_Disposition : string; ap_Comment : string; ap_Version : Z
}.

Record CreateIncidentInput : Type := {
  ci_Title : string; ci_Summary : string; ci_Assignee : string; ci_AlertIDs : list string; ci_RequestID : string
}.

Record IncidentPatch : Type := {
  ip_Status : string; ip_Assignee : string; ip_Disposition : string; ip_ClosureReason : string;
  ip_Comment : string; ip_Version : Z; ip_RequestID : string
}.

(** ** The port *)

Class SocRepository (R : Type) : Type := {
  soc_ListIncidents : Context -> string -> IncidentFilter -> M R (list Incident);
  soc_GetAlert : Context -> string -> string -> M R Alert;
  soc_MutateAlert : Context -> Time -> string -> string -> Z -> (Alert -> outcome Alert) -> M R Alert;
  soc_CreateIncident : Context -> Incident -> M R Incident;
  soc_MutateIncident : Context -> Time -> string -> string -> Z -> (Incident -> outcome Incident) -> M R Incident;
  soc_AppendAudit : Context -> string -> Time -> AuditEntry -> M R AuditEntry
}.

(** ** Helpers *)

Definition appendUnique (values additions : list string) : list string :=
  appendUnique_loop (list_to_set values) values additions.

Definition uniqueSorted (values : list string) : list string :=
  sort_Strings (appendUnique [] values).

Fixpoint stringSlicesEqual (left right : list string) : bool :=
  match left, right with
  | [], [] => true
  | l :: left', r :: right' => (l == r) && stringSlicesEqual left' right'
  | _, _ => false
  end.

Definition entityExists (values : list EntitySummary) (candidate : EntitySummary) : bool :=
  existsb (fun value => (es_Type value == es_Type candidate) && (es_Name value == es_Name candidate)) values.

Definition contains (values : list string) (candidate : string) : bool :=
  existsb (fun value => value == candidate) values.

Fixpoint firstNonEmpty (values : list string) : string :=
  match values with
  | [] => ""
  | value :: rest => if TrimSpace value != "" then TrimSpace value else firstNonEmpty rest
  end.

Definition acknowledgementWindow (severity : Severity) : Duration :=
  if severity == SeverityCritical then 15 * Minute
  else if severity == SeverityHigh then 30 * Minute
  else if severity == SeverityMedium then 4 * Hour
  else 24 * Hour.

(** ** State machines *)

Definition allowed_alert_transitions (current : string) : list string :=
  if current == "NEW" then ["ACKNOWLEDGED"; "IN_PROGRESS"; "CLOSED"]
  else if current == "ACKNOWLEDGED" then ["IN_PROGRESS"; "CLOSED"]
  else if current == "IN_PROGRESS" then ["CLOSED"]
  else [].

Definition validAlertTransition (current next : string) : bool :=
  (current == next) || (next ∈? allowed_alert_transitions current).

Definition AllowedTransitions (status : string) : list string :=
  let status := ToUpper status in
  if status == "NEW" then ["TRIAGE"]
  else if status == "TRIAGE" then ["INVESTIGATION"; "CLOSED"]
  else if status == "INVESTIGATION" then ["CONTAINMENT"; "RECOVERY"; "CLOSED"]
  else if status == "CONTAINMENT" then ["ERADICATION"; "RECOVERY"]
  else if status == "ERADICATION" then ["RECOVERY"]
  else if status == "RECOVERY" then ["CLOSED"]
  else [].

(** ** UpdateAlert *)

(** The closure [UpdateAlert] gives to the store, and its parts. *)
Definition acknowledge_alert (now : Time) (next : string) (alert : Alert) : Alert :=
  if ((next == "ACKNOWLEDGED") || (next == "IN_PROGRESS") || (next == "CLOSED"))
     && (match sla_Acknowledged (al_SLA alert) with None => true | Some _ => false end)
  then alert {{ al_SLA ::= fun sla =>
         sla {{ sla_Acknowledged := Some now; sla_Breached := After now (sla_AcknowledgeBy sla) }} }}
  else alert.

Definition patch_alert_status (now : Time) (patch : AlertPatch) (alert : Alert) : outcome Alert :=
  if ap_Status patch != "" then
    let next := ToUpper (ap_Status patch) in
    if negb (validAlertTransition (al_Status alert) next)
    then Err (Wrap ("alert " +:+ al_Status alert +:+ " -> " +:+ next) ErrInvalidTransition)
    else if (next == "CLOSED") && (TrimSpace (ap_Disposition patch) == "")
    then Err ErrClosureDetails
    else Ok (acknowledge_alert now next (alert {{ al_Status := next }}))
  else Ok alert.

Definition patch_alert (now : Time) (patch : AlertPatch) (alert : Alert) : outcome Alert :=
  let? alert := patch_alert_status now patch alert in
  let alert := if ap_Assignee patch != "" then alert {{ al_Assignee := TrimSpace (ap_Assignee patch) }} else alert in
  let alert := if ap_Disposition patch != "" then alert {{ al_Disposition := ToUpper (ap_Disposition patch) }} else alert in
  Ok alert.

(** ** UpdateIncident *)

Definition timeline_entry (random type message actor : string) (now : Time) : TimelineEntry :=
  {| te_ID := NewID "tim" random; te_Type := type; te_Message := message; te_Actor := actor;
     te_CreatedAt := now; te_Data := None |}.

(** The three statements under [if patch.Status != ""], after its guard. *)
Definition close_incident (next : string) (patch : IncidentPatch) (incident : Incident) : outcome Incident :=
  if next == "CLOSED" then
    let disposition := firstNonEmpty [ip_Disposition patch; in_Disposition incident] in
    let reason := firstNonEmpty [ip_ClosureReason patch; in_ClosureReason incident] in
    if (disposition == "") || (reason == "") then Err ErrClosureDetails
    else Ok (incident {{ in_Disposition := ToUpper disposition; in_ClosureReason := reason }})
  else Ok incident.

Definition move_incident (now : Time) (actor random previous next : string) (incident : Incident) : Incident :=
  let incident := incident {{ in_Status := next }} in
  if next != previous
  then incident {{ in_Timeline ::= fun timeline => timeline ++
         [timeline_entry random "incident.status_changed" (previous +:+ " → " +:+ next) actor now] }}
  else incident.

Definition acknowledge_incident (now : Time) (next : string) (incident : Incident) : Incident :=
  if (next != "NEW") && (match sla_Acknowledged (in_SLA incident) with None => true | Some _ => false end)
  then incident {{ in_SLA ::= fun sla =>
         sla {{ sla_Acknowledged := Some now; sla_Breached := After now (sla_AcknowledgeBy sla) }} }}
  else incident.

Definition patch_incident_status (now : Time) (actor random : string) (patch : IncidentPatch)
    (incident : Incident) : outcome Incident :=
  let previous := in_Status incident in
  if ip_Status patch != "" then
    let next := ToUpper (ip_Status patch) in
    if negb (contains (AllowedTransitions previous) next) && (previous != next)
    then Err (Wrap ("incident " +:+ previous +:+ " -> " +:+ next) ErrInvalidTransition)
    else
      let? incident := close_incident next patch incident in
      Ok (acknowledge_incident now next (move_incident now actor random previous next incident))
  else Ok incident.

Definition patch_incident_assignee (now : Time) (actor random : string) (patch : IncidentPatch)
    (incident : Incident) : Incident :=
  if (ip_Assignee patch != "") && (ip_Assignee patch != in_Assignee incident)
  then let assignee := TrimSpace (ip_Assignee patch) in
       incident {{ in_Assignee := assignee;
                   in_Timeline ::= fun timeline => timeline ++
                     [timeline_entry random "incident.assigned" ("Assigned to " +:+ assignee) actor now] }}
  else incident.

Definition patch_incident_closure (patch : IncidentPatch) (incident : Incident) : Incident :=
  let incident := if ip_Disposition patch != ""
    then incident {{ in_Disposition := ToUpper (ip_Disposition patch) }} else incident in
  if ip_ClosureReason patch != ""
  then incident {{ in_ClosureReason := TrimSpace (ip_ClosureReason patch) }} else incident.

Definition patch_incident_comment (now : Time) (actor random : string) (patch : IncidentPatch)
    (incident : Incident) : Incident :=
  if TrimSpace (ip_Comment patch) != ""
  then incident {{ in_Timeline ::= fun timeline => timeline ++
         [timeline_entry random "comment" (TrimSpace (ip_Comment patch)) actor now] }}
  else incident.

(** The closure [UpdateIncident] gives to the store, with the identifiers its
    timeline entries draw. *)
Definition patch_incident (now : Time) (actor random1 random2 random3 : string) (patch : IncidentPatch)
    (incident : Incident) : outcome Incident :=
  let? incident := patch_incident_status now actor random1 patch incident in
  let incident := patch_incident_assignee now actor random2 patch incident in
  let incident := patch_incident_closure patch incident in
  let incident := patch_incident_comment now actor random3 patch incident in
  Ok (incident {{ in_AllowedTransitions := AllowedTransitions (in_Status incident) }}).

Section Service.
Context {R : Type} `{SocRepository R}.

Definition append_audit (ctx : Context) (entry : AuditEntry) : M (World R) AuditEntry :=
  let! random := Random in
  let! now := Now in
  on_repo (soc_AppendAudit ctx random now entry).

Definition UpdateAlert (ctx : Context) (tenantID alertID actor requestID : string) (patch : AlertPatch)
    : M (World R) Alert :=
  let! now := Now in
  let! stored_at := Now in
  let! alert := on_repo (soc_MutateAlert ctx stored_at tenantID alertID (ap_Version patch) (patch_alert now patch)) in
  do! wrapping "append alert audit" (append_audit ctx (zero_AuditEntry {{
    au_TenantID := tenantID; au_Actor := actor; au_Action := "alert.triaged"; au_ResourceType := "alert";
    au_ResourceID := al_ID alert; au_Outcome := "success"; au_RequestID := requestID;
    au_Metadata := Some (list_to_map [
      ("status", VString (al_Status alert)); ("assignee", VString (al_Assignee alert));
      ("disposition", VString (al_Disposition alert)); ("comment", VString (ap_Comment patch))]) }})) in
  ret alert.

(** ** CreateIncident *)

(** What the loop over the alerts gathers. *)
Record Gathered : Type := {
  ga_alerts : list Alert; ga_severity : Severity; ga_riskScore : Z; ga_findingIDs : list string;
  ga_eventIDs : list string; ga_mitre : list string; ga_entities : list EntitySummary
}.

Definition gather_none : Gathered := {|
  ga_alerts := []; ga_severity := SeverityInformational; ga_riskScore := 0; ga_findingIDs := [];
  ga_eventIDs := []; ga_mitre := []; ga_entities := [] |}.

Definition gather (g : Gathered) (alert : Alert) : Gathered := {|
  ga_alerts := ga_alerts g ++ [alert];
  ga_severity := if SeverityRank (ga_severity g) <? SeverityRank (al_Severity alert)
                 then al_Severity alert else ga_severity g;
  ga_riskScore := if ga_riskScore g <? al_RiskScore alert then al_RiskScore alert else ga_riskScore g;
  ga_findingIDs := appendUnique (ga_findingIDs g) (al_FindingIDs alert);
  ga_eventIDs := appendUnique (ga_eventIDs g) (al_EventIDs alert);
  ga_mitre := appendUnique (ga_mitre g) (al_MITRE alert);
  ga_entities := if (es_Name (al_Entity alert) != "") && negb (entityExists (ga_entities g) (al_Entity alert))
                 then ga_entities g ++ [al_Entity alert] else ga_entities g |}.

(** The closure that links an alert to the new incident. *)
Definition link_alert (assignee : string) (value : Alert) : outcome Alert :=
  let value := if (al_Status value == "NEW") || (al_Status value == "ACKNOWLEDGED")
               then value {{ al_Status := "IN_PROGRESS" }} else value in
  Ok (if al_Assignee value == "" then value {{ al_Assignee := assignee }} else value).

Definition new_incident (tenantID actor title incidentRandom timelineRandom : string) (now : Time)
    (input : CreateIncidentInput) (alertIDs : list string) (g : Gathered) : Incident := {|
  in_ID := NewID "inc" incidentRandom; in_TenantID := tenantID; in_Title := title;
  in_Summary := TrimSpace (ci_Summary input); in_Severity := ga_severity g; in_Status := "NEW";
  in_Disposition := ""; in_ClosureReason := ""; in_Assignee := TrimSpace (ci_Assignee input);
  in_AlertIDs := alertIDs; in_FindingIDs := ga_findingIDs g; in_EventIDs := ga_eventIDs g;
  in_Entities := ga_entities g; in_MITRE := ga_mitre g; in_RiskScore := ga_riskScore g;
  in_Timeline := [{| te_ID := NewID "tim" timelineRandom; te_Type := "incident.created";
                     te_Message := "Incident created from SOC alert"; te_Actor := actor;
                     te_CreatedAt := now; te_Data := None |}];
  in_SLA := zero_SLAInfo {{ sla_AcknowledgeBy := time_Add now (acknowledgementWindow (ga_severity g)) }};
  in_AllowedTransitions := AllowedTransitions "NEW"; in_Version := 1; in_CreatedAt := now; in_UpdatedAt := now |}.

Definition CreateIncident (ctx : Context) (tenantID actor : string) (input : CreateIncidentInput)
    : M (World R) (Incident * bool) :=
  if Z.of_nat (length (ci_AlertIDs input)) =? 0 then fail ErrNoAlerts else
  let alertIDs := uniqueSorted (ci_AlertIDs input) in
  let! existingIncidents := on_repo (soc_ListIncidents ctx tenantID
    {| if_Status := ""; if_Severity := ""; if_Query := ""; if_Limit := 500 |}) in
  match List.find (fun existing => stringSlicesEqual (uniqueSorted (in_AlertIDs existing)) alertIDs)
                  existingIncidents with
  | Some existing => ret (existing, true)
  | None =>
      let! g := foldM (fun g alertID =>
                  let! alert := on_repo (soc_GetAlert ctx tenantID alertID) in ret (gather g alert))
                gather_none alertIDs in
      let! now := Now in
      let title := TrimSpace (ci_Title input) in
      let! title := (if title == "" then
                      match ga_alerts g with [] => panic | alert :: _ => ret (al_Title alert) end
                    else ret title) in
      let! incidentRandom := Random in
      let! timelineRandom := Random in
      let! created := on_repo (soc_CreateIncident ctx
        (new_incident tenantID actor title incidentRandom timelineRandom now input alertIDs g)) in
      do! forM_ (ga_alerts g) (fun alert =>
        let! stored_at := Now in
        do! wrapping ("link alert " +:+ al_ID alert +:+ " to incident")
              (on_repo (soc_MutateAlert ctx stored_at tenantID (al_ID alert) 0 (link_alert (ci_Assignee input)))) in
        ret tt) in
      do! wrapping "append incident creation audit" (append_audit ctx (zero_AuditEntry {{
        au_TenantID := tenantID; au_Actor := actor; au_Action := "incident.created";
        au_ResourceType := "incident"; au_ResourceID := in_ID created; au_Outcome := "success";
        au_RequestID := ci_RequestID input;
        au_Metadata := Some (list_to_map [("alert_ids", VStrings alertIDs);
          ("severity", VString (ga_severity g)); ("risk_score", VInt (ga_riskScore g))]) }})) in
      ret (created, false)
  end.

Definition UpdateIncident (ctx : Context) (tenantID incidentID actor : string) (patch : IncidentPatch)
    : M (World R) Incident :=
  let! now := Now in
  let! random1 := Random in
  let! random2 := Random in
  let! random3 := Random in
  let! stored_at := Now in
  let! incident := on_repo (soc_MutateIncident ctx stored_at tenantID incidentID (ip_Version patch)
    (patch_incident now actor random1 random2 random3 patch)) in
  do! wrapping "append incident audit" (append_audit ctx (zero_AuditEntry {{
    au_TenantID := tenantID; au_Actor := actor; au_Action := "incident.updated"; au_ResourceType := "incident";
    au_ResourceID := in_ID incident; au_Outcome := "success"; au_RequestID := ip_RequestID patch;
    au_Metadata := Some (list_to_map [("status", VString (in_Status incident));
      ("assignee", VString (in_Assignee incident)); ("disposition", VString (in_Disposition incident))]) }})) in
  ret incident.

End Service.

(** ** The in-memory repository as the service's port *)

#[export] Instance memory_soc_repository : SocRepository Memory := {|
  soc_ListIncidents := repo_ListIncidents;
  soc_GetAlert := repo_GetAlert;
  soc_MutateAlert := repo_MutateAlert;
  soc_CreateIncident := repo_CreateIncident;
  soc_MutateIncident := repo_MutateIncident;
  soc_AppendAudit := repo_AppendAudit
|}.
