(* ===== verification/SocSpec.v ===== *)
(** * What the SOC service guarantees, over any repository that keeps its laws

    [SocLaws] states what the service relies on in its repository; the
    in-memory repository satisfies it.  The lifecycles of alerts and incidents
    are specified as state machines, and every call of the service is shown to
    follow them. *)

From S2P Require Import Prelude GoLang GoFormat Core TenantId MemoryStore MemoryFacts MemorySystem.
From S2P Require Import Soc.

#[global] Arguments validAlertTransition : simpl never.
#[global] Arguments AllowedTransitions : simpl never.
#[global] Arguments link_alert : simpl never.
#[global] Arguments patch_alert : simpl never.
#[global] Arguments patch_incident : simpl never.

(** ** The laws of the port *)

(** The contract of a versioned mutation: what is answered for the record
    found, the expected version and the closure. *)
Definition versioned {A} (version : A -> Z) (stamp : A -> A) (expected : Z)
    (mutate : A -> outcome A) (current : option A) : outcome A :=
  match current with
  | None => Err ErrNotFound
  | Some a => if (0 <? expected) && negb (version a =? expected) then Err ErrVersionConflict
              else let? b := mutate a in Ok (stamp b)
  end.

Definition stamp_alert (now : Time) (a : Alert) : Alert :=
  a {{ al_Version ::= fun v => wrap64 (v + 1); al_UpdatedAt := now }}.
Definition stamp_incident (now : Time) (i : Incident) : Incident :=
  i {{ in_Version ::= fun v => wrap64 (v + 1); in_UpdatedAt := now }}.

(** The record at a key after a mutation of another or the same key. *)
Definition updated {A} (o : outcome A) (here there : string * string) (before : option A) : option A :=
  match o with Ok b => if decide (here = there) then Some b else before | _ => before end.

Class SocLaws (R : Type) `{SocRepository R} : Type := {
  sr_valid : R -> Prop;
  sr_alert : R -> string -> string -> option Alert;
  sr_incident : R -> string -> string -> option Incident;
  sr_ListIncidents ctx t f r : (soc_ListIncidents ctx t f r).2 = r;
  sr_GetAlert t i r :
    soc_GetAlert None t i r = (match sr_alert r t i with Some a => Ok a | None => Err ErrNotFound end, r);
  sr_MutateAlert now t i v f r : sr_valid r ->
    let out := soc_MutateAlert None now t i v f r in
    sr_valid out.2 /\
    out.1 = versioned al_Version (stamp_alert now) v f (sr_alert r t i) /\
    (forall t' i', sr_alert out.2 t' i' = updated out.1 (t, i) (t', i') (sr_alert r t' i')) /\
    (forall t' i', sr_incident out.2 t' i' = sr_incident r t' i');
  sr_MutateIncident now t i v f r : sr_valid r ->
    let out := soc_MutateIncident None now t i v f r in
    sr_valid out.2 /\
    out.1 = versioned in_Version (stamp_incident now) v f (sr_incident r t i) /\
    (forall t' i', sr_incident out.2 t' i' = updated out.1 (t, i) (t', i') (sr_incident r t' i')) /\
    (forall t' i', sr_alert out.2 t' i' = sr_alert r t' i');
  sr_CreateIncident incident r : sr_valid r ->
    let out := soc_CreateIncident None incident r in
    sr_valid out.2 /\
    (forall t i, sr_alert out.2 t i = sr_alert r t i) /\
    (forall t i x, sr_incident r t i = Some x -> sr_incident out.2 t i = Some x) /\
    (forall x, out.1 = Ok x -> x = incident /\
       sr_incident out.2 (in_TenantID incident) (in_ID incident) = Some incident);
  sr_AppendAudit random now e r : sr_valid r ->
    let out := soc_AppendAudit None random now e r in
    sr_valid out.2 /\
    (forall t i, sr_alert out.2 t i = sr_alert r t i) /\
    (forall t i, sr_incident out.2 t i = sr_incident r t i)
}.

(** ** Lifecycles *)

Definition alert_move (current next : string) : Prop := next ∈ allowed_alert_transitions current.
Definition incident_move (current next : string) : Prop := next ∈ AllowedTransitions current.

(** Calls of the service, and their effect on the world. *)
Inductive soc_call : Type :=
  | CallUpdateAlert (tenantID alertID actor requestID : string) (patch : AlertPatch)
  | CallCreateIncident (tenantID actor : string) (input : CreateIncidentInput)
  | CallUpdateIncident (tenantID incidentID actor : string) (patch : IncidentPatch).

Section Lawful.
Context {R : Type} `{SocLaws R}.

Definition call (c : soc_call) (w : World R) : World R :=
  match c with
  | CallUpdateAlert t i actor req patch => (UpdateAlert None t i actor req patch w).2
  | CallCreateIncident t actor input => (CreateIncident None t actor input w).2
  | CallUpdateIncident t i actor patch => (UpdateIncident None t i actor patch w).2
  end.

(** Every alert and incident of [w] is still there in [w'], reached along
    lifecycle moves, none from a world to itself. *)
Definition progresses (w w' : World R) : Prop :=
  sr_valid (w_repo w) ->
  sr_valid (w_repo w') /\
  (forall t i a, sr_alert (w_repo w) t i = Some a ->
     exists b, sr_alert (w_repo w') t i = Some b /\ rtc alert_move (al_Status a) (al_Status b)) /\
  (forall t i a, sr_incident (w_repo w) t i = Some a ->
     exists b, sr_incident (w_repo w') t i = Some b /\ rtc incident_move (in_Status a) (in_Status b)).

(** ** Lemmas *)

Lemma progresses_same (w w' : World R) : (sr_valid (w_repo w) -> sr_valid (w_repo w') /\
    (forall t i, sr_alert (w_repo w') t i = sr_alert (w_repo w) t i) /\
    (forall t i, sr_incident (w_repo w') t i = sr_incident (w_repo w) t i)) -> progresses w w'.
Proof.
  intros E V. destruct (E V) as (V' & HA & HI).
  split_and!; [done|..]; intros t i a Ha; exists a; rewrite ?HA, ?HI; split; done || reflexivity.
Qed.

#[export] Instance progresses_preorder : PreOrder progresses.
Proof.
  split; [intros w; by apply progresses_same|].
  intros w1 w2 w3 P1 P2 V1. destruct (P1 V1) as (V2 & A1 & I1). destruct (P2 V2) as (V3 & A2 & I2).
  split_and!; [done|..]; intros t i a Ha.
  - destruct (A1 _ _ _ Ha) as (b & Hb & Rb). destruct (A2 _ _ _ Hb) as (c & Hc & Rc).
    exists c. split; [done|]. by transitivity (al_Status b).
  - destruct (I1 _ _ _ Ha) as (b & Hb & Rb). destruct (I2 _ _ _ Hb) as (c & Hc & Rc).
    exists c. split; [done|]. by transitivity (in_Status b).
Qed.

Lemma evolves_Now : evolves progresses Now.
Proof. intros w. by apply progresses_same. Qed.

Lemma evolves_Random : evolves progresses Random.
Proof. intros w. by apply progresses_same. Qed.

Lemma evolves_on_repo_read {A} (m : M R A) : (forall r, (m r).2 = r) -> evolves progresses (on_repo m).
Proof.
  intros Hm w. unfold on_repo. specialize (Hm (w_repo w)). destruct (m (w_repo w)) as [o r]. cbn in Hm. subst.
  by apply progresses_same.
Qed.

Lemma evolves_append_audit e : evolves progresses (append_audit None e).
Proof.
  unfold append_audit. apply evolves_bind; [apply _|apply evolves_Random|intros random].
  apply evolves_bind; [apply _|apply evolves_Now|intros now w].
  apply progresses_same. intros V. unfold on_repo.
  assert (L := sr_AppendAudit random now e (w_repo w) V).
  by destruct (soc_AppendAudit None random now e (w_repo w)) as [o r].
Qed.

(** A record replaced in one place, by a move of its lifecycle. *)
Lemma updated_moves {A} (status : A -> string) (move : string -> string -> Prop) version stamp v f
    (here there : string * string) (read : string * string -> option A) (o : outcome A) a :
  o = versioned version stamp v f (read here) -> (forall a, status (stamp a) = status a) ->
  (forall a b, f a = Ok b -> rtc move (status a) (status b)) -> read there = Some a ->
  exists b, updated o here there (read there) = Some b /\ rtc move (status a) (status b).
Proof.
  intros E St Hf Ha. unfold updated.
  destruct o as [b| |]; [|exists a; split; done || reflexivity..].
  case_decide as D; [subst there|exists a; split; done || reflexivity].
  rewrite Ha in E. cbn in E. case_match; [done|]. destruct (f a) as [c| |] eqn:F; [|done..].
  injection E as ->. eexists. split; [done|]. rewrite St. by apply Hf.
Qed.

Lemma evolves_MutateAlert now t i v f :
  (forall a b, f a = Ok b -> rtc alert_move (al_Status a) (al_Status b)) ->
  evolves progresses (on_repo (soc_MutateAlert None now t i v f)).
Proof.
  intros Hf w V. unfold on_repo. destruct (sr_MutateAlert now t i v f (w_repo w) V) as (V' & E & HA & HI).
  destruct (soc_MutateAlert None now t i v f (w_repo w)) as [o r]. cbn in *.
  split_and!; [done|..]; intros t' i' a Ha; [|exists a; rewrite HI; split; done || reflexivity].
  rewrite HA. by eapply (updated_moves al_Status _ _ (stamp_alert now) _ _ (t, i) (t', i')
    (fun k => sr_alert (w_repo w) k.1 k.2)).
Qed.

Lemma evolves_MutateIncident now t i v f :
  (forall a b, f a = Ok b -> rtc incident_move (in_Status a) (in_Status b)) ->
  evolves progresses (on_repo (soc_MutateIncident None now t i v f)).
Proof.
  intros Hf w V. unfold on_repo. destruct (sr_MutateIncident now t i v f (w_repo w) V) as (V' & E & HI & HA).
  destruct (soc_MutateIncident None now t i v f (w_repo w)) as [o r]. cbn in *.
  split_and!; [done|..]; intros t' i' a Ha; [exists a; rewrite HA; split; done || reflexivity|].
  rewrite HI. by eapply (updated_moves in_Status _ _ (stamp_incident now) _ _ (t, i) (t', i')
    (fun k => sr_incident (w_repo w) k.1 k.2)).
Qed.

Lemma evolves_CreateIncident_port incident : evolves progresses (on_repo (soc_CreateIncident None incident)).
Proof.
  intros w V. unfold on_repo. destruct (sr_CreateIncident incident (w_repo w) V) as (V' & HA & HI & _).
  destruct (soc_CreateIncident None incident (w_repo w)) as [o r]. cbn in *.
  split_and!; [done|..]; intros t i a Ha; exists a; (split; [|reflexivity]); [by rewrite HA|by apply HI].
Qed.

(** The closures of the service follow the lifecycles. *)

Lemma validAlertTransition_move s s' : validAlertTransition s s' = true -> rtc alert_move s s'.
Proof.
  unfold validAlertTransition. rewrite orb_true_iff, !bool_decide_eq_true.
  intros [->|Hm]; [reflexivity|]. by apply rtc_once.
Qed.

Lemma contains_elem l x : contains l x = true <-> x ∈ l.
Proof.
  unfold contains. rewrite existsb_exists. split.
  - intros (y & Hy & E%bool_decide_eq_true). subst. by apply list_elem_of_In.
  - intros Hx. exists x. rewrite bool_decide_eq_true. by apply list_elem_of_In in Hx.
Qed.

Lemma validAlertTransition_refl s : validAlertTransition s s = true.
Proof. unfold validAlertTransition. by rewrite bool_decide_true. Qed.

(** A patch that closes carries a disposition. *)
Lemma patch_alert_status_spec now patch a b : patch_alert_status now patch a = Ok b ->
  validAlertTransition (al_Status a) (al_Status b) = true /\
  al_Version b = al_Version a /\ al_ID b = al_ID a /\ al_TenantID b = al_TenantID a /\
  (al_Status b = "CLOSED" -> ap_Status patch <> "" -> TrimSpace (ap_Disposition patch) <> "").
Proof.
  unfold patch_alert_status. destruct (ap_Status patch != "") eqn:S.
  - generalize (ToUpper (ap_Status patch)) as next. intros next.
    destruct (validAlertTransition _ _) eqn:V; cbn [negb]; [|done].
    destruct ((_ == "CLOSED") && _) eqn:C; [done|]. intros [= <-].
    assert (D : next = "CLOSED" -> TrimSpace (ap_Disposition patch) <> "").
    { intros E. rewrite (bool_decide_true _ E) in C. by apply bool_decide_eq_false in C. }
    unfold acknowledge_alert. case_match; cbn; split_and!; try done; intros E _; by apply D.
  - rewrite negb_false_iff, bool_decide_eq_true in S. intros [= <-]. split_and!; try done.
    apply validAlertTransition_refl.
Qed.

Lemma patch_alert_spec now patch a b : patch_alert now patch a = Ok b ->
  validAlertTransition (al_Status a) (al_Status b) = true /\
  al_Version b = al_Version a /\ al_ID b = al_ID a /\ al_TenantID b = al_TenantID a /\
  (al_Status b = "CLOSED" -> ap_Status patch <> "" -> TrimSpace (al_Disposition b) <> "").
Proof.
  unfold patch_alert. destruct (patch_alert_status _ _ _) as [c| |] eqn:E; cbn [outcome_bind]; [|done..].
  apply patch_alert_status_spec in E as (V & Ve & I & T & D). intros [= <-].
  destruct (decide (ap_Disposition patch = "")) as [Z|Z].
  - rewrite Z in *. rewrite (bool_decide_true ("" = "")) by done.
    destruct (ap_Assignee patch != ""); cbn; split_and!; try done; intros S N; by destruct (D S N).
  - rewrite (bool_decide_false _ Z).
    destruct (ap_Assignee patch != ""); cbn; split_and!; try done;
      intros S N; rewrite ToUpper_TrimSpace_empty; by apply D.
Qed.

Lemma link_alert_spec assignee a b : link_alert assignee a = Ok b ->
  rtc alert_move (al_Status a) (al_Status b) /\ al_Status b <> "NEW" /\ al_Status b <> "ACKNOWLEDGED".
Proof.
  unfold link_alert. intros [= <-].
  destruct ((al_Status a == "NEW") || (al_Status a == "ACKNOWLEDGED")) eqn:E; cbn.
  - assert (M : rtc alert_move (al_Status a) "IN_PROGRESS").
    { apply orb_true_iff in E as [E|E]; apply bool_decide_eq_true in E; rewrite E; apply rtc_once;
        unfold alert_move; vm_compute; repeat constructor. }
    case_match; cbn; split_and!; done.
  - apply orb_false_iff in E as [E1 E2]. rewrite bool_decide_eq_false in E1, E2.
    case_match; cbn; split_and!; done || reflexivity.
Qed.

Lemma patch_incident_status_spec now actor random patch a b :
  patch_incident_status now actor random patch a = Ok b ->
  rtc incident_move (in_Status a) (in_Status b) /\ in_Version b = in_Version a /\
  in_ID b = in_ID a /\ in_TenantID b = in_TenantID a.
Proof.
  unfold patch_incident_status. destruct (ip_Status patch != ""); [|by intros [= <-]].
  destruct (_ && _) eqn:G; [done|].
  assert (M : rtc incident_move (in_Status a) (ToUpper (ip_Status patch))).
  { apply andb_false_iff in G as [G|G]; rewrite negb_false_iff in G.
    - apply rtc_once. by apply contains_elem in G.
    - apply bool_decide_eq_true in G as ->. reflexivity. }
  destruct (close_incident _ _ _) as [c| |] eqn:C; cbn [outcome_bind]; [|done..]. intros [= <-].
  assert (K : in_Version c = in_Version a /\ in_ID c = in_ID a /\ in_TenantID c = in_TenantID a).
  { revert C. unfold close_incident. case_match; [case_match|]; by intros [= <-]. }
  revert M K. generalize (in_Status a) as previous, (ToUpper (ip_Status patch)) as next.
  intros previous next M (V & I & T). unfold acknowledge_incident, move_incident. destruct (next != previous); cbn; case_match; cbn; by split_and!.
Qed.

(** What the steps after the status leave alone. *)
Definition same_core (a b : Incident) : Prop :=
  in_Status b = in_Status a /\ in_Version b = in_Version a /\ in_ID b = in_ID a /\ in_TenantID b = in_TenantID a.

Lemma patch_incident_rest now actor r2 r3 patch c :
  same_core c (patch_incident_comment now actor r3 patch (patch_incident_closure patch
    (patch_incident_assignee now actor r2 patch c))).
Proof.
  assert (A : same_core c (patch_incident_assignee now actor r2 patch c))
    by (unfold patch_incident_assignee; by case_match).
  revert A. generalize (patch_incident_assignee now actor r2 patch c). intros d A.
  assert (B : same_core c (patch_incident_closure patch d))
    by (unfold patch_incident_closure; by case_match; case_match).
  revert B. generalize (patch_incident_closure patch d). clear A d. intros d B.
  unfold patch_incident_comment. by case_match.
Qed.

Lemma patch_incident_spec now actor r1 r2 r3 patch a b :
  patch_incident now actor r1 r2 r3 patch a = Ok b ->
  rtc incident_move (in_Status a) (in_Status b) /\ in_Version b = in_Version a /\
  in_ID b = in_ID a /\ in_TenantID b = in_TenantID a /\
  in_AllowedTransitions b = AllowedTransitions (in_Status b).
Proof.
  unfold patch_incident. destruct (patch_incident_status _ _ _ _ _) as [c| |] eqn:E; cbn [outcome_bind]; [|done..].
  apply patch_incident_status_spec in E as (M & V & I & T).
  destruct (patch_incident_rest now actor r2 r3 patch c) as (S' & V' & I' & T'). revert S' V' I' T'.
  generalize (patch_incident_comment now actor r3 patch (patch_incident_closure patch
    (patch_incident_assignee now actor r2 patch c))). intros d S' V' I' T' [= <-]. cbn. split_and!; congruence.
Qed.

Lemma call_progresses c w : progresses w (call c w).
Proof.
  destruct c as [t i actor req patch|t actor input|t i actor patch]; cbn [call]; revert w.
  - apply evolves_bind; [apply _|apply evolves_Now|intros now].
    apply evolves_bind; [apply _|apply evolves_Now|intros stored].
    apply evolves_bind; [apply _| |intros updated_alert].
    + apply evolves_MutateAlert. intros a b E. by apply validAlertTransition_move, (patch_alert_spec now patch).
    + apply evolves_bind; [apply _|apply evolves_wrapping, evolves_append_audit|intros; apply evolves_ret, _].
  - unfold CreateIncident. apply evolves_if; [apply evolves_fail, _|].
    apply evolves_bind; [apply _|apply evolves_on_repo_read, sr_ListIncidents|intros existing].
    case_match; [apply evolves_ret, _|].
    apply evolves_bind; [apply _|apply evolves_foldM; [apply _|]|intros g].
    { intros g alertID. apply evolves_bind; [apply _|apply evolves_on_repo_read; intros r; by rewrite sr_GetAlert|intros; apply evolves_ret, _]. }
    apply evolves_bind; [apply _|apply evolves_Now|intros now].
    apply evolves_bind; [apply _| |intros title].
    { case_match; [case_match; [apply evolves_panic, _|apply evolves_ret, _]|apply evolves_ret, _]. }
    do 2 (apply evolves_bind; [apply _|apply evolves_Random|intros ?]).
    apply evolves_bind; [apply _|apply evolves_CreateIncident_port|intros created].
    apply evolves_bind; [apply _|apply evolves_forM; [apply _|]|intros _].
    { intros linked. apply evolves_bind; [apply _|apply evolves_Now|intros stored].
      apply evolves_bind; [apply _|apply evolves_wrapping, evolves_MutateAlert|intros; apply evolves_ret, _].
      intros x y E. by apply link_alert_spec in E as (M & _). }
    apply evolves_bind; [apply _|apply evolves_wrapping, evolves_append_audit|intros; apply evolves_ret, _].
  - apply evolves_bind; [apply _|apply evolves_Now|intros now].
    do 3 (apply evolves_bind; [apply _|apply evolves_Random|intros ?]).
    apply evolves_bind; [apply _|apply evolves_Now|intros stored].
    apply evolves_bind; [apply _| |intros updated_incident].
    + apply evolves_MutateIncident. intros x y E. by apply patch_incident_spec in E as (M & _).
    + apply evolves_bind; [apply _|apply evolves_wrapping, evolves_append_audit|intros; apply evolves_ret, _].
Qed.

End Lawful.

(** ** The in-memory repository keeps the laws *)

Section MemoryLaws.
Implicit Types (m : Memory) (t i : string).

Lemma memory_MutateAlert now t i v f m : tenants_agree m ->
  let out := repo_MutateAlert None now t i v f m in
  tenants_agree out.2 /\
  out.1 = versioned al_Version (stamp_alert now) v f (lookup2 (m_alerts m) t i) /\
  (forall t' i', lookup2 (m_alerts out.2) t' i' = updated out.1 (t, i) (t', i') (lookup2 (m_alerts m) t' i')) /\
  (forall t' i', lookup2 (m_incidents out.2) t' i' = lookup2 (m_incidents m) t' i').
Proof.
  intros T. unfold repo_MutateAlert, check_ctx, bind, ret, MutateAlert, versioned.
  destruct (lookup2 (m_alerts m) t i) as [a|] eqn:L; [|done].
  destruct (_ && _); [done|]. destruct (f a) as [b| |]; [|done..]. cbn. split_and!; try apply T; try done.
  - rewrite tenants_put2 by (by eapply lookup2_tenant). apply T.
  - intros. apply lookup2_put2.
Qed.

Lemma memory_MutateIncident now t i v f m : tenants_agree m ->
  let out := repo_MutateIncident None now t i v f m in
  tenants_agree out.2 /\
  out.1 = versioned in_Version (stamp_incident now) v f (lookup2 (m_incidents m) t i) /\
  (forall t' i', lookup2 (m_incidents out.2) t' i' = updated out.1 (t, i) (t', i') (lookup2 (m_incidents m) t' i')) /\
  (forall t' i', lookup2 (m_alerts out.2) t' i' = lookup2 (m_alerts m) t' i').
Proof.
  intros T. unfold repo_MutateIncident, check_ctx, bind, ret, MutateIncident, versioned.
  destruct (lookup2 (m_incidents m) t i) as [a|] eqn:L; [|done].
  destruct (_ && _); [done|]. destruct (f a) as [b| |]; [|done..]. cbn. split_and!; try apply T; try done.
  - rewrite tenants_put2 by (by eapply lookup2_tenant). apply T.
  - intros. apply lookup2_put2.
Qed.

Lemma memory_CreateIncident incident m : tenants_agree m ->
  let out := repo_CreateIncident None incident m in
  tenants_agree out.2 /\
  (forall t i, lookup2 (m_alerts out.2) t i = lookup2 (m_alerts m) t i) /\
  (forall t i x, lookup2 (m_incidents m) t i = Some x -> lookup2 (m_incidents out.2) t i = Some x) /\
  (forall x, out.1 = Ok x -> x = incident /\
     lookup2 (m_incidents out.2) (in_TenantID incident) (in_ID incident) = Some incident).
Proof.
  intros T. unfold repo_CreateIncident, check_ctx, bind, ret, MemoryStore.CreateIncident.
  assert (EA := ensure_alerts (in_TenantID incident) m). assert (EI := ensure_incidents (in_TenantID incident) m).
  assert (T' := agree_ensure (in_TenantID incident) m T). assert (D := ensure_tenant (in_TenantID incident) m).
  destruct (lookup2 _ _ _) as [x|] eqn:L; cbn.
  - split_and!; try apply T'; intros; [by rewrite EA|by rewrite EI|done].
  - split_and!; try apply T'; intros.
    + rewrite tenants_put2; [apply T'|]. destruct T' as (_ & _ & ->). done.
    + by rewrite EA.
    + rewrite lookup2_put2. case_decide as K; [|by rewrite EI]. injection K as <- <-.
      rewrite EI in L by done. congruence.
    + split; [congruence|apply lookup2_put2_eq].
Qed.

Lemma memory_AppendAudit random now e m : tenants_agree m ->
  let out := repo_AppendAudit None random now e m in
  tenants_agree out.2 /\
  (forall t i, lookup2 (m_alerts out.2) t i = lookup2 (m_alerts m) t i) /\
  (forall t i, lookup2 (m_incidents out.2) t i = lookup2 (m_incidents m) t i).
Proof. done. Qed.

Lemma memory_GetAlert t i m :
  repo_GetAlert None t i m = (match lookup2 (m_alerts m) t i with Some a => Ok a | None => Err ErrNotFound end, m).
Proof. done. Qed.

Lemma memory_ListIncidents ctx t f m : (repo_ListIncidents ctx t f m).2 = m.
Proof. by destruct ctx. Qed.

End MemoryLaws.

#[export] Instance memory_soc_laws : SocLaws Memory := {|
  sr_valid := tenants_agree;
  sr_alert := fun m => lookup2 (m_alerts m);
  sr_incident := fun m => lookup2 (m_incidents m);
  sr_ListIncidents := memory_ListIncidents;
  sr_GetAlert := memory_GetAlert;
  sr_MutateAlert := memory_MutateAlert;
  sr_MutateIncident := memory_MutateIncident;
  sr_CreateIncident := memory_CreateIncident;
  sr_AppendAudit := memory_AppendAudit
|}.
