(* ===== verification/SocProps.v ===== *)
(** * Properties of the SOC service *)

From S2P Require Import Prelude GoLang GoFormat Core TenantId MemoryStore MemoryFacts MemorySystem Soc SocSpec.

(** ** The closed state is final *)

Lemma rtc_final (move : string -> string -> Prop) s s' :
  (forall x, ~ move s x) -> rtc move s s' -> s' = s.
Proof. intros F T. inversion T as [|? y ? M]; subst; [done|]. by destruct (F _ M). Qed.

Lemma alert_closed_final x : ~ alert_move "CLOSED" x.
Proof. by intros ?%elem_of_nil. Qed.

Lemma incident_closed_final x : ~ incident_move "CLOSED" x.
Proof. by intros ?%elem_of_nil. Qed.

(** A linked alert never falls back to the states before an investigation. *)
Definition under_way (status : string) : Prop := status <> "NEW" /\ status <> "ACKNOWLEDGED".

Lemma alert_move_under_way s s' : alert_move s s' -> under_way s -> under_way s'.
Proof.
  unfold alert_move, allowed_alert_transitions, under_way. intros M [N A].
  repeat case_bool_decide; simplify_eq; set_solver.
Qed.

Lemma rtc_under_way s s' : rtc alert_move s s' -> under_way s -> under_way s'.
Proof. induction 1; [done|]. intros ?. by eapply IHrtc, alert_move_under_way. Qed.

(** ** [uniqueSorted] *)

Lemma soc_appendUnique_eq : Soc.appendUnique = MemoryStore.appendUnique.
Proof. done. Qed.

Lemma appendUnique_id l : NoDup l -> "" ∉ l -> Soc.appendUnique [] l = l.
Proof.
  rewrite soc_appendUnique_eq. intros N E.
  assert (G : forall pre, NoDup (pre ++ l) -> MemoryStore.appendUnique pre l = pre ++ l); [|by apply (G [])].
  induction l as [|x l IH]; intros pre Hn; [by rewrite app_nil_r|].
  assert (X : x ∉ pre) by (apply NoDup_app in Hn as (_ & D & _); set_solver).
  rewrite appendUnique_cons, (bool_decide_false (x = "")), (bool_decide_false (x ∈ pre)) by set_solver. cbn.
  change (pre ++ x :: l) with (pre ++ [x] ++ l) in *. rewrite app_assoc in *.
  apply NoDup_cons in N as [_ N]. apply IH; [done|set_solver|done].
Qed.

Lemma uniqueSorted_elem l x : x ∈ uniqueSorted l <-> x ∈ l /\ x <> "".
Proof.
  unfold uniqueSorted, sort_Strings. rewrite merge_sort_Permutation, soc_appendUnique_eq, appendUnique_elem.
  set_solver.
Qed.

Lemma uniqueSorted_NoDup l : NoDup (uniqueSorted l).
Proof.
  unfold uniqueSorted, sort_Strings. rewrite merge_sort_Permutation. apply appendUnique_NoDup. constructor.
Qed.

Lemma uniqueSorted_idemp l : uniqueSorted (uniqueSorted l) = uniqueSorted l.
Proof.
  unfold uniqueSorted at 1. rewrite appendUnique_id; [|apply uniqueSorted_NoDup|].
  - unfold uniqueSorted, sort_Strings. eapply (Sorted_unique String.le).
    + apply Sorted_merge_sort, _.
    + apply Sorted_merge_sort, _.
    + by rewrite merge_sort_Permutation.
  - intros [_ ?]%uniqueSorted_elem. done.
Qed.

Lemma stringSlicesEqual_refl l : stringSlicesEqual l l = true.
Proof. induction l as [|x l IH]; cbn; [done|]. by rewrite bool_decide_true. Qed.

Lemma stringSlicesEqual_eq l1 l2 : stringSlicesEqual l1 l2 = true <-> l1 = l2.
Proof.
  split; [|intros ->; apply stringSlicesEqual_refl].
  revert l2. induction l1 as [|x l1 IH]; intros [|y l2]; cbn; try done.
  rewrite andb_true_iff, bool_decide_eq_true. intros [-> ?]. f_equal. by apply IH.
Qed.

(** ** What [gather] collects *)

Section Gather.
Implicit Types (alerts : list Alert) (g : Gathered).

Definition gathered_from g alerts : Gathered := fold_left gather alerts g.

Lemma gathered_alerts g alerts : ga_alerts (gathered_from g alerts) = ga_alerts g ++ alerts.
Proof.
  revert g. induction alerts as [|a alerts IH]; intros g; cbn; [by rewrite app_nil_r|].
  unfold gathered_from in IH. rewrite IH. cbn. by rewrite <- app_assoc.
Qed.

Lemma gathered_risk g alerts :
  ga_riskScore (gathered_from g alerts) = fold_left Z.max (List.map al_RiskScore alerts) (ga_riskScore g).
Proof.
  revert g. induction alerts as [|a alerts IH]; intros g; cbn; [done|].
  unfold gathered_from in IH. rewrite IH. cbn. f_equal. case_match; lia.
Qed.

Lemma gathered_severity g alerts :
  SeverityRank (ga_severity (gathered_from g alerts)) =
  fold_left Z.max (List.map (fun a => SeverityRank (al_Severity a)) alerts) (SeverityRank (ga_severity g)).
Proof.
  revert g. induction alerts as [|a alerts IH]; intros g; cbn; [done|].
  unfold gathered_from in IH. rewrite IH. cbn. f_equal. case_match; lia.
Qed.

Lemma gathered_ids (field : Gathered -> list string) (source : Alert -> list string) g alerts x :
  (forall g a, field (gather g a) = MemoryStore.appendUnique (field g) (source a)) ->
  x ∈ field (gathered_from g alerts) <-> x ∈ field g \/ (x <> "" /\ exists a, a ∈ alerts /\ x ∈ source a).
Proof.
  intros F. revert g. induction alerts as [|a alerts IH]; intros g; cbn.
  - split; [by left|]. intros [?|(_ & a & Ha & _)]; [done|]. by apply elem_of_nil in Ha.
  - unfold gathered_from in IH. rewrite IH, F, appendUnique_elem. set_solver.
Qed.

End Gather.

(** ** Runs of [CreateIncident] *)

Section Creation.
Context {R : Type} `{SocLaws R}.
Implicit Types (w : World R).

Lemma Now_run w : exists now w', Now w = (Ok now, w') /\ w_repo w' = w_repo w.
Proof. by eexists _, _. Qed.

Lemma gather_run t ids g w g' w' :
  foldM (fun g alertID => let! alert := on_repo (soc_GetAlert None t alertID) in ret (gather g alert)) g ids w
    = (Ok g', w') ->
  w_repo w' = w_repo w /\
  exists alerts, Forall2 (fun id a => sr_alert (w_repo w) t id = Some a) ids alerts /\ g' = gathered_from g alerts.
Proof.
  revert g w. induction ids as [|id ids IH]; intros g w; cbn [foldM].
  - intros [= <- <-]. split; [done|]. by exists [].
  - intros E. run_inv E. apply on_repo_Ok in Hr0 as [Hr0 _]. rewrite sr_GetAlert in Hr0.
    destruct (sr_alert (w_repo w) t id) as [a|] eqn:A; [|done].
    injection Hr as <- <-. injection Hr0 as <- Hs.
    apply IH in E as (E & alerts & F & ->). rewrite <- Hs in *.
    split; [done|]. exists (a :: alerts). split; [by constructor|done].
Qed.

(** One linking step: the alert is under way, every other one as before. *)
Lemma link_run t a assignee w w' :
  sr_valid (w_repo w) ->
  (let! stored_at := Now in
   do! wrapping ("link alert " +:+ al_ID a +:+ " to incident")
         (on_repo (soc_MutateAlert None stored_at t (al_ID a) 0 (link_alert assignee))) in
   ret tt) w = (Ok tt, w') ->
  (exists b, sr_alert (w_repo w') t (al_ID a) = Some b /\ under_way (al_Status b)) /\ sr_valid (w_repo w').
Proof.
  intros V E. unfold bind, Now, wrapping, on_repo, ret in E. cbn in E.
  destruct (sr_MutateAlert (rt_clock (w_rt w) (rt_ticks (w_rt w))) t (al_ID a) 0 (link_alert assignee) (w_repo w) V)
    as (V' & Eo & HA & _).
  destruct (soc_MutateAlert _ _ _ _ _ _ _) as [[b|e|] r]; [|done..]. injection E as <-. cbn in *.
  split; [|done]. rewrite HA. unfold updated. rewrite decide_True by done.
  eexists. split; [done|]. destruct (sr_alert (w_repo w) t (al_ID a)) as [c|]; [|done].
  cbn in Eo. destruct (link_alert assignee c) as [d| |] eqn:L; [|done..]. injection Eo as ->.
  apply link_alert_spec in L as (_ & N & A). by split.
Qed.

Definition link_step (t assignee : string) (a : Alert) : M (World R) unit :=
  let! stored_at := Now in
  do! wrapping ("link alert " +:+ al_ID a +:+ " to incident")
        (on_repo (soc_MutateAlert None stored_at t (al_ID a) 0 (link_alert assignee))) in
  ret tt.

Lemma evolves_link t assignee a : evolves progresses (link_step t assignee a).
Proof.
  apply evolves_bind; [apply _|apply evolves_Now|intros stored].
  apply evolves_bind; [apply _|apply evolves_wrapping, evolves_MutateAlert|intros; apply evolves_ret, _].
  intros x y E. by apply link_alert_spec in E as (M & _).
Qed.

Lemma links_run t assignee alerts w w' : sr_valid (w_repo w) ->
  forM_ alerts (link_step t assignee) w = (Ok tt, w') ->
  forall a, a ∈ alerts -> exists b, sr_alert (w_repo w') t (al_ID a) = Some b /\ under_way (al_Status b).
Proof.
  revert w. induction alerts as [|a alerts IH]; intros w V E x Hx; [by apply elem_of_nil in Hx|].
  cbn [forM_] in E. apply bind_Ok in E as ([] & w1 & E1 & E).
  destruct (link_run t a assignee w w1 V E1) as ((b & Hb & U) & V1).
  apply elem_of_cons in Hx as [->|Hx]; [|by eapply IH].
  assert (P : progresses w1 w').
  { assert (P := evolves_forM progresses alerts (link_step t assignee) (evolves_link t assignee) w1). by rewrite E in P. }
  destruct (P V1) as (_ & HA & _). destruct (HA _ _ _ Hb) as (c & Hc & Mv). exists c.
  split; [done|]. by eapply rtc_under_way.
Qed.

(** Linking and auditing leave every incident as it is. *)
Definition keeps_incidents (w w' : World R) : Prop :=
  sr_valid (w_repo w) -> sr_valid (w_repo w') /\ forall t i, sr_incident (w_repo w') t i = sr_incident (w_repo w) t i.

#[local] Instance keeps_preorder : PreOrder keeps_incidents.
Proof.
  split; [done|]. intros w1 w2 w3 K1 K2 V. destruct (K1 V) as (V2 & E1). destruct (K2 V2) as (V3 & E2).
  split; [done|]. intros. by rewrite E2, E1.
Qed.

Lemma keeps_link t assignee a : evolves keeps_incidents (link_step t assignee a).
Proof.
  apply evolves_bind; [apply _|by intros w|intros stored].
  apply evolves_bind; [apply _|apply evolves_wrapping|intros; apply evolves_ret, _].
  intros w V. unfold on_repo.
  destruct (sr_MutateAlert stored t (al_ID a) 0 (link_alert assignee) (w_repo w) V) as (V' & _ & _ & HI).
  by destruct (soc_MutateAlert _ _ _ _ _ _ _).
Qed.

Lemma keeps_append_audit e : evolves keeps_incidents (append_audit None e).
Proof.
  unfold append_audit. do 2 (apply evolves_bind; [apply _|by intros w|intros ?]). intros w V. unfold on_repo.
  match goal with |- context [soc_AppendAudit None ?r ?n e _] => destruct (sr_AppendAudit r n e (w_repo w) V) as (V' & _ & HI) end.
  by destruct (soc_AppendAudit _ _ _ _ _).
Qed.

(** The steps of a successful creation: the alerts it read, the incident it
    stored, the linking, the audit. *)
Lemma creation_trace t actor input w inc w' :
  CreateIncident None t actor input w = (Ok (inc, false), w') ->
  exists alerts title r1 r2 now created w1 w2 e,
    let ids := uniqueSorted (ci_AlertIDs input) in
    let fresh := new_incident t actor title r1 r2 now input ids (gathered_from gather_none alerts) in
    Forall2 (fun id a => sr_alert (w_repo w) t id = Some a) ids alerts /\
    soc_CreateIncident None fresh (w_repo w) = (Ok created, w_repo w1) /\ inc = created /\
    forM_ alerts (link_step t (ci_Assignee input)) w1 = (Ok tt, w2) /\
    w' = (append_audit None e w2).2.
Proof.
  intros E. unfold CreateIncident in E. destruct (_ =? 0); [done|]. cbv zeta.
  apply bind_Ok in E as (existing & w1 & E1 & E). apply on_repo_Ok in E1 as [E1 _].
  assert (R1 : w_repo w1 = w_repo w) by (pose proof (sr_ListIncidents None t
    {| if_Status := ""; if_Severity := ""; if_Query := ""; if_Limit := 500 |} (w_repo w)) as L; rewrite E1 in L; exact L).
  case_match; [done|].
  apply bind_Ok in E as (g & w2 & E2 & E). apply gather_run in E2 as (R2 & alerts & F & ->).
  rewrite R1 in *.
  apply bind_Ok in E as (now & w3 & E3 & E). injection E3 as <- <-.
  apply bind_Ok in E as (title & w4 & E4 & E).
  assert (R4 : w_repo w4 = w_repo w).
  { destruct (_ == ""); [|by injection E4 as <- <-]. case_match; [done|]. by injection E4 as <- <-. }
  clear E4. apply bind_Ok in E as (r1 & w5 & E5 & E). injection E5 as <- <-.
  apply bind_Ok in E as (r2 & w6 & E6 & E). injection E6 as <- <-. cbn in E.
  apply bind_Ok in E as (created & w7 & E7 & E). apply on_repo_Ok in E7 as [E7 _]. cbn in E7. rewrite R4 in E7.
  apply bind_Ok in E as ([] & w8 & E8 & E).
  rewrite gathered_alerts in E8. change (ga_alerts gather_none ++ alerts) with alerts in E8.
  change (forM_ alerts _ w7) with (forM_ alerts (link_step t (ci_Assignee input)) w7) in E8.
  apply bind_Ok in E as (entry & w9 & E9 & E). injection E as <- <-. apply wrapping_Ok in E9.
  match type of E9 with append_audit None ?e _ = _ => exists alerts, title end.
  eexists _, _, _, created, w7, w8, _. split_and!; [exact F|exact E7|done|exact E8|]. by rewrite E9.
Qed.

Lemma creation_run t actor input w inc w' :
  sr_valid (w_repo w) -> CreateIncident None t actor input w = (Ok (inc, false), w') ->
  exists alerts title r1 r2 now,
    let ids := uniqueSorted (ci_AlertIDs input) in
    Forall2 (fun id a => sr_alert (w_repo w) t id = Some a) ids alerts /\
    inc = new_incident t actor title r1 r2 now input ids (gathered_from gather_none alerts) /\
    sr_incident (w_repo w') t (in_ID inc) = Some inc /\
    (forall a, a ∈ alerts -> exists b, sr_alert (w_repo w') t (al_ID a) = Some b /\ under_way (al_Status b)).
Proof.
  intros V E. apply creation_trace in E as (alerts & title & r1 & r2 & now & created & w1 & w2 & e & F & C & -> & Lk & ->).
  match type of C with soc_CreateIncident None ?inc _ = _ => destruct (sr_CreateIncident inc (w_repo w) V) as (V1 & _ & _ & S) end.
  rewrite C in V1, S. cbn in V1, S. destruct (S _ eq_refl) as [-> St].
  assert (L := links_run t (ci_Assignee input) alerts w1 w2 V1 Lk).
  assert (K := evolves_forM keeps_incidents alerts _ (keeps_link t (ci_Assignee input)) w1).
  rewrite Lk in K. destruct (K V1) as (V2 & I2).
  destruct (keeps_append_audit e w2 V2) as (_ & I3). destruct (evolves_append_audit e w2 V2) as (_ & A3 & _).
  exists alerts, title, r1, r2, now. split_and!; [exact F|reflexivity| |].
  - rewrite I3. etrans; [apply I2|exact St].
  - intros a Ha. destruct (L a Ha) as (b & Hb & U). destruct (A3 _ _ _ Hb) as (c & Hc & M).
    exists c. split; [done|]. by eapply rtc_under_way.
Qed.

End Creation.

(** ** Properties *)

(** C28. The SOC service refines its lifecycles: over any repository that keeps
    the laws, whatever sequence of calls is made (successful or not), every
    alert and incident is still stored and its status was reached from the
    former one along the documented transitions; a closed alert and a closed
    incident stay closed. *)
Theorem soc_calls_follow_lifecycles {R : Type} `{SocLaws R} (calls : list soc_call) (w : World R)
    (V : sr_valid (w_repo w)) :
  let w' := fold_left (fun w c => call c w) calls w in
  (forall t i a, sr_alert (w_repo w) t i = Some a ->
     exists b, sr_alert (w_repo w') t i = Some b /\ rtc alert_move (al_Status a) (al_Status b) /\
       (al_Status a = "CLOSED" -> al_Status b = "CLOSED")) /\
  (forall t i a, sr_incident (w_repo w) t i = Some a ->
     exists b, sr_incident (w_repo w') t i = Some b /\ rtc incident_move (in_Status a) (in_Status b) /\
       (in_Status a = "CLOSED" -> in_Status b = "CLOSED")).
Proof.
  cbv zeta. assert (P : progresses w (fold_left (fun w c => call c w) calls w)).
  { clear V. revert w. induction calls as [|c calls IH]; intros w; cbn; [reflexivity|].
    etransitivity; [apply call_progresses|apply IH]. }
  destruct (P V) as (_ & HA & HI). split; intros t i a Ha.
  - destruct (HA _ _ _ Ha) as (b & Hb & M). exists b. split_and!; try done. intros E. rewrite E in M.
    by apply rtc_final in M; [|apply alert_closed_final].
  - destruct (HI _ _ _ Ha) as (b & Hb & M). exists b. split_and!; try done. intros E. rewrite E in M.
    by apply rtc_final in M; [|apply incident_closed_final].
Qed.

(** No lost update: when two analysts send [UpdateIncident] for the same
    incident with the version both have read, and the first succeeds, the
    second fails with a version conflict and changes no incident. *)
Theorem incident_updates_do_not_overwrite {R : Type} `{SocLaws R} (t i actor1 actor2 : string)
    (p1 p2 : IncidentPatch) (x : Incident) (w w1 : World R) (V : sr_valid (w_repo w))
    (Hv : 0 < ip_Version p1) (Hsame : ip_Version p2 = ip_Version p1)
    (U1 : UpdateIncident None t i actor1 p1 w = (Ok x, w1)) :
  let out := UpdateIncident None t i actor2 p2 w1 in
  out.1 = Err ErrVersionConflict /\
  (forall t' i', sr_incident (w_repo out.2) t' i' = sr_incident (w_repo w1) t' i').
Proof.
  assert (P1 : sr_valid (w_repo w1) /\ exists y, sr_incident (w_repo w1) t i = Some y /\ in_Version y <> ip_Version p1).
  { unfold UpdateIncident, append_audit, bind, Now, Random, wrapping, on_repo, ret in U1. cbn in U1.
    match type of U1 with context [soc_MutateIncident None ?n t i ?v ?f _] =>
      destruct (sr_MutateIncident n t i v f (w_repo w) V) as (V' & Eo & HI & _) end.
    destruct (soc_MutateIncident _ _ _ _ _ _ _) as [[y|e|] r]; [|done..]. cbn in *.
    match type of U1 with context [soc_AppendAudit None ?r ?n ?e _] => destruct (sr_AppendAudit r n e _ V') as (V2 & _ & HI2) end.
    destruct (soc_AppendAudit _ _ _ _ _) as [[z|e|] r']; [|done..]. injection U1 as <- <-. cbn in *.
    split; [done|]. eexists. rewrite HI2, HI. unfold updated. rewrite decide_True by done.
    split; [done|]. destruct (sr_incident (w_repo w) t i) as [c|]; [|done]. cbn in Eo.
    destruct (_ && _) eqn:G; [done|]. destruct (patch_incident _ _ _ _ _ _ c) as [d| |] eqn:F; [|done..].
    apply patch_incident_spec in F as (_ & Vd & _). injection Eo as ->. cbn. rewrite Vd.
    assert (in_Version c = ip_Version p1) as <- by lia. apply wrap64_succ_ne. }
  destruct P1 as (V1 & y & Hy & Ne). cbv zeta.
  unfold UpdateIncident, append_audit, bind, Now, Random, wrapping, on_repo, ret. cbn.
  match goal with |- context [soc_MutateIncident None ?n t i ?v ?f _] =>
    destruct (sr_MutateIncident n t i v f (w_repo w1) V1) as (_ & Eo & HI & _) end.
  destruct (soc_MutateIncident _ _ _ _ _ _ _) as [o r]. cbn in *.
  rewrite Hy in Eo. cbn in Eo. rewrite Hsame in Eo.
  destruct (Z.ltb_spec 0 (ip_Version p1)); [|lia]. destruct (Z.eqb_spec (in_Version y) (ip_Version p1)); [done|].
  cbn in Eo. subst o. cbn. split; [done|]. intros. apply HI.
Qed.

(** An incident created from alerts gathers them: it lists the requested
    alerts once each, its risk is their greatest risk and its severity has
    their greatest rank, its events and findings are exactly those of the
    alerts, it is new and stored, and every one of its alerts is under
    investigation (or closed) afterwards. *)
Theorem created_incident_gathers_alerts {R : Type} `{SocLaws R} (t actor : string) (input : CreateIncidentInput)
    (w w' : World R) (inc : Incident) (V : sr_valid (w_repo w))
    (C : CreateIncident None t actor input w = (Ok (inc, false), w')) :
  exists alerts,
    Forall2 (fun id a => sr_alert (w_repo w) t id = Some a) (uniqueSorted (ci_AlertIDs input)) alerts /\
    in_AlertIDs inc = uniqueSorted (ci_AlertIDs input) /\ in_Status inc = "NEW" /\ in_TenantID inc = t /\
    in_RiskScore inc = fold_left Z.max (List.map al_RiskScore alerts) 0 /\
    SeverityRank (in_Severity inc) = fold_left Z.max (List.map (fun a => SeverityRank (al_Severity a)) alerts) 1 /\
    (forall x, x ∈ in_EventIDs inc <-> x <> "" /\ exists a, a ∈ alerts /\ x ∈ al_EventIDs a) /\
    (forall x, x ∈ in_FindingIDs inc <-> x <> "" /\ exists a, a ∈ alerts /\ x ∈ al_FindingIDs a) /\
    sr_incident (w_repo w') t (in_ID inc) = Some inc /\
    (forall a, a ∈ alerts -> exists b, sr_alert (w_repo w') t (al_ID a) = Some b /\
       al_Status b <> "NEW" /\ al_Status b <> "ACKNOWLEDGED").
Proof.
  destruct (creation_run _ _ _ _ _ _ V C) as (alerts & title & r1 & r2 & now & F & -> & S & U).
  exists alerts. split_and!; try done.
  - apply gathered_risk.
  - apply gathered_severity.
  - intros x. etrans; [by apply (gathered_ids ga_eventIDs al_EventIDs)|]. cbn. set_solver.
  - intros x. etrans; [by apply (gathered_ids ga_findingIDs al_FindingIDs)|]. cbn. set_solver.
Qed.

(** ** Idempotence on the in-memory repository *)

Section Idempotence.
Implicit Types (m : Memory).

Definition any_incident : IncidentFilter := {| if_Status := ""; if_Severity := ""; if_Query := ""; if_Limit := 500 |}.

(** The newest incident is the first one listed. *)
Lemma newest_listed_first m t i before inc : slice_of (m_incidentOrder m) t = before ++ [i] ->
  lookup2 (m_incidents m) t i = Some inc ->
  exists rest, ListIncidents t any_incident m = inc :: rest.
Proof.
  intros O L. unfold ListIncidents, list_tenant. rewrite O, rev_app_distr, collect_spec. cbn [app rev List.map].
  rewrite filter_cons. rewrite decide_True by done. cbn [default]. rewrite L. cbn. by eexists.
Qed.

(** Linking alerts and auditing do not touch the incident tables. *)
Definition same_incidents (w w' : World Memory) : Prop :=
  m_incidents (w_repo w') = m_incidents (w_repo w) /\ m_incidentOrder (w_repo w') = m_incidentOrder (w_repo w).

#[export] Instance same_incidents_preorder : PreOrder same_incidents.
Proof. split; [done|]. intros w1 w2 w3 [E1 E2] [E3 E4]. split; congruence. Qed.

Lemma same_link t assignee a : evolves same_incidents (link_step (R := Memory) t assignee a).
Proof.
  apply evolves_bind; [apply _|by intros w|intros stored].
  apply evolves_bind; [apply _|apply evolves_wrapping|intros; apply evolves_ret, _].
  intros w. unfold on_repo. cbn. unfold repo_MutateAlert, check_ctx, bind, ret, MutateAlert.
  by repeat case_match; simplify_eq/=.
Qed.

Lemma same_append_audit e : evolves same_incidents (append_audit (R := Memory) None e).
Proof. unfold append_audit. by do 2 (apply evolves_bind; [apply _|by intros w|intros ?]). Qed.

End Idempotence.

(** Creating an incident again from the same alerts (in any order, with
    any repetition) directly after a successful creation on the in-memory
    repository returns the existing incident and changes nothing stored. *)
Theorem incident_creation_idempotent (t actor actor2 : string) (input input2 : CreateIncidentInput)
    (w w' : World Memory) (inc : Incident)
    (C : CreateIncident None t actor input w = (Ok (inc, false), w'))
    (Hne : ci_AlertIDs input2 <> [])
    (Hsame : uniqueSorted (ci_AlertIDs input2) = uniqueSorted (ci_AlertIDs input)) :
  let out := CreateIncident None t actor2 input2 w' in
  out.1 = Ok (inc, true) /\ w_repo out.2 = w_repo w'.
Proof.
  apply creation_trace in C as (alerts & title & r1 & r2 & now & created & w1 & w2 & e & F & C & -> & Lk & ->).
  assert (K := evolves_forM same_incidents alerts _ (same_link t (ci_Assignee input)) w1). rewrite Lk in K.
  destruct K as [I2 O2]. destruct (same_append_audit e w2) as [I3 O3]. cbn in I2, O2.
  rewrite I2 in I3. rewrite O2 in O3. clear I2 O2 Lk.
  revert I3 O3. generalize (append_audit None e w2).2 as w3. intros w3 I3 O3.
  cbn [soc_CreateIncident memory_soc_repository] in C. unfold repo_CreateIncident, check_ctx, bind, ret, MemoryStore.CreateIncident in C.
  revert C. set (fresh := new_incident _ _ _ _ _ _ _ _ _).
  destruct (lookup2 _ _ _) as [x|] eqn:L; intros [= <- Hw]. rewrite <- Hw in I3, O3. cbn in I3, O3.
  destruct (newest_listed_first (w_repo w3) t (in_ID fresh) (slice_of (m_incidentOrder (ensureTenantLocked t (w_repo w))) t) fresh)
    as (rest & Ls).
  { rewrite O3. apply slice_append_eq. }
  { unfold lookup2, tenant_map. rewrite I3. apply lookup2_put2_eq. }
  cbv zeta. unfold CreateIncident. destruct (ci_AlertIDs input2) as [|a0 ids0] eqn:Hids; [done|].
  replace (Z.of_nat (length (a0 :: ids0)) =? 0) with false by (symmetry; apply Z.eqb_neq; cbn; lia). rewrite Hsame.
  unfold bind, on_repo, ret. cbn [soc_ListIncidents memory_soc_repository].
  unfold repo_ListIncidents, check_ctx, bind, ret, gets. cbn [fst snd]. unfold any_incident in Ls. rewrite Ls.
  cbn [List.find]. change (in_AlertIDs fresh) with (uniqueSorted (ci_AlertIDs input)).
  rewrite uniqueSorted_idemp, stringSlicesEqual_refl. done.
Qed.

(** [CreateIncident] panics when every requested alert identifier is empty
    and no title is given: the guard for an empty request looks at the list
    before the empty identifiers are dropped, and the title is then read from
    the first of no alerts. *)
Theorem create_incident_panics_on_blank_ids (w : World Memory) (t actor summary assignee request : string) (n : nat)
    (Hfresh : Forall (fun inc => uniqueSorted (in_AlertIDs inc) <> [])
                (ListIncidents t any_incident (w_repo w))) :
  (CreateIncident None t actor {| ci_Title := " "; ci_Summary := summary; ci_Assignee := assignee;
     ci_AlertIDs := repeat "" (S n); ci_RequestID := request |} w).1 = Panic.
Proof.
  assert (U : uniqueSorted (repeat "" (S n)) = []).
  { destruct (uniqueSorted (repeat "" (S n))) as [|x l] eqn:E; [done|].
    assert (X : x ∈ uniqueSorted (repeat "" (S n))) by (rewrite E; left).
    apply uniqueSorted_elem in X as [X N]. apply list_elem_of_In, repeat_spec in X. done. }
  unfold CreateIncident. cbn [ci_AlertIDs ci_Title]. rewrite U.
  replace (Z.of_nat (length (repeat "" (S n))) =? 0) with false by (symmetry; apply Z.eqb_neq; cbn; lia).
  unfold bind at 1. unfold on_repo. cbn [soc_ListIncidents memory_soc_repository].
  unfold repo_ListIncidents, check_ctx, bind at 1, ret, gets. unfold any_incident in Hfresh.
  destruct (List.find _ _) as [x|] eqn:F; [|done].
  apply find_some in F as [Hin Heq]. apply stringSlicesEqual_eq in Heq.
  rewrite Forall_forall in Hfresh. apply list_elem_of_In in Hin. by destruct (Hfresh x Hin).
Qed.

(** * Concrete runs of the SOC service on the in-memory repository

    The witnesses of the service's properties, and one run that closes an
    incident without a reason. *)

(** ** Concrete runs *)

Definition soc_alert (id event : string) (risk : Z) (severity : Severity) : Alert :=
  zero_Alert {{ al_ID := id; al_TenantID := "acme"; al_Title := "Authentication failure threshold";
                al_RiskScore := risk; al_Severity := severity; al_Status := "NEW";
                al_EventIDs := [event]; al_EventCount := 1; al_Version := 1 }}.

(** Two alerts of one tenant. *)
Definition soc_world : World Memory := mkWorld
  (UpsertAlert (soc_alert "alt_2" "evt_2" 90 SeverityCritical) "k2" 0
    (UpsertAlert (soc_alert "alt_1" "evt_1" 70 SeverityHigh) "k1" 0 NewMemory).2).2 steady_runtime.

Lemma soc_world_valid : sr_valid (w_repo soc_world).
Proof. unfold sr_valid, soc_world. cbn [memory_soc_laws w_repo]. apply agree_UpsertAlert, agree_UpsertAlert. done. Qed.

Definition from_alerts (ids : list string) (title : string) : CreateIncidentInput :=
  {| ci_Title := title; ci_Summary := ""; ci_Assignee := "kim"; ci_AlertIDs := ids; ci_RequestID := "req-1" |}.

Definition created_world : World Memory :=
  (CreateIncident None "acme" "kim" (from_alerts ["alt_2"; "alt_1"; "alt_2"] "Intrusion") soc_world).2.

Definition incident_to (status disposition reason : string) (version : Z) : IncidentPatch :=
  {| ip_Status := status; ip_Assignee := ""; ip_Disposition := disposition; ip_ClosureReason := reason;
     ip_Comment := ""; ip_Version := version; ip_RequestID := "req-2" |}.

(** The incident created in [created_world]: the first random draw names it. *)
Definition first_incident (w : World Memory) : option Incident := sr_incident (w_repo w) "acme" "inc_".

Definition triaged_world : World Memory :=
  (UpdateIncident None "acme" "inc_" "kim" (incident_to "triage" "" "" 1) created_world).2.

Definition close_call : soc_call := CallUpdateAlert "acme" "alt_1" "kim" "req"
  {| ap_Status := "closed"; ap_Assignee := ""; ap_Disposition := "benign"; ap_Comment := ""; ap_Version := 0 |}.

Definition closed_world : World Memory := fold_left (fun w c => call c w) [close_call] soc_world.

Lemma soc_calls_follow_lifecycles_witness :
  exists b, sr_alert (w_repo closed_world) "acme" "alt_1" = Some b /\ rtc alert_move "NEW" (al_Status b).
Proof.
  assert (P : sr_alert (w_repo soc_world) "acme" "alt_1" = Some (soc_alert "alt_1" "evt_1" 70 SeverityHigh))
    by (vm_compute; reflexivity).
  pose proof (proj1 (soc_calls_follow_lifecycles [close_call] soc_world soc_world_valid) _ _ _ P) as A.
  destruct A as [b [Hb [Mv _]]]. exists b. split; [exact Hb|exact Mv].
Defined.

Definition incident_of (out : outcome Incident) : Incident :=
  match out with Ok i => i | _ => zero_Incident end.

Definition triaged_incident : Incident :=
  incident_of (UpdateIncident None "acme" "inc_" "kim" (incident_to "triage" "" "" 1) created_world).1.

Definition created_incident : Incident :=
  match (CreateIncident None "acme" "kim" (from_alerts ["alt_2"; "alt_1"; "alt_2"] "Intrusion") soc_world).1 with
  | Ok (i, _) => i | _ => zero_Incident end.

Lemma created_world_valid : sr_valid (w_repo created_world).
Proof. exact (proj1 (call_progresses (CallCreateIncident "acme" "kim" (from_alerts ["alt_2"; "alt_1"; "alt_2"] "Intrusion")) soc_world soc_world_valid)). Qed.

Lemma incident_updates_do_not_overwrite_witness :
  (UpdateIncident None "acme" "inc_" "lee" (incident_to "TRIAGE" "" "" 1) triaged_world).1 = Err ErrVersionConflict.
Proof.
  assert (U : UpdateIncident None "acme" "inc_" "kim" (incident_to "triage" "" "" 1) created_world
              = (Ok triaged_incident, triaged_world)) by (vm_compute; reflexivity).
  exact (proj1 (incident_updates_do_not_overwrite "acme" "inc_" "kim" "lee" (incident_to "triage" "" "" 1)
    (incident_to "TRIAGE" "" "" 1) triaged_incident created_world triaged_world created_world_valid eq_refl eq_refl U)).
Defined.

Lemma created_incident_gathers_alerts_witness : in_AlertIDs created_incident = ["alt_1"; "alt_2"].
Proof.
  assert (E : CreateIncident None "acme" "kim" (from_alerts ["alt_2"; "alt_1"; "alt_2"] "Intrusion") soc_world
              = (Ok (created_incident, false), created_world)) by (vm_compute; reflexivity).
  destruct (created_incident_gathers_alerts "acme" "kim" _ _ _ _ soc_world_valid E) as [alerts [_ [A _]]].
  rewrite A. vm_compute. reflexivity.
Defined.

Lemma incident_creation_idempotent_witness :
  (CreateIncident None "acme" "lee" (from_alerts ["alt_1"; "alt_2"] "") created_world).1 = Ok (created_incident, true).
Proof.
  assert (E : CreateIncident None "acme" "kim" (from_alerts ["alt_2"; "alt_1"; "alt_2"] "Intrusion") soc_world
              = (Ok (created_incident, false), created_world)) by (vm_compute; reflexivity).
  assert (Hne : ci_AlertIDs (from_alerts ["alt_1"; "alt_2"] "") <> []) by discriminate.
  assert (Hs : uniqueSorted (ci_AlertIDs (from_alerts ["alt_1"; "alt_2"] "")) =
    uniqueSorted (ci_AlertIDs (from_alerts ["alt_2"; "alt_1"; "alt_2"] "Intrusion"))) by (vm_compute; reflexivity).
  exact (proj1 (incident_creation_idempotent "acme" "kim" "lee" _ _ _ _ _ E Hne Hs)).
Defined.

(** The closure guard can be bypassed: on an incident that already has a
    disposition and a reason, closing with a patch whose disposition and
    reason are spaces passes the guard, which looks at the stored values, and
    then stores the spaces. *)
Theorem incident_closed_without_reason :
  exists inc,
    first_incident (UpdateIncident None "acme" "inc_" "kim" (incident_to "CLOSED" " " " " 0)
      (UpdateIncident None "acme" "inc_" "kim" (incident_to "" "benign" "duplicate" 0) triaged_world).2).2 = Some inc /\
    in_Status inc = "CLOSED" /\ TrimSpace (in_Disposition inc) = "" /\ in_ClosureReason inc = "".
Proof. eexists. split; [vm_compute; reflexivity|]. vm_compute. done. Qed.

Lemma create_incident_panics_on_blank_ids_witness :
  (CreateIncident None "acme" "kim" {| ci_Title := " "; ci_Summary := ""; ci_Assignee := "";
     ci_AlertIDs := [""]; ci_RequestID := "" |} soc_world).1 = Panic.
Proof.
  assert (F : Forall (fun inc => uniqueSorted (in_AlertIDs inc) <> []) (ListIncidents "acme" any_incident (w_repo soc_world)))
    by by_decide.
  exact (create_incident_panics_on_blank_ids soc_world "acme" "kim" "" "" "" 0 F).
Defined.
