(* ===== verification/DetectionModel.v ===== *)
(** * Records of detection content, correlation and enrichment

    internal/core/detection_content.go, and the results the pipeline gets from
    threat intelligence and behaviour analytics (internal/core/threat_intel.go,
    ueba.go).  A field [X] of a struct is [<prefix>_X]; a float64 is carried by
    its decimal text. *)

From S2P Require Import Prelude GoLang Core.

Definition CorrelationEventCount : string := "event_count".
Definition CorrelationValueCount : string := "value_count".
Definition CorrelationTemporal : string := "temporal".
Definition CorrelationTemporalOrdered : string := "temporal_ordered".

Record DetectionSample : Type := {
  ds_Name : string;
  ds_Event : CanonicalEvent;
  ds_Events : list CanonicalEvent
}.
#[export] Instance eta_DetectionSample : Eta DetectionSample := fun r => {|
  ds_Name := ds_Name r; ds_Event := ds_Event r; ds_Events := ds_Events r
|}.
Definition zero_DetectionSample : DetectionSample := {|
  ds_Name := ""; ds_Event := zero_CanonicalEvent; ds_Events := []
|}.

Record CorrelationSpec : Type := {
  cs_Type : string;
  cs_Rules : list string;
  cs_GroupBy : list string;
  cs_ValueField : string;
  cs_TimespanSeconds : Z;
  cs_Threshold : Z
}.
#[export] Instance eta_CorrelationSpec : Eta CorrelationSpec := fun r => {|
  cs_Type := cs_Type r; cs_Rules := cs_Rules r; cs_GroupBy := cs_GroupBy r;
  cs_ValueField := cs_ValueField r; cs_TimespanSeconds := cs_TimespanSeconds r; cs_Threshold := cs_Threshold r
|}.
Definition zero_CorrelationSpec : CorrelationSpec := {|
  cs_Type := ""; cs_Rules := []; cs_GroupBy := [];
  cs_ValueField := ""; cs_TimespanSeconds := 0; cs_Threshold := 0
|}.

Record CorrelationObservation : Type := {
  co_TenantID : string;
  co_RuleID : string;
  co_RuleVersion : string;
  co_GroupKey : string;
  co_SourceRuleIDs : list string;
  co_EventID : string;
  co_EventTime : Time;
  co_Value : string;
  co_Spec : CorrelationSpec
}.
#[export] Instance eta_CorrelationObservation : Eta CorrelationObservation := fun r => {|
  co_TenantID := co_TenantID r; co_RuleID := co_RuleID r; co_RuleVersion := co_RuleVersion r;
  co_GroupKey := co_GroupKey r; co_SourceRuleIDs := co_SourceRuleIDs r; co_EventID := co_EventID r;
  co_EventTime := co_EventTime r; co_Value := co_Value r; co_Spec := co_Spec r
|}.
Definition zero_CorrelationObservation : CorrelationObservation := {|
  co_TenantID := ""; co_RuleID := ""; co_RuleVersion := "";
  co_GroupKey := ""; co_SourceRuleIDs := []; co_EventID := "";
  co_EventTime := zero_time; co_Value := ""; co_Spec := zero_CorrelationSpec
|}.

Record CorrelationRecord : Type := {
  cr_SourceRuleID : string;
  cr_EventID : string;
  cr_EventTime : Time;
  cr_Value : string
}.
#[export] Instance eta_CorrelationRecord : Eta CorrelationRecord := fun r => {|
  cr_SourceRuleID := cr_SourceRuleID r; cr_EventID := cr_EventID r; cr_EventTime := cr_EventTime r;
  cr_Value := cr_Value r
|}.
Definition zero_CorrelationRecord : CorrelationRecord := {|
  cr_SourceRuleID := ""; cr_EventID := ""; cr_EventTime := zero_time;
  cr_Value := ""
|}.

Record CorrelationEvaluation : Type := {
  ce_Satisfied : bool;
  ce_Triggered : bool;
  ce_Count : Z;
  ce_DistinctValues : Z;
  ce_EventIDs : list string
}.
#[export] Instance eta_CorrelationEvaluation : Eta CorrelationEvaluation := fun r => {|
  ce_Satisfied := ce_Satisfied r; ce_Triggered := ce_Triggered r; ce_Count := ce_Count r;
  ce_DistinctValues := ce_DistinctValues r; ce_EventIDs := ce_EventIDs r
|}.
Definition zero_CorrelationEvaluation : CorrelationEvaluation := {|
  ce_Satisfied := false; ce_Triggered := false; ce_Count := 0;
  ce_DistinctValues := 0; ce_EventIDs := []
|}.

Record DetectionValidationReport : Type := {
  dv_Valid : bool;
  dv_CompilerVersion : string;
  dv_PositivePassed : Z;
  dv_PositiveTotal : Z;
  dv_NegativePassed : Z;
  dv_NegativeTotal : Z;
  dv_Errors : list string;
  dv_DurationMicros : Z;
  dv_ValidatedAt : Time
}.
#[export] Instance eta_DetectionValidationReport : Eta DetectionValidationReport := fun r => {|
  dv_Valid := dv_Valid r; dv_CompilerVersion := dv_CompilerVersion r; dv_PositivePassed := dv_PositivePassed r;
  dv_PositiveTotal := dv_PositiveTotal r; dv_NegativePassed := dv_NegativePassed r; dv_NegativeTotal := dv_NegativeTotal r;
  dv_Errors := dv_Errors r; dv_DurationMicros := dv_DurationMicros r; dv_ValidatedAt := dv_ValidatedAt r
|}.
Definition zero_DetectionValidationReport : DetectionValidationReport := {|
  dv_Valid := false; dv_CompilerVersion := ""; dv_PositivePassed := 0;
  dv_PositiveTotal := 0; dv_NegativePassed := 0; dv_NegativeTotal := 0;
  dv_Errors := []; dv_DurationMicros := 0; dv_ValidatedAt := zero_time
|}.

Record DetectionContent : Type := {
  dc_TenantID : string;
  dc_RuleID : string;
  dc_Version : string;
  dc_State : string;
  dc_SigmaYAML : string;
  dc_PositiveTests : list DetectionSample;
  dc_NegativeTests : list DetectionSample;
  dc_Rule : DetectionRule;
  dc_Validation : DetectionValidationReport;
  dc_PerformanceBudgetMicros : Z;
  dc_CreatedBy : string;
  dc_CreatedAt : Time;
  dc_UpdatedAt : Time;
  dc_PublishedAt : option Time
}.
#[export] Instance eta_DetectionContent : Eta DetectionContent := fun r => {|
  dc_TenantID := dc_TenantID r; dc_RuleID := dc_RuleID r; dc_Version := dc_Version r;
  dc_State := dc_State r; dc_SigmaYAML := dc_SigmaYAML r; dc_PositiveTests := dc_PositiveTests r;
  dc_NegativeTests := dc_NegativeTests r; dc_Rule := dc_Rule r; dc_Validation := dc_Validation r;
  dc_PerformanceBudgetMicros := dc_PerformanceBudgetMicros r; dc_CreatedBy := dc_CreatedBy r; dc_CreatedAt := dc_CreatedAt r;
  dc_UpdatedAt := dc_UpdatedAt r; dc_PublishedAt := dc_PublishedAt r
|}.
Definition zero_DetectionContent : DetectionContent := {|
  dc_TenantID := ""; dc_RuleID := ""; dc_Version := "";
  dc_State := ""; dc_SigmaYAML := ""; dc_PositiveTests := [];
  dc_NegativeTests := []; dc_Rule := zero_DetectionRule; dc_Validation := zero_DetectionValidationReport;
  dc_PerformanceBudgetMicros := 0; dc_CreatedBy := ""; dc_CreatedAt := zero_time;
  dc_UpdatedAt := zero_time; dc_PublishedAt := None
|}.

Record ThreatIntelMatch : Type := {
  ti_ID : string;
  ti_TenantID : string;
  ti_IndicatorID : string;
  ti_IndicatorVersion : Z;
  ti_FeedID : string;
  ti_EventID : string;
  ti_Type : string;
  ti_Value : string;
  ti_MatchedField : string;
  ti_MatchedValue : string;
  ti_Confidence : Z;
  ti_Reputation : string;
  ti_MatchedAt : Time
}.
#[export] Instance eta_ThreatIntelMatch : Eta ThreatIntelMatch := fun r => {|
  ti_ID := ti_ID r; ti_TenantID := ti_TenantID r; ti_IndicatorID := ti_IndicatorID r;
  ti_IndicatorVersion := ti_IndicatorVersion r; ti_FeedID := ti_FeedID r; ti_EventID := ti_EventID r;
  ti_Type := ti_Type r; ti_Value := ti_Value r; ti_MatchedField := ti_MatchedField r;
  ti_MatchedValue := ti_MatchedValue r; ti_Confidence := ti_Confidence r; ti_Reputation := ti_Reputation r;
  ti_MatchedAt := ti_MatchedAt r
|}.
Definition zero_ThreatIntelMatch : ThreatIntelMatch := {|
  ti_ID := ""; ti_TenantID := ""; ti_IndicatorID := "";
  ti_IndicatorVersion := 0; ti_FeedID := ""; ti_EventID := "";
  ti_Type := ""; ti_Value := ""; ti_MatchedField := "";
  ti_MatchedValue := ""; ti_Confidence := 0; ti_Reputation := "";
  ti_MatchedAt := zero_time
|}.

Record UEBAFeatureEvidence : Type := {
  uf_Code : string;
  uf_Field : string;
  uf_Value : string;
  uf_Score : Z;
  uf_BaselineFrequency : string;
  uf_Explanation : string
}.
#[export] Instance eta_UEBAFeatureEvidence : Eta UEBAFeatureEvidence := fun r => {|
  uf_Code := uf_Code r; uf_Field := uf_Field r; uf_Value := uf_Value r;
  uf_Score := uf_Score r; uf_BaselineFrequency := uf_BaselineFrequency r; uf_Explanation := uf_Explanation r
|}.
Definition zero_UEBAFeatureEvidence : UEBAFeatureEvidence := {|
  uf_Code := ""; uf_Field := ""; uf_Value := "";
  uf_Score := 0; uf_BaselineFrequency := ""; uf_Explanation := ""
|}.

Record UEBAAnomaly : Type := {
  ua_ID : string;
  ua_TenantID : string;
  ua_EventID : string;
  ua_EntityType : string;
  ua_EntityID : string;
  ua_EntityName : string;
  ua_PeerGroup : string;
  ua_Title : string;
  ua_Severity : Severity;
  ua_RiskScore : Z;
  ua_Confidence : Z;
  ua_Features : list UEBAFeatureEvidence;
  ua_Explanation : Metadata;
  ua_ModelVersion : string;
  ua_FeatureVersion : string;
  ua_TrainingWindowDays : Z;
  ua_BaselineObservations : Z;
  ua_Status : string;
  ua_Version : Z;
  ua_FeedbackBy : string;
  ua_FeedbackReason : string;
  ua_FeedbackAt : option Time;
  ua_CreatedAt : Time;
  ua_UpdatedAt : Time
}.
#[export] Instance eta_UEBAAnomaly : Eta UEBAAnomaly := fun r => {|
  ua_ID := ua_ID r; ua_TenantID := ua_TenantID r; ua_EventID := ua_EventID r;
  ua_EntityType := ua_EntityType r; ua_EntityID := ua_EntityID r; ua_EntityName := ua_EntityName r;
  ua_PeerGroup := ua_PeerGroup r; ua_Title := ua_Title r; ua_Severity := ua_Severity r;
  ua_RiskScore := ua_RiskScore r; ua_Confidence := ua_Confidence r; ua_Features := ua_Features r;
  ua_Explanation := ua_Explanation r; ua_ModelVersion := ua_ModelVersion r; ua_FeatureVersion := ua_FeatureVersion r;
  ua_TrainingWindowDays := ua_TrainingWindowDays r; ua_BaselineObservations := ua_BaselineObservations r; ua_Status := ua_Status r;
  ua_Version := ua_Version r; ua_FeedbackBy := ua_FeedbackBy r; ua_FeedbackReason := ua_FeedbackReason r;
  ua_FeedbackAt := ua_FeedbackAt r; ua_CreatedAt := ua_CreatedAt r; ua_UpdatedAt := ua_UpdatedAt r
|}.
Definition zero_UEBAAnomaly : UEBAAnomaly := {|
  ua_ID := ""; ua_TenantID := ""; ua_EventID := "";
  ua_EntityType := ""; ua_EntityID := ""; ua_EntityName := "";
  ua_PeerGroup := ""; ua_Title := ""; ua_Severity := "";
  ua_RiskScore := 0; ua_Confidence := 0; ua_Features := [];
  ua_Explanation := None; ua_ModelVersion := ""; ua_FeatureVersion := "";
  ua_TrainingWindowDays := 0; ua_BaselineObservations := 0; ua_Status := "";
  ua_Version := 0; ua_FeedbackBy := ""; ua_FeedbackReason := "";
  ua_FeedbackAt := None; ua_CreatedAt := zero_time; ua_UpdatedAt := zero_time
|}.

