(* ===== verification/SigmaRule.v ===== *)
(** * Compiled Sigma rules and their evaluation (internal/detection/compiler.go)

    The fields of an event a rule can read, the matching of values (with
    [path.Match] for wildcards), selections, conditions and
    [CompiledRule.Evaluate].  Go iterates over the map of selections in an
    unspecified order: the selections are a list in some iteration order, and
    [SigmaFacts] shows the order does not matter. *)

From S2P Require Import Prelude GoLang Core DetectionModel.

(** ** [path.Match]

    A pattern is parsed into items; a malformed one matches nothing (callers
    ignore [ErrBadPattern]).  Bytes stand for runes. *)

Inductive glob_item : Type :=
  | GStar
  | GAny
  | GChar (c : ascii)
  | GClass (negated : bool) (ranges : list (ascii * ascii)).

(** One bound of a class range: an optional backslash escapes it. *)
Definition class_char (s : string) : option (ascii * string) :=
  match s with
  | EmptyString => None
  | String c r =>
      if c == "\"%char then match r with String d r' => Some (d, r') | EmptyString => None end
      else if (c == "-"%char) || (c == "]"%char) then None
      else Some (c, r)
  end.

(** The ranges of a class up to its closing bracket; [fuel] bounds them. *)
Fixpoint class_ranges (fuel : nat) (s : string) (acc : list (ascii * ascii)) : option (list (ascii * ascii) * string) :=
  match fuel with
  | O => None
  | S n =>
      match s, acc with
      | String c r, _ :: _ => if c == "]"%char then Some (rev acc, r) else
          match class_char s with
          | Some (lo, String d r') =>
              if d == "-"%char
              then match class_char r' with Some (hi, r'') => class_ranges n r'' ((lo, hi) :: acc) | None => None end
              else class_ranges n (String d r') ((lo, lo) :: acc)
          | _ => None
          end
      | _, _ =>
          match class_char s with
          | Some (lo, String d r') =>
              if d == "-"%char
              then match class_char r' with Some (hi, r'') => class_ranges n r'' ((lo, hi) :: acc) | None => None end
              else class_ranges n (String d r') ((lo, lo) :: acc)
          | _ => None
          end
      end
  end.

Fixpoint glob_parse (fuel : nat) (s : string) : option (list glob_item) :=
  match fuel with
  | O => None
  | S n =>
      match s with
      | EmptyString => Some []
      | String c r =>
          if c == "*"%char then option_map (cons GStar) (glob_parse n r)
          else if c == "?"%char then option_map (cons GAny) (glob_parse n r)
          else if c == "\"%char then
            match r with
            | String d r' => option_map (cons (GChar d)) (glob_parse n r')
            | EmptyString => None
            end
          else if c == "["%char then
            let '(negated, r1) := match r with
                                  | String d r' => if d == "^"%char then (true, r') else (false, r)
                                  | EmptyString => (false, r)
                                  end in
            match class_ranges n r1 [] with
            | Some (ranges, r2) => option_map (cons (GClass negated ranges)) (glob_parse n r2)
            | None => None
            end
          else option_map (cons (GChar c)) (glob_parse n r)
      end
  end.

Definition in_range (c : ascii) (r : ascii * ascii) : bool :=
  (byte_code r.1 <=? byte_code c) && (byte_code c <=? byte_code r.2).

Fixpoint glob_match (items : list glob_item) (s : string) : bool :=
  match items with
  | [] => s == ""
  | GStar :: rest =>
      (fix star (s : string) : bool :=
         glob_match rest s ||
         match s with String c r => (c != "/"%char) && star r | EmptyString => false end) s
  | GAny :: rest => match s with String c r => (c != "/"%char) && glob_match rest r | EmptyString => false end
  | GChar d :: rest => match s with String c r => (c == d) && glob_match rest r | EmptyString => false end
  | GClass negated ranges :: rest =>
      match s with
      | String c r => xorb negated (existsb (in_range c) ranges) && glob_match rest r
      | EmptyString => false
      end
  end.

Definition path_Match (pattern name : string) : bool :=
  match glob_parse (S (String.length pattern)) pattern with
  | Some items => glob_match items name
  | None => false
  end.

(** ** Reading the fields of an event *)

Fixpoint ReplaceByte (s : string) (old new : ascii) : string :=
  match s with EmptyString => "" | String c r => String (if c == old then new else c) (ReplaceByte r old new) end.

(** The loop of [nestedValue] over the segments of the path. *)
Fixpoint nested_in (current : GoValue) (segments : list string) : GoValue :=
  match segments with
  | [] => current
  | segment :: rest =>
      match current with
      | VMap m => match assoc_get m segment with Some v => nested_in v rest | None => VNil end
      | _ => VNil
      end
  end.

Definition nestedValue (metadata : Metadata) (pathValue : string) : GoValue :=
  match metadata with
  | None => VNil
  | Some m =>
      if pathValue == "" then VNil else
      match Split pathValue "."%char with
      | segment :: rest => match m !! segment with Some v => nested_in v rest | None => VNil end
      | [] => VNil
      end
  end.

(** The switch of [eventFieldValues]. *)
Definition field_value (event : CanonicalEvent) (field : string) : GoValue :=
  let f := ToLower field in
  if f == "event_id" then VString (ev_ID event)
  else if f == "category" then VString (ev_Category event)
  else if (f == "activity_name") || (f == "activity") then VString (ev_ActivityName event)
  else if f == "source.vendor" then VString (src_Vendor (ev_Source event))
  else if f == "source.product" then VString (src_Product (ev_Source event))
  else if f == "source.type" then VString (src_Type (ev_Source event))
  else if f == "user.name" then VString (usr_Name (ev_User event))
  else if f == "user.is_privileged" then VBool (usr_IsPrivileged (ev_User event))
  else if f == "device.hostname" then VString (dev_Hostname (ev_Device event))
  else if f == "device.ip" then VString (dev_IP (ev_Device event))
  else if f == "device.criticality" then VInt (dev_Criticality (ev_Device event))
  else if f == "src_endpoint.ip" then VString (ep_IP (ev_SrcEndpoint event))
  else if f == "src_endpoint.port" then VInt (ep_Port (ev_SrcEndpoint event))
  else if f == "dst_endpoint.ip" then VString (ep_IP (ev_DstEndpoint event))
  else if f == "dst_endpoint.port" then VInt (ep_Port (ev_DstEndpoint event))
  else if f == "process.name" then VString (proc_Name (ev_Process event))
  else if f == "process.command_line" then VString (proc_CommandLine (ev_Process event))
  else if f == "process.parent_name" then VString (proc_ParentName (ev_Process event))
  else if f == "security_result.action" then VString (sr_Action (ev_SecurityResult event))
  else if f == "security_result.outcome" then VString (sr_Outcome (ev_SecurityResult event))
  else nestedValue (ev_Metadata event) (TrimPrefix field "metadata.").

Definition eventFieldValues (event : CanonicalEvent) (field : string) : list string :=
  match field_value event field with
  | VNil => []
  | VStrings l => l
  | VList l => List.map Sprint l
  | VString s => if s == "" then [] else [s]
  | v => [Sprint v]
  end.

(** ** Predicates and selections *)

Definition matchValue (actual expected modifier : string) : bool :=
  let actual := ToLower actual in
  let expected := ToLower expected in
  if modifier == "contains" then Contains actual expected
  else if modifier == "startswith" then HasPrefix actual expected
  else if modifier == "endswith" then HasSuffix actual expected
  else if ContainsAny expected "*?"
  then path_Match (ReplaceByte expected "\"%char "/"%char) (ReplaceByte actual "\"%char "/"%char)
  else actual == expected.

Record fieldPredicate : Type := {
  fp_field : string; fp_modifier : string; fp_all : bool; fp_values : list string
}.

(** A selection is its alternatives, each the predicates of one mapping. *)
Definition selectionAlternative : Type := list fieldPredicate.
Definition compiledSelection : Type := list selectionAlternative.

Definition predicate_evaluate (predicate : fieldPredicate) (event : CanonicalEvent) : bool :=
  let actualValues := eventFieldValues event (fp_field predicate) in
  match actualValues with
  | [] => false
  | _ =>
      let matchExpected expected := existsb (fun actual => matchValue actual expected (fp_modifier predicate)) actualValues in
      if fp_all predicate then forallb matchExpected (fp_values predicate)
      else existsb matchExpected (fp_values predicate)
  end.

(** The first alternative whose predicates all hold, with their fields. *)
Fixpoint selection_evaluate (selection : compiledSelection) (event : CanonicalEvent) : bool * list string :=
  match selection with
  | [] => (false, [])
  | alternative :: rest =>
      if forallb (fun predicate => predicate_evaluate predicate event) alternative
      then (true, List.map fp_field alternative)
      else selection_evaluate rest event
  end.

(** ** Conditions *)

Inductive binary_operator : Type := OpAnd | OpOr.

Inductive conditionNode : Type :=
  | selectionNode (name : string)
  | notNode (child : conditionNode)
  | binaryNode (operator : binary_operator) (left right : conditionNode).

Fixpoint condition_evaluate (n : conditionNode) (values : gmap string bool) : bool :=
  match n with
  | selectionNode name => default false (values !! name)
  | notNode child => negb (condition_evaluate child values)
  | binaryNode OpAnd l r => condition_evaluate l values && condition_evaluate r values
  | binaryNode OpOr l r => condition_evaluate l values || condition_evaluate r values
  end.

(** ** Compiled rules *)

Record CompiledRule : Type := {
  cr_Rule : DetectionRule;
  cr_selections : list (string * compiledSelection);
  cr_condition : conditionNode;
  cr_correlation : option CorrelationSpec
}.

(** The loop of [Evaluate] over the selections, in their iteration order. *)
Fixpoint evaluate_selections (event : CanonicalEvent) (selections : list (string * compiledSelection))
    (results : gmap string bool) (matchedFields : gset string) : gmap string bool * gset string :=
  match selections with
  | [] => (results, matchedFields)
  | (name, selection) :: rest =>
      let '(matched, fields) := selection_evaluate selection event in
      evaluate_selections event rest (<[name := matched]> results)
        (if matched then matchedFields ∪ list_to_set fields else matchedFields)
  end.

Definition Evaluate (rule : CompiledRule) (event : CanonicalEvent) : bool * list string :=
  match cr_correlation rule with
  | Some _ => (false, [])
  | None =>
      let '(results, matchedFields) := evaluate_selections event (cr_selections rule) ∅ ∅ in
      if negb (condition_evaluate (cr_condition rule) results) then (false, [])
      else (true, sort_Strings (elements matchedFields))
  end.

Definition IsCorrelation (rule : option CompiledRule) : bool :=
  match rule with Some r => match cr_correlation r with Some _ => true | None => false end | None => false end.

(** [CorrelationSpec]: the specification (copied), or [ok = false]. *)
Definition rule_correlation (rule : option CompiledRule) : option CorrelationSpec :=
  match rule with Some r => cr_correlation r | None => None end.

Example glob_process : path_Match "*/power?hell.exe" "/power1hell.exe" = true.
Proof. reflexivity. Qed.
Example glob_no_slash : path_Match "*.exe" "c:/windows/cmd.exe" = false.
Proof. reflexivity. Qed.
Example glob_class : path_Match "cmd[0-9a].exe" "cmd7.exe" = true /\ path_Match "cmd[^0-9].exe" "cmd7.exe" = false.
Proof. split; reflexivity. Qed.
