(* ===== verification/SigmaCompile.v ===== *)
(** * The Sigma compiler (internal/detection/compiler.go)

    Conditions: tokens, the recursive-descent parser (with fuel, shown to be
    enough in [SigmaFacts]) and the expansion of quantifiers.  Selections,
    correlations and [Compile].  YAML decoding is third-party code: the decoded
    document is what a parameter of [Compile] answers. *)

From S2P Require Import Prelude GoLang GoFormat Core DetectionModel SigmaRule.

Definition CompilerVersion : string := "kcsp-sigma-ast/0.2.0".

Definition ErrInvalidRule : error := New "invalid detection rule".
Definition invalid (what : string) : error := Wrap what ErrInvalidRule.

(** ** Tokens *)

(** [strings.NewReplacer("(", " ( ", ")", " ) ")] *)
Fixpoint space_parens (value : string) : string :=
  match value with
  | EmptyString => ""
  | String c r =>
      if c == "("%char then " ( " +:+ space_parens r
      else if c == ")"%char then " ) " +:+ space_parens r
      else String c (space_parens r)
  end.

Definition tokenizeCondition (value : string) : list string := Fields (space_parens value).

(** ** The parser

    The parser's state is the list of tokens from its position on.  [None]
    means that the fuel ran out. *)

Definition parsed (A : Type) : Type := option (outcome A).

Definition pbind {A B} (m : parsed A) (k : A -> parsed B) : parsed B :=
  match m with
  | Some (Ok a) => k a
  | Some (Err e) => Some (Err e)
  | Some Panic => Some Panic
  | None => None
  end.

Definition peek (value : string) (tokens : list string) : bool :=
  match tokens with token :: _ => EqualFold token value | [] => false end.

Section Parser.
(** The names of the selections a condition may mention. *)
Context (known : string -> bool).

Fixpoint parseOr (fuel : nat) (tokens : list string) : parsed (conditionNode * list string) :=
  match fuel with
  | O => None
  | S n => pbind (parseAnd n tokens) (fun '(lhs, rest) => parseOr_loop n lhs rest)
  end
with parseOr_loop (fuel : nat) (lhs : conditionNode) (tokens : list string) : parsed (conditionNode * list string) :=
  match fuel with
  | O => None
  | S n =>
      if peek "or" tokens
      then pbind (parseAnd n (tl tokens)) (fun '(rhs, rest) => parseOr_loop n (binaryNode OpOr lhs rhs) rest)
      else Some (Ok (lhs, tokens))
  end
with parseAnd (fuel : nat) (tokens : list string) : parsed (conditionNode * list string) :=
  match fuel with
  | O => None
  | S n => pbind (parseUnary n tokens) (fun '(lhs, rest) => parseAnd_loop n lhs rest)
  end
with parseAnd_loop (fuel : nat) (lhs : conditionNode) (tokens : list string) : parsed (conditionNode * list string) :=
  match fuel with
  | O => None
  | S n =>
      if peek "and" tokens
      then pbind (parseUnary n (tl tokens)) (fun '(rhs, rest) => parseAnd_loop n (binaryNode OpAnd lhs rhs) rest)
      else Some (Ok (lhs, tokens))
  end
with parseUnary (fuel : nat) (tokens : list string) : parsed (conditionNode * list string) :=
  match fuel with
  | O => None
  | S n =>
      if peek "not" tokens
      then pbind (parseUnary n (tl tokens)) (fun '(child, rest) => Some (Ok (notNode child, rest)))
      else if peek "(" tokens
      then pbind (parseOr n (tl tokens)) (fun '(node, rest) =>
             if negb (peek ")" rest) then Some (Err (invalid "missing closing parenthesis"))
             else Some (Ok (node, tl rest)))
      else match tokens with
           | [] => Some (Err (invalid "unexpected end of condition"))
           | name :: rest =>
               if negb (known name) then Some (Err (invalid "condition references unknown selection"))
               else Some (Ok (selectionNode name, rest))
           end
  end.

Definition parse_fuel (tokens : list string) : nat := 4 * length tokens + 4.

Definition parse_tokens (tokens : list string) : parsed conditionNode :=
  match tokens with
  | [] => Some (Err (invalid "empty condition"))
  | _ => pbind (parseOr (parse_fuel tokens) tokens) (fun '(node, rest) =>
           match rest with
           | [] => Some (Ok node)
           | _ => Some (Err (invalid "unexpected condition token"))
           end)
  end.

Definition parseCondition (input : string) : parsed conditionNode := parse_tokens (tokenizeCondition input).

End Parser.

(** ** Quantifiers: the matches of
    [(?i)\b(1|all)\s+of\s+(them|[a-zA-Z0-9_.*-]+)] *)

Definition is_word (c : ascii) : bool :=
  let n := byte_code c in
  is_digit c || ((65 <=? n) && (n <=? 90)) || ((97 <=? n) && (n <=? 122)) || (n =? 95).

Definition is_pattern_byte (c : ascii) : bool :=
  is_word c || (c == "."%char) || (c == "*"%char) || (c == "-"%char).

(** The class [\s] of a regular expression has no vertical tab. *)
Definition is_regexp_space (c : ascii) : bool := is_space c && negb (byte_code c =? 11).

Fixpoint take_while (P : ascii -> bool) (s : string) : string * string :=
  match s with
  | String c r => if P c then let '(w, rest) := take_while P r in (String c w, rest) else ("", s)
  | EmptyString => ("", s)
  end.

(** [word] at the start of [s], in any case: what follows it. *)
Definition after_word (word s : string) : option string :=
  if HasPrefix (ToLower s) word then Some (string_drop (String.length word) s) else None.

Definition after_spaces (s : string) : option string :=
  let '(w, rest) := take_while is_regexp_space s in if w == "" then None else Some rest.

(** After the first group: [\s+of\s+(them|...+)]; the second group and the rest. *)
Definition match_of (s : string) : option (string * string) :=
  match after_spaces s with
  | None => None
  | Some s1 =>
      match after_word "of" s1 with
      | None => None
      | Some s2 =>
          match after_spaces s2 with
          | None => None
          | Some s3 =>
              match after_word "them" s3 with
              | Some rest => Some (string_take 4 s3, rest)
              | None => let '(w, rest) := take_while is_pattern_byte s3 in
                        if w == "" then None else Some (w, rest)
              end
          end
      end
  end.

(** A match at the start of [s], when the byte before it is no word byte:
    whether the first group is [all], the second group, the rest. *)
Definition match_quantifier (word_before : bool) (s : string) : option (bool * string * string) :=
  if word_before then None else
  match match after_word "1" s with Some s1 => match_of s1 | None => None end with
  | Some (w, rest) => Some (false, w, rest)
  | None => match match after_word "all" s with Some s1 => match_of s1 | None => None end with
            | Some (w, rest) => Some (true, w, rest)
            | None => None
            end
  end.

Definition quantified_names (names : list string) (pattern : string) : list string :=
  if EqualFold pattern "them" then names
  else filter (fun name => path_Match (ToLower pattern) (ToLower name) = true) names.

(** [ReplaceAllStringFunc]: the expanded text and the last error. *)
Fixpoint replace_quantifiers (fuel : nat) (names : list string) (word_before : bool) (s : string)
    : string * option error :=
  match fuel, s with
  | O, _ | _, EmptyString => (s, None)
  | S n, String c r =>
      match match_quantifier word_before s with
      | None => let '(t, e) := replace_quantifiers n names (is_word c) r in (String c t, e)
      | Some (all, pattern, rest) =>
          let fragment := string_take (String.length s - String.length rest) s in
          let selected := quantified_names names pattern in
          let word_after := match String.get (String.length fragment - 1) fragment with
                            | Some d => is_word d | None => false end in
          let '(t, e) := replace_quantifiers n names word_after rest in
          match selected with
          | [] => (fragment +:+ t,
                   match e with Some e => Some e | None => Some (invalid "quantifier matches no selections") end)
          | _ => ("(" +:+ Join selected (if all then " and " else " or ") +:+ ")" +:+ t, e)
          end
      end
  end.

Definition expandQuantifiers (condition : string) (names : list string) : outcome string :=
  match replace_quantifiers (S (String.length condition)) (sort_Strings names) false condition with
  | (expanded, None) => Ok expanded
  | (_, Some e) => Err e
  end.

Example expand_them : expandQuantifiers "1 of them and not filter" ["sel_b"; "filter"; "sel_a"]
  = Ok "(filter or sel_a or sel_b) and not filter".
Proof. vm_compute. reflexivity. Qed.
Example expand_pattern : expandQuantifiers "ALL of sel_*" ["sel_b"; "filter"; "sel_a"] = Ok "(sel_a and sel_b)".
Proof. vm_compute. reflexivity. Qed.
(** The alternative [them] is tried first. *)
Example expand_themes : expandQuantifiers "1 of themes*" ["themes_a"] = Ok "(themes_a)es*".
Proof. vm_compute. reflexivity. Qed.

(** ** Values, alternatives and selections *)

Definition scalar (item : GoValue) : option string :=
  match item with
  | VString s => Some s
  | VBool b => Some (FormatBool b)
  | VInt _ | VFloat _ _ => Some (Sprint item)
  | _ => None
  end.

Fixpoint all_scalars (items : list GoValue) : outcome (list string) :=
  match items with
  | [] => Ok []
  | item :: rest =>
      match scalar item with
      | None => Err (New "value type is not scalar")
      | Some v => let? vs := all_scalars rest in Ok (v :: vs)
      end
  end.

Definition scalarValues (raw : GoValue) : outcome (list string) :=
  let items := match raw with VList l => l | _ => [raw] end in
  match items with
  | [] => Err (New "value list is empty")
  | _ => all_scalars items
  end.

(** The loop over the modifiers after the field. *)
Fixpoint apply_modifiers (modifiers : list string) (predicate : fieldPredicate) : outcome fieldPredicate :=
  match modifiers with
  | [] => Ok predicate
  | modifier :: rest =>
      let m := ToLower (TrimSpace modifier) in
      if (m == "contains") || (m == "startswith") || (m == "endswith")
      then apply_modifiers rest {| fp_field := fp_field predicate; fp_modifier := m;
                                   fp_all := fp_all predicate; fp_values := fp_values predicate |}
      else if m == "all"
      then apply_modifiers rest {| fp_field := fp_field predicate; fp_modifier := fp_modifier predicate;
                                   fp_all := true; fp_values := fp_values predicate |}
      else if (m == "windash") || (m == "cased")
      then Err (invalid "modifier is not supported by compiler")
      else Err (invalid "unknown modifier")
  end.

Definition compile_predicate (expression : string) (raw : GoValue) : outcome fieldPredicate :=
  let parts := Split expression "|"%char in
  let field := TrimSpace (hd "" parts) in
  if field == "" then Err (invalid "selection has an empty field") else
  let? predicate := apply_modifiers (tl parts)
    {| fp_field := field; fp_modifier := "equals"; fp_all := false; fp_values := [] |} in
  match scalarValues raw with
  | Ok values => Ok {| fp_field := fp_field predicate; fp_modifier := fp_modifier predicate;
                       fp_all := fp_all predicate; fp_values := values |}
  | Err _ => Err (invalid "selection field")
  | Panic => Panic
  end.

Fixpoint compile_predicates (mapping : list (string * GoValue)) : outcome (list fieldPredicate) :=
  match mapping with
  | [] => Ok []
  | (expression, raw) :: rest =>
      let? predicate := compile_predicate expression raw in
      let? predicates := compile_predicates rest in
      Ok (predicate :: predicates)
  end.

(** [sort.Slice] on the field only is not stable: this is the order a stable
    sort gives among predicates on one field. *)
Definition field_order (a b : fieldPredicate) : Prop := String.le (fp_field a) (fp_field b).
#[export] Instance field_order_dec a b : Decision (field_order a b).
Proof. unfold field_order. apply _. Defined.

Definition compileAlternative (mapping : list (string * GoValue)) : outcome selectionAlternative :=
  let? fields := compile_predicates mapping in
  match fields with
  | [] => Err (invalid "selection mapping is empty")
  | _ => Ok (merge_sort field_order fields)
  end.

Fixpoint compile_alternatives (items : list GoValue) : outcome (list selectionAlternative) :=
  match items with
  | [] => Ok []
  | VMap mapping :: rest =>
      let? alternative := compileAlternative mapping in
      let? alternatives := compile_alternatives rest in
      Ok (alternative :: alternatives)
  | _ :: _ => Err (invalid "selection alternatives must be mappings")
  end.

Definition compileSelection (raw : GoValue) : outcome compiledSelection :=
  let? alternatives :=
    (match raw with
     | VMap mapping => let? alternative := compileAlternative mapping in Ok [alternative]
     | VList items => compile_alternatives items
     | _ => Err (invalid "selection must be a mapping or list of mappings")
     end) in
  match alternatives with
  | [] => Err (invalid "selection is empty")
  | _ => Ok alternatives
  end.

(** ** Documents *)

Record sigmaCorrelationCondition : Type := { scc_GTE : Z; scc_Field : string }.

Record sigmaCorrelation : Type := {
  sc_Type : string; sc_Rules : GoValue; sc_GroupBy : list string; sc_Timespan : string;
  sc_Condition : sigmaCorrelationCondition
}.

(** The mappings are in their iteration order, without repeated keys. *)
Record sigmaDocument : Type := {
  sd_Title : string; sd_ID : string; sd_Description : string; sd_Status : string; sd_Author : GoValue;
  sd_Level : string; sd_Confidence : Z; sd_Tags : list string; sd_FalsePositives : list string;
  sd_LogSource : list (string * GoValue); sd_Detection : list (string * GoValue);
  sd_Correlation : option sigmaCorrelation
}.

(** ** Correlations *)

Fixpoint correlation_rules (ruleID : string) (raws : list string) (seen : gset string) : outcome (list string) :=
  match raws with
  | [] => Ok []
  | raw :: rest =>
      let value := TrimSpace raw in
      if (value == "") || (value == ruleID)
      then Err (invalid "correlation rule references must be non-empty and cannot reference itself")
      else if value ∈? seen then correlation_rules ruleID rest seen
      else let? rules := correlation_rules ruleID rest ({[value]} ∪ seen) in Ok (value :: rules)
  end.

Fixpoint correlation_groups (fields : list string) : outcome (list string) :=
  match fields with
  | [] => Ok []
  | field :: rest =>
      let field := TrimSpace field in
      if (field == "") || (128 <? string_len field)
      then Err (invalid "correlation.group-by contains an invalid field")
      else let? groups := correlation_groups rest in Ok (field :: groups)
  end.

Definition compileCorrelation (ruleID : string) (document : sigmaCorrelation) : outcome CorrelationSpec :=
  let typeName := ToLower (ReplaceByte (TrimSpace (sc_Type document)) "-"%char "_"%char) in
  let count := (typeName == CorrelationEventCount) || (typeName == CorrelationValueCount) in
  let temporal := (typeName == CorrelationTemporal) || (typeName == CorrelationTemporalOrdered) in
  if negb (count || temporal) then Err (invalid "unsupported correlation type") else
  let? rawRules := (match scalarValues (sc_Rules document) with
                    | Err _ => Err (invalid "correlation.rules") | r => r end) in
  let? rules := correlation_rules ruleID rawRules ∅ in
  let n := Z.of_nat (length rules) in
  if (n =? 0) || (32 <? n)
  then Err (invalid "correlation requires between 1 and 32 unique rule references")
  else if temporal && (n <? 2)
  then Err (invalid "temporal correlation requires at least two rule references")
  else
    let? timespan := (match ParseDuration (TrimSpace (sc_Timespan document)) with
                      | None => Err (invalid "correlation.timespan must be between 1s and 24h")
                      | Some d => if (d <? Second) || (24 * Hour <? d)
                                  then Err (invalid "correlation.timespan must be between 1s and 24h") else Ok d
                      end) in
    let? groupBy := correlation_groups (sc_GroupBy document) in
    if 8 <? Z.of_nat (length groupBy)
    then Err (invalid "correlation.group-by supports at most 8 fields")
    else
      let gte := scc_GTE (sc_Condition document) in
      let valueField := TrimSpace (scc_Field (sc_Condition document)) in
      if count && ((gte <? 2) || (1000000 <? gte))
      then Err (invalid "count correlation condition.gte must be between 2 and 1000000")
      else if (typeName == CorrelationValueCount) && (valueField == "")
      then Err (invalid "value_count correlation requires condition.field")
      else Ok {| cs_Type := typeName; cs_Rules := rules; cs_GroupBy := groupBy; cs_ValueField := valueField;
                 cs_TimespanSeconds := timespan / Second; cs_Threshold := if count then gte else n |}.

(** ** Rule metadata *)

Definition sigmaSeverity (level : string) : Severity :=
  let l := ToLower (TrimSpace level) in
  if l == "critical" then SeverityCritical
  else if l == "high" then SeverityHigh
  else if l == "medium" then SeverityMedium
  else if l == "low" then SeverityLow
  else SeverityInformational.

Fixpoint techniques_loop (tags : list string) (seen : gset string) : list string :=
  match tags with
  | [] => []
  | tag :: rest =>
      let value := ToUpper (TrimPrefix (ToLower (TrimSpace tag)) "attack.") in
      if HasPrefix value "T" && negb (value ∈? seen)
      then value :: techniques_loop rest ({[value]} ∪ seen)
      else techniques_loop rest seen
  end.

Definition sigmaTechniques (tags : list string) : list string := sort_Strings (techniques_loop tags ∅).

Definition sigmaDataSources (logSource : list (string * GoValue)) : list string :=
  let value key := TrimSpace (Sprint (default VNil (assoc_get logSource key))) in
  let parts := filter (fun v => (v != "") && (v != "<nil>") = true) (List.map value ["category"; "product"; "service"]) in
  match parts with [] => [] | _ => [Join parts "/"] end.

Definition sigmaAuthor (value : GoValue) : string :=
  match value with
  | VString s => TrimSpace s
  | VList l => Join (List.map Sprint l) ", "
  | _ => "KCSP Detection Engineering"
  end.

(** ** Compile *)

Fixpoint compile_selections (detection : list (string * GoValue)) : outcome (list (string * compiledSelection)) :=
  match detection with
  | [] => Ok []
  | (name, raw) :: rest =>
      if (name == "condition") || (name == "timeframe") then compile_selections rest
      else let? selection := compileSelection raw in
           let? selections := compile_selections rest in
           Ok ((name, selection) :: selections)
  end.

(** Running out of fuel, which does not happen ([parse_tokens_total]), is
    counted as a panic. *)
Definition run_parser (p : parsed conditionNode) : outcome conditionNode :=
  match p with Some o => o | None => Panic end.

Definition compile_document (content : DetectionContent) (document : sigmaDocument) : outcome CompiledRule :=
  let id := TrimSpace (sd_ID document) in
  let title := TrimSpace (sd_Title document) in
  let version := TrimSpace (dc_Version content) in
  if (id == "") || (title == "") then Err (invalid "Sigma id and title are required")
  else if (dc_RuleID content != "") && (dc_RuleID content != id) then Err (invalid "route rule_id differs from Sigma id")
  else if version == "" then Err (invalid "rule version is required")
  else
    let confidence := sd_Confidence document in
    let rule := {|
      dr_ID := id; dr_Title := title; dr_Description := TrimSpace (sd_Description document);
      dr_Version := version; dr_Severity := sigmaSeverity (sd_Level document);
      dr_Confidence := if (confidence <=? 0) || (100 <? confidence) then 70 else confidence;
      dr_MITRE := sigmaTechniques (sd_Tags document);
      dr_RequiredDataSources := sigmaDataSources (sd_LogSource document);
      dr_KnownFalsePositives := sd_FalsePositives document; dr_Owner := sigmaAuthor (sd_Author document);
      dr_State := dc_State content; dr_UpdatedAt := dc_UpdatedAt content |} in
    match sd_Correlation document with
    | Some correlation =>
        let? spec := compileCorrelation id correlation in
        Ok {| cr_Rule := rule; cr_selections := []; cr_condition := selectionNode ""; cr_correlation := Some spec |}
    | None =>
        let? conditionText := (match assoc_get (sd_Detection document) "condition" with
          | Some (VString text) => if TrimSpace text == "" then Err (invalid "detection.condition is required") else Ok text
          | _ => Err (invalid "detection.condition is required") end) in
        let? selections := compile_selections (sd_Detection document) in
        match selections with
        | [] => Err (invalid "at least one detection selection is required")
        | _ =>
            let names := List.map fst selections in
            let? expanded := expandQuantifiers conditionText names in
            let? condition := run_parser (parseCondition (fun name => name ∈? names) expanded) in
            Ok {| cr_Rule := rule; cr_selections := selections; cr_condition := condition; cr_correlation := None |}
        end
    end.

Section Compile.
(** [yaml.v3]: [None] when the text does not decode. *)
Context (decode : string -> option sigmaDocument).

Definition Compile (content : DetectionContent) : outcome CompiledRule :=
  match decode (dc_SigmaYAML content) with
  | None => Err (invalid "decode Sigma YAML")
  | Some document => compile_document content document
  end.

End Compile.
