(* ===== verification/SigmaFacts.v ===== *)
(** * Facts about the Sigma compiler

    The parser always has enough fuel, accepts exactly the printed forms of the
    conditions over known selections with Sigma's precedences, and evaluation
    does not depend on the iteration order of Go's maps. *)

From S2P Require Import Prelude GoLang GoFormat Core DetectionModel SigmaRule SigmaCompile.

(** ** Definitions *)

(** The tokens of a condition with as few parentheses as the precedences
    allow, at the level of [or] (0), of [and] (1) or of [not] (2); both
    operators associate to the left. *)
Definition parens (needed : bool) (tokens : list string) : list string :=
  if needed then "(" :: tokens ++ [")"] else tokens.

Fixpoint print_condition (level : nat) (n : conditionNode) : list string :=
  match n with
  | selectionNode name => [name]
  | notNode child => "not" :: print_condition 2 child
  | binaryNode OpAnd l r =>
      parens (bool_decide (2 <= level)%nat) (print_condition 1 l ++ "and" :: print_condition 2 r)
  | binaryNode OpOr l r =>
      parens (bool_decide (1 <= level)%nat) (print_condition 0 l ++ "or" :: print_condition 1 r)
  end.

Fixpoint condition_names (n : conditionNode) : list string :=
  match n with
  | selectionNode name => [name]
  | notNode child => condition_names child
  | binaryNode _ l r => condition_names l ++ condition_names r
  end.

(** A name a condition can mention: one the parser does not read as [not] or
    as an opening parenthesis. *)
Definition nameable (name : string) : Prop := EqualFold name "not" = false /\ EqualFold name "(" = false.

(** ** The parser's fuel *)

Section Parser.
Context (known : string -> bool).
Implicit Types (toks rest : list string) (n : nat).

(** An answer that leaves fewer ([strict]) or no more tokens than it was given. *)
Definition shortens (strict : bool) toks (o : parsed (conditionNode * list string)) : Prop :=
  exists out, o = Some out /\
    forall node rest, out = Ok (node, rest) ->
      (length rest + (if strict then 1 else 0) <= length toks)%nat.

Lemma shortens_bind s1 s2 toks1 toks o (k : conditionNode * list string -> parsed (conditionNode * list string)) :
  shortens s1 toks1 o ->
  (forall node rest, (length rest + (if s1 then 1 else 0) <= length toks1)%nat -> shortens s2 toks (k (node, rest))) ->
  shortens s2 toks (pbind o k).
Proof.
  intros (out & -> & Hlen) Hk. destruct out as [[node rest]|e|]; cbn.
  - by apply Hk, (Hlen node).
  - eexists. split; [done|]. intros ?? [=].
  - eexists. split; [done|]. intros ?? [=].
Qed.

Lemma shortens_Ok (s : bool) toks node rest :
  (length rest + (if s then 1 else 0) <= length toks)%nat -> shortens s toks (Some (Ok (node, rest))).
Proof. intros ?. eexists. split; [done|]. by intros ?? [= <- <-]. Qed.

Lemma shortens_Err s toks e : shortens s toks (Some (Err e)).
Proof. eexists. split; [done|]. intros ?? [=]. Qed.

Lemma peek_length value toks : peek value toks = true -> length toks = S (length (tl toks)).
Proof. by destruct toks. Qed.

(** Enough fuel for each of the five functions. *)
Lemma parser_total n :
  (forall toks, (4 * length toks + 3 <= n)%nat -> shortens true toks (parseOr known n toks)) /\
  (forall lhs toks, (4 * length toks + 1 <= n)%nat -> shortens false toks (parseOr_loop known n lhs toks)) /\
  (forall toks, (4 * length toks + 2 <= n)%nat -> shortens true toks (parseAnd known n toks)) /\
  (forall lhs toks, (4 * length toks + 1 <= n)%nat -> shortens false toks (parseAnd_loop known n lhs toks)) /\
  (forall toks, (4 * length toks + 1 <= n)%nat -> shortens true toks (parseUnary known n toks)).
Proof.
  induction n as [|n (IHO & IHOL & IHA & IHAL & IHU)]; [split_and!; intros; lia|].
  split_and!; intros *; intros Hn; cbn.
  - eapply (shortens_bind true); [apply IHA; lia|]. intros node rest Hr. cbn in Hr.
    destruct (IHOL node rest) as (out & E & L); [lia|]. exists out. split; [done|].
    intros nd rs Ho. specialize (L nd rs Ho). cbn in *. lia.
  - destruct (peek "or" toks) eqn:P; [|apply shortens_Ok; lia]. apply peek_length in P.
    eapply (shortens_bind true); [apply IHA; lia|]. intros node rest Hr. cbn in Hr.
    destruct (IHOL (binaryNode OpOr lhs node) rest) as (out & E & L); [lia|]. exists out. split; [done|].
    intros nd rs Ho. specialize (L nd rs Ho). cbn in *. lia.
  - eapply (shortens_bind true); [apply IHU; lia|]. intros node rest Hr. cbn in Hr.
    destruct (IHAL node rest) as (out & E & L); [lia|]. exists out. split; [done|].
    intros nd rs Ho. specialize (L nd rs Ho). cbn in *. lia.
  - destruct (peek "and" toks) eqn:P; [|apply shortens_Ok; lia]. apply peek_length in P.
    eapply (shortens_bind true); [apply IHU; lia|]. intros node rest Hr. cbn in Hr.
    destruct (IHAL (binaryNode OpAnd lhs node) rest) as (out & E & L); [lia|]. exists out. split; [done|].
    intros nd rs Ho. specialize (L nd rs Ho). cbn in *. lia.
  - destruct (peek "not" toks) eqn:P; [apply peek_length in P|].
    { eapply (shortens_bind true); [apply IHU; lia|]. intros node rest Hr. apply shortens_Ok. cbn in *. lia. }
    destruct (peek "(" toks) eqn:Q; [apply peek_length in Q|].
    { eapply (shortens_bind true); [apply IHO; lia|]. intros node rest Hr. cbn in Hr.
      destruct (peek ")" rest) eqn:C; cbn; [|apply shortens_Err]. apply peek_length in C. apply shortens_Ok. cbn. lia. }
    destruct toks as [|name toks]; [apply shortens_Err|].
    destruct (known name); cbn; [|apply shortens_Err]. apply shortens_Ok. cbn. lia.
Qed.

(** More fuel does not change an answer. *)
Lemma pbind_mono {A B} (m m' : parsed A) (k k' : A -> parsed B) out :
  (forall o, m = Some o -> m' = Some o) -> (forall a o, k a = Some o -> k' a = Some o) ->
  pbind m k = Some out -> pbind m' k' = Some out.
Proof. intros Hm Hk. destruct m as [[a|e|]|]; cbn; [|intros <-..|done]; rewrite (Hm _ eq_refl); cbn; auto. Qed.

Lemma parser_mono n :
  (forall toks out, parseOr known n toks = Some out -> parseOr known (S n) toks = Some out) /\
  (forall lhs toks out, parseOr_loop known n lhs toks = Some out -> parseOr_loop known (S n) lhs toks = Some out) /\
  (forall toks out, parseAnd known n toks = Some out -> parseAnd known (S n) toks = Some out) /\
  (forall lhs toks out, parseAnd_loop known n lhs toks = Some out -> parseAnd_loop known (S n) lhs toks = Some out) /\
  (forall toks out, parseUnary known n toks = Some out -> parseUnary known (S n) toks = Some out).
Proof.
  induction n as [|n (IHO & IHOL & IHA & IHAL & IHU)]; [split_and!; intros *; done|].
  split_and!; intros *.
  - apply pbind_mono; [apply IHA|intros [node rest]; apply IHOL].
  - cbn [parseOr_loop]. destruct (peek "or" toks); [|done]. apply pbind_mono; [apply IHA|intros [node rest]; apply IHOL].
  - apply pbind_mono; [apply IHU|intros [node rest]; apply IHAL].
  - cbn [parseAnd_loop]. destruct (peek "and" toks); [|done]. apply pbind_mono; [apply IHU|intros [node rest]; apply IHAL].
  - cbn [parseUnary]. destruct (peek "not" toks); [apply pbind_mono; [apply IHU|by intros [node rest]]|].
    destruct (peek "(" toks); [apply pbind_mono; [apply IHO|by intros [node rest]]|done].
Qed.

Lemma parseOr_more n m toks out : (n <= m)%nat -> parseOr known n toks = Some out -> parseOr known m toks = Some out.
Proof. induction 1 as [|m _ IH]; [done|]. intros E. by apply parser_mono, IH. Qed.

(** ** Printing and parsing *)

(** The answer of a function for all large enough fuel. *)
Definition runs {A} (f : nat -> parsed A) (x : A) : Prop := exists n, forall m, (n <= m)%nat -> f m = Some (Ok x).

Lemma runs_bind {A B} (f : nat -> parsed A) a (k : nat -> A -> parsed B) b (g : nat -> parsed B) :
  (forall m, g (S m) = pbind (f m) (k m)) -> runs f a -> runs (fun m => k m a) b -> runs g b.
Proof.
  intros G [n1 F] [n2 K]. exists (S (Nat.max n1 n2)). intros [|m] Hm; [lia|].
  rewrite G, F by lia. cbn. apply K. lia.
Qed.

Lemma runs_step {A} (f g : nat -> parsed A) a : (forall m, g (S m) = f m) -> runs f a -> runs g a.
Proof. intros G [n F]. exists (S n). intros [|m] Hm; [lia|]. rewrite G. apply F. lia. Qed.

Lemma runs_now {A} (f : nat -> parsed A) a : (forall m, f (S m) = Some (Ok a)) -> runs f a.
Proof. intros F. exists 1%nat. intros [|m] Hm; [lia|]. apply F. Qed.

Lemma parseOr_loop_stop nd rest : peek "or" rest = false -> runs (fun m => parseOr_loop known m nd rest) (nd, rest).
Proof. intros P. apply runs_now. intros m. cbn. by rewrite P. Qed.

Lemma parseAnd_loop_stop nd rest : peek "and" rest = false -> runs (fun m => parseAnd_loop known m nd rest) (nd, rest).
Proof. intros P. apply runs_now. intros m. cbn. by rewrite P. Qed.

(** Parsing a printed condition leaves the loop of its level to go on with
    the rest. *)
Definition prints_or (node : conditionNode) : Prop := forall rest x, peek "and" rest = false ->
  runs (fun m => parseOr_loop known m node rest) x ->
  runs (fun m => parseOr known m (print_condition 0 node ++ rest)) x.
Definition prints_and (node : conditionNode) : Prop := forall rest x,
  runs (fun m => parseAnd_loop known m node rest) x ->
  runs (fun m => parseAnd known m (print_condition 1 node ++ rest)) x.
Definition prints_unary (node : conditionNode) : Prop := forall rest,
  runs (fun m => parseUnary known m (print_condition 2 node ++ rest)) (node, rest).

Lemma unary_and node : print_condition 1 node = print_condition 2 node -> prints_unary node -> prints_and node.
Proof.
  intros E U rest x R. rewrite E.
  by apply (runs_bind _ (node, rest) (fun m '(lhs, rest) => parseAnd_loop known m lhs rest) _ _ (fun m => eq_refl) (U rest)).
Qed.

Lemma and_or node : print_condition 0 node = print_condition 1 node -> prints_and node -> prints_or node.
Proof.
  intros E A rest x P R. rewrite E.
  apply (runs_bind _ (node, rest) (fun m '(lhs, rest) => parseOr_loop known m lhs rest) _ _ (fun m => eq_refl)); [|exact R].
  by apply A, parseAnd_loop_stop.
Qed.

Lemma or_unary node : print_condition 2 node = parens true (print_condition 0 node) -> prints_or node -> prints_unary node.
Proof.
  intros E O rest. rewrite E. unfold parens. cbn [app]. rewrite <- app_assoc. cbn [app].
  assert (R : runs (fun m => parseOr known m (print_condition 0 node ++ ")" :: rest)) (node, ")" :: rest))
    by (apply O; [done|by apply parseOr_loop_stop]).
  destruct R as [n R]. exists (S n). intros [|m] Hm; [lia|]. cbn. rewrite R by lia. done.
Qed.

Lemma printed_parses node :
  Forall (fun name => known name = true /\ nameable name) (condition_names node) ->
  prints_or node /\ prints_and node /\ prints_unary node.
Proof.
  induction node as [name|child IH|[] l IHl r IHr]; cbn [condition_names].
  - intros [[K [N1 N2]] _]%Forall_cons. assert (U : prints_unary (selectionNode name)).
    { intros rest. apply runs_now. intros m. cbn. by rewrite N1, N2, K. }
    assert (A := unary_and (selectionNode name) eq_refl U). split_and!; [by apply and_or|done|done].
  - intros W. destruct (IH W) as (_ & _ & IHu). assert (U : prints_unary (notNode child)).
    { intros rest. destruct (IHu rest) as [n R]. exists (S n). intros [|m] Hm; [lia|]. cbn. by rewrite R by lia. }
    assert (A := unary_and (notNode child) eq_refl U). split_and!; [by apply and_or|done|done].
  - intros [Wl Wr]%Forall_app. destruct (IHl Wl) as (_ & Al & _), (IHr Wr) as (_ & _ & Ur).
    assert (A : prints_and (binaryNode OpAnd l r)).
    { intros rest x R. cbn [print_condition parens]. rewrite bool_decide_false by lia. cbn [parens].
      rewrite <- app_assoc. cbn [app]. apply Al.
      by apply (runs_bind _ (r, rest) (fun m '(rhs, rest) => parseAnd_loop known m (binaryNode OpAnd l rhs) rest) _ _ (fun m => eq_refl) (Ur rest)). }
    assert (O := and_or (binaryNode OpAnd l r) eq_refl A). split_and!; [done|done|by apply or_unary].
  - intros [Wl Wr]%Forall_app. destruct (IHl Wl) as (Ol & _ & _), (IHr Wr) as (_ & Ar & _).
    assert (O : prints_or (binaryNode OpOr l r)).
    { intros rest x P R. cbn [print_condition parens]. rewrite bool_decide_false by lia. cbn [parens].
      rewrite <- app_assoc. cbn [app]. apply Ol; [done|].
      apply (runs_bind _ (r, rest) (fun m '(rhs, rest) => parseOr_loop known m (binaryNode OpOr l rhs) rest) _ _ (fun m => eq_refl)); [|exact R].
      by apply Ar, parseAnd_loop_stop. }
    assert (U := or_unary (binaryNode OpOr l r) eq_refl O). split_and!; [done|by apply unary_and|done].
Qed.

Lemma print_nonempty level node : print_condition level node <> [].
Proof.
  destruct node as [name|child|[] l r]; cbn; try done; unfold parens; case_bool_decide; try done;
    intros E%app_eq_nil; by destruct E.
Qed.

Lemma parse_printed node :
  Forall (fun name => known name = true /\ nameable name) (condition_names node) ->
  parse_tokens known (print_condition 0 node) = Some (Ok node).
Proof.
  intros W. destruct (printed_parses node W) as (O & _ & _).
  assert (R : runs (fun m => parseOr known m (print_condition 0 node ++ [])) (node, []))
    by (apply O; [done|by apply parseOr_loop_stop]).
  rewrite app_nil_r in R. assert (N := print_nonempty 0 node). unfold parse_tokens.
  destruct (print_condition 0 node) as [|t ts] eqn:E; [done|]. rewrite <- E in *.
  set (fuel := parse_fuel _). destruct R as [n R].
  destruct (parser_total fuel) as (T & _). destruct (T (print_condition 0 node)) as (out & Ho & _); [unfold fuel, parse_fuel; lia|].
  assert (M := parseOr_more fuel (Nat.max fuel n) _ _ (Nat.le_max_l _ _) Ho).
  rewrite R in M by lia. injection M as <-. by rewrite Ho.
Qed.

(** ** What an accepted condition mentions *)

Definition well_named (node : conditionNode) : Prop :=
  Forall (fun name => known name = true /\ nameable name) (condition_names node).

Definition names_known (o : parsed (conditionNode * list string)) : Prop :=
  forall node rest, o = Some (Ok (node, rest)) -> well_named node.

Lemma names_known_bind o k : names_known o ->
  (forall node rest, well_named node -> names_known (k (node, rest))) -> names_known (pbind o k).
Proof.
  intros Ho Hk node rest. destruct o as [[[n1 r1]|e|]|]; cbn; [|done..].
  apply Hk, (Ho n1 r1 eq_refl).
Qed.

Lemma names_known_Ok node rest : well_named node -> names_known (Some (Ok (node, rest))).
Proof. by intros W ?? [= <- <-]. Qed.

Lemma peek_cons value token toks : peek value (token :: toks) = EqualFold token value.
Proof. done. Qed.

Lemma parser_names n :
  (forall toks, names_known (parseOr known n toks)) /\
  (forall lhs toks, well_named lhs -> names_known (parseOr_loop known n lhs toks)) /\
  (forall toks, names_known (parseAnd known n toks)) /\
  (forall lhs toks, well_named lhs -> names_known (parseAnd_loop known n lhs toks)) /\
  (forall toks, names_known (parseUnary known n toks)).
Proof.
  induction n as [|n (IHO & IHOL & IHA & IHAL & IHU)]; [by split_and!; intros * ??|].
  split_and!; intros *; try intros W; cbn.
  - apply names_known_bind; [apply IHA|intros; by apply IHOL].
  - destruct (peek "or" toks); [|by apply names_known_Ok].
    apply names_known_bind; [apply IHA|intros; by apply IHOL, Forall_app].
  - apply names_known_bind; [apply IHU|intros; by apply IHAL].
  - destruct (peek "and" toks); [|by apply names_known_Ok].
    apply names_known_bind; [apply IHU|intros; by apply IHAL, Forall_app].
  - destruct (peek "not" toks) eqn:N; [apply names_known_bind; [apply IHU|intros; by apply names_known_Ok]|].
    destruct (peek "(" toks) eqn:P.
    { apply names_known_bind; [apply IHO|intros]. destruct (peek ")" rest); cbn; [by apply names_known_Ok|by intros ??]. }
    destruct toks as [|name toks]; [by intros ??|]. destruct (known name) eqn:K; cbn; [|by intros ??].
    apply names_known_Ok. by constructor.
Qed.

Lemma parse_tokens_total toks : exists out, parse_tokens known toks = Some out /\
  forall node, out = Ok node -> well_named node.
Proof.
  unfold parse_tokens. destruct toks as [|t toks]; [eexists; by split|].
  destruct (parser_total (parse_fuel (t :: toks))) as (T & _).
  destruct (T (t :: toks)) as (out & E & _); [unfold parse_fuel; cbn; lia|].
  destruct (parser_names (parse_fuel (t :: toks))) as (N & _). specialize (N (t :: toks)). rewrite E in *. cbn.
  destruct out as [[node rest]|e|]; cbn; [|eexists; by split..].
  destruct rest; eexists; split; try done. intros ? [= <-]. by eapply N.
Qed.

End Parser.

(** ** Evaluation and the iteration order *)

Section Order.
Implicit Types (selections : list (string * compiledSelection)) (event : CanonicalEvent).

Definition selection_result event (entry : string * compiledSelection) : string * bool :=
  (entry.1, (selection_evaluate entry.2 event).1).
Definition selection_fields event (entry : string * compiledSelection) : list string :=
  if (selection_evaluate entry.2 event).1 then (selection_evaluate entry.2 event).2 else [].

Lemma evaluate_results event selections results fields : NoDup (List.map fst selections) ->
  (evaluate_selections event selections results fields).1 =
  list_to_map (List.map (selection_result event) selections) ∪ results.
Proof.
  revert results fields. induction selections as [|[name sel] rest IH]; intros results fields N;
    [cbn; by rewrite map_empty_union|].
  apply NoDup_cons in N as [Nin N]. cbn [evaluate_selections List.map].
  destruct (selection_evaluate sel event) as [matched fs] eqn:E.
  assert (R : selection_result event (name, sel) = (name, matched)) by (unfold selection_result; cbn; by rewrite E).
  rewrite R, (IH _ _ N). cbn [list_to_map foldr fst snd].
  rewrite <- insert_union_l, insert_union_r; [done|].
  apply not_elem_of_list_to_map_1.
  assert (F : (List.map (selection_result event) rest).*1 = List.map fst rest)
    by (clear; induction rest as [|x rest IH]; [done|]; cbn in *; by rewrite IH).
  by rewrite F.
Qed.

Lemma evaluate_fields event selections results fields :
  (evaluate_selections event selections results fields).2 =
  fields ∪ list_to_set (List.concat (List.map (selection_fields event) selections)).
Proof.
  revert results fields. induction selections as [|[name sel] rest IH]; intros results fields; cbn; [set_solver|].
  unfold selection_fields at 1. cbn. destruct (selection_evaluate sel event) as [matched fs]. rewrite IH.
  destruct matched; cbn; rewrite ?list_to_set_app_L; set_solver.
Qed.

End Order.
