(* ===== verification/SigmaProps.v ===== *)
(** * Properties of the Sigma compiler and matcher *)

From S2P Require Import Prelude GoLang GoFormat Core DetectionModel SigmaRule SigmaCompile SigmaFacts.

(** ** Lemmas *)

Section Compilation.

Lemma correlation_rules_spec id raws seen rules : correlation_rules id raws seen = Ok rules ->
  NoDup rules /\ Forall (fun r => r <> "" /\ r <> id /\ r ∉ seen) rules.
Proof.
  revert seen rules. induction raws as [|raw raws IH]; intros seen rules; cbn; [intros [= <-]; by split; constructor|].
  destruct ((TrimSpace raw == "") || (TrimSpace raw == id)) eqn:G; [done|].
  apply orb_false_iff in G as [G1 G2]. rewrite bool_decide_eq_false in G1, G2.
  case_bool_decide as S; [apply IH|].
  destruct (correlation_rules id raws _) as [rs| |] eqn:E; cbn; [|done..]. intros [= <-].
  apply IH in E as [N F]. rewrite Forall_forall in F. split.
  - constructor; [|done]. intros Hin. destruct (F _ Hin) as (_ & _ & ?). set_solver.
  - constructor; [done|]. apply Forall_forall. intros x Hx. destruct (F x Hx) as (? & ? & ?). set_solver.
Qed.

Lemma correlation_groups_spec fields groups : correlation_groups fields = Ok groups ->
  length groups = length fields /\ Forall (fun g => g <> "" /\ string_len g <= 128) groups.
Proof.
  revert groups. induction fields as [|f fields IH]; intros groups; cbn; [intros [= <-]; by split|].
  destruct (_ || _) eqn:G; [done|]. apply orb_false_iff in G as [G1 G2]. rewrite bool_decide_eq_false in G1.
  destruct (correlation_groups fields) as [gs| |]; cbn; [|done..]. intros [= <-].
  destruct (IH gs eq_refl) as [L F]. split; [cbn; by rewrite L|]. constructor; [|done]. split; [done|lia].
Qed.

(** The names of the compiled selections are the keys of the mapping but for
    the condition and the timeframe. *)
Lemma compile_selections_names detection sels : compile_selections detection = Ok sels ->
  List.map fst sels = filter (fun name => negb ((name == "condition") || (name == "timeframe")) = true) (List.map fst detection).
Proof.
  revert sels. induction detection as [|[name raw] rest IH]; intros sels; cbn [compile_selections List.map fst]; [by intros [= <-]|].
  rewrite filter_cons. destruct ((name == "condition") || (name == "timeframe")) eqn:G.
  - rewrite decide_False by done. apply IH.
  - rewrite decide_True by done.
    destruct (compileSelection raw) as [sel| |]; cbn [outcome_bind]; [|done..].
    destruct (compile_selections rest) as [rs| |]; cbn [outcome_bind]; [|done..].
    intros [= <-]. cbn. f_equal. by apply IH.
Qed.

End Compilation.

(** ** Properties *)

(** C29. Round trip of conditions: the tokens a condition is printed to, with
    only the parentheses that the precedences ([not] over [and] over [or],
    both operators to the left) require, parse back to that condition, for
    every condition over known selections that the parser can name. *)
Theorem condition_round_trip (known : string -> bool) (node : conditionNode)
    (W : Forall (fun name => known name = true /\ nameable name) (condition_names node)) :
  parse_tokens known (print_condition 0 node) = Some (Ok node).
Proof. by apply parse_printed. Qed.

Definition sample_condition : conditionNode :=
  binaryNode OpAnd (binaryNode OpOr (selectionNode "a") (selectionNode "b")) (notNode (selectionNode "c")).

Lemma condition_round_trip_witness :
  (print_condition 0 sample_condition = ["("; "a"; "or"; "b"; ")"; "and"; "not"; "c"]) /\
  parse_tokens (fun name => name ∈? ["a"; "b"; "c"]) (print_condition 0 sample_condition) = Some (Ok sample_condition).
Proof.
  split; [reflexivity|]. apply (condition_round_trip (fun name => name ∈? ["a"; "b"; "c"]) sample_condition).
  repeat constructor.
Defined.

(** The condition parser terminates on every text, never panics, and
    mentions only known selections in a condition it accepts; what it accepts
    it reads back unchanged from its printed form. *)
Theorem condition_parser_total (known : string -> bool) (text : string) :
  parseCondition known text <> None /\
  (forall node, parseCondition known text = Some (Ok node) ->
     Forall (fun name => known name = true) (condition_names node) /\
     parse_tokens known (print_condition 0 node) = Some (Ok node)).
Proof.
  unfold parseCondition. destruct (parse_tokens_total known (tokenizeCondition text)) as (out & E & W).
  rewrite E. split; [done|]. intros node [= ->]. specialize (W node eq_refl). split; [|by apply parse_printed].
  eapply Forall_impl; [exact W|]. by intros x [? _].
Qed.

Lemma condition_parser_total_witness :
  parse_tokens (fun name => name == "a") (print_condition 0 (notNode (selectionNode "a"))) = Some (Ok (notNode (selectionNode "a"))).
Proof.
  apply (condition_parser_total (fun name => name == "a") "NOT ( a )"). vm_compute. reflexivity.
Defined.

(** C30. Evaluating a rule does not depend on the order in which Go iterates
    over its selections; the fields reported are sorted, without repetition,
    and each is a field of a predicate of a matching selection. *)
Theorem evaluate_order_independent (rule : CompiledRule) (selections : list (string * compiledSelection))
    (event : CanonicalEvent) (N : NoDup (List.map fst (cr_selections rule)))
    (P : Permutation (cr_selections rule) selections) :
  Evaluate rule event = Evaluate {| cr_Rule := cr_Rule rule; cr_selections := selections;
    cr_condition := cr_condition rule; cr_correlation := cr_correlation rule |} event /\
  Sorted String.le (Evaluate rule event).2 /\ NoDup (Evaluate rule event).2 /\
  (forall field, field ∈ (Evaluate rule event).2 -> exists name sel, (name, sel) ∈ cr_selections rule /\
     (selection_evaluate sel event).1 = true /\ field ∈ (selection_evaluate sel event).2).
Proof.
  unfold Evaluate. cbn. destruct (cr_correlation rule); [split_and!; try constructor; by intros ? ?%elem_of_nil|].
  assert (N' : NoDup (List.map fst selections)) by (by rewrite <- P).
  assert (R := evaluate_results event (cr_selections rule) ∅ ∅ N).
  assert (R' := evaluate_results event selections ∅ ∅ N').
  assert (F := evaluate_fields event (cr_selections rule) ∅ ∅).
  assert (F' := evaluate_fields event selections ∅ ∅).
  destruct (evaluate_selections event (cr_selections rule) ∅ ∅) as [results fields].
  destruct (evaluate_selections event selections ∅ ∅) as [results' fields']. cbn in *.
  assert (Er : results = results').
  { rewrite R, R'. f_equal. apply list_to_map_proper; [|by rewrite P].
    replace ((List.map (selection_result event) (cr_selections rule)).*1) with (List.map fst (cr_selections rule)); [done|].
    clear. induction (cr_selections rule) as [|x l IH]; [done|]. cbn in *. by rewrite IH. }
  assert (Ef : fields = fields') by (rewrite F, F', P; done).
  rewrite <- Er, <- Ef. clear R' F' Er Ef results' fields'. split; [done|].
  destruct (condition_evaluate _ _); cbn; [|split_and!; try constructor; by intros ? ?%elem_of_nil].
  split_and!.
  - apply Sorted_merge_sort, _.
  - unfold sort_Strings. rewrite merge_sort_Permutation. apply NoDup_elements.
  - intros field. unfold sort_Strings. rewrite merge_sort_Permutation, elem_of_elements, F.
    rewrite elem_of_union, elem_of_list_to_set. intros [?|Hf]; [set_solver|].
    apply list_elem_of_In, in_concat in Hf as (l & Hl & Hf). apply in_map_iff in Hl as ([name sel] & <- & Hs).
    exists name, sel. unfold selection_fields in Hf. cbn in Hf.
    destruct (selection_evaluate sel event) as [[] fs]; cbn in *; [|done]. by rewrite !list_elem_of_In.
Qed.

Definition powershell_selections : list (string * compiledSelection) :=
  [("sel", [[{| fp_field := "process.name"; fp_modifier := "endswith"; fp_all := false; fp_values := ["powershell.exe"] |}]]);
   ("filter", [[{| fp_field := "user.name"; fp_modifier := "equals"; fp_all := false; fp_values := ["svc_*"] |}]])].

Definition powershell_rule (selections : list (string * compiledSelection)) : CompiledRule :=
  {| cr_Rule := zero_DetectionRule; cr_selections := selections;
     cr_condition := binaryNode OpAnd (selectionNode "sel") (notNode (selectionNode "filter")); cr_correlation := None |}.

Definition powershell_event : CanonicalEvent := zero_CanonicalEvent {{
  ev_User := {| usr_ID := ""; usr_Name := "Kim"; usr_IsPrivileged := false |};
  ev_Process := {| proc_Name := "C:\PowerShell.exe"; proc_PID := 1; proc_CommandLine := ""; proc_ParentName := "" |} }}.

Lemma evaluate_order_independent_witness :
  Evaluate (powershell_rule powershell_selections) powershell_event =
  Evaluate (powershell_rule (rev powershell_selections)) powershell_event /\
  Evaluate (powershell_rule powershell_selections) powershell_event = (true, ["process.name"]).
Proof.
  split; [|vm_compute; reflexivity].
  apply (evaluate_order_independent (powershell_rule powershell_selections) (rev powershell_selections) powershell_event).
  - by_decide.
  - apply Permutation_rev.
Defined.

(** A correlation that compiles is bounded as the engine needs it: one
    of the four types, between 1 and 32 distinct rule references (two at least
    for a temporal one), none of them empty or the rule itself, at most 8
    grouping fields of at most 128 bytes, a window between one second and a
    day, and a threshold that a count rule sets between 2 and 1000000 and that
    is the number of references for a temporal one. *)
Theorem compiled_correlation_bounds (ruleID : string) (document : sigmaCorrelation) (spec : CorrelationSpec)
    (C : compileCorrelation ruleID document = Ok spec) :
  cs_Type spec ∈ [CorrelationEventCount; CorrelationValueCount; CorrelationTemporal; CorrelationTemporalOrdered] /\
  NoDup (cs_Rules spec) /\ 1 <= Z.of_nat (length (cs_Rules spec)) <= 32 /\
  Forall (fun r => r <> "" /\ r <> ruleID) (cs_Rules spec) /\
  Z.of_nat (length (cs_GroupBy spec)) <= 8 /\ Forall (fun g => g <> "" /\ string_len g <= 128) (cs_GroupBy spec) /\
  1 <= cs_TimespanSeconds spec <= 86400 /\ 1 <= cs_Threshold spec <= 1000000 /\
  (cs_Type spec ∈ [CorrelationTemporal; CorrelationTemporalOrdered] ->
   2 <= cs_Threshold spec /\ cs_Threshold spec = Z.of_nat (length (cs_Rules spec))) /\
  (cs_Type spec = CorrelationValueCount -> cs_ValueField spec <> "").
Proof.
  unfold compileCorrelation in C. revert C.
  generalize (ToLower (ReplaceByte (TrimSpace (sc_Type document)) "-"%char "_"%char)) as ty. intros ty C.
  destruct (negb _) eqn:Ty; [done|]. apply negb_false_iff in Ty.
  destruct (match scalarValues (sc_Rules document) with Err _ => _ | r => r end) as [raws| |]; cbn [outcome_bind] in C; [|done..].
  destruct (correlation_rules ruleID raws ∅) as [rules| |] eqn:R; cbn [outcome_bind] in C; [|done..].
  apply correlation_rules_spec in R as [N F].
  destruct ((_ =? 0) || _) eqn:L; [done|]. destruct (_ && (_ <? 2)) eqn:L2; [done|].
  destruct (ParseDuration _) as [d|]; cbn [outcome_bind] in C; [|done].
  destruct ((d <? Second) || _) eqn:D; cbn [outcome_bind] in C; [done|].
  destruct (correlation_groups _) as [gs| |] eqn:G; cbn [outcome_bind] in C; [|done..].
  apply correlation_groups_spec in G as [_ FG].
  destruct (8 <? _) eqn:G8; [done|]. destruct (_ && (_ || _)) eqn:T; [done|]. destruct (_ && (_ == "")) eqn:VF; [done|].
  injection C as <-. cbn.
  assert (Dr : 1 <= d / Second <= 86400).
  { unfold Hour, Minute, Second in *. split; [apply Z.div_le_lower_bound; lia|].
    apply Z.lt_succ_r, Z.div_lt_upper_bound; lia. }
  split_and!; try done; try lia.
  - rewrite !orb_true_iff, !bool_decide_eq_true in Ty. set_solver.
  - eapply Forall_impl; [exact F|]. cbn. naive_solver.
  - revert T. destruct ((ty == CorrelationEventCount) || (ty == CorrelationValueCount)); cbn; intros T; lia.
  - revert T. destruct ((ty == CorrelationEventCount) || (ty == CorrelationValueCount)); cbn; intros T; lia.
  - intros Tm. assert (Te : ((ty == CorrelationTemporal) || (ty == CorrelationTemporalOrdered)) = true)
      by (rewrite orb_true_iff, !bool_decide_eq_true; set_solver).
    rewrite Te in L2. assert (Cn : ((ty == CorrelationEventCount) || (ty == CorrelationValueCount)) = false).
    { apply orb_true_iff in Te as [Te|Te]; apply bool_decide_eq_true in Te; by subst ty. }
    rewrite Cn. cbn in L2. lia.
  - intros ->. cbn in VF. by apply bool_decide_eq_false in VF.
Qed.

Definition sample_correlation : sigmaCorrelation :=
  {| sc_Type := " Event-Count"; sc_Rules := VList [VString "r1 "; VString "r2"; VString "r1"]; sc_GroupBy := ["user.name"];
     sc_Timespan := "5m"; sc_Condition := {| scc_GTE := 3; scc_Field := "" |} |}.

Lemma compiled_correlation_bounds_witness :
  compileCorrelation "corr" sample_correlation =
    Ok {| cs_Type := "event_count"; cs_Rules := ["r1"; "r2"]; cs_GroupBy := ["user.name"]; cs_ValueField := "";
          cs_TimespanSeconds := 300; cs_Threshold := 3 |} /\ 1 <= 300 <= 86400.
Proof.
  assert (E : compileCorrelation "corr" sample_correlation =
    Ok {| cs_Type := "event_count"; cs_Rules := ["r1"; "r2"]; cs_GroupBy := ["user.name"]; cs_ValueField := "";
          cs_TimespanSeconds := 300; cs_Threshold := 3 |}) by (vm_compute; reflexivity).
  split; [exact E|]. apply (compiled_correlation_bounds _ _ _ E).
Defined.

(** C31. A rule that compiles from a document whose detection has no repeated
    key is well formed: its selections have distinct names, its condition
    mentions only them, its confidence is between 1 and 100, and its
    identifier and version are not blank. *)
Theorem compiled_rule_well_formed (content : DetectionContent) (document : sigmaDocument) (rule : CompiledRule)
    (N : NoDup (List.map fst (sd_Detection document)))
    (C : compile_document content document = Ok rule) :
  NoDup (List.map fst (cr_selections rule)) /\
  (cr_correlation rule = None ->
   cr_selections rule <> [] /\
   Forall (fun name => name ∈ List.map fst (cr_selections rule)) (condition_names (cr_condition rule))) /\
  1 <= dr_Confidence (cr_Rule rule) <= 100 /\
  dr_ID (cr_Rule rule) <> "" /\ dr_Version (cr_Rule rule) <> "" /\
  (dc_RuleID content = "" \/ dr_ID (cr_Rule rule) = dc_RuleID content).
Proof.
  unfold compile_document in C.
  destruct ((_ == "") || _) eqn:I; [done|]. apply orb_false_iff in I as [I _]. rewrite bool_decide_eq_false in I.
  destruct (_ && _) eqn:R; [done|].
  assert (Rid : dc_RuleID content = "" \/ TrimSpace (sd_ID document) = dc_RuleID content).
  { apply andb_false_iff in R as [R|R]; rewrite negb_false_iff, bool_decide_eq_true in R; auto. }
  destruct (TrimSpace (dc_Version content) == "") eqn:V; [done|]. rewrite bool_decide_eq_false in V.
  assert (Cf : 1 <= (if (sd_Confidence document <=? 0) || (100 <? sd_Confidence document) then 70 else sd_Confidence document) <= 100)
    by (destruct ((sd_Confidence document <=? 0) || _) eqn:Q; lia).
  destruct (sd_Correlation document) as [corr|].
  - destruct (compileCorrelation _ _); cbn [outcome_bind] in C; [|done..]. injection C as <-. cbn.
    split_and!; try done; try lia. constructor.
  - destruct (match assoc_get (sd_Detection document) "condition" with Some _ => _ | None => _ end) as [text| |];
      cbn [outcome_bind] in C; [|done..].
    destruct (compile_selections _) as [sels| |] eqn:S; cbn [outcome_bind] in C; [|done..].
    apply compile_selections_names in S.
    assert (N' : NoDup (List.map fst sels)) by (rewrite S; by apply NoDup_filter).
    destruct sels as [|s sels]; [done|]. remember (s :: sels) as all eqn:Hall.
    destruct (expandQuantifiers _ _) as [expanded| |]; cbn [outcome_bind] in C; [|done..].
    unfold parseCondition in C.
    destruct (parse_tokens_total (fun name => name ∈? List.map fst all) (tokenizeCondition expanded)) as (out & E & W).
    rewrite E in C. cbn [run_parser] in C. destruct out as [node| |]; cbn [outcome_bind] in C; [|done..].
    injection C as <-. cbn. split_and!; try done; try lia. intros _. split; [by subst all|].
    eapply Forall_impl; [exact (W node eq_refl)|]. intros x [K _]. by apply bool_decide_eq_true in K.
Qed.

Definition sample_document : sigmaDocument :=
  {| sd_Title := "Encoded PowerShell"; sd_ID := "rule-1"; sd_Description := ""; sd_Status := ""; sd_Author := VNil;
     sd_Level := "High"; sd_Confidence := 0; sd_Tags := ["attack.t1059.001"; "attack.execution"]; sd_FalsePositives := [];
     sd_LogSource := [("product", VString "windows")];
     sd_Detection := [("filter", VMap [("user.name", VList [VString "svc_*"])]); ("condition", VString "1 of sel* and not filter");
                      ("sel_a", VMap [("process.command_line|contains|all", VList [VString "-enc"; VString "iex"])])];
     sd_Correlation := None |}.

Definition sample_content : DetectionContent := zero_DetectionContent {{ dc_RuleID := "rule-1"; dc_Version := "1.0.0" }}.

Definition sample_rule : CompiledRule :=
  match compile_document sample_content sample_document with Ok r => r | _ => powershell_rule [] end.

Lemma compiled_rule_well_formed_witness :
  cr_condition sample_rule = binaryNode OpAnd (selectionNode "sel_a") (notNode (selectionNode "filter")) /\
  1 <= dr_Confidence (cr_Rule sample_rule) <= 100.
Proof.
  assert (E : compile_document sample_content sample_document = Ok sample_rule) by (vm_compute; reflexivity).
  assert (N : NoDup (List.map fst (sd_Detection sample_document))) by by_decide.
  split; [vm_compute; reflexivity|]. apply (compiled_rule_well_formed _ _ _ N E).
Defined.
