(* ===== verification/Correlation.v ===== *)
(** * Event correlation (internal/detection/correlation.go)

    Grouping keys, the four correlation types, and the in-memory correlation
    store with its sliding window, its duplicate suppression and its one
    emission per fingerprint. *)

From S2P Require Import Prelude GoLang GoFormat Core MemoryStore DetectionModel SigmaRule.

Definition ErrInvalidCorrelationObservation : error := New "invalid correlation observation".

(** ** Grouping *)

Fixpoint group_parts (event : CanonicalEvent) (fields : list string) : option (list string) :=
  match fields with
  | [] => Some []
  | field :: rest =>
      match eventFieldValues event field with
      | [] => None
      | values =>
          let part := json_object [("field", json_string field);
                                   ("values", json_array (List.map json_string (sort_Strings values)))] in
          option_map (cons part) (group_parts event rest)
      end
  end.

(** [None] is the answer [("", false)]. *)
Definition CorrelationGroup (event : CanonicalEvent) (fields : list string) : option string :=
  match fields with
  | [] => Some "global"
  | _ => option_map json_array (group_parts event fields)
  end.

Definition CorrelationValue (event : CanonicalEvent) (field : string) : option string :=
  match eventFieldValues event field with
  | [] => None
  | values => Some (Join (sort_Strings values) (String "031" ""))
  end.

(** ** Evaluation *)

(** The order of [sort.Slice]: time, event, source rule. *)
Definition record_le (a b : CorrelationRecord) : Prop :=
  if decide (cr_EventTime a = cr_EventTime b) then
    if decide (cr_EventID a = cr_EventID b) then String.le (cr_SourceRuleID a) (cr_SourceRuleID b)
    else String.le (cr_EventID a) (cr_EventID b)
  else cr_EventTime a <= cr_EventTime b.

#[export] Instance record_le_dec a b : Decision (record_le a b).
Proof. unfold record_le. repeat case_decide; apply _. Defined.

Fixpoint uniqueEventIDs_loop (seen : gset string) (records : list CorrelationRecord) : list string :=
  match records with
  | [] => []
  | record :: rest =>
      if (cr_EventID record != "") && negb (cr_EventID record ∈? seen)
      then cr_EventID record :: uniqueEventIDs_loop ({[cr_EventID record]} ∪ seen) rest
      else uniqueEventIDs_loop seen rest
  end.

Definition uniqueEventIDs (records : list CorrelationRecord) : list string := uniqueEventIDs_loop ∅ records.

Definition maximumEvidenceIDs : nat := 1000.
Definition boundedCorrelationIDs (ids : list string) : list string := take maximumEvidenceIDs ids.

(** The values seen, without the empty one. *)
Definition distinct_values (records : list CorrelationRecord) : Z :=
  Z.of_nat (size (list_to_set (filter (fun v => v <> "") (List.map cr_Value records)) : gset string)).

(** The recursive [assign] of [matchTemporal]: a record for each rule in turn,
    over events not used yet, with backtracking. [next_assign] is the call of
    [assign] for the next position, made after the event is marked as used. *)
Fixpoint try_records (ruleID : string) (used : gset string) (next_assign : gset string -> option (list string))
    (candidates : list CorrelationRecord) : option (list string) :=
  match candidates with
  | [] => None
  | record :: more =>
      if (cr_SourceRuleID record != ruleID) || (cr_EventID record ∈? used)
      then try_records ruleID used next_assign more
      else match next_assign ({[cr_EventID record]} ∪ used) with
           | Some assigned => Some (cr_EventID record :: assigned)
           | None => try_records ruleID used next_assign more
           end
  end.

Fixpoint assign (ruleIDs : list string) (records : list CorrelationRecord) (used : gset string) : option (list string) :=
  match ruleIDs with
  | [] => Some []
  | ruleID :: rest => try_records ruleID used (assign rest records) records
  end.

(** The inner loop of the ordered case: the first usable record of the rule
    and what comes after it. *)
Fixpoint next_match (ruleID : string) (used : gset string) (records : list CorrelationRecord)
    : option (CorrelationRecord * list CorrelationRecord) :=
  match records with
  | [] => None
  | record :: rest =>
      if (cr_SourceRuleID record != ruleID) || (cr_EventID record ∈? used) then next_match ruleID used rest
      else Some (record, rest)
  end.

Fixpoint match_ordered (ruleIDs : list string) (used : gset string) (records : list CorrelationRecord) : option (list string) :=
  match ruleIDs with
  | [] => Some []
  | ruleID :: rest =>
      match next_match ruleID used records with
      | None => None
      | Some (record, remaining) =>
          option_map (cons (cr_EventID record)) (match_ordered rest ({[cr_EventID record]} ∪ used) remaining)
      end
  end.

Definition matchTemporal (ruleIDs : list string) (records : list CorrelationRecord) (ordered : bool) : option (list string) :=
  if ordered then match_ordered ruleIDs ∅ records else assign ruleIDs records ∅.

Definition temporal_evaluation (matched : option (list string)) : CorrelationEvaluation :=
  let ids := default [] matched in
  {| ce_Satisfied := match matched with Some _ => true | None => false end; ce_Triggered := false;
     ce_Count := Z.of_nat (length ids); ce_DistinctValues := 0; ce_EventIDs := ids |}.

Definition EvaluateCorrelation (spec : CorrelationSpec) (records : list CorrelationRecord) : CorrelationEvaluation :=
  let filtered := merge_sort record_le (filter (fun r => cr_SourceRuleID r ∈ cs_Rules spec) records) in
  let ids := uniqueEventIDs filtered in
  let values := distinct_values filtered in
  let counted satisfied :=
    {| ce_Satisfied := satisfied; ce_Triggered := false; ce_Count := Z.of_nat (length ids);
       ce_DistinctValues := values; ce_EventIDs := boundedCorrelationIDs ids |} in
  if cs_Type spec == CorrelationEventCount then counted (cs_Threshold spec <=? Z.of_nat (length ids))
  else if cs_Type spec == CorrelationValueCount then counted (cs_Threshold spec <=? values)
  else if cs_Type spec == CorrelationTemporal then temporal_evaluation (matchTemporal (cs_Rules spec) filtered false)
  else if cs_Type spec == CorrelationTemporalOrdered then temporal_evaluation (matchTemporal (cs_Rules spec) filtered true)
  else zero_CorrelationEvaluation.

Definition CorrelationFingerprint (observation : CorrelationObservation) (evaluation : CorrelationEvaluation) : string :=
  let ids := sort_Strings (ce_EventIDs evaluation) in
  sha256_hex (json_object [
    ("tenant", json_string (co_TenantID observation)); ("rule", json_string (co_RuleID observation));
    ("version", json_string (co_RuleVersion observation)); ("group", json_string (co_GroupKey observation));
    ("trigger", json_string (co_EventID observation));
    ("events", match ids with [] => "null" | _ => json_array (List.map json_string ids) end)]).

(** ** The store *)

Record MemoryCorrelationStore : Type := {
  mc_records : gmap string (list CorrelationRecord);
  mc_emissions : gset string;
  mc_observation : gset string
}.
#[export] Instance eta_MemoryCorrelationStore : Eta MemoryCorrelationStore := fun r => {|
  mc_records := mc_records r; mc_emissions := mc_emissions r; mc_observation := mc_observation r |}.

Definition NewMemoryCorrelationStore : MemoryCorrelationStore :=
  {| mc_records := ∅; mc_emissions := ∅; mc_observation := ∅ |}.

Definition record_separator : string := String "030" "".

Definition validateCorrelationObservation (input : CorrelationObservation) : outcome unit :=
  if (TrimSpace (co_TenantID input) == "") || (TrimSpace (co_RuleID input) == "")
     || (TrimSpace (co_RuleVersion input) == "") || (TrimSpace (co_GroupKey input) == "")
     || (TrimSpace (co_EventID input) == "") || IsZero (co_EventTime input)
     || (Z.of_nat (length (co_SourceRuleIDs input)) =? 0)
  then Err (Wrap "tenant, rule, version, group, event, time and source rules are required" ErrInvalidCorrelationObservation)
  else if (cs_TimespanSeconds (co_Spec input) <=? 0) || (24 * Hour / Second <? cs_TimespanSeconds (co_Spec input))
  then Err (Wrap "timespan is outside supported bounds" ErrInvalidCorrelationObservation)
  else Ok tt.

Fixpoint uniqueStrings_loop (seen : gset string) (values : list string) : list string :=
  match values with
  | [] => []
  | value :: rest =>
      let value := TrimSpace value in
      if (value != "") && negb (value ∈? seen)
      then value :: uniqueStrings_loop ({[value]} ∪ seen) rest
      else uniqueStrings_loop seen rest
  end.

Definition uniqueStrings (values : list string) : list string := sort_Strings (uniqueStrings_loop ∅ values).

Definition correlation_key (input : CorrelationObservation) : string :=
  co_TenantID input +:+ record_separator +:+ co_RuleID input +:+ record_separator +:+
  co_RuleVersion input +:+ record_separator +:+ co_GroupKey input.

(** The loop over the source rules: the observations not made before. *)
Fixpoint new_records (key : string) (input : CorrelationObservation) (rules : list string) (seen : gset string)
    : list CorrelationRecord * gset string :=
  match rules with
  | [] => ([], seen)
  | sourceRuleID :: rest =>
      let observationKey := key +:+ record_separator +:+ sourceRuleID +:+ record_separator +:+ co_EventID input in
      if observationKey ∈? seen then new_records key input rest seen
      else
        let '(records, seen) := new_records key input rest ({[observationKey]} ∪ seen) in
        ({| cr_SourceRuleID := sourceRuleID; cr_EventID := co_EventID input;
            cr_EventTime := co_EventTime input; cr_Value := co_Value input |} :: records, seen)
  end.

(** The evaluation after the new records, triggered when they cross the
    threshold for the first time, and the emissions. *)
Definition crossing (input : CorrelationObservation) (windowRecords newRecords : list CorrelationRecord)
    (emissions : gset string) : CorrelationEvaluation * gset string :=
  let before := EvaluateCorrelation (co_Spec input) windowRecords in
  let after := EvaluateCorrelation (co_Spec input) (windowRecords ++ newRecords) in
  if ce_Satisfied before || negb (ce_Satisfied after) then (after, emissions)
  else
    let fingerprint := CorrelationFingerprint input after in
    if fingerprint ∈? emissions then (after, emissions)
    else (after {{ ce_Triggered := true }}, {[fingerprint]} ∪ emissions).

Definition observation_window (input : CorrelationObservation) : Duration := cs_TimespanSeconds (co_Spec input) * Second.

Definition in_window (input : CorrelationObservation) (record : CorrelationRecord) : Prop :=
  Before (cr_EventTime record) (time_Add (co_EventTime input) (- observation_window input)) = false /\
  After (cr_EventTime record) (co_EventTime input) = false.

Definition is_retained (input : CorrelationObservation) (record : CorrelationRecord) : Prop :=
  Before (cr_EventTime record) (time_Add (co_EventTime input) (-2 * observation_window input)) = false.

#[export] Instance in_window_dec input record : Decision (in_window input record).
Proof. unfold in_window. apply _. Defined.
#[export] Instance is_retained_dec input record : Decision (is_retained input record).
Proof. unfold is_retained. apply _. Defined.

(** The part under the lock.  The loop that filters [records[key]] in place
    reads each element before it can be overwritten. *)
Definition observe (input : CorrelationObservation) (m : MemoryCorrelationStore)
    : CorrelationEvaluation * MemoryCorrelationStore :=
  let key := correlation_key input in
  let '(newRecords, seen) := new_records key input (uniqueStrings (co_SourceRuleIDs input)) (mc_observation m) in
  match newRecords with
  | [] => (zero_CorrelationEvaluation, m {{ mc_observation := seen }})
  | _ =>
      let records := slice_of (mc_records m) key in
      let retained := filter (is_retained input) records in
      let windowRecords := filter (in_window input) records in
      let '(after, emissions) := crossing input windowRecords newRecords (mc_emissions m) in
      (after, {| mc_records := <[key := retained ++ newRecords]> (mc_records m);
                 mc_emissions := emissions; mc_observation := seen |})
  end.

Definition ObserveCorrelation (ctx : Context) (input : CorrelationObservation)
    : M MemoryCorrelationStore CorrelationEvaluation :=
  do! check_ctx ctx in
  do! lift (validateCorrelationObservation input) in
  state (observe input).

Definition ResetTenant (tenantID : string) (m : MemoryCorrelationStore) : MemoryCorrelationStore :=
  let prefix := tenantID +:+ record_separator in
  {| mc_records := filter (fun kv => HasPrefix kv.1 prefix = false) (mc_records m);
     mc_emissions := ∅;
     mc_observation := filter (fun key => HasPrefix key prefix = false) (mc_observation m) |}.
