(* ===== verification/CorrelationFacts.v ===== *)
(** * Lemmas on correlation: matching, evaluation order, the sliding window *)

From S2P Require Import Prelude GoLang GoFormat Core MemoryStore MemoryFacts DetectionModel SigmaRule Correlation.

(** ** The order of the records *)

Section Order.

Lemma string_le_total (a b : string) : String.le a b \/ String.le b a.
Proof. apply total. apply _. Qed.

Lemma string_le_antisym (a b : string) : String.le a b -> String.le b a -> a = b.
Proof. apply anti_symm. apply _. Qed.

#[export] Instance record_le_total : Total record_le.
Proof.
  intros a b. unfold record_le. repeat case_decide; try congruence; try lia; apply string_le_total.
Qed.

#[export] Instance record_le_trans : Transitive record_le.
Proof.
  intros a b c. unfold record_le. repeat case_decide; try lia; try congruence; intros L1 L2.
  all: repeat match goal with H : cr_EventID _ = cr_EventID _ |- _ => rewrite H in * end.
  all: solve [by etransitivity | done | by exfalso; eauto using string_le_antisym, eq_sym].
Qed.

(** One record strictly before another, of another event: by time, then by
    event identifier. *)
Definition occurs_before (a b : CorrelationRecord) : Prop :=
  cr_EventTime a < cr_EventTime b \/
  cr_EventTime a = cr_EventTime b /\ String.le (cr_EventID a) (cr_EventID b) /\ cr_EventID a <> cr_EventID b.

Lemma occurs_before_le a b : occurs_before a b -> record_le a b.
Proof. unfold occurs_before, record_le. repeat case_decide; naive_solver lia. Qed.

Lemma occurs_before_not_ge a b : occurs_before a b -> ~ record_le b a.
Proof.
  unfold occurs_before, record_le. intros [H|(E & H & N)]; repeat case_decide; try lia; try congruence.
  intros H'. by apply N, string_le_antisym.
Qed.

Lemma record_le_occurs_before a b :
  record_le a b -> cr_EventID a <> cr_EventID b -> occurs_before a b.
Proof. unfold occurs_before, record_le. repeat case_decide; intros; try lia; try congruence; auto. Qed.

Lemma Forall_sublist {A} (P : A -> Prop) l1 l2 : sublist l1 l2 -> Forall P l2 -> Forall P l1.
Proof. induction 1; inversion 1; subst; auto. Qed.

Lemma StronglySorted_sublist {A} (R : A -> A -> Prop) l1 l2 :
  sublist l1 l2 -> StronglySorted R l2 -> StronglySorted R l1.
Proof.
  induction 1; inversion 1; subst; auto. constructor; [auto|by eapply Forall_sublist].
Qed.

(** Members of a sorted list that come strictly one after the other are a
    sublist of it. *)
Lemma increasing_sublist (l picks : list CorrelationRecord) :
  StronglySorted record_le l -> StronglySorted occurs_before picks -> Forall (fun p => p ∈ l) picks ->
  sublist picks l.
Proof.
  intros S. revert picks. induction S as [|x l S IH B]; intros picks P F.
  - destruct picks as [|p ps]; [constructor|]. inversion F as [|?? E]. by apply elem_of_nil in E.
  - destruct P as [|p ps P Bp]; [apply sublist_nil_l|].
    inversion F as [|? ? Hp Fp]; subst. rewrite Forall_forall in B, Bp, Fp.
    assert (InL : forall q, q ∈ ps -> record_le x p -> q ∈ l).
    { intros q Q Le. specialize (Fp q Q). apply elem_of_cons in Fp as [->|]; [|done].
      exfalso. by apply (occurs_before_not_ge p x); [apply Bp|]. }
    apply elem_of_cons in Hp as [->|Hp].
    + apply sublist_skip, IH; [done|]. apply Forall_forall. intros q Q. apply InL; [done|].
      by destruct (record_le_total x x).
    + apply sublist_cons, IH; [by constructor; [|apply Forall_forall]|].
      constructor; [done|]. apply Forall_forall. intros q Q. by apply InL; [|apply B].
Qed.

End Order.

(** ** Matching *)

Section Matching.

(** A choice of one record for each rule, over different events. *)
Definition matches (rules : list string) (picks : list CorrelationRecord) : Prop :=
  Forall2 (fun rule record => cr_SourceRuleID record = rule) rules picks /\
  NoDup (List.map cr_EventID picks).

Lemma skip_true record ruleID (used : gset string) :
  ((cr_SourceRuleID record != ruleID) || (cr_EventID record ∈? used)) = false <->
  cr_SourceRuleID record = ruleID /\ cr_EventID record ∉ used.
Proof. rewrite orb_false_iff, negb_false_iff, bool_decide_eq_true, bool_decide_eq_false. done. Qed.

Lemma try_records_Some ruleID used next candidates ids :
  try_records ruleID used next candidates = Some ids ->
  exists record assigned, record ∈ candidates /\ cr_SourceRuleID record = ruleID /\ (cr_EventID record ∉ used) /\
    next ({[cr_EventID record]} ∪ used) = Some assigned /\ ids = cr_EventID record :: assigned.
Proof.
  induction candidates as [|record more IH]; [done|]. cbn [try_records].
  destruct ((cr_SourceRuleID record != ruleID) || _) eqn:E.
  { intros H. destruct (IH H) as (r & ids' & R & H'). exists r, ids'. by split; [right|]. }
  apply skip_true in E as [E1 E2]. destruct (next _) as [assigned|] eqn:A.
  - intros [= <-]. exists record, assigned. by split; [left|].
  - intros H. destruct (IH H) as (r & ids' & R & H'). exists r, ids'. by split; [right|].
Qed.

Lemma try_records_is_Some ruleID used next candidates record :
  record ∈ candidates -> cr_SourceRuleID record = ruleID -> cr_EventID record ∉ used ->
  is_Some (next ({[cr_EventID record]} ∪ used)) ->
  is_Some (try_records ruleID used next candidates).
Proof.
  intros R E U A. induction R as [record more|record other more R IH]; cbn [try_records].
  - rewrite (proj2 (skip_true _ _ _)) by done. destruct A as [ids ->]. by eexists.
  - destruct ((cr_SourceRuleID other != _) || _); [by apply IH|]. case_match; [by eexists|by apply IH].
Qed.

Lemma assign_sound rules records used ids :
  assign rules records used = Some ids ->
  exists picks, ids = List.map cr_EventID picks /\ matches rules picks /\
    Forall (fun p => p ∈ records /\ cr_EventID p ∉ used) picks.
Proof.
  revert used ids. induction rules as [|rule rules IH]; intros used ids; cbn [assign].
  { intros [= <-]. exists []. repeat split; constructor. }
  intros H. apply try_records_Some in H as (record & assigned & R & E & U & A & ->).
  apply IH in A as (picks & -> & [M N] & F). exists (record :: picks). repeat split.
  - by constructor.
  - cbn. constructor; [|done]. intros X. apply list_elem_of_fmap in X as (p & Ep & P).
    rewrite Forall_forall in F. destruct (F p P) as [_ F']. apply F'. set_solver.
  - constructor; [done|]. eapply Forall_impl; [exact F|]. set_solver.
Qed.

Lemma assign_complete rules records used picks :
  matches rules picks -> Forall (fun p => p ∈ records /\ cr_EventID p ∉ used) picks ->
  is_Some (assign rules records used).
Proof.
  intros [M N]. revert used N. induction M as [|rule p rules picks E M IH]; intros used N F; [by eexists|].
  inversion F as [|? ? [P Pu] F']; subst. apply NoDup_cons in N as [Np N].
  apply (try_records_is_Some _ _ _ _ p); [done..|]. apply IH; [done|].
  rewrite Forall_forall in F' |- *. intros q Q. specialize (F' q Q). split; [tauto|].
  intros X. apply elem_of_union in X as [X|X]; [|tauto].
  apply elem_of_singleton in X. apply Np. rewrite <- X. by apply list_elem_of_fmap_2.
Qed.

Lemma next_match_Some ruleID used records record rest :
  next_match ruleID used records = Some (record, rest) ->
  cr_SourceRuleID record = ruleID /\ (cr_EventID record ∉ used) /\ exists skipped, records = skipped ++ record :: rest.
Proof.
  induction records as [|r records IH]; [done|]. cbn [next_match].
  destruct ((cr_SourceRuleID r != ruleID) || _) eqn:E.
  - intros H. destruct (IH H) as (? & ? & skipped & ->). by split_and!; [..|exists (r :: skipped)].
  - apply skip_true in E as [? ?]. intros [= <- <-]. by split_and!; [..|exists []].
Qed.

Lemma match_ordered_sound rules used records ids :
  match_ordered rules used records = Some ids ->
  exists picks, ids = List.map cr_EventID picks /\ matches rules picks /\ sublist picks records /\
    Forall (fun p => cr_EventID p ∉ used) picks.
Proof.
  revert used records ids. induction rules as [|rule rules IH]; intros used records ids; cbn [match_ordered].
  { intros [= <-]. exists []. repeat split; try constructor. apply sublist_nil_l. }
  destruct (next_match rule used records) as [[record remaining]|] eqn:E; [|done].
  apply next_match_Some in E as (E & U & skipped & ->). intros H.
  apply fmap_Some in H as (ids' & H & ->). apply IH in H as (picks & -> & [M N] & S & F).
  exists (record :: picks). repeat split.
  - by constructor.
  - cbn. constructor; [|done]. intros X. apply list_elem_of_fmap in X as (p & Ep & P).
    rewrite Forall_forall in F. apply (F p P). set_solver.
  - by apply sublist_inserts_l, sublist_skip.
  - constructor; [done|]. eapply Forall_impl; [exact F|]. set_solver.
Qed.

(** Records of one event are next to one another. *)
Fixpoint contiguous (records : list CorrelationRecord) : Prop :=
  match records with
  | [] => True
  | r :: rest =>
      (forall b c, sublist [b; c] rest -> cr_EventID c = cr_EventID r -> cr_EventID b = cr_EventID r) /\
      contiguous rest
  end.

Lemma contiguous_app l1 l2 : contiguous (l1 ++ l2) -> contiguous l2.
Proof. induction l1; cbn; tauto. Qed.

(** The greedy choice is never later than any other choice. *)
Lemma next_match_first rule used records pick picks :
  cr_SourceRuleID pick = rule -> cr_EventID pick ∉ used -> sublist (pick :: picks) records ->
  exists record rest, next_match rule used records = Some (record, rest) /\ sublist picks rest /\
    (cr_EventID record = cr_EventID pick \/ sublist (pick :: picks) rest).
Proof.
  intros E U. induction records as [|r records IH]; intros S; [by inversion S|]. cbn [next_match].
  destruct ((cr_SourceRuleID r != rule) || _) eqn:K.
  - inversion S as [|? ? ? S'|? ? ? S']; subst.
    { by rewrite (proj2 (skip_true _ _ _)) in K. }
    by apply IH.
  - exists r, records. split; [done|]. inversion S as [|? ? ? S'|? ? ? S']; subst; [by split; [|left]|].
    split; [|by right]. etransitivity; [|exact S']. by apply sublist_cons.
Qed.

Lemma match_ordered_complete rules used records picks :
  contiguous records -> matches rules picks -> sublist picks records ->
  Forall (fun p => cr_EventID p ∉ used) picks -> is_Some (match_ordered rules used records).
Proof.
  intros C [M N]. revert used records C N. induction M as [|rule p rules picks E M IH]; intros used records C N S F.
  { by eexists. }
  inversion F as [|? ? Pu F']; subst. apply NoDup_cons in N as [Np N]. cbn [match_ordered].
  destruct (next_match_first _ _ _ _ _ eq_refl Pu S) as (record & rest & K & S' & D). rewrite K.
  apply next_match_Some in K as (_ & _ & skipped & ->). apply contiguous_app in C as [C1 C2].
  apply fmap_is_Some, IH; [done..|].
  rewrite Forall_forall in F' |- *. intros q Q X. apply elem_of_union in X as [X|X]; [|by apply (F' q Q)].
  apply elem_of_singleton in X. apply Np, list_elem_of_fmap. exists q. split; [|done].
  destruct D as [D|D]; [congruence|]. rewrite X. apply (C1 p q); [|done].
  etransitivity; [|exact D]. apply sublist_skip. apply list_elem_of_split in Q as (k1 & k2 & ->).
  apply sublist_inserts_l, sublist_skip, sublist_nil_l.
Qed.

End Matching.

(** ** Evaluation *)

Section Evaluation.

Definition one_time_per_event (records : list CorrelationRecord) : Prop :=
  forall a b, a ∈ records -> b ∈ records -> cr_EventID a = cr_EventID b -> cr_EventTime a = cr_EventTime b.

Lemma sorted_contiguous records :
  one_time_per_event records -> StronglySorted record_le records -> contiguous records.
Proof.
  intros O S. induction S as [|r records S IH F]; [done|]. split.
  - intros b c BC E. assert (Bc : StronglySorted record_le [b; c]) by by eapply StronglySorted_sublist.
    inversion Bc as [|?? _ Fb]; subst. inversion Fb as [|?? Lbc _]; subst.
    assert (Hb : b ∈ records) by (eapply elem_of_sublist; [|exact BC]; left).
    assert (Hc : c ∈ records) by (eapply elem_of_sublist; [|exact BC]; right; left).
    rewrite Forall_forall in F. specialize (F b Hb).
    assert (T : cr_EventTime c = cr_EventTime r) by (apply O; [by right|by left|done]).
    destruct (decide (cr_EventID b = cr_EventID r)) as [|N]; [done|].
    apply record_le_occurs_before in F; [|by apply not_eq_sym]. apply record_le_occurs_before in Lbc; [|congruence].
    unfold occurs_before in *. rewrite E, T in *.
    destruct F as [F|(F1 & F2 & _)], Lbc as [L|(L1 & L2 & _)]; try lia. by apply string_le_antisym.
  - apply IH. intros a b A B. apply O; by right.
Qed.

Definition considered (spec : CorrelationSpec) (records : list CorrelationRecord) : list CorrelationRecord :=
  merge_sort record_le (filter (fun r => cr_SourceRuleID r ∈ cs_Rules spec) records).

Lemma considered_sorted spec records : StronglySorted record_le (considered spec records).
Proof. apply (StronglySorted_merge_sort _). Qed.

Lemma elem_of_considered spec records r :
  r ∈ considered spec records <-> cr_SourceRuleID r ∈ cs_Rules spec /\ r ∈ records.
Proof. unfold considered. rewrite (merge_sort_Permutation _ _). by rewrite list_elem_of_filter. Qed.

Lemma matches_rules rules picks : matches rules picks -> Forall (fun p => cr_SourceRuleID p ∈ rules) picks.
Proof.
  intros [M _]. induction M as [|rule p rules picks <- M IH]; [done|].
  constructor; [left|]. eapply Forall_impl; [exact IH|]. intros; by right.
Qed.

Lemma uniqueEventIDs_loop_spec seen records :
  NoDup (uniqueEventIDs_loop seen records) /\
  forall id, id ∈ uniqueEventIDs_loop seen records <->
    id <> "" /\ (id ∉ seen) /\ exists r, r ∈ records /\ cr_EventID r = id.
Proof.
  revert seen. induction records as [|r records IH]; intros seen; cbn [uniqueEventIDs_loop].
  { split; [constructor|]. intros id. split; [by intros ?%elem_of_nil|]. intros (_ & _ & r & R & _). by apply elem_of_nil in R. }
  destruct ((cr_EventID r != "") && _) eqn:E.
  - apply andb_true_iff in E as [E1 E2]. apply negb_true_iff, bool_decide_eq_false in E1, E2.
    destruct (IH ({[cr_EventID r]} ∪ seen)) as [N I]. split.
    + constructor; [|done]. rewrite I. set_solver.
    + intros id. rewrite elem_of_cons, I. split.
      * intros [->|(A & B & r' & R & K)]; [split_and!; [done..|exists r; by split; [left|]]|].
        split_and!; [done|set_solver|exists r'; by split; [right|]].
      * intros (A & B & r' & R & <-). destruct (decide (cr_EventID r' = cr_EventID r)) as [K|K]; [by left|].
        right. split_and!; [done|set_solver|]. exists r'. apply elem_of_cons in R as [->|R]; done.
  - destruct (IH seen) as [N I]. split; [done|]. intros id. rewrite I. split.
    + intros (A & B & r' & R & K). split_and!; [done..|]. exists r'. by split; [right|].
    + intros (A & B & r' & R & <-). split_and!; [done..|]. exists r'. apply elem_of_cons in R as [->|R]; [|done].
      exfalso. apply andb_false_iff in E as [E|E]; apply negb_false_iff, bool_decide_eq_true in E; done.
Qed.

Lemma elem_of_uniqueEventIDs records id :
  id ∈ uniqueEventIDs records <-> id <> "" /\ exists r, r ∈ records /\ cr_EventID r = id.
Proof. unfold uniqueEventIDs. rewrite (proj2 (uniqueEventIDs_loop_spec ∅ records)). set_solver. Qed.

Lemma uniqueEventIDs_NoDup records : NoDup (uniqueEventIDs records).
Proof. apply uniqueEventIDs_loop_spec. Qed.

(** The identifiers of the events of the rules of [spec], and their values. *)
Definition event_ids (spec : CorrelationSpec) (records : list CorrelationRecord) : gset string :=
  list_to_set (List.map cr_EventID (filter (fun r => cr_SourceRuleID r ∈ cs_Rules spec /\ cr_EventID r <> "") records)).

Definition event_values (spec : CorrelationSpec) (records : list CorrelationRecord) : gset string :=
  list_to_set (List.map cr_Value (filter (fun r => cr_SourceRuleID r ∈ cs_Rules spec /\ cr_Value r <> "") records)).

Lemma uniqueEventIDs_count spec records :
  Z.of_nat (length (uniqueEventIDs (considered spec records))) = Z.of_nat (size (event_ids spec records)).
Proof.
  f_equal. rewrite <- (size_list_to_set (C := gset string)) by apply uniqueEventIDs_NoDup.
  apply set_size_proper. intros id. unfold event_ids.
  rewrite !elem_of_list_to_set, elem_of_uniqueEventIDs, list_elem_of_fmap.
  setoid_rewrite elem_of_considered. setoid_rewrite list_elem_of_filter. naive_solver.
Qed.

Lemma distinct_values_count spec records :
  distinct_values (considered spec records) = Z.of_nat (size (event_values spec records)).
Proof.
  unfold distinct_values. f_equal. apply set_size_proper. intros v. unfold event_values.
  rewrite !elem_of_list_to_set, list_elem_of_filter, !list_elem_of_fmap.
  setoid_rewrite elem_of_considered. setoid_rewrite list_elem_of_filter. naive_solver.
Qed.

End Evaluation.
