(* ===== verification/CorrelationProps.v ===== *)
(** * Properties of event correlation

    The four correlation types mean what they say; the pruned window of the
    store is as good as the whole history; a redelivered event counts once;
    tenants do not see each other's records. *)

From S2P Require Import Prelude GoLang GoFormat Core TenantId MemoryStore MemoryFacts DetectionModel SigmaRule.
From S2P Require Import Correlation CorrelationFacts.

(** ** The specification: correlation over the whole history

    Nothing is ever pruned: the log holds every record under its key. *)

Record CorrelationHistory : Type := {
  ch_log : list (string * CorrelationRecord);
  ch_emissions : gset string;
  ch_seen : gset string
}.

Definition empty_history : CorrelationHistory := {| ch_log := []; ch_emissions := ∅; ch_seen := ∅ |}.

Definition log_of (h : CorrelationHistory) (key : string) : list CorrelationRecord :=
  List.map snd (filter (fun kr => kr.1 = key) (ch_log h)).

Definition history_observe (input : CorrelationObservation) (h : CorrelationHistory)
    : CorrelationEvaluation * CorrelationHistory :=
  let key := correlation_key input in
  let '(newRecords, seen) := new_records key input (uniqueStrings (co_SourceRuleIDs input)) (ch_seen h) in
  match newRecords with
  | [] => (zero_CorrelationEvaluation, {| ch_log := ch_log h; ch_emissions := ch_emissions h; ch_seen := seen |})
  | _ =>
      let '(after, emissions) := crossing input (filter (in_window input) (log_of h key)) newRecords (ch_emissions h) in
      (after, {| ch_log := ch_log h ++ List.map (pair key) newRecords; ch_emissions := emissions; ch_seen := seen |})
  end.

Definition HistoryCorrelation (ctx : Context) (input : CorrelationObservation)
    : M CorrelationHistory CorrelationEvaluation :=
  do! check_ctx ctx in
  do! lift (validateCorrelationObservation input) in
  state (history_observe input).

(** The answers to a sequence of calls. *)
Fixpoint answers {St} (call : Context -> CorrelationObservation -> M St CorrelationEvaluation)
    (inputs : list (Context * CorrelationObservation)) (s : St) : list (outcome CorrelationEvaluation) * St :=
  match inputs with
  | [] => ([], s)
  | (ctx, input) :: rest =>
      let '(answer, s) := call ctx input s in
      let '(more, s) := answers call rest s in
      (answer :: more, s)
  end.

(** No observation comes so late, behind an earlier one of its key, that its
    window reaches before what the earlier one made the store forget.  With one
    timespan for a key: an event is at most one timespan late. *)
Definition not_too_late (earlier later : Context * CorrelationObservation) : Prop :=
  correlation_key earlier.2 = correlation_key later.2 ->
  co_EventTime earlier.2 - 2 * observation_window earlier.2 <= co_EventTime later.2 - observation_window later.2.

Section Retention.

(** What is left of a key agrees with its log from [low] on, when every
    observation made so far kept what is not older than [low]. *)
Definition in_reach (past : list CorrelationObservation) (input : CorrelationObservation) : Prop :=
  Forall (fun o => correlation_key o = correlation_key input ->
                   co_EventTime o - 2 * observation_window o <= co_EventTime input - observation_window input) past.

Definition agrees (past : list CorrelationObservation) (m : MemoryCorrelationStore) (h : CorrelationHistory) : Prop :=
  mc_emissions m = ch_emissions h /\ mc_observation m = ch_seen h /\
  forall key low,
    Forall (fun o => correlation_key o = key -> co_EventTime o - 2 * observation_window o <= low) past ->
    filter (fun r => low <= cr_EventTime r) (slice_of (mc_records m) key) =
    filter (fun r => low <= cr_EventTime r) (log_of h key).

Lemma filter_weaken {A} (P Q : A -> Prop) `{!forall x, Decision (P x), !forall x, Decision (Q x)} (l : list A) :
  (forall x, P x -> Q x) -> filter P (filter Q l) = filter P l.
Proof.
  intros PQ. induction l as [|x l IH]; [done|]. rewrite (filter_cons Q), (filter_cons P x l).
  destruct (decide (Q x)); [rewrite filter_cons|]; rewrite IH; [done|]. destruct (decide (P x)); [|done].
  exfalso. auto.
Qed.

Lemma log_of_app h key records emissions seen other :
  log_of {| ch_log := ch_log h ++ List.map (pair key) records; ch_emissions := emissions; ch_seen := seen |} other =
  log_of h other ++ (if decide (key = other) then records else []).
Proof.
  unfold log_of. cbn [ch_log]. rewrite filter_app, map_app. f_equal.
  induction records as [|r records IH]; cbn [List.map]; [by case_decide|].
  rewrite filter_cons. cbn [fst]. destruct (decide (key = other)); cbn [List.map snd]; by rewrite IH.
Qed.

Lemma agrees_window past m h input :
  agrees past m h -> in_reach past input ->
  filter (in_window input) (slice_of (mc_records m) (correlation_key input)) =
  filter (in_window input) (log_of h (correlation_key input)).
Proof.
  intros (_ & _ & A) L. specialize (A _ _ L).
  set (low := co_EventTime input - observation_window input) in *.
  assert (W : forall r, in_window input r -> low <= cr_EventTime r).
  { unfold in_window, Before, time_Add, low. intros r [H _]. apply Z.ltb_ge in H. lia. }
  rewrite <- (filter_weaken _ _ _ W), A. by apply filter_weaken.
Qed.

Lemma agrees_observe past m h input :
  agrees past m h -> in_reach past input ->
  (observe input m).1 = (history_observe input h).1 /\
  agrees (past ++ [input]) (observe input m).2 (history_observe input h).2.
Proof.
  intros A L. assert (Win := agrees_window _ _ _ _ A L). destruct A as (E & S & R).
  unfold observe, history_observe. rewrite S, E, Win.
  destruct (new_records _ _ _ _) as [records seen]. destruct records as [|r records].
  { split; [done|]. split_and!; [done..|]. intros key low F. apply Forall_app in F as [F _]. by apply R. }
  generalize (r :: records) as fresh. clear r records. intros fresh.
  destruct (crossing _ _ _ _) as [after emissions]. split; [done|]. split_and!; [done..|].
  intros key low F. apply Forall_app in F as [F1 F2]. inversion F2 as [|?? K _]; subst.
  cbn [snd mc_records]. rewrite log_of_app. specialize (R key low F1).
  destruct (decide (correlation_key input = key)) as [<-|N].
  - unfold slice_of at 1. rewrite lookup_insert_eq. cbn. rewrite !filter_app. f_equal.
    rewrite <- R. apply filter_weaken. intros r Hr. unfold is_retained, Before, time_Add. apply Z.ltb_ge.
    specialize (K eq_refl). lia.
  - unfold slice_of. rewrite lookup_insert_ne by done. rewrite app_nil_r. exact R.
Qed.

Lemma agrees_call past m h ctx input :
  agrees past m h -> in_reach past input ->
  exists answer m' h' past', ObserveCorrelation ctx input m = (answer, m') /\
    HistoryCorrelation ctx input h = (answer, h') /\ agrees past' m' h' /\
    (past' = past \/ past' = past ++ [input]).
Proof.
  intros A L. unfold ObserveCorrelation, HistoryCorrelation, bind, check_ctx, lift, fail, ret.
  destruct ctx as [e|]; [by exists (Err e), m, h, past; auto|].
  destruct (validateCorrelationObservation input) as [[]|e|]; [|by exists (Err e), m, h, past; auto|by exists Panic, m, h, past; auto].
  destruct (agrees_observe past m h input A L) as [E A']. unfold state.
  destruct (observe input m) as [e1 m'], (history_observe input h) as [e2 h']. cbn in E, A'. subst e2.
  exists (Ok e1), m', h', (past ++ [input]). auto.
Qed.

Lemma agrees_answers inputs past m h :
  ForallOrdPairs not_too_late inputs -> Forall (fun i => in_reach past i.2) inputs -> agrees past m h ->
  (answers ObserveCorrelation inputs m).1 = (answers HistoryCorrelation inputs h).1.
Proof.
  intros P. revert past m h. induction P as [|[ctx input] inputs F P IH]; intros past m h L A; [done|].
  inversion L as [|?? L1 L2]; subst. cbn [answers].
  destruct (agrees_call past m h ctx input A L1) as (answer & m' & h' & past' & -> & -> & A' & D).
  assert (L' : Forall (fun i => in_reach past' i.2) inputs).
  { destruct D as [->| ->]; [done|]. rewrite Forall_forall in F, L2 |- *. intros i I.
    apply Forall_app. split; [by apply L2|]. constructor; [|done]. by apply (F i I). }
  specialize (IH past' m' h' L' A').
  destruct (answers ObserveCorrelation inputs m'), (answers HistoryCorrelation inputs h'). cbn in *. by rewrite IH.
Qed.

End Retention.

(** C32. Pruning is invisible: as long as no event comes more than its window
    behind what an earlier event of its key made the store forget, every answer
    of the store is the one given over the whole history. *)
Theorem pruned_window_refines_history (inputs : list (Context * CorrelationObservation))
    (PUNCTUAL : ForallOrdPairs not_too_late inputs) :
  (answers ObserveCorrelation inputs NewMemoryCorrelationStore).1 =
  (answers HistoryCorrelation inputs empty_history).1.
Proof.
  apply (agrees_answers _ []); [done|by apply Forall_forall; constructor|].
  split_and!; [done..|]. intros key low _. unfold slice_of, log_of. cbn. by rewrite lookup_empty.
Qed.

(** ** The correlation types *)

(** Event and value counts: the threshold is compared with the number of
    distinct events, or of distinct nonempty values, of the rules of the
    correlation; the evidence lists such events without repetition, at most a
    thousand of them. *)
Theorem count_correlations_count_distinct spec records (e := EvaluateCorrelation spec records) :
  (cs_Type spec = CorrelationEventCount ->
     ce_Satisfied e = true <-> cs_Threshold spec <= Z.of_nat (size (event_ids spec records))) /\
  (cs_Type spec = CorrelationValueCount ->
     ce_Satisfied e = true <-> cs_Threshold spec <= Z.of_nat (size (event_values spec records))) /\
  (cs_Type spec = CorrelationEventCount \/ cs_Type spec = CorrelationValueCount ->
     ce_Count e = Z.of_nat (size (event_ids spec records)) /\
     ce_DistinctValues e = Z.of_nat (size (event_values spec records)) /\
     NoDup (ce_EventIDs e) /\ (length (ce_EventIDs e) <= 1000)%nat /\
     Forall (fun id => id ∈ event_ids spec records) (ce_EventIDs e)).
Proof.
  assert (Ids : forall id, id ∈ uniqueEventIDs (considered spec records) -> id ∈ event_ids spec records).
  { intros id (N & r & R & <-)%elem_of_uniqueEventIDs. apply elem_of_considered in R as [R1 R2].
    apply elem_of_list_to_set, list_elem_of_fmap. exists r. by rewrite list_elem_of_filter. }
  assert (Evidence : forall ids, ids = boundedCorrelationIDs (uniqueEventIDs (considered spec records)) ->
    NoDup ids /\ (length ids <= 1000)%nat /\ Forall (fun id => id ∈ event_ids spec records) ids).
  { intros ids ->. unfold boundedCorrelationIDs, maximumEvidenceIDs. split_and!.
    - eapply sublist_NoDup; [apply uniqueEventIDs_NoDup|apply sublist_take].
    - rewrite length_take. lia.
    - apply Forall_forall. intros id I. apply Ids. eapply elem_of_sublist; [exact I|apply sublist_take]. }
  unfold e, EvaluateCorrelation. fold (considered spec records).
  rewrite distinct_values_count, uniqueEventIDs_count. split_and!.
  - intros ->. cbn. apply Z.leb_le.
  - intros ->. cbn. apply Z.leb_le.
  - intros [-> | ->]; cbn; split_and!; try done; by apply Evidence.
Qed.

(** C34. Temporal correlation is exact: it holds exactly when one record can be
    chosen for each rule, over different events, and the evidence is such a
    choice.  The search always answers. *)
Theorem temporal_correlation_exact spec records (e := EvaluateCorrelation spec records)
    (TEMPORAL : cs_Type spec = CorrelationTemporal) :
  (ce_Satisfied e = true <->
     exists picks, matches (cs_Rules spec) picks /\ Forall (fun p => p ∈ records) picks) /\
  (ce_Satisfied e = true ->
     exists picks, matches (cs_Rules spec) picks /\ Forall (fun p => p ∈ records) picks /\
                   ce_EventIDs e = List.map cr_EventID picks).
Proof.
  assert (S : ce_Satisfied e = true ->
     exists picks, matches (cs_Rules spec) picks /\ Forall (fun p => p ∈ records) picks /\
                   ce_EventIDs e = List.map cr_EventID picks).
  { unfold e, EvaluateCorrelation. fold (considered spec records). rewrite TEMPORAL. cbn.
    destruct (assign _ _ _) as [ids|] eqn:A; [|done]. intros _.
    apply assign_sound in A as (picks & -> & M & F). exists picks. split_and!; [done| |done].
    eapply Forall_impl; [exact F|]. cbn. intros p [P _]. by apply elem_of_considered in P as [_ P]. }
  split; [|exact S]. split; [intros H; destruct (S H) as (p & ? & ? & _); by exists p|].
  intros (picks & M & F). unfold e, EvaluateCorrelation. fold (considered spec records). rewrite TEMPORAL. cbn.
  destruct (assign_complete _ (considered spec records) ∅ picks M) as [ids ->]; [|done].
  assert (R := matches_rules _ _ M). rewrite Forall_forall in F, R |- *. intros p P.
  rewrite elem_of_considered. split; [by split; [apply R|apply F]|apply not_elem_of_empty].
Qed.

(** C33. Ordered temporal correlation is exact, although the code matches
    greedily and never goes back: when an event has one time, it holds exactly
    when records of different events can be chosen for the rules in the order of
    the rules, each event after the one before (events of the same instant are
    ordered by identifier). *)
Theorem ordered_correlation_exact spec records
    (ORDERED : cs_Type spec = CorrelationTemporalOrdered) (ONE : one_time_per_event records) :
  ce_Satisfied (EvaluateCorrelation spec records) = true <->
  exists picks, matches (cs_Rules spec) picks /\ Forall (fun p => p ∈ records) picks /\
                StronglySorted occurs_before picks.
Proof.
  unfold EvaluateCorrelation. fold (considered spec records). rewrite ORDERED. cbn.
  assert (Sorted := considered_sorted spec records). split.
  - destruct (match_ordered _ _ _) as [ids|] eqn:A; [|done]. intros _.
    apply match_ordered_sound in A as (picks & _ & M & S & _). exists picks. split_and!; [done| |].
    + apply Forall_forall. intros p P. eapply elem_of_sublist in P; [|exact S]. by apply elem_of_considered in P as [_ P].
    + assert (PS := StronglySorted_sublist _ _ _ S Sorted). destruct M as [_ N]. clear S.
      induction PS as [|p picks PS IH F]; [constructor|]. cbn in N. apply NoDup_cons in N as [Np N].
      constructor; [by apply IH|]. rewrite Forall_forall in F |- *. intros q Q.
      apply record_le_occurs_before; [by apply F|]. intros E. apply Np. rewrite E. by apply list_elem_of_fmap_2.
  - intros (picks & M & F & PS).
    assert (C : contiguous (considered spec records)).
    { apply sorted_contiguous; [|done]. intros a b A B. apply elem_of_considered in A as [_ A], B as [_ B]. by apply ONE. }
    destruct (match_ordered_complete (cs_Rules spec) ∅ _ picks C M) as [ids ->]; [| |done].
    + apply increasing_sublist; [done..|]. assert (R := matches_rules _ _ M). rewrite Forall_forall in F, R |- *.
      intros p P. apply elem_of_considered. by split; [apply R|apply F].
    + apply Forall_forall. intros p _. apply not_elem_of_empty.
Qed.

(** ** Redelivery *)

Section Redelivery.

Definition observation_key (input : CorrelationObservation) (sourceRuleID : string) : string :=
  correlation_key input +:+ record_separator +:+ sourceRuleID +:+ record_separator +:+ co_EventID input.

Lemma new_records_seen key input rules seen :
  seen ⊆ (new_records key input rules seen).2.
Proof.
  revert seen. induction rules as [|rule rules IH]; intros seen; cbn [new_records]; [done|].
  case_bool_decide; [apply IH|]. assert (G := IH ({[key +:+ record_separator +:+ rule +:+ record_separator +:+ co_EventID input]} ∪ seen)).
  destruct (new_records _ _ _ _) as [records seen']. cbn in *. set_solver.
Qed.

Lemma new_records_marks input rules seen rule :
  rule ∈ rules -> observation_key input rule ∈ (new_records (correlation_key input) input rules seen).2.
Proof.
  intros R. revert seen. induction R as [rule rules|rule other rules R IH]; intros seen; cbn [new_records];
    fold (observation_key input rule); [|fold (observation_key input other)]; case_bool_decide.
  - by apply new_records_seen.
  - assert (S := new_records_seen (correlation_key input) input rules ({[observation_key input rule]} ∪ seen)).
    destruct (new_records _ _ _ _) as [records seen']. cbn in *. set_solver.
  - apply IH.
  - specialize (IH ({[observation_key input other]} ∪ seen)). by destruct (new_records _ _ _ _) as [records seen'].
Qed.

Lemma new_records_none input rules seen :
  (forall rule, rule ∈ rules -> observation_key input rule ∈ seen) ->
  new_records (correlation_key input) input rules seen = ([], seen).
Proof.
  induction rules as [|rule rules IH]; intros H; cbn [new_records]; [done|].
  fold (observation_key input rule). rewrite bool_decide_true by (apply H; left).
  apply IH. intros other O. apply H. by right.
Qed.

Lemma observe_seen input m :
  mc_observation (observe input m).2 =
  (new_records (correlation_key input) input (uniqueStrings (co_SourceRuleIDs input)) (mc_observation m)).2.
Proof.
  unfold observe. destruct (new_records _ _ _ _) as [records seen]. destruct records; [done|].
  by destruct (crossing _ _ _ _).
Qed.

Definition remembers (m m' : MemoryCorrelationStore) : Prop := mc_observation m ⊆ mc_observation m'.

#[local] Instance remembers_preorder : PreOrder remembers.
Proof. unfold remembers. split; [by intros m|intros x y z; set_solver]. Qed.

Lemma ObserveCorrelation_remembers ctx input : evolves remembers (ObserveCorrelation ctx input).
Proof.
  unfold ObserveCorrelation, check_ctx. apply (evolves_bind _); [destruct ctx; intros m; reflexivity|].
  intros _. apply (evolves_bind _); [intros m; reflexivity|]. intros _ m. unfold state, remembers.
  assert (E := observe_seen input m). destruct (observe input m) as [e m']. cbn in *. rewrite E. apply new_records_seen.
Qed.

Lemma answers_remembers inputs m : remembers m (answers ObserveCorrelation inputs m).2.
Proof.
  revert m. induction inputs as [|[ctx input] inputs IH]; intros m; cbn [answers]; [reflexivity|].
  assert (R := ObserveCorrelation_remembers ctx input m). destruct (ObserveCorrelation _ _ _) as [answer m1].
  specialize (IH m1). destruct (answers _ _ _) as [more m2]. cbn in *. by transitivity m1.
Qed.

Lemma ObserveCorrelation_Ok ctx input m e m' :
  ObserveCorrelation ctx input m = (Ok e, m') <->
  ctx = None /\ validateCorrelationObservation input = Ok tt /\ observe input m = (e, m').
Proof.
  unfold ObserveCorrelation, check_ctx, bind, lift, state, fail, ret. destruct ctx as [err|]; [naive_solver|].
  destruct (validateCorrelationObservation input) as [[]|err|]; [|naive_solver..].
  destruct (observe input m); naive_solver.
Qed.

End Redelivery.

(** An event counts once: after an accepted observation, and whatever was
    observed since, observing the same event again under the same key, for the
    same or for fewer source rules and whatever else it carries, answers the
    empty evaluation, triggers nothing and leaves the store as it is. *)
Theorem redelivered_event_counts_once ctx input m e m1 inputs again
    (FIRST : ObserveCorrelation ctx input m = (Ok e, m1))
    (KEY : correlation_key again = correlation_key input) (EVENT : co_EventID again = co_EventID input)
    (RULES : uniqueStrings (co_SourceRuleIDs again) ⊆ uniqueStrings (co_SourceRuleIDs input))
    (VALID : validateCorrelationObservation again = Ok tt) :
  let m2 := (answers ObserveCorrelation inputs m1).2 in
  ObserveCorrelation None again m2 = (Ok zero_CorrelationEvaluation, m2).
Proof.
  intros m2. apply ObserveCorrelation_Ok in FIRST as (_ & _ & FIRST).
  apply ObserveCorrelation_Ok. split_and!; [done..|].
  assert (R : remembers m1 m2) by apply answers_remembers.
  assert (S := observe_seen input m). rewrite FIRST in S. cbn in S.
  unfold observe. rewrite new_records_none; [by destruct m2|].
  intros rule H. unfold observation_key. rewrite KEY, EVENT. fold (observation_key input rule).
  apply R. rewrite S. apply new_records_marks. by apply RULES.
Qed.

(** ** Tenants *)

Section Tenants.

(** What the store holds for a tenant. *)
Definition same_for (t : string) (m m' : MemoryCorrelationStore) : Prop :=
  forall key, HasPrefix key (t +:+ record_separator) = true ->
    mc_records m' !! key = mc_records m !! key /\ (key ∈ mc_observation m' <-> key ∈ mc_observation m).

Lemma new_records_only key input rules seen k :
  k ∈ (new_records key input rules seen).2 -> k ∈ seen \/ exists rest, k = key +:+ record_separator +:+ rest.
Proof.
  revert seen. induction rules as [|rule rules IH]; intros seen; cbn [new_records]; [by left|].
  case_bool_decide; [apply IH|].
  specialize (IH ({[key +:+ record_separator +:+ rule +:+ record_separator +:+ co_EventID input]} ∪ seen)).
  destruct (new_records _ _ _ _) as [records seen']. cbn in *. intros K.
  destruct (IH K) as [[->%elem_of_singleton|]%elem_of_union|]; eauto.
Qed.

Lemma Valid_separator t : Valid t = true -> free_of "030"%char t = true.
Proof. by apply Valid_free_of. Qed.

Lemma key_tenant t u rest : Valid t = true -> Valid u = true ->
  HasPrefix (t +:+ record_separator +:+ rest) (u +:+ record_separator) = true -> u = t.
Proof.
  intros T U K.
  assert (P := separated_prefix "030" t u rest (Valid_separator _ T) (Valid_separator _ U)).
  assert (Q := eq_trans (eq_sym K) P). by apply eq_sym, bool_decide_eq_true in Q.
Qed.

Lemma observe_same_for t input m :
  Valid t = true -> Valid (co_TenantID input) = true -> t <> co_TenantID input ->
  same_for t m (observe input m).2.
Proof.
  intros Vt Vi N key K.
  assert (Apart : forall rest, key <> co_TenantID input +:+ record_separator +:+ rest).
  { intros rest ->. apply N. by apply key_tenant in K. }
  split; cycle 1.
  - rewrite observe_seen. split; [|intros S; by apply new_records_seen].
    intros [S|(rest & ->)]%new_records_only; [done|]. exfalso. unfold correlation_key in Apart.
    eapply Apart. by rewrite !append_assoc.
  - unfold observe. destruct (new_records _ _ _ _) as [records seen]. destruct records; [done|].
    destruct (crossing _ _ _ _). cbn. apply lookup_insert_ne. intros <-. by eapply Apart.
Qed.

Lemma ObserveCorrelation_same_for t ctx input m :
  Valid t = true -> Valid (co_TenantID input) = true -> t <> co_TenantID input ->
  same_for t m (ObserveCorrelation ctx input m).2.
Proof.
  intros T U N. unfold ObserveCorrelation, check_ctx, bind, lift, state, fail, ret. destruct ctx; [done|].
  destruct (validateCorrelationObservation input); [|done..].
  assert (S := observe_same_for t input m T U N). by destruct (observe input m).
Qed.

Lemma reset_same_for t u m : Valid t = true -> Valid u = true -> t <> u -> same_for t m (ResetTenant u m).
Proof.
  intros Vt Vu N key K.
  assert (A : HasPrefix key (u +:+ record_separator) = false).
  { apply not_true_is_false. intros K'. apply N.
    apply HasPrefix_app in K as (r1 & ->). rewrite append_assoc in K'.
    by apply key_tenant in K'. }
  cbn. split; [|rewrite elem_of_filter; naive_solver].
  destruct (mc_records m !! key) eqn:E.
  - apply map_lookup_filter_Some. done.
  - apply map_lookup_filter_None. by left.
Qed.

End Tenants.

(** Correlation keeps tenants apart: an observation for one tenant, or the
    reset of one, changes neither the records nor the observations of another. *)
Theorem correlation_isolates_tenants t u ctx input m
    (T : Valid t = true) (U : Valid u = true) (OTHER : t <> u) (OF : co_TenantID input = u) :
  same_for t m (ObserveCorrelation ctx input m).2 /\ same_for t m (ResetTenant u m).
Proof.
  split; [|by apply reset_same_for]. subst u. by apply ObserveCorrelation_same_for.
Qed.

(** ** Examples *)

Section Examples.

Definition failures_spec : CorrelationSpec :=
  {| cs_Type := CorrelationEventCount; cs_Rules := ["failure"]; cs_GroupBy := ["src_endpoint.ip"];
     cs_ValueField := ""; cs_TimespanSeconds := 300; cs_Threshold := 5 |}.

Definition failure (tenant : string) (minute : Z) : CorrelationObservation :=
  {| co_TenantID := tenant; co_RuleID := "R"; co_RuleVersion := "1.0.0"; co_GroupKey := "203.0.113.9";
     co_SourceRuleIDs := ["failure"]; co_EventID := "evt_" +:+ Itoa minute;
     co_EventTime := 63800000000 * Second + minute * Minute; co_Value := "user"; co_Spec := failures_spec |}.

Definition failures (minutes : list Z) : list (Context * CorrelationObservation) :=
  List.map (fun minute => (None, failure "kazutb" minute)) minutes.

Definition triggered (answer : outcome CorrelationEvaluation) : bool :=
  match answer with Ok e => ce_Triggered e | _ => false end.

Definition chain_records : list CorrelationRecord :=
  [{| cr_SourceRuleID := "exfiltrate"; cr_EventID := "e3"; cr_EventTime := 30; cr_Value := "" |};
   {| cr_SourceRuleID := "login"; cr_EventID := "e1"; cr_EventTime := 10; cr_Value := "" |};
   {| cr_SourceRuleID := "escalate"; cr_EventID := "e2"; cr_EventTime := 20; cr_Value := "" |}].

Definition chain_spec (type : string) : CorrelationSpec :=
  {| cs_Type := type; cs_Rules := ["login"; "escalate"; "exfiltrate"]; cs_GroupBy := []; cs_ValueField := "";
     cs_TimespanSeconds := 600; cs_Threshold := 0 |}.

End Examples.

(** The order of arrival decides: five failures within the five minutes of
    the window trigger the threshold when they arrive in the order of their
    times, and never trigger it when they arrive in the opposite order, because
    an observation only looks at records that are not newer than itself. *)
Theorem arrival_order_decides_detection :
  List.map triggered (answers ObserveCorrelation (failures [0; 1; 2; 3; 4]) NewMemoryCorrelationStore).1
    = [false; false; false; false; true] /\
  List.map triggered (answers ObserveCorrelation (failures [4; 3; 2; 1; 0]) NewMemoryCorrelationStore).1
    = [false; false; false; false; false].
Proof. split; vm_compute; reflexivity. Qed.

Lemma pruned_window_refines_history_witness :
  ForallOrdPairs not_too_late (failures [0; 3; 1; 20; 16]) /\
  (answers ObserveCorrelation (failures [0; 3; 1; 20; 16]) NewMemoryCorrelationStore).1 =
  (answers HistoryCorrelation (failures [0; 3; 1; 20; 16]) empty_history).1.
Proof.
  assert (P : ForallOrdPairs not_too_late (failures [0; 3; 1; 20; 16])).
  { repeat constructor; intros _; vm_compute; congruence. }
  exact (conj P (pruned_window_refines_history _ P)).
Defined.

Lemma temporal_correlation_exact_witness :
  ce_Satisfied (EvaluateCorrelation (chain_spec CorrelationTemporal) chain_records) = true /\
  exists picks, matches ["login"; "escalate"; "exfiltrate"] picks /\ Forall (fun p => p ∈ chain_records) picks.
Proof.
  assert (S : ce_Satisfied (EvaluateCorrelation (chain_spec CorrelationTemporal) chain_records) = true)
    by (vm_compute; reflexivity).
  split; [exact S|].
  exact (proj1 (proj1 (temporal_correlation_exact (chain_spec CorrelationTemporal) chain_records eq_refl)) S).
Defined.

Lemma ordered_correlation_exact_witness :
  ce_Satisfied (EvaluateCorrelation (chain_spec CorrelationTemporalOrdered) chain_records) = true /\
  exists picks, matches ["login"; "escalate"; "exfiltrate"] picks /\ Forall (fun p => p ∈ chain_records) picks /\
                StronglySorted occurs_before picks.
Proof.
  assert (S : ce_Satisfied (EvaluateCorrelation (chain_spec CorrelationTemporalOrdered) chain_records) = true)
    by (vm_compute; reflexivity).
  assert (O : one_time_per_event chain_records).
  { intros a b A B. unfold chain_records in A, B. rewrite !elem_of_cons, elem_of_nil in A, B.
    destruct A as [->|[->|[->|[]]]], B as [->|[->|[->|[]]]]; cbn; congruence. }
  split; [exact S|].
  exact (proj1 (ordered_correlation_exact (chain_spec CorrelationTemporalOrdered) chain_records eq_refl O) S).
Defined.

Lemma redelivered_event_counts_once_witness :
  let m1 := (observe (failure "kazutb" 0) NewMemoryCorrelationStore).2 in
  let m2 := (answers ObserveCorrelation (failures [1; 2]) m1).2 in
  ObserveCorrelation None (failure "kazutb" 0) m2 = (Ok zero_CorrelationEvaluation, m2).
Proof.
  intros m1.
  assert (F : ObserveCorrelation None (failure "kazutb" 0) NewMemoryCorrelationStore =
              (Ok (observe (failure "kazutb" 0) NewMemoryCorrelationStore).1, m1)) by (vm_compute; reflexivity).
  assert (V : validateCorrelationObservation (failure "kazutb" 0) = Ok tt) by (vm_compute; reflexivity).
  exact (redelivered_event_counts_once None _ _ _ _ (failures [1; 2]) (failure "kazutb" 0) F eq_refl eq_refl
           (fun _ H => H) V).
Defined.

Lemma correlation_isolates_tenants_witness :
  same_for "kazutb" NewMemoryCorrelationStore
    (ObserveCorrelation None (failure "campus-2" 0) NewMemoryCorrelationStore).2 /\
  same_for "kazutb" NewMemoryCorrelationStore (ResetTenant "campus-2" NewMemoryCorrelationStore).
Proof.
  apply (correlation_isolates_tenants "kazutb" "campus-2" None (failure "campus-2" 0) NewMemoryCorrelationStore);
    [vm_compute; reflexivity..|discriminate|reflexivity].
Defined.
