(* ===== verification/PipelineRules.v ===== *)
(** * The detection pipeline's pure parts (internal/pipeline/engine.go)

    The built-in rules, the PowerShell heuristics, the risk factors, and the
    findings and alerts made of a match.  A float is never involved: risks are
    Go ints. *)

From S2P Require Import Prelude GoLang GoFormat Core MemoryStore DetectionModel SigmaRule Correlation.

Definition ErrInvalidEvent : error := New "invalid event".

Definition PowerShellRuleID : string := "KCSP-WIN-PS-001".
Definition AuthRuleID : string := "KCSP-AUTH-THRESHOLD-001".
Definition ThreatIntelRuleID : string := "KCSP-TI-IOC-MATCH".
Definition UEBARuleID : string := "KCSP-UEBA-BEHAVIOR-DEVIATION".
Definition authBaseRuleID : string := "KCSP-AUTH-FAILURE-BASE".

Record detectionMatch : Type := {
  dm_Rule : DetectionRule;
  dm_MatchedFields : list string;
  dm_Factors : list RiskFactor;
  dm_EventIDs : list string;
  dm_DedupDiscriminator : string;
  dm_ReferenceID : string
}.
#[export] Instance eta_detectionMatch : Eta detectionMatch := fun r => {|
  dm_Rule := dm_Rule r; dm_MatchedFields := dm_MatchedFields r; dm_Factors := dm_Factors r;
  dm_EventIDs := dm_EventIDs r; dm_DedupDiscriminator := dm_DedupDiscriminator r; dm_ReferenceID := dm_ReferenceID r |}.

Definition factor (code label : string) (delta : Z) (reference : string) : RiskFactor :=
  {| rf_Code := code; rf_Label := label; rf_Delta := delta; rf_SourceReference := reference |}.

(** The rules published by [New]. *)
Definition builtin_rules (now : Time) : list DetectionRule := [
  {| dr_ID := PowerShellRuleID; dr_Title := "Suspicious PowerShell execution";
     dr_Description := "Detects encoded or download-oriented PowerShell command lines in process creation telemetry.";
     dr_Version := "1.0.0"; dr_Severity := SeverityHigh; dr_Confidence := 82; dr_MITRE := ["T1059.001"];
     dr_RequiredDataSources := ["Sysmon Event ID 1"; "Windows process creation"];
     dr_KnownFalsePositives := ["Approved administration and software deployment tooling"];
     dr_Owner := "KCSP Detection Engineering"; dr_State := "PUBLISHED"; dr_UpdatedAt := now |};
  {| dr_ID := AuthRuleID; dr_Title := "Authentication failure threshold";
     dr_Description := "Detects five authentication failures from one source within five minutes.";
     dr_Version := "1.0.0"; dr_Severity := SeverityMedium; dr_Confidence := 74; dr_MITRE := ["T1110"];
     dr_RequiredDataSources := ["AD"; "VPN"; "RADIUS"];
     dr_KnownFalsePositives := ["Stale credentials on a managed service or device"];
     dr_Owner := "KCSP Detection Engineering"; dr_State := "PUBLISHED"; dr_UpdatedAt := now |};
  {| dr_ID := ThreatIntelRuleID; dr_Title := "Threat intelligence IOC match";
     dr_Description := "Matches canonical event observables against active, tenant-scoped threat indicators.";
     dr_Version := "1.0.0"; dr_Severity := SeverityMedium; dr_Confidence := 70; dr_MITRE := [];
     dr_RequiredDataSources := ["Threat Intelligence"; "Normalized security events"];
     dr_KnownFalsePositives := ["Shared infrastructure, stale intelligence, or low-confidence community feeds"];
     dr_Owner := "KCSP Threat Intelligence"; dr_State := "PUBLISHED"; dr_UpdatedAt := now |};
  {| dr_ID := UEBARuleID; dr_Title := "Explainable behavior deviation";
     dr_Description := "Detects deterministic deviations from tenant-scoped rolling user and device baselines.";
     dr_Version := "1.0.0"; dr_Severity := SeverityHigh; dr_Confidence := 70; dr_MITRE := [];
     dr_RequiredDataSources := ["Normalized identity, endpoint, network, and process telemetry"];
     dr_KnownFalsePositives := ["Role changes, travel, onboarding, and newly deployed administrative tooling"];
     dr_Owner := "KCSP UEBA"; dr_State := "PUBLISHED"; dr_UpdatedAt := now |}].

Definition severityRisk (severity : Severity) : Z :=
  if severity == SeverityCritical then 65
  else if severity == SeverityHigh then 50
  else if severity == SeverityMedium then 35
  else if severity == SeverityLow then 20
  else 10.

Definition contextFactors (event : CanonicalEvent) : list RiskFactor :=
  (if 4 <=? dev_Criticality (ev_Device event)
   then [factor "critical_asset" "Critical university asset" 20 (dev_Hostname (ev_Device event))] else []) ++
  (if usr_IsPrivileged (ev_User event)
   then [factor "privileged_user" "Privileged identity involved" 15 (usr_Name (ev_User event))] else []).

(** The struct of [tokens]: value, code, label, delta. *)
Definition powershell_tokens : list (string * string * string * Z) := [
  ("encodedcommand", "encoded_command", "Encoded PowerShell command", 15);
  (" -enc ", "encoded_command", "Encoded PowerShell command", 15);
  ("frombase64string", "base64_decode", "In-memory Base64 decoding", 12);
  ("downloadstring", "download_cradle", "PowerShell download cradle", 12);
  ("invoke-webrequest", "web_request", "PowerShell web request", 10);
  (" iwr ", "web_request", "PowerShell web request alias", 10);
  ("iex ", "dynamic_execution", "Dynamic command execution", 10)].

Fixpoint token_factors (command : string) (seen : gset string) (tokens : list (string * string * string * Z))
    : list RiskFactor :=
  match tokens with
  | [] => []
  | (value, code, label, delta) :: rest =>
      if Contains (" " +:+ command +:+ " ") value && negb (code ∈? seen)
      then factor code label delta "process.command_line" :: token_factors command ({[code]} ∪ seen) rest
      else token_factors command seen rest
  end.

(** The matched fields (one entry for each factor) and the factors. *)
Definition suspiciousPowerShell (event : CanonicalEvent) : list string * list RiskFactor :=
  let processName := ToLower (proc_Name (ev_Process event)) in
  if negb (Contains processName "powershell") && negb (Contains processName "pwsh") then ([], [])
  else
    let factors := token_factors (ToLower (proc_CommandLine (ev_Process event))) ∅ powershell_tokens in
    (List.map (fun _ => "process.command_line") factors, factors).

Definition powershell_match (rule : DetectionRule) (event : CanonicalEvent) : list detectionMatch :=
  let '(matchedFields, tokenFactors) := suspiciousPowerShell event in
  match matchedFields with
  | [] => []
  | _ =>
      [{| dm_Rule := rule; dm_MatchedFields := matchedFields;
          dm_Factors :=
            [factor "base_severity" "High-confidence process detection" 30 PowerShellRuleID;
             factor "rule_confidence" "Validated rule confidence" 20 (PowerShellRuleID +:+ "@1.0.0")]
            ++ tokenFactors ++ contextFactors event;
          dm_EventIDs := [ev_ID event]; dm_DedupDiscriminator := ""; dm_ReferenceID := "" |}]
  end.

(** ** Threat intelligence and behaviour matches *)

(** [byIndicator] and [order] together: the aggregates in the order of their
    first appearance. *)
Fixpoint aggregate_indicator (indicator : ThreatIntelMatch) (aggregates : list (ThreatIntelMatch * list string))
    : list (ThreatIntelMatch * list string) :=
  match aggregates with
  | [] => [(indicator, if ti_MatchedField indicator != "" then [ti_MatchedField indicator] else [])]
  | (first, fields) :: rest =>
      if ti_IndicatorID first == ti_IndicatorID indicator
      then (first, if (ti_MatchedField indicator != "") && negb (ti_MatchedField indicator ∈? fields)
                   then fields ++ [ti_MatchedField indicator] else fields) :: rest
      else (first, fields) :: aggregate_indicator indicator rest
  end.

Definition aggregate_intelligence (intelligence : list ThreatIntelMatch) : list (ThreatIntelMatch * list string) :=
  fold_left (fun aggregates indicator => aggregate_indicator indicator aggregates) intelligence [].

Definition reputationDelta (reputation : string) : Z :=
  if reputation == "MALICIOUS" then 25 else if reputation == "SUSPICIOUS" then 15 else 5.

Definition threat_match (rule : DetectionRule) (event : CanonicalEvent) (item : ThreatIntelMatch * list string)
    : detectionMatch :=
  let '(indicator, fields) := item in
  {| dm_Rule := rule {{ dr_Confidence := ti_Confidence indicator;
                        dr_Title := "Threat intelligence " +:+ ToLower (ti_Type indicator) +:+ " match" }};
     dm_MatchedFields := fields;
     dm_Factors :=
       [factor "base_severity" "Active threat intelligence match" 35 ThreatIntelRuleID;
        factor "ioc_confidence" "Indicator confidence" (Z.max 5 (Z.quot (ti_Confidence indicator) 5)) (ti_IndicatorID indicator);
        factor "threat_intelligence" (ti_Reputation indicator +:+ " indicator reputation")
          (reputationDelta (ti_Reputation indicator)) (ti_IndicatorID indicator)]
       ++ contextFactors event;
     dm_EventIDs := [ev_ID event]; dm_DedupDiscriminator := ti_IndicatorID indicator;
     dm_ReferenceID := ti_IndicatorID indicator |}.

Fixpoint distinct_fields (seen : gset string) (features : list UEBAFeatureEvidence) : list string :=
  match features with
  | [] => []
  | feature :: rest =>
      if (uf_Field feature != "") && negb (uf_Field feature ∈? seen)
      then uf_Field feature :: distinct_fields ({[uf_Field feature]} ∪ seen) rest
      else distinct_fields seen rest
  end.

Definition behavior_match (rule : DetectionRule) (event : CanonicalEvent) (anomaly : UEBAAnomaly) : detectionMatch :=
  {| dm_Rule := rule {{ dr_Title := ua_Title anomaly; dr_Severity := ua_Severity anomaly;
                        dr_Confidence := ua_Confidence anomaly }};
     dm_MatchedFields := distinct_fields ∅ (ua_Features anomaly);
     dm_Factors := [factor "behavior_anomaly" "Explainable rolling-baseline deviation"
                      (Z.min 75 (Z.max 0 (ua_RiskScore anomaly))) (ua_ID anomaly)];
     dm_EventIDs := [ev_ID event];
     dm_DedupDiscriminator := ua_EntityType anomaly +:+ ":" +:+ ua_EntityID anomaly;
     dm_ReferenceID := ua_ID anomaly |}.

(** ** Sigma matches *)

Definition rule_version_reference (rule : DetectionRule) : string := dr_ID rule +:+ "@" +:+ dr_Version rule.

Definition sigma_match (rule : DetectionRule) (event : CanonicalEvent) (fields : list string) : detectionMatch :=
  {| dm_Rule := rule; dm_MatchedFields := fields;
     dm_Factors :=
       [factor "base_severity" "Published Sigma detection" (severityRisk (dr_Severity rule)) (dr_ID rule);
        factor "rule_confidence" "Validated rule confidence" (Z.max 5 (Z.quot (dr_Confidence rule) 5))
          (rule_version_reference rule)]
       ++ contextFactors event;
     dm_EventIDs := [ev_ID event]; dm_DedupDiscriminator := ""; dm_ReferenceID := "" |}.

Definition correlation_match (rule : DetectionRule) (spec : CorrelationSpec) (event : CanonicalEvent)
    (correlated : CorrelationEvaluation) : detectionMatch :=
  {| dm_Rule := rule;
     dm_MatchedFields :=
       cs_GroupBy spec ++ (if cs_ValueField spec != "" then [cs_ValueField spec] else []) ++ ["correlation.rules"];
     dm_Factors :=
       [factor "base_severity" "Published Sigma correlation" (severityRisk (dr_Severity rule)) (dr_ID rule);
        factor "rule_confidence" "Validated correlation confidence" (Z.max 5 (Z.quot (dr_Confidence rule) 5))
          (rule_version_reference rule);
        factor "correlation_count" "Correlated security events" (Z.min 20 (Z.max 5 (ce_Count correlated)))
          (Itoa (ce_Count correlated))]
       ++ contextFactors event;
     dm_EventIDs := ce_EventIDs correlated; dm_DedupDiscriminator := ""; dm_ReferenceID := "" |}.

(** ** Authentication failures *)

Definition auth_source (event : CanonicalEvent) : string :=
  if ep_IP (ev_SrcEndpoint event) == "" then dev_IP (ev_Device event) else ep_IP (ev_SrcEndpoint event).

Definition auth_spec : CorrelationSpec :=
  {| cs_Type := CorrelationEventCount; cs_Rules := [authBaseRuleID]; cs_GroupBy := ["src_endpoint.ip"];
     cs_ValueField := ""; cs_TimespanSeconds := Z.quot (5 * Minute) Second; cs_Threshold := 5 |}.

(** The observation made for an authentication failure with a source. *)
Definition auth_observation (event : CanonicalEvent) : option CorrelationObservation :=
  if negb (EqualFold (ev_Category event) "authentication")
     || negb (EqualFold (sr_Outcome (ev_SecurityResult event)) "failure") then None
  else if auth_source event == "" then None
  else
    let groupEvent := event {{ ev_SrcEndpoint ::= fun e => e {{ ep_IP := auth_source event }} }} in
    Some {| co_TenantID := ev_TenantID event; co_RuleID := AuthRuleID; co_RuleVersion := "1.0.0";
            co_GroupKey := default "" (CorrelationGroup groupEvent ["src_endpoint.ip"]);
            co_SourceRuleIDs := [authBaseRuleID]; co_EventID := ev_ID event; co_EventTime := ev_EventTime event;
            co_Value := usr_Name (ev_User event); co_Spec := auth_spec |}.

Definition auth_factors (event : CanonicalEvent) (evaluation : CorrelationEvaluation) : list RiskFactor :=
  [factor "base_severity" "Authentication threshold reached" 35 AuthRuleID;
   factor "rule_confidence" "Threshold confidence" 20 (AuthRuleID +:+ "@1.0.0")]
  ++ (if 3 <=? ce_DistinctValues evaluation
      then [factor "multiple_accounts" "Multiple accounts targeted" 15 (auth_source event)] else [])
  ++ contextFactors event.

Definition auth_match (rule : DetectionRule) (event : CanonicalEvent) (threshold : CorrelationEvaluation) : detectionMatch :=
  {| dm_Rule := rule; dm_MatchedFields := ["security_result.outcome"; "src_endpoint.ip"; "user.name"];
     dm_Factors := auth_factors event threshold; dm_EventIDs := ce_EventIDs threshold;
     dm_DedupDiscriminator := ""; dm_ReferenceID := "" |}.

(** ** Findings and alerts *)

Definition total_risk (factors : list RiskFactor) : Z :=
  fold_left (fun risk f => wrap64 (risk + rf_Delta f)) factors 0.

Definition clamp_risk (risk : Z) : Z :=
  let risk := if risk <? 0 then 0 else risk in
  if 100 <? risk then 100 else risk.

Definition finding_of (random : string) (now : Time) (event : CanonicalEvent) (m : detectionMatch) : Finding :=
  let risk := clamp_risk (total_risk (dm_Factors m)) in
  {| fi_ID := NewID "fnd" random; fi_TenantID := ev_TenantID event; fi_EventID := ev_ID event;
     fi_Rule := {| rr_ID := dr_ID (dm_Rule m); rr_Title := dr_Title (dm_Rule m); rr_Version := dr_Version (dm_Rule m) |};
     fi_Title := dr_Title (dm_Rule m); fi_Severity := SeverityFromRisk risk; fi_Confidence := dr_Confidence (dm_Rule m);
     fi_MITRE := dr_MITRE (dm_Rule m); fi_MatchedFields := dm_MatchedFields m;
     fi_RiskScore := risk; fi_RiskBreakdown := dm_Factors m; fi_CreatedAt := now |}.

Fixpoint distinct_event_ids (seen : gset string) (ids : list string) : list string :=
  match ids with
  | [] => []
  | eventID :: rest =>
      if (eventID != "") && negb (eventID ∈? seen)
      then eventID :: distinct_event_ids ({[eventID]} ∪ seen) rest
      else distinct_event_ids seen rest
  end.

Definition alert_event_ids (event : CanonicalEvent) (correlatedEventIDs : list string) : list string :=
  match distinct_event_ids ∅ correlatedEventIDs with
  | [] => [ev_ID event]
  | ids => ids
  end.

Definition alert_entity (event : CanonicalEvent) : EntitySummary :=
  let device := ev_Device event in
  let entity := {| es_Type := "device"; es_ID := dev_ID device; es_Name := dev_Hostname device; es_Label := dev_Department device |} in
  let entity := if usr_Name (ev_User event) != ""
                then {| es_Type := "user"; es_ID := usr_ID (ev_User event); es_Name := usr_Name (ev_User event);
                        es_Label := dev_Hostname device |}
                else entity in
  if es_Name entity == ""
  then {| es_Type := "ip"; es_ID := ""; es_Name := ep_IP (ev_SrcEndpoint event); es_Label := "" |}
  else entity.

Definition dedup_key (finding : Finding) (entity : EntitySummary) (dedupDiscriminator : string) : string :=
  let key := rr_ID (fi_Rule finding) +:+ "|" +:+ es_Type entity +:+ "|" +:+ es_Name entity in
  if dedupDiscriminator != "" then key +:+ "|" +:+ dedupDiscriminator else key.

Definition acknowledgementWindow (severity : Severity) : Duration :=
  if severity == SeverityCritical then 15 * Minute
  else if severity == SeverityHigh then 30 * Minute
  else if severity == SeverityMedium then 4 * Hour
  else 24 * Hour.

Definition alert_of (random : string) (now : Time) (event : CanonicalEvent) (finding : Finding)
    (correlatedEventIDs : list string) : Alert :=
  let eventIDs := alert_event_ids event correlatedEventIDs in
  {| al_ID := NewID "alt" random; al_TenantID := ev_TenantID event; al_Title := fi_Title finding;
     al_Severity := fi_Severity finding; al_RiskScore := fi_RiskScore finding; al_RiskBreakdown := fi_RiskBreakdown finding;
     al_Status := "NEW"; al_Disposition := ""; al_Assignee := ""; al_Rule := fi_Rule finding; al_MITRE := fi_MITRE finding;
     al_Entity := alert_entity event; al_FindingIDs := [fi_ID finding]; al_EventIDs := eventIDs;
     al_EventCount := Z.of_nat (length eventIDs); al_FirstSeen := ev_EventTime event; al_LastSeen := ev_EventTime event;
     al_SLA := {| sla_AcknowledgeBy := time_Add now (acknowledgementWindow (fi_Severity finding));
                  sla_Breached := false; sla_Acknowledged := None |};
     al_Version := 1; al_CreatedAt := now; al_UpdatedAt := now |}.
