(* ===== verification/Pipeline.v ===== *)
(** * The detection pipeline (internal/pipeline/engine.go)

    Normalisation, detection and [Ingest] over an abstract repository.  The
    optional interfaces the engine looks for in its repository by type
    assertion are [option] fields of the port.  [Compile]'s YAML decoder is a
    parameter.  Metrics calls are left out. *)

From S2P Require Import Prelude GoLang GoFormat Core MemoryStore DetectionModel SigmaRule SigmaCompile.
From S2P Require Import Correlation PipelineRules.

(** ** The port and the engine's state *)

Class PipelineRepository (R : Type) : Type := {
  pr_SetRules : Context -> list DetectionRule -> M R unit;
  pr_PutEvent : Context -> CanonicalEvent -> M R (CanonicalEvent * bool);
  pr_PutFinding : Context -> Finding -> M R unit;
  pr_UpsertAlert : Context -> Alert -> string -> Duration -> M R (Alert * bool);
  pr_AppendAudit : Context -> string -> Time -> AuditEntry -> M R AuditEntry;
  pr_PublishedDetectionContent : option (Context -> string -> M R (list DetectionContent));
  pr_ObserveCorrelation : option (Context -> CorrelationObservation -> M R CorrelationEvaluation);
  pr_MatchThreatIntelEvent : option (Context -> CanonicalEvent -> M R (list ThreatIntelMatch));
  pr_ObserveUEBAEvent : option (Context -> CanonicalEvent -> M R (option UEBAAnomaly));
  pr_ObserveEntityEvent : option (Context -> CanonicalEvent -> M R unit)
}.

Record dynamicRuleSnapshot : Type := { sn_Rules : list CompiledRule; sn_LoadedAt : Time }.

Record Engine : Type := {
  en_rules : gmap string DetectionRule;
  en_dynamicRules : gmap string dynamicRuleSnapshot;
  en_correlationMemory : MemoryCorrelationStore
}.
#[export] Instance eta_Engine : Eta Engine := fun r => {|
  en_rules := en_rules r; en_dynamicRules := en_dynamicRules r; en_correlationMemory := en_correlationMemory r |}.

(** What the engine runs on: its repository ([e.store]) and its own fields. *)
Record Platform (R : Type) : Type := mkPlatform { pf_store : R; pf_engine : Engine }.
Arguments mkPlatform {R} _ _.
Arguments pf_store {R} _.
Arguments pf_engine {R} _.

Section Lifting.
Context {R : Type}.

Definition on_store {A} (m : M R A) : M (World (Platform R)) A :=
  on_repo (fun p => let '(a, r) := m (pf_store p) in (a, mkPlatform r (pf_engine p))).

Definition on_engine {A} (m : M Engine A) : M (World (Platform R)) A :=
  on_repo (fun p => let '(a, e) := m (pf_engine p) in (a, mkPlatform (pf_store p) e)).

End Lifting.

Definition on_memory {A} (m : M MemoryCorrelationStore A) : M Engine A := fun e =>
  let '(a, c) := m (en_correlationMemory e) in (a, e {{ en_correlationMemory := c }}).

(** [e.rules[id]] *)
Definition builtin_rule (e : Engine) (id : string) : DetectionRule := default zero_DetectionRule (en_rules e !! id).

(** ** Normalisation *)

Definition omit_string (key value : string) : list (string * string) :=
  if value == "" then [] else [(key, json_string value)].
Definition omit_int (key : string) (value : Z) : list (string * string) :=
  if value =? 0 then [] else [(key, Itoa value)].
Definition omit_bool (key : string) (value : bool) : list (string * string) :=
  if value then [(key, "true")] else [].

(** [json.Marshal] of the anonymous struct of [normalize]. *)
Definition raw_payload (input : CanonicalEvent) : string :=
  let source := ev_Source input in let user := ev_User input in
  let device := ev_Device input in let process := ev_Process input in
  json_object [
    ("category", json_string (ev_Category input)); ("activity_name", json_string (ev_ActivityName input));
    ("source", json_object [("vendor", json_string (src_Vendor source)); ("product", json_string (src_Product source));
                            ("type", json_string (src_Type source))]);
    ("user", json_object (omit_string "id" (usr_ID user) ++ omit_string "name" (usr_Name user)
                          ++ omit_bool "is_privileged" (usr_IsPrivileged user)));
    ("device", json_object (omit_string "id" (dev_ID device) ++ omit_string "hostname" (dev_Hostname device)
                            ++ omit_string "ip" (dev_IP device) ++ omit_string "department" (dev_Department device)
                            ++ omit_int "criticality" (dev_Criticality device)));
    ("process", json_object (omit_string "name" (proc_Name process) ++ omit_int "pid" (proc_PID process)
                             ++ omit_string "command_line" (proc_CommandLine process)
                             ++ omit_string "parent_name" (proc_ParentName process)))].

Definition normalize_raw (input : CanonicalEvent) : RawRef :=
  let message := if raw_Message (ev_Raw input) == "" then raw_payload input else raw_Message (ev_Raw input) in
  let hash := "sha256:" +:+ sha256_hex message in
  {| raw_Message := message; raw_Hash := hash;
     raw_Reference := if raw_Reference (ev_Raw input) == ""
                      then "embedded://raw/" +:+ TrimPrefix hash "sha256:" else raw_Reference (ev_Raw input) |}.

Definition default_string (value fallback : string) : string := if value == "" then fallback else value.
Definition default_time (value fallback : Time) : Time := if IsZero value then fallback else value.

(** The defaults [normalize] fills in, at [now], for an event that has an
    identifier. *)
Definition normalize_fields (now : Time) (input : CanonicalEvent) : CanonicalEvent :=
  let input := input {{
    ev_EventTime ::= fun t => default_time t now;
    ev_IngestTime ::= fun t => default_time t now;
    ev_CollectorID ::= fun c => default_string c "collector-http-dev";
    ev_Schema ::= fun s => s {{ sch_OCSFVersion ::= fun v => default_string v "KCSP-OCSF-compatible-v0.1" }};
    ev_Parser ::= fun p => if prs_ID p == "" then {| prs_ID := "embedded-json"; prs_Version := "0.1.0" |} else p }} in
  input {{ ev_Raw := normalize_raw input }}.

Definition normalize_check (tenantID : string) (input : CanonicalEvent) : outcome unit :=
  if TrimSpace tenantID == "" then Err (Wrap "tenant context is required" ErrInvalidEvent)
  else if TrimSpace (ev_Category input) == "" then Err (Wrap "category is required" ErrInvalidEvent)
  else if src_Type (ev_Source input) == "" then Err (Wrap "source.type is required" ErrInvalidEvent)
  else Ok tt.

Section Engine.
Context {R : Type} {repository : PipelineRepository R}.
Context (decode : string -> option sigmaDocument).

#[local] Abbreviation Run := (M (World (Platform R))).

Definition normalize (tenantID : string) (input : CanonicalEvent) : Run CanonicalEvent :=
  do! lift (normalize_check tenantID input) in
  let! now := Now in
  let input := input {{ ev_TenantID := tenantID }} in
  let! id := (if ev_ID input == "" then let! random := Random in ret (NewID "evt" random) else ret (ev_ID input)) in
  ret (normalize_fields now (input {{ ev_ID := id }})).

(** ** Detection *)

Definition observeCorrelation (ctx : Context) (observation : CorrelationObservation) : Run CorrelationEvaluation :=
  match pr_ObserveCorrelation with
  | Some observe_in_store => on_store (observe_in_store ctx observation)
  | None => on_engine (on_memory (ObserveCorrelation ctx observation))
  end.

(** The evaluation; the fields and factors are made by [auth_match]. *)
Definition observeAuthenticationFailure (ctx : Context) (event : CanonicalEvent) : Run CorrelationEvaluation :=
  match auth_observation event with
  | None => ret zero_CorrelationEvaluation
  | Some observation => observeCorrelation ctx observation
  end.

Definition matchThreatIntelligence (ctx : Context) (event : CanonicalEvent) : Run (list detectionMatch) :=
  match pr_MatchThreatIntelEvent with
  | None => ret []
  | Some provider =>
      let! intelligence := on_store (provider ctx event) in
      let! engine := on_engine get in
      ret (List.map (threat_match (builtin_rule engine ThreatIntelRuleID) event) (aggregate_intelligence intelligence))
  end.

Definition matchUEBA (ctx : Context) (event : CanonicalEvent) : Run (list detectionMatch) :=
  match pr_ObserveUEBAEvent with
  | None => ret []
  | Some provider =>
      let! anomaly := on_store (provider ctx event) in
      let! engine := on_engine get in
      ret (match anomaly with
           | None => []
           | Some anomaly => [behavior_match (builtin_rule engine UEBARuleID) event anomaly]
           end)
  end.

Fixpoint compile_contents (contents : list DetectionContent) : outcome (list CompiledRule) :=
  match contents with
  | [] => Ok []
  | content :: rest =>
      match Compile decode content with
      | Ok compiled => let? compiledRules := compile_contents rest in Ok (compiled :: compiledRules)
      | Err e => Err (Wrap ("compile published rule " +:+ dc_RuleID content +:+ "@" +:+ dc_Version content) e)
      | Panic => Panic
      end
  end.

(** A snapshot not older than five seconds. *)
Definition fresh_snapshot (tenantID : string) : Run (option (list CompiledRule)) :=
  let! engine := on_engine get in
  match en_dynamicRules engine !! tenantID with
  | None => ret None
  | Some snapshot =>
      let! now := Now in
      ret (if time_Sub now (sn_LoadedAt snapshot) <? 5 * Second then Some (sn_Rules snapshot) else None)
  end.

Definition rulesForTenant (ctx : Context) (tenantID : string) : Run (list CompiledRule) :=
  match pr_PublishedDetectionContent with
  | None => ret []
  | Some provider =>
      let! snapshot := fresh_snapshot tenantID in
      match snapshot with
      | Some rules => ret rules
      | None =>
          let! contents := on_store (provider ctx tenantID) in
          let! compiledRules := lift (compile_contents contents) in
          let! now := Now in
          do! on_engine (modify (fun e =>
            e {{ en_dynamicRules ::= <[tenantID := {| sn_Rules := compiledRules; sn_LoadedAt := now |}]> }})) in
          ret compiledRules
      end
  end.

(** The two loops of [detect] over the published rules: the plain rules first,
    with the identifiers of those that matched, ... *)
Fixpoint sigma_matches (engine : Engine) (event : CanonicalEvent) (rules : list CompiledRule) : list detectionMatch :=
  match rules with
  | [] => []
  | compiled :: rest =>
      match en_rules engine !! dr_ID (cr_Rule compiled) with
      | Some _ => sigma_matches engine event rest
      | None =>
          if IsCorrelation (Some compiled) then sigma_matches engine event rest
          else
            let '(matched, fields) := Evaluate compiled event in
            if matched then sigma_match (cr_Rule compiled) event fields :: sigma_matches engine event rest
            else sigma_matches engine event rest
      end
  end.

(** ... then the correlations over them. *)
Definition correlation_observation (event : CanonicalEvent) (matchedRuleIDs : gset string) (compiled : CompiledRule)
    (spec : CorrelationSpec) : option CorrelationObservation :=
  match filter (fun id => id ∈ matchedRuleIDs) (cs_Rules spec) with
  | [] => None
  | matchedSources =>
      match CorrelationGroup event (cs_GroupBy spec) with
      | None => None
      | Some groupKey =>
          match (if cs_Type spec == CorrelationValueCount then CorrelationValue event (cs_ValueField spec) else Some "") with
          | None => None
          | Some value =>
              Some {| co_TenantID := ev_TenantID event; co_RuleID := dr_ID (cr_Rule compiled);
                      co_RuleVersion := dr_Version (cr_Rule compiled); co_GroupKey := groupKey;
                      co_SourceRuleIDs := matchedSources; co_EventID := ev_ID event;
                      co_EventTime := ev_EventTime event; co_Value := value; co_Spec := spec |}
          end
      end
  end.

Definition correlate_rule (ctx : Context) (event : CanonicalEvent) (matchedRuleIDs : gset string)
    (matches : list detectionMatch) (compiled : CompiledRule) : Run (list detectionMatch) :=
  match rule_correlation (Some compiled) with
  | None => ret matches
  | Some spec =>
      match correlation_observation event matchedRuleIDs compiled spec with
      | None => ret matches
      | Some observation =>
          let! correlated := wrapping ("evaluate correlation rule " +:+ dr_ID (cr_Rule compiled))
                               (observeCorrelation ctx observation) in
          if negb (ce_Triggered correlated) then ret matches
          else ret (matches ++ [correlation_match (cr_Rule compiled) spec event correlated])
      end
  end.

Definition match_ids (matches : list detectionMatch) : gset string :=
  list_to_set (List.map (fun m => dr_ID (dm_Rule m)) matches).

Definition detect (ctx : Context) (event : CanonicalEvent) : Run (list detectionMatch) :=
  let! engine := on_engine get in
  let powershell := powershell_match (builtin_rule engine PowerShellRuleID) event in
  let matchedRuleIDs : gset string := match powershell with [] => ∅ | _ => {[PowerShellRuleID]} end in
  let! threshold := wrapping "evaluate authentication threshold" (observeAuthenticationFailure ctx event) in
  let auth := if ce_Triggered threshold then [auth_match (builtin_rule engine AuthRuleID) event threshold] else [] in
  let! threatMatches := wrapping "evaluate threat intelligence" (matchThreatIntelligence ctx event) in
  let! behaviorMatch := wrapping "evaluate behavior baseline" (matchUEBA ctx event) in
  let! dynamicRules := wrapping "load published detection content" (rulesForTenant ctx (ev_TenantID event)) in
  let sigma := sigma_matches engine event dynamicRules in
  foldM (correlate_rule ctx event (matchedRuleIDs ∪ match_ids sigma))
    (powershell ++ auth ++ threatMatches ++ behaviorMatch ++ sigma) dynamicRules.

(** ** Findings, alerts, ingestion *)

Definition makeFinding (event : CanonicalEvent) (m : detectionMatch) : Run Finding :=
  let! random := Random in
  let! now := Now in
  ret (finding_of random now event m).

Definition makeAlert (event : CanonicalEvent) (finding : Finding) (correlatedEventIDs : list string)
    (dedupDiscriminator : string) : Run (Alert * string) :=
  let! now := Now in
  let! random := Random in
  ret (alert_of random now event finding correlatedEventIDs, dedup_key finding (alert_entity event) dedupDiscriminator).

Definition audit_metadata (event : CanonicalEvent) (finding : Finding) (m : detectionMatch) : gmap string GoValue :=
  let metadata : gmap string GoValue := list_to_map [("event_id", VString (ev_ID event));
    ("rule_id", VString (rr_ID (fi_Rule finding))); ("risk_score", VInt (fi_RiskScore finding))] in
  let metadata := if (dr_ID (dm_Rule m) == ThreatIntelRuleID) && (dm_ReferenceID m != "")
                  then <["threat_indicator_id" := VString (dm_ReferenceID m)]> metadata else metadata in
  if (dr_ID (dm_Rule m) == UEBARuleID) && (dm_ReferenceID m != "")
  then <["ueba_anomaly_id" := VString (dm_ReferenceID m)]> metadata else metadata.

(** The body of the loop of [Ingest] over the matches. *)
Definition ingest_match (ctx : Context) (tenantID : string) (result : IngestResult) (m : detectionMatch) : Run IngestResult :=
  let stored := ir_Event result in
  let! finding := makeFinding stored m in
  do! wrapping "persist finding" (on_store (pr_PutFinding ctx finding)) in
  let result := result {{ ir_Findings ::= fun l => l ++ [finding] }} in
  let! (candidate, dedupKey) := makeAlert stored finding (dm_EventIDs m) (dm_DedupDiscriminator m) in
  let! (alert, created) := wrapping "persist alert" (on_store (pr_UpsertAlert ctx candidate dedupKey (15 * Minute))) in
  let result := result {{ ir_Alerts ::= fun l => l ++ [alert] }} in
  let! random := Random in
  let! now := Now in
  do! wrapping "append detection audit" (on_store (pr_AppendAudit ctx random now (zero_AuditEntry {{
    au_TenantID := tenantID; au_Actor := "system:detection-engine";
    au_Action := if created : bool then "alert.created" else "alert.updated";
    au_ResourceType := "alert"; au_ResourceID := al_ID alert; au_Outcome := "success";
    au_Metadata := Some (audit_metadata stored finding m) }}))) in
  ret result.

Definition ingest_result (event : CanonicalEvent) (duplicate : bool) : IngestResult :=
  {| ir_Event := event; ir_Findings := []; ir_Alerts := []; ir_Duplicate := duplicate |}.

Definition Ingest (ctx : Context) (tenantID : string) (input : CanonicalEvent) : Run IngestResult :=
  let! event := normalize tenantID input in
  let! (stored, duplicate) := wrapping "persist canonical event" (on_store (pr_PutEvent ctx event)) in
  do! (match pr_ObserveEntityEvent with
       | Some observer => wrapping "project entity graph" (on_store (observer ctx stored))
       | None => ret tt
       end) in
  if duplicate : bool then ret (ingest_result stored true)
  else
    let! matches := detect ctx stored in
    foldM (ingest_match ctx tenantID) (ingest_result stored false) matches.

Definition NewEngine (ctx : Context) (store : R) (rt : Runtime) : outcome Engine * World R :=
  (let! now := Now in
   do! wrapping "publish built-in detection rules" (on_repo (pr_SetRules ctx (builtin_rules now))) in
   ret {| en_rules := list_to_map (List.map (fun rule => (dr_ID rule, rule)) (builtin_rules now));
          en_dynamicRules := ∅; en_correlationMemory := NewMemoryCorrelationStore |}) (mkWorld store rt).

End Engine.

Definition ResetTenant (tenantID : string) (e : Engine) : Engine :=
  e {{ en_dynamicRules ::= delete tenantID; en_correlationMemory ::= Correlation.ResetTenant tenantID }}.

(** ** The in-memory repository as the engine's port

    Of the optional interfaces it has the entity observer, which leaves
    [Memory] as it is (its tables of entities are not part of it).  Published
    content comes from a provider that only reads. *)

Definition ContentProvider : Type := Context -> string -> Memory -> outcome (list DetectionContent).

Definition memory_with (content : option ContentProvider) : PipelineRepository Memory := {|
  pr_SetRules := repo_SetRules;
  pr_PutEvent := repo_PutEvent;
  pr_PutFinding := repo_PutFinding;
  pr_UpsertAlert := repo_UpsertAlert;
  pr_AppendAudit := repo_AppendAudit;
  pr_PublishedDetectionContent := option_map (fun provider ctx t => gets_outcome (provider ctx t)) content;
  pr_ObserveCorrelation := None;
  pr_MatchThreatIntelEvent := None;
  pr_ObserveUEBAEvent := None;
  pr_ObserveEntityEvent := Some (fun ctx _ => check_ctx ctx)
|}.

#[export] Instance memory_pipeline_repository : PipelineRepository Memory := memory_with None.
