(* ===== verification/PipelineFacts.v ===== *)
(** * Lemmas on the pipeline: what its statements do to store and engine

    Every statement of the pipeline over the in-memory repository runs a
    sequence of admissible store operations of one tenant; the relation
    [acts_for] says so and is a preorder, so that loops and sequences inherit
    it. *)

From S2P Require Import Prelude GoLang GoFormat Core TenantId MemoryStore MemoryFacts MemorySystem StoreSpec.
From S2P Require Import DetectionModel SigmaRule SigmaCompile Correlation CorrelationFacts CorrelationProps.
From S2P Require Import PipelineRules Pipeline.

(** ** Findings and alerts are well formed *)

Section Records.

Lemma clamp_risk_bounds risk : 0 <= clamp_risk risk <= 100.
Proof. unfold clamp_risk. repeat case_match; lia. Qed.

Lemma distinct_event_ids_NoDup seen ids :
  NoDup (distinct_event_ids seen ids) /\ Forall (fun id => id ∉ seen) (distinct_event_ids seen ids).
Proof.
  revert seen. induction ids as [|id ids IH]; intros seen; cbn; [by split; constructor|].
  destruct ((id != "") && _) eqn:E; [|apply IH].
  apply andb_true_iff in E as [_ E]. apply negb_true_iff, bool_decide_eq_false in E.
  destruct (IH ({[id]} ∪ seen)) as [N F]. rewrite Forall_forall in F. split.
  - constructor; [|done]. intros I. apply F in I. set_solver.
  - constructor; [done|]. apply Forall_forall. intros x X. apply F in X. set_solver.
Qed.

Lemma alert_event_ids_NoDup event ids : NoDup (alert_event_ids event ids).
Proof.
  unfold alert_event_ids. assert (N := distinct_event_ids_NoDup ∅ ids).
  destruct (distinct_event_ids ∅ ids); [apply NoDup_singleton|apply N].
Qed.

(** A finding as the pipeline makes it. *)
Definition finding_ok (f : Finding) : Prop :=
  0 <= fi_RiskScore f <= 100 /\ fi_Severity f = SeverityFromRisk (fi_RiskScore f) /\
  fi_RiskScore f = clamp_risk (total_risk (fi_RiskBreakdown f)).

Lemma finding_of_ok random now event m : finding_ok (finding_of random now event m).
Proof. split_and!; cbn; [apply clamp_risk_bounds..|done|done]. Qed.

Lemma alert_of_ok random now event finding ids :
  finding_ok finding -> alert_ok (alert_of random now event finding ids).
Proof.
  intros (B & S & _). constructor; cbn; try done; [apply alert_event_ids_NoDup|apply NoDup_singleton].
Qed.

End Records.

(** ** What the statements do *)

Fixpoint admissible_run (ops : list op) (m : Memory) : Prop :=
  match ops with
  | [] => True
  | o :: rest => admissible o m /\ admissible_run rest (exec o m)
  end.

Lemma run_app ops1 ops2 m : run (ops1 ++ ops2) m = run ops2 (run ops1 m).
Proof. apply fold_left_app. Qed.

Lemma admissible_run_app ops1 ops2 m :
  admissible_run (ops1 ++ ops2) m <-> admissible_run ops1 m /\ admissible_run ops2 (run ops1 m).
Proof. revert m. induction ops1 as [|o ops1 IH]; intros m; cbn; [tauto|]. rewrite IH. tauto. Qed.

Lemma admissible_run_steps ops m : admissible_run ops m -> rtc step m (run ops m).
Proof.
  revert m. induction ops as [|o ops IH]; intros m; cbn; [intros; apply rtc_refl|].
  intros [A B]. eapply rtc_l; [by constructor|]. by apply IH.
Qed.

Lemma run_view_other t u ops m :
  Forall (fun o => op_tenant o = Some t) ops -> no_bar t = true -> no_bar u = true -> t <> u ->
  tenant_view u (run ops m) = tenant_view u m.
Proof.
  intros F Bt Bu N. revert m. induction F as [|o ops O F IH]; intros m; [done|]. cbn.
  change (tenant_view u (run ops (exec o m)) = tenant_view u m). rewrite IH. by apply (exec_view_other o m t u).
Qed.

Definition PipelineWorld : Type := World (Platform Memory).
Definition world_store (w : PipelineWorld) : Memory := pf_store (w_repo w).
Definition world_correlation (w : PipelineWorld) : MemoryCorrelationStore := en_correlationMemory (pf_engine (w_repo w)).

(** No alert carries an identifier that will still be drawn, and no identifier
    is drawn twice. *)
Definition fresh_ids (w : PipelineWorld) : Prop :=
  Inj (=) (=) (rt_random (w_rt w)) /\
  forall n t, (rt_draws (w_rt w) <= n)%nat ->
    lookup2 (m_alerts (world_store w)) t (NewID "alt" (rt_random (w_rt w) n)) = None.

Record acts_for (t : string) (w w' : PipelineWorld) : Prop := {
  acts_random : rt_random (w_rt w') = rt_random (w_rt w);
  acts_draws : (rt_draws (w_rt w) <= rt_draws (w_rt w'))%nat;
  acts_ops : exists ops, world_store w' = run ops (world_store w) /\ Forall (fun o => op_tenant o = Some t) ops /\
    (fresh_ids w -> admissible_run ops (world_store w) /\ fresh_ids w');
  acts_events : forall u i e, lookup2 (m_events (world_store w)) u i = Some e -> lookup2 (m_events (world_store w')) u i = Some e;
  acts_correlation : forall u, TenantId.Valid u = true -> u <> t -> same_for u (world_correlation w) (world_correlation w')
}.

Lemma same_for_refl t m : same_for t m m.
Proof. done. Qed.

Lemma same_for_trans t m1 m2 m3 : same_for t m1 m2 -> same_for t m2 m3 -> same_for t m1 m3.
Proof. intros A B key K. destruct (A key K) as [A1 A2], (B key K) as [B1 B2]. split; [congruence|tauto]. Qed.

#[export] Instance acts_for_preorder t : PreOrder (acts_for t).
Proof.
  split.
  - intros w. split; [done|lia|exists []; by split_and!; [..|]|done|done].
  - intros w1 w2 w3 [R1 D1 (ops1 & E1 & F1 & A1) V1 C1] [R2 D2 (ops2 & E2 & F2 & A2) V2 C2]. split.
    + congruence.
    + lia.
    + exists (ops1 ++ ops2). rewrite run_app, <- E1. split_and!; [done|by apply Forall_app|].
      intros Fr. destruct (A1 Fr) as [Ad1 Fr2]. destruct (A2 Fr2) as [Ad2 Fr3].
      split; [|done]. apply admissible_run_app. by rewrite <- E1.
    + auto.
    + intros u V N. eapply same_for_trans; eauto.
Qed.

(** A statement that leaves the store and the correlations alone. *)
Lemma acts_for_runtime t w w' :
  world_store w' = world_store w -> world_correlation w' = world_correlation w ->
  rt_random (w_rt w') = rt_random (w_rt w) -> (rt_draws (w_rt w) <= rt_draws (w_rt w'))%nat ->
  acts_for t w w'.
Proof.
  intros S C R D. split; [done..| |by rewrite S|by rewrite C].
  exists []. split_and!; [done..|]. intros [I F]. split; [done|]. split; [by rewrite R|].
  intros n u L. rewrite S, R. apply F. lia.
Qed.

(** One admissible operation that keeps the identifiers fresh. *)
Lemma acts_for_op t o w w' :
  world_store w' = exec o (world_store w) -> world_correlation w' = world_correlation w -> w_rt w' = w_rt w ->
  op_tenant o = Some t ->
  (forall u i e, lookup2 (m_events (world_store w)) u i = Some e -> lookup2 (m_events (world_store w')) u i = Some e) ->
  (fresh_ids w -> admissible o (world_store w) /\ fresh_ids w') -> acts_for t w w'.
Proof.
  intros S C R O V F. split; [by rewrite R..| |exact V|by rewrite C]. exists [o]. split_and!; [done|by constructor|].
  intros Fr. destruct (F Fr). by split_and!; [split|].
Qed.

(** No operation of the pipeline brings an alert into being, [UpsertAlert]
    apart. *)
Lemma ensure_no_alert t m u i :
  lookup2 (m_alerts m) u i = None -> lookup2 (m_alerts (ensureTenantLocked t m)) u i = None.
Proof.
  intros L. unfold ensureTenantLocked. destruct (m_events m !! t); [done|]. cbn.
  unfold lookup2, tenant_map in *. destruct (decide (t = u)) as [->|N].
  - by rewrite lookup_insert_eq.
  - by rewrite lookup_insert_ne.
Qed.

Lemma PutEvent_no_alert e m u i :
  lookup2 (m_alerts m) u i = None -> lookup2 (m_alerts (PutEvent e m).2) u i = None.
Proof. intros L. apply (ensure_no_alert (ev_TenantID e)) in L. unfold PutEvent. by case_match. Qed.

Lemma PutFinding_no_alert f m u i :
  lookup2 (m_alerts m) u i = None -> lookup2 (m_alerts (PutFinding f m)) u i = None.
Proof. intros L. apply (ensure_no_alert (fi_TenantID f)) in L. unfold PutFinding. by case_match. Qed.

Lemma UpsertAlert_no_alert c k window m u i :
  lookup2 (m_alerts m) u i = None -> i <> al_ID c -> lookup2 (m_alerts (UpsertAlert c k window m).2) u i = None.
Proof.
  intros L N. apply (ensure_no_alert (al_TenantID c)) in L. unfold UpsertAlert.
  destruct (mergeable _ _ _ _) as [[j e]|] eqn:M; cbn; rewrite lookup2_put2; case_decide as D; try done.
  - apply mergeable_Some in M as (_ & _ & M & _). injection D as E1 E2. subst. congruence.
  - congruence.
Qed.

Lemma ensure_event t m u i e :
  lookup2 (m_events m) u i = Some e -> lookup2 (m_events (ensureTenantLocked t m)) u i = Some e.
Proof.
  intros L. unfold ensureTenantLocked. destruct (m_events m !! t) eqn:E; [done|]. cbn.
  unfold lookup2, tenant_map in *. destruct (decide (t = u)) as [->|N].
  - by rewrite E in L.
  - by rewrite lookup_insert_ne.
Qed.

Lemma PutEvent_event e m u i e' :
  lookup2 (m_events m) u i = Some e' -> lookup2 (m_events (PutEvent e m).2) u i = Some e'.
Proof.
  intros L. apply (ensure_event (ev_TenantID e)) in L. unfold PutEvent.
  destruct (lookup2 (m_events (ensureTenantLocked _ _)) (ev_TenantID e) _) eqn:E; [done|]. cbn. rewrite lookup2_put2.
  case_decide as D; [|done]. injection D as E1 E2. subst. congruence.
Qed.

Lemma PutFinding_event f m u i e :
  lookup2 (m_events m) u i = Some e -> lookup2 (m_events (PutFinding f m)) u i = Some e.
Proof. intros L. apply (ensure_event (fi_TenantID f)) in L. unfold PutFinding. by case_match. Qed.

Lemma UpsertAlert_event c k window m u i e :
  lookup2 (m_events m) u i = Some e -> lookup2 (m_events (UpsertAlert c k window m).2) u i = Some e.
Proof.
  intros L. apply (ensure_event (al_TenantID c)) in L. unfold UpsertAlert. by destruct (mergeable _ _ _ _) as [[]|].
Qed.

Lemma AppendAudit_events r now e m : m_events (AppendAudit r now e m).2 = m_events m.
Proof. unfold AppendAudit, appendAuditLocked. by destruct (au_ID e == ""), (IsZero (au_CreatedAt e)). Qed.

Lemma AppendAudit_alerts r now e m : m_alerts (AppendAudit r now e m).2 = m_alerts m.
Proof. unfold AppendAudit, appendAuditLocked. by destruct (au_ID e == ""), (IsZero (au_CreatedAt e)). Qed.

Lemma fresh_ids_no_alert w w' :
  w_rt w' = w_rt w ->
  (forall t i, lookup2 (m_alerts (world_store w)) t i = None -> lookup2 (m_alerts (world_store w')) t i = None) ->
  fresh_ids w -> fresh_ids w'.
Proof. intros R A [I F]. split; rewrite R; [done|]. intros n t L. by apply A, F. Qed.

(** ** Statements of the pipeline *)

Section Statements.
Context (content : option ContentProvider) (decode : string -> option sigmaDocument) (t : string).
#[local] Instance port : PipelineRepository Memory := memory_with content.
#[local] Abbreviation Run := (M PipelineWorld).
#[local] Abbreviation acts := (evolves (acts_for t)).

Lemma acts_Now : acts Now.
Proof. intros w. by apply acts_for_runtime. Qed.

Lemma acts_Random : acts Random.
Proof. intros w. apply acts_for_runtime; cbn; try done. lia. Qed.

Lemma acts_get_engine : acts (on_engine get).
Proof. intros [[store engine] rt]. by apply acts_for_runtime. Qed.

Lemma acts_cache tenantID snapshot :
  acts (on_engine (modify (fun e => e {{ en_dynamicRules ::= <[tenantID := snapshot]> }}))).
Proof. intros [[store engine] rt]. by apply acts_for_runtime. Qed.

Lemma acts_lift {A} (o : outcome A) : acts (lift o).
Proof. intros w. reflexivity. Qed.

Lemma acts_check ctx : acts (on_store (check_ctx ctx)).
Proof. intros [[store engine] rt]. unfold check_ctx. by destruct ctx; apply acts_for_runtime. Qed.

Lemma acts_provider {A} (f : Memory -> outcome A) : acts (on_store (gets_outcome f)).
Proof. intros [[store engine] rt]. by apply acts_for_runtime. Qed.

Lemma acts_PutEvent ctx event : ev_TenantID event = t -> acts (on_store (repo_PutEvent ctx event)).
Proof.
  intros T [[store engine] rt]. unfold repo_PutEvent, check_ctx, on_store, on_repo, bind, state, fail, ret.
  destruct ctx as [e|]; [by apply acts_for_runtime|]. cbn.
  assert (A := PutEvent_no_alert event store). assert (V := PutEvent_event event store). destruct (PutEvent event store) as [answer store'] eqn:E. cbn in *.
  apply (acts_for_op _ (OpPutEvent event)); cbn; unfold world_store; cbn; [by rewrite E|done|done|congruence|exact V|].
  intros F. split; [done|]. refine (fresh_ids_no_alert _ _ _ _ F); [done|]. intros u i L. by apply A.
Qed.

Lemma acts_PutFinding ctx finding : fi_TenantID finding = t -> acts (on_store (repo_PutFinding ctx finding)).
Proof.
  intros T [[store engine] rt]. unfold repo_PutFinding, check_ctx, on_store, on_repo, bind, modify, fail, ret.
  destruct ctx as [e|]; [by apply acts_for_runtime|]. cbn.
  apply (acts_for_op _ (OpPutFinding finding)); cbn; unfold world_store; cbn; [done..|congruence|apply PutFinding_event|].
  intros F. split; [done|]. refine (fresh_ids_no_alert _ _ _ _ F); [done|]. intros u i L.
  by apply PutFinding_no_alert.
Qed.

Lemma acts_AppendAudit ctx r now entry : au_TenantID entry = t -> acts (on_store (repo_AppendAudit ctx r now entry)).
Proof.
  intros T [[store engine] rt]. unfold repo_AppendAudit, check_ctx, on_store, on_repo, bind, state, fail, ret.
  destruct ctx as [e|]; [by apply acts_for_runtime|]. cbn -[AppendAudit].
  assert (A := AppendAudit_alerts r now entry store). assert (V := AppendAudit_events r now entry store).
  destruct (AppendAudit r now entry store) as [answer store'] eqn:E. cbn in A, V |- *.
  apply (acts_for_op _ (OpAppendAudit r now entry)); [exact (eq_sym (f_equal snd E))|done|done|by rewrite <- T|unfold world_store; cbn; by rewrite V|].
  intros F. split; [done|]. refine (fresh_ids_no_alert _ _ _ _ F); [done|]. intros u i L.
  unfold world_store in *. cbn in *. by rewrite A.
Qed.

(** The call of [UpsertAlert] with the alert [makeAlert] has just named, seen
    from before the name was drawn. *)
Lemma acts_upsert_new ctx event finding ids dedupKey window (w : PipelineWorld) (now := rt_clock (w_rt w) (rt_ticks (w_rt w))) :
  ev_TenantID event = t -> no_bar t = true -> finding_ok finding ->
  let candidate := alert_of (rt_random (w_rt w) (rt_draws (w_rt w))) now event finding ids in
  acts_for t w (on_store (repo_UpsertAlert ctx candidate dedupKey window) (Random (Now w).2).2).2.
Proof.
  intros T Bt Fok candidate. destruct w as [[store engine] rt]. cbn in now.
  unfold repo_UpsertAlert, check_ctx, on_store, on_repo, bind, state, fail, ret.
  destruct ctx as [e|]; [apply acts_for_runtime; cbn; try done; lia|]. cbn.
  assert (V := UpsertAlert_event candidate dedupKey window store).
  destruct (UpsertAlert candidate dedupKey window store) as [answer store'] eqn:E. cbn in V |- *.
  split; cbn; [done|lia| |exact V|done].
  exists [OpUpsertAlert candidate dedupKey window]. unfold world_store; cbn. rewrite E. split_and!; [done|by constructor; [cbn; rewrite T|]|].
  intros [I F]. unfold world_store in F. cbn in *. assert (Fresh := F (rt_draws rt) t ltac:(lia)).
  split; [split; [|done]; rewrite T; split_and!; [done|by apply alert_of_ok|exact Fresh]|].
  split; [done|]. intros n u L. cbn in *. unfold world_store. cbn.
  replace store' with (UpsertAlert candidate dedupKey window store).2 by by rewrite E.
  apply UpsertAlert_no_alert; [apply F; lia|]. intros K.
  apply (NewID_inj "alt"), I in K. cbn in K. lia.
Qed.

Lemma acts_alert ctx event finding ids discriminator window {B} (k : Alert -> string -> Alert * bool -> Run B) :
  ev_TenantID event = t -> no_bar t = true -> finding_ok finding -> (forall c key a, acts (k c key a)) ->
  acts (bind (makeAlert event finding ids discriminator) (fun '(candidate, dedupKey) =>
        bind (wrapping "persist alert" (on_store (repo_UpsertAlert ctx candidate dedupKey window))) (k candidate dedupKey))).
Proof.
  intros T Bt Fok K w. unfold makeAlert. unfold bind at 1 2 3, Now at 1, Random at 1, ret at 1. cbn.
  set (candidate := alert_of _ _ _ _ _). set (key := dedup_key _ _ _).
  assert (A := acts_upsert_new ctx event finding ids key window w T Bt Fok). cbn in A. fold candidate in A.
  unfold Now, Random in A. cbn in A. unfold bind, wrapping.
  destruct (on_store _ _) as [[answer|e|] w1]; [|exact A..].
  etransitivity; [exact A|apply K].
Qed.

#[local] Hint Resolve acts_Now acts_Random acts_get_engine acts_cache acts_lift acts_check acts_provider : evolves.

Lemma acts_observe ctx observation : TenantId.Valid t = true -> co_TenantID observation = t ->
  acts (observeCorrelation ctx observation).
Proof.
  intros V T [[store engine] rt]. unfold observeCorrelation. cbn.
  unfold on_engine, on_memory, on_repo. cbn.
  assert (S : forall u, TenantId.Valid u = true -> u <> t ->
    same_for u (en_correlationMemory engine) (ObserveCorrelation ctx observation (en_correlationMemory engine)).2).
  { intros u Vu N. apply ObserveCorrelation_same_for; [done|by rewrite T..]. }
  destruct (ObserveCorrelation _ _ _) as [answer m]. cbn in S.
  split; cbn; [done|lia| |done|done]. exists []. by split_and!.
Qed.

Lemma auth_observation_tenant event observation :
  auth_observation event = Some observation -> co_TenantID observation = ev_TenantID event.
Proof. unfold auth_observation. repeat case_match; try done. by intros [= <-]. Qed.

Lemma correlation_observation_tenant event ids compiled spec observation :
  correlation_observation event ids compiled spec = Some observation -> co_TenantID observation = ev_TenantID event.
Proof. unfold correlation_observation. repeat case_match; try done; by intros [= <-]. Qed.

Lemma acts_rulesForTenant ctx tenantID : acts (rulesForTenant decode ctx tenantID).
Proof.
  unfold rulesForTenant. cbn. destruct content as [provider|]; cbn; [|apply (evolves_ret _)].
  apply (evolves_bind _).
  - unfold fresh_snapshot. apply (evolves_bind _); [apply acts_get_engine|]. intros engine.
    case_match; [|apply (evolves_ret _)]. apply (evolves_bind _); [apply acts_Now|intros; apply (evolves_ret _)].
  - intros [rules|]; [apply (evolves_ret _)|]. apply (evolves_bind _); [apply acts_provider|]. intros contents.
    apply (evolves_bind _); [apply acts_lift|]. intros compiled. apply (evolves_bind _); [apply acts_Now|]. intros now.
    apply (evolves_bind _); [apply acts_cache|intros; apply (evolves_ret _)].
Qed.

Lemma acts_detect ctx event : TenantId.Valid t = true -> ev_TenantID event = t -> acts (detect decode ctx event).
Proof.
  intros V T. unfold detect. apply (evolves_bind _); [apply acts_get_engine|]. intros engine.
  apply (evolves_bind _).
  { apply (evolves_wrapping _). unfold observeAuthenticationFailure.
    destruct (auth_observation event) eqn:E; [|apply (evolves_ret _)].
    apply acts_observe; [done|]. rewrite <- T. by apply auth_observation_tenant. }
  intros threshold. apply (evolves_bind _); [apply (evolves_wrapping _), (evolves_ret _)|]. intros threats.
  apply (evolves_bind _); [apply (evolves_wrapping _), (evolves_ret _)|]. intros behavior.
  apply (evolves_bind _); [apply (evolves_wrapping _), acts_rulesForTenant|]. intros rules.
  apply (evolves_foldM _). intros matches compiled. unfold correlate_rule.
  destruct (rule_correlation _) as [spec|]; [|apply (evolves_ret _)].
  destruct (correlation_observation _ _ _ _) eqn:E; [|apply (evolves_ret _)].
  apply (evolves_bind _).
  - apply (evolves_wrapping _), acts_observe; [done|]. rewrite <- T. by eapply correlation_observation_tenant.
  - intros correlated. apply evolves_if; apply (evolves_ret _).
Qed.

Lemma makeFinding_Ok event m (w : PipelineWorld) finding w' :
  makeFinding event m w = (Ok finding, w') -> finding_ok finding /\ fi_TenantID finding = ev_TenantID event.
Proof. unfold makeFinding, bind, Random, Now, ret. intros [= <- _]. split; [apply finding_of_ok|done]. Qed.

Lemma acts_ingest_match ctx result m : TenantId.Valid t = true -> ev_TenantID (ir_Event result) = t ->
  acts (ingest_match ctx t result m).
Proof.
  intros V T. unfold ingest_match.
  apply (evolves_bind_post _ (fun finding => finding_ok finding /\ fi_TenantID finding = t)).
  { unfold makeFinding. apply (evolves_bind _); [apply acts_Random|]. intros r.
    apply (evolves_bind _); [apply acts_Now|intros; apply (evolves_ret _)]. }
  { intros w finding w' E. apply makeFinding_Ok in E as [? ?]. split; congruence. }
  intros finding [Fok Ft]. apply (evolves_bind _); [by apply (evolves_wrapping _), acts_PutFinding|]. intros _.
  apply acts_alert; [done|by apply Valid_no_bar|done|]. intros candidate key [alert created]. cbn.
  apply (evolves_bind _); [apply acts_Random|]. intros r. apply (evolves_bind _); [apply acts_Now|]. intros now.
  apply (evolves_bind _); [by apply (evolves_wrapping _), acts_AppendAudit|intros; apply (evolves_ret _)].
Qed.

Lemma ingest_match_event ctx result m w result' w' :
  ingest_match ctx t result m w = (Ok result', w') -> ir_Event result' = ir_Event result.
Proof.
  unfold ingest_match. intros H. apply bind_Ok in H as (finding & ? & _ & H).
  apply bind_Ok in H as (? & ? & _ & H). apply bind_Ok in H as ([c key] & ? & _ & H).
  apply bind_Ok in H as ([alert created] & ? & _ & H). do 3 apply bind_Ok in H as (? & ? & _ & H).
  by injection H as <- _.
Qed.

Lemma PutEvent_new_event ctx event w stored w' :
  on_store (repo_PutEvent ctx event) w = (Ok (stored, false), w') -> stored = event.
Proof.
  destruct w as [[store engine] rt]. unfold repo_PutEvent, check_ctx, on_store, on_repo, bind, state, fail, ret.
  destruct ctx; [done|]. cbn. unfold PutEvent.
  destruct (lookup2 _ _ _); intros E; by simplify_eq.
Qed.

Lemma normalize_tenant tenantID input (w : PipelineWorld) event w' :
  normalize tenantID input w = (Ok event, w') -> ev_TenantID event = tenantID.
Proof.
  unfold normalize. intros H. do 3 apply bind_Ok in H as (? & ? & _ & H). by injection H as <- _.
Qed.

Lemma acts_normalize input : acts (normalize t input).
Proof.
  unfold normalize. apply (evolves_bind _); [apply acts_lift|]. intros _. apply (evolves_bind _); [apply acts_Now|].
  intros now. apply (evolves_bind _); [|intros; apply (evolves_ret _)].
  apply evolves_if; [|apply (evolves_ret _)].
  apply (evolves_bind _); [apply acts_Random|intros; apply (evolves_ret _)].
Qed.

Lemma acts_Ingest ctx input : TenantId.Valid t = true -> acts (Ingest decode ctx t input).
Proof.
  intros V. unfold Ingest.
  apply (evolves_bind_post _ (fun event => ev_TenantID event = t)); [apply acts_normalize|apply normalize_tenant|].
  intros event T.
  apply (evolves_bind_post _ (fun '(stored, duplicate) => duplicate = false -> ev_TenantID stored = t)).
  { by apply (evolves_wrapping _), acts_PutEvent. }
  { intros w [stored duplicate] w' E. apply wrapping_Ok in E. intros ->. by apply PutEvent_new_event in E as ->. }
  intros [stored duplicate] Ts. cbn.
  apply (evolves_bind _); [apply (evolves_wrapping _), acts_check|]. intros _.
  destruct duplicate; [apply (evolves_ret _)|].
  apply (evolves_bind _); [apply acts_detect; auto|]. intros matches.
  apply (evolves_foldM_inv _ (fun result => ev_TenantID (ir_Event result) = t)); [by apply Ts|by intros; apply acts_ingest_match|].
  intros result m w result' w' I E. by apply ingest_match_event in E as ->.
Qed.

End Statements.
