(* ===== verification/PipelineProps.v ===== *)
(** * Properties of the detection pipeline

    Ingestion performs admissible operations of one tenant only; an event is
    detected at most once; findings and alerts of a result agree; detection
    finds what the published rules match and nothing else; the authentication
    threshold fires at the fifth failure of its window. *)

From S2P Require Import Prelude GoLang GoFormat Core TenantId MemoryStore MemoryFacts MemorySystem StoreSpec.
From S2P Require Import DetectionModel SigmaRule SigmaCompile Correlation CorrelationFacts CorrelationProps.
From S2P Require Import PipelineRules Pipeline PipelineFacts.

(** ** The store and the other tenants *)

(** C35. Whatever an ingestion answers, it moves the store along admissible
    operations, so that every invariant of the reachable stores holds
    afterwards, it leaves fresh what was fresh, and it changes neither the
    store nor the correlation memory of any other tenant. *)
Theorem ingest_preserves_platform content decode ctx t input (w : PipelineWorld)
    (w' := (Ingest (repository := memory_with content) decode ctx t input w).2)
    (T : TenantId.Valid t = true) (R : reachable (world_store w)) (F : fresh_ids w) :
  reachable (world_store w') /\ fresh_ids w' /\
  forall u, TenantId.Valid u = true -> u <> t ->
    tenant_view u (world_store w') = tenant_view u (world_store w) /\
    same_for u (world_correlation w) (world_correlation w').
Proof.
  destruct (acts_Ingest content decode t ctx input T w) as [_ _ (ops & E & O & A) _ C].
  change (world_store w' = run ops (world_store w)) in E. destruct (A F) as [Ad F']. split_and!.
  - unfold reachable. etransitivity; [exact R|]. rewrite E. by apply admissible_run_steps.
  - exact F'.
  - intros u U N. split; [|by apply C]. rewrite E. apply (run_view_other t u); [done|by apply Valid_no_bar..|congruence].
Qed.

(** ** At most one detection of an event *)

Section Redelivery.
Context (decode : string -> option sigmaDocument) (t : string).

Lemma normalize_Ok input (w : PipelineWorld) :
  normalize_check t input = Ok tt -> ev_ID input <> "" ->
  exists event w1, normalize t input w = (Ok event, w1) /\ w_repo w1 = w_repo w /\ ev_ID event = ev_ID input /\ ev_TenantID event = t.
Proof.
  intros C N. unfold normalize. rewrite C. unfold lift, bind at 1, bind at 1, Now, bind at 1.
  rewrite bool_decide_false by done. cbn. eexists _, _. by split_and!.
Qed.

Lemma PutEvent_stored event m stored :
  lookup2 (m_events m) (ev_TenantID event) (ev_ID event) = Some stored -> PutEvent event m = (stored, true, m).
Proof.
  intros L. unfold PutEvent.
  assert (S : ensureTenantLocked (ev_TenantID event) m = m) by (apply ensure_idemp; by eapply lookup2_tenant).
  by rewrite S, L.
Qed.

(** Once a tenant has an event under an identifier, sending that identifier
    again touches neither store nor engine. *)
Lemma Ingest_duplicate content input (w : PipelineWorld) stored :
  normalize_check t input = Ok tt -> ev_ID input <> "" ->
  lookup2 (m_events (world_store w)) t (ev_ID input) = Some stored ->
  exists w', Ingest (repository := memory_with content) decode None t input w = (Ok (ingest_result stored true), w') /\
             w_repo w' = w_repo w.
Proof.
  intros C N L. unfold Ingest. destruct (normalize_Ok input w C N) as (event & w1 & E & P & I & T).
  rewrite (bind_run _ _ _ _ _ E). destruct w as [[store engine] rt], w1 as [[store1 engine1] rt1].
  cbn in P. injection P as -> ->. unfold world_store in L. cbn in L.
  assert (D : PutEvent event store = (stored, true, store)) by (apply PutEvent_stored; congruence).
  set (w := mkWorld (mkPlatform store engine) rt1).
  assert (P : on_store (repo_PutEvent None event) w = (Ok (stored, true), w)).
  { unfold on_store, on_repo, repo_PutEvent, bind, check_ctx, ret, state. cbn -[PutEvent]. by rewrite D. }
  rewrite (bind_run _ _ _ (stored, true) w) by (apply wrapping_Ok; exact P).
  rewrite (bind_run _ _ _ tt w) by done. by eexists.
Qed.

Lemma Ingest_stores content input (w : PipelineWorld) :
  TenantId.Valid t = true -> normalize_check t input = Ok tt -> ev_ID input <> "" ->
  is_Some (lookup2 (m_events (world_store (Ingest (repository := memory_with content) decode None t input w).2)) t (ev_ID input)).
Proof.
  intros V C N. unfold Ingest. destruct (normalize_Ok input w C N) as (event & w1 & E & P & I & T).
  rewrite (bind_run _ _ _ _ _ E). clear E P C.
  assert (Put : exists stored duplicate w2, on_store (repo_PutEvent None event) w1 = (Ok (stored, duplicate), w2) /\
    lookup2 (m_events (world_store w2)) t (ev_ID input) = Some stored /\ (duplicate = false -> ev_TenantID stored = t)).
  { destruct w1 as [[store engine] rt]. unfold repo_PutEvent, bind, on_store, on_repo, state, check_ctx, ret. cbn.
    unfold PutEvent. rewrite T, I. destruct (lookup2 _ _ _) eqn:L; cbn; eexists _, _, _; split_and!; try done.
    unfold world_store. cbn. apply lookup2_put2_eq. }
  destruct Put as (stored & duplicate & w2 & E & L & Ts).
  rewrite (bind_run _ _ _ (stored, duplicate) w2) by (apply wrapping_Ok; exact E).
  rewrite (bind_run _ _ _ tt w2) by (by destruct w2 as [[] ]).
  destruct duplicate; [by eexists|].
  assert (Acts : acts_for t w2 (bind (detect (repository := memory_with content) decode None stored)
    (fun matches => foldM (ingest_match (repository := memory_with content) None t) (ingest_result stored false) matches) w2).2).
  { revert w2 E L. intros w2 _ _. revert w2.
    change (evolves (acts_for t) (bind (detect (repository := memory_with content) decode None stored)
      (fun matches => foldM (ingest_match (repository := memory_with content) None t) (ingest_result stored false) matches))).
    apply (evolves_bind _); [apply acts_detect; auto|]. intros matches.
    apply (evolves_foldM_inv _ (fun result => ev_TenantID (ir_Event result) = t)); [by apply Ts|by intros; apply acts_ingest_match|].
    intros result m w' result' w'' Inv K. by apply ingest_match_event in K as ->. }
  eexists. apply (acts_events _ _ _ Acts). exact L.
Qed.

End Redelivery.

(** C36. An event is detected at most once, even when its detection failed: after
    any ingestion of an event with an identifier, with whatever answer, sending
    the identifier again, with any content published since, answers the stored
    event as a duplicate without findings or alerts and touches nothing.  A
    retry after an error is therefore never detected. *)
Theorem event_detected_at_most_once content content' decode t input again (w : PipelineWorld)
    (w1 := (Ingest (repository := memory_with content) decode None t input w).2)
    (T : TenantId.Valid t = true) (VALID : normalize_check t input = Ok tt) (ID : ev_ID input <> "")
    (AGAIN : normalize_check t again = Ok tt) (SAME : ev_ID again = ev_ID input) :
  exists stored w2,
    Ingest (repository := memory_with content') decode None t again w1 = (Ok (ingest_result stored true), w2) /\
    w_repo w2 = w_repo w1.
Proof.
  destruct (Ingest_stores decode t content input w T VALID ID) as [stored L]. fold w1 in L. rewrite <- SAME in L.
  exists stored. apply Ingest_duplicate; [done|congruence|done].
Qed.

(** ** The answer of an ingestion *)

Section Answers.
Context (content : option ContentProvider) (decode : string -> option sigmaDocument).
#[local] Instance answers_port : PipelineRepository Memory := memory_with content.

(** An alert that stands for a finding: it lists the finding and at least its
    risk, and the event that was detected is the one of the finding. *)
Definition stands_for (t : string) (event : CanonicalEvent) (finding : Finding) (alert : Alert) : Prop :=
  finding_ok finding /\ fi_TenantID finding = t /\ fi_EventID finding = ev_ID event /\
  fi_ID finding ∈ al_FindingIDs alert /\ fi_RiskScore finding <= al_RiskScore alert /\
  al_LastSeen alert = ev_EventTime event.

Lemma appendUnique_has values additions x : x ∈ additions -> x <> "" -> x ∈ appendUnique values additions.
Proof.
  revert values. induction additions as [|a additions IH]; intros values X N; [by apply elem_of_nil in X|].
  rewrite appendUnique_cons. apply elem_of_cons in X as [->|X]; [|by apply IH].
  set (values' := if (a != "") && negb (a ∈? values) then values ++ [a] else values).
  assert (V : a ∈ values').
  { unfold values'. destruct (_ && _) eqn:E; [apply elem_of_app; right; by apply list_elem_of_singleton|].
    apply andb_false_iff in E as [E|E]; apply negb_false_iff, bool_decide_eq_true in E; done. }
  destruct (appendUnique_prefix values' additions) as [rest ->]. apply elem_of_app. by left.
Qed.

Lemma UpsertAlert_answer c key window m f :
  f ∈ al_FindingIDs c -> f <> "" ->
  let a := (UpsertAlert c key window m).1.1 in
  f ∈ al_FindingIDs a /\ al_RiskScore c <= al_RiskScore a /\ al_LastSeen a = al_LastSeen c.
Proof.
  intros F N. unfold UpsertAlert. destruct (mergeable _ _ _ _) as [[i e]|]; cbn; [|by split_and!; [|lia|]].
  unfold merge_alert. cbn. destruct (_ <? _) eqn:L; cbn; split_and!; try done; try lia; by apply appendUnique_has.
Qed.

Lemma repo_UpsertAlert_Ok ctx c key window (w : PipelineWorld) alert created w' :
  on_store (repo_UpsertAlert ctx c key window) w = (Ok (alert, created), w') ->
  alert = (UpsertAlert c key window (world_store w)).1.1.
Proof.
  destruct w as [[store engine] rt]. unfold repo_UpsertAlert, on_store, on_repo, bind, check_ctx, state, ret.
  destruct ctx; [done|]. cbn -[UpsertAlert]. destruct (UpsertAlert c key window store) as [[a b] m']. by intros [= <- <- <-].
Qed.

Lemma ingest_match_adds ctx t result m (w : PipelineWorld) result' w' :
  ingest_match ctx t result m w = (Ok result', w') ->
  exists finding alert, stands_for (ev_TenantID (ir_Event result)) (ir_Event result) finding alert /\
    fi_RiskBreakdown finding = dm_Factors m /\ rr_ID (fi_Rule finding) = dr_ID (dm_Rule m) /\
    result' = result {{ ir_Findings ::= fun l => l ++ [finding]; ir_Alerts ::= fun l => l ++ [alert] }}.
Proof.
  unfold ingest_match. intros H. apply bind_Ok in H as (finding & w1 & Hf & H).
  apply bind_Ok in H as (_ & w2 & _ & H). apply bind_Ok in H as ([candidate key] & w3 & Hc & H).
  apply bind_Ok in H as ([alert created] & w4 & Ha & H). apply wrapping_Ok, repo_UpsertAlert_Ok in Ha.
  do 3 apply bind_Ok in H as (? & ? & _ & H). injection H as <- _.
  exists finding, alert. unfold makeFinding, bind, Random, Now, ret in Hf. injection Hf as <- _.
  unfold makeAlert, bind, Random, Now, ret in Hc. injection Hc as <- <- _.
  set (finding := finding_of _ _ _ _) in *. set (candidate := alert_of _ _ _ _ _) in *.
  destruct (UpsertAlert_answer candidate (dedup_key finding (alert_entity (ir_Event result)) (dm_DedupDiscriminator m))
    (15 * Minute) (world_store w3) (fi_ID finding)) as (F & L & S); [by apply list_elem_of_singleton|done|].
  rewrite <- Ha in F, L, S. split; [|done]. split; [apply finding_of_ok|by split_and!].
Qed.

Definition accounts_for (m : detectionMatch) (finding : Finding) : Prop :=
  fi_RiskBreakdown finding = dm_Factors m /\ rr_ID (fi_Rule finding) = dr_ID (dm_Rule m).

Lemma ingest_loop ctx t matches result (w : PipelineWorld) r w' :
  foldM (ingest_match ctx t) result matches w = (Ok r, w') ->
  exists findings alerts, r = result {{ ir_Findings ::= fun l => l ++ findings; ir_Alerts ::= fun l => l ++ alerts }} /\
    Forall2 accounts_for matches findings /\
    Forall2 (stands_for (ev_TenantID (ir_Event result)) (ir_Event result)) findings alerts.
Proof.
  revert result w. induction matches as [|m matches IH]; intros result w; cbn [foldM].
  - intros [= <- _]. exists [], []. split; [|by split; constructor]. destruct result. cbn. by rewrite !app_nil_r.
  - intros H. apply bind_Ok in H as (result1 & w1 & H1 & H2).
    apply ingest_match_adds in H1 as (finding & alert & S & B & I & ->).
    apply IH in H2 as (findings & alerts & -> & A & Al). cbn in A, Al.
    exists (finding :: findings), (alert :: alerts). cbn. rewrite <- !app_assoc. split; [done|]. by split; constructor.
Qed.

(** The rules in force for a tenant at a time: the snapshot of the engine while
    it is fresh, else what the provider publishes, compiled. *)
Definition rules_in_force (ctx : Context) (t : string) (now : Time) (store : Memory) (engine : Engine)
    : outcome (list CompiledRule) :=
  match content with
  | None => Ok []
  | Some provider =>
      let compile := match provider ctx t store with Ok contents => compile_contents decode contents | Err e => Err e | Panic => Panic end in
      match en_dynamicRules engine !! t with
      | Some snapshot => if time_Sub now (sn_LoadedAt snapshot) <? 5 * Second then Ok (sn_Rules snapshot) else compile
      | None => compile
      end
  end.

(** A plain rule that matches the event.  The identifiers of the built-in rules
    are reserved: published content under one of them is not run. *)
Definition matching (engine : Engine) (event : CanonicalEvent) (rules : list CompiledRule) (compiled : CompiledRule)
    (fields : list string) : Prop :=
  compiled ∈ rules /\ en_rules engine !! dr_ID (cr_Rule compiled) = None /\ Evaluate compiled event = (true, fields).

(** The identifiers of the rules that match the event by itself. *)
Definition matched_by_itself (engine : Engine) (event : CanonicalEvent) (rules : list CompiledRule) (ids : gset string) : Prop :=
  forall id, id ∈ ids <-> (id = PowerShellRuleID /\ powershell_match (builtin_rule engine PowerShellRuleID) event <> []) \/
    exists compiled fields, matching engine event rules compiled fields /\ id = dr_ID (cr_Rule compiled).

(** What a correlation observes in the event, if it concerns it. *)
Definition observation_of (event : CanonicalEvent) (ids : gset string) (compiled : CompiledRule) : option CorrelationObservation :=
  spec ← cr_correlation compiled; correlation_observation event ids compiled spec.

(** The memory after observations. *)
Definition memory_after (observations : list CorrelationObservation) (memory : MemoryCorrelationStore) : MemoryCorrelationStore :=
  foldl (fun memory observation => (observe observation memory).2) memory observations.

(** What the rules in force detect in an event.  The correlations see the
    memory in their order, after the failed authentication was noted. *)
Inductive detection (engine : Engine) (event : CanonicalEvent) (rules : list CompiledRule) (ids : gset string) : detectionMatch -> Prop :=
| Suspicious_command m : m ∈ powershell_match (builtin_rule engine PowerShellRuleID) event -> detection engine event rules ids m
| Threshold_reached o evaluation :
    auth_observation event = Some o -> evaluation = (observe o (en_correlationMemory engine)).1 -> ce_Triggered evaluation = true ->
    detection engine event rules ids (auth_match (builtin_rule engine AuthRuleID) event evaluation)
| Rule_matches compiled fields : matching engine event rules compiled fields ->
    detection engine event rules ids (sigma_match (cr_Rule compiled) event fields)
| Correlation_triggered before compiled after spec o evaluation :
    rules = before ++ compiled :: after -> cr_correlation compiled = Some spec ->
    correlation_observation event ids compiled spec = Some o ->
    evaluation = (observe o (memory_after (option_list (auth_observation event) ++ omap (observation_of event ids) before)
                               (en_correlationMemory engine))).1 ->
    ce_Triggered evaluation = true ->
    detection engine event rules ids (correlation_match (cr_Rule compiled) spec event evaluation).

Lemma elem_of_sigma_matches engine event rules m :
  m ∈ sigma_matches engine event rules <->
  exists compiled fields, matching engine event rules compiled fields /\ m = sigma_match (cr_Rule compiled) event fields.
Proof.
  enough (E : m ∈ sigma_matches engine event rules <-> exists compiled fields, compiled ∈ rules /\
    en_rules engine !! dr_ID (cr_Rule compiled) = None /\ Evaluate compiled event = (true, fields) /\
    m = sigma_match (cr_Rule compiled) event fields) by (rewrite E; unfold matching; naive_solver).
  induction rules as [|compiled rules IH]; cbn.
  { split; [by intros ?%elem_of_nil|]. intros (? & ? & X & _). by apply elem_of_nil in X. }
  assert (C : forall spec, cr_correlation compiled = Some spec -> Evaluate compiled event = (false, [])).
  { intros spec E. unfold Evaluate. by rewrite E. }
  destruct (en_rules engine !! _) eqn:B; [|destruct (cr_correlation compiled) as [spec|] eqn:K;
    [specialize (C _ eq_refl)|destruct (Evaluate compiled event) as [[] fields] eqn:E]].
  all: rewrite ?elem_of_cons, IH; clear IH; setoid_rewrite elem_of_cons; split.
  all: try (intros (c & f & R & N & Ev & ->); exists c, f; by split_and!; [right|..]).
  - intros (c & f & [->|R] & N & Ev & ->); [congruence|]. by exists c, f.
  - intros (c & f & [->|R] & N & Ev & ->); [congruence|]. by exists c, f.
  - intros [->|(c & f & R & N & Ev & ->)]; [exists compiled, fields|exists c, f]; split_and!; auto.
  - intros (c & f & [->|R] & N & Ev & ->); [left; congruence|right]. by exists c, f.
  - intros (c & f & [->|R] & N & Ev & ->); [congruence|]. by exists c, f.
Qed.

Lemma match_ids_sigma engine event rules id :
  id ∈ match_ids (sigma_matches engine event rules) <->
  exists compiled fields, matching engine event rules compiled fields /\ id = dr_ID (cr_Rule compiled).
Proof.
  unfold match_ids. rewrite elem_of_list_to_set, list_elem_of_In, in_map_iff. setoid_rewrite <- list_elem_of_In.
  setoid_rewrite elem_of_sigma_matches. split.
  - intros (m & <- & compiled & fields & M & ->). by exists compiled, fields.
  - intros (compiled & fields & M & ->). exists (sigma_match (cr_Rule compiled) event fields). split; [done|]. by exists compiled, fields.
Qed.

(** *** The correlations *)

Lemma observeCorrelation_Ok ctx o (w : PipelineWorld) evaluation w' : observeCorrelation ctx o w = (Ok evaluation, w') ->
  evaluation = (observe o (world_correlation w)).1 /\ world_correlation w' = (observe o (world_correlation w)).2 /\
  en_dynamicRules (pf_engine (w_repo w')) = en_dynamicRules (pf_engine (w_repo w)) /\ world_store w' = world_store w /\ w_rt w' = w_rt w.
Proof.
  destruct w as [[store [rules dynamic memory]] rt]. unfold observeCorrelation, on_engine, on_repo, on_memory, ObserveCorrelation, world_correlation, world_store.
  cbn -[observe]. unfold bind, check_ctx, lift, state, ret, fail. destruct ctx; [done|].
  destruct (validateCorrelationObservation o) as [[]|e|]; cbn -[observe]; [|done..].
  destruct (observe o memory) as [ev memory']. by intros [= -> <-].
Qed.

(** The matches of the correlations among [rules]. *)
Fixpoint correlations (event : CanonicalEvent) (ids : gset string) (memory : MemoryCorrelationStore) (rules : list CompiledRule) : list detectionMatch :=
  match rules with
  | [] => []
  | compiled :: rest =>
      match cr_correlation compiled, observation_of event ids compiled with
      | Some spec, Some o =>
          let evaluation := (observe o memory).1 in
          (if ce_Triggered evaluation then [correlation_match (cr_Rule compiled) spec event evaluation] else []) ++
          correlations event ids (observe o memory).2 rest
      | _, _ => correlations event ids memory rest
      end
  end.

Lemma correlate_rules_Ok ctx event ids rules acc (w : PipelineWorld) matches w' :
  foldM (correlate_rule ctx event ids) acc rules w = (Ok matches, w') ->
  matches = acc ++ correlations event ids (world_correlation w) rules.
Proof.
  revert acc w. induction rules as [|compiled rules IH]; intros acc w; cbn [foldM correlations].
  { intros [= <- _]. by rewrite app_nil_r. }
  intros (acc' & w1 & C & H)%bind_Ok. apply IH in H as ->. unfold correlate_rule in C. cbn [rule_correlation] in C.
  unfold observation_of. destruct (cr_correlation compiled) as [spec|]; [|by injection C as <- <-]. cbn [mbind option_bind].
  destruct (correlation_observation event ids compiled spec) as [o|]; [|by injection C as <- <-].
  apply bind_Ok in C as (evaluation & w2 & O%wrapping_Ok & C). apply observeCorrelation_Ok in O as (-> & M & _). cbn zeta.
  destruct (ce_Triggered (observe o (world_correlation w)).1); cbn [negb] in C; injection C as <- <-; rewrite M; [by rewrite <- app_assoc|done].
Qed.

Lemma elem_of_correlations event ids memory rules m :
  m ∈ correlations event ids memory rules <->
  exists before compiled after spec o evaluation, rules = before ++ compiled :: after /\ cr_correlation compiled = Some spec /\
    correlation_observation event ids compiled spec = Some o /\
    evaluation = (observe o (memory_after (omap (observation_of event ids) before) memory)).1 /\ ce_Triggered evaluation = true /\
    m = correlation_match (cr_Rule compiled) spec event evaluation.
Proof.
  revert memory. induction rules as [|compiled rules IH]; intros memory.
  { split; [by intros ?%elem_of_nil|]. by intros ([] & ? & ? & ? & ? & ? & ? & _). }
  set (after1 := memory_after (option_list (observation_of event ids compiled)) memory).
  assert (Tail : m ∈ correlations event ids after1 rules <-> exists before compiled' after spec o evaluation,
    compiled :: rules = (compiled :: before) ++ compiled' :: after /\ cr_correlation compiled' = Some spec /\
    correlation_observation event ids compiled' spec = Some o /\
    evaluation = (observe o (memory_after (omap (observation_of event ids) (compiled :: before)) memory)).1 /\
    ce_Triggered evaluation = true /\ m = correlation_match (cr_Rule compiled') spec event evaluation).
  { rewrite IH. assert (M : forall before, memory_after (omap (observation_of event ids) (compiled :: before)) memory =
      memory_after (omap (observation_of event ids) before) after1) by (intros; unfold after1; cbn; by destruct (observation_of _ _ _)).
    setoid_rewrite M. cbn [app]. naive_solver. }
  assert (Head : m ∈ correlations event ids memory (compiled :: rules) <-> m ∈ correlations event ids after1 rules \/
    exists spec o, cr_correlation compiled = Some spec /\ correlation_observation event ids compiled spec = Some o /\
      ce_Triggered (observe o memory).1 = true /\ m = correlation_match (cr_Rule compiled) spec event (observe o memory).1).
  { assert (None_ : observation_of event ids compiled = None -> correlations event ids memory (compiled :: rules) = correlations event ids memory rules).
    { cbn [correlations]. intros ->. by destruct (cr_correlation compiled). }
    unfold after1. destruct (observation_of event ids compiled) as [o|] eqn:O.
    - assert (Step : correlations event ids memory (compiled :: rules) = match cr_correlation compiled, observation_of event ids compiled with
        | Some spec, Some o => (if ce_Triggered (observe o memory).1 then [correlation_match (cr_Rule compiled) spec event (observe o memory).1] else []) ++
            correlations event ids (observe o memory).2 rules
        | _, _ => correlations event ids memory rules end) by reflexivity.
      rewrite Step, O. clear Step. unfold observation_of in O. destruct (cr_correlation compiled) as [spec|] eqn:C; [|done].
      cbn [mbind option_bind] in O. rewrite elem_of_app.
      change (memory_after (option_list (Some o)) memory) with (observe o memory).2. etransitivity; [|apply Logic.or_comm]. apply or_iff_compat_r.
      destruct (ce_Triggered (observe o memory).1) eqn:T; [rewrite list_elem_of_singleton|rewrite elem_of_nil]; split.
      + intros ->. by exists spec, o.
      + intros (spec' & o' & [= <-] & O' & _ & ->). rewrite O in O'. by injection O' as <-.
      + done.
      + intros (spec' & o' & [= <-] & O' & T' & _). rewrite O in O'. injection O' as <-. congruence.
    - rewrite None_ by done. change (memory_after (option_list None) memory) with memory. split; [by left|].
      intros [M|(spec & o & C & O' & _)]; [done|]. unfold observation_of in O. rewrite C in O. cbn [mbind option_bind] in O. congruence. }
  rewrite Head, Tail. split.
  - intros [(before & D)|(spec & o & C & O & T & ->)]; [by exists (compiled :: before)|].
    by exists [], compiled, rules, spec, o, (observe o memory).1.
  - intros ([|c before] & compiled' & after & spec & o & evaluation & E & C & O & -> & T & ->); cbn in E; injection E as -> ->.
    + right. by exists spec, o.
    + left. by exists before, compiled', after, spec, o, (observe o (memory_after (omap (observation_of event ids) (c :: before)) memory)).1.
Qed.

(** *** The steps of [detect] *)

Lemma rulesForTenant_Ok ctx t (w : PipelineWorld) rules w' : rulesForTenant decode ctx t w = (Ok rules, w') ->
  rules_in_force ctx t (rt_clock (w_rt w) (rt_ticks (w_rt w))) (world_store w) (pf_engine (w_repo w)) = Ok rules /\
  world_correlation w' = world_correlation w.
Proof.
  destruct w as [[store engine] rt]. unfold rulesForTenant, rules_in_force, fresh_snapshot. cbn [pr_PublishedDetectionContent answers_port memory_with].
  destruct content as [provider|]; cbn [option_map]; [|by intros [= <- <-]].
  assert (Load : forall rt', bind (on_store (gets_outcome (provider ctx t)))
      (fun contents => bind (lift (compile_contents decode contents)) (fun compiledRules => bind Now (fun now =>
        bind (on_engine (modify (fun e => e {{ en_dynamicRules ::= <[t := {| sn_Rules := compiledRules; sn_LoadedAt := now |}]> }})))
             (fun _ => ret compiledRules)))) (mkWorld (mkPlatform store engine) rt') = (Ok rules, w') ->
    match provider ctx t store with Ok contents => compile_contents decode contents | Err e => Err e | Panic => Panic end = Ok rules /\
    world_correlation w' = en_correlationMemory engine).
  { intros rt' (contents & w1 & P & H)%bind_Ok. unfold on_store, on_repo, gets_outcome in P. cbn in P. injection P as -> <-.
    apply bind_Ok in H as (compiled & w2 & L & H). unfold lift in L. injection L as -> <-.
    apply bind_Ok in H as (now & w3 & N & H). unfold Now in N. injection N as _ <-. cbn in H. by injection H as <- <-. }
  intros (snapshot & w1 & S & H)%bind_Ok. apply bind_Ok in S as (e & w2 & E & S). cbn in E. injection E as <- <-.
  unfold world_store, world_correlation. cbn.
  destruct (en_dynamicRules engine !! t) as [s|]; [|injection S as <- <-; by apply (Load rt)].
  apply bind_Ok in S as (now & w3 & N & S). unfold Now in N. injection N as <- <-. injection S as <- <-. cbn in H.
  destruct (_ <? _); [by injection H as <- <-|]. by apply Load in H.
Qed.

Lemma detect_answer ctx event (w : PipelineWorld) matches w' (engine := pf_engine (w_repo w)) :
  detect decode ctx event w = (Ok matches, w') ->
  exists rules ids, matched_by_itself engine event rules ids /\
    rules_in_force ctx (ev_TenantID event) (rt_clock (w_rt w) (rt_ticks (w_rt w))) (world_store w) engine = Ok rules /\
    forall m, m ∈ matches <-> detection engine event rules ids m.
Proof.
  unfold detect. intros H. apply bind_Ok in H as (engine' & w0 & E & H).
  assert (engine' = engine /\ w0 = w) as [-> ->]. { destruct w as [[store e] rt]. by injection E. } clear E.
  apply bind_Ok in H as (threshold & wa & Ha%wrapping_Ok & H). apply bind_Ok in H as (threats & wb & Ht & H).
  apply bind_Ok in H as (behavior & wc & Hb & H). apply wrapping_Ok in Ht, Hb. injection Ht as <- <-. injection Hb as <- <-.
  apply bind_Ok in H as (rules & wd & Hr%wrapping_Ok & H). apply rulesForTenant_Ok in Hr as [Hr Md].
  apply correlate_rules_Ok in H as ->. set (ids := _ ∪ match_ids _).
  assert (A : world_correlation wa = memory_after (option_list (auth_observation event)) (en_correlationMemory engine) /\
    en_dynamicRules (pf_engine (w_repo wa)) = en_dynamicRules engine /\ world_store wa = world_store w /\ w_rt wa = w_rt w /\
    (ce_Triggered threshold = true <-> exists o, auth_observation event = Some o /\ ce_Triggered (observe o (en_correlationMemory engine)).1 = true) /\
    (forall o, auth_observation event = Some o -> threshold = (observe o (en_correlationMemory engine)).1)).
  { unfold observeAuthenticationFailure in Ha. destruct (auth_observation event) as [o|].
    - apply observeCorrelation_Ok in Ha as (-> & M & D & S & R). split_and!; try done; [|by intros ? [= <-]]. split; [by exists o|]. by intros (? & [= <-] & ?).
    - injection Ha as <- <-. split_and!; try done. split; [done|]. by intros (? & [=] & _). }
  destruct A as (A & D & S & R & T & Th). rewrite Md, A. rewrite S, R in Hr.
  exists rules, ids. split_and!.
  - intros id. unfold ids. rewrite elem_of_union, match_ids_sigma. destruct (powershell_match _ _); set_solver.
  - unfold rules_in_force in *. by rewrite D in Hr.
  - intros m. rewrite !elem_of_app, elem_of_sigma_matches, elem_of_correlations. rewrite !elem_of_nil. split.
    + intros [[P|[X|[[]|[[]|(compiled & fields & M & ->)]]]]|(before & compiled & after & spec & o & evaluation & Er & Ec & Eo & Ee & Et & ->)].
      * by apply Suspicious_command.
      * destruct (ce_Triggered threshold) eqn:Et; [|by apply elem_of_nil in X]. apply list_elem_of_singleton in X as ->.
        destruct (proj1 T eq_refl) as (o & Eo & To). rewrite (Th o Eo). by eapply Threshold_reached.
      * by apply Rule_matches.
      * eapply Correlation_triggered; try done. rewrite Ee. unfold memory_after. by rewrite foldl_app.
    + intros [m' P|o evaluation Eo Ee Et|compiled fields M|before compiled after spec o evaluation Er Ec Eo Ee Et].
      * by left; left.
      * left; right; left. rewrite (proj2 T); [|exists o; by rewrite <- Ee]. apply list_elem_of_singleton. by rewrite (Th o Eo), <- Ee.
      * left. do 4 right. by exists compiled, fields.
      * right. exists before, compiled, after, spec, o, evaluation. split_and!; try done.
        rewrite Ee. unfold memory_after. by rewrite foldl_app.
Qed.

(** The reading of the clock that decides about the snapshot: the second of the
    ingestion, after that of the ingest time. *)
Definition second_reading (rt : Runtime) : Time := rt_clock rt (S (rt_ticks rt)).

Lemma normalize_reads t input (w : PipelineWorld) event w1 : normalize t input w = (Ok event, w1) ->
  w_repo w1 = w_repo w /\ rt_clock (w_rt w1) (rt_ticks (w_rt w1)) = second_reading (w_rt w).
Proof.
  unfold normalize. intros (? & ? & H1 & Hn)%bind_Ok. injection H1 as _ <-.
  apply bind_Ok in Hn as (? & ? & H1 & Hn). injection H1 as _ <-. apply bind_Ok in Hn as (? & ? & H1 & Hn).
  injection Hn as _ <-. destruct (ev_ID _ == ""); [|by injection H1 as _ <-].
  apply bind_Ok in H1 as (? & ? & H2 & H1). injection H2 as _ <-. by injection H1 as _ <-.
Qed.

Lemma repo_PutEvent_Ok ctx event (w : PipelineWorld) stored duplicate w' : on_store (repo_PutEvent ctx event) w = (Ok (stored, duplicate), w') ->
  pf_engine (w_repo w') = pf_engine (w_repo w) /\ w_rt w' = w_rt w /\ world_store w' = (PutEvent event (world_store w)).2.
Proof.
  destruct w as [[store engine] rt]. unfold repo_PutEvent, on_store, on_repo, bind, check_ctx, state, ret, world_store. destruct ctx; [done|].
  cbn -[PutEvent]. destruct (PutEvent event store) as [[a b] m']. by intros [= _ _ <-].
Qed.

Lemma Ingest_answer ctx t input (w : PipelineWorld) r w' :
  Ingest decode ctx t input w = (Ok r, w') -> ir_Duplicate r = false ->
  ev_TenantID (ir_Event r) = t /\ exists matches w1 w2, detect decode ctx (ir_Event r) w1 = (Ok matches, w2) /\
    pf_engine (w_repo w1) = pf_engine (w_repo w) /\ world_store w1 = (PutEvent (ir_Event r) (world_store w)).2 /\
    rt_clock (w_rt w1) (rt_ticks (w_rt w1)) = second_reading (w_rt w) /\
    Forall2 accounts_for matches (ir_Findings r) /\ Forall2 (stands_for t (ir_Event r)) (ir_Findings r) (ir_Alerts r).
Proof.
  unfold Ingest. intros H D. apply bind_Ok in H as (event & w1 & Hn & H).
  assert (T := normalize_tenant _ _ _ _ _ Hn). apply normalize_reads in Hn as [E1 C1].
  apply bind_Ok in H as ([stored duplicate] & w2 & Hp & H). apply wrapping_Ok in Hp.
  apply bind_Ok in H as (? & w3 & Ho & H). cbn in Ho. apply wrapping_Ok in Ho.
  destruct duplicate; [by injection H as <- _|].
  destruct (repo_PutEvent_Ok _ _ _ _ _ _ Hp) as (E2 & R2 & S2).
  assert (E3 : w3 = w2).
  { destruct w2 as [[store engine] rt]. unfold on_store, on_repo, check_ctx, fail, ret in Ho. by destruct ctx; injection Ho as _ <-. }
  apply PutEvent_new_event in Hp as ->. apply bind_Ok in H as (matches & w4 & Hd & H).
  apply ingest_loop in H as (findings & alerts & -> & A & S). cbn -[detect] in *. subst w3. split; [done|].
  exists matches, w2, w4. rewrite <- T. split; [done|]. rewrite E2, R2, S2, C1. unfold world_store. by rewrite E1.
Qed.

End Answers.

(** C37. Over the in-memory repository, which leaves correlations to the engine's
    memory and has no threat intelligence or behaviour baseline, the answer of
    an ingestion that is not a duplicate is exactly what the rules in force
    detect.  The rules are those of the engine's snapshot for the
    tenant while it is younger than five seconds, else what the content provider
    publishes, compiled.  There is one finding and one alert for each match, in
    order, with the risk of the finding between 0 and 100, the sum of its
    factors; the alert lists the finding and has at least its risk.  And the
    matches are exactly: a suspicious PowerShell command; the authentication
    threshold, if the failure that the event reports triggers it in the
    engine's correlation memory; every published plain rule that matches the
    event; and every published correlation that concerns the event and is
    triggered in the memory as the observations before it have left it. *)
Theorem ingest_answers_what_is_detected content decode ctx t input (w : PipelineWorld) r w'
    (engine := pf_engine (w_repo w)) (store := (PutEvent (ir_Event r) (world_store w)).2)
    (OK : Ingest (repository := memory_with content) decode ctx t input w = (Ok r, w'))
    (NEW : ir_Duplicate r = false) :
  exists matches rules ids,
    rules_in_force content decode ctx t (second_reading (w_rt w)) store engine = Ok rules /\
    matched_by_itself engine (ir_Event r) rules ids /\
    (forall m, m ∈ matches <-> detection engine (ir_Event r) rules ids m) /\
    Forall2 accounts_for matches (ir_Findings r) /\
    Forall2 (stands_for t (ir_Event r)) (ir_Findings r) (ir_Alerts r).
Proof.
  destruct (Ingest_answer content decode ctx t input w r w' OK NEW) as (T & matches & w1 & w2 & D & E & St & C & A & S).
  apply detect_answer in D as (rules & ids & I & R & M). rewrite T, C, St in R. rewrite E in *. by exists matches, rules, ids.
Qed.

(** ** The authentication threshold *)

Section Threshold.

Definition failing_events (observation : CorrelationObservation) (m : MemoryCorrelationStore) : gset string :=
  event_ids (co_Spec observation)
    (filter (in_window observation) (slice_of (mc_records m) (correlation_key observation))).

Lemma event_ids_app spec l1 l2 : event_ids spec (l1 ++ l2) = event_ids spec l1 ∪ event_ids spec l2.
Proof. unfold event_ids. rewrite filter_app, map_app. apply leibniz_equiv, list_to_set_app. Qed.

Lemma size_add (X : gset string) x : Z.of_nat (size (X ∪ {[x]})) = Z.of_nat (size X) + (if x ∈? X then 0 else 1).
Proof.
  case_bool_decide as E.
  - replace (X ∪ {[x]}) with X by set_solver. lia.
  - rewrite size_union by set_solver. rewrite size_singleton. lia.
Qed.

Lemma event_count_satisfied spec records : cs_Type spec = CorrelationEventCount ->
  ce_Satisfied (EvaluateCorrelation spec records) = (cs_Threshold spec <=? Z.of_nat (size (event_ids spec records))).
Proof.
  intros T. unfold EvaluateCorrelation. fold (considered spec records). rewrite T. cbn. by rewrite uniqueEventIDs_count.
Qed.

Lemma auth_observation_spec event observation : auth_observation event = Some observation ->
  co_Spec observation = auth_spec /\ co_SourceRuleIDs observation = [authBaseRuleID] /\ co_EventID observation = ev_ID event.
Proof. unfold auth_observation. repeat case_match; try done. by intros [= <-]. Qed.

Lemma auth_new_record event observation seen : auth_observation event = Some observation ->
  observation_key observation authBaseRuleID ∉ seen ->
  exists seen', new_records (correlation_key observation) observation (uniqueStrings (co_SourceRuleIDs observation)) seen =
    ([{| cr_SourceRuleID := authBaseRuleID; cr_EventID := ev_ID event;
         cr_EventTime := co_EventTime observation; cr_Value := co_Value observation |}], seen').
Proof.
  intros A N. apply auth_observation_spec in A as (_ & S & I). rewrite S.
  change (uniqueStrings [authBaseRuleID]) with [authBaseRuleID].
  cbn [new_records]. fold (observation_key observation authBaseRuleID). rewrite bool_decide_false by done. rewrite I.
  by eexists.
Qed.

End Threshold.

(** The authentication threshold fires at the fifth failure: for a failure
    whose event was not observed yet, it triggers exactly when four other
    failing events from the same source are in the five minutes up to it, and
    the same crossing was not reported before. *)
Theorem authentication_threshold_fires_at_fifth event observation m
    (FAILURE : auth_observation event = Some observation) (ID : ev_ID event <> "")
    (UNSEEN : observation_key observation authBaseRuleID ∉ mc_observation m) :
  let evaluation := (observe observation m).1 in
  ce_Triggered evaluation = true <->
  size (failing_events observation m) = 4%nat /\ (ev_ID event ∉ failing_events observation m) /\
  CorrelationFingerprint observation evaluation ∉ mc_emissions m.
Proof.
  destruct (auth_observation_spec _ _ FAILURE) as (S & _ & _).
  destruct (auth_new_record _ _ _ FAILURE UNSEEN) as (seen' & N). cbn zeta. unfold observe. rewrite N.
  set (window := filter (in_window observation) _). set (new := [_]).
  assert (W : failing_events observation m = event_ids auth_spec window) by (unfold failing_events; by rewrite S).
  assert (B : ce_Satisfied (EvaluateCorrelation auth_spec window) = (5 <=? Z.of_nat (size (event_ids auth_spec window))))
    by by apply event_count_satisfied.
  assert (E : event_ids auth_spec new = {[ev_ID event]}).
  { unfold event_ids, new. rewrite filter_cons_True by (cbn; split; [by left|done]). cbn. set_solver. }
  assert (A : ce_Satisfied (EvaluateCorrelation auth_spec (window ++ new)) =
    (5 <=? Z.of_nat (size (event_ids auth_spec window)) + (if ev_ID event ∈? event_ids auth_spec window then 0 else 1))).
  { rewrite event_count_satisfied, event_ids_app, E, size_add by done. done. }
  assert (T : ce_Triggered (EvaluateCorrelation auth_spec (window ++ new)) = false) by done.
  clear E UNSEEN N. unfold crossing. rewrite W, S, B, A.
  set (X := event_ids auth_spec window) in *. set (after := EvaluateCorrelation auth_spec (window ++ new)) in *.
  assert (C : (5 <=? Z.of_nat (size X)) || negb (5 <=? Z.of_nat (size X) + (if ev_ID event ∈? X then 0 else 1)) = false <->
              size X = 4%nat /\ ev_ID event ∉ X).
  { rewrite orb_false_iff, negb_false_iff, Z.leb_gt, Z.leb_le. case_bool_decide; split; intros; split_and!; try lia; try tauto. }
  clearbody after X. destruct (_ || _); [split; [by cbn [fst]; rewrite T|intros (C1 & C2 & _); by assert (true = false) by tauto]|].
  destruct C as [C _]. specialize (C eq_refl).
  destruct (decide (CorrelationFingerprint observation after ∈ mc_emissions m)) as [F|F];
    [rewrite (bool_decide_true _ F)|rewrite (bool_decide_false _ F)]; cbn -[CorrelationFingerprint].
  - rewrite T. naive_solver.
  - split; [intros _; by destruct C|done].
Qed.

(** ** Examples *)

Section Examples.

Definition sample_world : PipelineWorld :=
  {| w_repo := mkPlatform NewMemory
       {| en_rules := list_to_map (List.map (fun rule => (dr_ID rule, rule)) (builtin_rules (63800000000 * Second)));
          en_dynamicRules := ∅; en_correlationMemory := NewMemoryCorrelationStore |};
     w_rt := steady_runtime |}.

Definition no_decoder : string -> option sigmaDocument := fun _ => None.

Definition powershell_event : CanonicalEvent := zero_CanonicalEvent {{
  ev_ID := "evt_ps"; ev_Category := "process"; ev_Source ::= fun s => s {{ src_Type := "sysmon" }};
  ev_Raw ::= fun r => r {{ raw_Message := "raw"; raw_Reference := "ref" }};
  ev_Process ::= fun p => p {{ proc_Name := "PowerShell.exe"; proc_CommandLine := "powershell -EncodedCommand aQBlAHgA" }};
  ev_Device ::= fun d => d {{ dev_Hostname := "dc-01"; dev_Criticality := 5 }} }}.

Definition login_failure : CanonicalEvent := zero_CanonicalEvent {{
  ev_ID := "evt_1"; ev_TenantID := "kazutb"; ev_EventTime := 63800000000 * Second;
  ev_Category := "authentication"; ev_SecurityResult ::= fun r => r {{ sr_Outcome := "failure" }};
  ev_SrcEndpoint ::= fun e => e {{ ep_IP := "203.0.113.9" }} }}.

(** A content store that is unreachable. *)
Definition unreachable_content : ContentProvider := fun _ _ _ => Err (New "content store unreachable").

Lemma sample_world_fresh : fresh_ids sample_world.
Proof. split; [exact tally_inj|]. intros n t _. apply lookup2_empty. Qed.

Definition sample_answer : IngestResult :=
  match (Ingest no_decoder None "kazutb" powershell_event sample_world).1 with
  | Ok r => r
  | _ => ingest_result zero_CanonicalEvent true
  end.

Definition login_observation : CorrelationObservation :=
  default zero_CorrelationObservation (auth_observation login_failure).

End Examples.

Lemma ingest_preserves_platform_witness :
  let w' := (Ingest no_decoder None "kazutb" powershell_event sample_world).2 in
  reachable (world_store w') /\ fresh_ids w'.
Proof.
  assert (T : TenantId.Valid "kazutb" = true) by (vm_compute; reflexivity).
  destruct (ingest_preserves_platform None no_decoder None "kazutb" powershell_event sample_world
    T (rtc_refl _ _) sample_world_fresh) as (R & F & _).
  exact (conj R F).
Defined.

(** The first delivery fails in detection; the second one, with the content
    store back, is a duplicate. *)
Lemma event_detected_at_most_once_witness :
  let first := Ingest (repository := memory_with (Some unreachable_content)) no_decoder None "kazutb" powershell_event sample_world in
  is_ok first.1 = false /\
  exists stored w2, Ingest (repository := memory_with None) no_decoder None "kazutb" powershell_event first.2 =
    (Ok (ingest_result stored true), w2) /\ w_repo w2 = w_repo first.2.
Proof.
  split; [vm_compute; reflexivity|].
  assert (T : TenantId.Valid "kazutb" = true) by (vm_compute; reflexivity).
  assert (V : normalize_check "kazutb" powershell_event = Ok tt) by (vm_compute; reflexivity).
  assert (I : ev_ID powershell_event <> "") by discriminate.
  exact (event_detected_at_most_once (Some unreachable_content) None no_decoder "kazutb" powershell_event powershell_event
           sample_world T V I V eq_refl).
Defined.

Lemma ingest_answers_what_is_detected_witness :
  List.map fi_RiskScore (ir_Findings sample_answer) = [85] /\
  Forall2 (stands_for "kazutb" (ir_Event sample_answer)) (ir_Findings sample_answer) (ir_Alerts sample_answer).
Proof.
  split; [vm_compute; reflexivity|].
  assert (OK : Ingest (repository := memory_with None) no_decoder None "kazutb" powershell_event sample_world =
               (Ok sample_answer, (Ingest no_decoder None "kazutb" powershell_event sample_world).2))
    by (vm_compute; reflexivity).
  assert (NEW : ir_Duplicate sample_answer = false) by (vm_compute; reflexivity).
  destruct (ingest_answers_what_is_detected None no_decoder None "kazutb" powershell_event sample_world _ _ OK NEW)
    as (matches & rules & ids & _ & _ & _ & _ & S).
  exact S.
Defined.

Lemma authentication_threshold_fires_at_fifth_witness :
  ce_Triggered (observe login_observation NewMemoryCorrelationStore).1 = false /\
  (ce_Triggered (observe login_observation NewMemoryCorrelationStore).1 = true <->
   size (failing_events login_observation NewMemoryCorrelationStore) = 4%nat /\
   (ev_ID login_failure ∉ failing_events login_observation NewMemoryCorrelationStore) /\
   CorrelationFingerprint login_observation (observe login_observation NewMemoryCorrelationStore).1
     ∉ mc_emissions NewMemoryCorrelationStore).
Proof.
  split; [vm_compute; reflexivity|].
  assert (A : auth_observation login_failure = Some login_observation) by (vm_compute; reflexivity).
  assert (I : ev_ID login_failure <> "") by discriminate.
  exact (authentication_threshold_fires_at_fifth login_failure login_observation NewMemoryCorrelationStore A I
           (not_elem_of_empty _)).
Defined.
