(* ===== verification/Playbook.v ===== *)
(** * SOAR playbooks: the data model and the validator

    The playbook of [core/soar.go] is a graph of typed nodes; [soar/validate.go]
    decides whether it may be published.  Its two graph searches are written as
    the code writes them, as recursive visits that thread their state, with one
    unit of fuel per nested call: a visit marks a node of the playbook before it
    calls itself, so the number of nodes is enough (PlaybookFacts.v). *)

From S2P Require Import Prelude GoLang GoFormat Core.

(** ** core/soar.go: the playbook *)

Record SOARRetryPolicy : Type := {
  rp_MaximumAttempts : Z;
  rp_BackoffSeconds : Z;
  rp_MaximumBackoff : Z
}.
#[export] Instance eta_SOARRetryPolicy : Eta SOARRetryPolicy := fun r => {|
  rp_MaximumAttempts := rp_MaximumAttempts r; rp_BackoffSeconds := rp_BackoffSeconds r; rp_MaximumBackoff := rp_MaximumBackoff r
|}.
Definition zero_SOARRetryPolicy : SOARRetryPolicy := {|
  rp_MaximumAttempts := 0; rp_BackoffSeconds := 0; rp_MaximumBackoff := 0
|}.

Record SOARTrigger : Type := {
  tr_Type : string
}.
#[export] Instance eta_SOARTrigger : Eta SOARTrigger := fun r => {|
  tr_Type := tr_Type r
|}.
Definition zero_SOARTrigger : SOARTrigger := {|
  tr_Type := ""
|}.

Record SOARNode : Type := {
  nd_ID : string;
  nd_Type : string;
  nd_Name : string;
  nd_DependsOn : list string;
  nd_TimeoutSeconds : Z;
  nd_Retry : SOARRetryPolicy;
  nd_Config : Metadata
}.
#[export] Instance eta_SOARNode : Eta SOARNode := fun r => {|
  nd_ID := nd_ID r; nd_Type := nd_Type r; nd_Name := nd_Name r;
  nd_DependsOn := nd_DependsOn r; nd_TimeoutSeconds := nd_TimeoutSeconds r; nd_Retry := nd_Retry r;
  nd_Config := nd_Config r
|}.
Definition zero_SOARNode : SOARNode := {|
  nd_ID := ""; nd_Type := ""; nd_Name := "";
  nd_DependsOn := []; nd_TimeoutSeconds := 0; nd_Retry := zero_SOARRetryPolicy;
  nd_Config := None
|}.

Record SOARPlaybookSpec : Type := {
  sp_SchemaVersion : string;
  sp_Trigger : SOARTrigger;
  sp_Nodes : option (list SOARNode)
}.
#[export] Instance eta_SOARPlaybookSpec : Eta SOARPlaybookSpec := fun r => {|
  sp_SchemaVersion := sp_SchemaVersion r; sp_Trigger := sp_Trigger r; sp_Nodes := sp_Nodes r
|}.
Definition zero_SOARPlaybookSpec : SOARPlaybookSpec := {|
  sp_SchemaVersion := ""; sp_Trigger := zero_SOARTrigger; sp_Nodes := None
|}.

Record SOARValidationIssue : Type := {
  vi_Level : string;
  vi_Code : string;
  vi_Path : string;
  vi_Message : string
}.
#[export] Instance eta_SOARValidationIssue : Eta SOARValidationIssue := fun r => {|
  vi_Level := vi_Level r; vi_Code := vi_Code r; vi_Path := vi_Path r;
  vi_Message := vi_Message r
|}.
Definition zero_SOARValidationIssue : SOARValidationIssue := {|
  vi_Level := ""; vi_Code := ""; vi_Path := "";
  vi_Message := ""
|}.

Record SOARValidationReport : Type := {
  vr_Valid : bool;
  vr_SpecHash : string;
  vr_NodeCount : Z;
  vr_Issues : list SOARValidationIssue;
  vr_ValidatedAt : Time
}.
#[export] Instance eta_SOARValidationReport : Eta SOARValidationReport := fun r => {|
  vr_Valid := vr_Valid r; vr_SpecHash := vr_SpecHash r; vr_NodeCount := vr_NodeCount r;
  vr_Issues := vr_Issues r; vr_ValidatedAt := vr_ValidatedAt r
|}.
Definition zero_SOARValidationReport : SOARValidationReport := {|
  vr_Valid := false; vr_SpecHash := ""; vr_NodeCount := 0;
  vr_Issues := []; vr_ValidatedAt := zero_time
|}.

(** The nodes of a specification; a nil slice ranges over nothing. *)
Definition spec_nodes (spec : SOARPlaybookSpec) : list SOARNode := default [] (sp_Nodes spec).

Definition SOARNodeTrigger := "TRIGGER".
Definition SOARNodeCondition := "CONDITION".
Definition SOARNodeAction := "ACTION".
Definition SOARNodeTransform := "TRANSFORM".
Definition SOARNodeLoop := "LOOP".
Definition SOARNodeParallel := "PARALLEL".
Definition SOARNodeDelay := "DELAY".
Definition SOARNodeRetry := "RETRY".
Definition SOARNodeApproval := "HUMAN_APPROVAL".
Definition SOARNodeSubPlaybook := "SUB_PLAYBOOK".
Definition SOARNodeManualTask := "MANUAL_TASK".
Definition SOARNodeWebhook := "WEBHOOK".
Definition SOARNodeNotification := "NOTIFICATION".

(** ** soar/validate.go: the errors and the catalog *)

Definition ErrInvalidPlaybook := New "invalid SOAR playbook".
Definition ErrValidationFailed := New "SOAR playbook validation failed".
Definition ErrInvalidState := New "invalid SOAR lifecycle state".
Definition ErrInvalidExecution := New "invalid SOAR execution".
Definition ErrInvalidApprovalDecision := New "invalid SOAR approval decision".
Definition ErrInvalidApprovalReason := New "invalid SOAR approval reason".
Definition ErrApprovalVersionConflict := New "SOAR approval version conflict".

Record ActionDescriptor : Type := {
  ad_Type : string;
  ad_Level : Z;
  ad_Reversible : bool
}.

Abbreviation ActionCatalog := (gmap string ActionDescriptor).

Definition descriptor (type : string) (level : Z) (reversible : bool) : string * ActionDescriptor :=
  (type, {| ad_Type := type; ad_Level := level; ad_Reversible := reversible |}).

Definition DefaultActionCatalog : ActionCatalog := list_to_map [
  descriptor "kcsp.enrich.threat_intel" 0 false;
  descriptor "kcsp.ticket.create" 1 false;
  descriptor "kcsp.ticket.update" 1 false;
  descriptor "kcsp.ticket.comment" 1 false;
  descriptor "kcsp.ticket.close" 2 false;
  descriptor "kcsp.notification.send" 2 false;
  descriptor "endpoint.isolate" 3 true;
  descriptor "endpoint.release" 3 false;
  descriptor "identity.disable_account" 4 true;
  descriptor "identity.enable_account" 4 false;
  descriptor "firewall.block_ip" 5 true;
  descriptor "firewall.unblock_ip" 5 false;
  descriptor "threat_intel.indicator.submit" 1 false;
  descriptor "destructive.erase_evidence" 6 false ].

Definition letter (c : ascii) : bool :=
  let n := byte_code (lower_ascii c) in (97 <=? n) && (n <=? 122).

Definition word_byte (c : ascii) : bool :=
  letter c || is_digit c || (c == "_"%char) || (c == "-"%char).

(** [^[A-Za-z][A-Za-z0-9_-]{0,63}$] *)
Definition nodeIDPattern (id : string) : bool :=
  match id with
  | "" => false
  | String c rest => letter c && string_forallb word_byte rest && (string_len rest <=? 63)
  end.

(** ** Reading a configuration *)

Definition configString (config : Metadata) (key : string) : string * bool :=
  match metadata_get config key with
  | Some (VString s) => (TrimSpace s, TrimSpace s != "")
  | _ => ("", false)
  end.

(** The float64 nearest to an integer, halves to even: 53 significant bits. *)
Definition float64_of_Z (z : Z) : Z :=
  let a := Z.abs z in
  let e := Z.max 0 (Z.log2 a - 52) in
  let q := Z.shiftr a e in
  let r := a - Z.shiftl q e in
  let half := Z.shiftl 1 e / 2 in
  let q := if (e =? 0) || (r <? half) || ((r =? half) && Z.even q) then q else q + 1 in
  Z.sgn z * Z.shiftl q e.

(** [int(value)] where it is [value] itself, for the float64 whose JSON text is
    [text]: an integral float below 1e21 is written with digits only, and the
    conversion of one outside of int64 does not give it back. *)
Definition float_int (text : string) : option Z :=
  let '(negative, digits) := match text with String "-" rest => (true, rest) | _ => (false, text) end in
  if (digits == "") || negb (string_forallb is_digit digits) then None else
  let z := float64_of_Z (if negative then - digits_value 0 digits else digits_value 0 digits) in
  if (min_int <=? z) && (z <=? max_int) then Some z else None.

(** The configuration came out of [encoding/json], which makes no
    [json.Number] unless it is asked to. *)
Definition configInt (config : Metadata) (key : string) : Z * bool :=
  match metadata_get config key with
  | Some (VInt value) => (value, true)
  | Some (VFloat _ text) => match float_int text with Some value => (value, true) | None => (0, false) end
  | _ => (0, false)
  end.

(** ** The validator *)

Definition issue (level code path message : string) : SOARValidationIssue :=
  {| vi_Level := level; vi_Code := code; vi_Path := path; vi_Message := message |}.

(** [if bad { add("ERROR", code, path, message) }] *)
Definition error_if (bad : bool) (code path message : string) : list SOARValidationIssue :=
  if bad then [issue "ERROR" code path message] else [].

Definition forbidden_key (key : string) : bool :=
  ToLower (TrimSpace key) ∈? ["script"; "shell"; "command"; "code"; "exec"].

Fixpoint dangerousConfig (value : GoValue) : bool :=
  match value with
  | VMap item => existsb (fun '(key, nested) => forbidden_key key || dangerousConfig nested) item
  | VList item => existsb dangerousConfig item
  | _ => false
  end.

(** The configuration of a node as the value [dangerousConfig] is given. *)
Definition config_value (config : Metadata) : GoValue :=
  VMap (match config with Some m => map_to_list m | None => [] end).

Definition allowedTypes : list string :=
  [SOARNodeTrigger; SOARNodeCondition; SOARNodeAction; SOARNodeTransform; SOARNodeLoop; SOARNodeParallel;
   SOARNodeDelay; SOARNodeRetry; SOARNodeApproval; SOARNodeSubPlaybook; SOARNodeManualTask; SOARNodeWebhook;
   SOARNodeNotification].

Definition validateNode (actions : ActionCatalog) (node : SOARNode) (path : string) : list SOARValidationIssue :=
  let config := nd_Config node in
  error_if (negb (nd_Type node ∈? allowedTypes)) "node_type" (path +:+ ".type")
    ("unsupported node type " +:+ nd_Type node) ++
  error_if ((TrimSpace (nd_Name node) == "") || (160 <? string_len (nd_Name node))) "node_name" (path +:+ ".name")
    "node name must contain 1 to 160 characters" ++
  error_if ((nd_TimeoutSeconds node <? 0) || (3600 <? nd_TimeoutSeconds node)) "timeout"
    (path +:+ ".timeout_seconds") "timeout must be between 0 and 3600 seconds" ++
  error_if (let retry := nd_Retry node in
            (rp_MaximumAttempts retry <? 0) || (5 <? rp_MaximumAttempts retry) ||
            (rp_BackoffSeconds retry <? 0) || (3600 <? rp_BackoffSeconds retry) ||
            (rp_MaximumBackoff retry <? 0) || (86400 <? rp_MaximumBackoff retry))
    "retry_policy" (path +:+ ".retry") "retry policy exceeds safe bounds" ++
  error_if (dangerousConfig (config_value config)) "arbitrary_code" (path +:+ ".config")
    "script, shell, command, code, and exec configuration is forbidden" ++
  (if nd_Type node == SOARNodeAction then
     match configString config "action_type" with
     | (_, false) => [issue "ERROR" "action_type" (path +:+ ".config.action_type") "action_type is required"]
     | (actionType, true) =>
         match actions !! actionType with
         | None => [issue "ERROR" "unknown_action" (path +:+ ".config.action_type")
                      "action is not present in the server-side catalog"]
         | Some descriptor =>
             let mode := ToUpper (configString config "mode").1 in
             error_if ((mode != "") && (mode != "DRY_RUN") && (mode != "LIVE")) "action_mode"
               (path +:+ ".config.mode") "mode must be DRY_RUN or LIVE" ++
             error_if (let '(requested, ok) := configInt config "risk_level" in ok && (requested != ad_Level descriptor))
               "risk_spoofing" (path +:+ ".config.risk_level") "risk level is assigned by the server action catalog"
         end
     end
   else if nd_Type node == SOARNodeApproval then
     error_if (let '(required, ok) := configInt config "required_approvals" in
               negb ok || (required <? 1) || (2 <? required))
       "approval_count" (path +:+ ".config.required_approvals") "required_approvals must be 1 or 2"
   else if nd_Type node == SOARNodeDelay then
     error_if (let '(delay, ok) := configInt config "duration_seconds" in negb ok || (delay <? 1) || (86400 <? delay))
       "delay" (path +:+ ".config.duration_seconds") "delay must be between 1 second and 24 hours"
   else if nd_Type node == SOARNodeLoop then
     error_if (let '(iterations, ok) := configInt config "maximum_iterations" in
               negb ok || (iterations <? 1) || (100 <? iterations))
       "loop_bound" (path +:+ ".config.maximum_iterations") "loop requires a maximum of 1 to 100 iterations"
   else if nd_Type node == SOARNodeWebhook then
     [issue "WARNING" "connector_required" path
        "webhook execution requires a registered connector and secret binding"]
   else []).

(** ** The dependency graph *)

Abbreviation NodeMap := (gmap string SOARNode).

(** [nodes[id].DependsOn]: a missing node reads as the zero node. *)
Definition deps (nodes : NodeMap) (id : string) : list string :=
  match nodes !! id with Some node => nd_DependsOn node | None => [] end.

(** The dependencies that are nodes themselves, which the search follows. *)
Definition known_deps (nodes : NodeMap) (id : string) : list string :=
  filter (fun dependency => is_Some (nodes !! dependency)) (deps nodes id).

Inductive Mark : Type := visiting | visited.
#[global] Instance Mark_eq_dec : EqDecision Mark.
Proof. solve_decision. Defined.

Record CycleSearch : Type := { cs_state : gmap string Mark; cs_stack : list string }.

(** [stack[index:]] followed by [id], from the first occurrence of [id]. *)
Fixpoint stack_from (id : string) (stack : list string) : option (list string) :=
  match stack with
  | [] => None
  | item :: rest => if item == id then Some (stack ++ [id]) else stack_from id rest
  end.

Section Visits.
Variable visit : string -> CycleSearch -> option (list string * CycleSearch).

(** The loop over the dependencies, which returns the first cycle found. *)
Fixpoint visit_each (ids : list string) (st : CycleSearch) : option (list string * CycleSearch) :=
  match ids with
  | [] => Some ([], st)
  | id :: rest =>
      match visit id st with
      | Some ([], st) => visit_each rest st
      | result => result
      end
  end.

End Visits.

(** [None] is a search out of fuel. *)
Fixpoint visit (nodes : NodeMap) (fuel : nat) (id : string) (st : CycleSearch)
    : option (list string * CycleSearch) :=
  match fuel with
  | O => None
  | S fuel =>
      match cs_state st !! id with
      | Some visiting => Some (default [id; id] (stack_from id (cs_stack st)), st)
      | Some visited => Some ([], st)
      | None =>
          let st := {| cs_state := <[id := visiting]> (cs_state st); cs_stack := cs_stack st ++ [id] |} in
          match visit_each (visit nodes fuel) (known_deps nodes id) st with
          | Some ([], st) =>
              Some ([], {| cs_state := <[id := visited]> (cs_state st);
                           cs_stack := take (length (cs_stack st) - 1) (cs_stack st) |})
          | result => result
          end
      end
  end.

Definition detectCycle (nodes : NodeMap) : list string :=
  let keys := sort_Strings (map_to_list nodes).*1 in
  match visit_each (visit nodes (S (size nodes))) keys {| cs_state := ∅; cs_stack := [] |} with
  | Some (cycle, _) => cycle
  | None => []
  end.

(** The state of [maximumApprovalAncestors]: the visited set and the maximum. *)
Definition ApprovalWalk : Type := gset string * Z.

Definition approval_count (node : SOARNode) (maximum : Z) : Z :=
  if nd_Type node == SOARNodeApproval then
    let '(count, ok) := configInt (nd_Config node) "required_approvals" in
    if ok && (maximum <? count) then count else maximum
  else maximum.

Section Walks.
Variable nodes : NodeMap.
Variable walk : string -> ApprovalWalk -> option ApprovalWalk.

Fixpoint walk_each (ids : list string) (st : ApprovalWalk) : option ApprovalWalk :=
  match ids with
  | [] => Some st
  | dependency :: rest =>
      let '(seen, maximum) := st in
      if dependency ∈? seen then walk_each rest st else
      let seen := {[dependency]} ∪ seen in
      match nodes !! dependency with
      | None => walk_each rest (seen, maximum)
      | Some node =>
          match walk dependency (seen, approval_count node maximum) with
          | Some st => walk_each rest st
          | None => None
          end
      end
  end.

End Walks.

Fixpoint walk (nodes : NodeMap) (fuel : nat) (id : string) (st : ApprovalWalk) : option ApprovalWalk :=
  match fuel with
  | O => None
  | S fuel => walk_each nodes (walk nodes fuel) (deps nodes id) st
  end.

Definition maximumApprovalAncestors (nodeID : string) (nodes : NodeMap) : Z :=
  match walk nodes (S (size nodes)) nodeID (∅, 0) with
  | Some (_, maximum) => maximum
  | None => 0
  end.

(** ** Validate *)

Definition json_node (node : SOARNode) : string :=
  json_object (
    [("id", json_string (nd_ID node)); ("type", json_string (nd_Type node)); ("name", json_string (nd_Name node))] ++
    (if nd_DependsOn node == [] then [] else [("depends_on", json_array (List.map json_string (nd_DependsOn node)))]) ++
    (if nd_TimeoutSeconds node =? 0 then [] else [("timeout_seconds", Itoa (nd_TimeoutSeconds node))]) ++
    [("retry", json_object [("maximum_attempts", Itoa (rp_MaximumAttempts (nd_Retry node)));
                            ("backoff_seconds", Itoa (rp_BackoffSeconds (nd_Retry node)));
                            ("maximum_backoff_seconds", Itoa (rp_MaximumBackoff (nd_Retry node)))])] ++
    (if default ∅ (nd_Config node) == ∅ then [] else [("config", json_metadata (nd_Config node))])).

Definition json_spec (spec : SOARPlaybookSpec) : string :=
  json_object
    [("schema_version", json_string (sp_SchemaVersion spec));
     ("trigger", json_object [("type", json_string (tr_Type (sp_Trigger spec)))]);
     ("nodes", match sp_Nodes spec with Some nodes => json_array (List.map json_node nodes) | None => "null" end)].

Definition node_path (index : nat) : string := "nodes[" +:+ Itoa (Z.of_nat index) +:+ "]".

(** The first loop: the well-named nodes by identifier, each one checked. *)
Fixpoint index_nodes (actions : ActionCatalog) (index : nat) (nodes : NodeMap) (l : list SOARNode)
    : NodeMap * list SOARValidationIssue :=
  match l with
  | [] => (nodes, [])
  | node :: rest =>
      let path := node_path index in
      let '(nodes, issues) :=
        if negb (nodeIDPattern (nd_ID node)) then
          (nodes, [issue "ERROR" "node_id" (path +:+ ".id") "node id must be a stable 1-64 character identifier"])
        else match nodes !! nd_ID node with
             | Some _ => (nodes, [issue "ERROR" "duplicate_node" (path +:+ ".id") "node id must be unique"])
             | None => (<[nd_ID node := node]> nodes, validateNode actions node path)
             end in
      let '(nodes, more) := index_nodes actions (S index) nodes rest in
      (nodes, issues ++ more)
  end.

(** The second loop's body for one node: [seen] is [seenDependency]. *)
Fixpoint check_dependencies (nodes : NodeMap) (path id : string) (seen : list string) (l : list string)
    : list SOARValidationIssue :=
  match l with
  | [] => []
  | dependency :: rest =>
      (if dependency == id then [issue "ERROR" "self_dependency" path "node cannot depend on itself"]
       else if bool_decide (nodes !! dependency = None) then
         [issue "ERROR" "unknown_dependency" path ("dependency " +:+ dependency +:+ " does not exist")]
       else if dependency ∈? seen then
         [issue "ERROR" "duplicate_dependency" path ("dependency " +:+ dependency +:+ " is repeated")]
       else []) ++ check_dependencies nodes path id (dependency :: seen) rest
  end.

Definition required_approvals (level : Z) : Z :=
  if level =? 4 then 1 else if (level =? 5) || (level =? 6) then 2 else 0.

(** The third loop's body: what the level of an action demands of the graph. *)
Definition check_action (actions : ActionCatalog) (nodes : NodeMap) (index : nat) (node : SOARNode)
    : list SOARValidationIssue :=
  if nd_Type node != SOARNodeAction then [] else
  match actions !! (configString (nd_Config node) "action_type").1 with
  | None => []
  | Some descriptor =>
      let mode := ToUpper (configString (nd_Config node) "mode").1 in
      let mode := if mode == "" then "DRY_RUN" else mode in
      let required := required_approvals (ad_Level descriptor) in
      error_if ((ad_Level descriptor =? 6) && (mode == "LIVE")) "destructive_disabled"
        (node_path index +:+ ".config.mode") "A6 live actions are disabled for university deployments" ++
      error_if ((0 <? required) && (maximumApprovalAncestors (nd_ID node) nodes <? required)) "approval_required"
        (node_path index +:+ ".depends_on")
        ("A" +:+ Itoa (ad_Level descriptor) +:+ " action requires an approval ancestor with at least " +:+
         Itoa required +:+ " independent approval(s)") ++
      error_if ((3 <=? ad_Level descriptor) && (mode == "LIVE") &&
                negb (match metadata_get (nd_Config node) "verify" with Some (VBool verify) => verify | _ => false end))
        "verification_required" (node_path index +:+ ".config.verify")
        "live containment actions require verification" ++
      error_if ((ad_Level descriptor =? 3) && (mode == "LIVE") &&
                (negb (ad_Reversible descriptor) || ((configString (nd_Config node) "compensation_action").1 == "")))
        "compensation_required" (node_path index +:+ ".config.compensation_action")
        "A3 live containment requires a reversible compensation action"
  end.

(** [less] of the stable sort of the issues, and the order it stands for:
    [less] of the later one is false. *)
Definition issue_less (a b : SOARValidationIssue) : bool :=
  if vi_Level a == vi_Level b then bool_decide (String.le (vi_Path a) (vi_Path b)) && (vi_Path a != vi_Path b)
  else vi_Level a == "ERROR".

Definition issue_le (a b : SOARValidationIssue) : Prop := issue_less b a = false.
#[global] Instance issue_le_dec a b : Decision (issue_le a b) := decide (issue_less b a = false).

Definition flat_mapi {A B} (f : nat -> A -> list B) (l : list A) : list B := concat (imap f l).

(** Every [add] of the three loops, in order. *)
Definition spec_issues (actions : ActionCatalog) (spec : SOARPlaybookSpec) : list SOARValidationIssue :=
  let '(nodes, node_issues) := index_nodes actions 0 ∅ (spec_nodes spec) in
  let roots := length (filter (fun node => nd_DependsOn node = []) (spec_nodes spec)) in
  error_if (sp_SchemaVersion spec != "1.0") "schema_version" "schema_version" "schema_version must be 1.0" ++
  error_if (negb (ToUpper (TrimSpace (tr_Type (sp_Trigger spec))) ∈? ["MANUAL"; "ALERT"; "INCIDENT"]))
    "trigger_type" "trigger.type" "trigger type must be MANUAL, ALERT, or INCIDENT" ++
  error_if (let n := Z.of_nat (length (spec_nodes spec)) in (n =? 0) || (100 <? n))
    "node_count" "nodes" "playbook must contain between 1 and 100 nodes" ++
  node_issues ++
  flat_mapi (fun index node =>
    check_dependencies nodes (node_path index +:+ ".depends_on") (nd_ID node) [] (nd_DependsOn node)) (spec_nodes spec) ++
  error_if ((roots =? 0)%nat && (0 <? length (spec_nodes spec))%nat) "missing_root" "nodes"
    "playbook must have at least one root node" ++
  error_if (detectCycle nodes != []) "cycle" "nodes"
    ("playbook graph contains a cycle: " +:+ Join (detectCycle nodes) " -> ") ++
  flat_mapi (check_action actions nodes) (spec_nodes spec).

(** [now] is the clock of the validator. *)
Definition Validate (actions : ActionCatalog) (now : Time) (spec : SOARPlaybookSpec) : SOARValidationReport :=
  let issues := merge_sort issue_le (spec_issues actions spec) in
  {| vr_Valid := negb (existsb (fun i => vi_Level i == "ERROR") issues);
     vr_SpecHash := sha256_hex (json_spec spec);
     vr_NodeCount := Z.of_nat (length (spec_nodes spec));
     vr_Issues := issues;
     vr_ValidatedAt := now |}.
