(* ===== verification/PlaybookFacts.v ===== *)
(** * The graph searches of the playbook validator

    [detectCycle] is a depth-first search: every node it has finished is
    accessible in the dependency order, and what it returns is a closed walk.
    [maximumApprovalAncestors] computes the maximum over all the ancestors.
    For both, one unit of fuel per node is enough. *)

From S2P Require Import Prelude GoLang GoFormat Core Playbook.

(** [id] depends on the node [dependency]. *)
Definition depends (nodes : NodeMap) (id dependency : string) : Prop := dependency ∈ known_deps nodes id.

(** Consecutive elements are related. *)
Fixpoint linked {A} (R : A -> A -> Prop) (l : list A) : Prop :=
  match l with
  | a :: (b :: _) as rest => R a b /\ linked R rest
  | _ => True
  end.

(** A walk along dependencies that ends where it starts. *)
Definition closed_walk (nodes : NodeMap) (l : list string) : Prop :=
  exists id mid, l = id :: mid ++ [id] /\ linked (depends nodes) l.

Definition acyclic (nodes : NodeMap) : Prop := forall id, ~ tc (depends nodes) id id.

(** ** Walks and accessibility *)

Section Walk.
Context {A : Type} (R : A -> A -> Prop).

Lemma linked_snoc l a : linked R l -> (forall p, last l = Some p -> R p a) -> linked R (l ++ [a]).
Proof.
  induction l as [|x [|y l] IH]; cbn; intros L E; [done|by split; [apply E|]|].
  destruct L as [L1 L2]. split; [done|]. by apply IH.
Qed.

Lemma linked_suffix l1 l2 : linked R (l1 ++ l2) -> linked R l2.
Proof. induction l1 as [|x l1 IH]; [done|]. intros L. apply IH. destruct l1, l2; cbn in *; tauto. Qed.

Lemma linked_tc l a b : linked R (a :: l ++ [b]) -> tc R a b.
Proof.
  revert a. induction l as [|x l IH]; intros a L; cbn in L; [apply tc_once, L|].
  destruct L as [L1 L2]. eapply tc_l; [exact L1|by apply IH].
Qed.

Lemma Acc_no_cycle a : Acc (fun y x => R x y) a -> ~ tc R a a.
Proof.
  induction 1 as [a _ IH]. intros C.
  assert (exists b, R a b /\ tc R b b) as (b & H1 & H2); [|by apply (IH b)].
  inversion C as [? ? H|? b ? H H']; subst; [by exists a|]. exists b. split; [done|]. by eapply tc_r.
Qed.

Lemma tc_last_r a b : tc R a b -> exists c, rtc R a c /\ R c b.
Proof.
  induction 1 as [x y H|x y z H _ (c & H1 & H2)]; [exists x; by split|]. exists c. split; [by eapply rtc_l|done].
Qed.

End Walk.

Lemma tc_mono {A} (R S : A -> A -> Prop) a b : (forall x y, R x y -> S x y) -> tc R a b -> tc S a b.
Proof. intros H. induction 1 as [x y K|x y z K _ IH]; [by apply tc_once, H|by eapply tc_l; [apply H|]]. Qed.

Lemma known_deps_spec nodes id d : d ∈ known_deps nodes id <-> d ∈ deps nodes id /\ is_Some (nodes !! d).
Proof. unfold known_deps. rewrite list_elem_of_filter. tauto. Qed.

Lemma tc_depends_acyclic nodes l : closed_walk nodes l -> ~ acyclic nodes.
Proof. intros (id & mid & -> & L) A. apply (A id). by eapply linked_tc. Qed.

(** ** detectCycle *)

Section Cycle.
Context (nodes : NodeMap).

Definition later (y x : string) : Prop := depends nodes x y.

Record search_ok (st : CycleSearch) : Prop := {
  so_stack : forall x, cs_state st !! x = Some visiting <-> x ∈ cs_stack st;
  so_done : forall x, cs_state st !! x = Some visited -> Acc later x;
  so_linked : linked (depends nodes) (cs_stack st);
  so_nodup : NoDup (cs_stack st);
  so_nodes : forall x, is_Some (cs_state st !! x) -> is_Some (nodes !! x)
}.

(** The nodes that are not marked yet. *)
Definition unmarked (st : CycleSearch) : nat := size (dom nodes ∖ dom (cs_state st) : gset string).

(** The node may be visited next: the top of the stack depends on it. *)
Definition next_ok (st : CycleSearch) (id : string) : Prop :=
  is_Some (nodes !! id) /\ forall p, last (cs_stack st) = Some p -> depends nodes p id.

(** What a search from [st] promises of its result. *)
Definition visit_post (st : CycleSearch) (ids : list string) (result : option (list string * CycleSearch)) : Prop :=
  exists cycle st', result = Some (cycle, st') /\
    (cycle <> [] -> closed_walk nodes cycle) /\
    (cycle = [] -> search_ok st' /\ cs_stack st' = cs_stack st /\ cs_state st ⊆ cs_state st' /\
                   Forall (fun id => cs_state st' !! id = Some visited) ids).

Lemma unmarked_mono st st' : cs_state st ⊆ cs_state st' -> (unmarked st' <= unmarked st)%nat.
Proof. intros H. unfold unmarked. apply subseteq_size. apply subseteq_dom in H. set_solver. Qed.

Lemma stack_from_spec id stack : id ∈ stack ->
  exists pre mid, stack = pre ++ id :: mid /\ stack_from id stack = Some (id :: mid ++ [id]).
Proof.
  induction stack as [|x stack IH]; intros H; [by apply not_elem_of_nil in H|]. cbn.
  case_bool_decide as E; [subst; by exists [], stack|].
  apply elem_of_cons in H as [->|H]; [done|]. destruct (IH H) as (pre & mid & -> & ->). by exists (x :: pre), mid.
Qed.

Lemma closed_from_stack st id : search_ok st -> next_ok st id -> id ∈ cs_stack st ->
  closed_walk nodes (default [id; id] (stack_from id (cs_stack st))).
Proof.
  intros OK [_ N] H. destruct (stack_from_spec id _ H) as (pre & mid & E & ->). cbn.
  exists id, mid. split; [done|]. change (linked (depends nodes) ((id :: mid) ++ [id])).
  assert (L := so_linked _ OK). rewrite E in L. apply linked_suffix in L. apply linked_snoc; [done|].
  intros p Hp. apply N. rewrite E. by rewrite last_app, Hp.
Qed.

Lemma visit_each_post (f : string -> CycleSearch -> option (list string * CycleSearch)) n ids st :
  (forall id st, (unmarked st < n)%nat -> search_ok st -> next_ok st id -> visit_post st [id] (f id st)) ->
  (unmarked st < n)%nat -> search_ok st -> Forall (next_ok st) ids -> visit_post st ids (visit_each f ids st).
Proof.
  intros Hf. revert st. induction ids as [|id ids IH]; intros st Hn OK N; cbn [visit_each].
  { exists [], st. split; [done|]. split; [done|]. intros _. by split_and!. }
  apply Forall_cons in N as [N1 N2]. destruct (Hf id st Hn OK N1) as (c & st1 & -> & C1 & C2).
  destruct c as [|x c]; [|exists (x :: c), st1; split; [done|]; split; [by intros _; apply C1|done]].
  destruct (C2 eq_refl) as (OK1 & S1 & M1 & V1). apply Forall_inv in V1.
  destruct (IH st1) as (c & st2 & E & D1 & D2).
  - apply unmarked_mono in M1. lia.
  - done.
  - eapply Forall_impl; [exact N2|]. intros y [Y1 Y2]. split; [done|]. by rewrite S1.
  - exists c, st2. split; [done|]. split; [done|]. intros Hc. destruct (D2 Hc) as (OK2 & S2 & M2 & V2).
    split; [done|]. split; [congruence|]. split; [by trans (cs_state st1)|]. constructor; [|done]. exact (lookup_weaken _ _ _ _ V1 M2).
Qed.

(** Marking a node and pushing it. *)
Lemma search_ok_push st id : search_ok st -> next_ok st id -> cs_state st !! id = None ->
  search_ok {| cs_state := <[id := visiting]> (cs_state st); cs_stack := cs_stack st ++ [id] |}.
Proof.
  intros OK [N1 N2] H. assert (Hs : id ∉ cs_stack st) by (rewrite <- (so_stack _ OK); congruence).
  split; cbn [cs_state cs_stack].
  - intros x. rewrite lookup_insert_Some, elem_of_app, list_elem_of_singleton, <- (so_stack _ OK).
    split; [intros [[-> _]|[_ ?]]; tauto|]. destruct (decide (id = x)) as [->|]; [tauto|]. intros [?| ->]; tauto.
  - intros x. rewrite lookup_insert_Some. intros [[_ [=]]|[_ ?]]. by apply (so_done _ OK).
  - apply linked_snoc; [apply OK|done].
  - apply NoDup_app. split_and!; [apply OK| |apply NoDup_singleton]. intros x Hx ->%list_elem_of_singleton. done.
  - intros x. rewrite lookup_insert_is_Some. intros [<-|[_ ?]]; [done|by apply (so_nodes _ OK)].
Qed.

(** Finishing the node on top of the stack. *)
Lemma search_ok_pop st id stack : search_ok st -> cs_stack st = stack ++ [id] -> Acc later id ->
  search_ok {| cs_state := <[id := visited]> (cs_state st); cs_stack := stack |}.
Proof.
  intros OK E HA. assert (ND := so_nodup _ OK). assert (L := so_linked _ OK). rewrite E in ND, L.
  assert (Hid : cs_state st !! id = Some visiting) by (apply (so_stack _ OK); rewrite E; set_solver).
  split; cbn [cs_state cs_stack].
  - intros x. rewrite lookup_insert_Some, (so_stack _ OK), E. apply NoDup_app in ND as (_ & ND & _).
    split; [intros [[_ [=]]|[Hne Hx]]; set_solver|]. intros Hx. right. split; [|set_solver]. intros ->.
    apply (ND _ Hx). set_solver.
  - intros x. rewrite lookup_insert_Some. intros [[<- _]|[_ ?]]; [done|by apply (so_done _ OK)].
  - clear -L. induction stack as [|a [|b stack] IH]; cbn in *; [done..|]. destruct L as [? L]. split; [done|]. by apply IH.
  - by apply NoDup_app in ND as (? & _ & _).
  - intros x. rewrite lookup_insert_is_Some. intros [<-|[_ ?]]; apply (so_nodes _ OK); eauto.
Qed.

Lemma visit_ok fuel : forall id st, (unmarked st < fuel)%nat -> search_ok st -> next_ok st id ->
  visit_post st [id] (visit nodes fuel id st).
Proof.
  induction fuel as [|fuel IH]; intros id st Hf OK N; [lia|]. cbn [visit].
  destruct (cs_state st !! id) as [[]|] eqn:M.
  { assert (H : id ∈ cs_stack st) by exact (proj1 (so_stack _ OK id) M).
    assert (W := closed_from_stack st id OK N H).
    eexists _, st. split; [done|]. split; [done|]. intros E. rewrite E in W. by destruct W as (? & ? & [=] & _). }
  { exists [], st. split; [done|]. split; [done|]. intros _. split_and!; [done..|]. by apply Forall_singleton. }
  set (st1 := {| cs_state := _ |}). assert (OK1 : search_ok st1) by (by apply search_ok_push).
  assert (U : (unmarked st1 < unmarked st)%nat).
  { unfold unmarked. apply subset_size. unfold st1. cbn. destruct N as [N _]. apply elem_of_dom in N.
    apply not_elem_of_dom in M. set_solver. }
  destruct (visit_each_post (visit nodes fuel) fuel (known_deps nodes id) st1 IH) as (c & st2 & -> & C1 & C2); [lia|done| |].
  { apply Forall_forall. intros d Hd. split; [by apply known_deps_spec in Hd as [_ ?]|].
    intros p. unfold st1. cbn. rewrite last_snoc. by intros [= <-]. }
  destruct c as [|x c]; [|exists (x :: c), st2; split; [done|]; split; [by intros _; apply C1|done]].
  destruct (C2 eq_refl) as (OK2 & S2 & M2 & V2). unfold st1 in S2. cbn in S2.
  assert (HA : Acc later id).
  { constructor. intros d Hd. apply (so_done _ OK2). rewrite Forall_forall in V2. by apply V2. }
  eexists [], _. split; [done|]. split; [done|]. intros _. rewrite S2, length_app. cbn.
  rewrite Nat.add_sub, take_app_length. split_and!.
  - by eapply search_ok_pop.
  - done.
  - cbn. apply insert_subseteq_r; [done|]. etransitivity; [|exact M2]. by apply insert_subseteq.
  - apply Forall_singleton. apply lookup_insert_eq.
Qed.

End Cycle.

Lemma detectCycle_spec nodes :
  (detectCycle nodes = [] <-> acyclic nodes) /\
  (detectCycle nodes <> [] -> closed_walk nodes (detectCycle nodes)).
Proof.
  unfold detectCycle. set (keys := sort_Strings _). set (st0 := {| cs_state := ∅; cs_stack := [] |}).
  assert (K : forall id, id ∈ keys <-> is_Some (nodes !! id)).
  { intros id. unfold keys, sort_Strings. rewrite (merge_sort_Permutation _ _), list_elem_of_fmap. split.
    - intros ([i n] & -> & H). apply elem_of_map_to_list in H. by exists n.
    - intros [n H]. exists (id, n). split; [done|]. by apply elem_of_map_to_list. }
  destruct (visit_each_post nodes (visit nodes (S (size nodes))) (S (size nodes)) keys st0) as (c & st & -> & C1 & C2).
  - apply visit_ok.
  - unfold unmarked, st0. rewrite <- (size_dom (D := gset string) nodes). apply Nat.lt_succ_r, subseteq_size. set_solver.
  - split; cbn; [set_solver|set_solver|done|constructor|]. intros x [? Hx]. by rewrite lookup_empty in Hx.
  - apply Forall_forall. intros id Hid. split; [by apply K|done].
  - assert (NC : c = [] -> acyclic nodes).
    { intros ->. destruct (C2 eq_refl) as (OK & _ & _ & V). intros id T. rewrite Forall_forall in V.
      apply (Acc_no_cycle (depends nodes) id); [|done]. apply (so_done _ _ OK), V, K.
      inversion T as [? ? H|? d ? H H']; subst.
      - by apply known_deps_spec in H as [_ ?].
      - unfold depends, known_deps, deps in H. destruct (nodes !! id); [by eexists|].
        by apply list_elem_of_filter in H as [_ ?%not_elem_of_nil]. }
    split; [|done]. split; [done|]. intros A. destruct c as [|x c]; [done|].
    exfalso. eapply tc_depends_acyclic; [by apply C1|done].
Qed.

(** ** maximumApprovalAncestors *)

Section Approvals.
Context (nodes : NodeMap).

(** [id] names [dependency] in its dependencies, be it a node or not. *)
Definition names (id dependency : string) : Prop := dependency ∈ deps nodes id.

(** The approvals a node asks for by itself. *)
Definition node_count (id : string) : Z :=
  match nodes !! id with Some node => approval_count node 0 | None => 0 end.

(** The nodes the walk has not seen. *)
Definition unseen (seen : gset string) : nat := size (dom nodes ∖ seen : gset string).

(** What the search from the identifiers [ids] of [origin] promises: it sees
    them, all it sees is an ancestor of [origin] and closed under [names], and
    the maximum is the greatest count among what it saw. *)
Definition walk_post (origin : string) (ids : list string) (st : ApprovalWalk) (result : option ApprovalWalk) : Prop :=
  exists seen' maximum', result = Some (seen', maximum') /\ st.1 ⊆ seen' /\
    (forall d, d ∈ ids -> d ∈ seen') /\
    (forall x, x ∈ seen' -> (x ∉ st.1) ->
       tc names origin x /\ (forall d, d ∈ deps nodes x -> d ∈ seen') /\ node_count x <= maximum') /\
    st.2 <= maximum' /\
    (maximum' = st.2 \/ exists x, x ∈ seen' /\ (x ∉ st.1) /\ node_count x = maximum').

Lemma approval_count_max node m : 0 <= m -> approval_count node m = Z.max m (approval_count node 0).
Proof.
  intros Hm. unfold approval_count. destruct (_ == _); [|lia]. destruct (configInt _ _) as [c []]; cbn; [|lia].
  destruct (Z.ltb_spec m c), (Z.ltb_spec 0 c); lia.
Qed.

Lemma walk_each_post (f : string -> ApprovalWalk -> option ApprovalWalk) n origin :
  (forall id seen m, (unseen seen < n)%nat -> 0 <= m -> walk_post id (deps nodes id) (seen, m) (f id (seen, m))) ->
  forall ids seen m, (unseen seen < S n)%nat -> 0 <= m -> Forall (names origin) ids ->
  walk_post origin ids (seen, m) (walk_each nodes f ids (seen, m)).
Proof.
  intros Hf. induction ids as [|d ids IH]; intros seen m Hn Hm HF; cbn [walk_each].
  { exists seen, m. split_and!; cbn; [done|done|by intros d ?%not_elem_of_nil|done|lia|by left]. }
  apply Forall_cons in HF as [Hd HF]. case_bool_decide as Hs.
  { destruct (IH seen m Hn Hm HF) as (s' & m' & -> & A & B & C). exists s', m'. cbn [fst snd]. split; [done|]. split; [done|].
    split; [|done]. intros x [->|Hx]%elem_of_cons; [by apply A|by apply B]. }
  destruct (nodes !! d) as [node|] eqn:Ed.
  2: { destruct (IH ({[d]} ∪ seen) m) as (s' & m' & -> & A & B & C & D & E); [|done|done|].
    { eapply Nat.le_lt_trans; [|exact Hn]. unfold unseen. apply subseteq_size. set_solver. }
    cbn [fst snd] in *. exists s', m'. cbn [fst snd]. split; [done|]. split; [set_solver|]. split.
    { intros x [->|Hx]%elem_of_cons; [set_solver|by apply B]. }
    split_and!; [|done|].
    - intros x Hx Hnx. destruct (decide (x = d)) as [->|Hne]; [|apply C; set_solver].
      split; [by apply tc_once|]. split.
      + intros y. unfold deps. rewrite Ed. by intros ?%not_elem_of_nil.
      + unfold node_count. rewrite Ed. cbn. lia.
    - destruct E as [->|(x & X1 & X2 & X3)]; [by left|right; exists x; set_solver]. }
  assert (U : (unseen ({[d]} ∪ seen) < n)%nat).
  { apply Nat.lt_le_trans with (unseen seen); [|lia]. unfold unseen. apply subset_size.
    apply elem_of_dom_2 in Ed. set_solver. }
  assert (M1 := approval_count_max node m Hm).
  assert (Nd : node_count d = approval_count node 0) by (unfold node_count; by rewrite Ed).
  destruct (Hf d ({[d]} ∪ seen) (approval_count node m) U) as (s1 & m1 & -> & A1 & B1 & C1 & D1 & E1); [lia|].
  cbn [fst snd] in *.
  destruct (IH s1 m1) as (s2 & m2 & -> & A2 & B2 & C2 & D2 & E2); [|lia|done|].
  { apply Nat.le_lt_trans with (unseen ({[d]} ∪ seen)); [|lia]. unfold unseen. apply subseteq_size. set_solver. }
  cbn [fst snd] in *. exists s2, m2. cbn [fst snd]. split; [done|]. split; [set_solver|]. split.
  { intros x [->|Hx]%elem_of_cons; [set_solver|by apply B2]. }
  split_and!; [|lia|].
  - intros x Hx Hnx. destruct (decide (x ∈ s1)) as [H1|H1]; [|by apply C2].
    destruct (decide (x = d)) as [->|Hne].
    + split; [by apply tc_once|]. split; [|lia]. intros y Hy. apply A2. by apply B1.
    + destruct (C1 x H1) as (T & K & L); [set_solver|]. split; [|split; [|lia]].
      * eapply tc_l; [exact Hd|exact T].
      * intros y Hy. apply A2. by apply K.
  - destruct E2 as [->|(x & X1 & X2 & X3)]; [|right; exists x; split; [done|split; [set_solver|done]]].
    destruct E1 as [->|(x & X1 & X2 & X3)]; [|right; exists x; split; [set_solver|split; [set_solver|done]]].
    destruct (Z.max_spec m (approval_count node 0)) as [[? E]|[? E]]; [right; exists d|left; lia].
    split; [set_solver|]. split; [done|lia].
Qed.

Lemma walk_ok fuel : forall id seen m, (unseen seen < fuel)%nat -> 0 <= m ->
  walk_post id (deps nodes id) (seen, m) (walk nodes fuel id (seen, m)).
Proof.
  induction fuel as [|fuel IH]; intros id seen m Hn Hm; [lia|]. cbn [walk].
  apply (walk_each_post _ fuel id IH); [lia|done|]. by apply Forall_forall.
Qed.

Lemma seen_closed origin (seen : gset string) : (forall d, names origin d -> d ∈ seen) ->
  (forall x, x ∈ seen -> forall d, names x d -> d ∈ seen) -> forall x, tc names origin x -> x ∈ seen.
Proof.
  intros H0 H1 x T. apply tc_last_r in T as (y & R & E). induction R as [|a b c Hab R IH] in H0, E |- *.
  - by apply H0.
  - apply IH; [|done]. intros d Hd. apply (H1 b); [by apply H0|done].
Qed.

(** The maximum over the ancestors of the approvals they ask for, or 0. *)
Lemma maximumApprovalAncestors_spec id :
  (forall a, tc names id a -> node_count a <= maximumApprovalAncestors id nodes) /\
  (maximumApprovalAncestors id nodes <> 0 ->
   exists a, tc names id a /\ node_count a = maximumApprovalAncestors id nodes).
Proof.
  unfold maximumApprovalAncestors.
  destruct (walk_ok (S (size nodes)) id ∅ 0) as (s & m & -> & A & B & C & D & E); [|lia|].
  { unfold unseen. rewrite <- (size_dom (D := gset string) nodes). apply Nat.lt_succ_r, subseteq_size. set_solver. }
  cbn [fst snd] in *. split.
  - intros a T. apply (seen_closed id s) in T; [apply C; [done|set_solver]|done|].
    intros x Hx d Hd. apply (C x Hx); [set_solver|done].
  - intros Hm. destruct E as [?|(x & X1 & X2 & X3)]; [done|]. exists x. split; [by apply C|done].
Qed.

Lemma node_count_pos a : 0 < node_count a ->
  exists node, nodes !! a = Some node /\ nd_Type node = SOARNodeApproval /\
               configInt (nd_Config node) "required_approvals" = (node_count a, true).
Proof.
  unfold node_count. destruct (nodes !! a) as [node|]; [|lia]. unfold approval_count.
  case_bool_decide as T; [|lia]. destruct (configInt _ _) as [c []] eqn:E; cbn; [|lia].
  destruct (Z.ltb_spec 0 c); [|lia]. intros _. exists node. by rewrite E.
Qed.

End Approvals.

(** * What a publishable playbook is

    [sound] states, without the validator's searches and its accumulated
    issues, which specifications may be published: a finite acyclic graph of
    well-formed nodes in which every containment action is guarded.  The
    validator accepts exactly those (PlaybookProps.v). *)

(** The node [a] of the specification names [b] among its dependencies. *)
Definition dep_edge (spec : SOARPlaybookSpec) (a b : string) : Prop :=
  exists node, node ∈ spec_nodes spec /\ nd_ID node = a /\ b ∈ nd_DependsOn node.

Definition retry_sound (retry : SOARRetryPolicy) : Prop :=
  0 <= rp_MaximumAttempts retry <= 5 /\ 0 <= rp_BackoffSeconds retry <= 3600 /\ 0 <= rp_MaximumBackoff retry <= 86400.

(** The integer of a configuration is present and within bounds. *)
Definition int_within (config : Metadata) (key : string) (low high : Z) : Prop :=
  exists n, configInt config key = (n, true) /\ low <= n <= high.

Record node_sound (actions : ActionCatalog) (node : SOARNode) : Prop := {
  ns_type : nd_Type node ∈ allowedTypes;
  ns_name : TrimSpace (nd_Name node) <> "" /\ string_len (nd_Name node) <= 160;
  ns_timeout : 0 <= nd_TimeoutSeconds node <= 3600;
  ns_retry : retry_sound (nd_Retry node);
  ns_no_code : dangerousConfig (config_value (nd_Config node)) = false;
  ns_action : nd_Type node = SOARNodeAction -> exists actionType descriptor,
    configString (nd_Config node) "action_type" = (actionType, true) /\ actions !! actionType = Some descriptor /\
    ToUpper (configString (nd_Config node) "mode").1 ∈ [""; "DRY_RUN"; "LIVE"] /\
    forall level, configInt (nd_Config node) "risk_level" = (level, true) -> level = ad_Level descriptor;
  ns_approval : nd_Type node = SOARNodeApproval -> int_within (nd_Config node) "required_approvals" 1 2;
  ns_delay : nd_Type node = SOARNodeDelay -> int_within (nd_Config node) "duration_seconds" 1 86400;
  ns_loop : nd_Type node = SOARNodeLoop -> int_within (nd_Config node) "maximum_iterations" 1 100
}.

(** An approval node among the ancestors asks for [n] approvals or more. *)
Definition approved_by (spec : SOARPlaybookSpec) (n : Z) (id : string) : Prop :=
  exists a approval count, tc (dep_edge spec) id a /\ approval ∈ spec_nodes spec /\ nd_ID approval = a /\
    nd_Type approval = SOARNodeApproval /\
    configInt (nd_Config approval) "required_approvals" = (count, true) /\ n <= count.

Definition is_live (config : Metadata) : Prop := ToUpper (configString config "mode").1 = "LIVE".

(** What the level of an action asks of the graph around it. *)
Record action_guarded (spec : SOARPlaybookSpec) (node : SOARNode) (descriptor : ActionDescriptor) : Prop := {
  ag_destructive : ad_Level descriptor = 6 -> ~ is_live (nd_Config node);
  ag_approved : ad_Level descriptor = 4 -> approved_by spec 1 (nd_ID node);
  ag_four_eyes : ad_Level descriptor = 5 \/ ad_Level descriptor = 6 -> approved_by spec 2 (nd_ID node);
  ag_verified : 3 <= ad_Level descriptor -> is_live (nd_Config node) ->
    metadata_get (nd_Config node) "verify" = Some (VBool true);
  ag_compensated : ad_Level descriptor = 3 -> is_live (nd_Config node) ->
    ad_Reversible descriptor = true /\ (configString (nd_Config node) "compensation_action").1 <> ""
}.

Record sound (actions : ActionCatalog) (spec : SOARPlaybookSpec) : Prop := {
  sd_schema : sp_SchemaVersion spec = "1.0";
  sd_trigger : ToUpper (TrimSpace (tr_Type (sp_Trigger spec))) ∈ ["MANUAL"; "ALERT"; "INCIDENT"];
  sd_count : 1 <= Z.of_nat (length (spec_nodes spec)) <= 100;
  sd_ids : forall node, node ∈ spec_nodes spec -> nodeIDPattern (nd_ID node) = true;
  sd_unique : NoDup (List.map nd_ID (spec_nodes spec));
  sd_nodes : forall node, node ∈ spec_nodes spec -> node_sound actions node;
  sd_root : exists node, node ∈ spec_nodes spec /\ nd_DependsOn node = [];
  sd_deps : forall node, node ∈ spec_nodes spec -> NoDup (nd_DependsOn node) /\
    forall d, d ∈ nd_DependsOn node -> d <> nd_ID node /\ d ∈ List.map nd_ID (spec_nodes spec);
  sd_acyclic : forall id, ~ tc (dep_edge spec) id id;
  sd_actions : forall node descriptor, node ∈ spec_nodes spec -> nd_Type node = SOARNodeAction ->
    actions !! (configString (nd_Config node) "action_type").1 = Some descriptor -> action_guarded spec node descriptor
}.

(** ** Reports without errors *)

Definition clean (l : list SOARValidationIssue) : Prop := forall i, i ∈ l -> vi_Level i <> "ERROR".

Lemma clean_app l1 l2 : clean (l1 ++ l2) <-> clean l1 /\ clean l2.
Proof. unfold clean. setoid_rewrite elem_of_app. naive_solver. Qed.

Lemma clean_nil : clean [].
Proof. by intros i ?%not_elem_of_nil. Qed.

Lemma clean_error code path message : ~ clean [issue "ERROR" code path message].
Proof. intros H. eapply H; [left|]. done. Qed.

Lemma clean_error_if b code path message : clean (error_if b code path message) <-> b = false.
Proof.
  destruct b; cbn; split; try done; [intros H; by destruct (clean_error code path message)|intros _; apply clean_nil].
Qed.

Lemma clean_concat ls : clean (concat ls) <-> forall l, l ∈ ls -> clean l.
Proof.
  induction ls as [|l ls IH]; cbn; [split; [by intros _ l ?%not_elem_of_nil|intros _; apply clean_nil]|].
  rewrite clean_app, IH. split; [|intros H; split; [apply H; left|intros; apply H; by right]].
  intros [H1 H2] l' [->|Hl]%elem_of_cons; [done|by apply H2].
Qed.

Lemma clean_flat_mapi {A} (f : nat -> A -> list SOARValidationIssue) (P : A -> Prop) l :
  (forall k a, clean (f k a) <-> P a) -> clean (flat_mapi f l) <-> forall a, a ∈ l -> P a.
Proof.
  intros Hf. unfold flat_mapi. rewrite clean_concat. split.
  - intros H a Ha. apply list_elem_of_lookup in Ha as [k Hk]. apply (Hf k), H.
    apply list_elem_of_lookup. exists k. by rewrite list_lookup_imap, Hk.
  - intros H l' Hl. apply list_elem_of_lookup in Hl as [k Hk]. rewrite list_lookup_imap in Hk.
    apply fmap_Some in Hk as (a & Ha & ->). apply Hf, H. by eapply list_elem_of_lookup_2.
Qed.

Lemma Validate_clean actions now spec : vr_Valid (Validate actions now spec) = true <-> clean (spec_issues actions spec).
Proof.
  unfold Validate, clean. cbn. rewrite negb_true_iff, <- not_true_iff_false, existsb_exists. split.
  - intros H i Hi E. apply H. exists i. split; [|by apply bool_decide_eq_true].
    apply list_elem_of_In. by rewrite (merge_sort_Permutation _ _).
  - intros H (i & Hi & E%bool_decide_eq_true). apply list_elem_of_In in Hi. rewrite (merge_sort_Permutation _ _) in Hi.
    by apply (H i).
Qed.
