(* ===== verification/PlaybookProps.v ===== *)
(** * The validator accepts exactly the sound playbooks *)

From S2P Require Import Prelude GoLang GoFormat Core Playbook PlaybookFacts.

(** ** The checks of one node *)

Ltac bool_to_prop :=
  repeat match goal with
  | |- context [(_ || _) = false] => rewrite orb_false_iff
  | |- context [(_ && _) = false] => rewrite andb_false_iff
  | |- context [negb _ = false] => rewrite negb_false_iff
  | |- context [negb _ = true] => rewrite negb_true_iff
  | |- context [(_ <? _) = false] => rewrite Z.ltb_ge
  | |- context [bool_decide _ = false] => rewrite bool_decide_eq_false
  | |- context [bool_decide _ = true] => rewrite bool_decide_eq_true
  end.

Lemma int_within_check config key low high :
  (let '(n, ok) := configInt config key in negb ok || (n <? low) || (high <? n)) = false <-> int_within config key low high.
Proof.
  unfold int_within. destruct (configInt config key) as [n ok]. bool_to_prop. split.
  - intros [[-> ?] ?]. by exists n.
  - intros (m & [= -> ->] & ? & ?). done.
Qed.

Lemma mode_check mode :
  ((mode != "") && (mode != "DRY_RUN") && (mode != "LIVE")) = false <-> mode ∈ [""; "DRY_RUN"; "LIVE"].
Proof.
  bool_to_prop. rewrite !elem_of_cons, elem_of_nil. tauto.
Qed.

(** The checks that depend on the type of the node. *)
Definition type_sound (actions : ActionCatalog) (node : SOARNode) : Prop :=
  (nd_Type node = SOARNodeAction -> exists actionType descriptor,
    configString (nd_Config node) "action_type" = (actionType, true) /\ actions !! actionType = Some descriptor /\
    ToUpper (configString (nd_Config node) "mode").1 ∈ [""; "DRY_RUN"; "LIVE"] /\
    forall level, configInt (nd_Config node) "risk_level" = (level, true) -> level = ad_Level descriptor) /\
  (nd_Type node = SOARNodeApproval -> int_within (nd_Config node) "required_approvals" 1 2) /\
  (nd_Type node = SOARNodeDelay -> int_within (nd_Config node) "duration_seconds" 1 86400) /\
  (nd_Type node = SOARNodeLoop -> int_within (nd_Config node) "maximum_iterations" 1 100).

Lemma node_sound_split actions node :
  node_sound actions node <->
  nd_Type node ∈ allowedTypes /\ (TrimSpace (nd_Name node) <> "" /\ string_len (nd_Name node) <= 160) /\
  0 <= nd_TimeoutSeconds node <= 3600 /\ retry_sound (nd_Retry node) /\
  dangerousConfig (config_value (nd_Config node)) = false /\ type_sound actions node.
Proof. unfold type_sound. split; [intros []; tauto|]. intros (? & ? & ? & ? & ? & ? & ? & ? & ?). by constructor. Qed.

Lemma action_check (actions : ActionCatalog) node path :
  clean (match configString (nd_Config node) "action_type" with
         | (_, false) => [issue "ERROR" "action_type" (path +:+ ".config.action_type") "action_type is required"]
         | (actionType, true) =>
             match actions !! actionType with
             | None => [issue "ERROR" "unknown_action" (path +:+ ".config.action_type")
                          "action is not present in the server-side catalog"]
             | Some descriptor =>
                 let mode := ToUpper (configString (nd_Config node) "mode").1 in
                 error_if ((mode != "") && (mode != "DRY_RUN") && (mode != "LIVE")) "action_mode"
                   (path +:+ ".config.mode") "mode must be DRY_RUN or LIVE" ++
                 error_if (let '(requested, ok) := configInt (nd_Config node) "risk_level" in
                           ok && (requested != ad_Level descriptor))
                   "risk_spoofing" (path +:+ ".config.risk_level") "risk level is assigned by the server action catalog"
             end
         end) <->
  exists actionType descriptor,
    configString (nd_Config node) "action_type" = (actionType, true) /\ actions !! actionType = Some descriptor /\
    ToUpper (configString (nd_Config node) "mode").1 ∈ [""; "DRY_RUN"; "LIVE"] /\
    forall level, configInt (nd_Config node) "risk_level" = (level, true) -> level = ad_Level descriptor.
Proof.
  destruct (configString _ "action_type") as [t []].
  2: { split; [intros H; by destruct (clean_error _ _ _ H)|by intros (? & ? & [=] & _)]. }
  destruct (actions !! t) as [d|] eqn:Ed.
  2: { split; [intros H; by destruct (clean_error _ _ _ H)|]. intros (? & ? & [= <-] & ? & _). congruence. }
  cbv zeta. rewrite clean_app, !clean_error_if, mode_check.
  destruct (configInt _ "risk_level") as [r ok]. bool_to_prop. split.
  - intros [Hm Hr]. exists t, d. split_and!; [done..|]. intros level [= -> ->]. by destruct Hr as [[=]|Hr].
  - intros (t' & d' & [= <-] & Ed' & Hm & Hr). split; [done|]. destruct ok; [right|by left].
    assert (d' = d) as -> by congruence. by apply Hr.
Qed.

Lemma int_check_clean config key low high code path message :
  clean (error_if (let '(n, ok) := configInt config key in negb ok || (n <? low) || (high <? n)) code path message) <->
  int_within config key low high.
Proof. by rewrite clean_error_if, int_within_check. Qed.

(** Case analysis on whether the node is of type [T]: then only the clause
    about that type, the [k]-th, is left. *)
Lemma only_type {T1 T2 T3 T4 T : string} {P1 P2 P3 P4 P : Prop} :
  (T1 = T /\ P = P1 /\ T2 <> T /\ T3 <> T /\ T4 <> T) \/ (T1 <> T /\ T2 = T /\ P = P2 /\ T3 <> T /\ T4 <> T) \/
  (T1 <> T /\ T2 <> T /\ T3 = T /\ P = P3 /\ T4 <> T) \/ (T1 <> T /\ T2 <> T /\ T3 <> T /\ T4 = T /\ P = P4) ->
  P <-> (T = T1 -> P1) /\ (T = T2 -> P2) /\ (T = T3 -> P3) /\ (T = T4 -> P4).
Proof. naive_solver. Qed.

Lemma validateNode_clean actions node path :
  clean (validateNode actions node path) <-> node_sound actions node.
Proof.
  rewrite node_sound_split. unfold validateNode. rewrite !clean_app, !clean_error_if.
  match goal with |- context [clean (if ?b then ?x else ?y)] =>
    assert (clean (if b then x else y) <-> type_sound actions node) as -> end.
  - unfold type_sound. generalize (nd_Type node). intros T.
    destruct (decide (T = SOARNodeAction)) as [->|N1]; [rewrite bool_decide_true by done; rewrite action_check; apply only_type; by left|].
    rewrite (bool_decide_false _ N1).
    destruct (decide (T = SOARNodeApproval)) as [->|N2].
    { rewrite bool_decide_true by done. rewrite int_check_clean. apply only_type. by right; left. }
    rewrite (bool_decide_false _ N2). destruct (decide (T = SOARNodeDelay)) as [->|N3].
    { rewrite bool_decide_true by done. rewrite int_check_clean. apply only_type. by right; right; left. }
    rewrite (bool_decide_false _ N3). destruct (decide (T = SOARNodeLoop)) as [->|N4].
    { rewrite bool_decide_true by done. rewrite int_check_clean. apply only_type. by right; right; right. }
    rewrite (bool_decide_false _ N4). split; [done|]. intros _.
    destruct (_ == _); [by intros i ->%list_elem_of_singleton|apply clean_nil].
  - unfold retry_sound. bool_to_prop. intuition lia.
Qed.

(** ** The index of the nodes *)

Definition nodes_fresh (actions : ActionCatalog) (nodes : NodeMap) (l : list SOARNode) : Prop :=
  (forall node, node ∈ l -> nodeIDPattern (nd_ID node) = true /\ nodes !! nd_ID node = None /\ node_sound actions node) /\
  NoDup (List.map nd_ID l).

Lemma nodes_fresh_cons actions nodes node l : nodes_fresh actions nodes (node :: l) <->
  (nodeIDPattern (nd_ID node) = true /\ nodes !! nd_ID node = None /\ node_sound actions node) /\
  nodes_fresh actions (<[nd_ID node := node]> nodes) l.
Proof.
  unfold nodes_fresh. cbn [List.map]. rewrite NoDup_cons. setoid_rewrite elem_of_cons. split.
  - intros (H & Hn & ND). split; [apply H; by left|]. split; [|done]. intros n Hl.
    destruct (H n) as (? & ? & ?); [by right|]. split_and!; [done| |done]. apply lookup_insert_None. split; [done|].
    intros E. apply Hn, list_elem_of_In, in_map_iff. exists n. by rewrite list_elem_of_In in Hl.
  - intros (H0 & H & ND). split; [|split; [|done]].
    + intros n [->|Hl]; [done|]. destruct (H n Hl) as (? & [? ?]%lookup_insert_None & ?). done.
    + intros (n & E & Hl)%list_elem_of_In%in_map_iff. apply list_elem_of_In in Hl.
      destruct (H n Hl) as (_ & [_ ?]%lookup_insert_None & _). congruence.
Qed.

Lemma index_nodes_clean actions l : forall k nodes,
  clean (index_nodes actions k nodes l).2 <-> nodes_fresh actions nodes l.
Proof.
  induction l as [|node l IH]; intros k nodes.
  { split; [|intros _; apply clean_nil]. intros _. split; [by intros n ?%not_elem_of_nil|constructor]. }
  rewrite nodes_fresh_cons. cbn [index_nodes]. destruct (nodeIDPattern _); cbn [negb].
  2: { destruct (index_nodes _ _ _ l) as [n i]. cbn [snd]. rewrite clean_app.
       split; [intros [H _]; by destruct (clean_error _ _ _ H)|by intros [[? _] _]]. }
  destruct (nodes !! nd_ID node) as [old|].
  { destruct (index_nodes _ _ _ l) as [n i]. cbn [snd]. rewrite clean_app.
    split; [intros [H _]; by destruct (clean_error _ _ _ H)|by intros [(_ & ? & _) _]]. }
  specialize (IH (S k) (<[nd_ID node := node]> nodes)). destruct (index_nodes _ _ _ l) as [n i]. cbn [snd] in *.
  rewrite clean_app, IH, validateNode_clean. naive_solver.
Qed.

Lemma index_nodes_lookup actions l : forall k nodes, nodes_fresh actions nodes l -> forall id node,
  (index_nodes actions k nodes l).1 !! id = Some node <-> nodes !! id = Some node \/ node ∈ l /\ nd_ID node = id.
Proof.
  induction l as [|n l IH]; intros k nodes F id node.
  { cbn. rewrite elem_of_nil. tauto. }
  apply nodes_fresh_cons in F as [(P & E & _) F]. cbn [index_nodes]. rewrite P, E. cbn [negb].
  specialize (IH (S k) _ F id node). destruct (index_nodes _ _ _ l) as [m i]. cbn [fst] in *.
  rewrite IH, lookup_insert_Some, elem_of_cons. split; [naive_solver|].
  intros [H|[[->|Hl] <-]]; [|by left; left|right; done].
  left. right. split; [congruence|done].
Qed.

Lemma default_mode_live mode : ((if mode == "" then "DRY_RUN" else mode) == "LIVE") = (mode == "LIVE").
Proof. destruct (decide (mode = "")) as [->|E]; [done|]. by rewrite (bool_decide_false _ E). Qed.

(** ** Dependencies, cycles and guards, over the indexed nodes *)

Section Indexed.
Context (actions : ActionCatalog) (spec : SOARPlaybookSpec) (nodes : NodeMap).
Hypothesis Hnodes : forall id node, nodes !! id = Some node <-> node ∈ spec_nodes spec /\ nd_ID node = id.

Lemma node_of_id id : is_Some (nodes !! id) <-> id ∈ List.map nd_ID (spec_nodes spec).
Proof.
  rewrite list_elem_of_In, in_map_iff. split.
  - intros [n [? ?]%Hnodes]. exists n. split; [done|by apply list_elem_of_In].
  - intros (n & <- & Hn%list_elem_of_In). exists n. by apply Hnodes.
Qed.

Lemma names_dep_edge a b : names nodes a b <-> dep_edge spec a b.
Proof.
  unfold names, deps, dep_edge. split.
  - destruct (nodes !! a) as [n|] eqn:E; [|by intros ?%not_elem_of_nil]. apply Hnodes in E as [? ?]. naive_solver.
  - intros (n & H1 & H2 & H3). by rewrite (proj2 (Hnodes a n)).
Qed.

Lemma tc_names_dep_edge a b : tc (names nodes) a b <-> tc (dep_edge spec) a b.
Proof. split; apply tc_mono; intros ? ?; apply names_dep_edge. Qed.

Lemma check_dependencies_clean path id seen l : clean (check_dependencies nodes path id seen l) <->
  NoDup l /\ forall d, d ∈ l -> d <> id /\ d ∈ List.map nd_ID (spec_nodes spec) /\ d ∉ seen.
Proof.
  revert seen. induction l as [|d l IH]; intros seen; cbn [check_dependencies].
  { split; [|intros _; apply clean_nil]. intros _. split; [constructor|by intros d ?%not_elem_of_nil]. }
  rewrite clean_app, IH, NoDup_cons. setoid_rewrite elem_of_cons. setoid_rewrite <- node_of_id.
  case_bool_decide as E1.
  { split; [intros [H _]; by destruct (clean_error _ _ _ H)|]. intros [_ H]. destruct (H d); [by left|done]. }
  case_bool_decide as E2.
  { split; [intros [H _]; by destruct (clean_error _ _ _ H)|]. intros [_ H]. destruct (H d) as (_ & [? ?] & _); [by left|congruence]. }
  case_bool_decide as E3.
  { split; [intros [H _]; by destruct (clean_error _ _ _ H)|]. intros [_ H]. destruct (H d) as (_ & _ & ?); [by left|done]. }
  apply not_eq_None_Some in E2. split.
  - intros (_ & ND & H). split_and!; [|done|]; [|intros x [->|Hx]; [done|]].
    + intros Hd. destruct (H d Hd) as (_ & _ & K). by destruct K; left.
    + destruct (H x Hx) as (? & ? & K). split_and!; [done..|]. intros Hs. by apply K; right.
  - intros ([Nd ND] & H). split; [apply clean_nil|]. split; [done|]. intros x Hx.
    destruct (H x) as (? & ? & ?); [by right|]. split_and!; [done..|]. intros [->|]; done.
Qed.

Lemma acyclic_dep_edge : (forall node, node ∈ spec_nodes spec -> forall d, d ∈ nd_DependsOn node ->
    d ∈ List.map nd_ID (spec_nodes spec)) ->
  acyclic nodes <-> forall id, ~ tc (dep_edge spec) id id.
Proof.
  intros K. unfold acyclic.
  assert (H : forall a b, depends nodes a b <-> dep_edge spec a b).
  { intros a b. unfold depends. rewrite known_deps_spec. change (b ∈ deps nodes a) with (names nodes a b).
    rewrite names_dep_edge, node_of_id. split; [tauto|]. intros E. split; [done|]. destruct E as (n & Hn & _ & Hb). by apply (K n). }
  split; intros A id T; apply (A id); revert T; apply tc_mono; intros ? ?; apply H.
Qed.

Lemma ancestors_at_least n id : 0 < n ->
  (maximumApprovalAncestors id nodes <? n) = false <-> approved_by spec n id.
Proof.
  intros Hn. rewrite Z.ltb_ge. destruct (maximumApprovalAncestors_spec nodes id) as [H1 H2]. split.
  - intros Hm. destruct H2 as (a & T & E); [lia|]. rewrite <- E in Hm.
    destruct (node_count_pos nodes a) as (node & Hnode & Ty & C); [lia|].
    apply Hnodes in Hnode as [? ?]. exists a, node, (node_count nodes a).
    split_and!; try done. by apply tc_names_dep_edge.
  - intros (a & node & c & T & Hnode & E & Ty & C & Hc). apply tc_names_dep_edge in T. specialize (H1 a T).
    revert H1. unfold node_count. rewrite (proj2 (Hnodes a node)) by done. unfold approval_count.
    rewrite bool_decide_true by done. rewrite C. cbn. destruct (Z.ltb_spec 0 c); lia.
Qed.

Lemma check_action_clean index node : clean (check_action actions nodes index node) <->
  (nd_Type node = SOARNodeAction -> forall descriptor,
   actions !! (configString (nd_Config node) "action_type").1 = Some descriptor -> action_guarded spec node descriptor).
Proof.
  unfold check_action. case_bool_decide as T; cbn [negb]; [|by split; [intros _ ?|intros _; apply clean_nil]].
  destruct (actions !! _) as [d|]; [|by split; [intros _ _ ? [=]|intros _; apply clean_nil]].
  cbv zeta. rewrite !clean_app, !clean_error_if.
  rewrite default_mode_live.
  transitivity (action_guarded spec node d); [|split; [by intros H _ ? [= <-]|by intros H; apply H]].
  assert (V : negb match metadata_get (nd_Config node) "verify" with Some (VBool verify) => verify | _ => false end = false <->
              metadata_get (nd_Config node) "verify" = Some (VBool true)).
  { rewrite negb_false_iff. destruct (metadata_get _ "verify") as [[]|]; naive_solver. }
  assert (Q : (0 <? required_approvals (ad_Level d)) && (maximumApprovalAncestors (nd_ID node) nodes <?
                required_approvals (ad_Level d)) = false <->
              (ad_Level d = 4 -> approved_by spec 1 (nd_ID node)) /\
              (ad_Level d = 5 \/ ad_Level d = 6 -> approved_by spec 2 (nd_ID node))).
  { rewrite <- (ancestors_at_least 1), <- (ancestors_at_least 2) by lia. unfold required_approvals.
    destruct (Z.eqb_spec (ad_Level d) 4), (Z.eqb_spec (ad_Level d) 5), (Z.eqb_spec (ad_Level d) 6); cbn [orb];
      cbv [Z.ltb Z.compare andb]; intuition (try lia; try congruence). }
  rewrite Q. clear Q. rewrite !andb_false_iff, V, orb_false_iff, negb_false_iff, !Z.eqb_neq, Z.leb_gt, !bool_decide_eq_false.
  clear V. split.
  - intros (A & [B C] & D & E). constructor; unfold is_live; intros; try tauto; destruct D as [[?|?]|?]; try done; try lia.
    all: destruct E as [[?|?]|[? ?]]; try done; try lia.
  - intros [A B C D E]. unfold is_live in *. set (m := ToUpper _) in *.
    destruct (decide (m = "LIVE")); [|tauto].
    destruct (Z.eq_dec (ad_Level d) 6), (Z.eq_dec (ad_Level d) 3), (Z_lt_ge_dec (ad_Level d) 3); try lia; try tauto.
    all: assert (V := D ltac:(lia) ltac:(done)); tauto.
Qed.

(** The deferred part of the report, and the clauses it stands for. *)
Lemma graph_checks_clean :
  clean (flat_mapi (fun index node =>
    check_dependencies nodes (node_path index +:+ ".depends_on") (nd_ID node) [] (nd_DependsOn node)) (spec_nodes spec)) /\
  detectCycle nodes = [] /\ clean (flat_mapi (check_action actions nodes) (spec_nodes spec)) <->
  (forall node, node ∈ spec_nodes spec -> NoDup (nd_DependsOn node) /\
    forall d, d ∈ nd_DependsOn node -> d <> nd_ID node /\ d ∈ List.map nd_ID (spec_nodes spec)) /\
  (forall id, ~ tc (dep_edge spec) id id) /\
  (forall node descriptor, node ∈ spec_nodes spec -> nd_Type node = SOARNodeAction ->
    actions !! (configString (nd_Config node) "action_type").1 = Some descriptor -> action_guarded spec node descriptor).
Proof.
  rewrite (clean_flat_mapi _ (fun node => NoDup (nd_DependsOn node) /\
    forall d, d ∈ nd_DependsOn node -> d <> nd_ID node /\ d ∈ List.map nd_ID (spec_nodes spec))).
  2: { intros k node. rewrite check_dependencies_clean. split; intros [ND H]; (split; [done|]); intros d Hd.
       - by destruct (H d Hd) as (? & ? & _).
       - destruct (H d Hd). split_and!; [done..|]. by intros ?%not_elem_of_nil. }
  rewrite (clean_flat_mapi _ (fun node => nd_Type node = SOARNodeAction -> forall descriptor,
   actions !! (configString (nd_Config node) "action_type").1 = Some descriptor -> action_guarded spec node descriptor)).
  2: { intros k node. apply check_action_clean. }
  destruct (detectCycle_spec nodes) as [-> _]. split.
  - intros (H1 & H2 & H3). split; [done|]. split; [apply acyclic_dep_edge; [|done]|intros n d Hn T; by apply (H3 n Hn T)].
    intros n Hn d Hd. by apply (H1 n Hn).
  - intros (H1 & H2 & H3). split; [done|]. split; [apply acyclic_dep_edge; [|done]|intros n Hn T d; by apply H3].
    intros n Hn d Hd. by apply (H1 n Hn).
Qed.

End Indexed.

(** ** The validator *)

Lemma valid_iff_sound actions now spec : vr_Valid (Validate actions now spec) = true <-> sound actions spec.
Proof.
  rewrite Validate_clean. unfold spec_issues.
  assert (IC := index_nodes_clean actions (spec_nodes spec) 0 ∅).
  assert (IL := index_nodes_lookup actions (spec_nodes spec) 0 ∅).
  destruct (index_nodes actions 0 ∅ (spec_nodes spec)) as [nodes node_issues]. cbn [fst snd] in *.
  rewrite !clean_app, !clean_error_if, IC. bool_to_prop.
  assert (Lk : nodes_fresh actions ∅ (spec_nodes spec) ->
    forall id node, nodes !! id = Some node <-> node ∈ spec_nodes spec /\ nd_ID node = id).
  { intros F id node. rewrite (IL F). rewrite lookup_empty. naive_solver. }
  clear IC IL. rewrite Z.eqb_neq, Nat.eqb_neq, Nat.ltb_ge. split.
  - intros (H1 & H2 & [H3 H4] & F & D & R & C & G).
    destruct (proj1 (graph_checks_clean actions spec nodes (Lk F))) as (G1 & G2 & G3); [done|].
    destruct F as [F ND]. constructor; try done; [lia|intros n Hn; by apply F|intros n Hn; by apply F|].
    destruct (filter _ (spec_nodes spec)) as [|root l] eqn:E; [cbn in R; lia|]. exists root.
    assert (root ∈ filter (fun node => nd_DependsOn node = []) (spec_nodes spec)) as [? ?]%list_elem_of_filter; [|done].
    rewrite E. left.
  - intros [H1 H2 H3 I U N [root [Hr Hd]] G1 G2 G3].
    assert (F : nodes_fresh actions ∅ (spec_nodes spec)).
    { split; [|done]. intros n Hn. split_and!; [by apply I|done|by apply N]. }
    destruct (proj2 (graph_checks_clean actions spec nodes (Lk F))) as (D & C & G); [done|].
    split_and!; try done; try lia. left. intros L%nil_length_inv.
    assert (R : root ∈ filter (fun node => nd_DependsOn node = []) (spec_nodes spec)) by (by apply list_elem_of_filter).
    rewrite L in R. by apply not_elem_of_nil in R.
Qed.

(** ** Properties *)

(** C38. The validator's cycle search is exact and always finishes: it finds
    nothing precisely when no node depends on itself through other nodes, and
    what it reports otherwise is a closed walk along existing dependencies. *)
Theorem cycle_search_exact (nodes : NodeMap) :
  (detectCycle nodes = [] <-> forall id, ~ tc (depends nodes) id id) /\
  (detectCycle nodes <> [] -> closed_walk nodes (detectCycle nodes)).
Proof. apply detectCycle_spec. Qed.

(** C39. A playbook validates exactly if it is sound: the issues of the
    validator are errors for precisely the specifications that [sound] leaves
    out, whatever the order in which its searches go through the graph. *)
Theorem validator_accepts_sound_playbooks (actions : ActionCatalog) (now : Time) (spec : SOARPlaybookSpec) :
  vr_Valid (Validate actions now spec) = true <-> sound actions spec.
Proof. apply valid_iff_sound. Qed.
