(* ===== verification/SoarModel.v ===== *)
(** * SOAR executions: the data model

    The records of [core/soar.go] for playbook versions, executions, their
    nodes, approvals and action attempts.  [ApprovalDecision] and
    [ApprovalStatus] are string types. *)

From S2P Require Import Prelude GoLang GoFormat Core Playbook.

Definition SOARPlaybookDraft := "DRAFT".
Definition SOARPlaybookPublished := "PUBLISHED".
Definition SOARPlaybookDisabled := "DISABLED".

Definition SOARVersionDraft := "DRAFT".
Definition SOARVersionValidated := "VALIDATED".
Definition SOARVersionPublished := "PUBLISHED".
Definition SOARVersionRetired := "RETIRED".

Definition SOARExecutionQueued := "QUEUED".
Definition SOARExecutionRunning := "RUNNING".
Definition SOARExecutionWaitingApproval := "WAITING_APPROVAL".
Definition SOARExecutionWaitingManual := "WAITING_MANUAL".
Definition SOARExecutionSucceeded := "SUCCEEDED".
Definition SOARExecutionFailed := "FAILED".
Definition SOARExecutionCancelled := "CANCELLED".

Definition ApprovalDecisionApprove := "APPROVE".
Definition ApprovalDecisionReject := "REJECT".

Definition decision_Valid (decision : string) : bool :=
  (decision == ApprovalDecisionApprove) || (decision == ApprovalDecisionReject).

Definition ApprovalStatusPending := "PENDING".
Definition ApprovalStatusApproved := "APPROVED".
Definition ApprovalStatusRejected := "REJECTED".
Definition ApprovalStatusExpired := "EXPIRED".
Definition ApprovalStatusCancelled := "CANCELLED".

Record SOARPlaybook : Type := {
  pb_ID : string;
  pb_TenantID : string;
  pb_Name : string;
  pb_Description : string;
  pb_State : string;
  pb_LatestVersion : Z;
  pb_PublishedVersion : Z;
  pb_Revision : Z;
  pb_CreatedBy : string;
  pb_UpdatedBy : string;
  pb_CreatedAt : Time;
  pb_UpdatedAt : Time
}.
#[export] Instance eta_SOARPlaybook : Eta SOARPlaybook := fun r => {|
  pb_ID := pb_ID r; pb_TenantID := pb_TenantID r; pb_Name := pb_Name r;
  pb_Description := pb_Description r; pb_State := pb_State r; pb_LatestVersion := pb_LatestVersion r;
  pb_PublishedVersion := pb_PublishedVersion r; pb_Revision := pb_Revision r; pb_CreatedBy := pb_CreatedBy r;
  pb_UpdatedBy := pb_UpdatedBy r; pb_CreatedAt := pb_CreatedAt r; pb_UpdatedAt := pb_UpdatedAt r
|}.

Record SOARPlaybookVersion : Type := {
  pv_TenantID : string;
  pv_PlaybookID : string;
  pv_Version : Z;
  pv_State : string;
  pv_Spec : SOARPlaybookSpec;
  pv_SpecHash : string;
  pv_Validation : SOARValidationReport;
  pv_CreatedBy : string;
  pv_CreatedAt : Time;
  pv_ValidatedAt : option Time;
  pv_PublishedAt : option Time
}.
#[export] Instance eta_SOARPlaybookVersion : Eta SOARPlaybookVersion := fun r => {|
  pv_TenantID := pv_TenantID r; pv_PlaybookID := pv_PlaybookID r; pv_Version := pv_Version r;
  pv_State := pv_State r; pv_Spec := pv_Spec r; pv_SpecHash := pv_SpecHash r;
  pv_Validation := pv_Validation r; pv_CreatedBy := pv_CreatedBy r; pv_CreatedAt := pv_CreatedAt r;
  pv_ValidatedAt := pv_ValidatedAt r; pv_PublishedAt := pv_PublishedAt r
|}.
Definition zero_SOARPlaybookVersion : SOARPlaybookVersion := {|
  pv_TenantID := ""; pv_PlaybookID := ""; pv_Version := 0;
  pv_State := ""; pv_Spec := zero_SOARPlaybookSpec; pv_SpecHash := "";
  pv_Validation := zero_SOARValidationReport; pv_CreatedBy := ""; pv_CreatedAt := zero_time;
  pv_ValidatedAt := None; pv_PublishedAt := None
|}.

Record SOARPlaybookDetails : Type := {
  pd_Playbook : SOARPlaybook;
  pd_Versions : list SOARPlaybookVersion
}.
#[export] Instance eta_SOARPlaybookDetails : Eta SOARPlaybookDetails := fun r => {|
  pd_Playbook := pd_Playbook r; pd_Versions := pd_Versions r
|}.

Record SOARNodeExecution : Type := {
  ne_ID : string;
  ne_TenantID : string;
  ne_ExecutionID : string;
  ne_NodeID : string;
  ne_NodeType : string;
  ne_NodeName : string;
  ne_DependsOn : list string;
  ne_Config : Metadata;
  ne_TimeoutSeconds : Z;
  ne_Retry : SOARRetryPolicy;
  ne_Status : string;
  ne_Attempt : Z;
  ne_AvailableAt : Time;
  ne_Output : Metadata;
  ne_ErrorCode : string;
  ne_ErrorDetail : string;
  ne_LeaseOwner : string;
  ne_LeaseUntil : option Time;
  ne_StartedAt : option Time;
  ne_CompletedAt : option Time;
  ne_CreatedAt : Time;
  ne_UpdatedAt : Time
}.
#[export] Instance eta_SOARNodeExecution : Eta SOARNodeExecution := fun r => {|
  ne_ID := ne_ID r; ne_TenantID := ne_TenantID r; ne_ExecutionID := ne_ExecutionID r;
  ne_NodeID := ne_NodeID r; ne_NodeType := ne_NodeType r; ne_NodeName := ne_NodeName r;
  ne_DependsOn := ne_DependsOn r; ne_Config := ne_Config r; ne_TimeoutSeconds := ne_TimeoutSeconds r;
  ne_Retry := ne_Retry r; ne_Status := ne_Status r; ne_Attempt := ne_Attempt r;
  ne_AvailableAt := ne_AvailableAt r; ne_Output := ne_Output r; ne_ErrorCode := ne_ErrorCode r;
  ne_ErrorDetail := ne_ErrorDetail r; ne_LeaseOwner := ne_LeaseOwner r; ne_LeaseUntil := ne_LeaseUntil r;
  ne_StartedAt := ne_StartedAt r; ne_CompletedAt := ne_CompletedAt r; ne_CreatedAt := ne_CreatedAt r;
  ne_UpdatedAt := ne_UpdatedAt r
|}.
Definition zero_SOARNodeExecution : SOARNodeExecution := {|
  ne_ID := ""; ne_TenantID := ""; ne_ExecutionID := "";
  ne_NodeID := ""; ne_NodeType := ""; ne_NodeName := "";
  ne_DependsOn := []; ne_Config := None; ne_TimeoutSeconds := 0;
  ne_Retry := zero_SOARRetryPolicy; ne_Status := ""; ne_Attempt := 0;
  ne_AvailableAt := zero_time; ne_Output := None; ne_ErrorCode := "";
  ne_ErrorDetail := ""; ne_LeaseOwner := ""; ne_LeaseUntil := None;
  ne_StartedAt := None; ne_CompletedAt := None; ne_CreatedAt := zero_time;
  ne_UpdatedAt := zero_time
|}.

Record SOARExecution : Type := {
  ex_ID : string;
  ex_TenantID : string;
  ex_PlaybookID : string;
  ex_PlaybookVersion : Z;
  ex_RequestID : string;
  ex_TriggerType : string;
  ex_TriggerResourceType : string;
  ex_TriggerResourceID : string;
  ex_Context : Metadata;
  ex_Status : string;
  ex_Version : Z;
  ex_TriggeredBy : string;
  ex_CreatedAt : Time;
  ex_UpdatedAt : Time;
  ex_StartedAt : option Time;
  ex_CompletedAt : option Time;
  ex_Nodes : list SOARNodeExecution
}.
#[export] Instance eta_SOARExecution : Eta SOARExecution := fun r => {|
  ex_ID := ex_ID r; ex_TenantID := ex_TenantID r; ex_PlaybookID := ex_PlaybookID r;
  ex_PlaybookVersion := ex_PlaybookVersion r; ex_RequestID := ex_RequestID r; ex_TriggerType := ex_TriggerType r;
  ex_TriggerResourceType := ex_TriggerResourceType r; ex_TriggerResourceID := ex_TriggerResourceID r; ex_Context := ex_Context r;
  ex_Status := ex_Status r; ex_Version := ex_Version r; ex_TriggeredBy := ex_TriggeredBy r;
  ex_CreatedAt := ex_CreatedAt r; ex_UpdatedAt := ex_UpdatedAt r; ex_StartedAt := ex_StartedAt r;
  ex_CompletedAt := ex_CompletedAt r; ex_Nodes := ex_Nodes r
|}.
Definition zero_SOARExecution : SOARExecution := {|
  ex_ID := ""; ex_TenantID := ""; ex_PlaybookID := "";
  ex_PlaybookVersion := 0; ex_RequestID := ""; ex_TriggerType := "";
  ex_TriggerResourceType := ""; ex_TriggerResourceID := ""; ex_Context := None;
  ex_Status := ""; ex_Version := 0; ex_TriggeredBy := "";
  ex_CreatedAt := zero_time; ex_UpdatedAt := zero_time; ex_StartedAt := None;
  ex_CompletedAt := None; ex_Nodes := []
|}.

Record SOARWorkItem : Type := {
  wi_Execution : SOARExecution;
  wi_Node : SOARNodeExecution
}.
#[export] Instance eta_SOARWorkItem : Eta SOARWorkItem := fun r => {|
  wi_Execution := wi_Execution r; wi_Node := wi_Node r
|}.

Record SOARApprovalDecision : Type := {
  apd_Approver : string;
  apd_Decision : string;
  apd_Reason : string;
  apd_DecidedAt : Time
}.
#[export] Instance eta_SOARApprovalDecision : Eta SOARApprovalDecision := fun r => {|
  apd_Approver := apd_Approver r; apd_Decision := apd_Decision r; apd_Reason := apd_Reason r;
  apd_DecidedAt := apd_DecidedAt r
|}.

Record SOARApproval : Type := {
  apr_ID : string;
  apr_TenantID : string;
  apr_ExecutionID : string;
  apr_NodeExecutionID : string;
  apr_RiskLevel : Z;
  apr_RequiredApprovals : Z;
  apr_Status : string;
  apr_Version : Z;
  apr_RequestedBy : string;
  apr_RequestedAt : Time;
  apr_ExpiresAt : Time;
  apr_DecidedAt : option Time;
  apr_Decisions : list SOARApprovalDecision
}.
#[export] Instance eta_SOARApproval : Eta SOARApproval := fun r => {|
  apr_ID := apr_ID r; apr_TenantID := apr_TenantID r; apr_ExecutionID := apr_ExecutionID r;
  apr_NodeExecutionID := apr_NodeExecutionID r; apr_RiskLevel := apr_RiskLevel r; apr_RequiredApprovals := apr_RequiredApprovals r;
  apr_Status := apr_Status r; apr_Version := apr_Version r; apr_RequestedBy := apr_RequestedBy r;
  apr_RequestedAt := apr_RequestedAt r; apr_ExpiresAt := apr_ExpiresAt r; apr_DecidedAt := apr_DecidedAt r;
  apr_Decisions := apr_Decisions r
|}.
Definition zero_SOARApproval : SOARApproval := {|
  apr_ID := ""; apr_TenantID := ""; apr_ExecutionID := "";
  apr_NodeExecutionID := ""; apr_RiskLevel := 0; apr_RequiredApprovals := 0;
  apr_Status := ""; apr_Version := 0; apr_RequestedBy := "";
  apr_RequestedAt := zero_time; apr_ExpiresAt := zero_time; apr_DecidedAt := None;
  apr_Decisions := []
|}.

Record SOARApprovalCommand : Type := {
  cmd_Decision : string;
  cmd_Reason : string;
  cmd_Version : Z;
  cmd_RequestID : string;
  cmd_CorrelationID : string;
  cmd_ActorType : string;
  cmd_Source : Metadata
}.
#[export] Instance eta_SOARApprovalCommand : Eta SOARApprovalCommand := fun r => {|
  cmd_Decision := cmd_Decision r; cmd_Reason := cmd_Reason r; cmd_Version := cmd_Version r;
  cmd_RequestID := cmd_RequestID r; cmd_CorrelationID := cmd_CorrelationID r; cmd_ActorType := cmd_ActorType r;
  cmd_Source := cmd_Source r
|}.

Record SOARApprovalFilter : Type := {
  apf_Status : string;
  apf_ExecutionID : string;
  apf_Limit : Z
}.
#[export] Instance eta_SOARApprovalFilter : Eta SOARApprovalFilter := fun r => {|
  apf_Status := apf_Status r; apf_ExecutionID := apf_ExecutionID r; apf_Limit := apf_Limit r
|}.

Record SOARActionAttempt : Type := {
  att_ID : string;
  att_TenantID : string;
  att_ExecutionID : string;
  att_NodeExecutionID : string;
  att_IdempotencyKey : string;
  att_ConnectorID : string;
  att_ActionType : string;
  att_RiskLevel : Z;
  att_Mode : string;
  att_Status : string;
  att_Request : Metadata;
  att_Result : Metadata;
  att_ErrorClass : string;
  att_ErrorDetail : string;
  att_VerificationStatus : string;
  att_CompensationStatus : string;
  att_CreatedAt : Time;
  att_UpdatedAt : Time
}.
#[export] Instance eta_SOARActionAttempt : Eta SOARActionAttempt := fun r => {|
  att_ID := att_ID r; att_TenantID := att_TenantID r; att_ExecutionID := att_ExecutionID r;
  att_NodeExecutionID := att_NodeExecutionID r; att_IdempotencyKey := att_IdempotencyKey r; att_ConnectorID := att_ConnectorID r;
  att_ActionType := att_ActionType r; att_RiskLevel := att_RiskLevel r; att_Mode := att_Mode r;
  att_Status := att_Status r; att_Request := att_Request r; att_Result := att_Result r;
  att_ErrorClass := att_ErrorClass r; att_ErrorDetail := att_ErrorDetail r; att_VerificationStatus := att_VerificationStatus r;
  att_CompensationStatus := att_CompensationStatus r; att_CreatedAt := att_CreatedAt r; att_UpdatedAt := att_UpdatedAt r
|}.
Definition zero_SOARActionAttempt : SOARActionAttempt := {|
  att_ID := ""; att_TenantID := ""; att_ExecutionID := "";
  att_NodeExecutionID := ""; att_IdempotencyKey := ""; att_ConnectorID := "";
  att_ActionType := ""; att_RiskLevel := 0; att_Mode := "";
  att_Status := ""; att_Request := None; att_Result := None;
  att_ErrorClass := ""; att_ErrorDetail := ""; att_VerificationStatus := "";
  att_CompensationStatus := ""; att_CreatedAt := zero_time; att_UpdatedAt := zero_time
|}.

Record SOARExecutionFilter : Type := {
  exf_PlaybookID : string;
  exf_Status : string;
  exf_Limit : Z
}.
#[export] Instance eta_SOARExecutionFilter : Eta SOARExecutionFilter := fun r => {|
  exf_PlaybookID := exf_PlaybookID r; exf_Status := exf_Status r; exf_Limit := exf_Limit r
|}.
