(* ===== verification/Sql.v ===== *)
(** * SQL on tables that are lists of rows

    A database is a record of tables, a table the list of its rows; [UPDATE ...
    WHERE], [SELECT ... WHERE] and the uniqueness constraints of the migrations
    are functions on such lists.  A transaction runs in one step: its statements
    see no other transaction's and a failure rolls the tables back.  That is more
    than READ COMMITTED, the level the code asks for, gives by itself: it holds
    where the code locks the rows it decides on.  SoarIsolation.v has transactions
    that overlap. *)

From S2P Require Import Prelude GoLang GoFormat Core.

(** ** JSONB columns *)

Abbreviation JsonObject := (gmap string GoValue).

(** What [json.Marshal], a JSONB column and [json.Unmarshal] make of an object:
    numbers come back as float64, for instance.  What came out once comes out
    the same again, and the empty object and only that comes out empty. *)
Class JsonColumn : Type := {
  stored : JsonObject -> JsonObject;
  stored_idemp o : stored (stored o) = stored o;
  stored_empty : stored ∅ = ∅;
  stored_nonempty o : stored o = ∅ -> o = ∅
}.

(** A [map[string]interface{}] with the tag [omitempty] in a JSONB payload. *)
Definition stored_metadata `{JsonColumn} (m : Metadata) : Metadata :=
  match m with
  | None => None
  | Some o => if o == ∅ then None else Some (stored o)
  end.

Lemma stored_metadata_idemp `{JsonColumn} m : stored_metadata (stored_metadata m) = stored_metadata m.
Proof.
  destruct m as [o|]; [cbn|done]. case_bool_decide as E; [done|]. cbn. rewrite stored_idemp.
  case_bool_decide as E2; [by apply stored_nonempty in E2|done].
Qed.

(** ** SQL *)

Definition ErrUniqueViolation := New "duplicate key value violates unique constraint".
Definition ErrCheckViolation := New "new row violates check constraint".

(** The rows of [UPDATE table SET f WHERE P]. *)
Definition set_where {A} (P : A -> bool) (f : A -> A) (rows : list A) : list A :=
  List.map (fun row => if P row then f row else row) rows.

(** [SELECT ... WHERE P]. *)
Definition where_rows {A} (P : A -> bool) (rows : list A) : list A := List.filter P rows.

(** The single row [QueryRow] scans; [None] is [pgx.ErrNoRows]. *)
Definition first_row {A} (P : A -> bool) (rows : list A) : option A := head (where_rows P rows).

Definition count_rows {A} (P : A -> bool) (rows : list A) : Z := Z.of_nat (length (where_rows P rows)).

Definition select {R A} (f : R -> A) : M (World R) A := on_repo (gets f).
Definition execute {R} (f : R -> R) : M (World R) unit := on_repo (modify f).

(** An UPDATE of one table with the rows it changed, as they are after it: the
    result of [RETURNING], and [RowsAffected] is its length. *)
Section Update.
Context {R A : Type} (table : R -> list A) (put : list A -> R -> R).

Definition update_returning (P : A -> bool) (f : A -> A) : M (World R) (list A) :=
  let! rows := select table in
  do! execute (put (set_where P f rows)) in
  ret (List.map f (where_rows P rows)).

End Update.

(** An INSERT: [clash] are the rows the new one would violate a uniqueness
    constraint with. *)
Section Insert.
Context {R A : Type} (table : R -> list A) (put : list A -> R -> R).

Definition insert_row (clash : A -> bool) (row : A) : M (World R) unit :=
  let! rows := select table in
  if existsb clash rows then fail ErrUniqueViolation else execute (put (rows ++ [row])).

End Insert.

(** [tx.Begin], the statements, [tx.Commit], with no other transaction between
    them: on an error the tables are as before; the clock and the random source
    are not. *)
Definition transaction {R A} (m : M (World R) A) : M (World R) A := fun w =>
  match m w with
  | (Ok a, w') => (Ok a, w')
  | (r, w') => (r, mkWorld (w_repo w) (w_rt w'))
  end.

(** ** Successful runs of single statements *)

Lemma ret_Ok {St A} (a a' : A) (s s' : St) : ret a s = (Ok a', s') <-> a' = a /\ s' = s.
Proof. unfold ret. naive_solver. Qed.

Lemma execute_Ok {R} (f : R -> R) u (w w' : World R) : execute f w = (Ok u, w') <-> w' = mkWorld (f (w_repo w)) (w_rt w).
Proof. unfold execute, on_repo, modify. destruct u. naive_solver. Qed.

Lemma select_Ok {R A} (f : R -> A) a (w w' : World R) : select f w = (Ok a, w') <-> a = f (w_repo w) /\ w' = w.
Proof. unfold select, on_repo, gets. destruct w. naive_solver. Qed.

Lemma Now_Ok {R} t (w w' : World R) : Now w = (Ok t, w') -> w_repo w' = w_repo w.
Proof. unfold Now. by intros [= _ <-]. Qed.

Lemma Random_Ok {R} s (w w' : World R) : Random w = (Ok s, w') -> w_repo w' = w_repo w.
Proof. unfold Random. by intros [= _ <-]. Qed.

(** ** Rows *)

(** The rows of a table agree if their keys do. *)
Definition unique {A K} (key : A -> K) (rows : list A) : Prop :=
  forall x y, x ∈ rows -> y ∈ rows -> key x = key y -> x = y.

Lemma elem_of_where {A} (P : A -> bool) x rows : x ∈ where_rows P rows <-> P x = true /\ x ∈ rows.
Proof. unfold where_rows. rewrite !list_elem_of_In, filter_In. tauto. Qed.

Lemma elem_of_set_where {A} (P : A -> bool) f y rows :
  y ∈ set_where P f rows <-> exists x, x ∈ rows /\ y = (if P x then f x else x).
Proof. unfold set_where. rewrite list_elem_of_In, in_map_iff. setoid_rewrite list_elem_of_In. naive_solver. Qed.

Lemma first_row_Some {A} (P : A -> bool) rows x : first_row P rows = Some x -> P x = true /\ x ∈ rows.
Proof. intros E. apply elem_of_where. unfold first_row in E. destruct (where_rows P rows); [done|]. injection E as ->. left. Qed.

Lemma unique_set_where {A K} (key : A -> K) P f rows :
  (forall x, x ∈ rows -> P x = true -> key (f x) = key x) -> unique key rows -> unique key (set_where P f rows).
Proof.
  intros Hk U y1 y2 (x1 & H1 & ->)%elem_of_set_where (x2 & H2 & ->)%elem_of_set_where E.
  assert (key x1 = key x2) by (revert E; destruct (P x1) eqn:?, (P x2) eqn:?; rewrite ?Hk; auto).
  by rewrite (U x1 x2).
Qed.

Lemma unique_snoc {A K} (key : A -> K) rows a : (forall x, x ∈ rows -> key x <> key a) -> unique key rows ->
  unique key (rows ++ [a]).
Proof.
  intros Ha U x y. rewrite !elem_of_app, !list_elem_of_singleton. intros [Hx| ->] [Hy| ->] E; [by apply U| | |done].
  - by destruct (Ha x Hx).
  - by destruct (Ha y Hy).
Qed.

Lemma NoDup_unique {A K} (key : A -> K) rows : NoDup (List.map key rows) -> unique key rows.
Proof.
  intros U x y. induction rows as [|z l IH]; cbn in *; [by intros ?%not_elem_of_nil|]. apply NoDup_cons in U as [N U].
  rewrite !elem_of_cons. assert (K' : forall y, y ∈ l -> key y ∈ List.map key l).
  { intros y' Hy. apply list_elem_of_In, in_map, list_elem_of_In, Hy. }
  intros [->|H1] [->|H2] E; [done| | |by apply IH].
  - destruct N. rewrite E. by apply K'.
  - destruct N. rewrite <- E. by apply K'.
Qed.

Lemma head_sorted_elem {A} (R : A -> A -> Prop) `{!forall x y, Decision (R x y)} l x :
  head (merge_sort R l) = Some x -> x ∈ l.
Proof.
  intros E. rewrite <- (merge_sort_Permutation R l). destruct (merge_sort R l); [done|]. injection E as ->. left.
Qed.

Lemma where_sorted {A} (R : A -> A -> Prop) `{!forall x y, Decision (R x y)} (P : A -> bool) rows x :
  x ∈ merge_sort R (where_rows P rows) -> P x = true /\ x ∈ rows.
Proof. rewrite (merge_sort_Permutation R _). apply elem_of_where. Qed.

Lemma insert_row_Ok {R A} table put (clash : A -> bool) row (w w' : World R) :
  insert_row table put clash row w = (Ok tt, w') ->
  (forall x, x ∈ table (w_repo w) -> clash x = false) /\ w_repo w' = put (table (w_repo w) ++ [row]) (w_repo w).
Proof.
  unfold insert_row, select, execute, on_repo, bind, gets, modify. cbn.
  destruct (existsb clash (table (w_repo w))) eqn:E; [done|]. intros [= <-]. split; [|done]. intros x Hx.
  destruct (clash x) eqn:Ex; [|done]. assert (existsb clash (table (w_repo w)) = true); [|congruence].
  apply existsb_exists. exists x. by rewrite <- list_elem_of_In.
Qed.
