(* ===== verification/AuditTable.v ===== *)
(** * The audit log as a table (store/postgres.go)

    Every database with the tables [audit_entries] and [audit_heads] has the
    log: the interface [AuditTables] names them.  An entry is stored as a JSONB
    payload, so that its metadata come back as [JsonColumn] says. *)

From S2P Require Import Prelude GoLang GoFormat Core HashChain MemoryStore AuditChain Sql.

Class AuditTables (R : Type) : Type := {
  audit_rows : R -> list AuditEntry;
  put_audit_rows : list AuditEntry -> R -> R;
  audit_heads : R -> gmap string string;
  put_audit_heads : gmap string string -> R -> R;
  rows_of_rows l r : audit_rows (put_audit_rows l r) = l;
  rows_of_heads h r : audit_rows (put_audit_heads h r) = audit_rows r;
  heads_of_rows l r : audit_heads (put_audit_rows l r) = audit_heads r;
  heads_of_heads h r : audit_heads (put_audit_heads h r) = h
}.

Definition stored_entry `{JsonColumn} (entry : AuditEntry) : AuditEntry :=
  entry {{ au_Metadata ::= stored_metadata }}.

Section AuditTable.
Context `{JsonColumn} {R : Type} `{AuditTables R}.

Definition insert_audit := insert_row audit_rows put_audit_rows.

Definition is_audit_of (tenantID : string) (e : AuditEntry) : bool := au_TenantID e == tenantID.

Definition appendAuditTx (entry : AuditEntry) : M (World R) AuditEntry :=
  do! execute (fun db =>
    match audit_heads db !! au_TenantID entry with
    | Some _ => db
    | None => put_audit_heads (<[au_TenantID entry := ""]> (audit_heads db)) db
    end) in
  let! head := select (fun db => default "" (audit_heads db !! au_TenantID entry)) in
  let entry := entry {{ au_PreviousHash := head }} in
  let! entry := if au_ID entry == "" then let! random := Random in ret (entry {{ au_ID := NewID "aud" random }})
                else ret entry in
  let! entry := if IsZero (au_CreatedAt entry) then let! now := Now in ret (entry {{ au_CreatedAt := now }})
                else ret entry in
  let entry := entry {{ au_Hash := auditHash entry }} in
  do! wrapping "append audit entry"
    (insert_audit (fun e => (au_TenantID e == au_TenantID entry) && (au_ID e == au_ID entry)) (stored_entry entry)) in
  do! execute (fun db => put_audit_heads (<[au_TenantID entry := au_Hash entry]> (audit_heads db)) db) in
  ret entry.

Definition AppendAudit (entry : AuditEntry) : M (World R) AuditEntry := transaction (appendAuditTx entry).

Definition VerifyAudit (tenantID : string) : M (World R) bool :=
  let! entries := select (fun db => where_rows (is_audit_of tenantID) (audit_rows db)) in
  match verify_entries "" entries with
  | None => ret false
  | Some previous =>
      let! head := select (fun db => audit_heads db !! tenantID) in
      ret (match head with None => previous == "" | Some head => previous == head end)
  end.

(** ** What appending does *)

(** A transaction that appended [entry]. *)
Lemma appendAuditTx_Ok entry w e w' : appendAuditTx entry w = (Ok e, w') ->
  let db := w_repo w in let db' := w_repo w' in
  audit_rows db' = audit_rows db ++ [stored_entry e] /\
  audit_heads db' = <[au_TenantID e := au_Hash e]> (audit_heads db) /\
  au_PreviousHash e = default "" (audit_heads db !! au_TenantID e) /\
  au_Hash e = auditHash e /\ au_TenantID e = au_TenantID entry /\ au_Metadata e = au_Metadata entry.
Proof.
  unfold appendAuditTx. intros E. run_inv E. apply ret_Ok in E as [-> ->].
  apply execute_Ok in Hr as ->. apply select_Ok in Hr0 as [-> ->]. cbn in *.
  set (db1 := match audit_heads (w_repo w) !! au_TenantID entry with Some _ => _ | None => _ end) in *.
  assert (K : w_repo s1 = db1 /\ exists id, r1 = entry {{ au_PreviousHash := default "" (audit_heads db1 !! au_TenantID entry); au_ID := id }}).
  { destruct (au_ID entry == "").
    - run_inv Hr1. apply Random_Ok in Hr as E. apply ret_Ok in Hr1 as [-> ->]. split; [done|by eexists].
    - apply ret_Ok in Hr1 as [-> ->]. split; [done|]. exists (au_ID entry). by destruct entry. }
  destruct K as (E1 & id & ->).
  assert (R1 : audit_rows db1 = audit_rows (w_repo w)) by (unfold db1; destruct (_ !! _); [done|apply rows_of_heads]).
  match type of Hr2 with _ = (Ok r2, s2) => assert (K : w_repo s2 = db1 /\ exists at', r2 = entry
    {{ au_PreviousHash := default "" (audit_heads db1 !! au_TenantID entry); au_ID := id; au_CreatedAt := at' }}) end.
  { cbn in Hr2. destruct (IsZero (au_CreatedAt entry)).
    - run_inv Hr2. apply Now_Ok in Hr as E. apply ret_Ok in Hr2 as [-> ->]. split; [congruence|by eexists].
    - apply ret_Ok in Hr2 as [-> ->]. split; [done|]. by exists (au_CreatedAt entry). }
  destruct K as (E2 & at' & ->). destruct r3. apply insert_row_Ok in Hr3 as [_ E3]. apply execute_Ok in Hr4 as ->. cbn in *.
  rewrite rows_of_heads, E3, E2, !rows_of_rows, heads_of_heads, heads_of_rows, R1. split; [done|].
  assert (H1 : default "" (audit_heads db1 !! au_TenantID entry) = default "" (audit_heads (w_repo w) !! au_TenantID entry)).
  { unfold db1. destruct (audit_heads (w_repo w) !! au_TenantID entry) eqn:K; [by rewrite K|].
    by rewrite heads_of_heads, lookup_insert_eq. }
  split; [|by rewrite H1]. rewrite H1. unfold db1.
  destruct (audit_heads (w_repo w) !! au_TenantID entry) eqn:K; [done|by rewrite heads_of_heads, insert_insert_eq].
Qed.

(** ** The chain *)

(** The log of a tenant checks up to its head. *)
Definition audit_ok (tenantID : string) (db : R) : Prop :=
  verify_entries "" (where_rows (is_audit_of tenantID) (audit_rows db)) = Some (default "" (audit_heads db !! tenantID)).

(** Metadata that digest alike after the JSONB column. *)
Definition durable (m : Metadata) : Prop := json_metadata (stored_metadata m) = json_metadata m.

Lemma VerifyAudit_ok tenantID w : audit_ok tenantID (w_repo w) -> VerifyAudit tenantID w = (Ok true, w).
Proof.
  destruct w as [db rt]. unfold audit_ok, VerifyAudit, select, on_repo, gets, bind, ret. cbn. intros ->. cbn [w_repo w_rt].
  by destruct (audit_heads db !! tenantID); cbn; rewrite bool_decide_true.
Qed.

Lemma where_rows_app {A} (P : A -> bool) l1 l2 : where_rows P (l1 ++ l2) = where_rows P l1 ++ where_rows P l2.
Proof. apply List.filter_app. Qed.

Lemma audit_ok_append tenantID entry w e w' : durable (au_Metadata entry) ->
  appendAuditTx entry w = (Ok e, w') -> audit_ok tenantID (w_repo w) -> audit_ok tenantID (w_repo w').
Proof.
  intros D (E1 & E2 & E3 & E4 & E5 & E6)%appendAuditTx_Ok K. unfold audit_ok in *.
  assert (Hd : digest audit_preimage (stored_entry e) = auditHash e).
  { unfold auditHash, digest. f_equal. unfold audit_preimage, stored_entry. cbn. rewrite E6. by rewrite D. }
  assert (au_TenantID (stored_entry e) = au_TenantID e /\ au_PreviousHash (stored_entry e) = au_PreviousHash e /\
    au_Hash (stored_entry e) = au_Hash e) as (F1 & F2 & F3) by done.
  revert E1 Hd F1 F2 F3. generalize (stored_entry e) as e'. intros e' -> Hd F1 F2 F3. rewrite E2, where_rows_app.
  cbn [where_rows List.filter]. unfold is_audit_of at 2. rewrite F1.
  case_bool_decide as T; [|by rewrite app_nil_r, lookup_insert_ne].
  rewrite T, lookup_insert_eq, verify_entries_links in *. cbn [default from_option]. rewrite verify_links_snoc.
  by rewrite Hd, K, F2, F3, E3, E4.
Qed.

Lemma audit_ok_AppendAudit tenantID entry w : durable (au_Metadata entry) ->
  audit_ok tenantID (w_repo w) -> audit_ok tenantID (w_repo (AppendAudit entry w).2).
Proof.
  intros D K. unfold AppendAudit, transaction. destruct (appendAuditTx entry w) as [[e|e|] w'] eqn:E; [|done..].
  by eapply audit_ok_append.
Qed.

End AuditTable.
