(* ===== verification/SoarDb.v ===== *)
(** * The tables of the SOAR subsystem

    A JSONB column gives back a decoded object; what it does to one is the
    interface [JsonColumn].  Times are whole
    microseconds, the resolution of the columns, if the clock's readings are.
    The foreign keys and the width of INTEGER columns are not modelled. *)

From S2P Require Import Prelude GoLang GoFormat Core MemoryStore Playbook Sql AuditTable SoarModel.

Record DecisionRow : Type := {
  dr_TenantID : string;
  dr_ApprovalID : string;
  dr_Decision : SOARApprovalDecision
}.

(** [db_locked] holds the identifiers of the node rows other transactions have
    locked at the moment; it is the environment's. *)
Record SoarDb : Type := {
  db_playbooks : list SOARPlaybook;
  db_versions : list SOARPlaybookVersion;
  db_executions : list SOARExecution;
  db_nodes : list SOARNodeExecution;
  db_approvals : list SOARApproval;
  db_decisions : list DecisionRow;
  db_attempts : list SOARActionAttempt;
  db_audit : list AuditEntry;
  db_audit_heads : gmap string string;
  db_locked : list string
}.
#[export] Instance eta_SoarDb : Eta SoarDb := fun r => {|
  db_playbooks := db_playbooks r; db_versions := db_versions r; db_executions := db_executions r;
  db_nodes := db_nodes r; db_approvals := db_approvals r; db_decisions := db_decisions r;
  db_attempts := db_attempts r; db_audit := db_audit r; db_audit_heads := db_audit_heads r;
  db_locked := db_locked r
|}.

Definition empty_db : SoarDb := {|
  db_playbooks := []; db_versions := []; db_executions := []; db_nodes := []; db_approvals := [];
  db_decisions := []; db_attempts := []; db_audit := []; db_audit_heads := ∅; db_locked := []
|}.

Abbreviation Store := (M (World SoarDb)).

Definition insert_playbook := insert_row db_playbooks (fun rows db => db {{ db_playbooks := rows }}).
Definition insert_version := insert_row db_versions (fun rows db => db {{ db_versions := rows }}).
Definition insert_execution := insert_row db_executions (fun rows db => db {{ db_executions := rows }}).
Definition insert_node := insert_row db_nodes (fun rows db => db {{ db_nodes := rows }}).
Definition insert_approval := insert_row db_approvals (fun rows db => db {{ db_approvals := rows }}).
Definition insert_attempt := insert_row db_attempts (fun rows db => db {{ db_attempts := rows }}).

#[export] Instance audit_SoarDb : AuditTables SoarDb := {|
  audit_rows := db_audit; put_audit_rows rows db := db {{ db_audit := rows }};
  audit_heads := db_audit_heads; put_audit_heads heads db := db {{ db_audit_heads := heads }};
  rows_of_rows _ _ := eq_refl; rows_of_heads _ _ := eq_refl; heads_of_rows _ _ := eq_refl; heads_of_heads _ _ := eq_refl
|}.

Definition update_playbooks := update_returning db_playbooks (fun rows db => db {{ db_playbooks := rows }}).
Definition update_versions := update_returning db_versions (fun rows db => db {{ db_versions := rows }}).
Definition update_executions := update_returning db_executions (fun rows db => db {{ db_executions := rows }}).
Definition update_nodes := update_returning db_nodes (fun rows db => db {{ db_nodes := rows }}).
Definition update_approvals := update_returning db_approvals (fun rows db => db {{ db_approvals := rows }}).
Definition update_attempts := update_returning db_attempts (fun rows db => db {{ db_attempts := rows }}).

(** ** The keys of the tables *)

Definition is_playbook (tenantID playbookID : string) (p : SOARPlaybook) : bool :=
  (pb_TenantID p == tenantID) && (pb_ID p == playbookID).

Definition is_version_of (tenantID playbookID : string) (v : SOARPlaybookVersion) : bool :=
  (pv_TenantID v == tenantID) && (pv_PlaybookID v == playbookID).

Definition is_version (tenantID playbookID : string) (version : Z) (v : SOARPlaybookVersion) : bool :=
  is_version_of tenantID playbookID v && (pv_Version v =? version).

Definition is_execution (tenantID executionID : string) (e : SOARExecution) : bool :=
  (ex_TenantID e == tenantID) && (ex_ID e == executionID).

Definition is_node (tenantID nodeExecutionID : string) (n : SOARNodeExecution) : bool :=
  (ne_TenantID n == tenantID) && (ne_ID n == nodeExecutionID).

Definition is_node_of (tenantID executionID : string) (n : SOARNodeExecution) : bool :=
  (ne_TenantID n == tenantID) && (ne_ExecutionID n == executionID).

Definition is_approval (tenantID approvalID : string) (a : SOARApproval) : bool :=
  (apr_TenantID a == tenantID) && (apr_ID a == approvalID).

Definition is_approval_of_node (tenantID nodeExecutionID : string) (a : SOARApproval) : bool :=
  (apr_TenantID a == tenantID) && (apr_NodeExecutionID a == nodeExecutionID).

Definition is_decision_of (tenantID approvalID : string) (d : DecisionRow) : bool :=
  (dr_TenantID d == tenantID) && (dr_ApprovalID d == approvalID).

Definition is_attempt (tenantID attemptID : string) (a : SOARActionAttempt) : bool :=
  (att_TenantID a == tenantID) && (att_ID a == attemptID).

Definition is_attempt_key (tenantID key : string) (a : SOARActionAttempt) : bool :=
  (att_TenantID a == tenantID) && (att_IdempotencyKey a == key).

(** * Playbooks and executions in the database: [store/soar.go]

    [row.Scan] and [json.Unmarshal] of a row the store wrote do not fail; a
    specification comes back with its configurations as [JsonColumn] gives
    them, and without the empty ones ([omitempty]). *)

Section Store.
Context `{JsonColumn}.

(** ** What a stored specification and a stored node read as *)

Definition stored_node (node : SOARNode) : SOARNode :=
  node {{ nd_Config ::= stored_metadata }}.

Definition stored_spec (spec : SOARPlaybookSpec) : SOARPlaybookSpec :=
  spec {{ sp_Nodes := option_map (List.map stored_node) (sp_Nodes spec) }}.

(** ** Playbooks *)

Definition CreateSOARPlaybook (playbook : SOARPlaybook) (version : SOARPlaybookVersion) : Store SOARPlaybookDetails :=
  transaction (
    do! (fun w =>
      match insert_playbook (fun p => is_playbook (pb_TenantID playbook) (pb_ID playbook) p ||
              ((pb_TenantID p == pb_TenantID playbook) && (ToLower (pb_Name p) == ToLower (pb_Name playbook)))) playbook w with
      | (Err _, w') => (Err ErrAlreadyExists, w')
      | r => r
      end) in
    do! wrapping "insert SOAR playbook version"
      (insert_version (is_version (pv_TenantID version) (pv_PlaybookID version) (pv_Version version))
         (version {{ pv_Spec ::= stored_spec; pv_ValidatedAt := None; pv_PublishedAt := None }})) in
    ret {| pd_Playbook := playbook; pd_Versions := [version] |}).

Definition CreateSOARPlaybookVersion (tenantID playbookID actor : string) (spec : SOARPlaybookSpec)
    (report : SOARValidationReport) : Store SOARPlaybookVersion :=
  transaction (
    let! row := select (fun db => first_row (is_playbook tenantID playbookID) (db_playbooks db)) in
    match row with
    | None => fail ErrNotFound
    | Some playbook =>
        let latest := pb_LatestVersion playbook in
        let! now := Now in
        let version := {|
          pv_TenantID := tenantID; pv_PlaybookID := playbookID; pv_Version := latest + 1;
          pv_State := SOARVersionDraft; pv_Spec := spec; pv_SpecHash := vr_SpecHash report;
          pv_Validation := report; pv_CreatedBy := actor; pv_CreatedAt := now;
          pv_ValidatedAt := None; pv_PublishedAt := None |} in
        do! wrapping "insert SOAR playbook version"
          (insert_version (is_version tenantID playbookID (latest + 1)) (version {{ pv_Spec ::= stored_spec }})) in
        do! update_playbooks (is_playbook tenantID playbookID) (fun p => p {{
          pb_LatestVersion := latest + 1; pb_Revision ::= Z.add 1; pb_UpdatedBy := actor; pb_UpdatedAt := now }}) in
        ret version
    end).

(** [ORDER BY version DESC] *)
Definition version_order (a b : SOARPlaybookVersion) : Prop := pv_Version b <= pv_Version a.
#[global] Instance version_order_dec a b : Decision (version_order a b) := decide (pv_Version b <= pv_Version a).

Definition GetSOARPlaybook (tenantID playbookID : string) : Store SOARPlaybookDetails :=
  let! row := select (fun db => first_row (is_playbook tenantID playbookID) (db_playbooks db)) in
  match row with
  | None => fail ErrNotFound
  | Some playbook =>
      let! versions := select (fun db => merge_sort version_order
        (where_rows (is_version_of tenantID playbookID) (db_versions db))) in
      ret {| pd_Playbook := playbook; pd_Versions := versions |}
  end.

(** [ORDER BY updated_at DESC, playbook_id] *)
Definition playbook_order (a b : SOARPlaybook) : Prop :=
  pb_UpdatedAt b < pb_UpdatedAt a \/ pb_UpdatedAt a = pb_UpdatedAt b /\ String.le (pb_ID a) (pb_ID b).
#[global] Instance playbook_order_dec a b : Decision (playbook_order a b).
Proof. apply or_dec; [apply _|]. apply and_dec; apply _. Defined.

Definition ListSOARPlaybooks (tenantID : string) : Store (list SOARPlaybook) :=
  select (fun db => merge_sort playbook_order (where_rows (fun p => pb_TenantID p == tenantID) (db_playbooks db))).

Definition SaveSOARValidation (tenantID playbookID : string) (version : Z) (report : SOARValidationReport)
    : Store SOARPlaybookVersion :=
  let '(state, validatedAt) := if vr_Valid report then (SOARVersionValidated, Some (vr_ValidatedAt report))
                               else (SOARVersionDraft, None) in
  let! rows := update_versions
    (fun v => is_version tenantID playbookID version v && (pv_State v ∈? ["DRAFT"; "VALIDATED"]))
    (fun v => v {{ pv_State := state; pv_Validation := report; pv_SpecHash := vr_SpecHash report;
                   pv_ValidatedAt := validatedAt }}) in
  match head rows with
  | None => fail ErrInvalidState
  | Some item => ret item
  end.

Definition PublishSOARPlaybookVersion (tenantID playbookID : string) (version : Z) (actor : string)
    : Store SOARPlaybookDetails :=
  do! transaction (
    let! row := select (fun db => first_row (is_version tenantID playbookID version) (db_versions db)) in
    match row with
    | None => fail ErrNotFound
    | Some locked =>
        if pv_State locked != SOARVersionValidated then fail ErrInvalidState else
        let! now := Now in
        do! update_versions (fun v => is_version_of tenantID playbookID v && (pv_State v == "PUBLISHED"))
          (fun v => v {{ pv_State := "RETIRED" }}) in
        do! update_versions (is_version tenantID playbookID version)
          (fun v => v {{ pv_State := "PUBLISHED"; pv_PublishedAt := Some now }}) in
        do! update_playbooks (is_playbook tenantID playbookID) (fun p => p {{
          pb_State := "PUBLISHED"; pb_PublishedVersion := version; pb_Revision ::= Z.add 1;
          pb_UpdatedBy := actor; pb_UpdatedAt := now }}) in
        ret tt
    end) in
  GetSOARPlaybook tenantID playbookID.

Definition DisableSOARPlaybook (tenantID playbookID actor : string) : Store SOARPlaybook :=
  let! now := Now in
  let! rows := update_playbooks (is_playbook tenantID playbookID) (fun p => p {{
    pb_State := "DISABLED"; pb_Revision ::= Z.add 1; pb_UpdatedBy := actor; pb_UpdatedAt := now }}) in
  match head rows with
  | None => fail ErrNotFound
  | Some item => ret item
  end.

(** ** Executions *)

(** [ORDER BY created_at, node_id] *)
Definition node_order (a b : SOARNodeExecution) : Prop :=
  ne_CreatedAt a < ne_CreatedAt b \/ ne_CreatedAt a = ne_CreatedAt b /\ String.le (ne_NodeID a) (ne_NodeID b).
#[global] Instance node_order_dec a b : Decision (node_order a b).
Proof. apply or_dec; [apply _|]. apply and_dec; apply _. Defined.

Definition listSOARNodeExecutions (tenantID executionID : string) : Store (list SOARNodeExecution) :=
  select (fun db => merge_sort node_order (where_rows (is_node_of tenantID executionID) (db_nodes db))).

Definition GetSOARExecution (tenantID executionID : string) : Store SOARExecution :=
  let! row := select (fun db => first_row (is_execution tenantID executionID) (db_executions db)) in
  match row with
  | None => fail ErrNotFound
  | Some item => let! nodes := listSOARNodeExecutions tenantID executionID in ret (item {{ ex_Nodes := nodes }})
  end.

(** [ORDER BY created_at DESC, execution_id] *)
Definition execution_order (a b : SOARExecution) : Prop :=
  ex_CreatedAt b < ex_CreatedAt a \/ ex_CreatedAt a = ex_CreatedAt b /\ String.le (ex_ID a) (ex_ID b).
#[global] Instance execution_order_dec a b : Decision (execution_order a b).
Proof. apply or_dec; [apply _|]. apply and_dec; apply _. Defined.

Definition ListSOARExecutions (tenantID : string) (filter : SOARExecutionFilter) : Store (list SOARExecution) :=
  let limit := if (exf_Limit filter <=? 0) || (500 <? exf_Limit filter) then 100 else exf_Limit filter in
  let! rows := select (fun db => take (Z.to_nat limit) (merge_sort execution_order (where_rows (fun e =>
    (ex_TenantID e == tenantID) && ((exf_PlaybookID filter == "") || (ex_PlaybookID e == exf_PlaybookID filter)) &&
    ((exf_Status filter == "") || (ex_Status e == exf_Status filter))) (db_executions db)))) in
  foldM (fun items item =>
    let! nodes := listSOARNodeExecutions tenantID (ex_ID item) in
    ret (items ++ [item {{ ex_Nodes := nodes }}])) [] rows.

(** The defaults of a node's retry policy. *)
Definition default_retry (retryPolicy : SOARRetryPolicy) : SOARRetryPolicy :=
  let r := retryPolicy in
  let r := if rp_MaximumAttempts r <=? 0 then r {{ rp_MaximumAttempts := 1 }} else r in
  let r := if rp_BackoffSeconds r <=? 0 then r {{ rp_BackoffSeconds := 1 }} else r in
  let r := if rp_MaximumBackoff r <=? 0 then r {{ rp_MaximumBackoff := 60 }} else r in
  if rp_MaximumBackoff r <? rp_BackoffSeconds r then r {{ rp_MaximumBackoff := rp_BackoffSeconds r }} else r.

(** The row of a node in a new execution. *)
Definition node_snapshot (execution : SOARExecution) (random : string) (node : SOARNode) : SOARNodeExecution := {|
  ne_ID := NewID "snx" random; ne_TenantID := ex_TenantID execution; ne_ExecutionID := ex_ID execution;
  ne_NodeID := nd_ID node; ne_NodeType := nd_Type node; ne_NodeName := nd_Name node;
  ne_DependsOn := nd_DependsOn node; ne_Config := Some (stored (default ∅ (nd_Config node)));
  ne_TimeoutSeconds := if nd_TimeoutSeconds node <=? 0 then 60 else nd_TimeoutSeconds node;
  ne_Retry := default_retry (nd_Retry node);
  ne_Status := if nd_DependsOn node == [] then "READY" else "PENDING";
  ne_Attempt := 0; ne_AvailableAt := ex_CreatedAt execution; ne_Output := Some ∅;
  ne_ErrorCode := ""; ne_ErrorDetail := ""; ne_LeaseOwner := ""; ne_LeaseUntil := None;
  ne_StartedAt := None; ne_CompletedAt := None;
  ne_CreatedAt := ex_CreatedAt execution; ne_UpdatedAt := ex_CreatedAt execution
|}.

Definition insert_snapshot (execution : SOARExecution) (node : SOARNode) : Store unit :=
  let! random := Random in
  let row := node_snapshot execution random node in
  wrapping ("insert SOAR node snapshot " +:+ nd_ID node) (
    do! guard ((1 <=? ne_TimeoutSeconds row) && (ne_TimeoutSeconds row <=? 3600)) ErrCheckViolation in
    insert_node (fun n => is_node (ne_TenantID row) (ne_ID row) n ||
      (is_node_of (ne_TenantID row) (ne_ExecutionID row) n && (ne_NodeID n == ne_NodeID row))) row).

Definition is_request (tenantID requestID : string) (e : SOARExecution) : bool :=
  (ex_TenantID e == tenantID) && (ex_RequestID e == requestID).

Definition insert_new_execution (execution : SOARExecution) : Store unit :=
  wrapping "insert SOAR execution" (
    do! guard (ex_TriggerType execution ∈? ["MANUAL"; "ALERT"; "INCIDENT"]) ErrCheckViolation in
    do! guard (ex_Context execution != None) ErrCheckViolation in
    insert_execution (fun e => is_execution (ex_TenantID execution) (ex_ID execution) e ||
      is_request (ex_TenantID execution) (ex_RequestID execution) e)
      (execution {{ ex_Context ::= fun c => Some (stored (default ∅ c)); ex_StartedAt := None;
                    ex_CompletedAt := None; ex_Nodes := [] }})).

(** [Some id] is the identifier of an earlier execution of the same request. *)
Definition CreateSOARExecution (execution : SOARExecution) (nodes : list SOARNode) : Store (SOARExecution * bool) :=
  let tenantID := ex_TenantID execution in
  let! existingID := transaction (
    let! earlier := select (fun db => first_row (is_request tenantID (ex_RequestID execution)) (db_executions db)) in
    match earlier with
    | Some e => ret (Some (ex_ID e))
    | None =>
        let! playbook := select (fun db => first_row (is_playbook tenantID (ex_PlaybookID execution)) (db_playbooks db)) in
        let! version := select (fun db => first_row
          (is_version tenantID (ex_PlaybookID execution) (ex_PlaybookVersion execution)) (db_versions db)) in
        match playbook, version with
        | Some p, Some v =>
            if (pb_State p != SOARPlaybookPublished) || (pv_State v != SOARVersionPublished) then fail ErrInvalidState else
            do! insert_new_execution execution in
            do! forM_ nodes (insert_snapshot execution) in
            ret None
        | _, _ => fail ErrNotFound
        end
    end) in
  match existingID with
  | Some id => let! existing := GetSOARExecution tenantID id in ret (existing, false)
  | None => let! item := GetSOARExecution tenantID (ex_ID execution) in ret (item, true)
  end.

End Store.
