(* ===== verification/SoarRuntime.v ===== *)
(** * The run of playbooks in the database: [store/soar_runtime.go]

    Workers claim a node under a lease, and complete, defer, retry or fail it;
    approvals and manual tasks are resolved by people.  After a change of a
    node the graph is promoted (a pending node with all its dependencies done
    becomes ready) and the status of its execution recomputed. *)

From S2P Require Import Prelude GoLang GoFormat Core MemoryStore Playbook Sql AuditTable SoarModel SoarDb.

Section Store.
Context `{JsonColumn}.

(** [encodeSOARObject] and what the column gives back. *)
Definition encodeSOARObject (value : Metadata) : outcome JsonObject :=
  let value := default ∅ value in
  if 1048576 <? string_len (json_metadata (Some value)) then Err (Wrap "SOAR payload exceeds 1 MiB" ErrInvalidExecution)
  else Ok (stored value).

Definition leasedSOARTransitionError (operation : string) : error :=
  Wrap ("cannot " +:+ operation +:+ " a node without its active lease") ErrInvalidState.

(** ** The graph *)

Definition active_statuses : list string := ["PENDING"; "READY"; "RUNNING"; "WAITING_APPROVAL"; "WAITING_MANUAL"].

(** No dependency of the candidate lacks a finished parent. *)
Definition dependencies_done (nodes : list SOARNodeExecution) (candidate : SOARNodeExecution) : bool :=
  forallb (fun dependency =>
    let parents := where_rows (fun parent =>
      is_node_of (ne_TenantID candidate) (ne_ExecutionID candidate) parent && (ne_NodeID parent == dependency)) nodes in
    (parents != []) && forallb (fun parent => ne_Status parent ∈? ["SUCCEEDED"; "SKIPPED"]) parents)
    (ne_DependsOn candidate).

Definition promote_rows (tenantID executionID : string) (now : Time) (nodes : list SOARNodeExecution)
    : list SOARNodeExecution :=
  set_where (fun candidate => is_node_of tenantID executionID candidate && (ne_Status candidate == "PENDING") &&
               dependencies_done nodes candidate)
    (fun n => n {{ ne_Status := "READY"; ne_AvailableAt := now; ne_UpdatedAt := now }}) nodes.

Definition count_status (tenantID executionID : string) (statuses : list string) (nodes : list SOARNodeExecution) : Z :=
  count_rows (fun n => is_node_of tenantID executionID n && (ne_Status n ∈? statuses)) nodes.

(** The switch over the counts: the status and whether it is final. *)
Definition reconciled_status (tenantID executionID : string) (nodes : list SOARNodeExecution) : string * bool :=
  let count := fun statuses => count_status tenantID executionID statuses nodes in
  if 0 <? count ["FAILED"] then (SOARExecutionFailed, true)
  else if count active_statuses =? 0 then (SOARExecutionSucceeded, true)
  else if 0 <? count ["WAITING_APPROVAL"] then (SOARExecutionWaitingApproval, false)
  else if 0 <? count ["WAITING_MANUAL"] then (SOARExecutionWaitingManual, false)
  else (SOARExecutionRunning, false).

Definition cancel_rows (tenantID executionID : string) (now : Time) (nodes : list SOARNodeExecution)
    : list SOARNodeExecution :=
  set_where (fun n => is_node_of tenantID executionID n && (ne_Status n ∈? active_statuses))
    (fun n => n {{ ne_Status := "CANCELLED"; ne_LeaseOwner := ""; ne_LeaseUntil := None;
                   ne_CompletedAt := Some now; ne_UpdatedAt := now }}) nodes.

(** What promotion and reconciliation make of the node rows. *)
Definition settle_rows (tenantID executionID : string) (now : Time) (nodes : list SOARNodeExecution)
    : list SOARNodeExecution :=
  let nodes := promote_rows tenantID executionID now nodes in
  if (reconciled_status tenantID executionID nodes).1 == SOARExecutionFailed
  then cancel_rows tenantID executionID now nodes else nodes.

(** The statements in order, on tables that nobody else changes meanwhile; the
    code does not lock the execution before them, see SoarIsolation.v. *)
Definition promoteAndReconcileSOAR (tenantID executionID : string) (now : Time) : Store unit :=
  do! execute (fun db => db {{ db_nodes ::= promote_rows tenantID executionID now }}) in
  let! (status, completed) := select (fun db => reconciled_status tenantID executionID (db_nodes db)) in
  do! (if status == SOARExecutionFailed
       then execute (fun db => db {{ db_nodes ::= cancel_rows tenantID executionID now }}) else ret tt) in
  let! rows := update_executions (is_execution tenantID executionID) (fun e => e {{
    ex_Status := status; ex_Version ::= Z.add 1; ex_UpdatedAt := now;
    ex_CompletedAt := if completed then Some now else None }}) in
  if Z.of_nat (length rows) != 1 then fail ErrNotFound else ret tt.

(** ** Expiry *)

Definition is_overdue (now : Time) (a : SOARApproval) : bool :=
  (apr_Status a == "PENDING") && (apr_ExpiresAt a <=? now).

(** An approval node that was waiting fails. *)
Definition fail_waiting (tenantID nodeExecutionID code detail : string) (now : Time) : Store (list SOARNodeExecution) :=
  update_nodes (fun n => is_node tenantID nodeExecutionID n && (ne_Status n == "WAITING_APPROVAL"))
    (fun n => n {{ ne_Status := "FAILED"; ne_ErrorCode := code; ne_ErrorDetail := detail;
                   ne_CompletedAt := Some now; ne_UpdatedAt := now }}).

(** The executions are reconciled one by one, each but once; they are rows of
    their own, so the order, which is that of a Go map, does not matter. *)
Definition expireSOARApprovals (now : Time) : Store unit :=
  let! expired := update_approvals (is_overdue now) (fun a => a {{
    apr_Status := "EXPIRED"; apr_DecidedAt := Some now; apr_Version ::= Z.add 1 }}) in
  do! forM_ expired (fun item =>
    do! fail_waiting (apr_TenantID item) (apr_NodeExecutionID item) "approval_expired" "approval window expired" now in
    ret tt) in
  let executions : gmap string (string * string) := list_to_map (List.map (fun item =>
    (apr_TenantID item +:+ "|" +:+ apr_ExecutionID item, (apr_TenantID item, apr_ExecutionID item))) expired) in
  forM_ (map_to_list executions) (fun '(_, (tenantID, executionID)) => promoteAndReconcileSOAR tenantID executionID now).

(** ** What a worker asks for *)

(** [COALESCE(n.lease_until,'-infinity') <= now] *)
Definition lease_over (now : Time) (n : SOARNodeExecution) : bool :=
  match ne_LeaseUntil n with Some until => until <=? now | None => true end.

Definition claimable (now : Time) (tenantScope : string) (db : SoarDb) (n : SOARNodeExecution) : bool :=
  existsb (fun e => is_execution (ne_TenantID n) (ne_ExecutionID n) e &&
    (ex_Status e ∈? ["QUEUED"; "RUNNING"; "WAITING_APPROVAL"; "WAITING_MANUAL"])) (db_executions db) &&
  ((tenantScope == "") || (ne_TenantID n == tenantScope)) && (ne_AvailableAt n <=? now) &&
  ((ne_Status n == "READY") || ((ne_Status n == "RUNNING") && lease_over now n)) &&
  negb (ne_ID n ∈? db_locked db).

(** [ORDER BY n.available_at, n.created_at, n.node_execution_id] *)
Definition claim_order (a b : SOARNodeExecution) : Prop :=
  ne_AvailableAt a < ne_AvailableAt b \/ ne_AvailableAt a = ne_AvailableAt b /\
  (ne_CreatedAt a < ne_CreatedAt b \/ ne_CreatedAt a = ne_CreatedAt b /\ String.le (ne_ID a) (ne_ID b)).
#[global] Instance claim_order_dec a b : Decision (claim_order a b).
Proof. apply or_dec; [apply _|]. apply and_dec; [apply _|]. apply or_dec; [apply _|]. apply and_dec; apply _. Defined.

(** [if errors.Is(err, pgx.ErrNoRows) { return item, false, nil }]: the function
    returns before the commit, so that its transaction is rolled back. *)
Definition ErrNoRows := New "no rows in result set".

Definition found {A} (m : Store A) : Store (option A) := fun w =>
  match m w with
  | (Ok a, w') => (Ok (Some a), w')
  | (Err e, w') => (if e == ErrNoRows then Ok None else Err e, w')
  | (Panic, w') => (Panic, w')
  end.

(** [None] is [found = false]. *)
Definition ClaimSOARNode (workerID tenantScope : string) (lease : Duration) : Store (option SOARWorkItem) :=
  let workerID := TrimSpace workerID in
  let tenantScope := TrimSpace tenantScope in
  if (workerID == "") || (lease <=? 0)
  then fail (Wrap "worker identity and positive lease are required" ErrInvalidExecution) else
  found (transaction (
    let! now := Now in
    do! expireSOARApprovals now in
    let! row := select (fun db => head (merge_sort claim_order (where_rows (claimable now tenantScope db) (db_nodes db)))) in
    match row with
    | None => fail ErrNoRows
    | Some chosen =>
        let! nodes := update_nodes (is_node (ne_TenantID chosen) (ne_ID chosen)) (fun n => n {{
          ne_Status := "RUNNING"; ne_Attempt ::= Z.add 1; ne_LeaseOwner := workerID;
          ne_LeaseUntil := Some (time_Add now lease);
          ne_StartedAt ::= fun s => Some (default now s); ne_UpdatedAt := now }}) in
        match head nodes with
        | None => fail (New "lease SOAR work item")
        | Some node =>
            do! update_executions (is_execution (ne_TenantID node) (ne_ExecutionID node)) (fun e => e {{
              ex_Status := "RUNNING"; ex_Version ::= Z.add 1;
              ex_StartedAt ::= fun s => Some (default now s); ex_UpdatedAt := now }}) in
            let! execution := select (fun db =>
              first_row (is_execution (ne_TenantID node) (ne_ExecutionID node)) (db_executions db)) in
            match execution with
            | None => fail (New "load claimed SOAR execution")
            | Some execution => ret {| wi_Execution := execution; wi_Node := node |}
            end
        end
    end)).

(** The row of a running node that the worker holds the lease of. *)
Definition is_leased (tenantID nodeExecutionID workerID : string) (n : SOARNodeExecution) : bool :=
  is_node tenantID nodeExecutionID n && (ne_Status n == "RUNNING") && (ne_LeaseOwner n == workerID).

(** An UPDATE of the leased row, RETURNING its execution. *)
Definition update_leased (tenantID nodeExecutionID workerID operation : string)
    (f : SOARNodeExecution -> SOARNodeExecution) : Store string :=
  let! rows := update_nodes (is_leased tenantID nodeExecutionID workerID) f in
  match head rows with
  | None => fail (leasedSOARTransitionError operation)
  | Some n => ret (ne_ExecutionID n)
  end.

Definition CompleteSOARNode (tenantID nodeExecutionID workerID : string) (output : Metadata) : Store unit :=
  let! payload := lift (encodeSOARObject output) in
  transaction (
    let! now := Now in
    let! executionID := update_leased tenantID nodeExecutionID workerID "complete" (fun n => n {{
      ne_Status := "SUCCEEDED"; ne_Output := Some payload; ne_ErrorCode := ""; ne_ErrorDetail := "";
      ne_LeaseOwner := ""; ne_LeaseUntil := None; ne_CompletedAt := Some now; ne_UpdatedAt := now }}) in
    promoteAndReconcileSOAR tenantID executionID now).

Definition touch_running (tenantID executionID : string) (now : Time) : Store unit :=
  do! update_executions (is_execution tenantID executionID) (fun e => e {{
    ex_Status := "RUNNING"; ex_Version ::= Z.add 1; ex_UpdatedAt := now }}) in
  ret tt.

Definition DeferSOARNode (tenantID nodeExecutionID workerID : string) (availableAt : Time) (output : Metadata)
    : Store unit :=
  let! payload := lift (encodeSOARObject output) in
  transaction (
    let! now := Now in
    let! executionID := update_leased tenantID nodeExecutionID workerID "defer" (fun n => n {{
      ne_Status := "READY"; ne_AvailableAt := availableAt; ne_Output := Some payload;
      ne_LeaseOwner := ""; ne_LeaseUntil := None; ne_UpdatedAt := now }}) in
    touch_running tenantID executionID now).

Definition RetrySOARNode (tenantID nodeExecutionID workerID : string) (availableAt : Time) (code detail : string)
    : Store unit :=
  transaction (
    let! now := Now in
    let! executionID := update_leased tenantID nodeExecutionID workerID "retry" (fun n => n {{
      ne_Status := "READY"; ne_AvailableAt := availableAt; ne_ErrorCode := TrimSpace code;
      ne_ErrorDetail := TrimSpace detail; ne_LeaseOwner := ""; ne_LeaseUntil := None; ne_UpdatedAt := now }}) in
    touch_running tenantID executionID now).

Definition FailSOARNode (tenantID nodeExecutionID workerID code detail : string) : Store unit :=
  transaction (
    let! now := Now in
    let! executionID := update_leased tenantID nodeExecutionID workerID "fail" (fun n => n {{
      ne_Status := "FAILED"; ne_ErrorCode := TrimSpace code; ne_ErrorDetail := TrimSpace detail;
      ne_LeaseOwner := ""; ne_LeaseUntil := None; ne_CompletedAt := Some now; ne_UpdatedAt := now }}) in
    promoteAndReconcileSOAR tenantID executionID now).

(** ** Approvals and manual tasks *)

(** [ORDER BY decided_at, approver] *)
Definition decision_order (a b : SOARApprovalDecision) : Prop :=
  apd_DecidedAt a < apd_DecidedAt b \/ apd_DecidedAt a = apd_DecidedAt b /\ String.le (apd_Approver a) (apd_Approver b).
#[global] Instance decision_order_dec a b : Decision (decision_order a b).
Proof. apply or_dec; [apply _|]. apply and_dec; apply _. Defined.

Definition listSOARApprovalDecisions (tenantID approvalID : string) : Store (list SOARApprovalDecision) :=
  select (fun db => merge_sort decision_order
    (List.map dr_Decision (where_rows (is_decision_of tenantID approvalID) (db_decisions db)))).

Definition getSOARApproval (tenantID approvalID : string) : Store SOARApproval :=
  let! row := select (fun db => first_row (is_approval tenantID approvalID) (db_approvals db)) in
  match row with
  | None => fail ErrNotFound
  | Some item =>
      let! decisions := listSOARApprovalDecisions tenantID approvalID in ret (item {{ apr_Decisions := decisions }})
  end.

Definition set_waiting (item : SOARWorkItem) (status : string) (now : Time) : Store (list SOARNodeExecution) :=
  update_nodes (is_leased (ne_TenantID (wi_Node item)) (ne_ID (wi_Node item)) (ne_LeaseOwner (wi_Node item)))
    (fun n => n {{ ne_Status := status; ne_LeaseOwner := ""; ne_LeaseUntil := None; ne_UpdatedAt := now }}).

(** [ON CONFLICT (tenant_id,node_execution_id) DO NOTHING] *)
Definition insert_new_approval (row : SOARApproval) : Store unit :=
  wrapping "insert SOAR approval" (
    do! guard ((0 <=? apr_RiskLevel row) && (apr_RiskLevel row <=? 6) &&
               (1 <=? apr_RequiredApprovals row) && (apr_RequiredApprovals row <=? 2)) ErrCheckViolation in
    let! conflict := select (fun db =>
      existsb (is_approval_of_node (apr_TenantID row) (apr_NodeExecutionID row)) (db_approvals db)) in
    if conflict then ret tt else insert_approval (is_approval (apr_TenantID row) (apr_ID row)) row).

Definition RequestSOARApproval (item : SOARWorkItem) (riskLevel required : Z) (expiresAt : Time) : Store SOARApproval :=
  let node := wi_Node item in
  let! approvalID := transaction (
    let! row := select (fun db => first_row (is_node (ne_TenantID node) (ne_ID node)) (db_nodes db)) in
    match row with
    | None => fail ErrNotFound
    | Some locked =>
        if (ne_Status locked != "RUNNING") || (ne_LeaseOwner locked != ne_LeaseOwner node) ||
           (ne_ExecutionID locked != ex_ID (wi_Execution item))
        then fail (Wrap "approval node lease changed" ErrInvalidState) else
        let! now := Now in
        let! random := Random in
        do! insert_new_approval {|
          apr_ID := NewID "sap" random; apr_TenantID := ne_TenantID node; apr_ExecutionID := ne_ExecutionID locked;
          apr_NodeExecutionID := ne_ID node; apr_RiskLevel := riskLevel; apr_RequiredApprovals := required;
          apr_Status := "PENDING"; apr_Version := 1; apr_RequestedBy := ex_TriggeredBy (wi_Execution item);
          apr_RequestedAt := now; apr_ExpiresAt := expiresAt; apr_DecidedAt := None; apr_Decisions := [] |} in
        let! existing := select (fun db => first_row (is_approval_of_node (ne_TenantID node) (ne_ID node)) (db_approvals db)) in
        match existing with
        | None => fail (New "resolve SOAR approval")
        | Some approval =>
            let! changed := set_waiting item "WAITING_APPROVAL" now in
            if Z.of_nat (length changed) != 1 then fail (Wrap "approval node lease changed" ErrInvalidState) else
            do! promoteAndReconcileSOAR (ne_TenantID node) (ne_ExecutionID locked) now in
            ret (apr_ID approval)
        end
    end) in
  getSOARApproval (ne_TenantID node) approvalID.

Definition RequestSOARManualTask (item : SOARWorkItem) : Store unit :=
  transaction (
    let! now := Now in
    let! changed := set_waiting item "WAITING_MANUAL" now in
    if Z.of_nat (length changed) != 1 then fail (Wrap "manual task node lease changed" ErrInvalidState) else
    promoteAndReconcileSOAR (ne_TenantID (wi_Node item)) (ex_ID (wi_Execution item)) now).

Definition count_approvals (tenantID approvalID : string) (rows : list DecisionRow) : Z :=
  count_rows (fun d => is_decision_of tenantID approvalID d && (apd_Decision (dr_Decision d) == "APPROVE")) rows.

(** [INSERT ... ON CONFLICT DO NOTHING] of a decision; [false] is no row. *)
Definition insert_decision (row : DecisionRow) : Store bool :=
  wrapping "record SOAR approval decision" (
    do! guard (decision_Valid (apd_Decision (dr_Decision row))) ErrCheckViolation in
    let! conflict := select (fun db => existsb (fun d => is_decision_of (dr_TenantID row) (dr_ApprovalID row) d &&
      (apd_Approver (dr_Decision d) == apd_Approver (dr_Decision row))) (db_decisions db)) in
    if conflict then ret false else
    do! execute (fun db => db {{ db_decisions ::= fun rows => rows ++ [row] }}) in ret true).

(** The approval's window is over: it and its node are closed, and committed. *)
Definition expire_approval (tenantID approvalID : string) (approval : SOARApproval) (now : Time) : Store unit :=
  do! update_approvals (is_approval tenantID approvalID) (fun a => a {{
    apr_Status := "EXPIRED"; apr_DecidedAt := Some now; apr_Version ::= Z.add 1 }}) in
  do! fail_waiting tenantID (apr_NodeExecutionID approval) "approval_expired" "approval window expired" now in
  promoteAndReconcileSOAR tenantID (apr_ExecutionID approval) now.

(** The decision is final: the approval is closed and its node resumed. *)
Definition finalize_approval (tenantID approvalID : string) (approval : SOARApproval) (finalStatus reason : string)
    (now : Time) : Store unit :=
  do! update_approvals (is_approval tenantID approvalID) (fun a => a {{
    apr_Status := finalStatus; apr_DecidedAt := Some now; apr_Version ::= Z.add 1 }}) in
  let! resumed :=
    if finalStatus == ApprovalStatusRejected
    then fail_waiting tenantID (apr_NodeExecutionID approval) "approval_rejected" reason now
    else
      let output : JsonObject := list_to_map [
        ("approval_id", VString approvalID); ("approved", VBool true);
        ("required_approvals", VInt (apr_RequiredApprovals approval)) ] in
      update_nodes (fun n => is_node tenantID (apr_NodeExecutionID approval) n && (ne_Status n == "WAITING_APPROVAL"))
        (fun n => n {{ ne_Status := "SUCCEEDED"; ne_Output := Some (stored output);
                       ne_CompletedAt := Some now; ne_UpdatedAt := now }}) in
  if Z.of_nat (length resumed) != 1 then fail (Wrap "approval node is no longer waiting" ErrInvalidState) else
  promoteAndReconcileSOAR tenantID (apr_ExecutionID approval) now.

Definition decision_audit (tenantID approvalID approver : string) (approval : SOARApproval) (command : SOARApprovalCommand)
    (newStatus : string) (now : Time) : AuditEntry :=
  let actorType := TrimSpace (cmd_ActorType command) in
  let actorType := if actorType == "" then "USER" else actorType in
  let correlationID := TrimSpace (cmd_CorrelationID command) in
  let correlationID := if correlationID == "" then TrimSpace (cmd_RequestID command) else correlationID in
  {| au_ID := ""; au_TenantID := tenantID; au_Actor := approver;
     au_Action := "soar.approval." +:+ ToLower (cmd_Decision command);
     au_ResourceType := "soar_approval"; au_ResourceID := approvalID; au_Outcome := "SUCCESS";
     au_RequestID := cmd_RequestID command;
     au_Metadata := Some (list_to_map [
       ("actor_id", VString approver); ("actor_type", VString actorType); ("tenant_id", VString tenantID);
       ("approval_request_id", VString approvalID); ("playbook_run_id", VString (apr_ExecutionID approval));
       ("action_id", VString (apr_NodeExecutionID approval)); ("decision", VString (cmd_Decision command));
       ("previous_status", VString (apr_Status approval)); ("new_status", VString newStatus);
       ("reason", VString (cmd_Reason command)); ("timestamp", VString (FormatRFC3339Nano now));
       ("correlation_id", VString correlationID); ("request_id", VString (cmd_RequestID command));
       ("optimistic_version", VInt (apr_Version approval + 1));
       ("source", match cmd_Source command with Some m => VMap (map_to_list m) | None => VNil end) ]);
     au_PreviousHash := ""; au_Hash := ""; au_CreatedAt := zero_time |}.

(** [true] is the decision recorded, [false] the window found over, which is
    committed and then reported as an error. *)
Definition DecideSOARApproval (tenantID approvalID approver : string) (command : SOARApprovalCommand)
    : Store SOARApproval :=
  let! decided := transaction (
    let! row := select (fun db => first_row (is_approval tenantID approvalID) (db_approvals db)) in
    match row with
    | None => fail ErrNotFound
    | Some approval =>
        let! now := Now in
        if apr_Version approval != cmd_Version command then fail
          (Wrap ("expected version " +:+ Itoa (cmd_Version command) +:+ ", current version " +:+ Itoa (apr_Version approval))
                ErrApprovalVersionConflict) else
        if apr_Status approval != ApprovalStatusPending then fail
          (Wrap ("approval is already " +:+ apr_Status approval) ErrInvalidState) else
        if negb (Before now (apr_ExpiresAt approval)) then
          do! expire_approval tenantID approvalID approval now in ret false
        else if apr_RequestedBy approval == approver
        then fail (Wrap "execution initiator cannot approve their own action" ErrInvalidState) else
        let! inserted := insert_decision {| dr_TenantID := tenantID; dr_ApprovalID := approvalID; dr_Decision := {|
          apd_Approver := approver; apd_Decision := cmd_Decision command; apd_Reason := cmd_Reason command;
          apd_DecidedAt := now |} |} in
        if negb inserted then fail ErrAlreadyExists else
        let! approvals := select (fun db => count_approvals tenantID approvalID (db_decisions db)) in
        let finalStatus :=
          if cmd_Decision command == ApprovalDecisionReject then ApprovalStatusRejected
          else if apr_RequiredApprovals approval <=? approvals then ApprovalStatusApproved else "" in
        let newStatus := if finalStatus != "" then finalStatus else ApprovalStatusPending in
        do! (if finalStatus != "" then finalize_approval tenantID approvalID approval finalStatus (cmd_Reason command) now
             else do! update_approvals (is_approval tenantID approvalID) (fun a => a {{ apr_Version ::= Z.add 1 }}) in
                  ret tt) in
        do! wrapping "append SOAR approval audit"
          (appendAuditTx (decision_audit tenantID approvalID approver approval command newStatus now)) in
        ret true
    end) in
  if decided : bool then getSOARApproval tenantID approvalID else fail (Wrap "approval expired" ErrInvalidState).

(** [ORDER BY requested_at DESC, approval_id] *)
Definition approval_order (a b : SOARApproval) : Prop :=
  apr_RequestedAt b < apr_RequestedAt a \/ apr_RequestedAt a = apr_RequestedAt b /\ String.le (apr_ID a) (apr_ID b).
#[global] Instance approval_order_dec a b : Decision (approval_order a b).
Proof. apply or_dec; [apply _|]. apply and_dec; apply _. Defined.

Definition ListSOARApprovals (tenantID : string) (filter : SOARApprovalFilter) : Store (list SOARApproval) :=
  let limit := if (apf_Limit filter <=? 0) || (500 <? apf_Limit filter) then 100 else apf_Limit filter in
  let! rows := select (fun db => take (Z.to_nat limit) (merge_sort approval_order (where_rows (fun a =>
    (apr_TenantID a == tenantID) && ((apf_Status filter == "") || (apr_Status a == apf_Status filter)) &&
    ((apf_ExecutionID filter == "") || (apr_ExecutionID a == apf_ExecutionID filter))) (db_approvals db)))) in
  foldM (fun items item =>
    let! decisions := listSOARApprovalDecisions tenantID (apr_ID item) in
    ret (items ++ [item {{ apr_Decisions := decisions }}])) [] rows.

Definition CompleteSOARManualTask (tenantID executionID nodeID : string) (output : Metadata) : Store SOARExecution :=
  let! payload := lift (encodeSOARObject output) in
  do! transaction (
    let! now := Now in
    let! changed := update_nodes (fun n => is_node_of tenantID executionID n && (ne_NodeID n == nodeID) &&
                                           (ne_Status n == "WAITING_MANUAL"))
      (fun n => n {{ ne_Status := "SUCCEEDED"; ne_Output := Some payload; ne_CompletedAt := Some now;
                     ne_UpdatedAt := now }}) in
    if Z.of_nat (length changed) != 1 then fail (Wrap "manual task is not waiting" ErrInvalidState) else
    promoteAndReconcileSOAR tenantID executionID now) in
  GetSOARExecution tenantID executionID.

(** ** Action attempts *)

(** The CHECK constraints of [soar_action_attempts]. *)
Definition attempt_checks (mode status : string) (riskLevel : Z) : bool :=
  (mode ∈? ["DRY_RUN"; "LIVE"]) &&
  (status ∈? ["PLANNED"; "RUNNING"; "SUCCEEDED"; "FAILED"; "VERIFICATION_FAILED"; "COMPENSATED"]) &&
  (0 <=? riskLevel) && (riskLevel <=? 6).

(** [true] is an attempt recorded by this call; the constraint
    [ON CONFLICT (tenant_id,idempotency_key) DO NOTHING] keeps an earlier one. *)
Definition BeginSOARAction (attempt : SOARActionAttempt) : Store (SOARActionAttempt * bool) :=
  let! request := lift (encodeSOARObject (att_Request attempt)) in
  let! result := lift (encodeSOARObject (att_Result attempt)) in
  let row := attempt {{ att_Request := Some request; att_Result := Some result }} in
  do! wrapping "begin SOAR action"
    (guard (attempt_checks (att_Mode row) (att_Status row) (att_RiskLevel row)) ErrCheckViolation) in
  let! earlier := select (fun db =>
    first_row (is_attempt_key (att_TenantID row) (att_IdempotencyKey row)) (db_attempts db)) in
  match earlier with
  | Some stored => ret (stored, false)
  | None =>
      do! wrapping "begin SOAR action" (insert_attempt (is_attempt (att_TenantID row) (att_ID row)) row) in
      ret (row, true)
  end.

(** The statuses the worker reports pass the CHECK constraint of the column. *)
Definition FinishSOARAction (tenantID attemptID status : string) (result : Metadata)
    (errorClass errorDetail verificationStatus : string) : Store SOARActionAttempt :=
  let! payload := lift (encodeSOARObject result) in
  let! now := Now in
  let! rows := update_attempts (is_attempt tenantID attemptID) (fun a => a {{
    att_Status := ToUpper (TrimSpace status); att_Result := Some payload; att_ErrorClass := TrimSpace errorClass;
    att_ErrorDetail := TrimSpace errorDetail; att_VerificationStatus := TrimSpace verificationStatus;
    att_UpdatedAt := now }}) in
  match head rows with
  | None => fail ErrNotFound
  | Some item => ret item
  end.

(** [ORDER BY created_at, action_attempt_id] *)
Definition attempt_order (a b : SOARActionAttempt) : Prop :=
  att_CreatedAt a < att_CreatedAt b \/ att_CreatedAt a = att_CreatedAt b /\ String.le (att_ID a) (att_ID b).
#[global] Instance attempt_order_dec a b : Decision (attempt_order a b).
Proof. apply or_dec; [apply _|]. apply and_dec; apply _. Defined.

Definition ListSOARActionAttempts (tenantID executionID : string) (limit : Z) : Store (list SOARActionAttempt) :=
  let limit := if (limit <=? 0) || (500 <? limit) then 100 else limit in
  select (fun db => take (Z.to_nat limit) (merge_sort attempt_order (where_rows (fun a =>
    (att_TenantID a == tenantID) && (att_ExecutionID a == executionID)) (db_attempts db)))).

End Store.
