(* ===== verification/SoarService.v ===== *)
(** * Programs over the SOAR store

    The service and the workers run at the same time, and a call of one of them
    is several transactions.  So they are modelled as programs: trees whose
    nodes are the calls of the interfaces [Store], [RuntimeControlStore],
    [RuntimeStore] (soar/service.go, soar/worker.go), of the clock, of
    [core.NewID] and of the action executor.  [run] executes a program alone;
    SoarSystem.v interleaves any number of them. *)

From S2P Require Import Prelude GoLang GoFormat Core Playbook Sql AuditTable SoarModel SoarDb SoarRuntime.

Record ActionRequest : Type := {
  ar_Attempt : SOARActionAttempt;
  ar_Execution : SOARExecution;
  ar_Node : SOARNodeExecution
}.

Record ActionResult : Type := {
  res_Output : Metadata;
  res_VerificationStatus : string
}.

(** The calls, each with the type of its result. *)
Inductive Op : Type -> Type :=
  | CallNow : Op Time
  | CallNewID (prefix : string) : Op string
  | CallExecute (request : ActionRequest) : Op ActionResult
  | CallCreatePlaybook (playbook : SOARPlaybook) (version : SOARPlaybookVersion) : Op SOARPlaybookDetails
  | CallCreateVersion (tenantID playbookID actor : string) (spec : SOARPlaybookSpec) (report : SOARValidationReport)
      : Op SOARPlaybookVersion
  | CallGetPlaybook (tenantID playbookID : string) : Op SOARPlaybookDetails
  | CallListPlaybooks (tenantID : string) : Op (list SOARPlaybook)
  | CallSaveValidation (tenantID playbookID : string) (version : Z) (report : SOARValidationReport) : Op SOARPlaybookVersion
  | CallPublishVersion (tenantID playbookID : string) (version : Z) (actor : string) : Op SOARPlaybookDetails
  | CallDisablePlaybook (tenantID playbookID actor : string) : Op SOARPlaybook
  | CallCreateExecution (execution : SOARExecution) (nodes : list SOARNode) : Op (SOARExecution * bool)
  | CallGetExecution (tenantID executionID : string) : Op SOARExecution
  | CallListExecutions (tenantID : string) (filter : SOARExecutionFilter) : Op (list SOARExecution)
  | CallListApprovals (tenantID : string) (filter : SOARApprovalFilter) : Op (list SOARApproval)
  | CallDecideApproval (tenantID approvalID approver : string) (command : SOARApprovalCommand) : Op SOARApproval
  | CallCompleteManualTask (tenantID executionID nodeID : string) (output : Metadata) : Op SOARExecution
  | CallListAttempts (tenantID executionID : string) (limit : Z) : Op (list SOARActionAttempt)
  | CallClaim (workerID tenantScope : string) (lease : Duration) : Op (option SOARWorkItem)
  | CallComplete (tenantID nodeExecutionID workerID : string) (output : Metadata) : Op unit
  | CallDefer (tenantID nodeExecutionID workerID : string) (availableAt : Time) (output : Metadata) : Op unit
  | CallRetry (tenantID nodeExecutionID workerID : string) (availableAt : Time) (code detail : string) : Op unit
  | CallFail (tenantID nodeExecutionID workerID code detail : string) : Op unit
  | CallRequestApproval (item : SOARWorkItem) (riskLevel required : Z) (expiresAt : Time) : Op SOARApproval
  | CallRequestManualTask (item : SOARWorkItem) : Op unit
  | CallBegin (attempt : SOARActionAttempt) : Op (SOARActionAttempt * bool)
  | CallFinish (tenantID attemptID status : string) (result : Metadata) (errorClass errorDetail verificationStatus : string)
      : Op SOARActionAttempt.

Inductive prog (A : Type) : Type :=
  | Done (r : outcome A)
  | Perform {B : Type} (op : Op B) (k : outcome B -> prog A).
Arguments Done {A} r.
Arguments Perform {A B} op k.

(** Sequencing: an error or a panic ends the program. *)
Fixpoint pbind {A B} (p : prog A) (f : A -> prog B) : prog B :=
  match p with
  | Done (Ok a) => f a
  | Done (Err e) => Done (Err e)
  | Done Panic => Done Panic
  | Perform op k => Perform op (fun r => pbind (k r) f)
  end.

Definition pret {A} (a : A) : prog A := Done (Ok a).
Definition pfail {A} (e : error) : prog A := Done (Err e).
(** A call whose error is returned at once. *)
Definition call {A} (op : Op A) : prog A := Perform op Done.
(** A program whose error the caller inspects. *)
Fixpoint caught {A} (p : prog A) : prog (outcome A) :=
  match p with
  | Done r => Done (Ok r)
  | Perform op k => Perform op (fun r => caught (k r))
  end.

Notation "'step!' x ':=' p 'in' k" := (pbind p (fun x => k))
  (at level 10, x pattern, p at level 100, k at level 200).

Section Handler.
Context `{JsonColumn} (executor : ActionRequest -> outcome ActionResult).

(** The database's answer to a call, and the executor's. *)
Definition handle {A} (op : Op A) : Store A :=
  match op in Op A return Store A with
  | CallNow => Now
  | CallNewID prefix => let! random := Random in ret (NewID prefix random)
  | CallExecute request => lift (executor request)
  | CallCreatePlaybook playbook version => CreateSOARPlaybook playbook version
  | CallCreateVersion tenantID playbookID actor spec report => CreateSOARPlaybookVersion tenantID playbookID actor spec report
  | CallGetPlaybook tenantID playbookID => GetSOARPlaybook tenantID playbookID
  | CallListPlaybooks tenantID => ListSOARPlaybooks tenantID
  | CallSaveValidation tenantID playbookID version report => SaveSOARValidation tenantID playbookID version report
  | CallPublishVersion tenantID playbookID version actor => PublishSOARPlaybookVersion tenantID playbookID version actor
  | CallDisablePlaybook tenantID playbookID actor => DisableSOARPlaybook tenantID playbookID actor
  | CallCreateExecution execution nodes => CreateSOARExecution execution nodes
  | CallGetExecution tenantID executionID => GetSOARExecution tenantID executionID
  | CallListExecutions tenantID filter => ListSOARExecutions tenantID filter
  | CallListApprovals tenantID filter => ListSOARApprovals tenantID filter
  | CallDecideApproval tenantID approvalID approver command => DecideSOARApproval tenantID approvalID approver command
  | CallCompleteManualTask tenantID executionID nodeID output => CompleteSOARManualTask tenantID executionID nodeID output
  | CallListAttempts tenantID executionID limit => ListSOARActionAttempts tenantID executionID limit
  | CallClaim workerID tenantScope lease => ClaimSOARNode workerID tenantScope lease
  | CallComplete tenantID nodeExecutionID workerID output => CompleteSOARNode tenantID nodeExecutionID workerID output
  | CallDefer tenantID nodeExecutionID workerID availableAt output =>
      DeferSOARNode tenantID nodeExecutionID workerID availableAt output
  | CallRetry tenantID nodeExecutionID workerID availableAt code detail =>
      RetrySOARNode tenantID nodeExecutionID workerID availableAt code detail
  | CallFail tenantID nodeExecutionID workerID code detail => FailSOARNode tenantID nodeExecutionID workerID code detail
  | CallRequestApproval item riskLevel required expiresAt => RequestSOARApproval item riskLevel required expiresAt
  | CallRequestManualTask item => RequestSOARManualTask item
  | CallBegin attempt => BeginSOARAction attempt
  | CallFinish tenantID attemptID status result errorClass errorDetail verificationStatus =>
      FinishSOARAction tenantID attemptID status result errorClass errorDetail verificationStatus
  end.

(** A program run alone. *)
Fixpoint run {A} (p : prog A) : Store A :=
  match p with
  | Done r => lift r
  | Perform op k => fun w => let '(r, w') := handle op w in run (k r) w'
  end.

End Handler.

(** * The SOAR service: [soar/service.go]

    The store is the database, which implements [RuntimeControlStore]. *)

Record PlaybookDraft : Type := {
  pdr_Name : string;
  pdr_Description : string;
  pdr_Spec : SOARPlaybookSpec
}.

Record ExecutionRequest : Type := {
  er_PlaybookID : string;
  er_RequestID : string;
  er_TriggerType : string;
  er_TriggerResourceType : string;
  er_TriggerResourceID : string;
  er_Context : Metadata
}.
#[export] Instance eta_ExecutionRequest : Eta ExecutionRequest := fun r => {|
  er_PlaybookID := er_PlaybookID r; er_RequestID := er_RequestID r; er_TriggerType := er_TriggerType r;
  er_TriggerResourceType := er_TriggerResourceType r; er_TriggerResourceID := er_TriggerResourceID r;
  er_Context := er_Context r
|}.

Record ApprovalDecisionRequest : Type := {
  adr_Decision : string;
  adr_Reason : string;
  adr_Version : Z;
  adr_RequestID : string;
  adr_CorrelationID : string;
  adr_ActorType : string;
  adr_Source : Metadata
}.

Section Service.
(** The catalog of the service's validator. *)
Variable actions : ActionCatalog.

(** [s.validator.Validate(spec)], which reads the validator's clock. *)
Definition validate (spec : SOARPlaybookSpec) : prog SOARValidationReport :=
  step! now := call CallNow in pret (Validate actions now spec).

Definition CreatePlaybook (tenantID actor : string) (draft : PlaybookDraft) : prog SOARPlaybookDetails :=
  let name := TrimSpace (pdr_Name draft) in
  let description := TrimSpace (pdr_Description draft) in
  if (tenantID == "") || (actor == "") || (string_len name <? 2) || (160 <? string_len name) ||
     (4000 <? string_len description)
  then pfail (Wrap "tenant, actor, and a 2-160 character name are required" ErrInvalidPlaybook) else
  step! report := validate (pdr_Spec draft) in
  step! now := call CallNow in
  step! id := call (CallNewID "pbk") in
  let playbook := {|
    pb_ID := id; pb_TenantID := tenantID; pb_Name := name; pb_Description := description;
    pb_State := SOARPlaybookDraft; pb_LatestVersion := 1; pb_PublishedVersion := 0; pb_Revision := 1;
    pb_CreatedBy := actor; pb_UpdatedBy := actor; pb_CreatedAt := now; pb_UpdatedAt := now |} in
  let version := {|
    pv_TenantID := tenantID; pv_PlaybookID := id; pv_Version := 1; pv_State := SOARVersionDraft;
    pv_Spec := pdr_Spec draft; pv_SpecHash := vr_SpecHash report; pv_Validation := report;
    pv_CreatedBy := actor; pv_CreatedAt := now; pv_ValidatedAt := None; pv_PublishedAt := None |} in
  call (CallCreatePlaybook playbook version).

Definition CreateVersion (tenantID playbookID actor : string) (spec : SOARPlaybookSpec) : prog SOARPlaybookVersion :=
  if (actor == "") || (TrimSpace playbookID == "")
  then pfail (Wrap "playbook and actor are required" ErrInvalidPlaybook) else
  step! report := validate spec in
  call (CallCreateVersion tenantID playbookID actor spec report).

Definition ValidateVersion (tenantID playbookID : string) (version : Z) : prog SOARPlaybookVersion :=
  step! details := call (CallGetPlaybook tenantID playbookID) in
  match List.find (fun item => pv_Version item =? version) (pd_Versions details) with
  | Some item =>
      if (pv_State item == SOARVersionPublished) || (pv_State item == SOARVersionRetired)
      then pfail (Wrap "immutable published versions cannot be revalidated" ErrInvalidState) else
      step! report := validate (pv_Spec item) in
      call (CallSaveValidation tenantID playbookID version report)
  | None => pfail (Wrap "version does not exist" ErrInvalidPlaybook)
  end.

Definition PublishVersion (tenantID playbookID : string) (version : Z) (actor : string) : prog SOARPlaybookDetails :=
  step! validated := ValidateVersion tenantID playbookID version in
  if negb (vr_Valid (pv_Validation validated))
  then pfail (Wrap (Itoa (Z.of_nat (length (vr_Issues (pv_Validation validated)))) +:+ " validation issue(s)")
                   ErrValidationFailed)
  else call (CallPublishVersion tenantID playbookID version actor).

Definition DisablePlaybook (tenantID playbookID actor : string) : prog SOARPlaybook :=
  call (CallDisablePlaybook tenantID playbookID actor).

Definition GetPlaybook (tenantID playbookID : string) : prog SOARPlaybookDetails :=
  call (CallGetPlaybook tenantID playbookID).

Definition Playbooks (tenantID : string) : prog (list SOARPlaybook) := call (CallListPlaybooks tenantID).

Definition normalize_request (request : ExecutionRequest) : ExecutionRequest := {|
  er_PlaybookID := TrimSpace (er_PlaybookID request);
  er_RequestID := TrimSpace (er_RequestID request);
  er_TriggerType := ToUpper (TrimSpace (er_TriggerType request));
  er_TriggerResourceType := TrimSpace (er_TriggerResourceType request);
  er_TriggerResourceID := TrimSpace (er_TriggerResourceID request);
  er_Context := er_Context request
|}.

Definition json_object_text (o : JsonObject) : string := json_metadata (Some o).

Definition StartExecution (tenantID actor : string) (request : ExecutionRequest) : prog (SOARExecution * bool) :=
  let request := normalize_request request in
  if (actor == "") || (er_PlaybookID request == "") || (string_len (er_RequestID request) <? 8) ||
     (200 <? string_len (er_RequestID request))
  then pfail (Wrap "actor, playbook, and an 8-200 character request_id are required" ErrInvalidExecution) else
  step! details := call (CallGetPlaybook tenantID (er_PlaybookID request)) in
  let playbook := pd_Playbook details in
  if (pb_State playbook != SOARPlaybookPublished) || (pb_PublishedVersion playbook <? 1)
  then pfail (Wrap "playbook is not published" ErrInvalidState) else
  let published := List.find (fun version => (pv_Version version =? pb_PublishedVersion playbook) &&
                                             (pv_State version == SOARVersionPublished)) (pd_Versions details) in
  match published with
  | None => pfail (Wrap "published playbook version is unavailable" ErrInvalidState)
  | Some published =>
      if er_TriggerType request != ToUpper (tr_Type (sp_Trigger (pv_Spec published)))
      then pfail (Wrap "trigger type does not match the published playbook" ErrInvalidExecution) else
      if (er_TriggerType request != "MANUAL") &&
         ((er_TriggerResourceType request == "") || (er_TriggerResourceID request == ""))
      then pfail (Wrap "alert and incident triggers require a resource identity" ErrInvalidExecution) else
      let context := default ∅ (er_Context request) in
      if 1048576 <? string_len (json_object_text context)
      then pfail (Wrap "execution context must be valid JSON smaller than 1 MiB" ErrInvalidExecution) else
      step! now := call CallNow in
      step! id := call (CallNewID "sex") in
      let execution := {|
        ex_ID := id; ex_TenantID := tenantID; ex_PlaybookID := er_PlaybookID request;
        ex_PlaybookVersion := pv_Version published; ex_RequestID := er_RequestID request;
        ex_TriggerType := er_TriggerType request; ex_TriggerResourceType := er_TriggerResourceType request;
        ex_TriggerResourceID := er_TriggerResourceID request; ex_Context := Some context;
        ex_Status := SOARExecutionQueued; ex_Version := 1; ex_TriggeredBy := actor;
        ex_CreatedAt := now; ex_UpdatedAt := now; ex_StartedAt := None; ex_CompletedAt := None; ex_Nodes := [] |} in
      call (CallCreateExecution execution (spec_nodes (pv_Spec published)))
  end.

Definition Execution (tenantID executionID : string) : prog SOARExecution := call (CallGetExecution tenantID executionID).

Definition clamp_limit (limit : Z) : Z :=
  let limit := if limit <=? 0 then 100 else limit in
  if 500 <? limit then 500 else limit.

Definition Executions (tenantID : string) (filter : SOARExecutionFilter) : prog (list SOARExecution) :=
  call (CallListExecutions tenantID (filter {{ exf_Limit ::= clamp_limit; exf_Status ::= fun s => ToUpper (TrimSpace s) }})).

Definition Approvals (tenantID : string) (filter : SOARApprovalFilter) : prog (list SOARApproval) :=
  let filter := filter {{ apf_Status ::= fun s => ToUpper (TrimSpace s) }} in
  if negb (apf_Status filter ∈? [""; ApprovalStatusPending; ApprovalStatusApproved; ApprovalStatusRejected;
                                  ApprovalStatusExpired; ApprovalStatusCancelled])
  then pfail (Wrap "unsupported approval status" ErrInvalidExecution) else
  call (CallListApprovals tenantID (filter {{ apf_ExecutionID ::= TrimSpace; apf_Limit ::= clamp_limit }})).

Definition DecideApproval (tenantID approvalID actor : string) (request : ApprovalDecisionRequest) : prog SOARApproval :=
  let approvalID := TrimSpace approvalID in
  let actor := TrimSpace actor in
  let reason := TrimSpace (adr_Reason request) in
  if (approvalID == "") || (actor == "")
  then pfail (Wrap "approval and actor are required" ErrInvalidExecution) else
  if negb (decision_Valid (adr_Decision request))
  then pfail (Wrap "allowed values are APPROVE and REJECT" ErrInvalidApprovalDecision) else
  if (string_len reason <? 2) || (2000 <? string_len reason)
  then pfail (Wrap "reason must contain 2-2000 characters" ErrInvalidApprovalReason) else
  if adr_Version request <? 1
  then pfail (Wrap "a positive optimistic version is required" ErrInvalidApprovalDecision) else
  call (CallDecideApproval tenantID approvalID actor {|
    cmd_Decision := adr_Decision request; cmd_Reason := reason; cmd_Version := adr_Version request;
    cmd_RequestID := adr_RequestID request; cmd_CorrelationID := adr_CorrelationID request;
    cmd_ActorType := adr_ActorType request; cmd_Source := adr_Source request |}).

Definition CompleteManualTask (tenantID executionID nodeID actor : string) (output : Metadata) : prog SOARExecution :=
  let executionID := TrimSpace executionID in
  let nodeID := TrimSpace nodeID in
  let actor := TrimSpace actor in
  if (executionID == "") || (nodeID == "") || (actor == "")
  then pfail (Wrap "execution, node, and actor are required" ErrInvalidExecution) else
  let output := default ∅ output in
  if 1048576 <? string_len (json_object_text output)
  then pfail (Wrap "manual task output must be valid JSON smaller than 1 MiB" ErrInvalidExecution) else
  step! now := call CallNow in
  let snapshot := <["completed_at" := VString (FormatRFC3339Nano now)]> (<["completed_by" := VString actor]> output) in
  call (CallCompleteManualTask tenantID executionID nodeID (Some snapshot)).

Definition ActionAttempts (tenantID executionID : string) (limit : Z) : prog (list SOARActionAttempt) :=
  let executionID := TrimSpace executionID in
  if executionID == "" then pfail (Wrap "execution_id is required" ErrInvalidExecution) else
  call (CallListAttempts tenantID executionID (clamp_limit limit)).

End Service.
