(* ===== verification/SoarWorker.v ===== *)
(** * The SOAR worker: [soar/worker.go]

    [ProcessOne] claims a node and does what its type asks for; a failure that
    may be retried is, with a growing delay.  The loop of [Run], which calls it
    again and again, is the scheduler of SoarSystem.v.  The connector tests a
    worker does before it claims a node are not modelled: [connectorTests] is
    what [processConnectorTest] answers, absent if the worker tests none. *)

From S2P Require Import Prelude GoLang GoFormat Core Playbook Sql AuditTable SoarModel SoarDb SoarService.

Record WorkerConfig : Type := {
  wc_ID : string;
  wc_TenantID : string;
  wc_PollInterval : Duration;
  wc_Lease : Duration
}.
#[export] Instance eta_WorkerConfig : Eta WorkerConfig := fun r => {|
  wc_ID := wc_ID r; wc_TenantID := wc_TenantID r; wc_PollInterval := wc_PollInterval r; wc_Lease := wc_Lease r
|}.

(** The defaults of [NewWorker]. *)
Definition worker_config (config : WorkerConfig) : WorkerConfig :=
  let config := if TrimSpace (wc_ID config) == "" then config {{ wc_ID := "soar-worker" }} else config in
  let config := if wc_PollInterval config <=? 0 then config {{ wc_PollInterval := 500 * Millisecond }} else config in
  if wc_Lease config <=? 0 then config {{ wc_Lease := 30 * Second }} else config.

(** [err.Error()]; [fmt.Errorf] puts the context and the cause together. *)
Fixpoint Error (err : error) : string :=
  match err with
  | New text => text
  | Wrap context cause => Error cause +:+ ": " +:+ context
  | NodeError code detail _ => code +:+ ": " +:+ detail
  | StatusError status _ => "API source returned HTTP " +:+ Itoa status
  end.

(** [errors.As(err, &nodeError)] *)
Fixpoint as_NodeError (err : error) : option (string * string * bool) :=
  match err with
  | NodeError code detail permanent => Some (code, detail, permanent)
  | Wrap _ cause => as_NodeError cause
  | New _ | StatusError _ _ => None
  end.

(** [workerConfigString] and [workerConfigInt] are [configString] and
    [configInt] of validate.go. *)
Definition workerConfigString := configString.
Definition workerConfigInt := configInt.

(** ** Conditions and transformations *)

Fixpoint follow_path (current : GoValue) (segments : list string) : option GoValue :=
  match segments with
  | [] => Some current
  | segment :: rest =>
      match current with
      | VMap object => match assoc_get object segment with Some next => follow_path next rest | None => None end
      | _ => None
      end
  end.

Definition contextPath (data : Metadata) (path : string) : option GoValue :=
  follow_path (config_value data) (Split path "."%char).

Definition evaluateCondition (contextData config : Metadata) : outcome bool :=
  let '(field, ok) := workerConfigString config "field" in
  if negb ok then Err (NodeError "invalid_condition" "field is required" true) else
  let comparator := ToLower (workerConfigString config "comparator").1 in
  let actual := contextPath contextData field in
  let exists_ := bool_decide (is_Some actual) in
  if comparator == "exists" then Ok exists_
  else if comparator == "not_exists" then Ok (negb exists_)
  else if comparator ∈? ["eq"; "neq"] then
    let expected := Sprint (default VNil (metadata_get config "value")) in
    let equal := Sprint (default VNil actual) == expected in
    let equal := if comparator == "neq" then negb equal else equal in
    Ok (exists_ && equal)
  else Err (NodeError "invalid_condition" "unsupported comparator" true).

(** The loop over the mappings; the order of a Go map does not matter to what
    it returns, as every error is the same. *)
Fixpoint transform_mappings (contextData : Metadata) (output : JsonObject) (mappings : list (string * GoValue))
    : outcome JsonObject :=
  match mappings with
  | [] => Ok output
  | (target, VString source) :: rest =>
      transform_mappings contextData
        (match contextPath contextData source with Some value => <[target := value]> output | None => output end) rest
  | _ => Err (NodeError "invalid_transform" "mapping source must be a context path" true)
  end.

Definition transformContext (contextData config : Metadata) : outcome JsonObject :=
  match metadata_get config "mappings" with
  | Some (VMap mappings) =>
      if (length mappings =? 0)%nat || (50 <? length mappings)%nat
      then Err (NodeError "invalid_transform" "mappings must contain 1 to 50 entries" true)
      else transform_mappings contextData ∅ mappings
  | _ => Err (NodeError "invalid_transform" "mappings must contain 1 to 50 entries" true)
  end.

(** ** The built-in executor *)

Definition SafeActionExecutor (request : ActionRequest) : outcome ActionResult :=
  let attempt := ar_Attempt request in
  if att_Mode attempt == "DRY_RUN" then
    Ok {| res_Output := Some (list_to_map [
            ("dry_run", VBool true); ("action_type", VString (att_ActionType attempt));
            ("connector_id", VString (att_ConnectorID attempt)); ("parameters", config_value (att_Request attempt)) ]);
          res_VerificationStatus := "DRY_RUN_VERIFIED" |}
  else if att_ActionType attempt == "kcsp.enrich.threat_intel" then
    Ok {| res_Output := Some (list_to_map [
            ("enriched", VBool true); ("source", VString "kcsp-threat-intelligence"); ("context_preserved", VBool true) ]);
          res_VerificationStatus := "VERIFIED" |}
  else Err (NodeError "connector_unavailable" "live execution requires a configured connector implementation" true).

Section Worker.
Variable actions : ActionCatalog.
(** The configuration after the defaults of [NewWorker]. *)
Variable config : WorkerConfig.

(** ** Actions *)

Definition action_attempt (item : SOARWorkItem) (id actionType : string) (level : Z) (now : Time) : SOARActionAttempt :=
  let node := wi_Node item in
  let mode := ToUpper (workerConfigString (ne_Config node) "mode").1 in
  let mode := if mode == "" then "DRY_RUN" else mode in
  let connectorID := (workerConfigString (ne_Config node) "connector_id").1 in
  let connectorID := if connectorID == "" then "kcsp-internal" else connectorID in
  let request : JsonObject := match metadata_get (ne_Config node) "parameters" with
                              | Some (VMap configured) => list_to_map configured
                              | _ => ∅
                              end in
  {| att_ID := id; att_TenantID := ne_TenantID node; att_ExecutionID := ex_ID (wi_Execution item);
     att_NodeExecutionID := ne_ID node;
     att_IdempotencyKey := ex_ID (wi_Execution item) +:+ "|" +:+ ne_NodeID node +:+ "|" +:+ actionType;
     att_ConnectorID := connectorID; att_ActionType := actionType; att_RiskLevel := level; att_Mode := mode;
     att_Status := "RUNNING"; att_Request := Some request; att_Result := Some ∅; att_ErrorClass := "";
     att_ErrorDetail := ""; att_VerificationStatus := ""; att_CompensationStatus := "";
     att_CreatedAt := now; att_UpdatedAt := now |}.

(** The node is completed with the result of the action. *)
Definition complete_node (node : SOARNodeExecution) (output : Metadata) : prog unit :=
  call (CallComplete (ne_TenantID node) (ne_ID node) (wc_ID config) output).

(** The executor's deadline does not change what the model's executor answers. *)
Definition executeAction (item : SOARWorkItem) : prog unit :=
  let node := wi_Node item in
  let '(actionType, ok) := workerConfigString (ne_Config node) "action_type" in
  if negb ok then pfail (NodeError "invalid_action" "action_type is required" true) else
  match actions !! actionType with
  | None => pfail (NodeError "unknown_action" "action is not registered" true)
  | Some descriptor =>
      step! now := call CallNow in
      step! id := call (CallNewID "sat") in
      step! (stored, created) := call (CallBegin (action_attempt item id actionType (ad_Level descriptor) now)) in
      if negb created && (att_Status stored == "SUCCEEDED") then complete_node node (att_Result stored) else
      step! result := caught (call (CallExecute {| ar_Attempt := stored; ar_Execution := wi_Execution item; ar_Node := node |})) in
      match result with
      | Err executionErr =>
          let '(code, detail, permanent) :=
            default ("connector_error", Error executionErr, false) (as_NodeError executionErr) in
          step! _ := call (CallFinish (att_TenantID stored) (att_ID stored) "FAILED" (Some ∅) code detail "") in
          pfail (NodeError code detail permanent)
      | Panic => Done Panic
      | Ok result =>
          step! finished := call (CallFinish (att_TenantID stored) (att_ID stored) "SUCCEEDED" (res_Output result) "" ""
                                    (res_VerificationStatus result)) in
          complete_node node (att_Result finished)
      end
  end.

(** ** Nodes *)

Definition process (item : SOARWorkItem) : prog unit :=
  let node := wi_Node item in
  let kind := ne_NodeType node in
  if kind == SOARNodeAction then executeAction item
  else if kind == SOARNodeApproval then
    let '(required, ok) := workerConfigInt (ne_Config node) "required_approvals" in
    if negb ok || (required <? 1) || (2 <? required)
    then pfail (NodeError "invalid_approval" "required_approvals must be 1 or 2" true) else
    let riskLevel := if required =? 2 then 5 else 4 in
    step! now := call CallNow in
    step! _ := call (CallRequestApproval item riskLevel required (time_Add now (24 * Hour))) in
    pret tt
  else if kind == SOARNodeManualTask then call (CallRequestManualTask item)
  else if kind == SOARNodeDelay then
    match metadata_get (ne_Output node) "delay_until" with
    | None =>
        let '(seconds, ok) := workerConfigInt (ne_Config node) "duration_seconds" in
        if negb ok || (seconds <? 1) || (86400 <? seconds)
        then pfail (NodeError "invalid_delay" "duration_seconds is outside safe bounds" true) else
        step! now := call CallNow in
        let until := time_Add now (seconds * Second) in
        call (CallDefer (ne_TenantID node) (ne_ID node) (wc_ID config) until
                (Some {["delay_until" := VString (FormatRFC3339Nano until)]}))
    | Some _ => complete_node node (ne_Output node)
    end
  else if kind == SOARNodeCondition then
    step! result := Done (evaluateCondition (ex_Context (wi_Execution item)) (ne_Config node)) in
    complete_node node (Some {["condition_result" := VBool result]})
  else if kind == SOARNodeTransform then
    step! output := Done (transformContext (ex_Context (wi_Execution item)) (ne_Config node)) in
    complete_node node (Some output)
  else if kind ∈? [SOARNodeTrigger; SOARNodeParallel; SOARNodeRetry] then
    complete_node node (Some {["completed" := VBool true]})
  else pfail (NodeError "unsupported_node" ("node type " +:+ kind +:+ " has no enabled runtime") true).

(** The delay before the next attempt of a node, in seconds. *)
Definition retry_delay (retry : SOARRetryPolicy) (attempt : Z) : Z :=
  let backoff := if rp_BackoffSeconds retry <? 1 then 1 else rp_BackoffSeconds retry in
  let maximumBackoff := if rp_MaximumBackoff retry <? backoff then backoff else rp_MaximumBackoff retry in
  Z.min maximumBackoff (backoff * 2 ^ (attempt - 1)).

(** What becomes of a node that failed with a [NodeError]. *)
Definition handle_failure (node : SOARNodeExecution) (code detail : string) (permanent : bool) : prog unit :=
  let maximumAttempts := rp_MaximumAttempts (ne_Retry node) in
  let maximumAttempts := if maximumAttempts <? 1 then 1 else maximumAttempts in
  if negb permanent && (ne_Attempt node <? maximumAttempts) then
    let delay := wrap64 (retry_delay (ne_Retry node) (ne_Attempt node) * Second) in
    step! now := call CallNow in
    call (CallRetry (ne_TenantID node) (ne_ID node) (wc_ID config) (time_Add now delay) code detail)
  else call (CallFail (ne_TenantID node) (ne_ID node) (wc_ID config) code detail).

Definition process_claimed (item : SOARWorkItem) : prog bool :=
  step! result := caught (process item) in
  match result with
  | Ok _ => pret true
  | Panic => Done Panic
  | Err err =>
      match as_NodeError err with
      | None => pfail err
      | Some (code, detail, permanent) =>
          step! _ := handle_failure (wi_Node item) code detail permanent in pret true
      end
  end.

Variable connectorTests : option (outcome bool).

Definition ProcessOne : prog bool :=
  match connectorTests with
  | Some (Err e) => pfail e
  | Some Panic => Done Panic
  | Some (Ok true) => pret true
  | _ =>
      step! item := call (CallClaim (wc_ID config) (wc_TenantID config) (wc_Lease config)) in
      match item with
      | None => pret false
      | Some item => process_claimed item
      end
  end.

End Worker.
