(* ===== verification/SoarInvariant.v ===== *)
(** * The invariant of the SOAR tables

    The transactions of the store change the tables in few ways ([change]): a
    node row moves along the life cycle of a node, an approval is closed, a
    decision is added, a version or an execution is created.  What holds of
    the tables in every reachable state ([wf]) is preserved by each of these
    ways, whichever transaction it is a part of. *)

From S2P Require Import Prelude GoLang GoFormat Core TenantId MemoryStore Playbook PlaybookFacts Sql AuditTable SoarModel SoarDb SoarRuntime.

(** ** What never changes of a row *)

Definition node_key (n : SOARNodeExecution) : string * string := (ne_TenantID n, ne_ID n).
Definition node_place (n : SOARNodeExecution) : string * string * string := (ne_TenantID n, ne_ExecutionID n, ne_NodeID n).
Definition node_static (n : SOARNodeExecution) :=
  (node_key n, node_place n, ne_NodeType n, ne_DependsOn n, ne_Config n).
Definition exec_key (e : SOARExecution) : string * string := (ex_TenantID e, ex_ID e).
Definition exec_static (e : SOARExecution) := (exec_key e, ex_RequestID e, ex_TriggeredBy e).
Definition version_key (v : SOARPlaybookVersion) : string * string * Z := (pv_TenantID v, pv_PlaybookID v, pv_Version v).
Definition version_static (v : SOARPlaybookVersion) := (version_key v, pv_Spec v).
Definition approval_key (a : SOARApproval) : string * string := (apr_TenantID a, apr_ID a).
Definition approval_static (a : SOARApproval) :=
  (approval_key a, apr_ExecutionID a, apr_NodeExecutionID a, apr_RequiredApprovals a, apr_RequestedBy a).
Definition decision_key (d : DecisionRow) : string * string * string :=
  (dr_TenantID d, dr_ApprovalID d, apd_Approver (dr_Decision d)).

Section Invariant.
Context `{JsonColumn} (actions : ActionCatalog).

(** The row of the node [nd] of a specification. *)
Definition row_of (nd : SOARNode) (n : SOARNodeExecution) : Prop :=
  ne_NodeID n = nd_ID nd /\ ne_NodeType n = nd_Type nd /\ ne_DependsOn n = nd_DependsOn nd /\
  forall key, metadata_get (ne_Config n) key = metadata_get (nd_Config nd) key.

(** The node was handed to a worker, or may be. *)
Definition advanced (n : SOARNodeExecution) : Prop :=
  (ne_Status n <> "PENDING" /\ ne_Status n <> "CANCELLED") \/ 0 < ne_Attempt n.

(** The life cycle of a node row, in the tables [db]. *)
Inductive transition (db : SoarDb) (n : SOARNodeExecution) : string -> Z -> Prop :=
  | promoted : ne_Status n = "PENDING" -> dependencies_done (db_nodes db) n = true ->
      transition db n "READY" (ne_Attempt n)
  | cancelled : ne_Status n ∈ active_statuses -> transition db n "CANCELLED" (ne_Attempt n)
  | claimed : ne_Status n ∈ ["READY"; "RUNNING"] -> transition db n "RUNNING" (1 + ne_Attempt n)
  | released status : ne_Status n = "RUNNING" -> status ∈ ["READY"; "FAILED"; "WAITING_APPROVAL"] ->
      transition db n status (ne_Attempt n)
  | handed_over : ne_Status n = "RUNNING" -> ne_NodeType n <> SOARNodeApproval ->
      transition db n "WAITING_MANUAL" (ne_Attempt n)
  | completed : ne_Status n = "RUNNING" -> ne_NodeType n <> SOARNodeApproval ->
      transition db n "SUCCEEDED" (ne_Attempt n)
  | task_done : ne_Status n = "WAITING_MANUAL" -> transition db n "SUCCEEDED" (ne_Attempt n)
  | turned_down : ne_Status n = "WAITING_APPROVAL" -> transition db n "FAILED" (ne_Attempt n)
  | approved a : ne_Status n = "WAITING_APPROVAL" -> a ∈ db_approvals db ->
      apr_TenantID a = ne_TenantID n -> apr_NodeExecutionID a = ne_ID n -> apr_Status a = ApprovalStatusApproved ->
      transition db n "SUCCEEDED" (ne_Attempt n).

(** The status of an approval row may become what it becomes in [a']. *)
Definition approval_moves (db : SoarDb) (a a' : SOARApproval) : Prop :=
  approval_static a' = approval_static a /\
  (apr_Status a' = apr_Status a \/
   apr_Status a = ApprovalStatusPending /\
   (apr_Status a' = ApprovalStatusApproved ->
    apr_RequiredApprovals a <= count_approvals (apr_TenantID a) (apr_ID a) (db_decisions db))).

(** The approval asks what the node it belongs to is configured to ask. *)
Definition approval_linked (db : SoarDb) (a : SOARApproval) : Prop :=
  exists n e, n ∈ db_nodes db /\ e ∈ db_executions db /\
    node_key n = (apr_TenantID a, apr_NodeExecutionID a) /\ ne_ExecutionID n = apr_ExecutionID a /\
    exec_key e = (apr_TenantID a, apr_ExecutionID a) /\ apr_RequestedBy a = ex_TriggeredBy e /\
    configInt (ne_Config n) "required_approvals" = (apr_RequiredApprovals a, true).

(** The rows of the nodes of a new execution. *)
Definition snapshot_rows (e : SOARExecution) (spec : SOARPlaybookSpec) (rows : list SOARNodeExecution) : Prop :=
  forall n, n ∈ rows -> ne_TenantID n = ex_TenantID e /\ ne_ExecutionID n = ex_ID e /\
    ne_Attempt n = 0 /\ (exists nd, nd ∈ spec_nodes spec /\ row_of nd n) /\
    ne_Status n = (if ne_DependsOn n == [] then "READY" else "PENDING").

(** An execution that may be added, with its rows. *)
Record new_execution (db : SoarDb) (e : SOARExecution) (spec : SOARPlaybookSpec) (rows : list SOARNodeExecution) : Prop := {
  nw_key x : x ∈ db_executions db -> exec_key x <> exec_key e;
  nw_tenant : no_bar (ex_TenantID e) = true;
  nw_status : ex_Status e = SOARExecutionQueued;
  nw_sound : sound actions spec;
  nw_rows : snapshot_rows e spec rows;
  nw_covers nd : nd ∈ spec_nodes spec -> exists n, n ∈ rows /\ ne_NodeID n = nd_ID nd;
  nw_node_key : unique node_key (db_nodes db ++ rows);
  nw_node_place : unique node_place (db_nodes db ++ rows)
}.

Inductive change (db : SoarDb) : SoarDb -> Prop :=
  | ch_nodes P f :
      (forall n, n ∈ db_nodes db -> P n = true ->
         node_static (f n) = node_static n /\ transition db n (ne_Status (f n)) (ne_Attempt (f n))) ->
      change db (db {{ db_nodes := set_where P f (db_nodes db) }})
  | ch_executions P f : (forall e, exec_static (f e) = exec_static e) ->
      change db (db {{ db_executions := set_where P f (db_executions db) }})
  | ch_versions P f :
      (forall v, v ∈ db_versions db -> P v = true ->
         version_static (f v) = version_static v /\ (pv_State (f v) = SOARVersionDraft \/ sound actions (pv_Spec v))) ->
      change db (db {{ db_versions := set_where P f (db_versions db) }})
  | ch_new_version v spec : (forall x, x ∈ db_versions db -> version_key x <> version_key v) ->
      pv_State v = SOARVersionDraft -> pv_Spec v = stored_spec spec ->
      change db (db {{ db_versions := db_versions db ++ [v] }})
  | ch_new_execution e spec rows : new_execution db e spec rows ->
      change db (db {{ db_executions := db_executions db ++ [e]; db_nodes := db_nodes db ++ rows }})
  | ch_approvals P f : (forall a, a ∈ db_approvals db -> P a = true -> approval_moves db a (f a)) ->
      change db (db {{ db_approvals := set_where P f (db_approvals db) }})
  | ch_new_approval a : (forall x, x ∈ db_approvals db -> approval_key x <> approval_key a) ->
      apr_Status a = ApprovalStatusPending -> approval_linked db a ->
      change db (db {{ db_approvals := db_approvals db ++ [a] }})
  | ch_new_decision d a : a ∈ db_approvals db -> approval_key a = (dr_TenantID d, dr_ApprovalID d) ->
      apd_Approver (dr_Decision d) <> apr_RequestedBy a ->
      (forall x, x ∈ db_decisions db -> decision_key x <> decision_key d) ->
      change db (db {{ db_decisions := db_decisions db ++ [d] }})
  | ch_rest db' : db_nodes db' = db_nodes db -> db_executions db' = db_executions db ->
      db_versions db' = db_versions db -> db_approvals db' = db_approvals db -> db_decisions db' = db_decisions db ->
      change db db'.

(** ** Well-formed tables *)

Record wf (db : SoarDb) : Prop := {
  (* a version that left the draft state is sound, and is as the column gives it *)
  wf_version_key : unique version_key (db_versions db);
  wf_version_sound v : v ∈ db_versions db -> pv_State v <> SOARVersionDraft -> sound actions (pv_Spec v);
  wf_version_stored v : v ∈ db_versions db -> exists spec, pv_Spec v = stored_spec spec;
  (* the nodes of an execution are nodes of one sound playbook *)
  wf_exec_key : unique exec_key (db_executions db);
  wf_node_key : unique node_key (db_nodes db);
  wf_node_place : unique node_place (db_nodes db);
  wf_node_exec n : n ∈ db_nodes db -> exists e, e ∈ db_executions db /\ exec_key e = (ne_TenantID n, ne_ExecutionID n);
  wf_snapshot e : e ∈ db_executions db -> exists spec, sound actions spec /\
    (forall n, n ∈ db_nodes db -> exec_key e = (ne_TenantID n, ne_ExecutionID n) -> exists nd, nd ∈ spec_nodes spec /\ row_of nd n) /\
    forall nd, nd ∈ spec_nodes spec -> exists n, n ∈ db_nodes db /\ exec_key e = (ne_TenantID n, ne_ExecutionID n) /\ ne_NodeID n = nd_ID nd;
  wf_tenant e : e ∈ db_executions db -> no_bar (ex_TenantID e) = true;
  (* the graph is respected *)
  wf_status n : n ∈ db_nodes db -> ne_Status n <> "SKIPPED";
  wf_attempt n : n ∈ db_nodes db -> 0 <= ne_Attempt n;
  wf_deps n d : n ∈ db_nodes db -> advanced n -> d ∈ ne_DependsOn n ->
    exists p, p ∈ db_nodes db /\ node_place p = (ne_TenantID n, ne_ExecutionID n, d) /\ ne_Status p = "SUCCEEDED";
  (* approvals *)
  wf_manual n : n ∈ db_nodes db -> ne_Status n = "WAITING_MANUAL" -> ne_NodeType n <> SOARNodeApproval;
  wf_approval_key : unique approval_key (db_approvals db);
  wf_approval_linked a : a ∈ db_approvals db -> approval_linked db a;
  wf_approval_count a : a ∈ db_approvals db -> apr_Status a = ApprovalStatusApproved ->
    apr_RequiredApprovals a <= count_approvals (apr_TenantID a) (apr_ID a) (db_decisions db);
  wf_approval_node n : n ∈ db_nodes db -> ne_NodeType n = SOARNodeApproval -> ne_Status n = "SUCCEEDED" ->
    exists a, a ∈ db_approvals db /\ apr_TenantID a = ne_TenantID n /\ apr_NodeExecutionID a = ne_ID n /\
              apr_Status a = ApprovalStatusApproved;
  wf_decision_key : NoDup (List.map decision_key (db_decisions db));
  wf_decision_other d : d ∈ db_decisions db -> exists a, a ∈ db_approvals db /\
    approval_key a = (dr_TenantID d, dr_ApprovalID d) /\ apd_Approver (dr_Decision d) <> apr_RequestedBy a
}.

End Invariant.

(** * Every change keeps the tables well-formed *)

Lemma is_node_of_true t e n : is_node_of t e n = true <-> ne_TenantID n = t /\ ne_ExecutionID n = e.
Proof. unfold is_node_of. by rewrite andb_true_iff, !bool_decide_eq_true. Qed.

Lemma is_node_true t i n : is_node t i n = true <-> node_key n = (t, i).
Proof. unfold is_node, node_key. rewrite andb_true_iff, !bool_decide_eq_true. naive_solver. Qed.

(** A candidate for promotion has a finished row for each dependency. *)
Lemma dependencies_done_true nodes n : dependencies_done nodes n = true <->
  forall d, d ∈ ne_DependsOn n ->
    (exists p, p ∈ nodes /\ node_place p = (ne_TenantID n, ne_ExecutionID n, d)) /\
    forall p, p ∈ nodes -> node_place p = (ne_TenantID n, ne_ExecutionID n, d) -> ne_Status p ∈ ["SUCCEEDED"; "SKIPPED"].
Proof.
  unfold dependencies_done. rewrite forallb_forall. setoid_rewrite <- list_elem_of_In.
  assert (Q : forall p d, is_node_of (ne_TenantID n) (ne_ExecutionID n) p && (ne_NodeID p == d) = true <->
                          node_place p = (ne_TenantID n, ne_ExecutionID n, d)).
  { intros p d. rewrite andb_true_iff, is_node_of_true, bool_decide_eq_true. unfold node_place. split; [by intros [[-> ->] ->]|by intros [= -> -> ->]]. }
  split; intros Hd d Hin; specialize (Hd d Hin).
  - apply andb_true_iff in Hd as [H1 H2]. split.
    + apply negb_true_iff, bool_decide_eq_false in H1. destruct (where_rows _ nodes) as [|p l] eqn:E; [done|].
      assert (p ∈ p :: l) as Hp by left. rewrite <- E in Hp. apply elem_of_where in Hp as [Hp ?].
      exists p. split; [done|]. by apply Q.
    + intros p Hp Hpl. rewrite forallb_forall in H2. apply (bool_decide_eq_true_1 (ne_Status p ∈ _)), H2.
      apply (proj1 (list_elem_of_In _ _)), elem_of_where. split; [by apply Q|done].
  - destruct Hd as [(p & Hp & Hpl) Hall]. apply andb_true_iff. split.
    + apply negb_true_iff, bool_decide_eq_false. intros E. assert (p ∈ where_rows (fun parent =>
        is_node_of (ne_TenantID n) (ne_ExecutionID n) parent && (ne_NodeID parent == d)) nodes) as Hw.
      { apply elem_of_where. split; [by apply Q|done]. }
      rewrite E in Hw. by apply not_elem_of_nil in Hw.
    + apply forallb_forall. intros q Hq. apply (proj2 (list_elem_of_In _ _)), elem_of_where in Hq as [Hq1 Hq2].
      apply bool_decide_eq_true, Hall; [done|]. by apply Q.
Qed.

Section Facts.
Context `{JsonColumn} (actions : ActionCatalog).
Implicit Types (db : SoarDb) (n : SOARNodeExecution) (a : SOARApproval) (e : SOARExecution).

Abbreviation change := (change actions).
Abbreviation wf := (wf actions).

(** A finished node stays as it is. *)
Lemma transition_from db n status attempt : transition db n status attempt -> ne_Status n <> "SUCCEEDED" /\ ne_Status n <> "FAILED".
Proof. intros T. inversion T; subst; split; intros E; rewrite E in *; set_solver. Qed.

Lemma transition_status db n status attempt : transition db n status attempt -> status <> "SKIPPED".
Proof. intros T. inversion T; subst; set_solver. Qed.

Lemma transition_attempt db n status attempt : transition db n status attempt ->
  attempt = ne_Attempt n \/ attempt = 1 + ne_Attempt n.
Proof. intros T. inversion T; auto. Qed.

(** A transition starts from an advanced node, unless the node is promoted or
    cancelled. *)
Lemma transition_advanced db n status attempt : transition db n status attempt ->
  status = "READY" /\ dependencies_done (db_nodes db) n = true \/ (status = "CANCELLED" /\ attempt = ne_Attempt n) \/
  advanced n.
Proof.
  intros T. unfold advanced. inversion T; subst; try (right; right; left; split; intros E; rewrite E in *; set_solver).
  - by left.
  - by right; left.
Qed.

Lemma advanced_next n n' db : transition db n (ne_Status n') (ne_Attempt n') -> advanced n' ->
  advanced n \/ dependencies_done (db_nodes db) n = true.
Proof.
  intros T A. destruct (transition_advanced _ _ _ _ T) as [[_ ?]|[[E1 E2]|?]]; [by right| |by left].
  left. right. destruct A as [[_ A]|A]; [done|by rewrite E2 in A].
Qed.

Section NodeChange.
Context (db : SoarDb) (P : SOARNodeExecution -> bool) (f : SOARNodeExecution -> SOARNodeExecution).
Hypothesis Hmove : forall n, n ∈ db_nodes db -> P n = true ->
  node_static (f n) = node_static n /\ transition db n (ne_Status (f n)) (ne_Attempt (f n)).

Definition moved (n : SOARNodeExecution) : SOARNodeExecution := if P n then f n else n.

Lemma moved_static n : n ∈ db_nodes db -> node_static (moved n) = node_static n.
Proof. intros Hn. unfold moved. destruct (P n) eqn:E; [by apply Hmove|done]. Qed.

Lemma moved_or n : n ∈ db_nodes db -> moved n = n \/ transition db n (ne_Status (moved n)) (ne_Attempt (moved n)).
Proof. intros Hn. unfold moved. destruct (P n) eqn:E; [right; by apply Hmove|by left]. Qed.

Lemma moved_done n : n ∈ db_nodes db -> ne_Status n = "SUCCEEDED" -> moved n = n.
Proof. intros Hn E. destruct (moved_or n Hn) as [?|T%transition_from]; [done|]. by destruct T. Qed.

Lemma elem_of_moved y : y ∈ set_where P f (db_nodes db) <-> exists n, n ∈ db_nodes db /\ y = moved n.
Proof. apply elem_of_set_where. Qed.

Lemma static_place n n' : node_static n' = node_static n -> node_place n' = node_place n /\ node_key n' = node_key n.
Proof. unfold node_static, node_place, node_key. intros E. split; congruence. Qed.

Lemma static_fields n n' : node_static n' = node_static n ->
  ne_TenantID n' = ne_TenantID n /\ ne_ExecutionID n' = ne_ExecutionID n /\ ne_NodeType n' = ne_NodeType n /\
  ne_DependsOn n' = ne_DependsOn n /\ ne_Config n' = ne_Config n /\ ne_NodeID n' = ne_NodeID n /\ ne_ID n' = ne_ID n.
Proof. unfold node_static, node_place, node_key. intros E. split_and!; congruence. Qed.

Lemma moved_deps : wf db -> forall n d, n ∈ db_nodes db -> advanced (moved n) -> d ∈ ne_DependsOn n ->
  exists p, p ∈ db_nodes db /\ node_place p = (ne_TenantID n, ne_ExecutionID n, d) /\ ne_Status p = "SUCCEEDED".
Proof.
  intros W n d Hn A Hd.
  assert (advanced n \/ dependencies_done (db_nodes db) n = true) as [A'|D].
  { destruct (moved_or n Hn) as [E|T]; [left; by rewrite E in A|by eapply advanced_next]. }
  - by apply (wf_deps _ _ W).
  - destruct (proj1 (dependencies_done_true _ _) D d Hd) as [(p & Hp & Pl) Hall]. exists p. split_and!; [done..|].
    assert (S := Hall p Hp Pl). assert (K := wf_status _ _ W p Hp). set_solver.
Qed.

Lemma wf_nodes : wf db -> wf (db {{ db_nodes := set_where P f (db_nodes db) }}).
Proof.
  intros W. assert (MS := moved_static). assert (EM := elem_of_moved).
  constructor; cbn; try apply W.
  - apply unique_set_where; [|apply W]. intros x Hx Px. by apply static_place, Hmove.
  - apply unique_set_where; [|apply W]. intros x Hx Px. by apply static_place, Hmove.
  - intros y (n & Hn & ->)%EM. destruct (static_fields _ _ (MS n Hn)) as (-> & -> & _). by apply (wf_node_exec _ _ W).
  - intros e He. destruct (wf_snapshot _ _ W e He) as (spec & S & R & Cov). exists spec. split; [done|]. split.
    2: { intros nd Hnd. destruct (Cov nd Hnd) as (n & Hn & K & I). exists (moved n). split; [apply EM; by exists n|].
         destruct (static_fields _ _ (MS n Hn)) as (-> & -> & _ & _ & _ & -> & _). done. }
    intros y (n & Hn & ->)%EM. destruct (static_fields _ _ (MS n Hn)) as (E1 & E2 & E3 & E4 & E5 & E6 & E7).
    rewrite E1, E2. intros E. destruct (R n Hn E) as (nd & Hnd & Hrow). exists nd. split; [done|].
    unfold row_of. by rewrite E3, E4, E5, E6.
  - intros y (n & Hn & ->)%EM. destruct (moved_or n Hn) as [->|T]; [by apply (wf_status _ _ W)|by eapply transition_status].
  - intros y (n & Hn & ->)%EM. assert (A := wf_attempt _ _ W n Hn).
    destruct (moved_or n Hn) as [->|T%transition_attempt]; lia.
  - intros y d (n & Hn & ->)%EM. destruct (static_fields _ _ (MS n Hn)) as (-> & -> & _ & -> & _). intros A Hd.
    destruct (moved_deps W n d Hn A Hd) as (p & Hp & Pl & Sp). exists p.
    split; [|done]. apply EM. exists p. split; [done|]. by rewrite moved_done.
  - intros y (n & Hn & ->)%EM. destruct (static_fields _ _ (MS n Hn)) as (_ & _ & -> & _).
    destruct (moved_or n Hn) as [->|T]; [by apply (wf_manual _ _ W)|]. intros E. rewrite E in T.
    inversion T as [| | |s Es Hs E1| | | | |]; [set_solver|done].
  - intros a Ha. destruct (wf_approval_linked _ _ W a Ha) as (n & e & Hn & He & K1 & K2 & K3 & K4 & K5).
    exists (moved n), e. destruct (static_fields _ _ (MS n Hn)) as (E1 & E2 & E3 & E4 & E5 & E6 & E7).
    destruct (static_place _ _ (MS n Hn)) as [_ EK]. cbn. rewrite EK, E2, E5. split_and!; try done. apply EM. by exists n.
  - intros y (n & Hn & ->)%EM. destruct (static_fields _ _ (MS n Hn)) as (-> & _ & -> & _ & _ & _ & ->). intros Ty E.
    destruct (moved_or n Hn) as [Em|T]; [rewrite Em in E; by apply (wf_approval_node _ _ W)|]. rewrite E in T.
    inversion T as [| | |s Es Hs E1| | |Em|  |a Ea Ha Et Ei Es]; [set_solver|done| |by exists a].
    by destruct (wf_manual _ _ W n Hn).
Qed.

End NodeChange.

Lemma wf_executions db P f : (forall e, exec_static (f e) = exec_static e) ->
  wf db -> wf (db {{ db_executions := set_where P f (db_executions db) }}).
Proof.
  intros Hf W. assert (EM : forall y, y ∈ set_where P f (db_executions db) <->
    exists e, e ∈ db_executions db /\ y = if P e then f e else e) by (intros; apply elem_of_set_where).
  assert (ES : forall e, exec_static (if P e then f e else e) = exec_static e) by (intros e; by destruct (P e)).
  assert (EK : forall e, exec_key (if P e then f e else e) = exec_key e).
  { intros e. specialize (ES e). unfold exec_static in ES. congruence. }
  assert (ET : forall e, ex_TriggeredBy (if P e then f e else e) = ex_TriggeredBy e).
  { intros e. specialize (ES e). unfold exec_static in ES. congruence. }
  constructor; cbn; try apply W.
  - apply unique_set_where; [|apply W]. intros x _ Px. specialize (EK x). by rewrite Px in EK.
  - intros n Hn. destruct (wf_node_exec _ _ W n Hn) as (e & He & K). exists (if P e then f e else e).
    split; [apply EM; by exists e|by rewrite EK].
  - intros y (e & He & ->)%EM. rewrite EK. by apply (wf_snapshot _ _ W).
  - intros y (e & He & ->)%EM. assert (Et := EK e). unfold exec_key in Et. injection Et as -> _. by apply (wf_tenant _ _ W).
  - intros a Ha. destruct (wf_approval_linked _ _ W a Ha) as (n & e & Hn & He & K1 & K2 & K3 & K4 & K5).
    exists n, (if P e then f e else e). cbn. rewrite EK, ET. split_and!; try done. apply EM. by exists e.
Qed.

Lemma wf_versions db P f :
  (forall v, v ∈ db_versions db -> P v = true ->
     version_static (f v) = version_static v /\ (pv_State (f v) = SOARVersionDraft \/ sound actions (pv_Spec v))) ->
  wf db -> wf (db {{ db_versions := set_where P f (db_versions db) }}).
Proof.
  intros Hf W. constructor; cbn; try apply W.
  - apply unique_set_where; [|apply W]. intros v Hv Pv. destruct (Hf v Hv Pv) as [E _]. unfold version_static in E. congruence.
  - intros y (v & Hv & ->)%elem_of_set_where. destruct (P v) eqn:Pv; [|by apply (wf_version_sound _ _ W)].
    destruct (Hf v Hv Pv) as [E [D|S]]; [done|]. intros _. unfold version_static in E. by assert (pv_Spec (f v) = pv_Spec v) as -> by congruence.
  - intros y (v & Hv & ->)%elem_of_set_where. destruct (P v) eqn:Pv; [|by apply (wf_version_stored _ _ W)].
    destruct (Hf v Hv Pv) as [E _]. unfold version_static in E. assert (pv_Spec (f v) = pv_Spec v) as -> by congruence.
    by apply (wf_version_stored _ _ W).
Qed.

Lemma wf_new_version db v spec : (forall x, x ∈ db_versions db -> version_key x <> version_key v) ->
  pv_State v = SOARVersionDraft -> pv_Spec v = stored_spec spec -> wf db -> wf (db {{ db_versions := db_versions db ++ [v] }}).
Proof.
  intros Hv D E W. constructor; cbn; try apply W.
  - by apply unique_snoc; [|apply W].
  - intros x [Hx|Hx%list_elem_of_singleton]%elem_of_app; [by apply (wf_version_sound _ _ W)|by subst].
  - intros x [Hx|Hx%list_elem_of_singleton]%elem_of_app; [by apply (wf_version_stored _ _ W)|subst; by exists spec].
Qed.

Lemma wf_new_execution db e spec rows : new_execution actions db e spec rows ->
  wf db -> wf (db {{ db_executions := db_executions db ++ [e]; db_nodes := db_nodes db ++ rows }}).
Proof.
  intros [He NB Q S R Cov U1 U2] W.
  assert (New : forall n, n ∈ rows -> exec_key e = (ne_TenantID n, ne_ExecutionID n)).
  { intros n Hn. destruct (R n Hn) as (-> & -> & _). done. }
  assert (Old : forall n, n ∈ db_nodes db -> exec_key e <> (ne_TenantID n, ne_ExecutionID n)).
  { intros n Hn E. destruct (wf_node_exec _ _ W n Hn) as (x & Hx & K). apply (He x Hx). congruence. }
  constructor; cbn; try apply W; try done.
  - by apply unique_snoc; [|apply W].
  - intros n [Hn|Hn]%elem_of_app.
    + destruct (wf_node_exec _ _ W n Hn) as (x & Hx & K). exists x. split; [set_solver|done].
    + exists e. split; [set_solver|by apply New].
  - intros x [Hx|Hx%list_elem_of_singleton]%elem_of_app.
    + destruct (wf_snapshot _ _ W x Hx) as (sp & Ssp & Hsp & Cx). exists sp. split; [done|]. split.
      * intros n [Hn|Hn]%elem_of_app K; [by apply Hsp|]. destruct (He x Hx). rewrite K. symmetry. by apply New.
      * intros nd Hnd. destruct (Cx nd Hnd) as (n & Hn & ?). exists n. split; [set_solver|done].
    + subst x. exists spec. split; [done|]. split.
      2: { intros nd Hnd. destruct (Cov nd Hnd) as (n & Hn & ?). exists n. split; [set_solver|]. split; [by apply New|done]. }
      intros n [Hn|Hn]%elem_of_app K; [by destruct (Old n Hn)|].
      by destruct (R n Hn) as (_ & _ & _ & ? & _).
  - intros x [Hx|Hx%list_elem_of_singleton]%elem_of_app; [by apply (wf_tenant _ _ W)|by subst].
  - intros n [Hn|Hn]%elem_of_app; [by apply (wf_status _ _ W)|]. destruct (R n Hn) as (_ & _ & _ & _ & ->).
    by destruct (_ == _).
  - intros n [Hn|Hn]%elem_of_app; [by apply (wf_attempt _ _ W)|]. destruct (R n Hn) as (_ & _ & -> & _). done.
  - intros n d [Hn|Hn]%elem_of_app A Hd.
    + destruct (wf_deps _ _ W n d Hn A Hd) as (p & Hp & ?). exists p. split; [set_solver|done].
    + destruct (R n Hn) as (_ & _ & A0 & _ & Es). destruct A as [[A1 A2]|A]; [|lia]. rewrite Es in A1.
      case_bool_decide as E; [|done]. rewrite E in Hd. by apply not_elem_of_nil in Hd.
  - intros n [Hn|Hn]%elem_of_app; [by apply (wf_manual _ _ W)|]. destruct (R n Hn) as (_ & _ & _ & _ & ->).
    by destruct (_ == _).
  - intros a Ha. destruct (wf_approval_linked _ _ W a Ha) as (n & x & Hn & Hx & ?). exists n, x. cbn. set_solver.
  - intros n [Hn|Hn]%elem_of_app; [by apply (wf_approval_node _ _ W)|]. destruct (R n Hn) as (_ & _ & _ & _ & ->).
    by destruct (_ == _).
Qed.

Lemma wf_approvals db P f : (forall a, a ∈ db_approvals db -> P a = true -> approval_moves db a (f a)) ->
  wf db -> wf (db {{ db_approvals := set_where P f (db_approvals db) }}).
Proof.
  intros Hf W. assert (EM : forall y, y ∈ set_where P f (db_approvals db) <->
    exists a, a ∈ db_approvals db /\ y = if P a then f a else a) by (intros; apply elem_of_set_where).
  assert (Mv : forall a, a ∈ db_approvals db -> approval_moves db a (if P a then f a else a)).
  { intros a Ha. destruct (P a) eqn:Pa; [by apply Hf|]. split; [done|by left]. }
  assert (ES : forall a, a ∈ db_approvals db -> let a' := if P a then f a else a in
    approval_key a' = approval_key a /\ apr_TenantID a' = apr_TenantID a /\ apr_ID a' = apr_ID a /\
    apr_ExecutionID a' = apr_ExecutionID a /\ apr_NodeExecutionID a' = apr_NodeExecutionID a /\
    apr_RequiredApprovals a' = apr_RequiredApprovals a /\ apr_RequestedBy a' = apr_RequestedBy a).
  { intros a Ha a'. destruct (Mv a Ha) as [E _]. fold a' in E. unfold approval_static, approval_key in *. split_and!; congruence. }
  assert (Keep : forall a, a ∈ db_approvals db -> apr_Status a = ApprovalStatusApproved ->
    apr_Status (if P a then f a else a) = ApprovalStatusApproved).
  { intros a Ha E. destruct (Mv a Ha) as [_ [->|[E' _]]]; [done|]. by rewrite E in E'. }
  constructor; cbn; try apply W.
  - apply unique_set_where; [|apply W]. intros a Ha Pa. assert (K := ES a Ha). cbv zeta in K. rewrite Pa in K. by destruct K.
  - intros y (a & Ha & ->)%EM. destruct (ES a Ha) as (_ & E1 & E2 & E3 & E4 & E5 & E6).
    destruct (wf_approval_linked _ _ W a Ha) as (n & e & ?). exists n, e. by rewrite E1, E3, E4, E5, E6.
  - intros y (a & Ha & ->)%EM. destruct (ES a Ha) as (_ & E1 & E2 & _ & _ & E5 & _). rewrite E1, E2, E5.
    destruct (Mv a Ha) as [_ [->|[_ C]]]; [by apply (wf_approval_count _ _ W)|done].
  - intros n Hn Ty E. destruct (wf_approval_node _ _ W n Hn Ty E) as (a & Ha & E1 & E2 & E3).
    exists (if P a then f a else a). destruct (ES a Ha) as (_ & F1 & _ & _ & F4 & _). rewrite F1, F4.
    split_and!; [apply EM; by exists a|done..|by apply Keep].
  - intros d Hd. destruct (wf_decision_other _ _ W d Hd) as (a & Ha & K & N). exists (if P a then f a else a).
    destruct (ES a Ha) as (-> & _ & _ & _ & _ & _ & ->). split; [apply EM; by exists a|done].
Qed.

Lemma wf_new_approval db a : (forall x, x ∈ db_approvals db -> approval_key x <> approval_key a) ->
  apr_Status a = ApprovalStatusPending -> approval_linked db a -> wf db -> wf (db {{ db_approvals := db_approvals db ++ [a] }}).
Proof.
  intros Ha E L W. constructor; cbn; try apply W.
  - by apply unique_snoc; [|apply W].
  - intros x [Hx|Hx%list_elem_of_singleton]%elem_of_app; [by apply (wf_approval_linked _ _ W)|by subst].
  - intros x [Hx|Hx%list_elem_of_singleton]%elem_of_app; [by apply (wf_approval_count _ _ W)|]. subst. by rewrite E.
  - intros n Hn Ty Es. destruct (wf_approval_node _ _ W n Hn Ty Es) as (x & Hx & ?). exists x. split; [set_solver|done].
  - intros d Hd. destruct (wf_decision_other _ _ W d Hd) as (x & Hx & ?). exists x. split; [set_solver|done].
Qed.

Lemma count_approvals_app t i l d : count_approvals t i l <= count_approvals t i (l ++ [d]).
Proof. unfold count_approvals, count_rows, where_rows. rewrite List.filter_app, length_app. lia. Qed.

Lemma wf_new_decision db d a : a ∈ db_approvals db -> approval_key a = (dr_TenantID d, dr_ApprovalID d) ->
  apd_Approver (dr_Decision d) <> apr_RequestedBy a ->
  (forall x, x ∈ db_decisions db -> decision_key x <> decision_key d) ->
  wf db -> wf (db {{ db_decisions := db_decisions db ++ [d] }}).
Proof.
  intros Ha K N Hd W. constructor; cbn; try apply W.
  - intros x Hx E. assert (C := wf_approval_count _ _ W x Hx E).
    assert (L := count_approvals_app (apr_TenantID x) (apr_ID x) (db_decisions db) d). lia.
  - rewrite List.map_app. apply NoDup_app. split_and!; [apply W| |apply NoDup_singleton].
    intros k Hk. cbn. intros Hk'%list_elem_of_singleton. subst k. apply (proj1 (list_elem_of_In _ _)) in Hk. apply in_map_iff in Hk as (x & E & Hx).
    apply (Hd x); [by apply list_elem_of_In|done].
  - intros x [Hx|Hx%list_elem_of_singleton]%elem_of_app; [by apply (wf_decision_other _ _ W)|]. subst. by exists a.
Qed.

Lemma change_wf db db' : change db db' -> wf db -> wf db'.
Proof.
  intros C W. destruct C as [| | | | | | | |db' E1 E2 E3 E4 E5].
  - by apply wf_nodes.
  - by apply wf_executions.
  - by apply wf_versions.
  - by eapply wf_new_version.
  - by eapply wf_new_execution.
  - by apply wf_approvals.
  - by apply wf_new_approval.
  - by eapply wf_new_decision.
  - destruct W. constructor; unfold approval_linked in *; rewrite ?E1, ?E2, ?E3, ?E4, ?E5; assumption.
Qed.

End Facts.
