(* ===== verification/SoarChanges.v ===== *)
(** * Every transaction of the store is a sequence of changes

    A triple says what a statement does to well-formed tables: they change only
    in the ways of [change], and if the statement succeeds its postcondition
    holds.  A failed transaction changes nothing. *)

From S2P Require Import Prelude GoLang GoFormat Core MemoryStore Playbook PlaybookFacts.
From S2P Require Import Sql AuditTable SoarModel SoarDb SoarRuntime SoarInvariant.

Section Changes.
Context `{JsonColumn} (actions : ActionCatalog).

Abbreviation change := (change actions).
Abbreviation wf := (wf actions).

Definition changes : SoarDb -> SoarDb -> Prop := rtc change.

Lemma changes_wf db db' : changes db db' -> wf db -> wf db'.
Proof. induction 1 as [|x y z C _ IH]; [done|]. intros W. apply IH. by eapply change_wf. Qed.

Definition triple {A} (I : SoarDb -> Prop) (m : Store A) (J : A -> SoarDb -> Prop) : Prop :=
  forall w, wf (w_repo w) -> I (w_repo w) ->
    changes (w_repo w) (w_repo (m w).2) /\ forall a, (m w).1 = Ok a -> J a (w_repo (m w).2).

Implicit Types (I : SoarDb -> Prop).

(** ** Rules *)

Lemma triple_bind {A B} I (m : Store A) (k : A -> Store B) J K :
  triple I m J -> (forall a, triple (J a) (k a) K) -> triple I (bind m k) K.
Proof.
  intros Hm Hk w W HI. destruct (Hm w W HI) as [C P]. unfold bind. destruct (m w) as [[a|e|] w1]; cbn in *; [|by split..].
  destruct (Hk a w1) as [C' P']; [by eapply changes_wf|by apply P|]. split; [by etransitivity|done].
Qed.

Lemma triple_conseq {A} I I' (m : Store A) J J' : triple I m J ->
  (forall db, I' db -> I db) -> (forall a db, wf db -> J a db -> J' a db) -> triple I' m J'.
Proof.
  intros Hm HI HJ w W H'. destruct (Hm w W (HI _ H')) as [C P]. split; [done|]. intros a E.
  apply HJ; [by eapply changes_wf|by apply P].
Qed.

Lemma triple_post {A} I (m : Store A) J J' : triple I m J -> (forall a db, wf db -> J a db -> J' a db) -> triple I m J'.
Proof. intros Hm HJ. by eapply triple_conseq. Qed.

Lemma triple_wf_pre {A} I I' (m : Store A) J : (forall db, wf db -> I' db -> I db) -> triple I m J -> triple I' m J.
Proof. intros HI Hm w W H'. apply Hm; auto. Qed.

Lemma triple_pre {A} I (m : Store A) J : (forall db, wf db -> I db -> triple (eq db) m J) -> triple I m J.
Proof. intros Hm w W HI. by apply (Hm (w_repo w)). Qed.

Lemma triple_ret {A} I (a : A) : triple I (ret a) (fun x db => x = a /\ I db).
Proof. intros w W HI. split; [done|]. intros x [= <-]. done. Qed.

Lemma triple_fail {A} I e (J : A -> SoarDb -> Prop) : triple I (fail e) J.
Proof. intros w W HI. by split. Qed.

Lemma triple_lift {A} I (o : outcome A) : triple I (lift o) (fun x db => o = Ok x /\ I db).
Proof. intros w W HI. by split. Qed.

Lemma triple_guard I b e : triple I (guard b e) (fun _ db => b = true /\ I db).
Proof. intros w W HI. destruct b; by split. Qed.

Lemma triple_Now I : triple I Now (fun _ db => I db).
Proof. intros w W HI. by split. Qed.

Lemma triple_Random I : triple I Random (fun _ db => I db).
Proof. intros w W HI. by split. Qed.

Lemma triple_select {A} I (f : SoarDb -> A) : triple I (select f) (fun x db => x = f db /\ I db).
Proof. intros w W HI. split; [done|]. by intros x [= <-]. Qed.

Lemma triple_execute I (f : SoarDb -> SoarDb) : (forall db, wf db -> I db -> change db (f db)) ->
  triple I (execute f) (fun _ db' => exists db, wf db /\ I db /\ db' = f db).
Proof. intros Hf w W HI. split; [by apply rtc_once, Hf|]. intros _ _. by exists (w_repo w). Qed.

Lemma triple_wrapping {A} I c (m : Store A) J : triple I m J -> triple I (wrapping c m) J.
Proof.
  intros Hm w W HI. destruct (Hm w W HI) as [C P]. unfold wrapping. destruct (m w) as [[a|e|] w1]; cbn in *; by split.
Qed.

Lemma triple_transaction {A} I (m : Store A) J : triple I m J -> triple I (transaction m) J.
Proof.
  intros Hm w W HI. destruct (Hm w W HI) as [C P]. unfold transaction. destruct (m w) as [[a|e|] w1]; cbn in *; by split.
Qed.

Lemma triple_if {A} I (b : bool) (m1 m2 : Store A) J :
  (b = true -> triple I m1 J) -> (b = false -> triple I m2 J) -> triple I (if b then m1 else m2) J.
Proof. destruct b; auto. Qed.

Lemma triple_forM {A} I (l : list A) (f : A -> Store unit) :
  (forall a, triple I (f a) (fun _ => I)) -> triple I (forM_ l f) (fun _ => I).
Proof.
  intros Hf. induction l as [|a l IH]; cbn [forM_].
  - eapply triple_post; [apply triple_ret|]. intros x db Hw [Hx HI]; exact HI.
  - eapply triple_bind; [apply Hf|]. intros r. exact IH.
Qed.

(** ** Statements *)

Lemma triple_update_returning {A} table put I (P : A -> bool) f :
  (forall db, wf db -> I db -> change db (put (set_where P f (table db)) db)) ->
  triple I (update_returning table put P f) (fun rows db' => exists db, wf db /\ I db /\
    db' = put (set_where P f (table db)) db /\ rows = List.map f (where_rows P (table db))).
Proof.
  intros Hc w W HI. split; [by apply rtc_once, Hc|]. intros rows [= <-]. by exists (w_repo w).
Qed.

Lemma triple_insert_row {A} table put I (clash : A -> bool) row :
  (forall db, wf db -> I db -> (forall x, x ∈ table db -> clash x = false) -> change db (put (table db ++ [row]) db)) ->
  triple I (insert_row table put clash row) (fun _ db' => exists db, wf db /\ I db /\
    (forall x, x ∈ table db -> clash x = false) /\ db' = put (table db ++ [row]) db).
Proof.
  intros Hc w W HI. unfold insert_row, select, execute, on_repo, bind, gets, modify. cbn.
  destruct (existsb clash (table (w_repo w))) eqn:E; cbn; [by split|].
  assert (N : forall x, x ∈ table (w_repo w) -> clash x = false).
  { intros x Hx. destruct (clash x) eqn:Ex; [|done]. assert (existsb clash (table (w_repo w)) = true) by
      (apply existsb_exists; exists x; by rewrite <- list_elem_of_In). congruence. }
  split; [by apply rtc_once, Hc|]. intros _ _. by exists (w_repo w).
Qed.

Lemma rest_change db db' : db_nodes db' = db_nodes db -> db_executions db' = db_executions db ->
  db_versions db' = db_versions db -> db_approvals db' = db_approvals db -> db_decisions db' = db_decisions db -> change db db'.
Proof. intros. by apply ch_rest. Qed.

(** ** Promotion and reconciliation *)

Lemma promoted_change tenantID executionID now db : change db (db {{ db_nodes ::= promote_rows tenantID executionID now }}).
Proof.
  apply ch_nodes. intros n Hn E. split; [done|]. apply andb_true_iff in E as [E1 E2]. apply andb_true_iff in E1 as [_ E1].
  change (transition db n "READY" (ne_Attempt n)). apply promoted; [by apply bool_decide_eq_true in E1|done].
Qed.

Lemma cancelled_change tenantID executionID now db : change db (db {{ db_nodes ::= cancel_rows tenantID executionID now }}).
Proof.
  apply ch_nodes. intros n Hn E. split; [done|]. apply andb_true_iff in E as [_ E].
  change (transition db n "CANCELLED" (ne_Attempt n)). apply cancelled. by apply bool_decide_eq_true in E.
Qed.

Definition always : SoarDb -> Prop := fun _ => True.

Lemma triple_any {A} I (m : Store A) J : triple always m J -> triple I m J.
Proof. intros Hm. eapply triple_conseq; [exact Hm|done|done]. Qed.

Lemma triple_weak {A} I (m : Store A) J : triple I m J -> triple I m (fun _ => always).
Proof. intros Hm. eapply triple_conseq; [exact Hm|done|done]. Qed.

Lemma triple_update_executions I P f : (forall e, exec_static (f e) = exec_static e) ->
  triple I (update_executions P f) (fun _ => always).
Proof. intros Hf. eapply triple_weak, triple_update_returning. intros db _ _. by apply ch_executions. Qed.

Lemma triple_promoteAndReconcile I tenantID executionID now :
  triple I (promoteAndReconcileSOAR tenantID executionID now) (fun _ => always).
Proof.
  apply triple_any. unfold promoteAndReconcileSOAR.
  eapply triple_bind; [eapply triple_weak, triple_execute; intros; apply promoted_change|]. intros u1.
  eapply triple_bind; [eapply triple_weak, triple_select|]. intros [status completed].
  eapply triple_bind.
  { apply (triple_if _ _ _ _ (fun _ => always)); intros _.
    - eapply triple_weak, triple_execute. intros. apply cancelled_change.
    - eapply triple_weak, triple_ret. }
  intros u2. eapply triple_bind; [by apply triple_update_executions|]. intros rows.
  apply triple_if; intros _; [apply triple_fail|eapply triple_weak, triple_ret].
Qed.

End Changes.
