(* ===== verification/SoarOps.v ===== *)
(** * The operations of the SOAR store change the tables only in known ways *)

From S2P Require Import Prelude GoLang GoFormat Core TenantId MemoryStore Playbook PlaybookFacts.
From S2P Require Import Sql AuditTable SoarModel SoarDb SoarRuntime SoarInvariant SoarChanges.

Section Ops.
Context `{JsonColumn} (actions : ActionCatalog).

Abbreviation change := (change actions).
Abbreviation wf := (wf actions).
Abbreviation triple := (triple actions).

(** ** Facts about the tables that no change undoes *)

(** The node row of this key has these fields and was claimed. *)
Definition node_fact (db : SoarDb) (n0 : SOARNodeExecution) : Prop :=
  exists n, n ∈ db_nodes db /\ node_static n = node_static n0 /\ 0 < ne_Attempt n.

Definition exec_fact (db : SoarDb) (tenantID : string) (e0 : SOARExecution) : Prop :=
  exists e, e ∈ db_executions db /\ exec_key e = (tenantID, ex_ID e0) /\ ex_TriggeredBy e = ex_TriggeredBy e0.

Definition version_fact (db : SoarDb) (tenantID playbookID : string) (version : Z) (spec : SOARPlaybookSpec) : Prop :=
  exists v, v ∈ db_versions db /\ version_key v = (tenantID, playbookID, version) /\ pv_Spec v = spec.

Definition sound_fact (db : SoarDb) (tenantID playbookID : string) (version : Z) : Prop :=
  exists spec, version_fact db tenantID playbookID version spec /\ sound actions spec.

(** The node row is not that of an approval. *)
Definition work_fact (db : SoarDb) (tenantID nodeExecutionID : string) : Prop :=
  exists n, n ∈ db_nodes db /\ node_key n = (tenantID, nodeExecutionID) /\ ne_NodeType n <> SOARNodeApproval.

Lemma work_fact_type db t i n : wf db -> work_fact db t i -> n ∈ db_nodes db -> node_key n = (t, i) ->
  ne_NodeType n <> SOARNodeApproval.
Proof. intros W (m & Hm & K & T) Hn Kn. by rewrite (wf_node_key _ _ W n m Hn Hm) by congruence. Qed.

Lemma version_fact_of db t p k spec v : wf db -> version_fact db t p k spec -> v ∈ db_versions db ->
  version_key v = (t, p, k) -> pv_Spec v = spec.
Proof. intros W (x & Hx & K & <-) Hv Kv. by rewrite (wf_version_key _ _ W v x Hv Hx) by congruence. Qed.

Lemma is_version_key t p k v : is_version t p k v = true <-> version_key v = (t, p, k).
Proof.
  unfold is_version, is_version_of, version_key. rewrite !andb_true_iff, !bool_decide_eq_true, Z.eqb_eq.
  split; [by intros [[-> ->] ->]|by intros [= -> -> ->]].
Qed.

Lemma is_approval_true t i a : is_approval t i a = true <-> approval_key a = (t, i).
Proof. unfold is_approval, approval_key. rewrite andb_true_iff, !bool_decide_eq_true. split; [by intros [-> ->]|by intros [= -> ->]]. Qed.

Lemma is_execution_true t i e : is_execution t i e = true <-> exec_key e = (t, i).
Proof. unfold is_execution, exec_key. rewrite andb_true_iff, !bool_decide_eq_true. split; [by intros [-> ->]|by intros [= -> ->]]. Qed.

(** ** Leased nodes *)

Lemma triple_update_leased I t i w op f :
  (forall n, node_static (f n) = node_static n /\ ne_Attempt (f n) = ne_Attempt n) ->
  (forall db n, wf db -> I db -> n ∈ db_nodes db -> node_key n = (t, i) -> ne_Status n = "RUNNING" ->
     transition db n (ne_Status (f n)) (ne_Attempt n)) ->
  triple I (update_leased t i w op f) (fun _ => always).
Proof.
  intros Hf Ht. unfold update_leased. eapply triple_bind.
  - eapply triple_weak, triple_update_returning. intros db W HI. apply ch_nodes. intros n Hn E.
    destruct (Hf n) as [E1 E2]. split; [done|]. rewrite E2.
    apply andb_true_iff in E as [E _]. apply andb_true_iff in E as [K S].
    apply Ht; [done..|by apply is_node_true|by apply bool_decide_eq_true in S].
  - intros rows. destruct (head rows); [eapply triple_weak, triple_ret|apply triple_fail].
Qed.

Lemma triple_touch_running I t e now : triple I (touch_running t e now) (fun _ => always).
Proof.
  unfold touch_running. eapply triple_bind; [by apply triple_update_executions|]. intros rows. eapply triple_weak, triple_ret.
Qed.

Lemma triple_CompleteSOARNode t i w output :
  triple (fun db => work_fact db t i) (CompleteSOARNode t i w output) (fun _ => always).
Proof.
  unfold CompleteSOARNode. eapply triple_bind; [apply triple_lift|]. intros payload. apply triple_transaction.
  eapply triple_bind; [apply triple_Now|]. intros now. eapply triple_bind.
  - apply triple_update_leased; [by intros|]. intros db n W [_ F] Hn K S. apply completed; [done|]. by eapply work_fact_type.
  - intros e. apply triple_promoteAndReconcile.
Qed.

Lemma triple_DeferSOARNode I t i w at_ output : triple I (DeferSOARNode t i w at_ output) (fun _ => always).
Proof.
  unfold DeferSOARNode. eapply triple_bind; [apply triple_lift|]. intros payload. apply triple_transaction.
  eapply triple_bind; [apply triple_Now|]. intros now. eapply triple_bind; [|intros; apply triple_touch_running].
  apply triple_update_leased; [by intros|]. intros db n _ _ _ _ S. apply released; [done|]. cbn. set_solver.
Qed.

Lemma triple_RetrySOARNode I t i w at_ code detail : triple I (RetrySOARNode t i w at_ code detail) (fun _ => always).
Proof.
  unfold RetrySOARNode. apply triple_transaction.
  eapply triple_bind; [apply triple_Now|]. intros now. eapply triple_bind; [|intros; apply triple_touch_running].
  apply triple_update_leased; [by intros|]. intros db n _ _ _ _ S. apply released; [done|]. cbn. set_solver.
Qed.

Lemma triple_FailSOARNode I t i w code detail : triple I (FailSOARNode t i w code detail) (fun _ => always).
Proof.
  unfold FailSOARNode. apply triple_transaction.
  eapply triple_bind; [apply triple_Now|]. intros now. eapply triple_bind; [|intros; apply triple_promoteAndReconcile].
  apply triple_update_leased; [by intros|]. intros db n _ _ _ _ S. apply released; [done|]. cbn. set_solver.
Qed.

Lemma triple_set_waiting I item status now :
  (forall db n, wf db -> I db -> n ∈ db_nodes db -> node_key n = node_key (wi_Node item) -> ne_Status n = "RUNNING" ->
     transition db n status (ne_Attempt n)) ->
  triple I (set_waiting item status now) (fun _ => always).
Proof.
  intros Ht. eapply triple_weak, triple_update_returning. intros db W HI. apply ch_nodes. intros n Hn E. split; [done|].
  apply andb_true_iff in E as [E _]. apply andb_true_iff in E as [K S]. cbn.
  apply Ht; [done..|by apply is_node_true|by apply bool_decide_eq_true in S].
Qed.

Lemma triple_RequestSOARManualTask item :
  triple (fun db => work_fact db (ne_TenantID (wi_Node item)) (ne_ID (wi_Node item))) (RequestSOARManualTask item) (fun _ => always).
Proof.
  unfold RequestSOARManualTask. apply triple_transaction. eapply triple_bind; [apply triple_Now|]. intros now.
  eapply triple_bind.
  - apply triple_set_waiting. intros db n W F Hn K S. apply handed_over; [done|]. by eapply work_fact_type.
  - intros rows. apply triple_if; intros _; [apply triple_fail|apply triple_promoteAndReconcile].
Qed.

(** ** Expiry *)

Lemma triple_fail_waiting I t i code detail now : triple I (fail_waiting t i code detail now) (fun _ => always).
Proof.
  eapply triple_weak, triple_update_returning. intros db W _. apply ch_nodes. intros n Hn E. split; [done|].
  apply andb_true_iff in E as [_ S]. cbn. apply turned_down. by apply bool_decide_eq_true in S.
Qed.

Lemma triple_expireSOARApprovals now : triple always (expireSOARApprovals now) (fun _ => always).
Proof.
  unfold expireSOARApprovals. eapply triple_bind.
  { eapply triple_weak, triple_update_returning. intros db W _. apply ch_approvals. intros a Ha E. split; [done|].
    right. apply andb_true_iff in E as [E _]. split; [by apply bool_decide_eq_true in E|done]. }
  intros expired. eapply triple_bind.
  { apply triple_forM. intros a. eapply triple_bind; [apply triple_fail_waiting|]. intros r. eapply triple_weak, triple_ret. }
  intros r. apply triple_forM. intros [k [t e]]. apply triple_promoteAndReconcile.
Qed.

(** ** Claims *)

(** What a worker knows of the item it claimed. *)
Definition claim_fact (db : SoarDb) (item : SOARWorkItem) : Prop :=
  node_fact db (wi_Node item) /\ exec_fact db (ne_TenantID (wi_Node item)) (wi_Execution item) /\
  ex_ID (wi_Execution item) = ne_ExecutionID (wi_Node item).

Lemma triple_found {A} I (m : Store A) J : triple I m J -> triple I (found m) (fun o db => forall a, o = Some a -> J a db).
Proof.
  intros Hm w W HI. destruct (Hm w W HI) as [C P]. unfold found. destruct (m w) as [[a|e|] w1]; cbn in *; [|destruct (_ == _)|].
  - split; [done|]. intros o [= <-] x [= <-]. by apply P.
  - split; [done|]. by intros o [= <-] x [=].
  - by split.
  - by split.
Qed.

Lemma claimable_status now scope db n : claimable now scope db n = true -> ne_Status n ∈ ["READY"; "RUNNING"].
Proof.
  unfold claimable. intros E. apply andb_true_iff in E as [E _]. apply andb_true_iff in E as [_ E].
  apply orb_true_iff in E as [E|[E _]%andb_true_iff]; apply bool_decide_eq_true in E; rewrite E; set_solver.
Qed.

Lemma triple_lease worker lease now chosen :
  triple (fun db => chosen ∈ db_nodes db /\ ne_Status chosen ∈ ["READY"; "RUNNING"])
    (update_nodes (is_node (ne_TenantID chosen) (ne_ID chosen)) (fun n => n {{
       ne_Status := "RUNNING"; ne_Attempt ::= Z.add 1; ne_LeaseOwner := worker;
       ne_LeaseUntil := Some (time_Add now lease);
       ne_StartedAt ::= fun s => Some (default now s); ne_UpdatedAt := now }}))
    (fun rows db => forall n, head rows = Some n -> node_fact db n).
Proof.
  eapply triple_post.
  - apply triple_update_returning. intros db W [Hc S]. apply ch_nodes. intros n Hn E. split; [done|].
    change (transition db n "RUNNING" (1 + ne_Attempt n)). apply claimed.
    apply is_node_true in E. by rewrite (wf_node_key _ _ W n chosen Hn Hc E).
  - intros rows db W (db0 & W0 & _ & -> & ->) n E. set (f := fun n : SOARNodeExecution => _) in E.
    destruct (where_rows _ (db_nodes db0)) as [|x l] eqn:Ew; [done|]. injection E as <-.
    assert (Hx : x ∈ x :: l) by left. rewrite <- Ew in Hx. apply elem_of_where in Hx as [Px Hx].
    exists (f x). assert (A := wf_attempt _ _ W0 x Hx). split; [|split; [done|cbn; lia]].
    cbn. apply elem_of_set_where. exists x. split; [done|]. by rewrite Px.
Qed.

Lemma triple_start_execution (I : SoarDb -> Prop) P f :
  (forall e, exec_static (f e) = exec_static e) -> (forall db rows, I db -> I (db {{ db_executions := rows }})) ->
  triple I (update_executions P f) (fun _ => I).
Proof.
  intros Hf HI. eapply triple_post; [apply triple_update_returning; intros; by apply ch_executions|].
  intros rows db W (db0 & _ & H0 & -> & _). by apply HI.
Qed.

Lemma triple_ClaimSOARNode I w scope lease :
  triple I (ClaimSOARNode w scope lease) (fun o db => forall item, o = Some item -> claim_fact db item).
Proof.
  apply triple_any. unfold ClaimSOARNode. apply triple_if; intros _; [apply triple_fail|].
  apply triple_found, triple_transaction. eapply triple_bind; [apply triple_Now|]. intros now.
  eapply triple_bind; [apply triple_expireSOARApprovals|]. intros u.
  eapply triple_bind; [apply triple_select|]. intros [chosen|]; [|apply triple_fail].
  eapply triple_bind.
  { eapply triple_conseq; [apply (triple_lease (TrimSpace w) lease now chosen)| |done].
    intros db [E _]. symmetry in E. apply head_sorted_elem in E. apply elem_of_where in E as [C Hc].
    split; [done|by eapply claimable_status]. }
  intros rows. destruct (head rows) as [node|] eqn:Er; [|apply triple_fail].
  eapply triple_bind.
  { eapply triple_conseq; [apply (triple_start_execution (fun db => node_fact db node))|intros db Hn; exact (Hn node Er)|done]; done. }
  intros es. eapply triple_bind; [apply triple_select|]. intros [execution|]; [|apply triple_fail].
  eapply triple_post; [apply triple_ret|]. intros item db W (-> & E & F). symmetry in E.
  apply first_row_Some in E as [K He]. apply is_execution_true in K. split; [done|]. split; cbn.
  - exists execution. split; [done|]. split; [|done]. rewrite K. unfold exec_key in K. congruence.
  - unfold exec_key in K. congruence.
Qed.

(** ** Approvals *)

(** A worker that asks for the approval of the node it claimed. *)
Definition approval_fact (db : SoarDb) (item : SOARWorkItem) (required : Z) : Prop :=
  claim_fact db item /\ ne_NodeType (wi_Node item) = SOARNodeApproval /\
  configInt (ne_Config (wi_Node item)) "required_approvals" = (required, true).

Lemma linked_rows db db' a : db_nodes db' = db_nodes db -> db_executions db' = db_executions db ->
  approval_linked db a -> approval_linked db' a.
Proof. unfold approval_linked. by intros -> ->. Qed.

Lemma approval_fact_linked db item required locked a : wf db -> approval_fact db item required ->
  apr_TenantID a = ne_TenantID (wi_Node item) -> apr_NodeExecutionID a = ne_ID (wi_Node item) ->
  apr_ExecutionID a = ne_ExecutionID locked -> apr_RequestedBy a = ex_TriggeredBy (wi_Execution item) ->
  apr_RequiredApprovals a = required -> locked ∈ db_nodes db -> node_key locked = node_key (wi_Node item) ->
  approval_linked db a.
Proof.
  intros W (((n & Hn & S & _) & (e & He & K & T) & X) & Ty & C) E1 E2 E3 E4 E5 Hl Kl.
  destruct (static_place _ _ S) as [_ SK]. assert (n = locked) as -> by (apply (wf_node_key _ _ W); [done..|congruence]).
  destruct (static_fields _ _ S) as (F1 & F2 & F3 & F4 & F5 & F6 & F7).
  exists locked, e. rewrite E1, E2, E3, E4, E5, K, T, F5, X, F2, SK. done.
Qed.

Lemma triple_insert_new_approval row :
  apr_Status row = ApprovalStatusPending ->
  triple (fun db => approval_linked db row) (insert_new_approval row) (fun _ => always).
Proof.
  intros Hs. unfold insert_new_approval. apply triple_wrapping. eapply triple_bind; [apply triple_guard|]. intros u.
  eapply triple_bind; [apply triple_select|]. intros [|]; [eapply triple_weak, triple_ret|].
  eapply triple_weak, triple_insert_row. intros db W (_ & _ & L) Hc. apply ch_new_approval; [|done..].
  intros x Hx E. specialize (Hc x Hx). assert (is_approval (apr_TenantID row) (apr_ID row) x = true); [|congruence].
  by apply is_approval_true.
Qed.

Lemma triple_getSOARApproval I t i : triple I (getSOARApproval t i) (fun _ => always).
Proof.
  unfold getSOARApproval. eapply triple_bind; [apply triple_select|]. intros [a|]; [|apply triple_fail].
  eapply triple_bind; [apply triple_select|]. intros ds. eapply triple_weak, triple_ret.
Qed.

Lemma triple_RequestSOARApproval item risk required expires :
  triple (fun db => approval_fact db item required) (RequestSOARApproval item risk required expires) (fun _ => always).
Proof.
  unfold RequestSOARApproval. eapply triple_bind; [|intros id; apply triple_getSOARApproval].
  apply triple_transaction. eapply triple_bind; [apply triple_select|]. intros [locked|]; [|apply triple_fail].
  apply triple_if; intros _; [apply triple_fail|]. eapply triple_bind; [apply triple_Now|]. intros now.
  eapply triple_bind; [apply triple_Random|]. intros random.
  eapply triple_bind.
  { eapply triple_pre. intros db W (E & F). symmetry in E. apply first_row_Some in E as [K Hl]. apply is_node_true in K.
    eapply triple_conseq; [by apply triple_insert_new_approval| |done]. intros db' <-.
    eapply approval_fact_linked; [done|exact F|done..]. }
  intros u. eapply triple_bind; [eapply triple_weak, triple_select|]. intros [approval|]; [|apply triple_fail].
  eapply triple_bind.
  { apply triple_set_waiting. intros db n _ _ _ _ S. apply released; [done|set_solver]. }
  intros changed. apply triple_if; intros _; [apply triple_fail|].
  eapply triple_bind; [apply triple_promoteAndReconcile|]. intros u2. eapply triple_weak, triple_ret.
Qed.

(** ** Decisions *)

(** The approval row a decision was read from. *)
Definition held (db : SoarDb) (t i : string) (a : SOARApproval) : Prop := a ∈ db_approvals db /\ approval_key a = (t, i).

Lemma triple_close_approval (I : SoarDb -> Prop) t i a status now :
  apr_Status a = ApprovalStatusPending ->
  (forall db, I db -> held db t i a /\ (status = ApprovalStatusApproved ->
     apr_RequiredApprovals a <= count_approvals t i (db_decisions db))) ->
  triple I (update_approvals (is_approval t i) (fun a => a {{
      apr_Status := status; apr_DecidedAt := Some now; apr_Version ::= Z.add 1 }}))
    (fun _ db => exists a', a' ∈ db_approvals db /\ apr_Status a' = status /\ apr_TenantID a' = t /\
                            apr_NodeExecutionID a' = apr_NodeExecutionID a).
Proof.
  intros Hs HI. eapply triple_post.
  - apply triple_update_returning. intros db W Hdb. destruct (HI db Hdb) as [[Ha K] C]. apply ch_approvals.
    intros x Hx E. apply is_approval_true in E. assert (x = a) as -> by (apply (wf_approval_key _ _ W); [done..|congruence]).
    split; [done|]. right. split; [done|]. cbn. intros Es. unfold approval_key in K. injection K as -> ->. by apply C.
  - intros rows db W (db0 & W0 & Hdb & -> & _). destruct (HI db0 Hdb) as [[Ha K] _]. eexists.
    split; [cbn; apply elem_of_set_where; exists a; split; [done|reflexivity]|].
    assert (is_approval t i a = true) as -> by by apply is_approval_true. cbn. unfold approval_key in K. by injection K as K1 K2.
Qed.

Lemma triple_expire_approval t i a now : apr_Status a = ApprovalStatusPending ->
  triple (fun db => held db t i a) (expire_approval t i a now) (fun _ => always).
Proof.
  intros Hs. unfold expire_approval. eapply triple_bind; [by apply triple_close_approval|]. intros r.
  eapply triple_bind; [apply triple_fail_waiting|]. intros r2. apply triple_promoteAndReconcile.
Qed.

Lemma triple_finalize_approval t i a status reason now : apr_Status a = ApprovalStatusPending ->
  status ∈ [ApprovalStatusRejected; ApprovalStatusApproved] ->
  triple (fun db => held db t i a /\ (status = ApprovalStatusApproved ->
            apr_RequiredApprovals a <= count_approvals t i (db_decisions db)))
    (finalize_approval t i a status reason now) (fun _ => always).
Proof.
  intros Hs Hf. unfold finalize_approval. eapply triple_bind; [apply triple_close_approval; [done|by intros]|]. intros r.
  apply (triple_bind _ _ _ _ (fun _ => always)).
  - apply triple_if; intros E; [apply triple_fail_waiting|]. eapply triple_weak, triple_update_returning.
    intros db W (a' & Ha' & Es & Et & En). apply ch_nodes. intros n Hn P. split; [done|].
    apply andb_true_iff in P as [P S]. apply is_node_true in P. unfold node_key in P. injection P as P1 P2.
    cbn. apply (approved _ _ a'); [by apply bool_decide_eq_true in S|done|congruence|congruence|].
    apply bool_decide_eq_false in E. set_solver.
  - intros resumed. apply triple_if; intros _; [apply triple_fail|apply triple_promoteAndReconcile].
Qed.

Lemma triple_insert_decision row a : apd_Approver (dr_Decision row) <> apr_RequestedBy a ->
  triple (fun db => held db (dr_TenantID row) (dr_ApprovalID row) a) (insert_decision row)
    (fun _ db => held db (dr_TenantID row) (dr_ApprovalID row) a).
Proof.
  intros Hne. unfold insert_decision. apply triple_wrapping. eapply triple_bind; [apply triple_guard|]. intros u.
  eapply triple_bind; [apply triple_select|]. intros [|].
  { eapply triple_post; [apply triple_ret|]. by intros b db _ (_ & _ & _ & ?). }
  eapply triple_bind.
  - apply triple_execute. intros db W (E & _ & Ha & K). apply (ch_new_decision _ db row a); [done..|].
    intros x Hx Ex. symmetry in E.
    assert (existsb (fun d => is_decision_of (dr_TenantID row) (dr_ApprovalID row) d &&
      (apd_Approver (dr_Decision d) == apd_Approver (dr_Decision row))) (db_decisions db) = true); [|congruence].
    apply existsb_exists. exists x. split; [by apply list_elem_of_In|]. unfold decision_key in Ex. injection Ex as E1 E2 E3.
    unfold is_decision_of. rewrite E1, E2, E3. by rewrite !bool_decide_true.
  - intros r. eapply triple_post; [apply triple_ret|]. by intros b db W (_ & db0 & _ & (_ & _ & Ha) & ->).
Qed.

Lemma triple_insert_audit I clash entry : triple I (insert_audit clash entry) (fun _ => always).
Proof. eapply triple_weak, triple_insert_row. intros. by apply rest_change. Qed.

Lemma triple_appendAuditTx I entry : triple I (appendAuditTx entry) (fun _ => always).
Proof.
  apply triple_any. unfold appendAuditTx.
  eapply triple_bind; [eapply triple_weak, triple_execute; intros db _ _; apply rest_change; by destruct (_ !! _)|]. intros u.
  eapply triple_bind; [eapply triple_weak, triple_select|]. intros head.
  eapply triple_bind.
  { apply (triple_if _ _ _ _ _ (fun _ => always)); intros _; [|eapply triple_weak, triple_ret].
    eapply triple_bind; [apply triple_Random|]. intros random. eapply triple_weak, triple_ret. }
  intros e1. eapply triple_bind.
  { apply (triple_if _ _ _ _ _ (fun _ => always)); intros _; [|eapply triple_weak, triple_ret].
    eapply triple_bind; [apply triple_Now|]. intros now. eapply triple_weak, triple_ret. }
  intros e2. eapply triple_bind; [apply triple_wrapping, triple_insert_audit|]. intros u2.
  eapply triple_bind; [eapply triple_weak, triple_execute; intros; by apply rest_change|]. intros u3.
  eapply triple_weak, triple_ret.
Qed.

Lemma triple_bump_approval I t i : triple I (update_approvals (is_approval t i) (fun a => a {{ apr_Version ::= Z.add 1 }})) (fun _ => always).
Proof. eapply triple_weak, triple_update_returning. intros db W _. apply ch_approvals. intros a Ha _. split; [done|by left]. Qed.

Lemma triple_DecideSOARApproval I t i approver command : triple I (DecideSOARApproval t i approver command) (fun _ => always).
Proof.
  apply triple_any. unfold DecideSOARApproval. apply (triple_bind _ _ _ _ (fun _ => always)).
  2: { intros decided. apply triple_if; intros _; [apply triple_getSOARApproval|apply triple_fail]. }
  apply triple_transaction. eapply triple_bind; [apply triple_select|]. intros [a|]; [|apply triple_fail].
  apply (triple_conseq _ (fun db => held db t i a) _ _ (fun _ => always)); [|intros db [E _]|done].
  2: { symmetry in E. apply first_row_Some in E as [K Ha]. split; [done|by apply is_approval_true]. }
  eapply triple_bind; [apply triple_Now|]. intros now. cbv beta.
  apply triple_if; intros _; [apply triple_fail|]. apply triple_if; intros Hs; [apply triple_fail|].
  apply negb_false_iff, bool_decide_eq_true in Hs.
  apply triple_if; intros _.
  { eapply triple_bind; [by apply triple_expire_approval|]. intros u. eapply triple_weak, triple_ret. }
  apply triple_if; intros Hne; [apply triple_fail|]. apply bool_decide_eq_false in Hne.
  eapply triple_bind; [apply (triple_insert_decision {| dr_TenantID := t; dr_ApprovalID := i |} a); cbn; congruence|].
  intros inserted. apply triple_if; intros _; [apply triple_fail|].
  eapply triple_bind; [apply triple_select|]. intros approvals.
  set (finalStatus := if _ == ApprovalDecisionReject then _ else _). eapply triple_bind.
  - apply (triple_if _ _ _ _ _ (fun _ => always)); intros Ef.
    + eapply triple_conseq; [apply (triple_finalize_approval t i a finalStatus); [done|]| |done].
      * clear -Ef. subst finalStatus. destruct (_ == ApprovalDecisionReject); [left|]. destruct (_ <=? _); [right; left|done].
      * intros db [Ea Hh]. split; [done|]. intros E. rewrite <- Ea. clear -E. subst finalStatus.
        destruct (_ == ApprovalDecisionReject); [by vm_compute in E|].
        destruct (Z.leb_spec (apr_RequiredApprovals a) approvals); [done|by vm_compute in E].
    + eapply triple_bind; [apply triple_bump_approval|]. intros r. eapply triple_weak, triple_ret.
  - intros u. eapply triple_bind; [apply triple_wrapping, triple_appendAuditTx|]. intros e. eapply triple_weak, triple_ret.
Qed.

Lemma triple_listSOARNodeExecutions I t i : triple I (listSOARNodeExecutions t i) (fun _ => always).
Proof. eapply triple_weak, triple_select. Qed.

Lemma triple_GetSOARExecution I t i : triple I (GetSOARExecution t i) (fun _ => always).
Proof.
  unfold GetSOARExecution. eapply triple_bind; [apply triple_select|]. intros [e|]; [|apply triple_fail].
  eapply triple_bind; [apply triple_listSOARNodeExecutions|]. intros ns. eapply triple_weak, triple_ret.
Qed.

Lemma triple_CompleteSOARManualTask I t e n output : triple I (CompleteSOARManualTask t e n output) (fun _ => always).
Proof.
  unfold CompleteSOARManualTask. eapply triple_bind; [apply triple_lift|]. intros payload.
  apply (triple_bind _ _ _ _ (fun _ => always)); [|intros u; apply triple_GetSOARExecution].
  apply triple_transaction. eapply triple_bind; [apply triple_Now|]. intros now. eapply triple_bind.
  - eapply triple_weak, triple_update_returning. intros db W _. apply ch_nodes. intros x Hx E. split; [done|].
    apply andb_true_iff in E as [_ S]. cbn. apply task_done. by apply bool_decide_eq_true in S.
  - intros changed. apply triple_if; intros _; [apply triple_fail|apply triple_promoteAndReconcile].
Qed.

(** ** Attempts *)

Lemma triple_BeginSOARAction I attempt : triple I (BeginSOARAction attempt) (fun _ => always).
Proof.
  unfold BeginSOARAction. eapply triple_bind; [apply triple_lift|]. intros request.
  eapply triple_bind; [apply triple_lift|]. intros result. eapply triple_bind; [apply triple_wrapping, triple_guard|]. intros u.
  eapply triple_bind; [apply triple_select|]. intros [x|]; [eapply triple_weak, triple_ret|].
  eapply triple_bind; [|intros u2; eapply triple_weak, triple_ret].
  apply triple_wrapping. eapply triple_weak, triple_insert_row. intros. by apply rest_change.
Qed.

Lemma triple_FinishSOARAction I t i s r ec ed v : triple I (FinishSOARAction t i s r ec ed v) (fun _ => always).
Proof.
  unfold FinishSOARAction. eapply triple_bind; [apply triple_lift|]. intros payload.
  eapply triple_bind; [apply triple_Now|]. intros now.
  eapply triple_bind; [eapply triple_weak, triple_update_returning; intros; by apply rest_change|].
  intros rows. destruct (head rows); [eapply triple_weak, triple_ret|apply triple_fail].
Qed.

(** ** Playbooks *)

Lemma triple_insert_version clash v spec : pv_State v = SOARVersionDraft -> pv_Spec v = stored_spec spec ->
  (forall x, version_key x = version_key v -> clash x = true) ->
  forall I, triple I (insert_version clash v) (fun _ => always).
Proof.
  intros Hs He Hc I. eapply triple_weak, triple_insert_row. intros db W _ N. eapply ch_new_version; [|done..].
  intros x Hx E. specialize (N x Hx). by rewrite Hc in N.
Qed.

Lemma triple_update_playbooks I P f : triple I (update_playbooks P f) (fun _ => always).
Proof. eapply triple_weak, triple_update_returning. intros. by apply rest_change. Qed.

Lemma triple_CreateSOARPlaybook I p v : pv_State v = SOARVersionDraft -> triple I (CreateSOARPlaybook p v) (fun _ => always).
Proof.
  intros Hs. unfold CreateSOARPlaybook. apply triple_transaction. apply (triple_bind _ _ _ _ (fun _ => always)).
  - intros w W HI. set (m := insert_playbook _ p). assert (T : triple I m (fun _ => always)).
    { eapply triple_weak, triple_insert_row. intros. by apply rest_change. }
    destruct (T w W HI) as [C _]. destruct (m w) as [[|e|] w']; by split.
  - intros u. eapply triple_bind; [|intros u2; eapply triple_weak, triple_ret]. apply triple_wrapping.
    eapply triple_insert_version; [done|reflexivity|]. intros x E. by apply is_version_key.
Qed.

Lemma triple_CreateSOARPlaybookVersion I t p actor spec report :
  triple I (CreateSOARPlaybookVersion t p actor spec report) (fun _ => always).
Proof.
  unfold CreateSOARPlaybookVersion. apply triple_transaction.
  eapply triple_bind; [apply triple_select|]. intros [row|]; [|apply triple_fail].
  eapply triple_bind; [apply triple_Now|]. intros now.
  eapply triple_bind.
  { apply triple_wrapping. eapply triple_insert_version; [done|reflexivity|]. intros x E. by apply is_version_key. }
  intros u. eapply triple_bind; [apply triple_update_playbooks|]. intros r. eapply triple_weak, triple_ret.
Qed.

Lemma is_version_of_true t p v : is_version_of t p v = true -> version_key v = (t, p, pv_Version v).
Proof. unfold is_version_of, version_key. rewrite andb_true_iff, !bool_decide_eq_true. by intros [-> ->]. Qed.

Lemma triple_GetSOARPlaybook I t p : triple I (GetSOARPlaybook t p) (fun details db =>
  forall v, v ∈ pd_Versions details -> version_fact db t p (pv_Version v) (pv_Spec v)).
Proof.
  unfold GetSOARPlaybook. eapply triple_bind; [apply triple_select|]. intros [row|]; [|apply triple_fail].
  eapply triple_bind; [apply triple_select|]. intros versions.
  eapply triple_post; [apply triple_ret|]. intros details db W (-> & -> & _) v Hv. cbn in Hv.
  apply where_sorted in Hv as [K Hv]. apply is_version_of_true in K. by exists v.
Qed.

Lemma triple_SaveSOARValidation t p k report :
  triple (fun db => vr_Valid report = true -> sound_fact db t p k) (SaveSOARValidation t p k report) (fun _ => always).
Proof.
  unfold SaveSOARValidation. set (sv := if vr_Valid report then _ else _).
  assert (S : sv.1 = SOARVersionDraft \/ vr_Valid report = true) by (unfold sv; destruct (vr_Valid report); auto).
  destruct sv as [state validatedAt]. cbn in S. eapply triple_bind.
  - eapply triple_weak, triple_update_returning. intros db W HI. apply ch_versions. intros v Hv E. split; [done|]. cbn.
    destruct S as [->|S]; [by left|right]. apply andb_true_iff in E as [E _]. apply is_version_key in E.
    destruct (HI S) as (spec & F & So). by rewrite (version_fact_of db t p k spec v).
  - intros rows. destruct (head rows); [eapply triple_weak, triple_ret|apply triple_fail].
Qed.

Lemma triple_PublishSOARPlaybookVersion I t p k actor :
  triple I (PublishSOARPlaybookVersion t p k actor) (fun _ => always).
Proof.
  unfold PublishSOARPlaybookVersion. apply (triple_bind _ _ _ _ (fun _ => always)).
  2: { intros u. eapply triple_weak, triple_GetSOARPlaybook. }
  apply triple_transaction. eapply triple_bind; [apply triple_select|]. intros [locked|]; [|apply triple_fail].
  apply triple_if; intros Hs; [apply triple_fail|]. apply negb_false_iff, bool_decide_eq_true in Hs.
  apply (triple_wf_pre _ (fun db => sound_fact db t p k)).
  { intros db W [E _]. symmetry in E. apply first_row_Some in E as [K Hv]. apply is_version_key in K.
    exists (pv_Spec locked). split; [by exists locked|]. apply (wf_version_sound _ _ W); [done|]. by rewrite Hs. }
  eapply triple_bind; [apply triple_Now|]. intros now. cbv beta.
  apply (triple_bind _ _ _ _ (fun _ db => sound_fact db t p k)).
  { eapply triple_post.
    - apply triple_update_returning. intros db W F. apply ch_versions. intros v Hv E. split; [done|]. right.
      apply andb_true_iff in E as [_ E]. apply bool_decide_eq_true in E. apply (wf_version_sound _ _ W); [done|]. by rewrite E.
    - intros rows db W (db0 & _ & (spec & (v & Hv & K & Sp) & So) & -> & _). exists spec. split; [|done].
      eexists. split; [cbn; apply elem_of_set_where; exists v; split; [done|reflexivity]|]. by destruct (_ && _). }
  intros r. apply (triple_bind _ _ _ _ (fun _ => always)).
  { eapply triple_weak, triple_update_returning. intros db W (spec & F & So). apply ch_versions. intros v Hv E.
    split; [done|]. right. apply is_version_key in E. by rewrite (version_fact_of db t p k spec v). }
  intros r2. eapply triple_bind; [apply triple_update_playbooks|]. intros r3. eapply triple_weak, triple_ret.
Qed.

Lemma triple_DisableSOARPlaybook I t p actor : triple I (DisableSOARPlaybook t p actor) (fun _ => always).
Proof.
  unfold DisableSOARPlaybook. eapply triple_bind; [apply triple_Now|]. intros now.
  eapply triple_bind; [apply triple_update_playbooks|]. intros rows.
  destruct (head rows); [eapply triple_weak, triple_ret|apply triple_fail].
Qed.

(** ** Executions *)

(** What the stored configuration of a published node reads as. *)
Lemma stored_config nd key : (exists nd0, nd = stored_node nd0) ->
  metadata_get (Some (stored (default ∅ (nd_Config nd)))) key = metadata_get (nd_Config nd) key.
Proof.
  intros [nd0 ->]. unfold stored_node. cbn. destruct (nd_Config nd0) as [m|]; cbn; [|by rewrite stored_empty, lookup_empty].
  case_bool_decide; cbn; [by rewrite stored_empty, lookup_empty|]. by rewrite stored_idemp.
Qed.

Lemma node_snapshot_row e spec random nd : nd ∈ spec_nodes spec -> (exists nd0, nd = stored_node nd0) ->
  snapshot_rows e spec [node_snapshot e random nd].
Proof.
  intros Hnd Hst n ->%list_elem_of_singleton. cbn. split_and!; [done..| |done]. exists nd. split; [done|].
  unfold row_of. cbn. split_and!; [done..|]. intros key. by apply stored_config.
Qed.

Lemma snapshot_Ok e nd w w' : insert_snapshot e nd w = (Ok tt, w') ->
  exists random, let row := node_snapshot e random nd in
    (forall x, x ∈ db_nodes (w_repo w) -> node_key x <> node_key row /\ node_place x <> node_place row) /\
    w_repo w' = (w_repo w) {{ db_nodes := db_nodes (w_repo w) ++ [row] }}.
Proof.
  intros E. unfold insert_snapshot in E. apply bind_Ok in E as (random & w1 & E1 & E).
  injection E1 as <- <-. apply wrapping_Ok in E. apply bind_Ok in E as ([] & w2 & E2 & E).
  unfold guard in E2. destruct (_ && _); [|done]. injection E2 as <-.
  apply insert_row_Ok in E as [N E]. cbn in N, E. eexists. split; [|exact E].
  intros x Hx. specialize (N x Hx). apply orb_false_iff in N as [N1 N2]. split; intros K.
  - apply not_true_iff_false in N1. apply N1, is_node_true. exact K.
  - apply not_true_iff_false in N2. apply N2. unfold node_place in K. injection K as K1 K2 K3.
    apply andb_true_iff. split; [by apply is_node_of_true|by apply bool_decide_eq_true].
Qed.

Lemma snapshots_Ok e spec l : forall w w' rows0 nodes0, (forall nd, nd ∈ l -> nd ∈ spec_nodes spec /\ exists nd0, nd = stored_node nd0) ->
  db_nodes (w_repo w) = nodes0 ++ rows0 -> snapshot_rows e spec rows0 ->
  unique node_key (db_nodes (w_repo w)) -> unique node_place (db_nodes (w_repo w)) ->
  forM_ l (insert_snapshot e) w = (Ok tt, w') ->
  exists rows, snapshot_rows e spec rows /\ unique node_key (nodes0 ++ rows) /\ unique node_place (nodes0 ++ rows) /\
    w_repo w' = (w_repo w) {{ db_nodes := nodes0 ++ rows }} /\ rows0 ⊆ rows /\
    forall nd, nd ∈ l -> exists n, n ∈ rows /\ ne_NodeID n = nd_ID nd.
Proof.
  induction l as [|nd l IH]; intros w w' rows0 nodes0 Hl E R U1 U2 H1; cbn [forM_] in H1.
  { injection H1 as <-. exists rows0. rewrite E in U1, U2. split_and!; [done..| |done|by intros nd ?%not_elem_of_nil].
    destruct (w_repo w); cbn in *. by subst. }
  apply bind_Ok in H1 as ([] & w1 & E1 & E2). apply snapshot_Ok in E1 as (random & N & E1).
  set (row := node_snapshot e random nd) in *.
  destruct (Hl nd) as [Hnd Hst]; [by left|].
  destruct (IH w1 w' (rows0 ++ [row]) nodes0) as (rows & R' & U1' & U2' & E' & Sub & Cov); [intros; apply Hl; by right|..|].
  - rewrite E1. cbn. by rewrite E, app_assoc.
  - intros n [Hn|Hn]%elem_of_app; [by apply R|]. by apply (node_snapshot_row e spec random nd).
  - rewrite E1. cbn. apply unique_snoc; [|done]. intros x Hx. by apply N.
  - rewrite E1. cbn. apply unique_snoc; [|done]. intros x Hx. by apply N.
  - done.
  - exists rows. split_and!; [done..| |set_solver|].
    + rewrite E', E1. by destruct (w_repo w).
    + intros nd' [->|Hin]%elem_of_cons; [|by apply Cov]. exists row. split; [set_solver|done].
Qed.

(** The nodes of a published version, as the service passes them on. *)
Definition published_fact (db : SoarDb) (e : SOARExecution) (nodes : list SOARNode) : Prop :=
  no_bar (ex_TenantID e) = true /\ ex_Status e = SOARExecutionQueued /\
  exists spec, version_fact db (ex_TenantID e) (ex_PlaybookID e) (ex_PlaybookVersion e) spec /\ nodes = spec_nodes spec.

Lemma stored_spec_nodes spec nd : nd ∈ spec_nodes (stored_spec spec) -> exists nd0, nd = stored_node nd0.
Proof.
  unfold spec_nodes, stored_spec. cbn. destruct (sp_Nodes spec) as [l|]; cbn; [|by intros ?%not_elem_of_nil].
  intros (nd0 & <- & _)%list_elem_of_In%in_map_iff. by exists nd0.
Qed.

Lemma bind_reads {A B} (m : Store A) (k : A -> B) w : w_repo (bind m (fun a => ret (k a)) w).2 = w_repo (m w).2.
Proof. unfold bind. by destruct (m w) as [[a|e|] w']. Qed.

Lemma insert_new_execution_Ok e w w' : insert_new_execution e w = (Ok tt, w') ->
  exists e', exec_key e' = exec_key e /\ ex_Status e' = ex_Status e /\
    (forall x, x ∈ db_executions (w_repo w) -> exec_key x <> exec_key e) /\
    w_repo w' = (w_repo w) {{ db_executions := db_executions (w_repo w) ++ [e'] }}.
Proof.
  unfold insert_new_execution. intros E%wrapping_Ok.
  apply bind_Ok in E as (u1 & w5 & E5 & E). apply bind_Ok in E as (u2 & w6 & E6 & E).
  unfold guard in E5, E6. destruct (_ ∈? _); [|done]. destruct (_ != _); [|done].
  injection E5 as _ <-. injection E6 as _ <-. apply insert_row_Ok in E as [N E]. eexists. split_and!; [..|exact E]; [done..|].
  intros x Hx K. specialize (N x Hx). apply orb_false_iff in N as [N _]. apply not_true_iff_false in N.
  by apply N, is_execution_true.
Qed.

(** Reading an execution changes nothing. *)
Lemma GetSOARExecution_reads t i w : w_repo (GetSOARExecution t i w).2 = w_repo w.
Proof. unfold GetSOARExecution, bind, select, on_repo, gets. cbn. by destruct (first_row _ _). Qed.

Lemma bind_transaction_reads {A B} (m : Store A) (k : A -> Store B) w (Q : SoarDb -> Prop) :
  (forall a w', w_repo (k a w').2 = w_repo w') -> Q (w_repo w) ->
  (forall a w', m w = (Ok a, w') -> Q (w_repo w')) -> Q (w_repo (bind (transaction m) k w).2).
Proof.
  intros Hk H0 Hm. unfold bind, transaction. destruct (m w) as [[a|e|] w'] eqn:E; cbn; [|done..].
  rewrite Hk. by apply (Hm a).
Qed.

(** An execution is added with all its rows, or nothing is. *)
Lemma CreateSOARExecution_effect e nodes w : wf (w_repo w) -> published_fact (w_repo w) e nodes ->
  w_repo (CreateSOARExecution e nodes w).2 = w_repo w \/
  exists e' spec rows, new_execution actions (w_repo w) e' spec rows /\
    w_repo (CreateSOARExecution e nodes w).2 =
    (w_repo w) {{ db_executions := db_executions (w_repo w) ++ [e']; db_nodes := db_nodes (w_repo w) ++ rows }}.
Proof.
  intros W (NB & Q & spec & F & ->). unfold CreateSOARExecution.
  apply (bind_transaction_reads _ _ _ (fun db => db = w_repo w \/ exists e' spec rows,
    new_execution actions (w_repo w) e' spec rows /\ db = _)); [|by left|].
  { intros [id|] w'; rewrite bind_reads; apply GetSOARExecution_reads. }
  intros a w' E.
  apply bind_Ok in E as (earlier & w1 & E1 & E). injection E1 as <- <-.
  destruct (first_row _ _) as [x|]; [injection E as <- <-; by left|].
  apply bind_Ok in E as (pb & w2 & E2 & E). injection E2 as <- <-.
  apply bind_Ok in E as (v & w3 & E3 & E). injection E3 as <- <-. cbn [w_repo] in E.
  destruct (first_row (is_playbook _ _) _) as [pb|]; [|done].
  destruct (first_row (is_version _ _ _) _) as [v|] eqn:Ev; [|done].
  apply first_row_Some in Ev as [Kv Hv]. apply is_version_key in Kv. cbn in Hv.
  destruct (_ || _) eqn:G; [done|]. apply orb_false_iff in G as [_ G]. apply negb_false_iff, bool_decide_eq_true in G.
  assert (S : sound actions spec).
  { rewrite <- (version_fact_of _ _ _ _ spec v W F Hv Kv). apply (wf_version_sound _ _ W); [done|]. by rewrite G. }
  destruct (wf_version_stored _ _ W v Hv) as [spec0 Est]. rewrite (version_fact_of _ _ _ _ spec v W F Hv Kv) in Est.
  apply bind_Ok in E as ([] & w4 & E4 & E). apply bind_Ok in E as ([] & w7 & E7 & E). injection E as _ <-. right.
  apply insert_new_execution_Ok in E4 as (e' & K & Q' & N & E4).
  destruct (snapshots_Ok e spec (spec_nodes spec) w4 w7 [] (db_nodes (w_repo w))) as (rows & R & U1 & U2 & Er & _ & Cov).
  - intros nd Hnd. split; [done|]. subst spec. by eapply stored_spec_nodes.
  - by rewrite E4, app_nil_r.
  - by intros n ?%not_elem_of_nil.
  - rewrite E4. cbn. apply W.
  - rewrite E4. cbn. apply W.
  - exact E7.
  - exists e', spec, rows. split; [|by rewrite Er, E4].
    unfold exec_key in K. injection K as K1 K2. constructor; try done.
    + intros x Hx Kx. apply (N x Hx). unfold exec_key in *. congruence.
    + by rewrite K1.
    + by rewrite Q'.
    + unfold snapshot_rows. rewrite K1, K2. exact R.
Qed.

Lemma triple_CreateSOARExecution e nodes :
  triple (fun db => published_fact db e nodes) (CreateSOARExecution e nodes) (fun _ => always).
Proof.
  intros w W F. split; [|done].
  destruct (CreateSOARExecution_effect e nodes w W F) as [->|(e' & spec & rows & N & ->)]; [done|].
  by apply rtc_once, (ch_new_execution _ _ e' spec rows).
Qed.

Lemma triple_foldM {A B} (f : B -> A -> Store B) acc l :
  (forall b a, triple always (f b a) (fun _ => always)) -> triple always (foldM f acc l) (fun _ => always).
Proof.
  intros Hf. revert acc. induction l as [|a l IH]; intros acc; cbn [foldM]; [eapply triple_weak, triple_ret|].
  eapply triple_bind; [apply Hf|]. intros b. apply IH.
Qed.

Lemma triple_ListSOARExecutions I t filter : triple I (ListSOARExecutions t filter) (fun _ => always).
Proof.
  apply triple_any. unfold ListSOARExecutions. eapply triple_bind; [eapply triple_weak, triple_select|]. intros rows.
  apply triple_foldM. intros b a. eapply triple_bind; [apply triple_listSOARNodeExecutions|]. intros n. eapply triple_weak, triple_ret.
Qed.

Lemma triple_ListSOARApprovals I t filter : triple I (ListSOARApprovals t filter) (fun _ => always).
Proof.
  apply triple_any. unfold ListSOARApprovals. eapply triple_bind; [eapply triple_weak, triple_select|]. intros rows.
  apply triple_foldM. intros b a. eapply triple_bind; [eapply triple_weak, triple_select|]. intros n. eapply triple_weak, triple_ret.
Qed.

End Ops.
