(* ===== verification/SoarSystem.v ===== *)
(** * The SOAR subsystem: services and workers over one database

    Any number of calls of the service and of runs of the workers proceed at
    once; a step is one call of one of them, in any order, answered by the
    database as [handle] says: a call of the store is one step.  A call may also fail with or without its effect
    (a connection that breaks), and a program may vanish (a crash).  What a
    program may ask of the database is checked against what it knows
    ([safe]), and what it knows stays true whatever the others do. *)

From S2P Require Import Prelude GoLang GoFormat Core TenantId MemoryStore Playbook PlaybookFacts PlaybookProps.
From S2P Require Import Sql AuditTable SoarModel SoarDb SoarRuntime SoarService SoarWorker.
From S2P Require Import SoarInvariant SoarChanges SoarOps.

Definition discard {A} (p : prog A) : prog unit := step! _ := p in pret tt.

Record System : Type := { sys_db : SoarDb; sys_threads : list (prog unit) }.

Section System.
Context `{JsonColumn} (actions : ActionCatalog).

(** The programs that may be started: the calls of the service, and a worker
    that looks for work. *)
Inductive entry : prog unit -> Prop :=
  | entry_create t actor draft : entry (discard (CreatePlaybook actions t actor draft))
  | entry_version t p actor spec : entry (discard (CreateVersion actions t p actor spec))
  | entry_validate t p k : entry (discard (ValidateVersion actions t p k))
  | entry_publish t p k actor : entry (discard (PublishVersion actions t p k actor))
  | entry_disable t p actor : entry (discard (DisablePlaybook t p actor))
  | entry_playbook t p : entry (discard (GetPlaybook t p))
  | entry_playbooks t : entry (discard (Playbooks t))
  | entry_start t actor request : Valid t = true -> entry (discard (StartExecution t actor request))
  | entry_execution t e : entry (discard (Execution t e))
  | entry_executions t filter : entry (discard (Executions t filter))
  | entry_approvals t filter : entry (discard (Approvals t filter))
  | entry_decide t a actor request : entry (discard (DecideApproval t a actor request))
  | entry_manual t e n actor output : entry (discard (CompleteManualTask t e n actor output))
  | entry_attempts t e limit : entry (discard (ActionAttempts t e limit))
  | entry_worker config tests : entry (discard (ProcessOne actions (worker_config config) tests)).

Inductive step : System -> System -> Prop :=
  | step_start db threads p : entry p ->
      step {| sys_db := db; sys_threads := threads |} {| sys_db := db; sys_threads := threads ++ [p] |}
  | step_call db l1 l2 {B} (op : Op B) k executor rt :
      let answer := handle executor op (mkWorld db rt) in
      step {| sys_db := db; sys_threads := l1 ++ Perform op k :: l2 |}
           {| sys_db := w_repo answer.2; sys_threads := l1 ++ k answer.1 :: l2 |}
  | step_reply_lost db l1 l2 {B} (op : Op B) k executor rt e :
      step {| sys_db := db; sys_threads := l1 ++ Perform op k :: l2 |}
           {| sys_db := w_repo (handle executor op (mkWorld db rt)).2; sys_threads := l1 ++ k (Err e) :: l2 |}
  | step_unavailable db l1 l2 {B} (op : Op B) k e :
      step {| sys_db := db; sys_threads := l1 ++ Perform op k :: l2 |}
           {| sys_db := db; sys_threads := l1 ++ k (Err e) :: l2 |}
  | step_crash db l1 l2 p :
      step {| sys_db := db; sys_threads := l1 ++ p :: l2 |} {| sys_db := db; sys_threads := l1 ++ l2 |}
  | step_lock db threads locked :
      step {| sys_db := db; sys_threads := threads |}
           {| sys_db := db {{ db_locked := locked }}; sys_threads := threads |}.

Definition reachable (s : System) : Prop := rtc step {| sys_db := empty_db; sys_threads := [] |} s.

(** ** What a call relies on, and what its answer tells *)

Definition requires (db : SoarDb) {A} (op : Op A) : Prop :=
  match op with
  | CallExecute request => node_fact db (ar_Node request) /\ ne_NodeType (ar_Node request) = SOARNodeAction
  | CallCreatePlaybook _ version => pv_State version = SOARVersionDraft
  | CallSaveValidation t p k report => vr_Valid report = true -> sound_fact actions db t p k
  | CallCreateExecution e nodes => published_fact db e nodes
  | CallComplete t i _ _ => work_fact db t i
  | CallRequestApproval item _ required _ => approval_fact db item required
  | CallRequestManualTask item => work_fact db (ne_TenantID (wi_Node item)) (ne_ID (wi_Node item))
  | _ => True
  end.

Definition tells (db : SoarDb) {A} (op : Op A) : outcome A -> Prop :=
  match op in Op A return outcome A -> Prop with
  | CallGetPlaybook t p => fun r => forall details v, r = Ok details -> v ∈ pd_Versions details ->
      version_fact db t p (pv_Version v) (pv_Spec v)
  | CallClaim _ _ _ => fun r => forall item, r = Ok (Some item) -> claim_fact db item
  | _ => fun _ => True
  end.

(** The facts of [requires] and [tells] are about rows that persist. *)
Definition extends (db db' : SoarDb) : Prop :=
  (forall n, n ∈ db_nodes db -> exists n', n' ∈ db_nodes db' /\ node_static n' = node_static n /\
                                           (0 < ne_Attempt n -> 0 < ne_Attempt n')) /\
  (forall e, e ∈ db_executions db -> exists e', e' ∈ db_executions db' /\ exec_static e' = exec_static e) /\
  (forall v, v ∈ db_versions db -> exists v', v' ∈ db_versions db' /\ version_static v' = version_static v).

#[global] Instance extends_preorder : PreOrder extends.
Proof.
  split.
  - intros db. split_and!; intros x Hx; by exists x.
  - intros d1 d2 d3 (A1 & A2 & A3) (B1 & B2 & B3). split_and!.
    + intros n Hn. destruct (A1 n Hn) as (n2 & H2 & S2 & P2), (B1 n2 H2) as (n3 & H3 & S3 & P3).
      exists n3. split_and!; [done|congruence|auto].
    + intros e He. destruct (A2 e He) as (e2 & H2 & S2), (B2 e2 H2) as (e3 & H3 & S3). exists e3. split; [done|congruence].
    + intros v Hv. destruct (A3 v Hv) as (v2 & H2 & S2), (B3 v2 H2) as (v3 & H3 & S3). exists v3. split; [done|congruence].
Qed.

Lemma change_extends db db' : change actions db db' -> extends db db'.
Proof.
  destruct 1 as [P f Hf|P f Hf|P f Hf|v spec|e spec rows| | | |db' E1 E2 E3].
  - split_and!; [|by intros x Hx; exists x..]. intros n Hn. exists (if P n then f n else n).
    split; [apply elem_of_set_where; by exists n|]. destruct (P n) eqn:Pn; [|done].
    destruct (Hf n Hn Pn) as [S T%transition_attempt]. split; [done|lia].
  - split_and!; [by intros x Hx; exists x|intros e He|by intros x Hx; exists x]. exists (if P e then f e else e).
    split; [apply elem_of_set_where; by exists e|by destruct (P e)].
  - split_and!; [by intros x Hx; exists x..|]. intros v Hv. exists (if P v then f v else v).
    split; [apply elem_of_set_where; by exists v|]. destruct (P v) eqn:Pv; [by apply Hf|done].
  - split_and!; [by intros x Hx; exists x..|]. intros x Hx. exists x. cbn. split; [set_solver|done].
  - split_and!; intros x Hx; exists x; cbn; split; try done; set_solver.
  - by split_and!; intros x Hx; exists x.
  - by split_and!; intros x Hx; exists x.
  - by split_and!; intros x Hx; exists x.
  - split_and!; intros x Hx; exists x; by rewrite ?E1, ?E2, ?E3.
Qed.

Lemma changes_extends db db' : changes actions db db' -> extends db db'.
Proof. induction 1 as [|x y z C _ IH]; [done|]. etransitivity; [by apply change_extends|done]. Qed.

Lemma extends_node db db' n0 : extends db db' -> node_fact db n0 -> node_fact db' n0.
Proof. intros (E & _) (n & Hn & S & A). destruct (E n Hn) as (n' & Hn' & S' & A'). exists n'. split_and!; [done|congruence|auto]. Qed.

Lemma extends_exec db db' t e0 : extends db db' -> exec_fact db t e0 -> exec_fact db' t e0.
Proof.
  intros (_ & E & _) (e & He & K & T). destruct (E e He) as (e' & He' & S). exists e'.
  unfold exec_static in S. split_and!; [done|congruence|congruence].
Qed.

Lemma extends_version db db' t p k spec : extends db db' -> version_fact db t p k spec -> version_fact db' t p k spec.
Proof.
  intros (_ & _ & E) (v & Hv & K & S). destruct (E v Hv) as (v' & Hv' & S'). exists v'.
  unfold version_static in S'. split_and!; [done|congruence|congruence].
Qed.

Lemma extends_claim db db' item : extends db db' -> claim_fact db item -> claim_fact db' item.
Proof. intros E (A & B & C). split_and!; [by eapply extends_node|by eapply extends_exec|done]. Qed.

Lemma extends_work db db' t i : extends db db' -> work_fact db t i -> work_fact db' t i.
Proof.
  intros (E & _) (n & Hn & K & T). destruct (E n Hn) as (n' & Hn' & S & _). exists n'.
  destruct (static_place _ _ S) as [_ ->]. destruct (static_fields _ _ S) as (_ & _ & -> & _). done.
Qed.

Lemma extends_requires db db' {A} (op : Op A) : extends db db' -> requires db op -> requires db' op.
Proof.
  intros E. destruct op; cbn; try done.
  - intros [F T]. split; [by eapply extends_node|done].
  - intros F V. destruct (F V) as (spec & Fs & S). exists spec. split; [by eapply extends_version|done].
  - intros (NB & Q & spec & F & Es). split_and!; [done..|]. exists spec. split; [by eapply extends_version|done].
  - by apply extends_work.
  - intros (F & T & C). split_and!; [by eapply extends_claim|done|done].
  - by apply extends_work.
Qed.

(** A call whose needs are met changes the tables only in known ways, and
    its answer tells the truth. *)
Lemma handle_ok executor {A} (op : Op A) w : wf actions (w_repo w) -> requires (w_repo w) op ->
  changes actions (w_repo w) (w_repo (handle executor op w).2) /\
  tells (w_repo (handle executor op w).2) op (handle executor op w).1.
Proof.
  intros W R. assert (Plain : forall (m : Store A) J, triple actions (fun db => requires db op) m J ->
    (forall x, J x (w_repo (m w).2) -> tells (w_repo (m w).2) op (Ok x)) -> (forall e, tells (w_repo (m w).2) op (Err e)) ->
    tells (w_repo (m w).2) op Panic ->
    changes actions (w_repo w) (w_repo (m w).2) /\ tells (w_repo (m w).2) op (m w).1).
  { intros m J Hm H1 H2 H3. destruct (Hm w W R) as [C P]. split; [done|]. destruct (m w).1 as [x|e|]; auto. }
  destruct op; cbn [handle].
  all: try (eapply (Plain _ (fun _ => always)); [|done..]).
  - eapply triple_weak, triple_Now.
  - eapply triple_bind; [apply triple_Random|]. intros x. eapply triple_weak, triple_ret.
  - eapply triple_weak, triple_lift.
  - by apply triple_CreateSOARPlaybook.
  - apply triple_CreateSOARPlaybookVersion.
  - eapply Plain; [apply triple_GetSOARPlaybook|..]; cbn; [|done..]. intros d J d' v [= <-]. apply J.
  - eapply triple_weak, triple_select.
  - apply triple_SaveSOARValidation.
  - apply triple_PublishSOARPlaybookVersion.
  - apply triple_DisableSOARPlaybook.
  - apply triple_CreateSOARExecution.
  - apply triple_GetSOARExecution.
  - apply triple_ListSOARExecutions.
  - apply triple_ListSOARApprovals.
  - apply triple_DecideSOARApproval.
  - apply triple_CompleteSOARManualTask.
  - eapply triple_weak, triple_select.
  - eapply Plain; [apply triple_ClaimSOARNode|..]; cbn; [|done..]. intros o J item [= ->]. by apply J.
  - apply triple_CompleteSOARNode.
  - apply triple_DeferSOARNode.
  - apply triple_RetrySOARNode.
  - apply triple_FailSOARNode.
  - apply triple_RequestSOARApproval.
  - apply triple_RequestSOARManualTask.
  - apply triple_BeginSOARAction.
  - apply triple_FinishSOARAction.
Qed.

(** ** Programs that keep to the rules *)

(** Whatever the database has become in the meantime, the program asks only
    for what it may, and goes on so after any answer. *)
Fixpoint safe {A} (db : SoarDb) (p : prog A) : Prop :=
  match p with
  | Done _ => True
  | Perform op k => requires db op /\ forall db' r, extends db db' -> tells db' op r -> safe db' (k r)
  end.

Lemma safe_mono {A} db db' (p : prog A) : extends db db' -> safe db p -> safe db' p.
Proof.
  intros E. destruct p as [r|B op k]; cbn; [done|]. intros [R K]. split; [by eapply extends_requires|].
  intros db2 r E2. apply K. by etransitivity.
Qed.

(** A program that is safe and whose result is as [Post] says. *)
Fixpoint yields {A} (Post : SoarDb -> outcome A -> Prop) (db : SoarDb) (p : prog A) : Prop :=
  match p with
  | Done r => Post db r
  | Perform op k => requires db op /\ forall db' r, extends db db' -> tells db' op r -> yields Post db' (k r)
  end.

Lemma safe_pbind {A B} db (p : prog A) (f : A -> prog B) :
  yields (fun db' r => forall a, r = Ok a -> safe db' (f a)) db p -> safe db (pbind p f).
Proof.
  revert db. induction p as [[a|e|]|C op k IH]; intros db Y; cbn in *; [by apply Y|done|done|].
  destruct Y as [R K]. split; [done|]. intros db' r E T. apply IH. by apply K.
Qed.

Lemma yields_pbind {A B} Post db (p : prog A) (f : A -> prog B) :
  yields (fun db' r => match r with
                       | Ok a => yields Post db' (f a) | Err e => Post db' (Err e) | Panic => Post db' Panic end) db p ->
  yields Post db (pbind p f).
Proof.
  revert db. induction p as [[a|e|]|C op k IH]; intros db Y; cbn in *; [by apply Y|done|done|].
  destruct Y as [R K]. split; [done|]. intros db' r E T. apply IH. by apply K.
Qed.

Lemma yields_caught {A} Post db (p : prog A) :
  yields (fun db' r => Post db' (Ok r)) db p -> yields Post db (caught p).
Proof.
  revert db. induction p as [r|C op k IH]; intros db Y; cbn in *; [done|].
  destruct Y as [R K]. split; [done|]. intros db' r E T. apply IH. by apply K.
Qed.

Lemma yields_mono {A} (P Q : SoarDb -> outcome A -> Prop) db p :
  (forall db' r, extends db db' -> P db' r -> Q db' r) -> yields P db p -> yields Q db p.
Proof.
  revert db. induction p as [r|C op k IH]; intros db HPQ Y; cbn in *; [by apply HPQ|].
  destruct Y as [R K]. split; [done|]. intros db' r E T. apply IH; [|by apply K].
  intros db2 r2 E2. apply HPQ. by etransitivity.
Qed.

Lemma safe_yields {A} db (p : prog A) : safe db p -> yields (fun _ _ => True) db p.
Proof. revert db. induction p as [r|C op k IH]; intros db S; cbn in *; [done|]. destruct S as [R K]. split; [done|]. intros db' r E T. apply IH. by apply K. Qed.

Lemma yields_safe {A} Post db (p : prog A) : yields Post db p -> safe db p.
Proof. revert db. induction p as [r|C op k IH]; intros db S; cbn in *; [done|]. destruct S as [R K]. split; [done|]. intros db' r E T. apply IH. by apply K. Qed.

Lemma safe_discard {A} db (p : prog A) : safe db p -> safe db (discard p).
Proof.
  intros S. apply safe_pbind. eapply yields_mono; [|by apply safe_yields]. done.
Qed.

Lemma yields_call {A} Post db (op : Op A) : requires db op ->
  (forall db' r, extends db db' -> tells db' op r -> Post db' r) -> yields Post db (call op).
Proof. intros R K. by split. Qed.

(** The frequent case: a call that needs nothing and tells nothing. *)
Lemma safe_call_bind {A B} db (op : Op A) (k : A -> prog B) : requires db op ->
  (forall db' a, extends db db' -> tells db' op (Ok a) -> safe db' (k a)) -> safe db (pbind (call op) k).
Proof.
  intros R K. apply safe_pbind, yields_call; [done|]. intros db' r E T a ->. by apply K.
Qed.

Lemma safe_call {A} db (op : Op A) : requires db op -> safe db (call op).
Proof. intros R. by split. Qed.

End System.
