(* ===== verification/SoarSafety.v ===== *)
(** * The programs of the service and of the workers are safe *)

From S2P Require Import Prelude GoLang GoFormat Core TenantId MemoryStore Playbook PlaybookFacts PlaybookProps.
From S2P Require Import Sql AuditTable SoarModel SoarDb SoarRuntime SoarService SoarWorker.
From S2P Require Import SoarInvariant SoarChanges SoarOps SoarSystem.

(** Goes through a program: into its branches, past its calls, into the ways
    the calls may be answered. *)
Ltac walk := repeat first
  [ exact I
  | match goal with
    | |- safe _ _ (Done _) => exact I
    | |- safe _ _ (call _) => apply safe_call; try exact I
    | |- safe _ _ (pret _) => exact I
    | |- safe _ _ (pfail _) => exact I
    | |- safe _ _ (Perform _ _) => split; [try exact I|intros ?db' ?r ?E ?T]
    | |- safe _ _ (if ?b then _ else _) => destruct b eqn:?
    | |- safe _ _ (pbind (if ?b then _ else _) _) => destruct b eqn:?
    | |- safe _ _ (pbind (pbind (Done ?r) _) _) => destruct r; cbn [pbind]
    | |- safe _ _ (pbind (Done ?r) _) => destruct r; cbn [pbind]
    | |- safe _ _ (match ?x with _ => _ end) => destruct x eqn:?
    | |- safe _ _ (pbind (match ?x with _ => _ end) _) => destruct x eqn:?
    end
  | progress cbn [pbind call pret pfail discard caught] ].

Section Safety.
Context `{JsonColumn} (actions : ActionCatalog).

Abbreviation safe := (safe actions).

(** ** The service *)

Lemma safe_CreatePlaybook db t actor draft : safe db (CreatePlaybook actions t actor draft).
Proof. unfold CreatePlaybook, validate. walk. done. Qed.

Lemma safe_CreateVersion db t p actor spec : safe db (CreateVersion actions t p actor spec).
Proof. unfold CreateVersion, validate. walk. Qed.

Lemma ValidateVersion_yields (Post : SoarDb -> outcome SOARPlaybookVersion -> Prop) db t p k :
  (forall db' r, Post db' r) -> yields actions Post db (ValidateVersion actions t p k).
Proof.
  intros HP. unfold ValidateVersion. split; [exact I|]. intros db1 r E1 T1.
  destruct r as [details|e|]; cbn [pbind]; [|apply HP..]. destruct (List.find _ _) as [item|] eqn:F; [|apply HP].
  apply find_some in F as [Hi Hk]. apply Z.eqb_eq in Hk. apply list_elem_of_In in Hi. specialize (T1 details item eq_refl Hi).
  destruct (_ || _); [apply HP|]. split; [exact I|]. intros db2 r E2 T2. destruct r as [now|e|]; cbn [pbind]; [|apply HP..].
  split; [|intros; apply HP]. cbn. intros V. exists (pv_Spec item). rewrite <- Hk at 1.
  split; [by eapply extends_version|]. by apply valid_iff_sound in V.
Qed.

Lemma safe_ValidateVersion db t p k : safe db (ValidateVersion actions t p k).
Proof. eapply yields_safe, (ValidateVersion_yields (fun _ _ => True)). done. Qed.

Lemma safe_PublishVersion db t p k actor : safe db (PublishVersion actions t p k actor).
Proof. apply safe_pbind, ValidateVersion_yields. intros db' r v _. walk. Qed.

Lemma safe_StartExecution db t actor request : Valid t = true -> safe db (StartExecution t actor request).
Proof.
  intros V. unfold StartExecution. cbv zeta. walk. split_and!; [by apply Valid_no_bar|done|]. match goal with F : List.find _ _ = Some ?v |- _ => apply find_some in F as [Hi _]; exists (pv_Spec v) end.
  split; [|done]. apply list_elem_of_In in Hi. specialize (T _ _ eq_refl Hi). cbn.
  repeat first [exact T | eapply extends_version; [eassumption|]].
Qed.

Lemma safe_DecideApproval db t a actor request : safe db (DecideApproval t a actor request).
Proof. unfold DecideApproval. walk. Qed.

Lemma safe_CompleteManualTask db t e n actor output : safe db (CompleteManualTask t e n actor output).
Proof. unfold CompleteManualTask. walk. Qed.

(** ** The worker *)

Lemma claim_work db item : claim_fact db item -> ne_NodeType (wi_Node item) <> SOARNodeApproval ->
  work_fact db (ne_TenantID (wi_Node item)) (ne_ID (wi_Node item)).
Proof.
  intros ((n & Hn & S & _) & _) T. exists n. destruct (static_place _ _ S) as [_ ->].
  by destruct (static_fields _ _ S) as (_ & _ & -> & _).
Qed.

Section Worker.
Variable config : WorkerConfig.

(** The worker's programs are run for their safety only. *)
Definition carefree {A} (db : SoarDb) (p : prog A) : Prop :=
  forall Post : SoarDb -> outcome A -> Prop, (forall db' r, Post db' r) -> yields actions Post db p.

Lemma carefree_Done {A} db (r : outcome A) : carefree db (Done r).
Proof. intros Post HP. apply HP. Qed.

Lemma carefree_call {A} db (op : Op A) : requires actions db op -> carefree db (call op).
Proof. intros R Post HP. split; [done|]. intros; apply HP. Qed.

Lemma carefree_bind {A B} db (op : Op A) (k : A -> prog B) : requires actions db op ->
  (forall db' a, extends db db' -> tells db' op (Ok a) -> carefree db' (k a)) -> carefree db (pbind (call op) k).
Proof. intros R K Post HP. split; [done|]. intros db' r E T. destruct r; cbn; [by apply K|apply HP..]. Qed.

Lemma carefree_caught {A B} db (op : Op A) (k : outcome A -> prog B) : requires actions db op ->
  (forall db' r, extends db db' -> tells db' op r -> carefree db' (k r)) -> carefree db (pbind (caught (call op)) k).
Proof. intros R K Post HP. split; [done|]. intros db' r E T. cbn. by apply K. Qed.

Lemma carefree_complete db item output : claim_fact db item -> ne_NodeType (wi_Node item) <> SOARNodeApproval ->
  carefree db (complete_node config (wi_Node item) output).
Proof. intros F T. apply carefree_call. by apply claim_work. Qed.

Lemma carefree_executeAction db item : claim_fact db item -> ne_NodeType (wi_Node item) = SOARNodeAction ->
  carefree db (executeAction actions config item).
Proof.
  intros F Ty. assert (NA : ne_NodeType (wi_Node item) <> SOARNodeApproval) by (by rewrite Ty).
  unfold executeAction. cbv zeta. destruct (workerConfigString _ _) as [actionType ok]. destruct (negb ok); [apply carefree_Done|].
  destruct (actions !! actionType) as [descriptor|]; [|apply carefree_Done].
  apply carefree_bind; [exact I|]. intros db1 now E1 _. apply carefree_bind; [exact I|]. intros db2 id E2 _.
  apply carefree_bind; [exact I|]. intros db3 [stored created] E3 _.
  assert (F3 : claim_fact db3 item) by (eapply extends_claim; [exact E3|]; eapply extends_claim; [exact E2|]; by eapply extends_claim).
  destruct (_ && _); [by apply carefree_complete|].
  apply carefree_caught; [split; [by destruct F3|done]|]. intros db4 r E4 _.
  destruct r as [result|e|]; [|destruct (default _ _) as [[code detail] permanent]|apply carefree_Done].
  - apply carefree_bind; [exact I|]. intros db5 finished E5 _. apply carefree_complete; [|done].
    eapply extends_claim; [exact E5|]. by eapply extends_claim.
  - apply carefree_bind; [exact I|]. intros db5 x E5 _. apply carefree_Done.
Qed.

Lemma carefree_process db item : claim_fact db item -> carefree db (process actions config item).
Proof.
  intros F. unfold process. cbv zeta. case_bool_decide as T1; [by apply carefree_executeAction|].
  case_bool_decide as T2.
  { destruct (workerConfigInt _ _) as [required ok] eqn:C. destruct (_ || _) eqn:B; [apply carefree_Done|].
    apply orb_false_iff in B as [B _]. apply orb_false_iff in B as [B _]. apply negb_false_iff in B as ->.
    apply carefree_bind; [exact I|]. intros db1 now E1 _. apply carefree_bind; [|intros; apply carefree_Done].
    split; [by eapply extends_claim|]. by split. }
  case_bool_decide as T3; [apply carefree_call; by apply claim_work|].
  case_bool_decide as T4.
  { destruct (metadata_get _ _); [by apply carefree_complete|]. destruct (workerConfigInt _ _) as [seconds ok].
    destruct (_ || _); [apply carefree_Done|]. apply carefree_bind; [exact I|]. intros db1 now E1 _. by apply carefree_call. }
  case_bool_decide as T5.
  { destruct (evaluateCondition _ _); [by apply carefree_complete|apply carefree_Done..]. }
  case_bool_decide as T6.
  { destruct (transformContext _ _); [by apply carefree_complete|apply carefree_Done..]. }
  destruct (_ ∈? _); [by apply carefree_complete|apply carefree_Done].
Qed.

Lemma carefree_handle_failure db node code detail permanent : carefree db (handle_failure config node code detail permanent).
Proof.
  unfold handle_failure. cbv zeta. destruct (_ && _); [|by apply carefree_call].
  apply carefree_bind; [exact I|]. intros. by apply carefree_call.
Qed.

Lemma safe_process_claimed db item : claim_fact db item -> safe db (process_claimed actions config item).
Proof.
  intros F. apply safe_pbind, yields_caught, carefree_process; [done|]. intros db' r a [= <-].
  destruct r as [u|e|]; [exact I| |exact I]. destruct (as_NodeError e) as [[[code detail] permanent]|]; [|exact I].
  apply safe_pbind, carefree_handle_failure. intros. exact I.
Qed.

Lemma safe_ProcessOne db tests : safe db (ProcessOne actions config tests).
Proof.
  assert (C : safe db (step! item := call (CallClaim (wc_ID config) (wc_TenantID config) (wc_Lease config)) in
                       match item with None => pret false | Some item => process_claimed actions config item end)).
  { apply safe_call_bind; [exact I|]. intros db' [item|] E T; [|exact I]. apply safe_process_claimed. by apply T. }
  unfold ProcessOne. destruct tests as [[[]| |]|]; first [exact C|exact I].
Qed.

End Worker.

Lemma safe_entry db p : entry actions p -> safe db p.
Proof.
  destruct 1; apply safe_discard.
  - apply safe_CreatePlaybook.
  - apply safe_CreateVersion.
  - apply safe_ValidateVersion.
  - apply safe_PublishVersion.
  - by apply safe_call.
  - by apply safe_call.
  - by apply safe_call.
  - by apply safe_StartExecution.
  - by apply safe_call.
  - by apply safe_call.
  - unfold Approvals. walk.
  - apply safe_DecideApproval.
  - apply safe_CompleteManualTask.
  - unfold ActionAttempts. walk.
  - apply safe_ProcessOne.
Qed.

(** ** The system *)

Record system_ok (s : System) : Prop := {
  so_tables : wf actions (sys_db s);
  so_threads : Forall (safe (sys_db s)) (sys_threads s)
}.

Lemma threads_mono db db' (threads : list (prog unit)) : extends db db' -> Forall (safe db) threads -> Forall (safe db') threads.
Proof. intros E F. eapply Forall_impl; [exact F|]. intros p. by apply safe_mono. Qed.

Lemma step_ok s s' : step actions s s' -> system_ok s -> system_ok s'.
Proof.
  intros S [W F]. destruct S as [db threads p He|db l1 l2 B op k executor rt answer|db l1 l2 B op k executor rt e|db l1 l2 B op k e|
                                  db l1 l2 p|db threads locked]; cbn in W, F; constructor; cbn.
  - done.
  - apply Forall_app. split; [done|]. apply Forall_singleton. by apply safe_entry.
  - apply Forall_app in F as [F1 F2]. apply Forall_cons in F2 as [[R K] F2].
    destruct (handle_ok actions executor op (mkWorld db rt)) as [C T]; [done..|]. by eapply changes_wf.
  - apply Forall_app in F as [F1 F2]. apply Forall_cons in F2 as [[R K] F2].
    destruct (handle_ok actions executor op (mkWorld db rt)) as [C T]; [done..|].
    assert (E : extends db (w_repo answer.2)) by (by apply (changes_extends actions)).
    apply Forall_app. split; [by eapply threads_mono|]. apply Forall_cons. split; [by apply K|by eapply threads_mono].
  - apply Forall_app in F as [F1 F2]. apply Forall_cons in F2 as [[R K] F2].
    destruct (handle_ok actions executor op (mkWorld db rt)) as [C T]; [done..|]. by eapply changes_wf.
  - apply Forall_app in F as [F1 F2]. apply Forall_cons in F2 as [[R K] F2].
    destruct (handle_ok actions executor op (mkWorld db rt)) as [C T]; [done..|].
    assert (E : extends db (w_repo (handle executor op (mkWorld db rt)).2)) by (by apply (changes_extends actions)).
    apply Forall_app. split; [by eapply threads_mono|]. apply Forall_cons. split; [|by eapply threads_mono].
    apply K; [done|]. by destruct op.
  - done.
  - apply Forall_app in F as [F1 F2]. apply Forall_cons in F2 as [[R K] F2]. apply Forall_app. split; [done|].
    apply Forall_cons. split; [|done]. apply K; [done|]. by destruct op.
  - done.
  - apply Forall_app in F as [F1 F2]. apply Forall_cons in F2 as [_ F2]. by apply Forall_app.
  - apply (change_wf actions db); [by apply rest_change|done].
  - apply (threads_mono db); [|done]. apply (change_extends actions). by apply rest_change.
Qed.

Lemma wf_empty : wf actions empty_db.
Proof.
  constructor; cbn; unfold unique; try apply NoDup_nil_2; intros; exfalso;
    match goal with K : _ ∈ [] |- _ => by apply not_elem_of_nil in K end.
Qed.

Lemma reachable_ok s : reachable actions s -> system_ok s.
Proof.
  intros R. unfold reachable in R. remember {| sys_db := empty_db; sys_threads := [] |} as s0 eqn:E0.
  assert (O : system_ok s0) by (subst; constructor; [apply wf_empty|constructor]). clear E0.
  induction R as [|x y z S _ IH]; [done|]. apply IH. by eapply step_ok.
Qed.

End Safety.
