(* ===== verification/SoarCalm.v ===== *)
(** * Executions that nobody has forgotten

    Between two transactions the tables are [settled]: a pending node waits for
    a dependency that is not done, and the status of an execution tells the
    truth about its nodes.  A transaction unsettles the executions whose nodes
    it changes and settles them again by [promoteAndReconcileSOAR]; [D] lists
    the executions that are unsettled in the midst of it.

    This is so for transactions that run one at a time, as in the model.  The
    database runs them at READ COMMITTED, where two that overlap may each miss
    the other's change: SoarIsolation.v. *)

From S2P Require Import Prelude GoLang GoFormat Core TenantId MemoryStore Playbook PlaybookFacts Sql AuditTable SoarModel SoarDb SoarRuntime.
From S2P Require Import SoarService SoarInvariant SoarChanges SoarOps SoarSystem.

(** Two lists of statuses that share none. *)
Ltac listed := repeat match goal with
  | K : _ ∈ _ :: _ |- _ => apply elem_of_cons in K as [K|K]
  | K : _ ∈ [] |- _ => by apply not_elem_of_nil in K
  end; congruence.

Definition node_exec (n : SOARNodeExecution) : string * string := (ne_TenantID n, ne_ExecutionID n).

(** Somebody may act on the node: a worker, an approver, an operator. *)
Definition open_statuses : list string := ["READY"; "RUNNING"; "WAITING_APPROVAL"; "WAITING_MANUAL"].
Definition known_statuses : list string := active_statuses ++ ["SUCCEEDED"; "FAILED"; "CANCELLED"].
Definition live_statuses : list string :=
  [SOARExecutionQueued; SOARExecutionRunning; SOARExecutionWaitingApproval; SOARExecutionWaitingManual].

(** A node of the execution has one of the statuses. *)
Definition some_node (nodes : list SOARNodeExecution) (k : string * string) (statuses : list string) : Prop :=
  exists n, n ∈ nodes /\ node_exec n = k /\ ne_Status n ∈ statuses.

(** The status of an execution and those of its nodes agree. *)
Definition truthful (nodes : list SOARNodeExecution) (k : string * string) (status : string) : Prop :=
  (status = SOARExecutionFailed /\ some_node nodes k ["FAILED"] /\ ~ some_node nodes k active_statuses) \/
  (status = SOARExecutionSucceeded /\ ~ some_node nodes k ["FAILED"] /\ ~ some_node nodes k active_statuses) \/
  (status ∈ live_statuses /\ ~ some_node nodes k ["FAILED"] /\ some_node nodes k active_statuses).

Record settled (D : list (string * string)) (db : SoarDb) : Prop := {
  st_key : unique node_key (db_nodes db);
  st_known n : n ∈ db_nodes db -> ne_Status n ∈ known_statuses;
  st_cancelled n : n ∈ db_nodes db -> ne_Status n = "CANCELLED" -> some_node (db_nodes db) (node_exec n) ["FAILED"];
  st_linked a n : a ∈ db_approvals db -> n ∈ db_nodes db -> node_key n = (apr_TenantID a, apr_NodeExecutionID a) ->
    ne_ExecutionID n = apr_ExecutionID a;
  st_pending n : n ∈ db_nodes db -> (node_exec n ∉ D) -> ne_Status n = "PENDING" -> dependencies_done (db_nodes db) n = false;
  st_truthful e : e ∈ db_executions db -> (exec_key e ∉ D) -> truthful (db_nodes db) (exec_key e) (ex_Status e)
}.

Lemma settled_mono D D' db : D ⊆ D' -> settled D db -> settled D' db.
Proof. intros S [K1 K2 K3 K4 K5 K6]. constructor; try done; intros; [apply K5|apply K6]; auto. Qed.

Lemma open_active s : s ∈ open_statuses -> s ∈ active_statuses.
Proof. unfold open_statuses, active_statuses. set_solver. Qed.

Lemma active_open s : s ∈ active_statuses -> s = "PENDING" \/ s ∈ open_statuses.
Proof. unfold open_statuses, active_statuses. set_solver. Qed.

Lemma open_cases s : s ∈ open_statuses -> s <> "PENDING" /\ s <> "FAILED" /\ s <> "CANCELLED" /\ s <> "SUCCEEDED" /\ s <> "SKIPPED".
Proof. intros Hs. split_and!; intros ->; revert Hs; apply (bool_decide_eq_false_1 (_ ∈ open_statuses)); reflexivity. Qed.

Lemma count_status_pos t e statuses nodes : 0 < count_status t e statuses nodes <-> some_node nodes (t, e) statuses.
Proof.
  unfold count_status, count_rows. set (P := fun n => _).
  assert (HP : forall n, n ∈ where_rows P nodes <-> n ∈ nodes /\ node_exec n = (t, e) /\ ne_Status n ∈ statuses).
  { intros n. rewrite elem_of_where. unfold P, node_exec. rewrite andb_true_iff, is_node_of_true, bool_decide_eq_true.
    split; [by intros [[[-> ->] ?] ?]|by intros (? & [= -> ->] & ?)]. }
  unfold some_node. setoid_rewrite <- HP. destruct (where_rows P nodes) as [|n l]; cbn.
  - split; [lia|]. by intros (n & ?%not_elem_of_nil).
  - split; [|lia]. intros _. exists n. left.
Qed.

Lemma reconciled_truthful t e nodes : let status := (reconciled_status t e nodes).1 in
  (status = SOARExecutionFailed /\ some_node nodes (t, e) ["FAILED"]) \/
  (status <> SOARExecutionFailed /\ truthful nodes (t, e) status).
Proof.
  cbv zeta. unfold reconciled_status. assert (C := fun s => count_status_pos t e s nodes).
  destruct (Z.ltb_spec 0 (count_status t e ["FAILED"] nodes)) as [F|F]; [left; split; [done|by apply C]|right].
  assert (NF : ~ some_node nodes (t, e) ["FAILED"]) by (rewrite <- C; lia).
  destruct (Z.eqb_spec (count_status t e active_statuses nodes) 0) as [A|A].
  { split; [done|]. right; left. split_and!; [done..|]. rewrite <- C. lia. }
  assert (SA : some_node nodes (t, e) active_statuses).
  { rewrite <- C. unfold count_status, count_rows in *. lia. }
  destruct (0 <? _); [|destruct (0 <? _)]; (split; [done|]; right; right; split_and!; [|done..]; unfold live_statuses; cbn; set_solver).
Qed.

(** ** Changes of node rows *)

Section Nodes.
Context (db : SoarDb) (D D' : list (string * string)) (P : SOARNodeExecution -> bool) (f : SOARNodeExecution -> SOARNodeExecution).

(** The change of a row is harmless for its execution, or the execution is
    counted as unsettled. *)
Hypothesis Hf : forall n, n ∈ db_nodes db -> P n = true ->
  node_static (f n) = node_static n /\ ne_Status n <> "FAILED" /\ ne_Status (f n) ∈ known_statuses /\
  (ne_Status (f n) = "CANCELLED" -> some_node (db_nodes db) (node_exec n) ["FAILED"]) /\
  (node_exec n ∈ D' \/ (ne_Status n ∈ open_statuses /\ ne_Status (f n) ∈ open_statuses)).
Hypothesis HD : D ⊆ D'.
Hypothesis Hdb : settled D db.

Let moved (n : SOARNodeExecution) : SOARNodeExecution := if P n then f n else n.
Let nodes' := set_where P f (db_nodes db).

Lemma moved_static_of n : n ∈ db_nodes db -> node_static (moved n) = node_static n.
Proof. intros Hn. unfold moved. destruct (P n) eqn:E; [by apply Hf|done]. Qed.

Lemma moved_exec n : n ∈ db_nodes db -> node_exec (moved n) = node_exec n.
Proof. intros Hn. destruct (static_fields _ _ (moved_static_of n Hn)) as (E1 & E2 & _). unfold node_exec. by rewrite E1, E2. Qed.

Lemma moved_or_open n : n ∈ db_nodes db -> (node_exec n ∉ D') ->
  moved n = n \/ (ne_Status n ∈ open_statuses /\ ne_Status (moved n) ∈ open_statuses).
Proof.
  intros Hn Hd. unfold moved. destruct (P n) eqn:E; [|by left]. right.
  destruct (Hf n Hn E) as (_ & _ & _ & _ & [?|?]); [by destruct Hd|done].
Qed.

Lemma some_node_moved k statuses : (k ∉ D') -> (open_statuses ⊆ statuses \/ forall s, s ∈ open_statuses -> s ∉ statuses) ->
  some_node nodes' k statuses <-> some_node (db_nodes db) k statuses.
Proof.
  intros Hk Ho. unfold some_node, nodes'. setoid_rewrite elem_of_set_where. split.
  - intros (y & (n & Hn & ->) & K & S). fold (moved n) in K, S. rewrite moved_exec in K by done. exists n. split_and!; [done..|].
    destruct (moved_or_open n Hn) as [E|[O1 O2]]; [by rewrite K|by rewrite <- E|]. destruct Ho as [Ho|Ho]; [by apply Ho|by destruct (Ho _ O2)].
  - intros (n & Hn & K & S). exists (moved n). split; [by exists n|]. rewrite moved_exec by done. split; [done|].
    destruct (moved_or_open n Hn) as [->|[O1 O2]]; [by rewrite K|done|]. destruct Ho as [Ho|Ho]; [by apply Ho|by destruct (Ho _ O1)].
Qed.

Lemma some_failed_moved k : some_node (db_nodes db) k ["FAILED"] -> some_node nodes' k ["FAILED"].
Proof.
  intros (n & Hn & K & S). exists n. split; [|done]. apply elem_of_set_where. exists n. split; [done|].
  destruct (P n) eqn:E; [|done]. destruct (Hf n Hn E) as (_ & F & _). destruct F. by apply list_elem_of_singleton in S.
Qed.

Lemma dependencies_moved n : n ∈ db_nodes db -> (node_exec n ∉ D') -> dependencies_done nodes' n = true -> dependencies_done (db_nodes db) n = true.
Proof.
  intros Hn Hd. rewrite !dependencies_done_true. intros Hall d Hin. destruct (Hall d Hin) as [(y & Hy & Pl) Hst]. split.
  - apply elem_of_set_where in Hy as (p & Hp & ->). exists p. split; [done|]. fold (moved p) in Pl.
    by destruct (static_place _ _ (moved_static_of p Hp)) as [<- _].
  - intros p Hp Pp. assert (Ep : node_exec p = node_exec n) by (unfold node_place in Pp; unfold node_exec; congruence).
    assert (S : ne_Status (moved p) ∈ ["SUCCEEDED"; "SKIPPED"]).
    { apply Hst; [apply elem_of_set_where; by exists p|]. by destruct (static_place _ _ (moved_static_of p Hp)) as [-> _]. }
    destruct (moved_or_open p Hp) as [E|[_ O]]; [by rewrite Ep|by rewrite <- E|].
    apply open_cases in O. set_solver.
Qed.

Lemma settled_nodes : settled D' (db {{ db_nodes := nodes' }}).
Proof.
  assert (EM : forall y, y ∈ nodes' <-> exists n, n ∈ db_nodes db /\ y = moved n) by (intros; apply elem_of_set_where).
  constructor; cbn.
  - apply unique_set_where; [|apply Hdb]. intros x Hx Px. by apply static_place, Hf.
  - intros y (n & Hn & ->)%EM. unfold moved. destruct (P n) eqn:E; [by apply Hf|by apply (st_known D _ Hdb)].
  - intros y (n & Hn & ->)%EM E. rewrite moved_exec by done. apply some_failed_moved. unfold moved in E.
    destruct (P n) eqn:En; [by apply Hf|by apply (st_cancelled D _ Hdb)].
  - intros a y Ha (n & Hn & ->)%EM K. destruct (static_fields _ _ (moved_static_of n Hn)) as (_ & E & _).
    destruct (static_place _ _ (moved_static_of n Hn)) as [_ EK]. rewrite E. apply (st_linked D _ Hdb); [done..|congruence].
  - intros y (n & Hn & ->)%EM. rewrite moved_exec by done. intros Hd E.
    assert (En : moved n = n).
    { destruct (moved_or_open n Hn Hd) as [?|[_ O]]; [done|]. apply open_cases in O. tauto. }
    rewrite En in *. apply not_true_iff_false. intros F%dependencies_moved; [|done..].
    assert (Hd' : node_exec n ∉ D) by (by intros ?%HD). by rewrite (st_pending D _ Hdb n Hn Hd' E) in F.
  - intros e He Hd. assert (T : truthful (db_nodes db) (exec_key e) (ex_Status e)) by (apply (st_truthful D _ Hdb); [done|set_solver]).
    unfold truthful in *. rewrite (some_node_moved _ active_statuses), (some_node_moved _ ["FAILED"]); [done|done| |done|].
    + right. intros s O%open_cases. set_solver.
    + left. intros s. apply open_active.
Qed.

End Nodes.

(** ** Changes of the other tables *)

Lemma settled_executions D k status f db : settled (k :: D) db ->
  (forall e, exec_static (f e) = exec_static e /\ ex_Status (f e) = status) ->
  (forall n, n ∈ db_nodes db -> node_exec n = k -> ne_Status n = "PENDING" -> dependencies_done (db_nodes db) n = false) ->
  truthful (db_nodes db) k status ->
  settled D (db {{ db_executions := set_where (is_execution k.1 k.2) f (db_executions db) }}).
Proof.
  intros [K1 K2 K3 K4 K5 K6] Hf Hp Ht. constructor; cbn; try done.
  - intros n Hn Hd. destruct (decide (node_exec n = k)) as [E|E]; [by apply Hp|]. apply K5; set_solver.
  - intros y (e & He & ->)%elem_of_set_where. destruct (is_execution k.1 k.2 e) eqn:Ek.
    + destruct (Hf e) as [S ->]. assert (exec_key (f e) = k) as -> by
        (unfold is_execution in Ek; apply andb_true_iff in Ek as [E1%bool_decide_eq_true E2%bool_decide_eq_true];
         unfold exec_static in S; destruct k; unfold exec_key in *; cbn in *; congruence). done.
    + intros Hd. apply K6; [done|]. rewrite not_elem_of_cons. split; [|done]. intros <-.
      unfold is_execution, exec_key in Ek. cbn in Ek. by rewrite !bool_decide_true in Ek.
Qed.

(** An execution with work to do is set to a live status. *)
Lemma settled_touch k status f db : settled [] db -> status ∈ live_statuses ->
  (forall e, exec_static (f e) = exec_static e /\ ex_Status (f e) = status) ->
  some_node (db_nodes db) k active_statuses ->
  settled [] (db {{ db_executions := set_where (is_execution k.1 k.2) f (db_executions db) }}).
Proof.
  intros S Hs Hf A. destruct (existsb (is_execution k.1 k.2) (db_executions db)) eqn:E.
  - apply existsb_exists in E as (e & He & Ek). apply list_elem_of_In in He.
    apply (settled_executions [] k status); [eapply settled_mono; [|done]; set_solver|done|intros; apply (st_pending [] _ S); [done|apply not_elem_of_nil|done]|].
    right; right. split_and!; [done| |done].
    assert (T := st_truthful [] _ S e He (not_elem_of_nil _)). assert (exec_key e = k) as EK.
    { unfold is_execution in Ek. apply andb_true_iff in Ek as [E1%bool_decide_eq_true E2%bool_decide_eq_true].
      destruct k; unfold exec_key; cbn in *; congruence. }
    rewrite EK in T. destruct T as [(_ & _ & N)|[(_ & N & _)|(_ & N & _)]]; [by destruct N|done..].
  - assert (set_where (is_execution k.1 k.2) f (db_executions db) = db_executions db) as ->; [|by destruct db].
    rewrite <- (List.map_id (db_executions db)) at 2. apply List.map_ext_in. intros e He.
    destruct (is_execution k.1 k.2 e) eqn:Ek; [|done]. exfalso. apply not_true_iff_false in E. apply E, existsb_exists. by exists e.
Qed.

Lemma settled_approvals D P f db : (forall a, approval_static (f a) = approval_static a) -> settled D db ->
  settled D (db {{ db_approvals := set_where P f (db_approvals db) }}).
Proof.
  intros Hf [K1 K2 K3 K4 K5 K6]. constructor; cbn; try done.
  intros y n (a & Ha & ->)%elem_of_set_where Hn. specialize (Hf a). unfold approval_static, approval_key in Hf.
  destruct (P a); [|by apply K4]. injection Hf as E1 E2 E3 E4 E5 E6. rewrite E1, E3, E4. by apply K4.
Qed.

Lemma settled_new_approval D a db : (forall n, n ∈ db_nodes db -> node_key n = (apr_TenantID a, apr_NodeExecutionID a) ->
  ne_ExecutionID n = apr_ExecutionID a) -> settled D db -> settled D (db {{ db_approvals := db_approvals db ++ [a] }}).
Proof.
  intros Ha [K1 K2 K3 K4 K5 K6]. constructor; cbn; try done.
  intros x n [Hx|Hx%list_elem_of_singleton]%elem_of_app Hn; [by apply K4|subst; by apply Ha].
Qed.

Lemma settled_same D db db' : db_nodes db' = db_nodes db -> db_executions db' = db_executions db ->
  db_approvals db' = db_approvals db -> settled D db -> settled D db'.
Proof. intros E1 E2 E3 []. constructor; rewrite ?E1, ?E2, ?E3; assumption. Qed.

Section NewExecution.
Context `{JsonColumn} (actions : ActionCatalog).

(** A new execution has its roots ready and the other nodes waiting for them. *)
Lemma settled_new_execution db e spec rows : wf actions db -> new_execution actions db e spec rows -> settled [] db ->
  settled [] (db {{ db_executions := db_executions db ++ [e]; db_nodes := db_nodes db ++ rows }}).
Proof.
  intros W [NK _ Q So R Cov UK _] S.
  assert (New : forall n, n ∈ rows -> node_exec n = exec_key e /\ ne_Status n = if ne_DependsOn n == [] then "READY" else "PENDING").
  { intros n Hn. destruct (R n Hn) as (E1 & E2 & _ & _ & E3). split; [|done]. unfold node_exec. by rewrite E1, E2. }
  assert (Act : forall n, n ∈ rows -> ne_Status n ∈ ["PENDING"; "READY"]).
  { intros n Hn. destruct (New n Hn) as [_ ->]. destruct (_ == _); set_solver. }
  assert (Old : forall n, n ∈ db_nodes db -> node_exec n <> exec_key e).
  { intros n Hn E. destruct (wf_node_exec _ _ W n Hn) as (x & Hx & K). apply (NK x Hx). by rewrite K. }
  assert (Some_old : forall k statuses, k <> exec_key e ->
    some_node (db_nodes db ++ rows) k statuses <-> some_node (db_nodes db) k statuses).
  { intros k statuses Hk. split; intros (n & Hn & K & Hs); exists n; (split; [|done]).
    - apply elem_of_app in Hn as [Hn|Hn]; [done|]. destruct Hk. rewrite <- K. by apply New.
    - apply elem_of_app. by left. }
  assert (Nil : forall x : string * string, x ∉ []) by (intros x; apply not_elem_of_nil).
  constructor; cbn.
  - done.
  - intros n [Hn|Hn%Act]%elem_of_app; [by apply (st_known _ _ S)|]. unfold known_statuses, active_statuses. set_solver.
  - intros n [Hn|Hn%Act]%elem_of_app E; [|listed]. apply Some_old; [by apply Old|]. by apply (st_cancelled _ _ S).
  - intros a n Ha [Hn|Hn]%elem_of_app K; [by apply (st_linked _ _ S)|].
    destruct (wf_approval_linked _ _ W a Ha) as (m & _ & Hm & _ & Km & Xm & _).
    assert (n = m) as -> by (apply UK; [set_solver|set_solver|congruence]). done.
  - intros n [Hn|Hn]%elem_of_app _ E; apply not_true_iff_false; rewrite dependencies_done_true; intros All.
    + assert (F := st_pending _ _ S n Hn (Nil _) E). apply not_true_iff_false in F. apply F, dependencies_done_true.
      intros d Hd. destruct (All d Hd) as [(p & Hp & Pl) Hst]. split.
      * exists p. split; [|done]. apply elem_of_app in Hp as [Hp|Hp]; [done|]. destruct (Old n Hn).
        destruct (New p Hp) as [<- _]. unfold node_exec. unfold node_place in Pl. congruence.
      * intros q Hq. apply Hst. apply elem_of_app. by left.
    + destruct (New n Hn) as [_ En]. rewrite E in En. case_bool_decide as Ed; [done|].
      destruct (ne_DependsOn n) as [|d ds] eqn:Eds; [done|].
      destruct (All d) as [(p & Hp & Pl) Hst]; [rewrite ?Eds; by left|]. assert (Sp := Hst p Hp Pl).
      apply elem_of_app in Hp as [Hp|Hp%Act]; [|listed]. apply (Old p Hp). destruct (New n Hn) as [<- _].
      unfold node_exec. unfold node_place in Pl. congruence.
  - intros x [Hx|Hx%list_elem_of_singleton]%elem_of_app _.
    + assert (T := st_truthful _ _ S x Hx (Nil _)). unfold truthful in *. by rewrite !Some_old by (by apply NK).
    + subst x. right; right. split; [rewrite Q; unfold live_statuses; set_solver|]. split.
      * intros (n & [Hn|Hn%Act]%elem_of_app & K & Hs); [by destruct (Old n Hn)|]. unfold active_statuses in *. listed.
      * assert (C := sd_count _ _ So). destruct (spec_nodes spec) as [|nd nds] eqn:En; [cbn in C; lia|].
        destruct (Cov nd) as (n & Hn & _); [by left|]. exists n. split; [set_solver|].
        destruct (New n Hn) as [-> _]. split; [done|]. assert (A := Act n Hn). unfold active_statuses. clear -A. set_solver.
Qed.

End NewExecution.

(** * The transactions of the store settle what they unsettle

    A partial-correctness logic for the statements of one transaction
    ([hoare]): what holds after a successful run.  A failed transaction changes
    nothing, so that the tables are settled after every transaction. *)

Definition hoare {A} (I : SoarDb -> Prop) (m : Store A) (J : A -> SoarDb -> Prop) : Prop :=
  forall w a w', I (w_repo w) -> m w = (Ok a, w') -> J a (w_repo w').

(** ** Rules *)

Section Rules.
Implicit Types (I : SoarDb -> Prop).

Lemma hoare_bind {A B} I (m : Store A) (k : A -> Store B) J K :
  hoare I m J -> (forall a, hoare (J a) (k a) K) -> hoare I (bind m k) K.
Proof. intros Hm Hk w b w' HI E. apply bind_Ok in E as (a & w1 & E1 & E2). eapply Hk; [|exact E2]. by eapply Hm. Qed.

Lemma hoare_post {A} I (m : Store A) J J' : hoare I m J -> (forall a db, J a db -> J' a db) -> hoare I m J'.
Proof. intros Hm HJ w a w' HI E. by eapply HJ, Hm. Qed.

Lemma hoare_pre {A} I I' (m : Store A) J : hoare I m J -> (forall db, I' db -> I db) -> hoare I' m J.
Proof. intros Hm HI w a w' HI' E. eapply Hm; [|exact E]. by apply HI. Qed.

Lemma hoare_assume {A} (Q : Prop) I (m : Store A) J : (Q -> hoare I m J) -> hoare (fun db => Q /\ I db) m J.
Proof. intros Hm w a w' [HQ HI]. by apply Hm. Qed.

Lemma hoare_exists {A X} (I : X -> SoarDb -> Prop) (m : Store A) J : (forall x, hoare (I x) m J) ->
  hoare (fun db => exists x, I x db) m J.
Proof. intros Hm w a w' [x HI]. by eapply Hm. Qed.

Lemma hoare_ret {A} I (a : A) : hoare I (ret a) (fun x db => x = a /\ I db).
Proof. by intros w x w' HI [= <- <-]. Qed.

Lemma hoare_fail {A} I e (J : A -> SoarDb -> Prop) : hoare I (fail e) J.
Proof. by intros w x w' HI. Qed.

Lemma hoare_lift {A} I (o : outcome A) : hoare I (lift o) (fun _ db => I db).
Proof. intros w x w' HI E. by injection E as _ <-. Qed.

Lemma hoare_guard I b e : hoare I (guard b e) (fun _ db => I db).
Proof. intros w x w' HI E. unfold guard in E. destruct b; [by injection E as _ <-|done]. Qed.

Lemma hoare_Now I : hoare I Now (fun _ db => I db).
Proof. by intros w x w' HI [= <- <-]. Qed.

Lemma hoare_Random I : hoare I Random (fun _ db => I db).
Proof. by intros w x w' HI [= <- <-]. Qed.

Lemma hoare_select {A} I (f : SoarDb -> A) : hoare I (select f) (fun x db => x = f db /\ I db).
Proof. by intros w x w' HI [= <- <-]. Qed.

Lemma hoare_execute I (f : SoarDb -> SoarDb) J : (forall db, I db -> J (f db)) -> hoare I (execute f) (fun _ => J).
Proof. intros Hf w x w' HI [= <- <-]. by apply Hf. Qed.

Lemma hoare_if {A} I (b : bool) (m1 m2 : Store A) J :
  (b = true -> hoare I m1 J) -> (b = false -> hoare I m2 J) -> hoare I (if b then m1 else m2) J.
Proof. destruct b; auto. Qed.

Lemma hoare_forM {A} I (l : list A) (f : A -> Store unit) :
  (forall a, a ∈ l -> hoare I (f a) (fun _ => I)) -> hoare I (forM_ l f) (fun _ => I).
Proof.
  induction l as [|a l IH]; cbn [forM_]; intros Hf; [by intros w x w' HI [= <- <-]|].
  eapply hoare_bind; [apply Hf; by left|]. intros u. apply IH. intros x Hx. apply Hf. by right.
Qed.

Lemma hoare_wrapping {A} I c (m : Store A) J : hoare I m J -> hoare I (wrapping c m) J.
Proof. intros Hm w a w' HI E%wrapping_Ok. by eapply Hm. Qed.

Lemma hoare_update_returning {A} table put I (P : A -> bool) f (J : list A -> SoarDb -> Prop) :
  (forall db, I db -> J (List.map f (where_rows P (table db))) (put (set_where P f (table db)) db)) ->
  hoare I (update_returning table put P f) J.
Proof. intros Hf w x w' HI [= <- <-]. by apply Hf. Qed.

Lemma hoare_insert_row {A} table put I (clash : A -> bool) row J :
  (forall db, I db -> J (put (table db ++ [row]) db)) -> hoare I (insert_row table put clash row) (fun _ => J).
Proof. intros Hf w [] w' HI E%insert_row_Ok. destruct E as [_ ->]. by apply Hf. Qed.

End Rules.

(** ** What the statements do to settled tables *)

Section Statements.
Context `{JsonColumn} (actions : ActionCatalog).

Lemma open_known s : s ∈ open_statuses -> s ∈ known_statuses.
Proof. intros Hs%open_active. unfold known_statuses. apply elem_of_app. by left. Qed.

Lemma settled_promote t e D now db : settled ((t, e) :: D) db ->
  let db' := db {{ db_nodes ::= promote_rows t e now }} in
  settled ((t, e) :: D) db' /\
  forall n, n ∈ db_nodes db' -> node_exec n = (t, e) -> ne_Status n = "PENDING" -> dependencies_done (db_nodes db') n = false.
Proof.
  intros S. cbv zeta. set (P := fun candidate => is_node_of t e candidate && (ne_Status candidate == "PENDING") &&
               dependencies_done (db_nodes db) candidate).
  set (f := fun n => n {{ ne_Status := "READY"; ne_AvailableAt := now; ne_UpdatedAt := now }}).
  assert (HP : forall n, P n = true <-> node_exec n = (t, e) /\ ne_Status n = "PENDING" /\ dependencies_done (db_nodes db) n = true).
  { intros n. unfold P, node_exec. rewrite !andb_true_iff, is_node_of_true, bool_decide_eq_true.
    split; [by intros [[[-> ->] ?] ?]|by intros ([= -> ->] & ? & ?)]. }
  change (db {{ db_nodes ::= promote_rows t e now }}) with (db {{ db_nodes := set_where P f (db_nodes db) }}).
  split; [apply (settled_nodes _ ((t, e) :: D)); [|done|done]|].
  - intros n Hn (K & E & _)%HP. rewrite E. split_and!; [done..| | |left; rewrite K; by left].
    + apply open_known. unfold open_statuses, f. cbn. left.
    + by intros F.
  - intros y Hy K E. apply elem_of_set_where in Hy as (n & Hn & ->).
    destruct (P n) eqn:Pn; [done|]. apply not_true_iff_false. intros Dn. apply not_true_iff_false in Pn. apply Pn, HP.
    split_and!; [done..|]. rewrite dependencies_done_true in *. intros d Hd. destruct (Dn d Hd) as [(p & Hp & Pl) Hst]. split.
    + apply elem_of_set_where in Hp as (q & Hq & ->). exists q. split; [done|]. by destruct (P q).
    + intros q Hq Pl'. assert (Sp : ne_Status (if P q then f q else q) ∈ ["SUCCEEDED"; "SKIPPED"]).
      { apply Hst; [apply elem_of_set_where; by exists q|by destruct (P q)]. }
      destruct (P q) eqn:Pq; [|done]. unfold f in Sp. cbn in Sp. listed.
Qed.

Lemma settled_cancel t e D now db : settled ((t, e) :: D) db -> some_node (db_nodes db) (t, e) ["FAILED"] ->
  let db' := db {{ db_nodes ::= cancel_rows t e now }} in
  settled ((t, e) :: D) db' /\ some_node (db_nodes db') (t, e) ["FAILED"] /\ ~ some_node (db_nodes db') (t, e) active_statuses.
Proof.
  intros S F. cbv zeta. set (P := fun n => is_node_of t e n && (ne_Status n ∈? active_statuses)).
  set (f := fun n => n {{ ne_Status := "CANCELLED"; ne_LeaseOwner := ""; ne_LeaseUntil := None;
                   ne_CompletedAt := Some now; ne_UpdatedAt := now }}).
  assert (HP : forall n, P n = true <-> node_exec n = (t, e) /\ ne_Status n ∈ active_statuses).
  { intros n. unfold P, node_exec. rewrite andb_true_iff, is_node_of_true, bool_decide_eq_true.
    split; [by intros [[-> ->] ?]|by intros ([= -> ->] & ?)]. }
  change (db {{ db_nodes ::= cancel_rows t e now }}) with (db {{ db_nodes := set_where P f (db_nodes db) }}).
  split_and!; [apply (settled_nodes _ ((t, e) :: D)); [|done|done]|..].
  - intros n Hn (K & A)%HP. split_and!; [done| | |by rewrite K|left; rewrite K; by left].
    + intros E. rewrite E in A. unfold active_statuses in A. listed.
    + unfold known_statuses, active_statuses, f. cbn. set_solver.
  - destruct F as (n & Hn & K & E). exists n. split; [|done]. apply elem_of_set_where. exists n. split; [done|].
    destruct (P n) eqn:Pn; [|done]. apply HP in Pn as [_ A]. unfold active_statuses in A. listed.
  - intros (y & Hy & K & A). apply elem_of_set_where in Hy as (n & Hn & ->). destruct (P n) eqn:Pn.
    + unfold f, active_statuses in A. cbn in A. listed.
    + apply not_true_iff_false in Pn. by apply Pn, HP.
Qed.

Lemma hoare_promoteAndReconcile t e D now :
  hoare (settled ((t, e) :: D)) (promoteAndReconcileSOAR t e now) (fun _ => settled D).
Proof.
  set (Waiting := fun db => forall n, n ∈ db_nodes db -> node_exec n = (t, e) -> ne_Status n = "PENDING" ->
    dependencies_done (db_nodes db) n = false).
  unfold promoteAndReconcileSOAR. apply (hoare_bind _ _ _ (fun _ db => settled ((t, e) :: D) db /\ Waiting db)).
  { apply hoare_execute. intros db S. exact (settled_promote t e D now db S). }
  intros u.
  eapply hoare_bind; [apply hoare_select|]. intros [status completed]. cbv beta.
  apply (hoare_bind _ _ _ (fun _ db => settled ((t, e) :: D) db /\ truthful (db_nodes db) (t, e) status /\ Waiting db)).
  - apply hoare_if; intros Hs.
    + apply bool_decide_eq_true in Hs as ->. apply hoare_execute. intros db (Er & S & Pend).
      assert (F : some_node (db_nodes db) (t, e) ["FAILED"]).
      { destruct (reconciled_truthful t e (db_nodes db)) as [[_ F]|[N _]]; [done|]. by rewrite <- Er in N. }
      destruct (settled_cancel t e D now db S F) as (S' & F' & A'). split_and!; [done|left; done|].
      intros n Hn K E. destruct A'. exists n. split_and!; [done..|]. rewrite E. unfold active_statuses. left.
    + apply bool_decide_eq_false in Hs. eapply hoare_post; [apply hoare_ret|]. intros x db (_ & Er & S & Pend). split_and!; [done| |done].
      destruct (reconciled_truthful t e (db_nodes db)) as [[E F]|[_ T]]; rewrite <- Er in *; done.
  - intros u2. apply (hoare_bind _ _ _ (fun _ => settled D)).
    + apply hoare_update_returning. intros db (S & T & Pend). by apply (settled_executions D (t, e) status).
    + intros rows. apply hoare_if; intros _; [apply hoare_fail|]. eapply hoare_post; [apply hoare_ret|]. by intros x db [_ ?].
Qed.

Lemma hoare_promote_settled t e now : hoare (settled []) (promoteAndReconcileSOAR t e now) (fun _ => settled []).
Proof. eapply hoare_pre; [apply hoare_promoteAndReconcile|]. intros db S. eapply settled_mono; [|exact S]. set_solver. Qed.

(** An UPDATE of the leased row to an open status keeps the tables settled;
    to another it unsettles the execution whose identifier it returns. *)
Lemma leased_rows t i w db x : unique node_key (db_nodes db) -> x ∈ where_rows (is_leased t i w) (db_nodes db) ->
  forall n, n ∈ db_nodes db -> is_leased t i w n = true -> n = x.
Proof.
  intros U (L & Hx)%elem_of_where n Hn Ln. apply U; [done..|]. unfold is_leased in *.
  apply andb_true_iff in L as [[L _]%andb_true_iff _], Ln as [[Ln _]%andb_true_iff _].
  apply is_node_true in L, Ln. congruence.
Qed.

Lemma is_leased_status t i w n : is_leased t i w n = true -> ne_TenantID n = t /\ ne_Status n = "RUNNING".
Proof.
  unfold is_leased. rewrite !andb_true_iff, is_node_true, !bool_decide_eq_true. unfold node_key. intros [[K ?] _]. by injection K as ->.
Qed.

Lemma leased_change t i w f db D : settled [] db ->
  (forall n, node_static (f n) = node_static n /\ ne_Status (f n) ∈ known_statuses /\ ne_Status (f n) <> "CANCELLED" /\
             (D = [] -> ne_Status (f n) ∈ open_statuses)) ->
  (D = [] \/ forall n, n ∈ db_nodes db -> is_leased t i w n = true -> node_exec n ∈ D) ->
  settled D (db {{ db_nodes := set_where (is_leased t i w) f (db_nodes db) }}).
Proof.
  intros S Hf HD. apply (settled_nodes db []); [|set_solver|done]. intros n Hn L. destruct (Hf n) as (E1 & E2 & E3 & E4).
  apply is_leased_status in L as Ls. destruct Ls as [_ Es]. rewrite Es. split_and!; [done..|by intros|].
  destruct HD as [->|HD]; [right|left; by apply HD]. split; [unfold open_statuses; set_solver|by apply E4].
Qed.

Lemma hoare_update_leased t i w op f :
  (forall n, node_static (f n) = node_static n /\ ne_Status (f n) ∈ known_statuses /\ ne_Status (f n) <> "CANCELLED") ->
  hoare (settled []) (update_leased t i w op f) (fun executionID => settled [(t, executionID)]).
Proof.
  intros Hf. unfold update_leased. apply (hoare_bind _ _ _ (fun rows db => forall n, head rows = Some n -> settled [(t, ne_ExecutionID n)] db)).
  - apply hoare_update_returning. intros db S n E. destruct (where_rows _ _) as [|x l] eqn:W; [done|]. injection E as <-.
    assert (Hx : x ∈ where_rows (is_leased t i w) (db_nodes db)) by (rewrite W; left).
    assert (EX : ne_ExecutionID (f x) = ne_ExecutionID x) by (destruct (static_fields _ _ (proj1 (Hf x))) as (_ & E & _); exact E).
    rewrite EX. apply leased_change; [done| |right].
    + intros n. destruct (Hf n) as (? & ? & ?). done.
    + intros n Hn L. rewrite (leased_rows t i w db x (st_key _ _ S) Hx n Hn L) in L |- *.
      apply is_leased_status in L as [<- _]. unfold node_exec. left.
  - intros rows. destruct (head rows) as [n|]; [|apply hoare_fail]. eapply hoare_post; [apply hoare_ret|].
    intros x db [-> S]. by apply S.
Qed.

(** The row stays open: its execution has work to do. *)
Lemma hoare_release_leased t i w op f :
  (forall n, node_static (f n) = node_static n /\ ne_Status (f n) ∈ open_statuses) ->
  hoare (settled []) (update_leased t i w op f) (fun executionID db => settled [] db /\ some_node (db_nodes db) (t, executionID) active_statuses).
Proof.
  intros Hf. unfold update_leased. apply (hoare_bind _ _ _ (fun rows db => settled [] db /\ forall n, head rows = Some n ->
    some_node (db_nodes db) (t, ne_ExecutionID n) active_statuses)).
  - apply hoare_update_returning. intros db S. split.
    + apply leased_change; [done| |by left]. intros n. destruct (Hf n) as [E O]. split_and!; [done|by apply open_known|by destruct (open_cases _ O) as (_ & _ & ? & _)|done].
    + intros n E. destruct (where_rows _ _) as [|x l] eqn:W; [done|]. injection E as <-.
      assert (Hx : x ∈ where_rows (is_leased t i w) (db_nodes db)) by (rewrite W; left). apply elem_of_where in Hx as [L Hx].
      destruct (static_fields _ _ (proj1 (Hf x))) as (E1 & E2 & _). exists (f x). split.
      * cbn. apply elem_of_set_where. exists x. split; [done|]. by rewrite L.
      * apply is_leased_status in L as [<- _]. unfold node_exec. rewrite E1. split; [done|]. by apply open_active, Hf.
  - intros rows. destruct (head rows) as [n|]; [|apply hoare_fail]. eapply hoare_post; [apply hoare_ret|].
    intros x db (-> & S & A). split; [done|]. by apply A.
Qed.

Lemma hoare_touch_running t e now :
  hoare (fun db => settled [] db /\ some_node (db_nodes db) (t, e) active_statuses) (touch_running t e now) (fun _ => settled []).
Proof.
  unfold touch_running. eapply hoare_bind.
  - apply (hoare_update_returning _ _ _ _ _ (fun _ => settled [])). intros db [S A].
    apply (settled_touch (t, e) "RUNNING"); [done| |done|done]. unfold live_statuses. right. left.
  - intros rows. eapply hoare_post; [apply hoare_ret|]. by intros x db [_ S].
Qed.

Lemma hoare_set_waiting item status now : status ∈ open_statuses ->
  hoare (settled []) (set_waiting item status now) (fun _ => settled []).
Proof.
  intros Hs. apply hoare_update_returning. intros db S. apply leased_change; [done| |by left].
  intros n. split_and!; [done|by apply open_known|by destruct (open_cases _ Hs) as (_ & _ & ? & _)|done].
Qed.

(** The node of an approval fails: its execution is unsettled. *)
Lemma hoare_fail_waiting (I : SoarDb -> Prop) t i code detail now D :
  (forall db, I db -> settled D db /\ forall n, n ∈ db_nodes db -> node_key n = (t, i) -> node_exec n ∈ D) ->
  (forall db rows, I db -> settled D (db {{ db_nodes := rows }}) -> I (db {{ db_nodes := rows }})) ->
  hoare I (fail_waiting t i code detail now) (fun _ => I).
Proof.
  intros HI Hnodes. apply hoare_update_returning. intros db Hdb. destruct (HI db Hdb) as [S K]. apply Hnodes; [done|].
  apply (settled_nodes db D); [|done|done]. intros n Hn L. apply andb_true_iff in L as [L E].
  apply is_node_true in L. apply bool_decide_eq_true in E. rewrite E. split_and!; [done..| |by intros|left; by apply K].
  unfold known_statuses. apply elem_of_app. right. cbn. right. left.
Qed.

End Statements.

(** * The tables are settled after every call that runs alone

    The transactions that change node rows, one by one, and then every call of
    the store. *)

Section Settles.
Context `{JsonColumn} (actions : ActionCatalog).

Abbreviation wf := (wf actions).

Definition settles {A} (I : SoarDb -> Prop) (m : Store A) : Prop :=
  forall w, wf (w_repo w) -> I (w_repo w) -> settled [] (w_repo w) -> settled [] (w_repo (m w).2).

(** A statement outside of the tables of nodes, executions and approvals. *)
Definition quiet {A} (m : Store A) : Prop :=
  forall w, db_nodes (w_repo (m w).2) = db_nodes (w_repo w) /\ db_executions (w_repo (m w).2) = db_executions (w_repo w) /\
            db_approvals (w_repo (m w).2) = db_approvals (w_repo w).

Lemma quiet_bind {A B} (m : Store A) (k : A -> Store B) : quiet m -> (forall a, quiet (k a)) -> quiet (bind m k).
Proof.
  intros Hm Hk w. unfold bind. destruct (Hm w) as (E1 & E2 & E3). destruct (m w) as [[a|e|] w1]; cbn in *; [|done..].
  destruct (Hk a w1) as (-> & -> & ->). done.
Qed.

Lemma quiet_ret {A} (a : A) : quiet (ret a).
Proof. done. Qed.
Lemma quiet_fail {A} e : quiet (fail (A := A) e).
Proof. done. Qed.
Lemma quiet_lift {A} (o : outcome A) : quiet (lift o).
Proof. done. Qed.
Lemma quiet_guard b e : quiet (guard b e).
Proof. by destruct b. Qed.
Lemma quiet_Now : quiet Now.
Proof. done. Qed.
Lemma quiet_Random : quiet Random.
Proof. done. Qed.
Lemma quiet_select {A} (f : SoarDb -> A) : quiet (select f).
Proof. done. Qed.
Lemma quiet_execute f : (forall db, db_nodes (f db) = db_nodes db /\ db_executions (f db) = db_executions db /\
  db_approvals (f db) = db_approvals db) -> quiet (execute f).
Proof. intros Hf w. apply Hf. Qed.
Lemma quiet_insert_row {A} table put (clash : A -> bool) row :
  (forall rows db, db_nodes (put rows db) = db_nodes db /\ db_executions (put rows db) = db_executions db /\
     db_approvals (put rows db) = db_approvals db) -> quiet (insert_row table put clash row).
Proof. intros Hp. apply quiet_bind; [done|]. intros rows. destruct (existsb _ _); [done|]. by apply quiet_execute. Qed.
Lemma quiet_update {A} table put (P : A -> bool) f :
  (forall rows db, db_nodes (put rows db) = db_nodes db /\ db_executions (put rows db) = db_executions db /\
     db_approvals (put rows db) = db_approvals db) -> quiet (update_returning table put P f).
Proof. intros Hp. apply quiet_bind; [done|]. intros rows. apply quiet_bind; [by apply quiet_execute|done]. Qed.
Lemma quiet_wrapping {A} c (m : Store A) : quiet m -> quiet (wrapping c m).
Proof. intros Hm w. specialize (Hm w). unfold wrapping. by destruct (m w) as [[a|e|] w']. Qed.
Lemma quiet_transaction {A} (m : Store A) : quiet m -> quiet (transaction m).
Proof. intros Hm w. specialize (Hm w). unfold transaction. by destruct (m w) as [[a|e|] w']. Qed.
Lemma quiet_foldM {A B} (f : B -> A -> Store B) acc l : (forall b a, quiet (f b a)) -> quiet (foldM f acc l).
Proof. intros Hf. revert acc. induction l as [|a l IH]; intros acc; [done|]. apply quiet_bind; [apply Hf|done]. Qed.

(** Goes through the statements of a transaction. *)
Ltac quiet_steps := repeat first
  [ done
  | apply quiet_wrapping | apply quiet_transaction | apply quiet_guard
  | apply quiet_insert_row; intros; done | apply quiet_update; intros; done
  | apply quiet_foldM; intros | apply quiet_bind; [|intros]
  | match goal with
    | |- quiet (if ?b then _ else _) => destruct b
    | |- quiet (match ?x with _ => _ end) => destruct x
    end ].

Lemma quiet_settles {A} I (m : Store A) : quiet m -> settles I m.
Proof. intros Q w _ _ S. destruct (Q w) as (E1 & E2 & E3). by eapply settled_same. Qed.

Lemma settles_transaction {A} I (m : Store A) :
  hoare (fun db => wf db /\ I db /\ settled [] db) m (fun _ => settled []) -> settles I (transaction m).
Proof.
  intros Hm w W HI S. unfold transaction. destruct (m w) as [[a|e|] w'] eqn:E; cbn; [|done..]. by apply (Hm w a w').
Qed.

Lemma settles_then {A B} I (m : Store A) (k : A -> Store B) : settles I m -> (forall a, quiet (k a)) -> settles I (bind m k).
Proof.
  intros Hm Hk w W HI S. assert (S' := Hm w W HI S). unfold bind. destruct (m w) as [[a|e|] w']; cbn in *; [|done..].
  destruct (Hk a w') as (E1 & E2 & E3). by eapply settled_same.
Qed.

Lemma settles_lift {A B} I (o : outcome A) (k : A -> Store B) : (forall a, settles I (k a)) -> settles I (bind (lift o) k).
Proof. intros Hk w W HI S. unfold bind, lift. destruct o as [a|e|]; cbn; [by apply Hk|done..]. Qed.

Lemma settles_found {A} I (m : Store A) : settles I m -> settles I (found m).
Proof. intros Hm w W HI S. specialize (Hm w W HI S). unfold found. by destruct (m w) as [[a|e|] w']. Qed.

Lemma only_settled I db : wf db /\ I db /\ settled [] db -> settled [] db.
Proof. tauto. Qed.

(** ** Nodes under a lease *)

Lemma settles_finish I t i w op f :
  (forall now n, node_static (f now n) = node_static n /\ ne_Status (f now n) ∈ known_statuses /\ ne_Status (f now n) <> "CANCELLED") ->
  settles I (transaction (let! now := Now in let! executionID := update_leased t i w op (f now) in promoteAndReconcileSOAR t executionID now)).
Proof.
  intros Hf. apply settles_transaction. eapply hoare_pre; [|apply only_settled].
  eapply hoare_bind; [apply hoare_Now|]. intros now. eapply hoare_bind; [by apply hoare_update_leased|].
  intros e. apply hoare_promoteAndReconcile.
Qed.

Lemma settles_release I t i w op f :
  (forall now n, node_static (f now n) = node_static n /\ ne_Status (f now n) ∈ open_statuses) ->
  settles I (transaction (let! now := Now in let! executionID := update_leased t i w op (f now) in touch_running t executionID now)).
Proof.
  intros Hf. apply settles_transaction. eapply hoare_pre; [|apply only_settled].
  eapply hoare_bind; [apply hoare_Now|]. intros now. eapply hoare_bind; [by apply hoare_release_leased|].
  intros e. apply hoare_touch_running.
Qed.

Lemma settles_CompleteSOARNode I t i w output : settles I (CompleteSOARNode t i w output).
Proof.
  apply settles_lift. intros payload. apply settles_finish. intros now n. split_and!; [done| |done].
  by apply (bool_decide_eq_true_1 (_ ∈ known_statuses)).
Qed.

Lemma settles_FailSOARNode I t i w code detail : settles I (FailSOARNode t i w code detail).
Proof. apply settles_finish. intros now n. split_and!; [done| |done]. by apply (bool_decide_eq_true_1 (_ ∈ known_statuses)). Qed.

Lemma settles_DeferSOARNode I t i w at_ output : settles I (DeferSOARNode t i w at_ output).
Proof.
  apply settles_lift. intros payload. apply settles_release. intros now n. split; [done|].
  by apply (bool_decide_eq_true_1 (_ ∈ open_statuses)).
Qed.

Lemma settles_RetrySOARNode I t i w at_ code detail : settles I (RetrySOARNode t i w at_ code detail).
Proof. apply settles_release. intros now n. split; [done|]. by apply (bool_decide_eq_true_1 (_ ∈ open_statuses)). Qed.

Lemma settles_RequestSOARManualTask I item : settles I (RequestSOARManualTask item).
Proof.
  apply settles_transaction. eapply hoare_pre; [|apply only_settled]. eapply hoare_bind; [apply hoare_Now|]. intros now.
  eapply hoare_bind; [apply hoare_set_waiting; by apply (bool_decide_eq_true_1 (_ ∈ open_statuses))|].
  intros rows. apply hoare_if; intros _; [apply hoare_fail|apply hoare_promote_settled].
Qed.

Lemma quiet_GetSOARExecution t i : quiet (GetSOARExecution t i).
Proof. unfold GetSOARExecution, listSOARNodeExecutions. quiet_steps. Qed.

Lemma quiet_getSOARApproval t i : quiet (getSOARApproval t i).
Proof. unfold getSOARApproval, listSOARApprovalDecisions. quiet_steps. Qed.

Lemma settles_CompleteSOARManualTask I t e n output : settles I (CompleteSOARManualTask t e n output).
Proof.
  apply settles_lift. intros payload. apply settles_then; [|intros u; apply quiet_GetSOARExecution].
  apply settles_transaction. eapply hoare_pre; [|apply only_settled]. eapply hoare_bind; [apply hoare_Now|]. intros now.
  eapply hoare_bind.
  - apply (hoare_update_returning _ _ _ _ _ (fun _ => settled [(t, e)])). intros db S. apply (settled_nodes db []); [|set_solver|done].
    intros x Hx P. apply andb_true_iff in P as [P E]. apply bool_decide_eq_true in E. apply andb_true_iff in P as [P _].
    apply is_node_of_true in P as [<- <-]. rewrite E. split_and!; [done..| |by intros|left; by left].
    by apply (bool_decide_eq_true_1 (_ ∈ known_statuses)).
  - intros rows. apply hoare_if; intros _; [apply hoare_fail|apply hoare_promoteAndReconcile].
Qed.

(** ** Approvals *)

(** The node of the approval belongs to the execution [e]. *)
Definition belongs (t i e : string) (db : SoarDb) : Prop :=
  forall n, n ∈ db_nodes db -> node_key n = (t, i) -> node_exec n = (t, e).

Lemma linked_belongs D a db : settled D db -> a ∈ db_approvals db -> belongs (apr_TenantID a) (apr_NodeExecutionID a) (apr_ExecutionID a) db.
Proof.
  intros S Ha n Hn K. assert (L := st_linked _ _ S a n Ha Hn K). unfold node_exec. unfold node_key in K. congruence.
Qed.

(** An update of waiting nodes that keeps their place. *)
Lemma belongs_set_where t i e P f db : (forall n, node_static (f n) = node_static n) -> belongs t i e db ->
  belongs t i e (db {{ db_nodes := set_where P f (db_nodes db) }}).
Proof.
  intros Hf B y Hy K. apply elem_of_set_where in Hy as (n & Hn & ->). destruct (P n); [|by apply B].
  destruct (static_place _ _ (Hf n)) as [_ EK]. destruct (static_fields _ _ (Hf n)) as (E1 & E2 & _). unfold node_exec. rewrite E1, E2.
  apply B; [done|congruence].
Qed.

Definition is_waiting (t i : string) (n : SOARNodeExecution) : bool := is_node t i n && (ne_Status n == "WAITING_APPROVAL").

(** Closing an approval and resuming its node unsettles its execution only. *)
Lemma hoare_resume t i e f D : (t, e) ∈ D ->
  (forall n, node_static (f n) = node_static n /\ ne_Status (f n) ∈ ["SUCCEEDED"; "FAILED"]) ->
  hoare (fun db => settled D db /\ belongs t i e db) (update_nodes (is_waiting t i) f) (fun _ => settled D).
Proof.
  intros HD Hf. apply hoare_update_returning. intros db [S B]. apply (settled_nodes db D); [|done|done].
  intros n Hn P. apply andb_true_iff in P as [K E]. apply is_node_true in K. apply bool_decide_eq_true in E.
  destruct (Hf n) as [Es Ef]. rewrite E. split_and!; [done..| | |left; rewrite (B n); done].
  - unfold known_statuses. apply elem_of_app. right. set_solver.
  - intros C. rewrite C in Ef. listed.
Qed.

Lemma hoare_close t i a status now D : approval_key a = (t, i) ->
  hoare (fun db => settled D db /\ a ∈ db_approvals db)
    (update_approvals (is_approval t i) (fun a => a {{ apr_Status := status; apr_DecidedAt := Some now; apr_Version ::= Z.add 1 }}))
    (fun _ db => settled D db /\ belongs t (apr_NodeExecutionID a) (apr_ExecutionID a) db).
Proof.
  intros K. apply hoare_update_returning. intros db [S Ha]. split; [by apply settled_approvals|].
  assert (B := linked_belongs _ _ _ S Ha). unfold approval_key in K. injection K as <- <-. exact B.
Qed.

Lemma hoare_expire_approval t i a now : approval_key a = (t, i) ->
  hoare (fun db => settled [] db /\ a ∈ db_approvals db) (expire_approval t i a now) (fun _ => settled []).
Proof.
  intros K. unfold expire_approval. eapply hoare_bind; [by apply hoare_close|]. intros r.
  eapply (hoare_bind _ _ _ (fun _ => settled [(t, apr_ExecutionID a)])); [|intros; apply hoare_promoteAndReconcile].
  eapply hoare_pre; [apply (hoare_resume t (apr_NodeExecutionID a) (apr_ExecutionID a)); [by left|]|].
  - intros n. split; [done|]. right. left.
  - intros db [S B]. split; [|done]. eapply settled_mono; [|done]. set_solver.
Qed.

Lemma hoare_finalize_approval t i a status reason now : approval_key a = (t, i) ->
  hoare (fun db => settled [] db /\ a ∈ db_approvals db) (finalize_approval t i a status reason now) (fun _ => settled []).
Proof.
  intros K. unfold finalize_approval. eapply hoare_bind; [by apply hoare_close|]. intros r.
  apply (hoare_bind _ _ _ (fun _ => settled [(t, apr_ExecutionID a)])).
  - apply (hoare_pre (fun db => settled [(t, apr_ExecutionID a)] db /\ belongs t (apr_NodeExecutionID a) (apr_ExecutionID a) db)).
    2: { intros db [S B]. split; [|exact B]. eapply settled_mono; [|exact S]. set_solver. }
    apply hoare_if; intros _; (apply hoare_resume; [by left|]); intros n; (split; [done|]); [right; left|left].
  - intros rows. apply hoare_if; intros _; [apply hoare_fail|apply hoare_promoteAndReconcile].
Qed.

Lemma hoare_quiet {A} D (m : Store A) : quiet m -> hoare (settled D) m (fun _ => settled D).
Proof. intros Q w a w' S E. destruct (Q w) as (E1 & E2 & E3). rewrite E in *. by eapply settled_same. Qed.

Lemma quiet_appendAuditTx entry : quiet (appendAuditTx entry).
Proof.
  unfold appendAuditTx, insert_audit. apply quiet_bind; [apply quiet_execute; intros db; by destruct (_ !! _)|]. intros u.
  quiet_steps. all: by apply quiet_execute.
Qed.

Lemma quiet_insert_decision row : quiet (insert_decision row).
Proof. unfold insert_decision. quiet_steps. Qed.

Lemma hoare_quiet_held {A} D a (m : Store A) : quiet m ->
  hoare (fun db => settled D db /\ a ∈ db_approvals db) m (fun _ db => settled D db /\ a ∈ db_approvals db).
Proof. intros Q w x w' [S Ha] E. destruct (Q w) as (E1 & E2 & E3). rewrite E in *. cbn in *. split; [by eapply settled_same|by rewrite E3]. Qed.

Lemma hoare_bump_approval t i a :
  hoare (fun db => settled [] db /\ a ∈ db_approvals db) (update_approvals (is_approval t i) (fun a => a {{ apr_Version ::= Z.add 1 }}))
    (fun _ => settled []).
Proof. apply hoare_update_returning. intros db [S Ha]. by apply settled_approvals. Qed.

Lemma settles_DecideSOARApproval I t i approver command : settles I (DecideSOARApproval t i approver command).
Proof.
  unfold DecideSOARApproval. apply settles_then.
  2: { intros [|]; [apply quiet_getSOARApproval|apply quiet_fail]. }
  apply settles_transaction. eapply hoare_bind; [apply hoare_select|]. intros [a|]; [|apply hoare_fail].
  apply (hoare_pre (fun db => approval_key a = (t, i) /\ settled [] db /\ a ∈ db_approvals db)).
  2: { intros db (E & _ & _ & S). symmetry in E. apply first_row_Some in E as [K Ha]. split_and!; [by apply is_approval_true|done..]. }
  apply hoare_assume. intros K. eapply hoare_bind; [apply hoare_Now|]. intros now. cbv beta.
  apply hoare_if; intros _; [apply hoare_fail|]. apply hoare_if; intros _; [apply hoare_fail|].
  apply hoare_if; intros _.
  { eapply hoare_bind; [by apply hoare_expire_approval|]. intros u. apply hoare_quiet, quiet_ret. }
  apply hoare_if; intros _; [apply hoare_fail|].
  eapply hoare_bind; [apply hoare_quiet_held, quiet_insert_decision|]. intros inserted. cbv beta.
  apply hoare_if; intros _; [apply hoare_fail|].
  eapply hoare_bind; [apply hoare_quiet_held, quiet_select|]. intros approvals. cbv beta zeta.
  apply (hoare_bind _ _ _ (fun _ => settled [])).
  - apply hoare_if; intros _; [by apply hoare_finalize_approval|].
    eapply hoare_bind; [apply hoare_bump_approval|]. intros rows. apply hoare_quiet, quiet_ret.
  - intros u. apply hoare_quiet, quiet_bind; [apply quiet_wrapping, quiet_appendAuditTx|]. intros e. apply quiet_ret.
Qed.

Lemma settles_RequestSOARApproval I item risk required expires : settles I (RequestSOARApproval item risk required expires).
Proof.
  unfold RequestSOARApproval. apply settles_then; [|intros a; apply quiet_getSOARApproval].
  apply settles_transaction. eapply hoare_bind; [apply hoare_select|]. intros [locked|]; [|apply hoare_fail].
  apply (hoare_pre (fun db => settled [] db /\ (forall n, n ∈ db_nodes db ->
    node_key n = (ne_TenantID (wi_Node item), ne_ID (wi_Node item)) -> ne_ExecutionID n = ne_ExecutionID locked))).
  2: { intros db (E & W & _ & S). split; [done|]. symmetry in E. apply first_row_Some in E as [K Hl]. apply is_node_true in K.
       intros n Hn Kn. by rewrite (st_key _ _ S n locked Hn Hl) by congruence. }
  apply hoare_if; intros _; [apply hoare_fail|]. eapply hoare_bind; [apply hoare_Now|]. intros now.
  eapply hoare_bind; [apply hoare_Random|]. intros random. cbv beta.
  eapply (hoare_bind _ _ _ (fun _ => settled [])).
  { unfold insert_new_approval. apply hoare_wrapping. eapply hoare_bind; [apply hoare_guard|]. intros u. cbv beta.
    eapply hoare_bind; [apply hoare_select|]. intros conflict. cbv beta. apply hoare_if; intros _.
    - eapply hoare_post; [apply hoare_ret|]. by intros x db (_ & _ & S & _).
    - apply hoare_insert_row. intros db (_ & S & L). by apply settled_new_approval. }
  intros u. eapply hoare_bind; [apply hoare_quiet, quiet_select|]. intros [approval|]; [|apply hoare_fail].
  eapply hoare_bind; [apply hoare_set_waiting; by apply (bool_decide_eq_true_1 (_ ∈ open_statuses))|]. intros changed.
  apply hoare_if; intros _; [apply hoare_fail|]. eapply hoare_bind; [apply hoare_promote_settled|]. intros u2.
  apply hoare_quiet, quiet_ret.
Qed.

(** ** Expiry and claims *)

(** The execution a row of the expired approvals belongs to. *)
Definition apr_exec (a : SOARApproval) : string * string := (apr_TenantID a, apr_ExecutionID a).

Lemma hoare_fail_expired code detail now (expired : list SOARApproval) :
  hoare (fun db => settled (List.map apr_exec expired) db /\ expired ⊆ db_approvals db)
    (forM_ expired (fun a => do! fail_waiting (apr_TenantID a) (apr_NodeExecutionID a) code detail now in ret tt))
    (fun _ db => settled (List.map apr_exec expired) db /\ expired ⊆ db_approvals db).
Proof.
  apply hoare_forM. intros a Ha. apply (hoare_bind _ _ _ (fun _ db => settled (List.map apr_exec expired) db /\ expired ⊆ db_approvals db)).
  - apply (hoare_fail_waiting _ _ _ _ _ _ (List.map apr_exec expired)).
    + intros db [S Sub]. split; [done|]. intros n Hn K. rewrite (linked_belongs _ a db S (Sub a Ha) n Hn K).
      apply list_elem_of_In, in_map_iff. exists a. split; [done|]. by apply list_elem_of_In.
    + intros db rows [_ Sub] S. done.
  - intros rows. eapply hoare_post; [apply hoare_ret|]. by intros x db [_ ?].
Qed.

(** The executions are reconciled one after another. *)
Lemma hoare_reconcile_all now (l : list (string * (string * string))) :
  hoare (settled (List.map snd l)) (forM_ l (fun '(_, (tenantID, executionID)) => promoteAndReconcileSOAR tenantID executionID now))
    (fun _ => settled []).
Proof.
  induction l as [|[k [t e]] l IH]; cbn [forM_]; [by intros w a w' S [= <- <-]|].
  eapply hoare_bind; [apply hoare_promoteAndReconcile|]. intros u. exact IH.
Qed.

(** The map from "tenant|execution" to the pair forgets no execution. *)
Lemma every_execution_kept (expired : list SOARApproval) : (forall a, a ∈ expired -> no_bar (apr_TenantID a) = true) ->
  List.map apr_exec expired ⊆ List.map snd (map_to_list (M := gmap string (string * string)) (list_to_map (List.map (fun item =>
    (apr_TenantID item +:+ "|" +:+ apr_ExecutionID item, (apr_TenantID item, apr_ExecutionID item))) expired))).
Proof.
  intros NB k. rewrite !list_elem_of_In, !in_map_iff. intros (a & <- & Ha).
  set (key := fun item => apr_TenantID item +:+ "|" +:+ apr_ExecutionID item).
  set (l := List.map (fun item => (key item, apr_exec item)) expired).
  change (exists x, x.2 = apr_exec a /\ In x (map_to_list (M := gmap string (string * string)) (list_to_map l))).
  destruct (list_to_map (M := gmap string (string * string)) l !! key a) as [[t e]|] eqn:E.
  - exists (key a, (t, e)). split; [|by apply list_elem_of_In, elem_of_map_to_list].
    apply elem_of_list_to_map_2, list_elem_of_In, in_map_iff in E as (b & [= Ek <- <-] & Hb).
    apply list_elem_of_In in Ha, Hb. apply bar_key_inj in Ek as [E1 E2]; [|by apply NB..]. cbn. unfold apr_exec. by rewrite E1, E2.
  - apply not_elem_of_list_to_map in E. destruct E. apply list_elem_of_In, in_map_iff. exists (key a, apr_exec a). split; [done|].
    apply in_map_iff. by exists a.
Qed.

Lemma hoare_expireSOARApprovals now : hoare (fun db => wf db /\ settled [] db) (expireSOARApprovals now) (fun _ => settled []).
Proof.
  unfold expireSOARApprovals. apply (hoare_bind _ _ _ (fun expired db => (forall a, a ∈ expired -> no_bar (apr_TenantID a) = true) /\
    settled (List.map apr_exec expired) db /\ expired ⊆ db_approvals db)).
  - apply hoare_update_returning. intros db [W S].
    set (f := fun a => a {{ apr_Status := "EXPIRED"; apr_DecidedAt := Some now; apr_Version ::= Z.add 1 }}).
    assert (Mem : forall y, y ∈ List.map f (where_rows (is_overdue now) (db_approvals db)) ->
      exists a, a ∈ db_approvals db /\ is_overdue now a = true /\ y = f a).
    { intros y (a & <- & Ha)%list_elem_of_In%in_map_iff. apply list_elem_of_In, elem_of_where in Ha as [O Ha]. by exists a. }
    split_and!.
    + intros y (a & Ha & _ & ->)%Mem. destruct (wf_approval_linked _ _ W a Ha) as (n & e & _ & He & _ & _ & K & _).
      assert (N := wf_tenant _ _ W e He). unfold exec_key in K. injection K as K1 K2. cbn. by rewrite <- K1.
    + eapply (settled_mono []); [set_solver|]. by apply settled_approvals.
    + intros y (a & Ha & O & ->)%Mem. cbn. apply elem_of_set_where. exists a. split; [done|]. by rewrite O.
  - intros expired. apply hoare_assume. intros NB. eapply hoare_bind; [apply hoare_fail_expired|]. intros u. cbv beta zeta.
    eapply hoare_pre; [apply hoare_reconcile_all|]. intros db [S _]. eapply settled_mono; [|exact S]. by apply every_execution_kept.
Qed.

Lemma settles_ClaimSOARNode I w scope lease : settles I (ClaimSOARNode w scope lease).
Proof.
  unfold ClaimSOARNode. destruct (_ || _); [apply quiet_settles, quiet_fail|].
  apply settles_found, settles_transaction. eapply hoare_bind; [apply hoare_Now|]. intros now.
  eapply hoare_bind; [eapply hoare_pre; [apply hoare_expireSOARApprovals|tauto]|]. intros u.
  eapply hoare_bind; [apply hoare_select|]. intros [chosen|]; [|apply hoare_fail].
  apply (hoare_bind _ _ _ (fun rows db => settled [] db /\ forall n, head rows = Some n ->
    some_node (db_nodes db) (node_exec n) active_statuses)).
  - apply hoare_update_returning. intros db [E S]. symmetry in E. apply head_sorted_elem in E. apply elem_of_where in E as [C Hc].
    apply claimable_status in C. set (P := is_node _ _). set (f := fun n : SOARNodeExecution => _).
    assert (HP : forall n, n ∈ db_nodes db -> P n = true -> n = chosen).
    { intros n Hn Pn. apply is_node_true in Pn. by apply (st_key _ _ S). }
    split.
    + apply (settled_nodes db []); [|done|done]. intros n Hn Pn. rewrite (HP n Hn Pn). split_and!; [done| | |by intros|right; split].
      * intros E. rewrite E in C. listed.
      * by apply (bool_decide_eq_true_1 (_ ∈ known_statuses)).
      * unfold open_statuses. clear -C. set_solver.
      * by apply (bool_decide_eq_true_1 (_ ∈ open_statuses)).
    + intros n E. destruct (where_rows P (db_nodes db)) as [|x l] eqn:W; [done|]. injection E as <-.
      assert (Hx : x ∈ where_rows P (db_nodes db)) by (rewrite W; left). apply elem_of_where in Hx as [Px Hx].
      exists (f x). split_and!; [|done|by apply (bool_decide_eq_true_1 (_ ∈ active_statuses))].
      apply elem_of_set_where. exists x. split; [done|]. by rewrite Px.
  - intros rows. destruct (head rows) as [node|]; [|apply hoare_fail].
    eapply (hoare_bind _ _ _ (fun _ => settled [])).
    + apply hoare_update_returning. intros db [S A]. apply (settled_touch (node_exec node) "RUNNING"); [done| |done|by apply A].
      by apply (bool_decide_eq_true_1 (_ ∈ live_statuses)).
    + intros es. apply hoare_quiet. quiet_steps.
Qed.

Lemma settles_CreateSOARExecution e nodes : settles (fun db => published_fact db e nodes) (CreateSOARExecution e nodes).
Proof.
  intros w W F S. destruct (CreateSOARExecution_effect actions e nodes w W F) as [->|(e' & spec & rows & N & ->)]; [done|].
  by eapply settled_new_execution.
Qed.

(** ** Every call *)

(** A call that runs alone leaves settled tables settled. *)
Theorem handle_settles executor {A} (op : Op A) w : wf (w_repo w) -> requires actions (w_repo w) op ->
  settled [] (w_repo w) -> settled [] (w_repo (handle executor op w).2).
Proof.
  intros W R. revert w W R. change (settles (fun db => requires actions db op) (handle executor op)).
  destruct op; cbn [handle].
  all: try (apply quiet_settles; quiet_steps; fail).
  - apply quiet_settles. unfold CreateSOARPlaybook. apply quiet_transaction, quiet_bind.
    + intros w. set (m := insert_playbook _ playbook). assert (Q : quiet m) by (apply quiet_insert_row; done).
      specialize (Q w). by destruct (m w) as [[a|e|] w'].
    + intros u. unfold insert_version. quiet_steps.
  - apply quiet_settles. unfold SaveSOARValidation. destruct (vr_Valid report); quiet_steps.
  - apply settles_CreateSOARExecution.
  - apply settles_DecideSOARApproval.
  - apply settles_CompleteSOARManualTask.
  - apply settles_ClaimSOARNode.
  - apply settles_CompleteSOARNode.
  - apply settles_DeferSOARNode.
  - apply settles_RetrySOARNode.
  - apply settles_FailSOARNode.
  - apply settles_RequestSOARApproval.
  - apply settles_RequestSOARManualTask.
Qed.

End Settles.
