(* ===== verification/SoarProps.v ===== *)
(** * What the SOAR subsystem guarantees

    Whatever the interleaving of services, workers, lost replies and crashes:
    no dangerous action is executed without its approvals. *)

From S2P Require Import Prelude GoLang GoFormat Core MemoryStore Playbook PlaybookFacts PlaybookProps Sql AuditTable SoarModel SoarDb SoarRuntime.
From S2P Require Import SoarService SoarWorker SoarInvariant SoarChanges SoarOps SoarSystem SoarSafety.

(** The approvers are distinct people other than the initiator of the
    execution, each of whom approved the approval [a] of the execution. *)
Record approved_execution (db : SoarDb) (e : SOARExecution) (a : SOARApproval) (approvers : list string) : Prop := {
  ae_approval : a ∈ db_approvals db;
  ae_execution : exec_key e = (apr_TenantID a, apr_ExecutionID a);
  ae_status : apr_Status a = ApprovalStatusApproved;
  ae_distinct : NoDup approvers;
  ae_others : ex_TriggeredBy e ∉ approvers;
  ae_decided x : x ∈ approvers -> exists d, d ∈ db_decisions db /\
    dr_TenantID d = apr_TenantID a /\ dr_ApprovalID d = apr_ID a /\
    apd_Approver (dr_Decision d) = x /\ apd_Decision (dr_Decision d) = ApprovalDecisionApprove
}.

Section Guarantees.
Context `{JsonColumn} (actions : ActionCatalog).

(** ** Ancestors of an advanced node *)

Lemma unique_ids spec nd1 nd2 : sound actions spec -> nd1 ∈ spec_nodes spec -> nd2 ∈ spec_nodes spec ->
  nd_ID nd1 = nd_ID nd2 -> nd1 = nd2.
Proof.
  intros S H1 H2 E. by apply (NoDup_unique nd_ID (spec_nodes spec) (sd_unique _ _ S)).
Qed.

(** Every ancestor of an advanced node is a finished node of its execution. *)
Lemma ancestors_done db e spec : wf actions db -> e ∈ db_executions db -> sound actions spec ->
  (forall n, n ∈ db_nodes db -> exec_key e = (ne_TenantID n, ne_ExecutionID n) -> exists nd, nd ∈ spec_nodes spec /\ row_of nd n) ->
  forall id a, tc (dep_edge spec) id a -> forall n, n ∈ db_nodes db -> exec_key e = (ne_TenantID n, ne_ExecutionID n) ->
  ne_NodeID n = id -> advanced n ->
  exists p, p ∈ db_nodes db /\ exec_key e = (ne_TenantID p, ne_ExecutionID p) /\ ne_NodeID p = a /\ ne_Status p = "SUCCEEDED".
Proof.
  intros W He S R id a T. induction T as [x y E|x y z E _ IH]; intros n Hn K Hid A.
  all: destruct E as (nd & Hnd & Ex & Hy); destruct (R n Hn K) as (nd' & Hnd' & R1 & R2 & R3 & _).
  all: assert (nd' = nd) as -> by (apply (unique_ids spec); [done..|congruence]).
  all: rewrite <- R3 in Hy; destruct (wf_deps _ _ W n y Hn A Hy) as (p & Hp & Pl & Sp).
  all: unfold node_place in Pl; injection Pl as P1 P2 P3.
  - exists p. split_and!; [done|congruence|done|done].
  - apply (IH p); [done|congruence|done|]. left. by rewrite Sp.
Qed.

(** The approvals recorded for an approval row, as a list of approvers. *)
Definition approvers_of (db : SoarDb) (a : SOARApproval) : list string :=
  List.map (fun d => apd_Approver (dr_Decision d))
    (where_rows (fun d => is_decision_of (apr_TenantID a) (apr_ID a) d && (apd_Decision (dr_Decision d) == "APPROVE"))
       (db_decisions db)).

Lemma NoDup_filter_map {A K L} (k : A -> K) (g : A -> L) (P : A -> bool) l :
  (forall x y, P x = true -> P y = true -> g x = g y -> k x = k y) -> NoDup (List.map k l) ->
  NoDup (List.map g (where_rows P l)).
Proof.
  intros Hk. induction l as [|x l IH]; cbn; [constructor|]. rewrite NoDup_cons. intros [N ND].
  destruct (P x) eqn:Px; [|by apply IH]. cbn. apply NoDup_cons. split; [|by apply IH].
  intros (y & E & Hy)%list_elem_of_In%in_map_iff. apply list_elem_of_In, elem_of_where in Hy as [Py Hy].
  apply N. rewrite <- (Hk y x Py Px E). by apply list_elem_of_In, in_map, list_elem_of_In.
Qed.

Lemma approved_row db e a : wf actions db -> a ∈ db_approvals db -> e ∈ db_executions db ->
  exec_key e = (apr_TenantID a, apr_ExecutionID a) -> apr_Status a = ApprovalStatusApproved ->
  approved_execution db e a (approvers_of db a) /\ apr_RequiredApprovals a <= Z.of_nat (length (approvers_of db a)).
Proof.
  intros W Ha He K Hs.
  assert (Q : forall d, is_decision_of (apr_TenantID a) (apr_ID a) d && (apd_Decision (dr_Decision d) == "APPROVE") = true ->
    (dr_TenantID d, dr_ApprovalID d) = approval_key a /\ apd_Decision (dr_Decision d) = ApprovalDecisionApprove).
  { intros d. unfold is_decision_of, approval_key. rewrite !andb_true_iff, !bool_decide_eq_true. by intros [[-> ->] ->]. }
  assert (Mem : forall x, x ∈ approvers_of db a -> exists d, d ∈ db_decisions db /\
    (dr_TenantID d, dr_ApprovalID d) = approval_key a /\ apd_Decision (dr_Decision d) = ApprovalDecisionApprove /\
    apd_Approver (dr_Decision d) = x).
  { intros x (d & <- & Hd)%list_elem_of_In%in_map_iff. apply list_elem_of_In, elem_of_where in Hd as [Pd Hd].
    destruct (Q d Pd) as [? ?]. by exists d. }
  split; [constructor; try done|].
  - eapply (NoDup_filter_map decision_key); [|apply W]. intros x y Px Py E.
    destruct (Q x Px) as [Kx _], (Q y Py) as [Ky _]. unfold decision_key. congruence.
  - intros (d & Hd & Kd & _ & Ex)%Mem. destruct (wf_decision_other _ _ W d Hd) as (a' & Ha' & K' & N).
    assert (a' = a) as -> by (apply (wf_approval_key _ _ W); [done..|congruence]).
    destruct (wf_approval_linked _ _ W a Ha) as (n & e' & _ & He' & _ & _ & Ke' & Rq & _).
    assert (e' = e) as -> by (apply (wf_exec_key _ _ W); [done..|congruence]). congruence.
  - intros x (d & Hd & Kd & Dd & Ex)%Mem. exists d. unfold approval_key in Kd. by injection Kd as -> ->.
  - assert (C := wf_approval_count _ _ W a Ha Hs). unfold approvers_of. rewrite length_map. exact C.
Qed.

(** An advanced node of which the playbook demands an approval of [n] has it. *)
Lemma approval_demanded db e spec nd n row : wf actions db -> e ∈ db_executions db -> sound actions spec ->
  (forall n, n ∈ db_nodes db -> exec_key e = (ne_TenantID n, ne_ExecutionID n) -> exists nd, nd ∈ spec_nodes spec /\ row_of nd n) ->
  row ∈ db_nodes db -> exec_key e = (ne_TenantID row, ne_ExecutionID row) -> ne_NodeID row = nd_ID nd -> advanced row ->
  approved_by spec n (nd_ID nd) ->
  exists a approvers, approved_execution db e a approvers /\ n <= Z.of_nat (length approvers).
Proof.
  intros W He S R Hrow K Hid A (x & appr & count & T & Happr & Ex & Ty & C & Hc).
  destruct (ancestors_done db e spec W He S R _ _ T row Hrow K Hid A) as (p & Hp & Kp & Hpid & Sp).
  destruct (R p Hp Kp) as (nd' & Hnd' & R1 & R2 & R3 & R4).
  assert (nd' = appr) as -> by (apply (unique_ids spec); [done..|congruence]).
  destruct (wf_approval_node _ _ W p Hp) as (a & Ha & E1 & E2 & E3); [congruence|done|].
  destruct (wf_approval_linked _ _ W a Ha) as (m & e' & Hm & He' & Km & Xm & Ke' & Rq & Cm).
  assert (m = p) as -> by (apply (wf_node_key _ _ W); [done..|unfold node_key in *; congruence]).
  assert (Req : apr_RequiredApprovals a = count).
  { unfold configInt in Cm, C. rewrite R4 in Cm. congruence. }
  destruct (approved_row db e a) as [AE L]; [done..|congruence|done|].
  exists a, (approvers_of db a). split; [done|lia].
Qed.

(** ** Properties *)

(** C3. No interleaving of services, workers, broken connections and crashes
    hands an action of level 4, 5 or 6 to an executor before an approval of its
    execution was granted: by one person for level 4 and by two different
    people for levels 5 and 6, none of whom started the execution. *)
Theorem executed_actions_are_approved (s : System) (request : ActionRequest)
    (k : outcome ActionResult -> prog unit) (descriptor : ActionDescriptor)
    (Hreachable : reachable actions s) (Hpending : Perform (CallExecute request) k ∈ sys_threads s)
    (Haction : actions !! (configString (ne_Config (ar_Node request)) "action_type").1 = Some descriptor)
    (Hlevel : 4 <= ad_Level descriptor <= 6) :
  exists e a approvers, e ∈ db_executions (sys_db s) /\
    exec_key e = (ne_TenantID (ar_Node request), ne_ExecutionID (ar_Node request)) /\
    approved_execution (sys_db s) e a approvers /\
    required_approvals (ad_Level descriptor) <= Z.of_nat (length approvers).
Proof.
  destruct (reachable_ok actions s Hreachable) as [W F]. rewrite Forall_forall in F.
  destruct (F _ Hpending) as [[(n & Hn & S & P) Ty] _].
  destruct (static_fields _ _ S) as (E1 & E2 & E3 & E4 & E5 & E6 & E7).
  destruct (wf_node_exec _ _ W n Hn) as (e & He & K). destruct (wf_snapshot _ _ W e He) as (spec & So & R & _).
  destruct (R n Hn K) as (nd & Hnd & R1 & R2 & R3 & R4).
  assert (G : action_guarded spec nd descriptor).
  { apply (sd_actions _ _ So nd); [done|congruence|]. unfold configString in *. by rewrite <- R4, E5. }
  assert (Dem : forall m, approved_by spec m (nd_ID nd) -> exists a approvers,
    approved_execution (sys_db s) e a approvers /\ m <= Z.of_nat (length approvers)).
  { intros m. apply (approval_demanded (sys_db s) e spec nd m n W He So R Hn K R1). by right. }
  assert (exists a approvers, approved_execution (sys_db s) e a approvers /\
    required_approvals (ad_Level descriptor) <= Z.of_nat (length approvers)) as (a & approvers & AE & L).
  { unfold required_approvals. destruct (Z.eqb_spec (ad_Level descriptor) 4) as [L4|L4].
    - by apply Dem, (ag_approved _ _ _ G).
    - assert (L56 : ad_Level descriptor = 5 \/ ad_Level descriptor = 6) by lia.
      assert ((ad_Level descriptor =? 5) || (ad_Level descriptor =? 6) = true) as -> by
        (apply orb_true_iff; rewrite !Z.eqb_eq; lia).
      by apply Dem, (ag_four_eyes _ _ _ G). }
  exists e, a, approvers. split_and!; [done|congruence|done|done].
Qed.

End Guarantees.

(** * A playbook run step by step

    A scheduler that can be evaluated: it starts programs and gives them turns.
    The states it reaches are states of the system, and serve as the concrete
    inputs of the properties. *)

(** A column that gives back what it was given. *)
Definition plain_column : JsonColumn :=
  {| stored := fun o => o; stored_idemp := fun o => eq_refl; stored_empty := eq_refl; stored_nonempty := fun o E => E |}.
#[local] Existing Instance plain_column.

Definition start (p : prog unit) (s : System) : System :=
  {| sys_db := sys_db s; sys_threads := sys_threads s ++ [p] |}.

(** Random strings of their own for every turn. *)
Definition turn_runtime (tick : nat) : Runtime := steady_runtime {{ rt_draws := (8 * tick)%nat }}.

Definition turn (tick i : nat) (s : System) : System :=
  match sys_threads s !! i with
  | Some (Perform op k) =>
      let answer := handle SafeActionExecutor op (mkWorld (sys_db s) (turn_runtime tick)) in
      {| sys_db := w_repo answer.2; sys_threads := <[i := k answer.1]> (sys_threads s) |}
  | _ => s
  end.

Fixpoint turns (n tick i : nat) (s : System) : System :=
  match n with O => s | S n => turns n (S tick) i (turn tick i s) end.

(** Starts a program and gives it [n] turns. *)
Definition play (p : prog unit) (n tick : nat) (s : System) : System :=
  turns n tick (length (sys_threads s)) (start p s).

Section Reach.
Context (actions : ActionCatalog).

Lemma reachable_start p s : entry actions p -> reachable actions s -> reachable actions (start p s).
Proof. intros E R. eapply rtc_r; [exact R|]. destruct s. by apply step_start. Qed.

Lemma reachable_turn tick i s : reachable actions s -> reachable actions (turn tick i s).
Proof.
  intros R. unfold turn. destruct (sys_threads s !! i) as [[r|B op k]|] eqn:E; [done| |done].
  eapply rtc_r; [exact R|]. destruct s as [db threads]. cbn in *.
  rewrite (insert_take_drop _ _ _ (lookup_lt_Some _ _ _ E)). rewrite <- (take_drop_middle _ _ _ E) at 1. apply step_call.
Qed.

Lemma reachable_play p n tick s : entry actions p -> reachable actions s -> reachable actions (play p n tick s).
Proof.
  intros E R. unfold play. assert (R' := reachable_start p s E R). revert tick R'. generalize (start p s). intros s'.
  generalize (length (sys_threads s)). intros i. revert s'. induction n as [|n IH]; intros s' tick R'; [done|].
  by apply IH, reachable_turn.
Qed.

End Reach.

(** ** Disabling an account *)

Definition no_retry : SOARRetryPolicy := zero_SOARRetryPolicy.

Definition account_playbook : SOARPlaybookSpec := {|
  sp_SchemaVersion := "1.0"; sp_Trigger := {| tr_Type := "MANUAL" |};
  sp_Nodes := Some [
    {| nd_ID := "approve"; nd_Type := SOARNodeApproval; nd_Name := "Approve"; nd_DependsOn := []; nd_TimeoutSeconds := 0;
       nd_Retry := no_retry; nd_Config := Some {["required_approvals" := VInt 1]} |};
    {| nd_ID := "disable"; nd_Type := SOARNodeAction; nd_Name := "Disable the account"; nd_DependsOn := ["approve"];
       nd_TimeoutSeconds := 0; nd_Retry := no_retry;
       nd_Config := Some {["action_type" := VString "identity.disable_account"]} |} ] |}.

Definition catalog : ActionCatalog := DefaultActionCatalog.
Definition nothing : System := {| sys_db := empty_db; sys_threads := [] |}.

Definition playbook_id (s : System) : string := match db_playbooks (sys_db s) with p :: _ => pb_ID p | [] => "" end.
Definition approval_id (s : System) : string := match db_approvals (sys_db s) with a :: _ => apr_ID a | [] => "" end.

Definition draft : PlaybookDraft := {| pdr_Name := "Disable account"; pdr_Description := ""; pdr_Spec := account_playbook |}.
Definition worker : WorkerConfig := {| wc_ID := "worker"; wc_TenantID := ""; wc_PollInterval := 0; wc_Lease := 0 |}.

Definition created : System := play (discard (CreatePlaybook catalog "uni" "alice" draft)) 4 0 nothing.
Definition published : System := play (discard (PublishVersion catalog "uni" (playbook_id created) 1 "alice")) 4 4 created.
Definition started : System := play (discard (StartExecution "uni" "alice" {|
  er_PlaybookID := playbook_id published; er_RequestID := "request-1"; er_TriggerType := "manual";
  er_TriggerResourceType := ""; er_TriggerResourceID := ""; er_Context := None |})) 4 8 published.
Definition asked : System := play (discard (ProcessOne catalog (worker_config worker) None)) 3 12 started.
Definition decided : System := play (discard (DecideApproval "uni" (approval_id asked) "bob" {|
  adr_Decision := "APPROVE"; adr_Reason := "confirmed"; adr_Version := 1; adr_RequestID := "r2"; adr_CorrelationID := "";
  adr_ActorType := ""; adr_Source := None |})) 1 15 asked.
Definition acting : System := play (discard (ProcessOne catalog (worker_config worker) None)) 4 16 decided.

Lemma reachable_acting : reachable catalog acting.
Proof.
  unfold acting. apply reachable_play; [apply entry_worker|]. unfold decided. apply reachable_play; [apply entry_decide|].
  unfold asked. apply reachable_play; [apply entry_worker|]. unfold started. apply reachable_play; [by apply entry_start|].
  unfold published. apply reachable_play; [apply entry_publish|]. unfold created. apply reachable_play; [apply entry_create|].
  apply rtc_refl.
Qed.

(** The executor call a program is about to make. *)
Definition pending_request (p : prog unit) : option ActionRequest :=
  match p with
  | Perform op _ => match op with CallExecute request => Some request | _ => None end
  | _ => None
  end.

Lemma pending_request_Some p request : pending_request p = Some request -> exists k, p = Perform (CallExecute request) k.
Proof. destruct p as [r|B op k]; [done|]. destruct op; cbn; try done. intros [= ->]. by exists k. Qed.

(** The executor call the [i]-th program of the system is about to make. *)
Definition pending_at (s : System) (i : nat) : option ActionRequest :=
  match sys_threads s !! i with Some p => pending_request p | None => None end.

Lemma pending_at_Some s i request : pending_at s i = Some request -> exists k, Perform (CallExecute request) k ∈ sys_threads s.
Proof.
  unfold pending_at. destruct (sys_threads s !! i) as [p|] eqn:E; [|done].
  intros (k & ->)%pending_request_Some. exists k. by eapply list_elem_of_lookup_2.
Qed.

Definition disable_account : ActionDescriptor :=
  {| ad_Type := "identity.disable_account"; ad_Level := 4; ad_Reversible := true |}.

Lemma acting_requests : exists request, pending_at acting 5 = Some request /\
  catalog !! (configString (ne_Config (ar_Node request)) "action_type").1 = Some disable_account /\
  ne_NodeID (ar_Node request) = "disable".
Proof. eexists. split; [vm_compute; reflexivity|]. split; vm_compute; reflexivity. Qed.

Lemma executed_actions_are_approved_witness : exists request k e a approvers,
  Perform (CallExecute request) k ∈ sys_threads acting /\ ne_NodeID (ar_Node request) = "disable" /\
  e ∈ db_executions (sys_db acting) /\ approved_execution (sys_db acting) e a approvers /\
  1 <= Z.of_nat (length approvers).
Proof.
  destruct acting_requests as (request & E & D & N). destruct (pending_at_Some _ _ _ E) as [k Hk].
  destruct (executed_actions_are_approved catalog acting request k disable_account reachable_acting Hk D)
    as (e & a & approvers & He & _ & A & L); [split; vm_compute; discriminate|].
  exists request, k, e, a, approvers. exact (conj Hk (conj N (conj He (conj A L)))).
Defined.
