(* ===== verification/SoarProgress.v ===== *)
(** * What promotion and reconciliation make of an execution

    Whatever the tables were, after [promoteAndReconcileSOAR] the status of the
    execution agrees with its nodes, no pending node is left behind, and an
    execution that is not over has a node that somebody can act upon.  The
    statements of the call are taken to see no other transaction's changes;
    what happens when two overlap is in SoarIsolation.v. *)

From S2P Require Import Prelude GoLang GoFormat Core MemoryStore Playbook PlaybookFacts PlaybookProps.
From S2P Require Import Sql AuditTable SoarModel SoarDb SoarRuntime SoarService SoarWorker.
From S2P Require Import SoarInvariant SoarChanges SoarOps SoarSystem SoarSafety SoarCalm.
From S2P Require Import SoarProps.

Section Progress.
Context `{JsonColumn} (actions : ActionCatalog).

(** As long as the calls run one at a time, as the steps of a system do, the
    tables are settled between them. *)
Lemma step_settled s s' : step actions s s' -> system_ok actions s -> settled [] (sys_db s) -> settled [] (sys_db s').
Proof.
  intros St [W F] S. destruct St as [db threads p He|db l1 l2 B op k executor rt answer|db l1 l2 B op k executor rt e|db l1 l2 B op k e|
                                  db l1 l2 p|db threads locked]; cbn in *; try done.
  1, 2: apply Forall_app in F as [_ F]; apply Forall_cons in F as [[R _] _]; by apply (handle_settles actions executor op (mkWorld db rt)).
  by apply (settled_same [] db).
Qed.

Lemma settled_empty : settled [] empty_db.
Proof.
  constructor; cbn; unfold unique; intros; exfalso;
    match goal with K : _ ∈ [] |- _ => by apply not_elem_of_nil in K end.
Qed.

Lemma reachable_settled s : reachable actions s -> wf actions (sys_db s) /\ settled [] (sys_db s).
Proof.
  intros R. assert (O := reachable_ok actions s R). split; [by destruct O|].
  assert (Ind : forall s1, rtc (step actions) {| sys_db := empty_db; sys_threads := [] |} s1 -> settled [] (sys_db s1)); [|by apply Ind].
  apply (rtc_ind_r _); [apply settled_empty|]. intros x y Rx St Sx. eapply step_settled; [exact St| |done]. by apply reachable_ok.
Qed.

(** Following unfinished dependencies ends. *)
Lemma dep_edge_sn spec id : sound actions spec -> sn (dep_edge spec) id.
Proof.
  intros S. apply tc_finite_sn; [exact (sd_acyclic _ _ S)|].
  exists (List.map nd_ID (spec_nodes spec)). intros b T.
  induction T as [x y (nd & Hnd & _ & Hy)|x y z _ _ IH]; [|done]. by apply (proj2 (sd_deps _ _ S nd Hnd)).
Qed.

Lemma forallb_false {A} (g : A -> bool) l : forallb g l = false -> exists x, x ∈ l /\ g x = false.
Proof.
  induction l as [|x l IH]; cbn; [done|]. intros [E|E]%andb_false_iff; [exists x; split; [left|done]|].
  destruct (IH E) as (y & Hy & ?). exists y. split; [by right|done].
Qed.

(** A node that may not be promoted has a dependency that is missing or not done. *)
Lemma unfinished_dependency nodes n : dependencies_done nodes n = false -> exists d, d ∈ ne_DependsOn n /\
  ((forall p, p ∈ nodes -> node_place p <> (ne_TenantID n, ne_ExecutionID n, d)) \/
   exists p, p ∈ nodes /\ node_place p = (ne_TenantID n, ne_ExecutionID n, d) /\ ne_Status p ∉ ["SUCCEEDED"; "SKIPPED"]).
Proof.
  intros (d & Hd & E)%forallb_false. exists d. split; [done|].
  assert (Q : forall p, is_node_of (ne_TenantID n) (ne_ExecutionID n) p && (ne_NodeID p == d) = true <->
                        node_place p = (ne_TenantID n, ne_ExecutionID n, d)).
  { intros p. rewrite andb_true_iff, is_node_of_true, bool_decide_eq_true. unfold node_place. split; [by intros [[-> ->] ->]|by intros [= -> -> ->]]. }
  apply andb_false_iff in E as [E|(p & Hp & E)%forallb_false].
  - left. intros p Hp Pl. apply negb_false_iff, bool_decide_eq_true in E. apply (not_elem_of_nil p). rewrite <- E.
    apply elem_of_where. split; [by apply Q|done].
  - right. exists p. apply elem_of_where in Hp as [Pp Hp]. split_and!; [done|by apply Q|by apply bool_decide_eq_false in E].
Qed.

(** A pending node waits, in the end, for an open one. *)
Lemma open_node_behind D db e spec : settled D db -> (exec_key e ∉ D) -> e ∈ db_executions db -> sound actions spec ->
  (forall n, n ∈ db_nodes db -> exec_key e = node_exec n -> exists nd, nd ∈ spec_nodes spec /\ row_of nd n) ->
  (forall nd, nd ∈ spec_nodes spec -> exists n, n ∈ db_nodes db /\ exec_key e = node_exec n /\ ne_NodeID n = nd_ID nd) ->
  forall id, sn (dep_edge spec) id -> forall n, n ∈ db_nodes db -> exec_key e = node_exec n -> ne_NodeID n = id ->
  ne_Status n ∈ active_statuses -> some_node (db_nodes db) (exec_key e) open_statuses.
Proof.
  intros S ND He So R Cov id Sn. induction Sn as [id _ IH]. intros n Hn K Hid A.
  destruct (active_open _ A) as [P|O]; [|by exists n].
  assert (Live : ~ some_node (db_nodes db) (exec_key e) ["FAILED"]).
  { assert (Act : some_node (db_nodes db) (exec_key e) active_statuses) by (by exists n).
    destruct (st_truthful _ _ S e He ND) as [(_ & _ & N)|[(_ & N & _)|(_ & N & _)]]; [by destruct N|done..]. }
  assert (NDn : node_exec n ∉ D) by (by rewrite <- K).
  destruct (R n Hn K) as (nd & Hnd & R1 & _ & R3 & _).
  destruct (unfinished_dependency _ _ (st_pending _ _ S n Hn NDn P)) as (d & Hd & Hp).
  assert (Edge : dep_edge spec id d) by (exists nd; rewrite <- R3; split_and!; [done|congruence|done]).
  assert (In_spec : d ∈ List.map nd_ID (spec_nodes spec)) by (apply (proj2 (sd_deps _ _ So nd Hnd)); by rewrite <- R3).
  apply list_elem_of_In, in_map_iff in In_spec as (nd' & Ed & Hnd'). apply list_elem_of_In in Hnd'.
  destruct (Cov nd' Hnd') as (q & Hq & Kq & Iq).
  destruct Hp as [None_|(p & Hp & Pl & Sp)].
  - exfalso. apply (None_ q Hq). unfold node_place. unfold node_exec in *. congruence.
  - assert (Kp : exec_key e = node_exec p) by (rewrite K; unfold node_place in Pl; unfold node_exec; congruence).
    apply (IH d Edge p); [done|done|unfold node_place in Pl; congruence|].
    assert (Kn := st_known _ _ S p Hp). unfold known_statuses in Kn. apply elem_of_app in Kn as [?|Kn]; [done|].
    apply elem_of_cons in Kn as [Es|Kn]; [destruct Sp; rewrite Es; left|].
    apply elem_of_cons in Kn as [Es|Kn%list_elem_of_singleton].
    + destruct Live. exists p. split_and!; [done..|]. rewrite Es. left.
    + destruct Live. rewrite Kp. by apply (st_cancelled _ _ S).
Qed.

(** ** Properties *)

(** A node somebody can act upon: it waits for a decision or for an operator,
    or a worker can claim it, at any time from some time on. *)
Definition actionable (db : SoarDb) (n : SOARNodeExecution) : Prop :=
  ne_Status n = "WAITING_APPROVAL" \/ ne_Status n = "WAITING_MANUAL" \/
  exists since, forall now, since <= now -> claimable now "" (db {{ db_locked := [] }}) n = true.

Lemma open_actionable db e n : e ∈ db_executions db -> ex_Status e ∈ live_statuses -> n ∈ db_nodes db ->
  node_exec n = exec_key e -> ne_Status n ∈ open_statuses -> actionable db n.
Proof.
  intros He L Hn K O. unfold open_statuses in O. unfold actionable.
  assert (C : ne_Status n ∈ ["READY"; "RUNNING"] -> exists since, forall now, since <= now ->
    claimable now "" (db {{ db_locked := [] }}) n = true).
  { intros Rr. exists (Z.max (ne_AvailableAt n) (default 0 (ne_LeaseUntil n))). intros now Hnow. unfold claimable. cbn.
    rewrite andb_true_r. unfold node_exec, exec_key in K. injection K as K1 K2. repeat (apply andb_true_iff; split).
    - apply existsb_exists. exists e. split; [by apply list_elem_of_In|]. unfold is_execution. by rewrite K1, K2, !bool_decide_true by done.
    - done.
    - apply Z.leb_le. lia.
    - apply orb_true_iff. apply elem_of_cons in Rr as [->|Rr%list_elem_of_singleton]; [by left|right].
      rewrite Rr. apply andb_true_iff. split; [done|]. unfold lease_over. destruct (ne_LeaseUntil n); [|done]. apply Z.leb_le. cbn in Hnow. lia. }
  apply elem_of_cons in O as [O|O]; [right; right; apply C; rewrite O; left|].
  apply elem_of_cons in O as [O|O]; [right; right; apply C; rewrite O; right; left|].
  apply elem_of_cons in O as [O|O%list_elem_of_singleton]; [by left|by right; left].
Qed.

(** All executions but one may be in the midst of a change. *)
Definition others (k : string * string) (db : SoarDb) : list (string * string) :=
  List.filter (fun k' => negb (k' == k)) (List.map exec_key (db_executions db) ++ List.map node_exec (db_nodes db)).

Lemma elem_of_others k k' db : k' ∈ others k db <-> k' <> k /\ (k' ∈ List.map exec_key (db_executions db) ++ List.map node_exec (db_nodes db)).
Proof. unfold others. rewrite !list_elem_of_In, filter_In, negb_true_iff, bool_decide_eq_false. tauto. Qed.

Lemma settled_others k db : wf actions db -> (forall n, n ∈ db_nodes db -> ne_Status n ∈ known_statuses) ->
  (forall n, n ∈ db_nodes db -> ne_Status n = "CANCELLED" -> some_node (db_nodes db) (node_exec n) ["FAILED"]) ->
  settled (k :: others k db) db.
Proof.
  intros W Known Cancelled. constructor; try done.
  - apply W.
  - intros a n Ha Hn K. destruct (wf_approval_linked _ _ W a Ha) as (n' & e & Hn' & _ & K' & E & _).
    by rewrite (wf_node_key _ _ W n n' Hn Hn' ltac:(congruence)).
  - intros n Hn N. exfalso. apply N. rewrite elem_of_cons, elem_of_others, elem_of_app.
    destruct (decide (node_exec n = k)); [by left|right]. split; [done|]. right. by apply list_elem_of_In, in_map, list_elem_of_In.
  - intros e He N. exfalso. apply N. rewrite elem_of_cons, elem_of_others, elem_of_app.
    destruct (decide (exec_key e = k)); [by left|right]. split; [done|]. left. by apply list_elem_of_In, in_map, list_elem_of_In.
Qed.

(** The status says what the nodes are. *)
Definition tells_the_truth (status : string) (nodes : list SOARNodeExecution) : Prop :=
  (status = SOARExecutionSucceeded <-> forall n, n ∈ nodes -> ne_Status n = "SUCCEEDED") /\
  (status = SOARExecutionFailed <-> exists n, n ∈ nodes /\ ne_Status n = "FAILED") /\
  (status = SOARExecutionFailed -> forall n, n ∈ nodes -> ne_Status n ∈ ["SUCCEEDED"; "FAILED"; "CANCELLED"]) /\
  (status ∈ SOARExecutionSucceeded :: SOARExecutionFailed :: live_statuses).

Lemma elem_of_own e db n : n ∈ where_rows (is_node_of (ex_TenantID e) (ex_ID e)) (db_nodes db) <-> n ∈ db_nodes db /\ node_exec n = exec_key e.
Proof. rewrite elem_of_where, is_node_of_true. unfold node_exec, exec_key. split; [by intros [[-> ->] ?]|by intros [? [= -> ->]]]. Qed.

Lemma settled_truth D db e : settled D db -> (exec_key e ∉ D) -> e ∈ db_executions db ->
  tells_the_truth (ex_Status e) (where_rows (is_node_of (ex_TenantID e) (ex_ID e)) (db_nodes db)).
Proof.
  intros S ND He. unfold tells_the_truth. setoid_rewrite elem_of_own.
  assert (Over : ~ some_node (db_nodes db) (exec_key e) active_statuses -> forall n, n ∈ db_nodes db ->
    node_exec n = exec_key e -> ne_Status n ∈ ["SUCCEEDED"; "FAILED"; "CANCELLED"]).
  { intros N n Hn K. assert (Kn := st_known _ _ S n Hn). apply elem_of_app in Kn as [A|?]; [|done]. destruct N. by exists n. }
  assert (NF : ~ some_node (db_nodes db) (exec_key e) ["FAILED"] -> forall n, n ∈ db_nodes db ->
    node_exec n = exec_key e -> ne_Status n <> "FAILED" /\ ne_Status n <> "CANCELLED").
  { intros N n Hn K. split; intros E; destruct N; [exists n; by rewrite E, list_elem_of_singleton|].
    rewrite <- K. by apply (st_cancelled _ _ S). }
  destruct (st_truthful _ _ S e He ND) as [(-> & F & A)|[(-> & F & A)|(L & F & A)]].
  - destruct F as (m & Hm & Km & Fm%list_elem_of_singleton). split_and!; [..|set_solver].
    + split; [done|]. intros All. rewrite All in Fm by done. done.
    + split; [|done]. intros _. by exists m.
    + intros _ n [Hn K]. by apply Over.
  - split_and!; [..|set_solver].
    + split; [|done]. intros _ n [Hn K]. destruct (NF F n Hn K) as [N1 N2]. assert (O := Over A n Hn K). clear -O N1 N2. set_solver.
    + split; [done|]. intros (n & [Hn K] & E). by destruct (NF F n Hn K).
    + done.
  - assert (NL : ex_Status e <> SOARExecutionSucceeded /\ ex_Status e <> SOARExecutionFailed).
    { split; intros E; rewrite E in L; revert L; by apply (bool_decide_eq_false_1 (_ ∈ live_statuses)). }
    destruct A as (m & Hm & Km & Am). split_and!; [..|set_solver].
    + split; [by destruct NL|]. intros All. rewrite All in Am by done. unfold active_statuses in Am. listed.
    + split; [by destruct NL|]. intros (n & [Hn K] & E). by destruct (NF F n Hn K).
    + by destruct NL.
Qed.

(** The row of an execution that is reconciled. *)
Definition reconciled_row (now : Time) (r : string * bool) (e : SOARExecution) : SOARExecution :=
  e {{ ex_Status := r.1; ex_Version ::= Z.add 1; ex_UpdatedAt := now; ex_CompletedAt := if r.2 then Some now else None }}.

Lemma promoteAndReconcile_Ok t e now w w' : promoteAndReconcileSOAR t e now w = (Ok tt, w') ->
  w_repo w' = (w_repo w) {{ db_nodes ::= settle_rows t e now;
    db_executions ::= set_where (is_execution t e) (reconciled_row now (reconciled_status t e (promote_rows t e now (db_nodes (w_repo w))))) }} /\
  length (where_rows (is_execution t e) (db_executions (w_repo w))) = 1%nat.
Proof.
  destruct w as [db rt]. unfold promoteAndReconcileSOAR, update_executions, update_returning, bind, execute, select, on_repo, modify, gets, ret, fail, settle_rows.
  cbn -[reconciled_status promote_rows cancel_rows]. destruct (reconciled_status _ _ _) as [status completed]. cbn -[promote_rows cancel_rows].
  destruct (status == SOARExecutionFailed); cbn -[promote_rows cancel_rows]; rewrite List.length_map;
    (case_bool_decide as L; cbn; [|done]); intros [= <-]; (split; [done|by apply Nat2Z.inj]).
Qed.

(** Promotion and reconciliation change no other execution's nodes. *)
Lemma settle_rows_other t e now nodes n : node_exec n <> (t, e) -> n ∈ settle_rows t e now nodes <-> n ∈ nodes.
Proof.
  assert (Frame : forall P f rows, (forall x, P x = true -> node_exec x = (t, e) /\ node_exec (f x) = (t, e)) -> node_exec n <> (t, e) ->
    n ∈ set_where P f rows <-> n ∈ rows).
  { intros P f rows Hf N. rewrite elem_of_set_where. split.
    - intros (x & Hx & ->). destruct (P x) eqn:E; [|done]. by destruct N; apply Hf.
    - intros Hn. exists n. split; [done|]. destruct (P n) eqn:E; [|done]. by destruct N; apply Hf. }
  intros N. unfold settle_rows. cbv zeta.
  assert (Pr : n ∈ promote_rows t e now nodes <-> n ∈ nodes).
  { apply Frame; [|done]. intros x [[X _]%andb_true_iff _]%andb_true_iff. apply is_node_of_true in X as [<- <-]. done. }
  destruct (_ == _); [|done]. rewrite <- Pr. apply Frame; [|done].
  intros x [X _]%andb_true_iff. apply is_node_of_true in X as [<- <-]. done.
Qed.

Lemma promoteAndReconcile_wf t e now w w' : wf actions (w_repo w) -> promoteAndReconcileSOAR t e now w = (Ok tt, w') ->
  wf actions (w_repo w').
Proof.
  intros W E. destruct (triple_promoteAndReconcile actions always t e now w W I) as [C _]. rewrite E in C. by eapply changes_wf.
Qed.

(** C4. Promotion and reconciliation settle an execution.  Let the tables be well
    formed, whatever has happened to the nodes of the execution, with statuses
    the code writes and a cancelled node only beside a failed one.  If the call
    succeeds, then the execution exists and its status tells the truth: it is
    SUCCEEDED exactly when every node is, FAILED exactly when some node is, and
    then no node is left to run, and otherwise that of an execution that goes
    on.  No node is PENDING whose dependencies are done.  If some node is not
    over, one of them waits for a person, or can be claimed by a worker once its
    backoff or its lease has run out.  The nodes of other executions are as they
    were.  This is about the tables the statements of the call see: READ
    COMMITTED does not keep another transaction from changing them meanwhile. *)
Theorem reconciliation_settles_execution t e now (w w' : World SoarDb)
    (WF : wf actions (w_repo w))
    (KNOWN : forall n, n ∈ db_nodes (w_repo w) -> ne_Status n ∈ known_statuses)
    (STOPPED : forall n, n ∈ db_nodes (w_repo w) -> ne_Status n = "CANCELLED" ->
       some_node (db_nodes (w_repo w)) (node_exec n) ["FAILED"])
    (RUN : promoteAndReconcileSOAR t e now w = (Ok tt, w')) :
  let nodes := where_rows (is_node_of t e) (db_nodes (w_repo w')) in
  (exists x, x ∈ db_executions (w_repo w') /\ exec_key x = (t, e) /\ tells_the_truth (ex_Status x) nodes) /\
  (forall n, n ∈ nodes -> ne_Status n = "PENDING" -> dependencies_done (db_nodes (w_repo w')) n = false) /\
  ((exists n, n ∈ nodes /\ ne_Status n ∈ active_statuses) -> exists m, m ∈ nodes /\ actionable (w_repo w') m) /\
  (forall n, node_exec n <> (t, e) -> n ∈ db_nodes (w_repo w') <-> n ∈ db_nodes (w_repo w)).
Proof.
  set (D := others (t, e) (w_repo w)).
  assert (S : settled D (w_repo w')) by (eapply hoare_promoteAndReconcile; [by apply settled_others|exact RUN]).
  assert (W : wf actions (w_repo w')) by (by eapply promoteAndReconcile_wf).
  assert (ND : (t, e) ∉ D) by (unfold D; rewrite elem_of_others; tauto). clearbody D.
  apply promoteAndReconcile_Ok in RUN as [E L]. cbv zeta.
  assert (X : exists x, x ∈ db_executions (w_repo w') /\ exec_key x = (t, e)).
  { destruct (where_rows (is_execution t e) (db_executions (w_repo w))) as [|x l] eqn:Q; [done|]. clear L.
    assert (Hx : x ∈ where_rows (is_execution t e) (db_executions (w_repo w))) by (rewrite Q; left). apply elem_of_where in Hx as [Kx Hx].
    eexists (reconciled_row now _ x). split; [rewrite E; apply elem_of_set_where; exists x; by rewrite Kx|].
    apply andb_true_iff in Kx as [K1%bool_decide_eq_true K2%bool_decide_eq_true]. unfold exec_key. cbn. by rewrite K1, K2. }
  destruct X as (x & Hx & Kx). unfold exec_key in Kx. injection Kx as <- <-. change (ex_TenantID x, ex_ID x) with (exec_key x) in *.
  split_and!; [exists x; split_and!; [done..|by apply (settled_truth D)]| | |].
  - intros n [Hn K]%elem_of_own P. apply (st_pending D _ S); [done|by rewrite K|done].
  - setoid_rewrite elem_of_own. intros (n & [Hn K] & A). destruct (wf_snapshot _ _ W x Hx) as (spec & So & R & Cov).
    destruct (open_node_behind D (w_repo w') x spec S ND Hx So R Cov (ne_NodeID n) (dep_edge_sn _ _ So) n Hn) as (m & Hm & Km & Om); [done..|].
    exists m. split; [done|]. apply (open_actionable _ x); [done| |done..].
    destruct (st_truthful _ _ S x Hx ND) as [(_ & _ & N)|[(_ & _ & N)|(L' & _)]]; [by destruct N; exists n..|done].
  - intros n N. rewrite E. by apply settle_rows_other.
Qed.

End Progress.

(** ** The account playbook, while its action runs *)

#[local] Existing Instance plain_column.

Definition acting_world : World SoarDb := mkWorld (sys_db acting) steady_runtime.
Definition acting_execution : string :=
  match head (db_executions (sys_db acting)) with Some e => ex_ID e | None => "" end.

Lemma acting_reconciled : (promoteAndReconcileSOAR "uni" acting_execution 17 acting_world).1 = Ok tt.
Proof. vm_compute. reflexivity. Qed.

Lemma reconciliation_settles_execution_witness : exists w' x,
  promoteAndReconcileSOAR "uni" acting_execution 17 acting_world = (Ok tt, w') /\
  exec_key x = ("uni", acting_execution) /\
  tells_the_truth (ex_Status x) (where_rows (is_node_of "uni" acting_execution) (db_nodes (w_repo w'))).
Proof.
  destruct (reachable_settled catalog acting reachable_acting) as [W S].
  assert (E : promoteAndReconcileSOAR "uni" acting_execution 17 acting_world =
    (Ok tt, (promoteAndReconcileSOAR "uni" acting_execution 17 acting_world).2)) by (rewrite <- acting_reconciled; apply surjective_pairing).
  destruct (reconciliation_settles_execution catalog "uni" acting_execution 17 acting_world _ W (st_known _ _ S) (st_cancelled _ _ S) E)
    as ((x & _ & K & T) & _).
  exact (ex_intro _ _ (ex_intro _ x (conj E (conj K T)))).
Defined.
