(* ===== verification/SoarIsolation.v ===== *)
(** * Transactions of the SOAR store that overlap: READ COMMITTED

    [p.pool.Begin] asks for no isolation level, so PostgreSQL runs the
    transactions of [store/soar_runtime.go] at READ COMMITTED: a statement sees
    what was committed when it began and what its own transaction wrote; a row
    that a transaction updated is locked until the transaction ends.  Here the
    transactions that end a leased node are sequences of such statements.  Alone
    they do what [CompleteSOARNode] and [FailSOARNode] do in one step.  Two of
    them that overlap may each miss the other's node. *)

From S2P Require Import Prelude GoLang GoFormat Core TenantId MemoryStore Playbook PlaybookFacts PlaybookProps.
From S2P Require Import Sql AuditTable SoarModel SoarDb SoarRuntime SoarService SoarWorker.
From S2P Require Import SoarInvariant SoarChanges SoarOps SoarSystem SoarSafety SoarCalm SoarProps SoarProgress.

(** ** Statements and transactions *)

Abbreviation Nodes := (list SOARNodeExecution).

(** The rest of a transaction.  An UPDATE chooses its rows by what it sees of
    the table and hands on the rows it changed; a SELECT hands on the rows. *)
Inductive txn : Type :=
  | UpdateNodes (P : Nodes -> SOARNodeExecution -> bool) (f : SOARNodeExecution -> SOARNodeExecution) (k : Nodes -> txn)
  | UpdateExecutions (P : SOARExecution -> bool) (f : SOARExecution -> SOARExecution) (k : list SOARExecution -> txn)
  | SelectNodes (k : Nodes -> txn)
  | Commit
  | Rollback (e : error)
  | Over (answer : outcome unit).

(** The statements of [promoteAndReconcileSOAR], and the commit after it. *)
Definition promotion (tenantID executionID : string) (nodes : Nodes) (candidate : SOARNodeExecution) : bool :=
  is_node_of tenantID executionID candidate && (ne_Status candidate == "PENDING") && dependencies_done nodes candidate.

Definition promoted_row (now : Time) (n : SOARNodeExecution) : SOARNodeExecution :=
  n {{ ne_Status := "READY"; ne_AvailableAt := now; ne_UpdatedAt := now }}.

Definition cancelled_row (now : Time) (n : SOARNodeExecution) : SOARNodeExecution :=
  n {{ ne_Status := "CANCELLED"; ne_LeaseOwner := ""; ne_LeaseUntil := None; ne_CompletedAt := Some now; ne_UpdatedAt := now }}.

Definition reconcile_statement (tenantID executionID : string) (now : Time) (counts : string * bool) : txn :=
  UpdateExecutions (is_execution tenantID executionID) (reconciled_row now counts) (fun rows =>
    if Z.of_nat (length rows) != 1 then Rollback ErrNotFound else Commit).

Definition count_statement (tenantID executionID : string) (now : Time) : txn :=
  SelectNodes (fun nodes =>
    let counts := reconciled_status tenantID executionID nodes in
    if counts.1 == SOARExecutionFailed
    then UpdateNodes (fun _ n => is_node_of tenantID executionID n && (ne_Status n ∈? active_statuses)) (cancelled_row now)
           (fun _ => reconcile_statement tenantID executionID now counts)
    else reconcile_statement tenantID executionID now counts).

Definition promoteAndReconcile_statements (tenantID executionID : string) (now : Time) : txn :=
  UpdateNodes (promotion tenantID executionID) (promoted_row now) (fun _ => count_statement tenantID executionID now).

(** The transaction that ends a leased node. *)
Definition finish_statements (tenantID nodeExecutionID workerID operation : string) (now : Time)
    (f : SOARNodeExecution -> SOARNodeExecution) : txn :=
  UpdateNodes (fun _ => is_leased tenantID nodeExecutionID workerID) f (fun rows =>
    match head rows with
    | None => Rollback (leasedSOARTransitionError operation)
    | Some n => promoteAndReconcile_statements tenantID (ne_ExecutionID n) now
    end).

Definition completed_row (now : Time) (payload : JsonObject) (n : SOARNodeExecution) : SOARNodeExecution :=
  n {{ ne_Status := "SUCCEEDED"; ne_Output := Some payload; ne_ErrorCode := ""; ne_ErrorDetail := "";
       ne_LeaseOwner := ""; ne_LeaseUntil := None; ne_CompletedAt := Some now; ne_UpdatedAt := now }}.

Definition failed_row (now : Time) (code detail : string) (n : SOARNodeExecution) : SOARNodeExecution :=
  n {{ ne_Status := "FAILED"; ne_ErrorCode := TrimSpace code; ne_ErrorDetail := TrimSpace detail;
       ne_LeaseOwner := ""; ne_LeaseUntil := None; ne_CompletedAt := Some now; ne_UpdatedAt := now }}.

Definition complete_statements (tenantID nodeExecutionID workerID : string) (payload : JsonObject) (now : Time) : txn :=
  finish_statements tenantID nodeExecutionID workerID "complete" now (completed_row now payload).

Definition fail_statements (tenantID nodeExecutionID workerID code detail : string) (now : Time) : txn :=
  finish_statements tenantID nodeExecutionID workerID "fail" now (failed_row now code detail).

(** ** Transactions in progress *)

(** The rows a transaction has written and not committed, by their place in the
    table; they are its locks as well. *)
Record Session : Type := {
  se_rest : txn;
  se_nodes : gmap nat SOARNodeExecution;
  se_executions : gmap nat SOARExecution
}.

Definition begin (t : txn) : Session := {| se_rest := t; se_nodes := ∅; se_executions := ∅ |}.

(** The committed tables and the sessions. *)
Record Server : Type := { sv_db : SoarDb; sv_sessions : list Session }.

(** What a transaction sees: the committed rows, under its own. *)
Definition overlay {A} (own : gmap nat A) (rows : list A) : list A := imap (fun i row => default row (own !! i)) rows.

(** The rows of the view that an UPDATE changes. *)
Definition hits {A} (P : A -> bool) (f : A -> A) (view : list A) : gmap nat A :=
  omap (fun row => if P row then Some (f row) else None) (map_seq (M := gmap nat A) 0 view).

(** Some row it changes is locked by another session: the UPDATE waits. *)
Definition must_wait {A} (locks : Session -> gmap nat A) (i : nat) (rows : gmap nat A) (sessions : list Session) : bool :=
  existsb (fun j => negb (j =? i)%nat &&
    match sessions !! j with Some s => negb (filter (fun kv => is_Some (rows !! kv.1)) (locks s) == ∅) | None => false end)
    (seq 0 (length sessions)).

(** The next statement of the [i]-th session; [None] if it must wait, or the
    transaction is over.  A statement that waited sees what is committed when it
    goes on (PostgreSQL checks only the locked row again, so it misses more). *)
Definition advance (i : nat) (sv : Server) : option Server :=
  s ← sv_sessions sv !! i;
  let nodes := overlay (se_nodes s) (db_nodes (sv_db sv)) in
  let executions := overlay (se_executions s) (db_executions (sv_db sv)) in
  let continue := fun s' => Some {| sv_db := sv_db sv; sv_sessions := <[i := s']> (sv_sessions sv) |} in
  match se_rest s with
  | UpdateNodes P f k =>
      let rows := hits (P nodes) f nodes in
      if must_wait se_nodes i rows (sv_sessions sv) then None
      else continue {| se_rest := k (List.map f (where_rows (P nodes) nodes));
                       se_nodes := rows ∪ se_nodes s; se_executions := se_executions s |}
  | UpdateExecutions P f k =>
      let rows := hits P f executions in
      if must_wait se_executions i rows (sv_sessions sv) then None
      else continue {| se_rest := k (List.map f (where_rows P executions));
                       se_nodes := se_nodes s; se_executions := rows ∪ se_executions s |}
  | SelectNodes k => continue {| se_rest := k nodes; se_nodes := se_nodes s; se_executions := se_executions s |}
  | Commit => Some {| sv_db := (sv_db sv) {{ db_nodes := nodes; db_executions := executions }};
                      sv_sessions := <[i := begin (Over (Ok tt))]> (sv_sessions sv) |}
  | Rollback e => continue (begin (Over (Err e)))
  | Over _ => None
  end.

(** The statements of the sessions in an order: whose is next. *)
Fixpoint interleave (order : list nat) (sv : Server) : option Server :=
  match order with
  | [] => Some sv
  | i :: order => sv' ← advance i sv; interleave order sv'
  end.

(** ** Views *)

Section Views.
Context {A : Type}.
Implicit Types (own : gmap nat A) (rows : list A) (P : A -> bool) (f : A -> A).

Lemma lookup_overlay own rows i : overlay own rows !! i = (fun row => default row (own !! i)) <$> rows !! i.
Proof. apply list_lookup_imap. Qed.

Lemma lookup_hits P f rows i : hits P f rows !! i = (row ← rows !! i; if P row then Some (f row) else None).
Proof. unfold hits. by rewrite lookup_omap, lookup_map_seq_0. Qed.

Lemma overlay_empty rows : overlay ∅ rows = rows.
Proof. apply list_eq. intros i. rewrite lookup_overlay, lookup_empty. by destruct (rows !! i). Qed.

Lemma overlay_singleton j row rows : overlay {[j := row]} rows = <[j := row]> rows.
Proof.
  apply list_eq. intros i. rewrite lookup_overlay. destruct (decide (i = j)) as [->|N].
  - rewrite lookup_singleton_eq. destruct (rows !! j) eqn:E; cbn.
    + rewrite list_lookup_insert_eq; [done|]. by eapply lookup_lt_Some.
    + symmetry. apply lookup_ge_None. rewrite length_insert. by apply lookup_ge_None.
  - rewrite lookup_singleton_ne, list_lookup_insert_ne by done. by destruct (rows !! i).
Qed.

Lemma lookup_set_where P f rows i : set_where P f rows !! i = (fun row => if P row then f row else row) <$> rows !! i.
Proof. apply list_lookup_fmap. Qed.

Lemma overlay_hits P f own rows : overlay (hits P f (overlay own rows) ∪ own) rows = set_where P f (overlay own rows).
Proof.
  apply list_eq. intros i. rewrite lookup_overlay, lookup_set_where, lookup_union, lookup_hits, lookup_overlay.
  destruct (rows !! i) as [row|]; cbn; [|done]. destruct (P _); cbn; [by destruct (own !! i)|]. by destruct (own !! i).
Qed.

Lemma hits_none P f rows : (forall row, row ∈ rows -> P row = false) -> hits P f rows = ∅ /\ where_rows P rows = [] /\ set_where P f rows = rows.
Proof.
  intros N. split_and!.
  - apply map_empty. intros i. rewrite lookup_hits. destruct (rows !! i) as [row|] eqn:E; cbn; [|done].
    by rewrite (N row (list_elem_of_lookup_2 _ _ _ E)).
  - induction rows as [|row rows IH]; [done|]. unfold where_rows in *. cbn. rewrite (N row) by left. apply IH. intros; apply N; by right.
  - apply list_eq. intros i. rewrite lookup_set_where. destruct (rows !! i) as [row|] eqn:E; cbn; [|done].
    by rewrite (N row (list_elem_of_lookup_2 _ _ _ E)).
Qed.

(** An UPDATE that changes the row at one place. *)
Lemma hits_one P f rows j row : rows !! j = Some row -> P row = true -> (forall i x, rows !! i = Some x -> P x = true -> i = j) ->
  hits P f rows = {[j := f row]} /\ where_rows P rows = [row].
Proof.
  intros L H U. split.
  - apply map_eq. intros i. rewrite lookup_hits. destruct (decide (i = j)) as [->|N].
    + by rewrite L, lookup_singleton_eq; cbn; rewrite H.
    + rewrite lookup_singleton_ne by done. destruct (rows !! i) as [x|] eqn:E; cbn; [|done].
      destruct (P x) eqn:Px; [|done]. by destruct N; eapply U.
  - assert (N : forall i x, rows !! i = Some x -> i <> j -> P x = false).
    { intros i x E N. apply not_true_iff_false. intros Px. by destruct N; eapply U. }
    assert (Split : rows = take j rows ++ row :: drop (S j) rows) by (symmetry; by apply take_drop_middle).
    assert (Lt := lookup_lt_Some _ _ _ L).
    destruct (hits_none P f (take j rows)) as (_ & E1 & _).
    { intros x (i & Hi)%list_elem_of_lookup_1. apply lookup_take_Some in Hi as [Hi ?]. eapply N; [exact Hi|lia]. }
    destruct (hits_none P f (drop (S j) rows)) as (_ & E2 & _).
    { intros x (i & Hi)%list_elem_of_lookup_1. rewrite lookup_drop in Hi. eapply N; [exact Hi|lia]. }
    rewrite Split at 1. unfold where_rows in *. rewrite List.filter_app. cbn. by rewrite H, E1, E2.
Qed.

End Views.

(** ** A transaction alone *)

(** What a transaction makes of the tables if nothing else runs. *)
Fixpoint sequentially (t : txn) (start db : SoarDb) : outcome unit * SoarDb :=
  match t with
  | UpdateNodes P f k => let nodes := db_nodes db in
      sequentially (k (List.map f (where_rows (P nodes) nodes))) start (db {{ db_nodes := set_where (P nodes) f nodes }})
  | UpdateExecutions P f k => let executions := db_executions db in
      sequentially (k (List.map f (where_rows P executions))) start (db {{ db_executions := set_where P f executions }})
  | SelectNodes k => sequentially (k (db_nodes db)) start db
  | Commit => (Ok tt, db)
  | Rollback e => (Err e, start)
  | Over answer => (answer, start)
  end.

(** The committed tables as a session sees them. *)
Definition view (s : Session) (db : SoarDb) : SoarDb :=
  db {{ db_nodes := overlay (se_nodes s) (db_nodes db); db_executions := overlay (se_executions s) (db_executions db) }}.

(** A session with the same rows at another statement. *)
Definition at_statement (s : Session) (t : txn) : Session :=
  {| se_rest := t; se_nodes := se_nodes s; se_executions := se_executions s |}.

Definition wrote_nodes (rows : gmap nat SOARNodeExecution) (s : Session) : Session :=
  {| se_rest := se_rest s; se_nodes := rows ∪ se_nodes s; se_executions := se_executions s |}.

Definition wrote_executions (rows : gmap nat SOARExecution) (s : Session) : Session :=
  {| se_rest := se_rest s; se_nodes := se_nodes s; se_executions := rows ∪ se_executions s |}.

Lemma view_wrote_nodes P f s db (nodes := db_nodes (view s db)) :
  view (wrote_nodes (hits P f nodes) s) db = (view s db) {{ db_nodes := set_where P f nodes }}.
Proof.
  unfold nodes. change (db_nodes (view s db)) with (overlay (se_nodes s) (db_nodes db)). unfold view, wrote_nodes.
  cbn [se_nodes se_executions]. by rewrite overlay_hits.
Qed.

Lemma view_wrote_executions P f s db (executions := db_executions (view s db)) :
  view (wrote_executions (hits P f executions) s) db = (view s db) {{ db_executions := set_where P f executions }}.
Proof.
  unfold executions. change (db_executions (view s db)) with (overlay (se_executions s) (db_executions db)). unfold view, wrote_executions.
  cbn [se_nodes se_executions]. by rewrite overlay_hits.
Qed.

Section Advance.
Context (i : nat) (db : SoarDb) (sessions : list Session) (s : Session) (S : sessions !! i = Some s).

Lemma advance_nodes P f k (nodes := db_nodes (view s db)) : se_rest s = UpdateNodes P f k ->
  must_wait se_nodes i (hits (P nodes) f nodes) sessions = false ->
  advance i {| sv_db := db; sv_sessions := sessions |} = Some {| sv_db := db; sv_sessions :=
    <[i := wrote_nodes (hits (P nodes) f nodes) (at_statement s (k (List.map f (where_rows (P nodes) nodes))))]> sessions |}.
Proof.
  intros R W. unfold advance. cbn [sv_sessions]. rewrite S. cbn [mbind option_bind]. rewrite R. cbv zeta. cbn [sv_db].
  change (overlay (se_nodes s) (db_nodes db)) with nodes. by rewrite W.
Qed.

Lemma advance_executions P f k (executions := db_executions (view s db)) : se_rest s = UpdateExecutions P f k ->
  must_wait se_executions i (hits P f executions) sessions = false ->
  advance i {| sv_db := db; sv_sessions := sessions |} = Some {| sv_db := db; sv_sessions :=
    <[i := wrote_executions (hits P f executions) (at_statement s (k (List.map f (where_rows P executions))))]> sessions |}.
Proof.
  intros R W. unfold advance. cbn [sv_sessions]. rewrite S. cbn [mbind option_bind]. rewrite R. cbv zeta. cbn [sv_db].
  change (overlay (se_executions s) (db_executions db)) with executions. by rewrite W.
Qed.

Lemma advance_select k : se_rest s = SelectNodes k ->
  advance i {| sv_db := db; sv_sessions := sessions |} =
    Some {| sv_db := db; sv_sessions := <[i := at_statement s (k (db_nodes (view s db)))]> sessions |}.
Proof. intros R. unfold advance. cbn [sv_sessions]. rewrite S. cbn [mbind option_bind]. by rewrite R. Qed.

Lemma advance_commit : se_rest s = Commit ->
  advance i {| sv_db := db; sv_sessions := sessions |} =
    Some {| sv_db := view s db; sv_sessions := <[i := begin (Over (Ok tt))]> sessions |}.
Proof. intros R. unfold advance. cbn [sv_sessions]. rewrite S. cbn [mbind option_bind]. by rewrite R. Qed.

Lemma advance_rollback e : se_rest s = Rollback e ->
  advance i {| sv_db := db; sv_sessions := sessions |} =
    Some {| sv_db := db; sv_sessions := <[i := begin (Over (Err e))]> sessions |}.
Proof. intros R. unfold advance. cbn [sv_sessions]. rewrite S. cbn [mbind option_bind]. by rewrite R. Qed.

End Advance.

(** The statements of a transaction that nothing else interrupts. *)
Lemma lone_session t : forall s db, se_rest s = t -> exists n s',
  interleave (repeat 0%nat n) {| sv_db := db; sv_sessions := [s] |} =
    Some {| sv_db := (sequentially t db (view s db)).2; sv_sessions := [s'] |} /\ se_rest s' = Over (sequentially t db (view s db)).1.
Proof.
  assert (Next : forall s1 db db1 r, advance 0 {| sv_db := db; sv_sessions := [r] |} = Some {| sv_db := db1; sv_sessions := [s1] |} ->
    forall db2 answer, (exists n s', interleave (repeat 0%nat n) {| sv_db := db1; sv_sessions := [s1] |} = Some {| sv_db := db2; sv_sessions := [s'] |} /\
      se_rest s' = Over answer) ->
    exists n s', interleave (repeat 0%nat n) {| sv_db := db; sv_sessions := [r] |} = Some {| sv_db := db2; sv_sessions := [s'] |} /\
      se_rest s' = Over answer).
  { intros s1 db db1 r E db2 answer (n & s' & E' & R). exists (S n), s'. cbn [repeat interleave]. by rewrite E. }
  induction t as [P f k IH|P f k IH|k IH| |e|answer]; intros s db R.
  - eapply Next; [by apply (advance_nodes 0 db [s] s eq_refl _ _ _ R)|]. cbn [insert list_insert sequentially].
    set (s1 := at_statement s _). change (view s db) with (view s1 db). rewrite <- view_wrote_nodes. by apply IH.
  - eapply Next; [by apply (advance_executions 0 db [s] s eq_refl _ _ _ R)|]. cbn [insert list_insert sequentially].
    set (s1 := at_statement s _). change (view s db) with (view s1 db). rewrite <- view_wrote_executions. by apply IH.
  - eapply Next; [by apply (advance_select 0 db [s] s eq_refl _ R)|]. cbn [insert list_insert sequentially].
    set (s1 := at_statement s _). change (view s db) with (view s1 db). by apply IH.
  - eapply Next; [by apply (advance_commit 0 db [s] s eq_refl R)|]. by exists 0%nat, (begin (Over (Ok tt))).
  - eapply Next; [by apply (advance_rollback 0 db [s] s eq_refl e R)|]. by exists 0%nat, (begin (Over (Err e))).
  - by exists 0%nat, s.
Qed.

Lemma view_begin t db : view (begin t) db = db.
Proof. unfold view, begin. cbn [se_nodes se_executions]. rewrite !overlay_empty. by destruct db. Qed.

(** ** The calls of the store, alone *)

Section Calls.
Context `{JsonColumn}.

Lemma promoteAndReconcile_alone t e now start (w : World SoarDb) :
  sequentially (promoteAndReconcile_statements t e now) start (w_repo w) =
    let r := promoteAndReconcileSOAR t e now w in (r.1, if is_ok r.1 then w_repo r.2 else start).
Proof.
  destruct w as [db rt]. unfold promoteAndReconcileSOAR, promoteAndReconcile_statements, update_executions, update_returning, bind, execute, select, on_repo, modify, gets, ret, fail.
  cbn -[reconciled_status promote_rows cancel_rows promotion].
  change (set_where (promotion t e (db_nodes db)) (promoted_row now) (db_nodes db)) with (promote_rows t e now (db_nodes db)).
  destruct (reconciled_status _ _ _) as [status completed]. cbn -[promote_rows cancel_rows].
  destruct (status == SOARExecutionFailed); cbn -[promote_rows cancel_rows]; rewrite !List.length_map; by case_bool_decide.
Qed.

(** A finishing call in the order of its statements: the answer is the same, and
    so are the tables, which an error leaves as they were. *)
Lemma finish_alone t i worker operation now f (w : World SoarDb) :
  sequentially (finish_statements t i worker operation now f) (w_repo w) (w_repo w) =
    let r := transaction (let! executionID := update_leased t i worker operation f in promoteAndReconcileSOAR t executionID now) w in
    (r.1, w_repo r.2).
Proof.
  unfold finish_statements, transaction. cbn [sequentially].
  set (P := is_leased t i worker). set (w1 := mkWorld ((w_repo w) {{ db_nodes := set_where P f (db_nodes (w_repo w)) }}) (w_rt w)).
  assert (U : update_leased t i worker operation f w = match head (List.map f (where_rows P (db_nodes (w_repo w)))) with
    | None => (Err (leasedSOARTransitionError operation), w1) | Some n => (Ok (ne_ExecutionID n), w1) end).
  { destruct w as [db rt]. unfold update_leased, update_nodes, update_returning, bind, select, execute, on_repo, gets, modify, ret, fail. cbn -[set_where where_rows].
    fold P. by destruct (head _). }
  unfold bind. rewrite U. destruct (head _) as [n|]; [|done].
  change ((w_repo w) {{ db_nodes := set_where P f (db_nodes (w_repo w)) }}) with (w_repo w1).
  rewrite promoteAndReconcile_alone. cbv zeta. by destruct (promoteAndReconcileSOAR t (ne_ExecutionID n) now w1) as [[[]|x|] w'].
Qed.

Lemma transaction_Now {A} (k : Time -> Store A) (w : World SoarDb) :
  exists w1, w_repo w1 = w_repo w /\ transaction (bind Now k) w = transaction (k (rt_clock (w_rt w) (rt_ticks (w_rt w)))) w1.
Proof. exists (Now w).2. split; [done|]. unfold transaction, bind, Now. cbn. by destruct (k _ _) as [[]]. Qed.

(** Completing and failing a node are these sequences of statements, with the
    clock's reading, if no other transaction comes between. *)
Lemma CompleteSOARNode_alone t i worker output payload (w : World SoarDb) : encodeSOARObject output = Ok payload ->
  sequentially (complete_statements t i worker payload (rt_clock (w_rt w) (rt_ticks (w_rt w)))) (w_repo w) (w_repo w) =
    ((CompleteSOARNode t i worker output w).1, w_repo (CompleteSOARNode t i worker output w).2).
Proof.
  intros E. set (call := fun now => let! executionID := update_leased t i worker "complete" (completed_row now payload) in
    promoteAndReconcileSOAR t executionID now).
  assert (C : CompleteSOARNode t i worker output w = transaction (bind Now call) w) by (unfold CompleteSOARNode; by rewrite E).
  destruct (transaction_Now call w) as (w1 & Ew & Et). rewrite C, Et, <- Ew. apply finish_alone.
Qed.

Lemma FailSOARNode_alone t i worker code detail (w : World SoarDb) :
  sequentially (fail_statements t i worker code detail (rt_clock (w_rt w) (rt_ticks (w_rt w)))) (w_repo w) (w_repo w) =
    ((FailSOARNode t i worker code detail w).1, w_repo (FailSOARNode t i worker code detail w).2).
Proof.
  set (call := fun now => let! executionID := update_leased t i worker "fail" (failed_row now code detail) in
    promoteAndReconcileSOAR t executionID now).
  change (FailSOARNode t i worker code detail w) with (transaction (bind Now call) w).
  destruct (transaction_Now call w) as (w1 & Ew & Et). rewrite Et, <- Ew. apply finish_alone.
Qed.

End Calls.

(** ** Two completions of one execution *)

Section Halves.
Context (t e : string).

(** One of the two nodes is over, the other is still running as far as the
    transaction sees. *)
Definition half_done (nodes : Nodes) (running : SOARNodeExecution) : Prop :=
  running ∈ nodes /\ node_exec running = (t, e) /\ ne_Status running = "RUNNING" /\
  forall n, n ∈ nodes -> node_exec n = (t, e) -> n = running \/ ne_Status n = "SUCCEEDED" \/
    (ne_Status n = "PENDING" /\ ne_NodeID running ∈ ne_DependsOn n).

Lemma promotion_true nodes n : promotion t e nodes n = true <->
  node_exec n = (t, e) /\ ne_Status n = "PENDING" /\ dependencies_done nodes n = true.
Proof.
  unfold promotion, node_exec. rewrite !andb_true_iff, is_node_of_true, bool_decide_eq_true.
  split; [by intros [[[-> ->] ?] ?]|by intros ([= -> ->] & ? & ?)].
Qed.

Lemma half_promotes_none nodes running : half_done nodes running -> forall n, n ∈ nodes -> promotion t e nodes n = false.
Proof.
  intros (Hr & Kr & Rr & Others) n Hn. apply not_true_iff_false. rewrite promotion_true. intros (K & P & D).
  destruct (Others n Hn K) as [->|[S|[_ Dep]]]; [congruence..|].
  destruct (proj1 (dependencies_done_true _ _) D _ Dep) as [_ All].
  assert (S : ne_Status running ∈ ["SUCCEEDED"; "SKIPPED"]).
  { apply All; [done|]. unfold node_place. unfold node_exec in *. congruence. }
  rewrite Rr in S. listed.
Qed.

Lemma half_status nodes running : half_done nodes running -> reconciled_status t e nodes = (SOARExecutionRunning, false).
Proof.
  intros (Hr & Kr & Rr & Others).
  assert (None_ : forall statuses, "SUCCEEDED" ∉ statuses -> "PENDING" ∉ statuses -> "RUNNING" ∉ statuses -> count_status t e statuses nodes = 0).
  { intros statuses N1 N2 N3. enough (~ 0 < count_status t e statuses nodes) by (unfold count_status, count_rows in *; lia).
    rewrite count_status_pos. intros (n & Hn & K & S). destruct (Others n Hn K) as [->|[E|[E _]]]; congruence. }
  assert (Act : 0 < count_status t e active_statuses nodes).
  { apply count_status_pos. exists running. split_and!; [done..|]. rewrite Rr. right. right. left. }
  unfold reconciled_status. rewrite !(None_ ["FAILED"]), !(None_ ["WAITING_APPROVAL"]), !(None_ ["WAITING_MANUAL"]) by (intros ?; listed).
  cbn. by destruct (Z.eqb_spec (count_status t e active_statuses nodes) 0); [lia|].
Qed.

End Halves.

(** *** One statement of a completion at a time *)

(** An UPDATE that keeps the key of the rows it is for. *)
Lemma where_set_where {A} (P : A -> bool) f rows : (forall x, P (f x) = P x) -> where_rows P (set_where P f rows) = List.map f (where_rows P rows).
Proof.
  intros Hf. induction rows as [|x rows IH]; [done|]. unfold where_rows, set_where in *. cbn.
  destruct (P x) eqn:E; cbn; rewrite ?Hf, E; cbn; by rewrite IH.
Qed.

Section Statements.
Context (t e : string) (now : Time) (i : nat) (db : SoarDb) (sessions : list Session).

Definition session (rest : txn) (nodes : gmap nat SOARNodeExecution) (executions : gmap nat SOARExecution) : Session :=
  {| se_rest := rest; se_nodes := nodes; se_executions := executions |}.

Abbreviation server s := {| sv_db := db; sv_sessions := <[i := s]> sessions |}.
Abbreviation here := {| sv_db := db; sv_sessions := sessions |}.

Lemma must_wait_free {A} (locks : Session -> gmap nat A) rows :
  (forall k s, k <> i -> sessions !! k = Some s -> forall j, is_Some (rows !! j) -> locks s !! j = None) ->
  must_wait locks i rows sessions = false.
Proof.
  intros Free. apply not_true_iff_false. unfold must_wait. rewrite existsb_exists. intros (k & _ & E).
  apply andb_true_iff in E as [N E]. apply negb_true_iff, Nat.eqb_neq in N. destruct (sessions !! k) as [s|] eqn:S; [|done].
  apply negb_true_iff, bool_decide_eq_false in E. apply E, map_empty. intros j. apply map_lookup_filter_None. right.
  intros row L [r R]. cbn in R. rewrite (Free k s N S j) in L by (by exists r). done.
Qed.

Lemma must_wait_nothing {A} (locks : Session -> gmap nat A) : must_wait locks i ∅ sessions = false.
Proof. apply must_wait_free. intros k s _ _ j [r R]. by rewrite lookup_empty in R. Qed.

Lemma step_own j p payload : sessions !! i = Some (begin (complete_statements t (ne_ID p) (ne_LeaseOwner p) payload now)) ->
  (forall k x, db_nodes db !! k = Some x -> node_key x = node_key p -> k = j) -> db_nodes db !! j = Some p -> node_exec p = (t, e) ->
  ne_Status p = "RUNNING" -> (forall k s, k <> i -> sessions !! k = Some s -> se_nodes s !! j = None) ->
  advance i here = Some (server (session (promoteAndReconcile_statements t e now) {[j := completed_row now payload p]} ∅)).
Proof.
  intros S U L K R Free. unfold node_exec in K. injection K as T E. set (P := is_leased t (ne_ID p) (ne_LeaseOwner p)).
  set (f := completed_row now payload).
  destruct (hits_one P f (db_nodes db) j p L) as [Hh Hw].
  { unfold P, is_leased. rewrite !andb_true_iff, is_node_true, !bool_decide_eq_true. unfold node_key. by rewrite T. }
  { intros k x Lx Px. apply (U k x Lx). unfold P, is_leased in Px. rewrite !andb_true_iff, is_node_true in Px. destruct Px as [[Px _] _].
    unfold node_key in *. by rewrite T. }
  assert (V : view (begin (complete_statements t (ne_ID p) (ne_LeaseOwner p) payload now)) db = db) by apply view_begin.
  rewrite (advance_nodes i db sessions _ S (fun _ => P) f _ eq_refl); rewrite V, Hh.
  - rewrite Hw. cbn [List.map head]. unfold wrote_nodes, at_statement, begin, session. cbn [se_rest se_nodes se_executions].
    change (ne_ExecutionID (f p)) with (ne_ExecutionID p). rewrite E. by rewrite (right_id_L ∅ (∪)).
  - apply must_wait_free. intros k s N Sk l [r Hr]. apply lookup_singleton_Some in Hr as [<- _]. by eapply Free.
Qed.

Lemma step_promote own own_executions : sessions !! i = Some (session (promoteAndReconcile_statements t e now) own own_executions) ->
  (forall n, n ∈ overlay own (db_nodes db) -> promotion t e (overlay own (db_nodes db)) n = false) ->
  advance i here = Some (server (session (count_statement t e now) own own_executions)).
Proof.
  intros S N. destruct (hits_none (promotion t e (overlay own (db_nodes db))) (promoted_row now) (overlay own (db_nodes db)) N) as (Hh & _ & _).
  rewrite (advance_nodes i db sessions _ S (promotion t e) (promoted_row now) _ eq_refl);
    change (db_nodes (view _ db)) with (overlay own (db_nodes db)); rewrite Hh.
  - unfold wrote_nodes, at_statement, session. cbn [se_rest se_nodes se_executions]. by rewrite (left_id_L ∅ (∪)).
  - apply must_wait_nothing.
Qed.

Lemma step_count own own_executions running : sessions !! i = Some (session (count_statement t e now) own own_executions) ->
  half_done t e (overlay own (db_nodes db)) running ->
  advance i here = Some (server (session (reconcile_statement t e now (SOARExecutionRunning, false)) own own_executions)).
Proof.
  intros S N. rewrite (advance_select i db sessions _ S _ eq_refl). change (db_nodes (view _ db)) with (overlay own (db_nodes db)).
  cbv zeta. by rewrite (half_status t e _ running N).
Qed.

Lemma step_reconcile own counts jx x : sessions !! i = Some (session (reconcile_statement t e now counts) own ∅) ->
  db_executions db !! jx = Some x -> exec_key x = (t, e) -> (forall k y, db_executions db !! k = Some y -> exec_key y = exec_key x -> k = jx) ->
  (forall k s, k <> i -> sessions !! k = Some s -> se_executions s !! jx = None) ->
  advance i here = Some (server (session Commit own {[jx := reconciled_row now counts x]})).
Proof.
  intros S L K U Free. set (f := reconciled_row now counts).
  assert (Key := is_execution_true t e).
  destruct (hits_one (is_execution t e) f (db_executions db) jx x L) as [Hh Hw]; [by apply Key|intros k y Ly Py; apply (U k y Ly); rewrite K; by apply Key|].
  rewrite (advance_executions i db sessions _ S (is_execution t e) f _ eq_refl);
    change (db_executions (view _ db)) with (overlay ∅ (db_executions db)); rewrite overlay_empty, Hh.
  - rewrite Hw. unfold wrote_executions, at_statement, session. cbn [se_rest se_nodes se_executions]. by rewrite (right_id_L ∅ (∪)).
  - apply must_wait_free. intros k s N Sk l [r Hr]. apply lookup_singleton_Some in Hr as [<- _]. by eapply Free.
Qed.

Lemma step_commit j n jx x : sessions !! i = Some (session Commit {[j := n]} {[jx := x]}) ->
  advance i here = Some {| sv_db := db {{ db_nodes ::= <[j := n]>; db_executions ::= <[jx := x]> }};
                           sv_sessions := <[i := begin (Over (Ok tt))]> sessions |}.
Proof. intros S. rewrite (advance_commit i db sessions _ S eq_refl). unfold view, session. cbn [se_nodes se_executions]. by rewrite !overlay_singleton. Qed.

End Statements.

(** *** Two completions that overlap *)

(** Nobody can act on a node that is done or waits for others. *)
Lemma not_actionable db n : ne_Status n ∈ ["SUCCEEDED"; "PENDING"] -> ~ actionable db n.
Proof.
  intros S [E|[E|(since & C)]]; [rewrite E in S; listed..|]. specialize (C since (Z.le_refl since)). unfold claimable in C.
  rewrite !andb_true_iff, !orb_true_iff, !andb_true_iff, !bool_decide_eq_true in C. destruct C as [[_ C] _].
  destruct C as [E|[E _]]; rewrite E in S; listed.
Qed.

Section Race.
Context `{JsonColumn} (actions : ActionCatalog) (db : SoarDb) (t e : string) (p1 p2 : SOARNodeExecution).

(** Two nodes of an execution are running under leases, and the others are done
    or wait for both of them.  The keys are the primary keys of the tables. *)
Record last_two : Prop := {
  lt_wf : wf actions db;
  lt_nodes : NoDup (List.map node_key (db_nodes db));
  lt_executions : NoDup (List.map exec_key (db_executions db));
  lt_1 : p1 ∈ db_nodes db /\ node_exec p1 = (t, e) /\ ne_Status p1 = "RUNNING";
  lt_2 : p2 ∈ db_nodes db /\ node_exec p2 = (t, e) /\ ne_Status p2 = "RUNNING";
  lt_different : ne_ID p1 <> ne_ID p2;
  lt_others n : n ∈ db_nodes db -> node_exec n = (t, e) -> n = p1 \/ n = p2 \/ ne_Status n = "SUCCEEDED" \/
    (ne_Status n = "PENDING" /\ ne_NodeID p1 ∈ ne_DependsOn n /\ ne_NodeID p2 ∈ ne_DependsOn n)
}.

Context (payload1 payload2 : JsonObject) (now1 now2 : Time) (L : last_two).

(** Their workers complete them. *)
Definition completion1 : txn := complete_statements t (ne_ID p1) (ne_LeaseOwner p1) payload1 now1.
Definition completion2 : txn := complete_statements t (ne_ID p2) (ne_LeaseOwner p2) payload2 now2.

(** Each has updated its node, promoted and counted before the other commits. *)
Definition overlapping : list nat := [0; 1; 0; 1; 0; 1; 0; 0; 1; 1]%nat.

Lemma interleave_cons i order sv sv' : advance i sv = Some sv' -> interleave (i :: order) sv = interleave order sv'.
Proof. cbn [interleave]. by intros ->. Qed.

Lemma place_of {A K} (key : A -> K) rows row : NoDup (List.map key rows) -> row ∈ rows -> exists j, rows !! j = Some row /\
  forall k x, rows !! k = Some x -> key x = key row -> k = j.
Proof.
  intros U (j & Hj)%list_elem_of_lookup_1. exists j. split; [done|]. intros k x Hk E.
  apply (NoDup_lookup (List.map key rows) k j (key row) U).
  - change (List.map key rows) with (key <$> rows). by rewrite list_lookup_fmap, Hk; cbn; rewrite E.
  - change (List.map key rows) with (key <$> rows). by rewrite list_lookup_fmap, Hj.
Qed.

(** What a transaction sees that has ended [p] while [running] goes on. *)
Lemma sees_half_done p running j now payload : last_two -> db_nodes db !! j = Some p -> running ∈ db_nodes db -> running <> p ->
  (p = p1 /\ running = p2) \/ (p = p2 /\ running = p1) ->
  half_done t e (<[j := completed_row now payload p]> (db_nodes db)) running.
Proof.
  intros L' Lj Hr N Which. assert (Rr : node_exec running = (t, e) /\ ne_Status running = "RUNNING").
  { destruct Which as [[_ ->]|[_ ->]]; [apply (lt_2 L')|apply (lt_1 L')]. }
  destruct Rr as [Kr Rr]. apply list_elem_of_lookup_1 in Hr as (jr & Hr). split_and!; [|done..|].
  - apply (list_elem_of_lookup_2 _ jr). rewrite list_lookup_insert_ne; [done|]. intros ->. congruence.
  - intros n (k & Hk)%list_elem_of_lookup_1 K. destruct (decide (k = j)) as [->|Nk].
    + rewrite list_lookup_insert_eq in Hk by (by eapply lookup_lt_Some). injection Hk as <-. right. by left.
    + rewrite list_lookup_insert_ne in Hk by done. assert (Hn := list_elem_of_lookup_2 _ _ _ Hk).
      destruct (place_of node_key _ p (lt_nodes L') (list_elem_of_lookup_2 _ _ _ Lj)) as (j' & _ & U). assert (j = j') as <- by (by apply (U j p)).
      destruct (lt_others L' n Hn K) as [->|[->|[S|(P & D1 & D2)]]].
      * destruct Which as [[-> ->]|[-> ->]]; [by destruct Nk; apply (U k p1)|by left].
      * destruct Which as [[-> ->]|[-> ->]]; [by left|by destruct Nk; apply (U k p2)].
      * right. by left.
      * right. right. split; [done|]. by destruct Which as [[_ ->]|[_ ->]].
Qed.

(** The next statement of a schedule, by its lemma. *)
Tactic Notation "next" uconstr(lemma) :=
  eapply eq_trans; [eapply interleave_cons, lemma; [reflexivity|..]|]; cbn [insert list_insert].

(** What two overlapping completions leave. *)
Lemma overlapping_run : exists j1 j2 jx x sv,
  db_nodes db !! j1 = Some p1 /\ db_nodes db !! j2 = Some p2 /\ j1 <> j2 /\ db_executions db !! jx = Some x /\ exec_key x = (t, e) /\
  interleave overlapping {| sv_db := db; sv_sessions := [begin completion1; begin completion2] |} = Some sv /\
  sv_sessions sv = [begin (Over (Ok tt)); begin (Over (Ok tt))] /\
  db_nodes (sv_db sv) = <[j2 := completed_row now2 payload2 p2]> (<[j1 := completed_row now1 payload1 p1]> (db_nodes db)) /\
  db_executions (sv_db sv) = <[jx := reconciled_row now2 (SOARExecutionRunning, false) (reconciled_row now1 (SOARExecutionRunning, false) x)]> (db_executions db).
Proof.
  destruct (lt_1 L) as (H1 & K1 & R1), (lt_2 L) as (H2 & K2 & R2).
  destruct (place_of node_key _ p1 (lt_nodes L) H1) as (j1 & L1 & U1), (place_of node_key _ p2 (lt_nodes L) H2) as (j2 & L2 & U2).
  assert (N : j1 <> j2) by (intros ->; rewrite L1 in L2; injection L2 as E; by apply (lt_different L); rewrite E).
  destruct (wf_node_exec _ _ (lt_wf L) p1 H1) as (x & Hx & Kx). change (exec_key x = node_exec p1) in Kx. rewrite K1 in Kx.
  destruct (place_of exec_key _ x (lt_executions L) Hx) as (jx & Lx & Ux).
  assert (Half1 : half_done t e (overlay {[j1 := completed_row now1 payload1 p1]} (db_nodes db)) p2).
  { rewrite overlay_singleton. apply (sees_half_done p1 p2); auto. intros E. apply (lt_different L). by rewrite E. }
  assert (Half2 : half_done t e (overlay {[j2 := completed_row now2 payload2 p2]} (db_nodes db)) p1).
  { rewrite overlay_singleton. apply (sees_half_done p2 p1); auto. intros E. apply (lt_different L). by rewrite E. }
  exists j1, j2, jx, x. unfold overlapping. unfold completion1, completion2.
  eexists. split_and!; try done.
  - next (step_own t e now1 0 db _ j1 p1 payload1); [done..| |].
    { intros [|[|k]] s Nk; [done| |done]. by intros [= <-]. }
    next (step_own t e now2 1 db _ j2 p2 payload2); [done..| |].
    { intros [|[|k]] s Nk; [|done|done]. intros [= <-]. cbn. by apply lookup_singleton_ne. }
    next (step_promote t e now1 0 db _ {[j1 := completed_row now1 payload1 p1]}); [by apply (half_promotes_none t e _ p2)|].
    next (step_promote t e now2 1 db _ {[j2 := completed_row now2 payload2 p2]}); [by apply (half_promotes_none t e _ p1)|].
    next (step_count t e now1 0 db _ {[j1 := completed_row now1 payload1 p1]} ∅ p2); [done|].
    next (step_count t e now2 1 db _ {[j2 := completed_row now2 payload2 p2]} ∅ p1); [done|].
    next (step_reconcile t e now1 0 db _ {[j1 := completed_row now1 payload1 p1]} (SOARExecutionRunning, false) jx x); [done..| |].
    { intros [|[|k]] s Nk; [done| |done]. by intros [= <-]. }
    next (step_commit 0 db); [].
    next (step_reconcile t e now2 1 _ _ {[j2 := completed_row now2 payload2 p2]} (SOARExecutionRunning, false) jx
            (reconciled_row now1 (SOARExecutionRunning, false) x)).
    + apply list_lookup_insert_eq. by eapply lookup_lt_Some.
    + done.
    + intros k y Hk Ky. destruct (decide (k = jx)) as [|Nk]; [done|]. cbn in Hk. rewrite list_lookup_insert_ne in Hk by done. by apply (Ux k y).
    + intros [|[|k]] s Nk; [|done|done]. by intros [= <-].
    + next (step_commit 1); []. reflexivity.
  - reflexivity.
  - reflexivity.
  - cbn. by rewrite list_insert_insert_eq.
Qed.

(** The node rows once both nodes are over. *)
Definition both_over (j1 j2 : nat) : Nodes :=
  <[j2 := completed_row now2 payload2 p2]> (<[j1 := completed_row now1 payload1 p1]> (db_nodes db)).

Section BothOver.
Context (j1 j2 : nat) (L1 : db_nodes db !! j1 = Some p1) (L2 : db_nodes db !! j2 = Some p2) (N : j1 <> j2).

Lemma lookup_both_over n k : both_over j1 j2 !! k = Some n <->
  (k = j1 /\ n = completed_row now1 payload1 p1) \/ (k = j2 /\ n = completed_row now2 payload2 p2) \/
  (k <> j1 /\ k <> j2 /\ db_nodes db !! k = Some n).
Proof.
  assert (B1 := lookup_lt_Some _ _ _ L1). assert (B2 := lookup_lt_Some _ _ _ L2). unfold both_over.
  rewrite list_lookup_insert_Some, list_lookup_insert_Some, length_insert. naive_solver.
Qed.

Lemma both_over_elem n : n ∈ both_over j1 j2 <->
  n = completed_row now1 payload1 p1 \/ n = completed_row now2 payload2 p2 \/
  (n ∈ db_nodes db /\ n <> p1 /\ n <> p2).
Proof.
  destruct (lt_1 L) as (H1 & _), (lt_2 L) as (H2 & _).
  destruct (place_of node_key _ p1 (lt_nodes L) H1) as (j1' & L1' & U1), (place_of node_key _ p2 (lt_nodes L) H2) as (j2' & L2' & U2).
  rewrite list_elem_of_lookup. setoid_rewrite lookup_both_over. split.
  - intros (k & [[_ ->]|[[_ ->]|(N1 & N2 & Hk)]]); [by left|by right; left|]. right; right. split; [by eapply list_elem_of_lookup_2|].
    split; intros ->; [apply N1; transitivity j1'; [by eapply U1|symmetry; by eapply U1]|apply N2; transitivity j2'; [by eapply U2|symmetry; by eapply U2]].
  - intros [->|[->|(Hn & N1 & N2)]]; [exists j1; by left|exists j2; by right; left|].
    apply list_elem_of_lookup_1 in Hn as (k & Hk). exists k. right; right. split_and!; [intros ->; congruence..|done].
Qed.

Lemma both_over_status n : n ∈ both_over j1 j2 -> node_exec n = (t, e) -> ne_Status n ∈ ["SUCCEEDED"; "PENDING"].
Proof.
  intros [->|[->|(Hn & N1 & N2)]]%both_over_elem K; [left..|].
  destruct (lt_others L n Hn K) as [?|[?|[->|[-> _]]]]; [done..|left|right; left].
Qed.

(** A node that waits for these two, and for others that are done. *)
Definition waits_only (c : SOARNodeExecution) : Prop :=
  c ∈ db_nodes db /\ node_exec c = (t, e) /\ ne_Status c = "PENDING" /\
  forall d, d ∈ ne_DependsOn c -> d = ne_NodeID p1 \/ d = ne_NodeID p2 \/
    exists q, q ∈ db_nodes db /\ node_place q = (t, e, d) /\ ne_Status q = "SUCCEEDED".

Lemma both_over_waiting c : waits_only c -> c ∈ both_over j1 j2 /\ promotion t e (both_over j1 j2) c = true.
Proof.
  intros (Hc & Kc & Pc & Dc). destruct (lt_1 L) as (H1 & K1 & R1), (lt_2 L) as (H2 & K2 & R2).
  split; [apply both_over_elem; right; right; split_and!; [done|congruence..]|].
  apply promotion_true. split_and!; [done..|]. apply dependencies_done_true. intros d Hd.
  unfold node_exec in Kc. injection Kc as Et Ee. rewrite Et, Ee.
  assert (PlaceOf : forall p, node_exec p = (t, e) -> node_place p = (t, e, ne_NodeID p)) by (intros p K; unfold node_place; unfold node_exec in K; congruence).
  assert (Over_ : forall q x, q ∈ db_nodes db -> x ∈ both_over j1 j2 -> node_place x = node_place q ->
    ne_Status q = "SUCCEEDED" \/ q = p1 \/ q = p2 -> ne_Status x ∈ ["SUCCEEDED"; "SKIPPED"]).
  { intros q x Hq [->|[->|(Hx & N1 & N2)]]%both_over_elem P S; [left..|].
    assert (x = q) as -> by (by apply (wf_node_place _ _ (lt_wf L))). destruct S as [->|[?|?]]; [left|done..]. }
  destruct (Dc d Hd) as [->|[->|(q & Hq & Pq & Sq)]]; (split; [|intros x Hx Px]).
  - exists (completed_row now1 payload1 p1). split; [apply both_over_elem; by left|]. by rewrite <- PlaceOf.
  - apply (Over_ p1 x); [done..|by rewrite (PlaceOf p1)|by right; left].
  - exists (completed_row now2 payload2 p2). split; [apply both_over_elem; by right; left|]. by rewrite <- PlaceOf.
  - apply (Over_ p2 x); [done..|by rewrite (PlaceOf p2)|by right; right].
  - exists q. split; [|done]. apply both_over_elem. right; right. split_and!; [done|intros ->; congruence..].
  - apply (Over_ q x); [done..|congruence|by left].
Qed.

End BothOver.

(** *** One after the other *)

Lemma sequential_promotion now start D : length (where_rows (is_execution t e) (db_executions D)) = 1%nat ->
  sequentially (promoteAndReconcile_statements t e now) start D =
    (Ok tt, D {{ db_nodes ::= settle_rows t e now;
                 db_executions ::= set_where (is_execution t e) (reconciled_row now (reconciled_status t e (promote_rows t e now (db_nodes D)))) }}).
Proof.
  intros One. unfold promoteAndReconcile_statements, settle_rows. cbn [sequentially]. cbv zeta.
  change (set_where (promotion t e (db_nodes D)) (promoted_row now) (db_nodes D)) with (promote_rows t e now (db_nodes D)).
  set (D1 := D {{ db_nodes := promote_rows t e now (db_nodes D) }}). unfold count_statement. cbn [sequentially]. cbv zeta.
  change (db_nodes D1) with (promote_rows t e now (db_nodes D)).
  set (counts := reconciled_status t e (promote_rows t e now (db_nodes D))). unfold reconcile_statement.
  destruct (counts.1 == SOARExecutionFailed) eqn:F; cbn [sequentially]; cbv zeta; rewrite List.length_map;
    match goal with |- context [length (where_rows ?P ?l)] => change l with (db_executions D) end; rewrite One; cbn -[promote_rows set_where counts reconciled_status]; fold counts; rewrite F; reflexivity.
Qed.

Lemma sequential_own now payload start D j p : (forall k x, db_nodes D !! k = Some x -> node_key x = node_key p -> k = j) ->
  db_nodes D !! j = Some p -> node_exec p = (t, e) -> ne_Status p = "RUNNING" ->
  sequentially (complete_statements t (ne_ID p) (ne_LeaseOwner p) payload now) start D =
    sequentially (promoteAndReconcile_statements t e now) start (D {{ db_nodes ::= <[j := completed_row now payload p]> }}).
Proof.
  intros U Lj K R. unfold node_exec in K. injection K as T E. set (P := is_leased t (ne_ID p) (ne_LeaseOwner p)).
  destruct (hits_one P (completed_row now payload) (db_nodes D) j p Lj) as [Hh Hw].
  { unfold P, is_leased. rewrite !andb_true_iff, is_node_true, !bool_decide_eq_true. unfold node_key. by rewrite T. }
  { intros k x Lx Px. apply (U k x Lx). unfold P, is_leased in Px. rewrite !andb_true_iff, is_node_true in Px. destruct Px as [[Px _] _].
    unfold node_key in *. by rewrite T. }
  assert (W : set_where P (completed_row now payload) (db_nodes D) = <[j := completed_row now payload p]> (db_nodes D)).
  { rewrite <- overlay_singleton, <- Hh. rewrite <- (right_id_L ∅ (∪) (hits _ _ _)).
    rewrite <- (overlay_empty (db_nodes D)) at 1 2. by rewrite overlay_hits, overlay_empty. }
  unfold complete_statements, finish_statements. cbn [sequentially]. cbv zeta. fold P. rewrite Hw, W. cbn [List.map head].
  change (ne_ExecutionID (completed_row now payload p)) with (ne_ExecutionID p). by rewrite E.
Qed.

Lemma one_after_the_other c : waits_only c ->
  let first := sequentially completion1 db db in let second := sequentially completion2 first.2 first.2 in
  first.1 = Ok tt /\ second.1 = Ok tt /\ promoted_row now2 c ∈ db_nodes second.2.
Proof.
  intros W. destruct (lt_1 L) as (H1 & K1 & R1), (lt_2 L) as (H2 & K2 & R2).
  destruct (place_of node_key _ p1 (lt_nodes L) H1) as (j1 & L1 & U1), (place_of node_key _ p2 (lt_nodes L) H2) as (j2 & L2 & U2).
  assert (N : j1 <> j2) by (intros ->; rewrite L1 in L2; injection L2 as E; by apply (lt_different L); rewrite E).
  destruct (wf_node_exec _ _ (lt_wf L) p1 H1) as (x & Hx & Kx). change (exec_key x = node_exec p1) in Kx. rewrite K1 in Kx.
  destruct (place_of exec_key _ x (lt_executions L) Hx) as (jx & Lx & Ux).
  assert (Key := is_execution_true t e).
  assert (One0 : length (where_rows (is_execution t e) (db_executions db)) = 1%nat).
  { destruct (hits_one (is_execution t e) id (db_executions db) jx x Lx) as [_ ->]; [by apply Key| |done].
    intros k y Ly Py. apply (Ux k y Ly). rewrite Kx. by apply Key. }
  set (N1 := <[j1 := completed_row now1 payload1 p1]> (db_nodes db)).
  assert (Half : half_done t e N1 p2).
  { apply (sees_half_done p1 p2); auto. intros E. apply (lt_different L). by rewrite E. }
  destruct (hits_none (promotion t e N1) (promoted_row now1) N1 (half_promotes_none t e N1 p2 Half)) as (_ & _ & Same).
  change (promote_rows t e now1 N1 = N1) in Same.
  cbv zeta. unfold completion1, completion2. rewrite (sequential_own _ _ _ _ j1 p1 U1 L1 K1 R1), sequential_promotion by done. cbn [fst snd].
  set (D1 := _ {{ db_nodes ::= _; db_executions ::= _ }}).
  assert (EN : db_nodes D1 = N1).
  { change (settle_rows t e now1 N1 = N1). unfold settle_rows. cbv zeta. rewrite Same. by rewrite (half_status t e N1 p2 Half). }
  assert (EE : length (where_rows (is_execution t e) (db_executions D1)) = 1%nat) 
    by (change (db_executions D1) with (set_where (is_execution t e) (reconciled_row now1 (reconciled_status t e (promote_rows t e now1 N1))) (db_executions db));
        rewrite where_set_where by (by intros y); by rewrite List.length_map).
  rewrite (sequential_own _ _ _ _ j2 p2); [|rewrite EN..|done|done].
  2: { intros k y Hk Ky. apply list_lookup_insert_Some in Hk as [(<- & <- & _)|(_ & Hk)]; [|by apply (U2 k y)].
       apply (U2 j1 p1 L1). exact Ky. }
  2: { unfold N1. by rewrite list_lookup_insert_ne. }
  rewrite sequential_promotion by done. cbn [fst snd]. split; [done|]. split; [done|].
  change (promoted_row now2 c ∈ settle_rows t e now2 (<[j2 := completed_row now2 payload2 p2]> (db_nodes D1))). rewrite EN.
  change (<[j2 := _]> N1) with (both_over j1 j2). destruct (both_over_waiting j1 j2 L1 L2 N c W) as [Hc Pc].
  unfold settle_rows. cbv zeta. set (rows := promote_rows t e now2 (both_over j1 j2)).
  assert (NF : (reconciled_status t e rows).1 <> SOARExecutionFailed).
  { intros F. destruct (reconciled_truthful t e rows) as [[_ (n & Hn & Kn & Fn)]|[? _]]; [|done].
    apply elem_of_set_where in Hn as (n0 & Hn0 & ->). destruct (_ && _).
    - cbn in Fn. listed.
    - assert (S := both_over_status j1 j2 L1 L2 N n0 Hn0 Kn). listed. }
  rewrite bool_decide_false by done. apply elem_of_set_where. exists c. split; [done|].
  change (promoted_row now2 c = if promotion t e (both_over j1 j2) c then promoted_row now2 c else c). by rewrite Pc.
Qed.

End Race.

(** C5. Overlapping transactions may strand an execution, for at READ COMMITTED
    neither sees the other's change.  Two nodes of an execution are running,
    its other nodes are done or wait for both, and their two workers complete
    them so that each transaction has updated its node, promoted and counted
    before the other commits.  Then both calls report success, both nodes are
    SUCCEEDED and the execution is left RUNNING: nobody can act on any of its
    nodes.  So is the execution whose last two nodes these were, and a node that
    waits for them alone stays PENDING though its dependencies are done; one
    after the other, the same two transactions would have made it READY. *)
Theorem overlapping_completions_strand_execution `{JsonColumn} actions db t e p1 p2 payload1 payload2 now1 now2
    (LAST : last_two actions db t e p1 p2)
    (first := sequentially (completion1 t p1 payload1 now1) db db)
    (second := sequentially (completion2 t p2 payload2 now2) first.2 first.2) :
  exists sv x,
    interleave overlapping {| sv_db := db; sv_sessions := [begin (completion1 t p1 payload1 now1); begin (completion2 t p2 payload2 now2)] |} = Some sv /\
    sv_sessions sv = [begin (Over (Ok tt)); begin (Over (Ok tt))] /\
    completed_row now1 payload1 p1 ∈ db_nodes (sv_db sv) /\ completed_row now2 payload2 p2 ∈ db_nodes (sv_db sv) /\
    x ∈ db_executions (sv_db sv) /\ exec_key x = (t, e) /\ ex_Status x = SOARExecutionRunning /\
    (forall n, n ∈ db_nodes (sv_db sv) -> node_exec n = (t, e) ->
       ne_Status n ∈ ["SUCCEEDED"; "PENDING"] /\ ~ actionable (sv_db sv) n) /\
    forall c, waits_only db t e p1 p2 c ->
      c ∈ db_nodes (sv_db sv) /\ dependencies_done (db_nodes (sv_db sv)) c = true /\
      first.1 = Ok tt /\ second.1 = Ok tt /\ promoted_row now2 c ∈ db_nodes second.2.
Proof.
  destruct (overlapping_run actions db t e p1 p2 payload1 payload2 now1 now2 LAST)
    as (j1 & j2 & jx & x & sv & L1 & L2 & N & Lx & Kx & Run & Answers & Nodes_ & Executions).
  change (db_nodes (sv_db sv) = both_over db p1 p2 payload1 payload2 now1 now2 j1 j2) in Nodes_.
  assert (Elem := both_over_elem actions db t e p1 p2 payload1 payload2 now1 now2 LAST j1 j2 L1 L2 N).
  eexists sv, _. split; [exact Run|]. split; [exact Answers|]. rewrite Nodes_. split_and!.
  - apply Elem. by left.
  - apply Elem. by right; left.
  - rewrite Executions. eapply list_elem_of_lookup_2, list_lookup_insert_eq. by eapply lookup_lt_Some.
  - exact Kx.
  - reflexivity.
  - intros n Hn K. assert (S := both_over_status actions db t e p1 p2 payload1 payload2 now1 now2 LAST j1 j2 L1 L2 N n Hn K).
    split; [done|]. by apply not_actionable.
  - intros c W. destruct (both_over_waiting actions db t e p1 p2 payload1 payload2 now1 now2 LAST j1 j2 L1 L2 N c W) as [Hc Pc].
    split; [done|]. split; [by apply promotion_true in Pc as (_ & _ & ?)|]. by apply (one_after_the_other actions db t e).
Qed.

(** ** A fork and its join *)

Section Fork.
#[local] Existing Instance plain_column.

Definition action_node (id : string) (depends : list string) : SOARNode :=
  {| nd_ID := id; nd_Type := SOARNodeAction; nd_Name := id; nd_DependsOn := depends; nd_TimeoutSeconds := 0;
     nd_Retry := no_retry; nd_Config := Some {["action_type" := VString "kcsp.enrich.threat_intel"]} |}.

Definition fork_playbook : SOARPlaybookSpec := {|
  sp_SchemaVersion := "1.0"; sp_Trigger := {| tr_Type := "MANUAL" |};
  sp_Nodes := Some [action_node "left" []; action_node "right" []; action_node "join" ["left"; "right"]] |}.

Definition fork_created : System := play (discard (CreatePlaybook catalog "uni" "alice"
  {| pdr_Name := "Fork"; pdr_Description := ""; pdr_Spec := fork_playbook |})) 4 0 nothing.
Definition fork_published : System :=
  play (discard (PublishVersion catalog "uni" (playbook_id fork_created) 1 "alice")) 4 4 fork_created.
Definition fork_started : System := play (discard (StartExecution "uni" "alice" {|
  er_PlaybookID := playbook_id fork_published; er_RequestID := "request-1"; er_TriggerType := "manual";
  er_TriggerResourceType := ""; er_TriggerResourceID := ""; er_Context := None |})) 4 8 fork_published.
Definition fork_left : System := play (discard (ProcessOne catalog (worker_config worker) None)) 1 12 fork_started.
Definition forked : System := play (discard (ProcessOne catalog (worker_config worker) None)) 1 13 fork_left.

Lemma reachable_forked : reachable catalog forked.
Proof.
  unfold forked. apply reachable_play; [apply entry_worker|]. unfold fork_left. apply reachable_play; [apply entry_worker|].
  unfold fork_started. apply reachable_play; [by apply entry_start|]. unfold fork_published. apply reachable_play; [apply entry_publish|].
  unfold fork_created. apply reachable_play; [apply entry_create|]. apply rtc_refl.
Qed.

Lemma forked_rows : exists left_ right_ join x, db_nodes (sys_db forked) = [left_; right_; join] /\ db_executions (sys_db forked) = [x] /\
  (List.map ne_Status [left_; right_; join] = ["RUNNING"; "RUNNING"; "PENDING"]) /\ NoDup (List.map node_key [left_; right_; join]) /\
  (node_exec left_ = exec_key x /\ node_exec right_ = exec_key x /\ node_exec join = exec_key x) /\
  (List.map ne_NodeID [left_; right_; join] = ["left"; "right"; "join"]) /\ ne_DependsOn join = ["left"; "right"] /\
  ne_TenantID left_ = "uni".
Proof. do 4 eexists. split; [vm_compute; reflexivity|]. split; [vm_compute; reflexivity|]. split_and!; try reflexivity. by_decide. Qed.

Lemma forked_last_two : exists e p1 p2 join, last_two catalog (sys_db forked) "uni" e p1 p2 /\
  waits_only (sys_db forked) "uni" e p1 p2 join.
Proof.
  destruct forked_rows as (l & r & j & x & Rows & Execs & St & Nd & (O1 & O2 & O3) & Ids & Dep & T).
  destruct (reachable_ok catalog forked reachable_forked) as [W _].
  revert W Rows Execs. generalize (sys_db forked). intros db W Rows Execs.
  cbn in St, Ids. injection St as S1 S2 S3. injection Ids as I1 I2 I3.
  assert (Kx : exec_key x = ("uni", ex_ID x)) by (unfold exec_key, node_exec in *; congruence).
  rewrite Kx in O1, O2, O3. exists (ex_ID x), l, r, j. split.
  - split.
    + exact W.
    + rewrite Rows. exact Nd.
    + rewrite Execs. apply NoDup_singleton.
    + rewrite Rows. split_and!; [left|done|done].
    + rewrite Rows. split_and!; [right; left|done|done].
    + intros E. apply NoDup_cons in Nd as [Nd _]. apply Nd.
      replace (node_key l) with (node_key r) by (unfold node_key, node_exec in *; congruence). left.
    + intros n. rewrite Rows. intros Hn _. apply elem_of_cons in Hn as [->|Hn]; [by left|]. apply elem_of_cons in Hn as [->|Hn]; [by right; left|].
      apply list_elem_of_singleton in Hn as ->. right; right; right. rewrite Dep, I1, I2. split_and!; [done|left|right; left].
  - split_and!; [rewrite Rows; right; right; left|done|done|]. rewrite Dep, I1, I2. intros d Hd. apply elem_of_cons in Hd as [->|Hd]; [by left|].
    apply list_elem_of_singleton in Hd as ->. by right; left.
Qed.

Lemma overlapping_completions_strand_execution_witness : exists e p1 p2 join sv,
  interleave overlapping {| sv_db := sys_db forked; sv_sessions := [begin (completion1 "uni" p1 ∅ 1); begin (completion2 "uni" p2 ∅ 2)] |} = Some sv /\
  join ∈ db_nodes (sv_db sv) /\ node_exec join = ("uni", e) /\ ne_Status join = "PENDING" /\ dependencies_done (db_nodes (sv_db sv)) join = true.
Proof.
  destruct forked_last_two as (e & p1 & p2 & join & L & W). exists e, p1, p2, join.
  destruct (overlapping_completions_strand_execution catalog (sys_db forked) "uni" e p1 p2 ∅ ∅ 1 2 L)
    as (sv & x & Run & _ & _ & _ & _ & _ & _ & _ & Stuck).
  destruct (Stuck join W) as (J & D & _). destruct W as (_ & K & P & _).
  exact (ex_intro _ sv (conj Run (conj J (conj K (conj P D))))).
Defined.

End Fork.
