(* ===== verification/SoarWorkerProps.v ===== *)
(** * What leases, retries and recorded attempts guarantee a worker

    Statements about single calls and about a worker's program run alone. *)

From S2P Require Import Prelude GoLang GoFormat Core MemoryStore Playbook PlaybookFacts PlaybookProps.
From S2P Require Import Sql AuditTable SoarModel SoarDb SoarRuntime SoarService SoarWorker.
From S2P Require Import SoarInvariant SoarChanges SoarOps SoarCalm SoarSystem SoarSafety SoarProps.

Section WorkerProps.
Context `{JsonColumn}.

(** ** Recorded attempts *)

Definition item_key (item : SOARWorkItem) (actionType : string) : string :=
  ex_ID (wi_Execution item) +:+ "|" +:+ ne_NodeID (wi_Node item) +:+ "|" +:+ actionType.

(** An attempt with this key was recorded: Begin gives it back. *)
Lemma BeginSOARAction_earlier attempt earlier w :
  first_row (is_attempt_key (att_TenantID attempt) (att_IdempotencyKey attempt)) (db_attempts (w_repo w)) = Some earlier ->
  (exists e, BeginSOARAction attempt w = (Err e, w)) \/ BeginSOARAction attempt w = (Ok (earlier, false), w).
Proof.
  intros E. unfold BeginSOARAction, bind, lift. destruct w as [db rt]. cbn in E.
  destruct (encodeSOARObject (att_Request attempt)) as [q|e|] eqn:Eq; [|left; by exists e|by unfold encodeSOARObject in Eq; destruct (_ <? _)].
  destruct (encodeSOARObject (att_Result attempt)) as [r|e|] eqn:Er; [|left; by exists e|by unfold encodeSOARObject in Er; destruct (_ <? _)].
  unfold wrapping, guard. destruct (attempt_checks _ _ _); cbn; [|left; by eexists].
  right. unfold select, on_repo, gets. cbn. by rewrite E.
Qed.

Lemma run_call {A B} executor (op : Op A) (k : A -> prog B) w :
  run executor (pbind (call op) k) w =
  let '(r, w1) := handle executor op w in
  run executor (match r with Ok a => k a | Err e => Done (Err e) | Panic => Done Panic end) w1.
Proof. cbn. by destruct (handle executor op w) as [[a|e|] w1]. Qed.

Lemma run_last {A} executor (op : Op A) w : run executor (call op) w = handle executor op w.
Proof. cbn. by destruct (handle executor op w). Qed.

(** C7. An action that succeeded once is not executed again: a worker that
    comes to its node later, after a crash for instance, completes the node with
    the recorded result, whatever an executor would do. *)
Theorem succeeded_action_not_executed_again (actions : ActionCatalog) (config : WorkerConfig) (item : SOARWorkItem)
    (actionType : string) (earlier : SOARActionAttempt) (executor1 executor2 : ActionRequest -> outcome ActionResult)
    (w : World SoarDb)
    (Htype : workerConfigString (ne_Config (wi_Node item)) "action_type" = (actionType, true))
    (Hearlier : first_row (is_attempt_key (ne_TenantID (wi_Node item)) (item_key item actionType))
                  (db_attempts (w_repo w)) = Some earlier)
    (Hsucceeded : att_Status earlier = "SUCCEEDED") :
  run executor1 (executeAction actions config item) w = run executor2 (executeAction actions config item) w /\
  forall w', run executor1 (executeAction actions config item) w = (Ok tt, w') ->
    exists w1, w_repo w1 = w_repo w /\
      CompleteSOARNode (ne_TenantID (wi_Node item)) (ne_ID (wi_Node item)) (wc_ID config) (att_Result earlier) w1 = (Ok tt, w').
Proof.
  assert (R : forall executor, run executor (executeAction actions config item) w =
    match actions !! actionType with
    | None => (Err (NodeError "unknown_action" "action is not registered" true), w)
    | Some descriptor =>
        let rt := w_rt w in
        let w2 := mkWorld (w_repo w) (rt {{ rt_ticks ::= S; rt_draws ::= S }}) in
        let rt1 := rt {{ rt_ticks ::= S }} in
        let attempt := action_attempt item (NewID "sat" (rt_random rt1 (rt_draws rt1))) actionType (ad_Level descriptor) (rt_clock rt (rt_ticks rt)) in
        match BeginSOARAction attempt w2 with
        | (Err e, _) => (Err e, w2)
        | _ => CompleteSOARNode (ne_TenantID (wi_Node item)) (ne_ID (wi_Node item)) (wc_ID config) (att_Result earlier) w2
        end
    end).
  { intros executor. unfold executeAction. cbv zeta. rewrite Htype. cbn [negb]. destruct (actions !! actionType) as [descriptor|]; [|done].
    rewrite !run_call. cbn [handle]. unfold Now. rewrite run_call. cbn [handle]. unfold bind at 1, Random. cbn [w_repo w_rt ret].
    rewrite run_call. cbn [handle]. cbv zeta. cbn [w_repo w_rt]. match goal with |- context [BeginSOARAction ?a ?v] => set (attempt := a); set (w2 := v) end.
    destruct (BeginSOARAction_earlier attempt earlier w2 Hearlier) as [(e & ->)| ->]; [done|]. cbn [negb]. rewrite Hsucceeded.
    cbn [bool_decide andb]. rewrite bool_decide_true by done. unfold complete_node. by rewrite run_last. }
  rewrite !R. split; [done|]. intros w' E. destruct (actions !! actionType) as [descriptor|]; [|done]. cbv zeta in E.
  match type of E with context [mkWorld ?db ?rt] => exists (mkWorld db rt) end. split; [done|].
  match type of E with context [BeginSOARAction ?a ?v] => destruct (BeginSOARAction_earlier a earlier v Hearlier) as [(e & Eb)|Eb] end.
  all: rewrite Eb in E; done.
Qed.

(** ** Leases *)

(** The worker holds the lease of the node, which is not over at [now]. *)
Definition under_lease (owner : string) (now : Time) (n : SOARNodeExecution) : Prop :=
  ne_Status n = "RUNNING" /\ ne_LeaseOwner n = owner /\ exists until, ne_LeaseUntil n = Some until /\ now < until.

Lemma claimable_not_leased owner now scope db n : claimable now scope db n = true -> ~ under_lease owner now n.
Proof.
  unfold claimable, lease_over. intros C (S & _ & until & U & L). apply andb_true_iff in C as [C _]. apply andb_true_iff in C as [_ C].
  rewrite S, U in C. cbn in C. apply Z.leb_le in C. lia.
Qed.

(** A row is left alone by the statements of this transaction. *)
Lemma update_leased_foreign t i w op f w0 : (forall n, n ∈ db_nodes (w_repo w0) -> is_node t i n = true -> ne_LeaseOwner n <> w) ->
  (update_leased t i w op f w0).1 = Err (leasedSOARTransitionError op).
Proof.
  intros Hn. unfold update_leased, update_nodes, update_returning, bind, select, execute, on_repo, gets, modify. cbn.
  destruct (where_rows (is_leased t i w) (db_nodes (w_repo w0))) as [|x l] eqn:E; [done|]. exfalso.
  assert (Hx : x ∈ x :: l) by left. rewrite <- E in Hx. apply elem_of_where in Hx as [L Hx].
  unfold is_leased in L. apply andb_true_iff in L as [L O]. apply andb_true_iff in L as [K _].
  apply bool_decide_eq_true in O. by apply (Hn x).
Qed.

Lemma leased_transaction_foreign t i w op f (k : Time -> string -> Store unit) w0 :
  (forall n, n ∈ db_nodes (w_repo w0) -> is_node t i n = true -> ne_LeaseOwner n <> w) ->
  let r := transaction (let! now := Now in let! executionID := update_leased t i w op (f now) in k now executionID) w0 in
  r.1 = Err (leasedSOARTransitionError op) /\ w_repo r.2 = w_repo w0.
Proof.
  intros Hn. cbv zeta. unfold transaction, bind at 1, Now.
  assert (E := update_leased_foreign t i w op (f (rt_clock (w_rt w0) (rt_ticks (w_rt w0))))
    (mkWorld (w_repo w0) ((w_rt w0) {{ rt_ticks ::= S }})) Hn).
  unfold bind. destruct (update_leased _ _ _ _ _ _) as [r w1]. cbn in E. subst r. done.
Qed.

(** What the chosen row of a claim is. *)
Lemma ClaimSOARNode_chosen w scope lease w0 item w1 : ClaimSOARNode w scope lease w0 = (Ok (Some item), w1) ->
  exists now db chosen, now = rt_clock (w_rt w0) (rt_ticks (w_rt w0)) /\
    expireSOARApprovals now (mkWorld (w_repo w0) ((w_rt w0) {{ rt_ticks ::= S }})) = (Ok tt, db) /\
    chosen ∈ db_nodes (w_repo db) /\ claimable now (TrimSpace scope) (w_repo db) chosen = true /\
    node_key (wi_Node item) = node_key chosen.
Proof.
  unfold ClaimSOARNode. cbv zeta. destruct (_ || _); [done|]. unfold found. intros E.
  destruct (transaction _ w0) as [[x|e|] w2] eqn:T; [injection E as -> ->|by destruct (_ == _)|done].
  unfold transaction in T. destruct ((let! now := Now in _) w0) as [[x|e|] w3] eqn:B; [injection T as -> ->|done..].
  apply bind_Ok in B as (now & w4 & E1 & B). injection E1 as <- <-. apply bind_Ok in B as ([] & w5 & E2 & B).
  apply bind_Ok in B as (row & w6 & E3 & B). injection E3 as <- <-. destruct (head _) as [chosen|] eqn:Hd; [|done].
  apply head_sorted_elem, elem_of_where in Hd as [C Hc].
  apply bind_Ok in B as (nodes & w7 & E4 & B). injection E4 as <- <-. cbn [w_repo] in *.
  match type of B with context [List.map ?f _] => set (g := f) in * end.
  destruct (where_rows _ (db_nodes _)) as [|y l] eqn:W; [done|]. cbn [head List.map] in B.
  apply bind_Ok in B as (u & w8 & _ & B). apply bind_Ok in B as (ex & w9 & E5 & B). injection E5 as <- <-.
  destruct (first_row _ _) as [execution|]; [|done]. injection B as <- _.
  do 3 eexists. split_and!; [done|exact E2|exact Hc|exact C|].
  assert (Hy : y ∈ y :: l) by left. rewrite <- W in Hy. apply elem_of_where in Hy as [Py _]. apply is_node_true in Py. exact Py.
Qed.

(** The expiry of approvals leaves a leased row alone, or cancels it. *)
Definition kept (n : SOARNodeExecution) (db : SoarDb) : Prop :=
  forall x, x ∈ db_nodes db -> node_key x = node_key n -> x = n \/ ne_Status x = "CANCELLED".

Lemma kept_set_where n P f db : ne_Status n = "RUNNING" ->
  (forall x, node_key (f x) = node_key x) ->
  (forall x, P x = true -> (ne_Status x <> "RUNNING" /\ ne_Status x <> "CANCELLED") \/ ne_Status (f x) = "CANCELLED") ->
  kept n db -> kept n (db {{ db_nodes := set_where P f (db_nodes db) }}).
Proof.
  intros Hs Hk Hf K y Hy E. apply elem_of_set_where in Hy as (x & Hx & ->). destruct (P x) eqn:Px; [|by apply K].
  rewrite Hk in E. destruct (Hf x Px) as [[N1 N2]|C]; [|by right]. destruct (K x Hx E) as [->|?]; congruence.
Qed.

Lemma hoare_kept_promote n t e now : ne_Status n = "RUNNING" -> hoare (kept n) (promoteAndReconcileSOAR t e now) (fun _ => kept n).
Proof.
  intros Hs. unfold promoteAndReconcileSOAR. eapply (hoare_bind _ _ _ (fun _ => kept n)).
  { apply hoare_execute. intros db. apply kept_set_where; [done|done|]. intros x P. left.
    apply andb_true_iff in P as [P _]. apply andb_true_iff in P as [_ P]. apply bool_decide_eq_true in P. by rewrite P. }
  intros u. eapply hoare_bind; [apply hoare_select|]. intros [status completed]. apply (hoare_bind _ _ _ (fun _ => kept n)).
  - apply hoare_if; intros _.
    + apply hoare_execute. intros db [_ K]. revert K. apply kept_set_where; [done|done|]. intros x P. by right.
    + eapply hoare_post; [apply hoare_ret|]. by intros x db (_ & _ & K).
  - intros u2. eapply (hoare_bind _ _ _ (fun _ => kept n)); [apply hoare_update_returning; by intros db K|].
    intros rows. apply hoare_if; intros _; [apply hoare_fail|]. eapply hoare_post; [apply hoare_ret|]. by intros x db [_ K].
Qed.

Lemma hoare_kept_expire n now : ne_Status n = "RUNNING" -> hoare (kept n) (expireSOARApprovals now) (fun _ => kept n).
Proof.
  intros Hs. unfold expireSOARApprovals. eapply (hoare_bind _ _ _ (fun _ => kept n)); [apply hoare_update_returning; by intros db K|].
  intros expired. apply (hoare_bind _ _ _ (fun _ => kept n)).
  - apply hoare_forM. intros a _. apply (hoare_bind _ _ _ (fun _ => kept n)).
    + apply hoare_update_returning. intros db. apply kept_set_where; [done|done|]. intros x P. left.
      apply andb_true_iff in P as [_ P]. apply bool_decide_eq_true in P. by rewrite P.
    + intros rows. eapply hoare_post; [apply hoare_ret|]. by intros x db [_ K].
  - intros u. apply hoare_forM. intros [k [t e]] _. by apply hoare_kept_promote.
Qed.

(** C6. A lease excludes the other workers. Until it is over a claim never
    hands out the node, and a worker that does not hold it cannot complete,
    defer, retry or fail the node: the call fails and changes nothing. *)
Theorem leases_exclude_other_workers (actions : ActionCatalog) (w : World SoarDb) (n : SOARNodeExecution) (owner other : string)
    (Hwf : wf actions (w_repo w)) (Hn : n ∈ db_nodes (w_repo w))
    (Hlease : under_lease owner (rt_clock (w_rt w) (rt_ticks (w_rt w))) n) (Hother : other <> owner) :
  let t := ne_TenantID n in let i := ne_ID n in
  let refused := fun (m : Store unit) op => (m w).1 = Err (leasedSOARTransitionError op) /\ w_repo (m w).2 = w_repo w in
  (forall scope lease item w', ClaimSOARNode other scope lease w = (Ok (Some item), w') -> node_key (wi_Node item) <> node_key n) /\
  (forall output payload, encodeSOARObject output = Ok payload -> refused (CompleteSOARNode t i other output) "complete") /\
  (forall at_ output payload, encodeSOARObject output = Ok payload -> refused (DeferSOARNode t i other at_ output) "defer") /\
  (forall at_ code detail, refused (RetrySOARNode t i other at_ code detail) "retry") /\
  (forall code detail, refused (FailSOARNode t i other code detail) "fail").
Proof.
  cbv zeta. destruct Hlease as (Hs & Ho & Hu).
  assert (F : forall x, x ∈ db_nodes (w_repo w) -> is_node (ne_TenantID n) (ne_ID n) x = true -> ne_LeaseOwner x <> other).
  { intros x Hx K%is_node_true. rewrite (wf_node_key _ _ Hwf x n Hx Hn K). congruence. }
  split_and!.
  - intros scope lease item w' (now & w1 & chosen & -> & E & Hc & C & ->)%ClaimSOARNode_chosen K.
    assert (Kept : kept n (w_repo w1)).
    { eapply (hoare_kept_expire n _ Hs _ tt w1); [|exact E]. intros x Hx Kx. left. by apply (wf_node_key _ _ Hwf). }
    apply claimable_status in C as S. destruct (Kept chosen Hc K) as [->|Sc].
    + by apply (claimable_not_leased owner _ _ _ _ C).
    + rewrite Sc in S. apply (bool_decide_eq_true_2 (_ ∈ _)) in S. by vm_compute in S.
  - intros output payload E. unfold CompleteSOARNode. rewrite E. cbn. by apply leased_transaction_foreign.
  - intros at_ output payload E. unfold DeferSOARNode. rewrite E. cbn. by apply leased_transaction_foreign.
  - intros. by apply leased_transaction_foreign.
  - intros. by apply leased_transaction_foreign.
Qed.

(** A claim that finds no work changes nothing: the approvals it found overdue
    stay pending, since the function returns before it commits. *)
Lemma idle_claim_changes_nothing (worker scope : string) (lease : Duration) (w w' : World SoarDb) :
  ClaimSOARNode worker scope lease w = (Ok None, w') -> w_repo w' = w_repo w.
Proof.
  unfold ClaimSOARNode. cbv zeta. destruct (_ || _); [done|]. unfold found, transaction.
  destruct ((let! now := Now in _) w) as [[x|e|] w1]; [done| |done]. by intros [= _ <-].
Qed.

(** ** Retries *)

(** C19. A failure that may be temporary is retried as long as the playbook's
    policy allows attempts, after a delay between a second and a day that
    [time.Duration] represents, and that doubles up to the policy's maximum;
    any other failure, or the last attempt's, fails the node. *)
Theorem failed_node_retried_within_policy (config : WorkerConfig) (node : SOARNodeExecution) (policy : SOARRetryPolicy)
    (executor : ActionRequest -> outcome ActionResult) (code detail : string) (permanent : bool) (w : World SoarDb)
    (Hpolicy : retry_sound policy) (Hretry : ne_Retry node = default_retry policy) (Hclaimed : 1 <= ne_Attempt node) :
  let t := ne_TenantID node in let i := ne_ID node in let owner := wc_ID config in
  let now := rt_clock (w_rt w) (rt_ticks (w_rt w)) in
  let w1 := mkWorld (w_repo w) ((w_rt w) {{ rt_ticks ::= S }}) in
  let attempts := rp_MaximumAttempts (ne_Retry node) in
  let delay := retry_delay (ne_Retry node) (ne_Attempt node) in
  1 <= attempts <= 5 /\ 1 <= delay <= 86400 /\
  retry_delay (ne_Retry node) (1 + ne_Attempt node) = Z.min (rp_MaximumBackoff (ne_Retry node)) (2 * delay) /\
  run executor (handle_failure config node code detail permanent) w =
    if negb permanent && (ne_Attempt node <? attempts)
    then RetrySOARNode t i owner (time_Add now (delay * Second)) code detail w1
    else FailSOARNode t i owner code detail w.
Proof.
  cbv zeta. destruct Hpolicy as (HA & HB & HM).
  assert (D : 1 <= rp_MaximumAttempts (ne_Retry node) <= 5 /\ 1 <= rp_BackoffSeconds (ne_Retry node) <= rp_MaximumBackoff (ne_Retry node) /\
              rp_MaximumBackoff (ne_Retry node) <= 86400).
  { rewrite Hretry. unfold default_retry. cbv zeta.
    repeat match goal with |- context [if ?x <=? ?y then _ else _] => destruct (Z.leb_spec x y); cbn in *
      | |- context [if ?x <? ?y then _ else _] => destruct (Z.ltb_spec x y); cbn in * end; lia. }
  destruct D as (DA & DB & DM).
  assert (E : forall a, retry_delay (ne_Retry node) a = Z.min (rp_MaximumBackoff (ne_Retry node)) (rp_BackoffSeconds (ne_Retry node) * 2 ^ (a - 1))).
  { intros a. unfold retry_delay. destruct (Z.ltb_spec (rp_BackoffSeconds (ne_Retry node)) 1); [lia|].
    destruct (Z.ltb_spec (rp_MaximumBackoff (ne_Retry node)) (rp_BackoffSeconds (ne_Retry node))); [lia|done]. }
  assert (P1 : 1 <= 2 ^ (ne_Attempt node - 1)) by (assert (0 < 2 ^ (ne_Attempt node - 1)) by (apply Z.pow_pos_nonneg; lia); lia).
  assert (DD : 1 <= retry_delay (ne_Retry node) (ne_Attempt node) <= 86400) by (rewrite E; nia).
  split; [exact DA|]. split; [exact DD|]. split.
  - rewrite !E. replace (1 + ne_Attempt node - 1) with (Z.succ (ne_Attempt node - 1)) by lia.
    rewrite Z.pow_succ_r by lia. nia.
  - unfold handle_failure. cbv zeta. destruct (Z.ltb_spec (rp_MaximumAttempts (ne_Retry node)) 1); [lia|].
    destruct (_ && _); [|apply run_last]. rewrite run_call. cbn [handle]. unfold Now. rewrite run_last. cbn [handle].
    rewrite wrap64_id; [done|]. unfold in_int, min_int, max_int, two63, Second in *. lia.
Qed.

End WorkerProps.

(** ** The account playbook *)

#[local] Existing Instance plain_column.

Definition succeeded_attempt : SOARActionAttempt := zero_SOARActionAttempt {{
  att_ID := "sat-1"; att_TenantID := "uni"; att_IdempotencyKey := "sex-1|disable|identity.disable_account";
  att_Status := "SUCCEEDED"; att_Result := Some {["done" := VBool true]} }}.

Definition disable_node : SOARNodeExecution := zero_SOARNodeExecution {{
  ne_ID := "snx-1"; ne_TenantID := "uni"; ne_ExecutionID := "sex-1"; ne_NodeID := "disable";
  ne_Config := Some {["action_type" := VString "identity.disable_account"]}; ne_Attempt := 2;
  ne_Retry := default_retry zero_SOARRetryPolicy }}.

Definition disable_item : SOARWorkItem :=
  {| wi_Execution := zero_SOARExecution {{ ex_ID := "sex-1"; ex_TenantID := "uni" }}; wi_Node := disable_node |}.

Definition after_crash : World SoarDb := mkWorld (empty_db {{ db_attempts := [succeeded_attempt] }}) steady_runtime.

Definition forbidden (request : ActionRequest) : outcome ActionResult := Panic.

Lemma succeeded_action_not_executed_again_witness :
  run forbidden (executeAction catalog worker disable_item) after_crash = run SafeActionExecutor (executeAction catalog worker disable_item) after_crash.
Proof.
  apply (succeeded_action_not_executed_again catalog worker disable_item "identity.disable_account" succeeded_attempt);
    vm_compute; reflexivity.
Defined.

Lemma disable_leased : exists n, n ∈ db_nodes (sys_db acting) /\ ne_NodeID n = "disable" /\
  under_lease "worker" (63800000000 * Second) n.
Proof.
  assert (E : exists n, first_row (fun n => ne_NodeID n == "disable") (db_nodes (sys_db acting)) = Some n /\ ne_NodeID n = "disable" /\
    ne_Status n = "RUNNING" /\ ne_LeaseOwner n = "worker" /\ ne_LeaseUntil n = Some (63800000000 * Second + 30 * Second)).
  { eexists. split; [vm_compute; reflexivity|]. split_and!; vm_compute; reflexivity. }
  destruct E as (n & Hn & E1 & E2 & E3 & E4). apply first_row_Some in Hn as [_ Hn]. exists n. split_and!; [done|done|].
  split_and!; [done|done|]. eexists. split; [done|]. vm_compute. reflexivity.
Qed.

Lemma acting_well_formed : wf catalog (sys_db acting).
Proof. by destruct (reachable_ok catalog acting reachable_acting). Qed.

Lemma leases_exclude_other_workers_witness : exists n, n ∈ db_nodes (sys_db acting) /\ ne_NodeID n = "disable" /\
  (forall scope lease item w', ClaimSOARNode "intruder" scope lease (mkWorld (sys_db acting) steady_runtime) = (Ok (Some item), w') ->
     node_key (wi_Node item) <> node_key n) /\
  (forall code detail, (FailSOARNode (ne_TenantID n) (ne_ID n) "intruder" code detail (mkWorld (sys_db acting) steady_runtime)).1 =
     Err (leasedSOARTransitionError "fail")).
Proof.
  destruct disable_leased as (n & Hn & Hid & L). exists n.
  assert (N : "intruder" <> "worker") by discriminate.
  destruct (leases_exclude_other_workers catalog (mkWorld (sys_db acting) steady_runtime) n "worker" "intruder" acting_well_formed Hn L N)
    as (C1 & _ & _ & _ & C2).
  exact (conj Hn (conj Hid (conj C1 (fun code detail => proj1 (C2 code detail))))).
Defined.

Lemma failed_node_retried_within_policy_witness :
  let w := mkWorld empty_db steady_runtime in
  run SafeActionExecutor (handle_failure worker disable_node "connector_error" "timeout" false) w =
  FailSOARNode "uni" "snx-1" "worker" "connector_error" "timeout" w.
Proof.
  apply (failed_node_retried_within_policy worker disable_node zero_SOARRetryPolicy); [|reflexivity|vm_compute; discriminate].
  split_and!; vm_compute; discriminate.
Defined.
