(* ===== verification/GoUtf8.v ===== *)
(** * UTF-8 and base64 (unicode/utf8, encoding/base64) *)

From S2P Require Import Prelude GoLang GoFormat.

(** ** UTF-8 *)

Definition byte_in (lo hi : Z) (c : ascii) : bool := (lo <=? byte_code c) && (byte_code c <=? hi).

Definition byte_char (n : Z) : ascii := ascii_of_N (Z.to_N n).

(** The second byte of a three or four byte sequence that begins with [x]. *)
Definition second_byte (x : Z) (c : ascii) : bool :=
  byte_in (if x =? 224 then 160 else if x =? 240 then 144 else 128)
          (if x =? 237 then 159 else if x =? 244 then 143 else 191) c.

(** The size of the valid encoding of a rune at the head, [0] if there is none
    ([utf8.DecodeRune] answers [RuneError] with size 1 there). *)
Definition utf8_width (s : string) : nat :=
  match s with
  | EmptyString => 0
  | String a r =>
      if byte_in 0 127 a then 1 else
      match r with
      | EmptyString => 0
      | String b r =>
          if byte_in 194 223 a then (if byte_in 128 191 b then 2 else 0) else
          match r with
          | EmptyString => 0
          | String c r =>
              if byte_in 224 239 a then (if second_byte (byte_code a) b && byte_in 128 191 c then 3 else 0) else
              match r with
              | EmptyString => 0
              | String d _ =>
                  if byte_in 240 244 a && second_byte (byte_code a) b && byte_in 128 191 c && byte_in 128 191 d then 4 else 0
              end
          end
      end
  end%nat.

Fixpoint valid_utf8 (s : string) : bool :=
  match s with
  | EmptyString => true
  | String a r =>
      match utf8_width s, r with
      | 1%nat, _ => valid_utf8 r
      | 2%nat, String _ r => valid_utf8 r
      | 3%nat, String _ (String _ r) => valid_utf8 r
      | 4%nat, String _ (String _ (String _ r)) => valid_utf8 r
      | _, _ => false
      end
  end.

(** [utf8.EncodeRune] *)
Definition encode_rune (r : Z) : string :=
  let r := if (0 <=? r) && (r <=? 1114111) && negb ((55296 <=? r) && (r <=? 57343)) then r else 65533 in
  let tail i := byte_char (128 + r / 64 ^ i mod 64) in
  if r <=? 127 then String (byte_char r) ""
  else if r <=? 2047 then String (byte_char (192 + r / 64)) (String (tail 0) "")
  else if r <=? 65535 then String (byte_char (224 + r / 4096)) (String (tail 1) (String (tail 0) ""))
  else String (byte_char (240 + r / 262144)) (String (tail 2) (String (tail 1) (String (tail 0) ""))).

Definition RuneErrorText : string := encode_rune 65533.

Example encode_euro : encode_rune 8364 = "€". Proof. reflexivity. Qed.
Example encode_clef : encode_rune 119070 = "𝄞". Proof. reflexivity. Qed.

(** A string of valid encodings, one by one. *)
Inductive utf8_chunk : string -> Prop :=
  | chunk1 a : byte_in 0 127 a = true -> utf8_chunk (String a "")
  | chunk2 a b : byte_in 194 223 a = true -> byte_in 128 191 b = true -> utf8_chunk (String a (String b ""))
  | chunk3 a b c : byte_in 224 239 a = true -> second_byte (byte_code a) b = true -> byte_in 128 191 c = true ->
      utf8_chunk (String a (String b (String c "")))
  | chunk4 a b c d : byte_in 240 244 a = true -> second_byte (byte_code a) b = true -> byte_in 128 191 c = true ->
      byte_in 128 191 d = true -> utf8_chunk (String a (String b (String c (String d "")))).

Inductive utf8 : string -> Prop :=
  | utf8_nil : utf8 ""
  | utf8_cons chunk s : utf8_chunk chunk -> utf8 s -> utf8 (chunk +:+ s).

Lemma byte_in_spec lo hi c : byte_in lo hi c = true <-> lo <= byte_code c <= hi.
Proof. unfold byte_in. rewrite andb_true_iff, !Z.leb_le. done. Qed.

(** Facts about the tests of one byte are checked on all 256 bytes. *)
Ltac all_bytes c := destruct c as [[] [] [] [] [] [] [] []].

Lemma byte_in_disjoint lo hi lo' hi' c : hi < lo' -> byte_in lo' hi' c = true -> byte_in lo hi c = false.
Proof. intros H E%byte_in_spec. apply not_true_iff_false. rewrite byte_in_spec. lia. Qed.

Lemma width_chunk chunk s : utf8_chunk chunk -> utf8_width (chunk +:+ s) = String.length chunk.
Proof.
  intros [a A|a b A B|a b c A B C|a b c d A B C D]; cbn [utf8_width String.append String.length].
  - by rewrite A.
  - by rewrite (byte_in_disjoint 0 127 194 223 a) by done; rewrite A, B.
  - rewrite (byte_in_disjoint 0 127 224 239 a), (byte_in_disjoint 194 223 224 239 a) by done. by rewrite A, B, C.
  - rewrite (byte_in_disjoint 0 127 240 244 a), (byte_in_disjoint 194 223 240 244 a), (byte_in_disjoint 224 239 240 244 a) by done.
    by rewrite A, B, C, D.
Qed.

Lemma utf8_valid s : utf8 s -> valid_utf8 s = true.
Proof.
  induction 1 as [|chunk s Hc _ IH]; [done|]. assert (W := width_chunk chunk s Hc).
  destruct Hc; cbn [String.append valid_utf8] in *; rewrite W; exact IH.
Qed.

Lemma utf8_width_inv s : match utf8_width s with O => True | n => exists chunk r, s = chunk +:+ r /\ utf8_chunk chunk /\ String.length chunk = n end.
Proof.
  destruct s as [|a s]; [done|]. unfold utf8_width.
  destruct (byte_in 0 127 a) eqn:A1; [by exists (String a ""), s; repeat constructor|].
  destruct s as [|b s]; [done|].
  destruct (byte_in 194 223 a) eqn:A2; [destruct (byte_in 128 191 b) eqn:B; [|done]; by exists (String a (String b "")), s; repeat constructor|].
  destruct s as [|c s]; [done|].
  destruct (byte_in 224 239 a) eqn:A3.
  { destruct (_ && _) eqn:B; [|done]. apply andb_true_iff in B as [B C]. by exists (String a (String b (String c ""))), s; repeat constructor. }
  destruct s as [|d s]; [done|]. destruct (_ && _) eqn:B; [|done]. rewrite !andb_true_iff in B. destruct B as [[[A B] C] D].
  by exists (String a (String b (String c (String d "")))), s; repeat constructor.
Qed.

Lemma valid_utf8_utf8 s : valid_utf8 s = true -> utf8 s.
Proof.
  assert (J : forall n s, (String.length s <= n)%nat -> valid_utf8 s = true -> utf8 s); [|eauto].
  clear s. intros n. induction n as [|n IH]; intros s L V; (destruct s as [|a s]; [constructor|]); [cbn in L; lia|].
  cbn [String.length] in L. assert (W := utf8_width_inv (String a s)). cbn [valid_utf8] in V.
  destruct (utf8_width (String a s)) as [|w] eqn:Ew; [done|]. destruct W as (chunk & r & E & Hc & Lc). rewrite E. constructor; [done|].
  destruct Hc; cbn in Lc; injection Lc as <-; cbn in E; injection E; intros; subst; cbn in V, L; apply IH; auto; lia.
Qed.

(** ** Base64 (StdEncoding) *)

Definition base64_digit (n : Z) : ascii :=
  byte_char (if n <? 26 then 65 + n else if n <? 52 then 71 + n else if n <? 62 then n - 4 else if n =? 62 then 43 else 47).

Definition base64_value (c : ascii) : option Z :=
  let n := byte_code c in
  if byte_in 65 90 c then Some (n - 65) else if byte_in 97 122 c then Some (n - 71)
  else if byte_in 48 57 c then Some (n + 4) else if n =? 43 then Some 62 else if n =? 47 then Some 63 else None.

Fixpoint base64_encode (s : string) : string :=
  match s with
  | EmptyString => ""
  | String a EmptyString =>
      let x := byte_code a in
      String (base64_digit (x / 4)) (String (base64_digit (x mod 4 * 16)) "==")
  | String a (String b EmptyString) =>
      let x := byte_code a in let y := byte_code b in
      String (base64_digit (x / 4)) (String (base64_digit (x mod 4 * 16 + y / 16)) (String (base64_digit (y mod 16 * 4)) "="))
  | String a (String b (String c r)) =>
      let x := byte_code a in let y := byte_code b in let z := byte_code c in
      String (base64_digit (x / 4)) (String (base64_digit (x mod 4 * 16 + y / 16))
        (String (base64_digit (y mod 16 * 4 + z / 64)) (String (base64_digit (z mod 64)) (base64_encode r))))
  end.

Fixpoint string_filter (P : ascii -> bool) (s : string) : string :=
  match s with EmptyString => "" | String c r => if P c then String c (string_filter P r) else string_filter P r end.

Fixpoint base64_groups (s : string) : option string :=
  match s with
  | EmptyString => Some ""
  | String a (String b (String c (String d r))) =>
      match base64_value a, base64_value b with
      | Some w, Some x =>
          if (c == "="%char) && (d == "="%char) && (r == "") then Some (String (byte_char (w * 4 + x / 16)) "") else
          match base64_value c with
          | None => None
          | Some y =>
              let first := byte_char (w * 4 + x / 16) in
              let second := byte_char (x mod 16 * 16 + y / 4) in
              if (d == "="%char) && (r == "") then Some (String first (String second "")) else
              match base64_value d, base64_groups r with
              | Some z, Some rest => Some (String first (String second (String (byte_char (y mod 4 * 64 + z)) rest)))
              | _, _ => None
              end
          end
      | _, _ => None
      end
  | _ => None
  end.

(** The decoder skips line breaks. *)
Definition base64_decode (s : string) : option string :=
  base64_groups (string_filter (fun c => negb ((byte_code c =? 10) || (byte_code c =? 13))) s).

Example base64_hello : base64_encode "hello" = "aGVsbG8=" /\ base64_decode "aGVsbG8=" = Some "hello".
Proof. done. Qed.

Lemma byte_code_range c : 0 <= byte_code c < 256.
Proof. unfold byte_code. assert (H := N_ascii_bounded c). lia. Qed.

Lemma byte_char_code c : byte_char (byte_code c) = c.
Proof. unfold byte_char, byte_code. rewrite N2Z.id. apply ascii_N_embedding. Qed.

(** What the decoder needs to know of a digit. *)
Lemma base64_digit_ok n : 0 <= n < 64 ->
  base64_value (base64_digit n) = Some n /\ base64_digit n <> "="%char /\
  negb ((byte_code (base64_digit n) =? 10) || (byte_code (base64_digit n) =? 13)) = true.
Proof.
  intros H. assert (F : forallb (fun n => bool_decide (base64_value (base64_digit n) = Some n) && (base64_digit n != "="%char)
    && negb ((byte_code (base64_digit n) =? 10) || (byte_code (base64_digit n) =? 13))) (seqZ 0 64) = true) by by vm_compute.
  rewrite forallb_forall in F. specialize (F n). rewrite !andb_true_iff, bool_decide_eq_true, negb_true_iff, bool_decide_eq_false in F.
  destruct F as [[F1 F2] F3]; [|by split_and!]. apply list_elem_of_In, elem_of_seqZ. lia.
Qed.

Lemma filter_digit n r : 0 <= n < 64 ->
  string_filter (fun c => negb ((byte_code c =? 10) || (byte_code c =? 13))) (String (base64_digit n) r) =
  String (base64_digit n) (string_filter (fun c => negb ((byte_code c =? 10) || (byte_code c =? 13))) r).
Proof. intros H. cbn [string_filter]. by destruct (base64_digit_ok n H) as (_ & _ & ->). Qed.

Ltac euclid := Z.div_mod_to_equations; lia.

Lemma sextets x y z : 0 <= x < 256 -> 0 <= y < 256 -> 0 <= z < 256 ->
  (0 <= x / 4 < 64 /\ 0 <= x mod 4 * 16 + y / 16 < 64 /\ 0 <= y mod 16 * 4 + z / 64 < 64 /\ 0 <= z mod 64 < 64) /\
  x / 4 * 4 + (x mod 4 * 16 + y / 16) / 16 = x /\
  (x mod 4 * 16 + y / 16) mod 16 * 16 + (y mod 16 * 4 + z / 64) / 4 = y /\
  (y mod 16 * 4 + z / 64) mod 4 * 64 + z mod 64 = z.
Proof. intros. split_and!; euclid. Qed.

Lemma base64_round_trip s : base64_decode (base64_encode s) = Some s.
Proof.
  assert (J : forall n s, (String.length s <= n)%nat -> base64_decode (base64_encode s) = Some s); [|eauto].
  clear s. unfold base64_decode. intros n. induction n as [|n IH]; intros s L.
  { destruct s; [done|cbn in L; lia]. }
  destruct s as [|a [|b [|c s]]]; [done|..]; cbn [base64_encode].
  - assert (Ra := byte_code_range a). destruct (sextets (byte_code a) 0 0) as ((A & B & _) & E & _); [lia..|].
    change (0 / 16) with 0 in *. rewrite Z.add_0_r in *. rewrite !filter_digit by done. cbn [string_filter base64_groups].
    destruct (base64_digit_ok _ A) as (-> & _), (base64_digit_ok _ B) as (-> & _). cbn. by rewrite E, byte_char_code.
  - assert (Ra := byte_code_range a). assert (Rb := byte_code_range b).
    destruct (sextets (byte_code a) (byte_code b) 0) as ((A & B & C & _) & E1 & E2 & _); [lia..|].
    change (0 / 64) with 0 in *. rewrite (Z.add_0_r (byte_code b mod 16 * 4)) in *. rewrite !filter_digit by done. cbn [string_filter base64_groups].
    destruct (base64_digit_ok _ A) as (-> & _), (base64_digit_ok _ B) as (-> & _), (base64_digit_ok _ C) as (-> & N & _).
    rewrite (bool_decide_eq_false_2 (base64_digit (byte_code b mod 16 * 4) = "="%char)) by done. cbn. by rewrite E1, E2, !byte_char_code.
  - assert (Ra := byte_code_range a). assert (Rb := byte_code_range b). assert (Rc := byte_code_range c).
    destruct (sextets (byte_code a) (byte_code b) (byte_code c)) as ((A & B & C & D) & E1 & E2 & E3); [lia..|].
    rewrite !filter_digit by done. cbn [string_filter base64_groups].
    destruct (base64_digit_ok _ A) as (-> & _), (base64_digit_ok _ B) as (-> & _), (base64_digit_ok _ C) as (-> & N & _),
      (base64_digit_ok _ D) as (-> & N' & _).
    rewrite (bool_decide_eq_false_2 _ N), (bool_decide_eq_false_2 _ N'). cbn [andb]. cbn in L. rewrite IH by lia.
    by rewrite E1, E2, E3, !byte_char_code.
Qed.
