(* ===== verification/Json.v ===== *)
(** * JSON documents (encoding/json)

    The text of a document and its tree.  A string is kept as it stands between
    its quotes and a number as its literal, the way the scanner of the package
    hands them to the decoder. *)

From S2P Require Import Prelude GoLang GoFormat GoUtf8.

Inductive Json : Type :=
  | JNull
  | JBool (b : bool)
  | JNumber (literal : string)
  | JString (raw : string)
  | JArray (items : list Json)
  | JObject (members : list (string * Json)).

(** ** Strings *)

(** [appendString] with HTML escaping. *)
Fixpoint json_text (s : string) : string :=
  match s with
  | EmptyString => ""
  | String a r =>
      match utf8_width s, r with
      | 1%nat, _ => json_char a +:+ json_text r
      | 2%nat, String b r => String a (String b (json_text r))
      | 3%nat, String b (String c r) =>
          if (byte_code a =? 226) && (byte_code b =? 128) && ((byte_code c =? 168) || (byte_code c =? 169))
          then "\u202" +:+ String (hex_digit (byte_code c - 160)) (json_text r)
          else String a (String b (String c (json_text r)))
      | 4%nat, String b (String c (String d r)) => String a (String b (String c (String d (json_text r))))
      | _, _ => "\ufffd" +:+ json_text r
      end
  end.

Definition hex_value (c : ascii) : option Z :=
  let n := byte_code c in
  if byte_in 48 57 c then Some (n - 48) else if byte_in 97 102 c then Some (n - 87)
  else if byte_in 65 70 c then Some (n - 55) else None.

Definition hex4 (a b c d : ascii) : option Z :=
  match hex_value a, hex_value b, hex_value c, hex_value d with
  | Some w, Some x, Some y, Some z => Some (((w * 16 + x) * 16 + y) * 16 + z)
  | _, _, _, _ => None
  end.

Definition escape_char (c : ascii) : option ascii :=
  if c ∈? ["034"; "092"; "/"]%char then Some c
  else if c == "b"%char then Some "008"%char else if c == "f"%char then Some "012"%char
  else if c == "n"%char then Some "010"%char else if c == "r"%char then Some "013"%char
  else if c == "t"%char then Some "009"%char else None.

(** The text up to the closing quote, and what follows it. *)
Fixpoint scan_string (s : string) : option (string * string) :=
  match s with
  | EmptyString => None
  | String c r =>
      if c == "034"%char then Some ("", r)
      else if c == "092"%char then
        match r with
        | String e r =>
            if e == "u"%char then
              match r with
              | String h1 (String h2 (String h3 (String h4 r))) =>
                  if hex4 h1 h2 h3 h4 is Some _ then
                    '(raw, rest) ← scan_string r;
                    Some (String c (String e (String h1 (String h2 (String h3 (String h4 raw))))), rest)
                  else None
              | _ => None
              end
            else if escape_char e is Some _ then
              '(raw, rest) ← scan_string r; Some (String c (String e raw), rest)
            else None
        | EmptyString => None
        end
      else if byte_code c <? 32 then None
      else '(raw, rest) ← scan_string r; Some (String c raw, rest)
  end.

(** A low surrogate that completes the pair [high] begins. *)
Definition pair_rune (high : Z) (low : Z) : option Z :=
  if (55296 <=? high) && (high <=? 56319) && (56320 <=? low) && (low <=? 57343)
  then Some ((high - 55296) * 1024 + (low - 56320) + 65536) else None.

(** [unquoteBytes] of the text of a scanned string. *)
Fixpoint unquote (s : string) : string :=
  match s with
  | EmptyString => ""
  | String a r =>
      if a == "092"%char then
        match r with
        | String e r =>
            if e == "u"%char then
              match r with
              | String h1 (String h2 (String h3 (String h4 r))) =>
                  match hex4 h1 h2 h3 h4 with
                  | None => ""
                  | Some rune =>
                      match r with
                      | String b (String u (String l1 (String l2 (String l3 (String l4 r'))))) =>
                          match (if (b == "092"%char) && (u == "u"%char) then low ← hex4 l1 l2 l3 l4; pair_rune rune low else None) with
                          | Some rune => encode_rune rune +:+ unquote r'
                          | None => encode_rune rune +:+ unquote r
                          end
                      | _ => encode_rune rune +:+ unquote r
                      end
                  end
              | _ => ""
              end
            else if escape_char e is Some c then String c (unquote r) else ""
        | EmptyString => ""
        end
      else
        match utf8_width s, r with
        | 1%nat, _ => String a (unquote r)
        | 2%nat, String b r => String a (String b (unquote r))
        | 3%nat, String b (String c r) => String a (String b (String c (unquote r)))
        | 4%nat, String b (String c (String d r)) => String a (String b (String c (String d (unquote r))))
        | _, _ => RuneErrorText +:+ unquote r
        end
  end.

Example json_text_escapes : json_text "a<b 😀" = "a\u003cb 😀" /\ unquote "a\u003cb \ud83d\ude00\n" = "a<b 😀" +:+ String "010" "".
Proof. done. Qed.

(** ** Numbers *)

Definition scan_digits (s : string) : option (string * string) :=
  let '(digits, rest) := take_digits s in if digits == "" then None else Some (digits, rest).

Definition scan_fraction (s : string) : option (string * string) :=
  match s with
  | String c r => if c == "."%char then '(d, rest) ← scan_digits r; Some (String c d, rest) else Some ("", s)
  | EmptyString => Some ("", s)
  end.

Definition scan_exponent (s : string) : option (string * string) :=
  match s with
  | String c r =>
      if (c == "e"%char) || (c == "E"%char) then
        match r with
        | String g r' => if (g == "+"%char) || (g == "-"%char) then '(d, rest) ← scan_digits r'; Some (String c (String g d), rest)
                         else '(d, rest) ← scan_digits r; Some (String c d, rest)
        | EmptyString => None
        end
      else Some ("", s)
  | EmptyString => Some ("", s)
  end.

(** A leading zero stands alone. *)
Definition scan_integer (s : string) : option (string * string) :=
  match s with
  | String c r => if c == "0"%char then Some ("0", r) else scan_digits s
  | EmptyString => None
  end.

Definition scan_number (s : string) : option (string * string) :=
  let '(sign, s1) := match s with
    | String c r => if c == "-"%char then ("-", r) else ("", s)
    | EmptyString => ("", s) end in
  '(i, s2) ← scan_integer s1;
  '(f, s3) ← scan_fraction s2;
  '(e, s4) ← scan_exponent s3;
  Some (sign +:+ i +:+ f +:+ e, s4).

(** ** Documents *)

Definition json_space (c : ascii) : bool := c ∈? [" "; "009"; "010"; "013"]%char.

Fixpoint skip_space (s : string) : string :=
  match s with String c r => if json_space c then skip_space r else s | EmptyString => s end.

Definition scan_literal (s : string) : option (Json * string) :=
  if HasPrefix s "true" then Some (JBool true, string_drop 4 s)
  else if HasPrefix s "false" then Some (JBool false, string_drop 5 s)
  else if HasPrefix s "null" then Some (JNull, string_drop 4 s)
  else '(literal, rest) ← scan_number s; Some (JNumber literal, rest).

(** A scanner nests at most 10000 arrays and objects. *)
Definition maxNestingDepth : Z := 10000.

Fixpoint parse_value (fuel : nat) (depth : Z) (s : string) : option (Json * string) :=
  match fuel with
  | O => None
  | S n =>
      match skip_space s with
      | EmptyString => None
      | String c r as s =>
          if c == "034"%char then '(raw, rest) ← scan_string r; Some (JString raw, rest)
          else if c == "["%char then
            if maxNestingDepth <=? depth then None else
            match skip_space r with
            | String d r' => if d == "]"%char then Some (JArray [], r')
                             else '(items, rest) ← parse_items n (depth + 1) r; Some (JArray items, rest)
            | EmptyString => None
            end
          else if c == "{"%char then
            if maxNestingDepth <=? depth then None else
            match skip_space r with
            | String d r' => if d == "}"%char then Some (JObject [], r')
                             else '(members, rest) ← parse_members n (depth + 1) r; Some (JObject members, rest)
            | EmptyString => None
            end
          else scan_literal s
      end
  end
with parse_items (fuel : nat) (depth : Z) (s : string) : option (list Json * string) :=
  match fuel with
  | O => None
  | S n =>
      '(v, rest) ← parse_value n depth s;
      match skip_space rest with
      | String c r => if c == "]"%char then Some ([v], r)
                      else if c == ","%char then '(items, rest) ← parse_items n depth r; Some (v :: items, rest) else None
      | EmptyString => None
      end
  end
with parse_members (fuel : nat) (depth : Z) (s : string) : option (list (string * Json) * string) :=
  match fuel with
  | O => None
  | S n =>
      match skip_space s with
      | String q r =>
          if q != "034"%char then None else
          '(key, rest) ← scan_string r;
          match skip_space rest with
          | String colon r =>
              if colon != ":"%char then None else
              '(v, rest) ← parse_value n depth r;
              match skip_space rest with
              | String c r => if c == "}"%char then Some ([(key, v)], r)
                              else if c == ","%char then '(members, rest) ← parse_members n depth r; Some ((key, v) :: members, rest)
                              else None
              | EmptyString => None
              end
          | EmptyString => None
          end
      | EmptyString => None
      end
  end.

Definition json_parse (s : string) : option Json :=
  '(v, rest) ← parse_value (2 * String.length s + 2) 0 s;
  if skip_space rest == "" then Some v else None.

(** [json.Valid] *)
Definition json_valid (s : string) : bool := if json_parse s is Some _ then true else false.

(** A document without spaces, the way [json.Marshal] writes it. *)
Fixpoint json_print (v : Json) : string :=
  match v with
  | JNull => "null"
  | JBool b => FormatBool b
  | JNumber literal => literal
  | JString raw => quote +:+ raw +:+ quote
  | JArray items => json_array (List.map json_print items)
  | JObject members => "{" +:+ Join (List.map (fun '(k, w) => quote +:+ k +:+ quote +:+ ":" +:+ json_print w) members) "," +:+ "}"
  end.

Definition parse_quoted : string := "{" +:+ quote +:+ "a" +:+ quote +:+ ": [1, -2.5e3 ,true,null ]}".

Example json_parse_document :
  json_parse parse_quoted = Some (JObject [("a", JArray [JNumber "1"; JNumber "-2.5e3"; JBool true; JNull])]) /\
  json_parse "01" = None /\ json_parse "[1,]" = None.
Proof. vm_compute. done. Qed.

(** ** Strings round-trip *)

Lemma append_cons c (s t : string) : String c s +:+ t = String c (s +:+ t).
Proof. done. Qed.

Lemma byte_in_ne lo hi a k : byte_in lo hi a = true -> byte_code k < lo -> (a == k) = false.
Proof. intros E%byte_in_spec H. apply bool_decide_eq_false. intros ->. lia. Qed.

Lemma unquote_u h1 h2 h3 h4 rune r : hex4 h1 h2 h3 h4 = Some rune -> rune < 55296 ->
  unquote (String "092" (String "u" (String h1 (String h2 (String h3 (String h4 r)))))) = encode_rune rune +:+ unquote r.
Proof.
  intros E H. cbn [unquote]. cbn -[unquote hex4 encode_rune]. rewrite E.
  destruct r as [|b [|u [|l1 [|l2 [|l3 [|l4 r]]]]]]; try done.
  assert (Pn : forall low, pair_rune rune low = None).
  { intros low. unfold pair_rune. rewrite (proj2 (Z.leb_gt 55296 rune)); [done|lia]. }
  destruct (if (b == "092"%char) && (u == "u"%char) then low ← hex4 l1 l2 l3 l4; pair_rune rune low else None) eqn:Ep; [|done].
  destruct (_ && _); [|done]. apply bind_Some in Ep as (low & _ & Ep). by rewrite Pn in Ep.
Qed.

Lemma unquote_ascii a r : byte_in 0 127 a = true -> unquote (json_char a +:+ r) = String a (unquote r).
Proof.
  intros A. all_bytes a; try (vm_compute in A; discriminate A); clear A; try reflexivity;
    cbn [json_char String.append];
    (match goal with |- unquote ?s = _ => let s' := eval cbv -[unquote] in s in change (unquote s') with (unquote s') end);
    (etransitivity; [eapply unquote_u; [reflexivity|reflexivity]|reflexivity]).
Qed.

Lemma json_text_chunk chunk s : utf8_chunk chunk -> json_text (chunk +:+ s) = json_text chunk +:+ json_text s.
Proof.
  intros Hc. assert (W := width_chunk chunk s Hc). assert (W0 := width_chunk chunk "" Hc).
  destruct Hc; cbn [String.append json_text] in *; rewrite W, W0; cbn [String.length].
  - by rewrite !append_assoc.
  - done.
  - by destruct (_ && _ && _).
  - done.
Qed.

Lemma append_nil s : s +:+ "" = s.
Proof. induction s as [|c s IH]; [done|]. cbn. by f_equal. Qed.

Lemma high_bytes lo hi a : byte_in lo hi a = true -> 127 < lo ->
  (a == "034"%char) = false /\ (a == "092"%char) = false /\ (byte_code a <? 32) = false.
Proof.
  intros E H. split_and!; [by apply (byte_in_ne lo hi); [|change (34 < lo); lia]|by apply (byte_in_ne lo hi); [|change (92 < lo); lia]|].
  apply byte_in_spec in E. apply Z.ltb_ge. lia.
Qed.

Lemma second_byte_in x b : second_byte x b = true -> byte_in 128 191 b = true.
Proof. unfold second_byte. rewrite !byte_in_spec. repeat case_match; lia. Qed.

Lemma line_separator a b c : (byte_code a =? 226) && (byte_code b =? 128) && ((byte_code c =? 168) || (byte_code c =? 169)) = true ->
  (a = "226" /\ b = "128" /\ (c = "168" \/ c = "169"))%char.
Proof.
  rewrite !andb_true_iff, orb_true_iff, !Z.eqb_eq. intros [[A B] C].
  rewrite <- (byte_char_code a), <- (byte_char_code b), <- (byte_char_code c), A, B. split_and!; [done..|].
  destruct C as [-> | ->]; auto.
Qed.

Lemma unquote_chunk chunk r : utf8_chunk chunk -> unquote (json_text chunk +:+ r) = chunk +:+ unquote r.
Proof.
  intros Hc. assert (W := width_chunk chunk r Hc). assert (W0 := width_chunk chunk "" Hc).
  destruct Hc as [a A|a b A B|a b c A B C|a b c d A B C D]; cbn [String.append json_text] in *; rewrite W0; cbn [String.length].
  - rewrite append_nil. by apply unquote_ascii.
  - cbn [String.append unquote]. destruct (high_bytes _ _ _ A) as (_ & -> & _); [done|]. by rewrite W.
  - destruct (_ && _ && _) eqn:L.
    { apply line_separator in L as (-> & -> & [-> | ->]).
      - exact (unquote_u "2" "0" "2" "8" 8232 r eq_refl eq_refl).
      - exact (unquote_u "2" "0" "2" "9" 8233 r eq_refl eq_refl). }
    cbn [String.append unquote]. destruct (high_bytes _ _ _ A) as (_ & -> & _); [done|]. by rewrite W.
  - cbn [String.append unquote]. destruct (high_bytes _ _ _ A) as (_ & -> & _); [done|]. by rewrite W.
Qed.

Lemma json_text_unquote s : utf8 s -> unquote (json_text s) = s.
Proof.
  induction 1 as [|chunk s Hc _ IH]; [done|]. by rewrite json_text_chunk, unquote_chunk, IH.
Qed.

(** What the scanner makes of a text it accepts. *)
Definition scans (raw : string) : Prop :=
  forall r, scan_string (raw +:+ r) = '(more, rest) ← scan_string r; Some (raw +:+ more, rest).

Lemma scans_nil : scans "".
Proof. intros r. cbn. destruct (scan_string r) as [[more rest]|]; done. Qed.

Lemma scans_app s t : scans s -> scans t -> scans (s +:+ t).
Proof.
  intros Hs Ht r. rewrite append_assoc, Hs, Ht. destruct (scan_string r) as [[more rest]|]; [|done]. cbn. by rewrite append_assoc.
Qed.

Lemma scans_ascii a : byte_in 0 127 a = true -> scans (json_char a).
Proof.
  intros A r. all_bytes a; try (vm_compute in A; discriminate A);
    (match goal with |- context [json_char ?c] => let s := eval vm_compute in (json_char c) in change (json_char c) with s end);
    clear A; cbn; destruct (scan_string r) as [[more rest]|]; done.
Qed.

Lemma scans_high lo hi a s : byte_in lo hi a = true -> 127 < lo -> scans s -> scans (String a s).
Proof.
  intros A H Hs r. cbn [String.append scan_string]. destruct (high_bytes _ _ _ A H) as (-> & -> & ->). rewrite Hs.
  by destruct (scan_string r) as [[more rest]|].
Qed.

Lemma scans_chunk chunk : utf8_chunk chunk -> scans (json_text chunk).
Proof.
  intros Hc. assert (W0 := width_chunk chunk "" Hc).
  destruct Hc as [a A|a b A B|a b c A B C|a b c d A B C D]; cbn [String.append json_text] in *; rewrite W0; cbn [String.length].
  - rewrite append_nil. by apply scans_ascii.
  - eapply scans_high; [exact A|done|]. eapply scans_high; [exact B|done|]. apply scans_nil.
  - destruct (_ && _ && _) eqn:L.
    { apply line_separator in L as (-> & -> & [-> | ->]); intros r; cbn; destruct (scan_string r) as [[more rest]|]; done. }
    eapply scans_high; [exact A|done|]. eapply scans_high; [by eapply second_byte_in|done|].
    eapply scans_high; [exact C|done|]. apply scans_nil.
  - eapply scans_high; [exact A|done|]. eapply scans_high; [by eapply second_byte_in|done|].
    eapply scans_high; [exact C|done|]. eapply scans_high; [exact D|done|]. apply scans_nil.
Qed.

(** A byte that begins no valid encoding is replaced. *)
Lemma json_text_bad a r : utf8_width (String a r) = O -> json_text (String a r) = "\ufffd" +:+ json_text r.
Proof. intros W. cbn [json_text]. by rewrite W. Qed.

Lemma json_text_scans s : scans (json_text s).
Proof.
  assert (J : forall n s, (String.length s <= n)%nat -> scans (json_text s)); [|eauto].
  clear s. intros n. induction n as [|n IH]; intros s L; (destruct s as [|a s]; [apply scans_nil|]); [cbn in L; lia|].
  assert (W := utf8_width_inv (String a s)). destruct (utf8_width (String a s)) as [|w] eqn:Ew.
  - rewrite json_text_bad by done. apply scans_app; [|apply IH; cbn in L; lia].
    intros r. cbn. by destruct (scan_string r) as [[more rest]|].
  - destruct W as (chunk & r & E & Hc & Lc). rewrite E, json_text_chunk by done. apply scans_app; [by apply scans_chunk|].
    apply IH. assert (Le : String.length (String a s) = String.length (chunk +:+ r)) by by rewrite E.
    destruct Hc; cbn in Le, L; lia.
Qed.

Lemma scans_quote raw rest : scans raw -> scan_string (raw +:+ quote +:+ rest) = Some (raw, rest).
Proof. intros H. rewrite H. change (scan_string (quote +:+ rest)) with (Some ("", rest)). cbn. by rewrite append_nil. Qed.

(** * Documents round-trip

    Parsing what [json_print] wrote gives the document back; the fuel of
    [json_parse] is enough for it. *)

Section JsonInd.
Context (P : Json -> Prop).
Hypothesis Hnull : P JNull.
Hypothesis Hbool : forall b, P (JBool b).
Hypothesis Hnumber : forall l, P (JNumber l).
Hypothesis Hstring : forall raw, P (JString raw).
Hypothesis Harray : forall items, Forall P items -> P (JArray items).
Hypothesis Hobject : forall members, Forall (fun m => P m.2) members -> P (JObject members).

Fixpoint json_ind' (v : Json) : P v :=
  match v with
  | JNull => Hnull
  | JBool b => Hbool b
  | JNumber l => Hnumber l
  | JString raw => Hstring raw
  | JArray items =>
      Harray items ((fix go l := match l return Forall P l with [] => Forall_nil_2 P | w :: l => Forall_cons_2 P w l (json_ind' w) (go l) end) items)
  | JObject members =>
      Hobject members ((fix go l := match l return Forall (fun m => P m.2) l with
        | [] => Forall_nil_2 _ | w :: l => Forall_cons_2 _ w l (json_ind' w.2) (go l) end) members)
  end.

End JsonInd.

(** What may follow a value in a printed document. *)
Definition ends (r : string) : Prop := r = "" \/ exists c t, r = String c t /\ c ∈ [","; "]"; "}"]%char.

Definition number_text (l : string) : Prop :=
  (exists c t, l = String c t /\ (c = "-"%char \/ is_digit c = true)) /\
  forall r, ends r -> scan_number (l +:+ r) = Some (l, r).

Definition all {A} (P : A -> Prop) (l : list A) : Prop := foldr (fun a Q => P a /\ Q) True l.

Fixpoint json_wf (v : Json) : Prop :=
  match v with
  | JNull | JBool _ => True
  | JNumber l => number_text l
  | JString raw => scans raw
  | JArray items => foldr (fun w Q => json_wf w /\ Q) True items
  | JObject members => foldr (fun m Q => (scans m.1 /\ json_wf m.2) /\ Q) True members
  end.

Fixpoint json_depth (v : Json) : Z :=
  match v with
  | JArray items => 1 + foldr Z.max 0 (List.map json_depth items)
  | JObject members => 1 + foldr Z.max 0 (List.map (fun m => json_depth m.2) members)
  | _ => 0
  end.

(** The fuel the parser takes for a printed value. *)
Fixpoint json_fuel (v : Json) : nat :=
  match v with
  | JArray items => S (foldr (fun w n => S (json_fuel w `max` n)) O items)
  | JObject members => S (foldr (fun m n => S (json_fuel m.2 `max` n)) O members)
  | _ => 1
  end.

Definition print_member (m : string * Json) : string := quote +:+ m.1 +:+ quote +:+ ":" +:+ json_print m.2.

(** A printed value begins with a character that is no space. *)
Lemma print_head v : json_wf v -> exists c t, json_print v = String c t /\ json_space c = false /\ (c ∈ ["]"; "}"]%char -> False).
Proof.
  destruct v as [|b|l|raw|items|members]; cbn; intros W; try (by do 2 eexists; split_and!; [reflexivity| |intros E; by_decide || set_solver]).
  - destruct b; do 2 eexists; (split_and!; [reflexivity|done|set_solver]).
  - destruct W as [(c & t & -> & [-> | D]) _]; do 2 eexists; (split_and!; [reflexivity| |]); try done; try set_solver;
      all_bytes c; try (vm_compute in D; discriminate D); try done; set_solver.
Qed.

Lemma skip_head c t : json_space c = false -> skip_space (String c t) = String c t.
Proof. intros E. cbn. by rewrite E. Qed.

Lemma ends_cons c t : c ∈ [","; "]"; "}"]%char -> ends (String c t).
Proof. right. eauto. Qed.

(** A value that is no string and no container. *)
Lemma literal_value n d c t : json_space c = false -> c ∉ ["034"; "["; "{"]%char ->
  parse_value (S n) d (String c t) = scan_literal (String c t).
Proof.
  intros Sp N. cbn [parse_value]. rewrite skip_head by done. rewrite !not_elem_of_cons in N. destruct N as (N1 & N2 & N3 & _).
  rewrite !bool_decide_eq_false_2 by done. reflexivity.
Qed.

Lemma number_value l n d r : number_text l -> ends r -> parse_value (S n) d (l +:+ r) = Some (JNumber l, r).
Proof.
  intros [(c & t & -> & D) N] Er. specialize (N r Er). change (String c t +:+ r) with (String c (t +:+ r)) in *.
  assert (H : json_space c = false /\ (c ∉ ["034"; "["; "{"]%char) /\ forall s, scan_literal (String c s) =
    match scan_number (String c s) with Some (literal, rest) => Some (JNumber literal, rest) | None => None end).
  { destruct D as [-> | D]; [split_and!; [done|set_solver|]; intros s; unfold scan_literal; cbn -[scan_number]; by destruct (scan_number _) as [[]|]|].
    all_bytes c; try (vm_compute in D; discriminate D); clear D;
      (split_and!; [done|set_solver|]; intros s; unfold scan_literal; cbn -[scan_number]; by destruct (scan_number _) as [[]|]). }
  destruct H as (H1 & H2 & H3). rewrite literal_value; [|done..]. by rewrite H3, N.
Qed.

(** The statement for one value, whatever follows it. *)
Definition reads_back (v : Json) : Prop :=
  forall fuel d r, (json_fuel v <= fuel)%nat -> d + json_depth v <= maxNestingDepth -> ends r ->
  parse_value fuel d (json_print v +:+ r) = Some (v, r).

Lemma parse_items_last fuel d s v r : parse_value fuel d s = Some (v, String "]" r) ->
  parse_items (S fuel) d s = Some ([v], r).
Proof. intros E. cbn [parse_items]. rewrite E. done. Qed.

Lemma parse_items_more fuel d s v r items rest : parse_value fuel d s = Some (v, String "," r) ->
  parse_items fuel d r = Some (items, rest) -> parse_items (S fuel) d s = Some (v :: items, rest).
Proof. intros E1 E2. cbn [parse_items]. rewrite E1.
  change (('(items, rest) ← parse_items fuel d r; Some (v :: items, rest)) = Some (v :: items, rest)). by rewrite E2.
Qed.

Lemma items_read_back items : Forall (fun v => json_wf v -> reads_back v) items ->
  foldr (fun w Q => json_wf w /\ Q) True items -> items <> [] ->
  forall fuel d r, (foldr (fun w n => S (json_fuel w `max` n)) O items <= fuel)%nat ->
  d + foldr Z.max 0 (List.map json_depth items) <= maxNestingDepth ->
  parse_items fuel d (Join (List.map json_print items) "," +:+ "]" +:+ r) = Some (items, r).
Proof.
  intros Hv. induction Hv as [|v items Hv _ IH]; [done|]. intros [Wv W] _ fuel d r F D. cbn in F, D.
  destruct fuel as [|fuel]; [lia|]. destruct items as [|w items].
  - apply parse_items_last. apply (Hv Wv); [lia..|apply ends_cons; set_solver].
  - change (Join (List.map json_print (v :: w :: items)) ",") with
      (json_print v +:+ "," +:+ Join (List.map json_print (w :: items)) ",").
    rewrite !append_assoc. eapply parse_items_more; [apply (Hv Wv); [lia..|apply ends_cons; set_solver]|].
    apply IH; [done|done|lia..].
Qed.

Lemma parse_members_last fuel d key v s r : scans key -> parse_value fuel d s = Some (v, String "}" r) ->
  parse_members (S fuel) d (quote +:+ key +:+ quote +:+ ":" +:+ s) = Some ([(key, v)], r).
Proof.
  intros K E. assert (Q := scans_quote key (":" +:+ s) K). cbn [parse_members].
  change (skip_space (quote +:+ key +:+ quote +:+ ":" +:+ s)) with (String "034" (key +:+ quote +:+ ":" +:+ s)). cbn match.
  change ("034"%char != "034"%char) with false. cbn match. rewrite Q.
  change (match parse_value fuel d s with
    | Some (v, rest) => match skip_space rest with
        | String c r => if c == "}"%char then Some ([(key, v)], r)
                        else if c == ","%char then '(members, rest) ← parse_members fuel d r; Some ((key, v) :: members, rest) else None
        | EmptyString => None end
    | None => None end = Some ([(key, v)], r)). by rewrite E.
Qed.

Lemma parse_members_more fuel d key v s r members rest : scans key -> parse_value fuel d s = Some (v, String "," r) ->
  parse_members fuel d r = Some (members, rest) ->
  parse_members (S fuel) d (quote +:+ key +:+ quote +:+ ":" +:+ s) = Some ((key, v) :: members, rest).
Proof.
  intros K E1 E2. assert (Q := scans_quote key (":" +:+ s) K). cbn [parse_members].
  change (skip_space (quote +:+ key +:+ quote +:+ ":" +:+ s)) with (String "034" (key +:+ quote +:+ ":" +:+ s)). cbn match.
  change ("034"%char != "034"%char) with false. cbn match. rewrite Q.
  change (match parse_value fuel d s with
    | Some (v, rest) => match skip_space rest with
        | String c r => if c == "}"%char then Some ([(key, v)], r)
                        else if c == ","%char then '(members, rest) ← parse_members fuel d r; Some ((key, v) :: members, rest) else None
        | EmptyString => None end
    | None => None end = Some ((key, v) :: members, rest)). rewrite E1.
  change (('(members, rest) ← parse_members fuel d r; Some ((key, v) :: members, rest)) = Some ((key, v) :: members, rest)).
  by rewrite E2.
Qed.

Lemma members_read_back members : Forall (fun m => json_wf m.2 -> reads_back m.2) members ->
  foldr (fun m Q => (scans m.1 /\ json_wf m.2) /\ Q) True members -> members <> [] ->
  forall fuel d r, (foldr (fun m n => S (json_fuel m.2 `max` n)) O members <= fuel)%nat ->
  d + foldr Z.max 0 (List.map (fun m => json_depth m.2) members) <= maxNestingDepth ->
  parse_members fuel d (Join (List.map print_member members) "," +:+ "}" +:+ r) = Some (members, r).
Proof.
  intros Hv. induction Hv as [|[key v] members Hv _ IH]; [done|]. intros [[K Wv] W] _ fuel d r F D. cbn in F, D, K, Wv, Hv.
  destruct fuel as [|fuel]; [lia|]. destruct members as [|w members].
  - cbn [List.map Join]. unfold print_member; cbn [fst snd]. rewrite !append_assoc. apply parse_members_last; [done|].
    apply (Hv Wv); [lia..|apply ends_cons; set_solver].
  - change (Join (List.map print_member ((key, v) :: w :: members)) ",") with
      (print_member (key, v) +:+ "," +:+ Join (List.map print_member (w :: members)) ",").
    unfold print_member at 1; cbn [fst snd]. rewrite !append_assoc.
    eapply parse_members_more; [done|apply (Hv Wv); [lia..|apply ends_cons; set_solver]|].
    apply IH; [done|done|lia..].
Qed.

(** The first steps of the parser in a container. *)
Lemma parse_empty n d r : d < maxNestingDepth ->
  parse_value (S n) d (String "[" (String "]" r)) = Some (JArray [], r) /\
  parse_value (S n) d (String "{" (String "}" r)) = Some (JObject [], r).
Proof.
  intros D. assert (E := proj2 (Z.leb_gt maxNestingDepth d) D). cbn [parse_value].
  split.
  - change ((if maxNestingDepth <=? d then None else Some (JArray [], r)) = Some (JArray [], r)). by rewrite E.
  - change ((if maxNestingDepth <=? d then None else Some (JObject [], r)) = Some (JObject [], r)). by rewrite E.
Qed.

Lemma parse_array n d c t items rest : d < maxNestingDepth -> json_space c = false -> c <> "]"%char ->
  parse_items n (d + 1) (String c t) = Some (items, rest) ->
  parse_value (S n) d (String "[" (String c t)) = Some (JArray items, rest).
Proof.
  intros D Sp N P. cbn [parse_value]. rewrite (skip_head "["%char) by done.
  change ((if maxNestingDepth <=? d then None else match skip_space (String c t) with
    | String e r' => if e == "]"%char then Some (JArray [], r')
                     else '(items, rest) ← parse_items n (d + 1) (String c t); Some (JArray items, rest)
    | EmptyString => None end) = Some (JArray items, rest)).
  by rewrite (proj2 (Z.leb_gt maxNestingDepth d) D), skip_head, bool_decide_eq_false_2, P.
Qed.

Lemma parse_object n d t members rest : d < maxNestingDepth ->
  parse_members n (d + 1) (String "034" t) = Some (members, rest) ->
  parse_value (S n) d (String "{" (String "034" t)) = Some (JObject members, rest).
Proof.
  intros D P. cbn [parse_value]. rewrite (skip_head "{"%char) by done.
  change ((if maxNestingDepth <=? d then None else
    '(members, rest) ← parse_members n (d + 1) (String "034" t); Some (JObject members, rest)) = Some (JObject members, rest)).
  by rewrite (proj2 (Z.leb_gt maxNestingDepth d) D), P.
Qed.

Lemma foldr_max_nonneg l : 0 <= foldr Z.max 0 l.
Proof. induction l; cbn; lia. Qed.

Lemma scan_words r : scan_literal ("null" +:+ r) = Some (JNull, r) /\ scan_literal ("true" +:+ r) = Some (JBool true, r) /\
  scan_literal ("false" +:+ r) = Some (JBool false, r).
Proof. unfold scan_literal, HasPrefix. split_and!; by rewrite prefix_app_l. Qed.

Lemma value_reads_back v : json_wf v -> reads_back v.
Proof.
  induction v as [|b|l|raw|items IH|members IH] using json_ind'; cbn [json_wf]; intros W fuel d r F D Er;
    (destruct fuel as [|fuel]; [cbn in F; lia|]).
  - change (json_print JNull +:+ r) with (String "n" ("ull" +:+ r)). rewrite literal_value; [apply (scan_words r)|done|set_solver].
  - destruct (scan_words r) as (_ & T & Fa). destruct b; cbn [json_print FormatBool].
    + change ("true" +:+ r) with (String "t" ("rue" +:+ r)). rewrite literal_value; [done|done|set_solver].
    + change ("false" +:+ r) with (String "f" ("alse" +:+ r)). rewrite literal_value; [done|done|set_solver].
  - by apply number_value.
  - cbn [json_print]. rewrite !append_assoc. cbn [parse_value].
    change (skip_space (quote +:+ raw +:+ quote +:+ r)) with (String "034" (raw +:+ quote +:+ r)). cbn match.
    change ("034"%char == "034"%char) with true. cbn match. by rewrite scans_quote.
  - cbn [json_print json_depth json_fuel] in *. unfold json_array. rewrite !append_assoc.
    assert (G := foldr_max_nonneg (List.map json_depth items)).
    destruct items as [|v items]; [apply (parse_empty fuel d r); lia|].
    assert (H := items_read_back (v :: items) IH W ltac:(done) fuel (d + 1) r ltac:(lia) ltac:(lia)).
    destruct (print_head v) as (c & t & Ep & Sp & Np); [apply W|].
    assert (exists t', Join (List.map json_print (v :: items)) "," +:+ "]" +:+ r = String c t') as [t' Hs].
    { destruct items as [|w items]; cbn [List.map Join]; rewrite Ep; by eexists. }
    rewrite Hs in *. apply parse_array; [lia|done| |done]. intros ->. apply Np. set_solver.
  - cbn [json_print json_depth json_fuel] in *. rewrite !append_assoc.
    assert (G := foldr_max_nonneg (List.map (fun m => json_depth m.2) members)).
    destruct members as [|m members]; [apply (parse_empty fuel d r); lia|].
    assert (H := members_read_back (m :: members) IH W ltac:(done) fuel (d + 1) r ltac:(lia) ltac:(lia)).
    assert (exists t', Join (List.map print_member (m :: members)) "," +:+ "}" +:+ r = String "034" t') as [t' Hs].
    { destruct members as [|w members]; by eexists. }
    rewrite Hs in H. rewrite <- (parse_object fuel d t' (m :: members) r ltac:(lia) H). f_equal.
    change (String "{" (String "034" t')) with ("{" +:+ String "034" t'). rewrite <- Hs. do 3 f_equal.
    by apply List.map_ext; intros [].
Qed.

Lemma length_append s t : String.length (s +:+ t) = (String.length s + String.length t)%nat.
Proof. induction s as [|c s IH]; [done|]. cbn. by rewrite <- IH. Qed.

(** The fuel of [json_parse] is enough. *)
Lemma fuel_length v : json_wf v -> (json_fuel v <= String.length (json_print v))%nat.
Proof.
  assert (A : forall s t, String.length (s +:+ t) = (String.length s + String.length t)%nat) by apply length_append.
  induction v as [|b|l|raw|items IH|members IH] using json_ind'; cbn [json_wf json_fuel json_print]; intros W.
  - cbn. lia.
  - destruct b; cbn; lia.
  - destruct W as [(c & t & -> & _) _]. cbn. lia.
  - rewrite !A. cbn. lia.
  - unfold json_array. rewrite !A. cbn [String.length].
    assert (foldr (fun w n => S (json_fuel w `max` n)) O items <= 1 + String.length (Join (List.map json_print items) ","))%nat; [|lia].
    induction IH as [|v items Hv _ IH]; [cbn; lia|]. destruct W as [Wv W]. specialize (IH W). specialize (Hv Wv).
    destruct items as [|w items]; [cbn in *; lia|].
    change (Join (List.map json_print (v :: w :: items)) ",") with
      (json_print v +:+ "," +:+ Join (List.map json_print (w :: items)) ",").
    rewrite !A. cbn [foldr String.length] in *. lia.
  - rewrite !A. cbn [String.length]. rewrite (List.map_ext _ print_member) by (by intros []).
    assert (foldr (fun m n => S (json_fuel m.2 `max` n)) O members <= 1 + String.length (Join (List.map print_member members) ","))%nat; [|lia].
    induction IH as [|m members Hv _ IH]; [cbn; lia|]. destruct W as [[_ Wv] W]. specialize (IH W). specialize (Hv Wv).
    assert (L : (json_fuel m.2 <= String.length (print_member m))%nat) by (unfold print_member; rewrite !A; lia).
    destruct members as [|w members]; [cbn in *; lia|].
    change (Join (List.map print_member (m :: w :: members)) ",") with
      (print_member m +:+ "," +:+ Join (List.map print_member (w :: members)) ",").
    rewrite !A. cbn [foldr String.length] in *. lia.
Qed.

Theorem json_round_trip v : json_wf v -> json_depth v <= maxNestingDepth -> json_parse (json_print v) = Some v.
Proof.
  intros W D. unfold json_parse. assert (L := fuel_length v W).
  assert (E := value_reads_back v W (2 * String.length (json_print v) + 2)%nat 0 ""). rewrite append_nil in E.
  rewrite E by (try lia; by left). done.
Qed.

(** * What the parser accepts

    The tree of an accepted document can be printed and parsed again. *)

(** Rests that end a run of digits, a number without fraction, and one
    without exponent. *)
Definition no_digit (r : string) : Prop := match r with String c _ => is_digit c = false | EmptyString => True end.
Definition no_point (r : string) : Prop := no_digit r /\ match r with String c _ => c <> "."%char | EmptyString => True end.
Definition no_exponent (r : string) : Prop := no_point r /\ match r with String c _ => c <> "e"%char /\ c <> "E"%char | EmptyString => True end.

Lemma ends_no_exponent r : ends r -> no_exponent r.
Proof.
  intros [-> | (c & t & -> & E)]; [done|]. rewrite !elem_of_cons, elem_of_nil in E. cbn.
  destruct E as [->|[->|[->|[]]]]; split_and!; done.
Qed.

Lemma take_digits_inv s d rest : take_digits s = (d, rest) ->
  string_forallb is_digit d = true /\ forall r, no_digit r -> take_digits (d +:+ r) = (d, r).
Proof.
  revert d rest. induction s as [|c s IH]; intros d rest; cbn [take_digits].
  - intros [= <- <-]. split; [done|]. intros [|c r]; cbn; [done|]. by intros ->.
  - destruct (is_digit c) eqn:C; [destruct (take_digits s) as [d' rest'] eqn:E|]; intros [= <- <-].
    + destruct (IH _ _ eq_refl) as [D T]. cbn. rewrite C. split; [done|]. intros r N. by rewrite (T r N).
    + split; [done|]. intros [|x r]; cbn; [done|]. by intros ->.
Qed.

Lemma scan_digits_inv s d rest : scan_digits s = Some (d, rest) ->
  (exists c t, d = String c t /\ is_digit c = true) /\ forall r, no_digit r -> scan_digits (d +:+ r) = Some (d, r).
Proof.
  unfold scan_digits. destruct (take_digits s) as [d' rest'] eqn:E. destruct (d' == "") eqn:N; [done|]. intros [= <- <-].
  apply take_digits_inv in E as [D T]. split.
  - destruct d' as [|c t]; [done|]. cbn in D. apply andb_true_iff in D as [D _]. eauto.
  - intros r R. by rewrite (T r R), N.
Qed.

Lemma scan_exponent_inv s e rest : scan_exponent s = Some (e, rest) ->
  forall r, no_exponent r -> scan_exponent (e +:+ r) = Some (e, r) /\ no_point (e +:+ r).
Proof.
  assert (Empty : forall r, no_exponent r -> scan_exponent ("" +:+ r) = Some ("", r) /\ no_point ("" +:+ r)).
  { intros r [P E]. split; [|done]. destruct r as [|c r]; [done|]. destruct E as [E1 E2]. cbn. by rewrite !bool_decide_eq_false_2. }
  destruct s as [|c s]; cbn [scan_exponent]; [intros [= <- <-]; done|].
  destruct (_ || _) eqn:C; [|intros [= <- <-]; done].
  assert (Pt : forall t, no_point (String c t)).
  { intros t. apply orb_true_iff in C as [C|C]; apply bool_decide_eq_true in C as ->; done. }
  destruct s as [|g s]; [done|]. destruct ((g == "+"%char) || (g == "-"%char)) eqn:G.
  - destruct (scan_digits s) as [[d rest']|] eqn:E; [|done]. intros [= <- <-] r [[R _] _].
    destruct (scan_digits_inv _ _ _ E) as [_ T]. split; [|apply Pt]. cbn [String.append scan_exponent]. by rewrite C, G, (T r R).
  - destruct (scan_digits (String g s)) as [[d rest']|] eqn:E; [|done]. intros [= <- <-] r [[R _] _].
    destruct (scan_digits_inv _ _ _ E) as [(x & t & -> & X) T]. split; [|apply Pt]. cbn [String.append scan_exponent].
    assert (Gx : (x == "+"%char) || (x == "-"%char) = false).
    { apply orb_false_iff. split; apply bool_decide_eq_false; intros ->; done. }
    rewrite C, Gx. specialize (T r R). cbn [String.append] in T. by rewrite T.
Qed.

Lemma scan_fraction_inv s f rest : scan_fraction s = Some (f, rest) ->
  forall r, no_point r -> scan_fraction (f +:+ r) = Some (f, r) /\ no_digit (f +:+ r).
Proof.
  assert (Empty : forall r, no_point r -> scan_fraction ("" +:+ r) = Some ("", r) /\ no_digit ("" +:+ r)).
  { intros r [D P]. split; [|done]. destruct r as [|c r]; [done|]. cbn. by rewrite bool_decide_eq_false_2. }
  destruct s as [|c s]; cbn [scan_fraction]; [intros [= <- <-]; done|].
  destruct (c == "."%char) eqn:C; [|intros [= <- <-]; done]. apply bool_decide_eq_true in C as ->.
  destruct (scan_digits s) as [[d rest']|] eqn:E; [|done]. intros [= <- <-] r [R _].
  destruct (scan_digits_inv _ _ _ E) as [_ T]. split; [|done]. cbn. by rewrite (T r R).
Qed.

Lemma scan_integer_inv s i rest : scan_integer s = Some (i, rest) ->
  (exists c t, i = String c t /\ is_digit c = true) /\ forall r, no_digit r -> scan_integer (i +:+ r) = Some (i, r).
Proof.
  destruct s as [|c s]; cbn [scan_integer]; [done|]. destruct (c == "0"%char) eqn:C.
  - intros [= <- <-]. split; [by eexists _, _|]. done.
  - intros E. assert (H := scan_digits_inv _ _ _ E). destruct H as [(x & t & -> & X) T]. split; [eauto|]. intros r R.
    assert (x = c) as ->.
    { unfold scan_digits in E. cbn in E. destruct (is_digit c); [|done]. destruct (take_digits s). by injection E. }
    cbn [String.append scan_integer]. rewrite C. exact (T r R).
Qed.

Lemma scanned_number s l rest : scan_number s = Some (l, rest) -> number_text l.
Proof.
  unfold scan_number at 1. destruct (match s with String c r => if c == "-"%char then ("-", r) else ("", s) | EmptyString => ("", s) end)
    as [sign s1] eqn:Sg.
  destruct (scan_integer s1) as [[i s2]|] eqn:I; [|done]. cbn [mbind option_bind].
  destruct (scan_fraction s2) as [[f s3]|] eqn:F; [|done]. cbn [mbind option_bind].
  destruct (scan_exponent s3) as [[e s4]|] eqn:E; [|done]. cbn [mbind option_bind]. intros [= <- <-].
  destruct (scan_integer_inv _ _ _ I) as [(c & t & -> & C) Ti].
  assert (Nm : (c == "-"%char) = false) by (apply bool_decide_eq_false; intros ->; done).
  assert (S : sign = "-" \/ sign = "").
  { destruct s as [|x s]; [injection Sg as <- _; auto|]. destruct (_ == _); injection Sg as <- _; auto. }
  split; [destruct S as [-> | ->]; cbn; eauto|]. intros r R%ends_no_exponent. rewrite !append_assoc.
  destruct (scan_exponent_inv _ _ _ E r R) as [Te Pe]. destruct (scan_fraction_inv _ _ _ F _ Pe) as [Tf Pf]. specialize (Ti _ Pf).
  unfold scan_number. destruct S as [-> | ->]; cbn [String.append]; [|rewrite Nm];
    cbn [String.append] in Ti; change ("-"%char == "-"%char) with true; cbv iota; rewrite Ti; cbn [mbind option_bind];
    rewrite Tf; cbn [mbind option_bind]; rewrite Te; done.
Qed.

Lemma scans_char c raw : (c == "034"%char) = false -> (c == "092"%char) = false -> (byte_code c <? 32) = false -> scans raw -> scans (String c raw).
Proof.
  intros Q B L Hs r. cbn [String.append scan_string]. rewrite Q, B, L, Hs. by destruct (scan_string r) as [[more rest]|].
Qed.

Lemma scans_escape e raw : (e == "u"%char) = false -> is_Some (escape_char e) -> scans raw -> scans (String "092" (String e raw)).
Proof.
  intros U [x X] Hs r. cbn [String.append scan_string]. rewrite X. change ("092"%char == "034"%char) with false.
  change ("092"%char == "092"%char) with true. cbv iota. rewrite U, Hs. by destruct (scan_string r) as [[more rest]|].
Qed.

Lemma scans_unicode h1 h2 h3 h4 raw : is_Some (hex4 h1 h2 h3 h4) -> scans raw ->
  scans (String "092" (String "u" (String h1 (String h2 (String h3 (String h4 raw)))))).
Proof.
  intros [x X] Hs r. cbn [String.append scan_string]. change ("092"%char == "034"%char) with false.
  change ("092"%char == "092"%char) with true. change ("u"%char == "u"%char) with true. cbv iota. rewrite X, Hs.
  by destruct (scan_string r) as [[more rest]|].
Qed.

(** The steps of the scanner, the other way round. *)
Inductive scanned : string -> string -> string -> Prop :=
  | scanned_end r : scanned (String "034" r) "" r
  | scanned_unicode h1 h2 h3 h4 s raw rest : is_Some (hex4 h1 h2 h3 h4) -> scanned s raw rest ->
      scanned (String "092" (String "u" (String h1 (String h2 (String h3 (String h4 s))))))
        (String "092" (String "u" (String h1 (String h2 (String h3 (String h4 raw)))))) rest
  | scanned_escape e s raw rest : (e == "u"%char) = false -> is_Some (escape_char e) -> scanned s raw rest ->
      scanned (String "092" (String e s)) (String "092" (String e raw)) rest
  | scanned_char c s raw rest : (c == "034"%char) = false -> (c == "092"%char) = false -> (byte_code c <? 32) = false -> scanned s raw rest ->
      scanned (String c s) (String c raw) rest.

Lemma scan_string_scanned s raw rest : scan_string s = Some (raw, rest) -> scanned s raw rest.
Proof.
  assert (J : forall n s raw rest, (String.length s <= n)%nat -> scan_string s = Some (raw, rest) -> scanned s raw rest); [|by eauto].
  clear. induction n as [|n IH]; intros s raw rest L; [destruct s; [done|cbn in L; lia]|].
  destruct s as [|c s]; [done|]. cbn [scan_string]. cbn [String.length] in L.
  destruct (c == "034"%char) eqn:Q; [apply bool_decide_eq_true in Q as ->; intros [= <- <-]; apply scanned_end|].
  destruct (c == "092"%char) eqn:B.
  - apply bool_decide_eq_true in B as ->. destruct s as [|e s]; [done|]. cbn [String.length] in L. destruct (e == "u"%char) eqn:U.
    + apply bool_decide_eq_true in U as ->. destruct s as [|h1 [|h2 [|h3 [|h4 s]]]]; try done. cbn [String.length] in L.
      destruct (hex4 h1 h2 h3 h4) as [x|] eqn:H; [|done]. destruct (scan_string s) as [[raw' rest']|] eqn:E; [|done]. cbn.
      intros [= <- <-]. apply scanned_unicode; [by rewrite H|]. apply IH; [lia|done].
    + destruct (escape_char e) as [x|] eqn:H; [|done]. destruct (scan_string s) as [[raw' rest']|] eqn:E; [|done]. cbn.
      intros [= <- <-]. apply scanned_escape; [done|by rewrite H|]. apply IH; [lia|done].
  - destruct (byte_code c <? 32) eqn:C; [done|]. destruct (scan_string s) as [[raw' rest']|] eqn:E; [|done]. cbn.
    intros [= <- <-]. apply scanned_char; [done..|]. apply IH; [lia|done].
Qed.

Lemma scanned_scans s raw rest : scanned s raw rest -> scans raw.
Proof.
  induction 1; [apply scans_nil|by apply scans_unicode|by apply scans_escape|by apply scans_char].
Qed.

Lemma scan_literal_wf s v rest : scan_literal s = Some (v, rest) -> json_wf v /\ json_depth v = 0.
Proof.
  unfold scan_literal. repeat (destruct (HasPrefix _ _); [by intros [= <- <-]|]).
  destruct (scan_number s) as [[l r]|] eqn:E; [|done]. intros [= <- <-]. split; [by eapply scanned_number|done].
Qed.

(** Statements on the three functions of the parser at some fuel. *)
Definition values_wf (fuel : nat) : Prop := forall d s v rest, d <= maxNestingDepth -> parse_value fuel d s = Some (v, rest) ->
  json_wf v /\ d + json_depth v <= maxNestingDepth.
Definition items_wf (fuel : nat) : Prop := forall d s items rest, d <= maxNestingDepth -> parse_items fuel d s = Some (items, rest) ->
  json_wf (JArray items) /\ d + (json_depth (JArray items) - 1) <= maxNestingDepth.
Definition members_wf (fuel : nat) : Prop := forall d s members rest, d <= maxNestingDepth -> parse_members fuel d s = Some (members, rest) ->
  json_wf (JObject members) /\ d + (json_depth (JObject members) - 1) <= maxNestingDepth.

Lemma parse_items_wf n : values_wf n -> items_wf n -> items_wf (S n).
Proof.
  intros V I d s items rest D. cbn [parse_items]. destruct (parse_value n d s) as [[v r]|] eqn:E; [|done]. cbn [mbind option_bind].
  destruct (V _ _ _ _ D E) as [W Dv]. destruct (skip_space r) as [|c r']; [done|]. destruct (_ == _); [|destruct (_ == _); [|done]].
  - intros [= <- <-]. cbn [json_wf json_depth List.map foldr snd]. split; [done|lia].
  - destruct (parse_items n d r') as [[more r2]|] eqn:E2; [|done]. intros [= <- <-].
    destruct (I _ _ _ _ D E2) as [W2 D2]. cbn [json_wf json_depth List.map foldr snd] in *. split; [done|lia].
Qed.

Lemma parse_members_wf n : values_wf n -> members_wf n -> members_wf (S n).
Proof.
  intros V I d s members rest D. cbn [parse_members]. destruct (skip_space s) as [|q r]; [done|]. destruct (_ != _); [done|].
  destruct (scan_string r) as [[key r1]|] eqn:K; [|done]. cbn [mbind option_bind]. apply scan_string_scanned, scanned_scans in K.
  destruct (skip_space r1) as [|colon r2]; [done|]. destruct (_ != _); [done|].
  destruct (parse_value n d r2) as [[v r3]|] eqn:E; [|done]. cbn [mbind option_bind].
  destruct (V _ _ _ _ D E) as [W Dv]. destruct (skip_space r3) as [|c r4]; [done|]. destruct (_ == _); [|destruct (_ == _); [|done]].
  - intros [= <- <-]. cbn [json_wf json_depth List.map foldr snd]. split; [done|lia].
  - destruct (parse_members n d r4) as [[more r5]|] eqn:E2; [|done]. intros [= <- <-].
    destruct (I _ _ _ _ D E2) as [W2 D2]. cbn [json_wf json_depth List.map foldr snd] in *. split; [done|lia].
Qed.

Lemma parse_value_wf n : items_wf n -> members_wf n -> values_wf (S n).
Proof.
  intros I Mm d s v rest D. cbn [parse_value]. destruct (skip_space s) as [|c r] eqn:Sk; [done|].
  destruct (c == "034"%char).
  { destruct (scan_string r) as [[raw r1]|] eqn:E; [|done]. intros [= <- <-].
    split; [by eapply scanned_scans, scan_string_scanned|cbn; lia]. }
  destruct (c == "["%char); [|destruct (c == "{"%char)].
  - destruct (Z.leb_spec maxNestingDepth d) as [|Ld]; [done|]. destruct (skip_space r) as [|x r']; [done|].
    destruct (_ == _); [intros [= <- <-]; cbn [json_wf json_depth List.map foldr]; split; [done|lia]|].
    destruct (parse_items n (d + 1) r) as [[items r1]|] eqn:E; [|done]. intros [= <- <-].
    destruct (I (d + 1) r items r1 ltac:(lia) E) as [W Dv]. split; [done|lia].
  - destruct (Z.leb_spec maxNestingDepth d) as [|Ld]; [done|]. destruct (skip_space r) as [|x r']; [done|].
    destruct (_ == _); [intros [= <- <-]; cbn [json_wf json_depth List.map foldr]; split; [done|lia]|].
    destruct (parse_members n (d + 1) r) as [[members r1]|] eqn:E; [|done]. intros [= <- <-].
    destruct (Mm (d + 1) r members r1 ltac:(lia) E) as [W Dv]. split; [done|lia].
  - intros E. apply scan_literal_wf in E as [W Dv]. split; [done|lia].
Qed.

Lemma parsers_wf n : values_wf n /\ items_wf n /\ members_wf n.
Proof.
  induction n as [|n (V & I & Mm)]; [done|].
  split_and!; [by apply parse_value_wf|by apply parse_items_wf|by apply parse_members_wf].
Qed.

Lemma json_parse_wf s v : json_parse s = Some v -> json_wf v /\ json_depth v <= maxNestingDepth.
Proof.
  unfold json_parse. destruct (parse_value _ 0 s) as [[w rest]|] eqn:E; [|done]. cbn. destruct (_ == _); [|done]. intros [= <-].
  destruct (proj1 (parsers_wf (2 * String.length s + 2)) 0 s w rest) as [W D]; [done|done|]. split; [done|lia].
Qed.
