(* ===== verification/GoTime.v ===== *)
(** * Decimal numbers (strconv) and their JSON literals *)

From S2P Require Import Prelude GoLang GoFormat GoUtf8 Json.

Definition max_uint64 : Z := two64 - 1.

(** [strconv.ParseUint(s, 10, 64)] *)
Definition ParseUint (s : string) : option Z :=
  if (s == "") || negb (string_forallb is_digit s) then None
  else let v := digits_value 0 s in if v <=? max_uint64 then Some v else None.

(** [strconv.ParseInt(s, 10, 64)]; [Atoi] is the same on a 64 bit machine. *)
Definition ParseInt (s : string) : option Z :=
  let '(neg, r) := match s with
    | String c r => if c == "-"%char then (true, r) else if c == "+"%char then (false, r) else (false, s)
    | EmptyString => (false, s) end in
  if (r == "") || negb (string_forallb is_digit r) then None
  else let v := digits_value 0 r in
       if neg then (if v <=? two63 then Some (- v) else None) else if v <=? max_int then Some v else None.

Definition Atoi : string -> option Z := ParseInt.

Example ParseInt_bounds : ParseInt "-9223372036854775808" = Some min_int /\ ParseInt "9223372036854775808" = None /\ ParseInt "1_0" = None.
Proof. vm_compute. done. Qed.

(** ** [Itoa] and back *)

Definition digit_char (n : N) : ascii := pretty_N_char n.

Lemma digit_char_ok n : (n < 10)%N ->
  is_digit (pretty_N_char n) = true /\ byte_code (pretty_N_char n) - 48 = Z.of_N n /\ ((n <> 0)%N -> pretty_N_char n <> "0"%char).
Proof.
  intros H. assert (F : forallb (fun n => is_digit (pretty_N_char n) && (byte_code (pretty_N_char n) - 48 =? Z.of_N n)
    && ((n =? 0)%N || (pretty_N_char n != "0"%char))) (List.map N.of_nat (seq 0 10)) = true) by by vm_compute.
  rewrite forallb_forall in F. specialize (F n). rewrite !andb_true_iff, orb_true_iff, Z.eqb_eq, N.eqb_eq, negb_true_iff,
    bool_decide_eq_false in F. destruct F as [[F1 F2] F3]; [|naive_solver].
  apply in_map_iff. exists (N.to_nat n). split; [lia|]. apply in_seq. lia.
Qed.

Lemma pretty_go_ok : forall x s, (0 < x)%N ->
  digits_value 0 (pretty_N_go x s) = digits_value (Z.of_N x) s /\
  exists c t, pretty_N_go x s = String c (t +:+ s) /\ is_digit c = true /\ c <> "0"%char /\ string_forallb is_digit t = true.
Proof.
  intros x. induction x as [x IH] using (well_founded_induction N.lt_wf_0). intros s Hx. rewrite pretty_N_go_step by lia.
  assert (M : (x mod 10 < 10)%N) by (apply N.mod_lt; lia). destruct (digit_char_ok _ M) as (D1 & D2 & D3).
  destruct (decide (x / 10 = 0)%N) as [Z0|NZ].
  - assert (X := N.div_mod x 10 ltac:(lia)). rewrite Z0 in X |- *. rewrite N.mul_0_r, N.add_0_l in X. rewrite pretty_N_go_0.
    cbn [digits_value]. rewrite <- X in *. split; [f_equal; lia|]. exists (pretty_N_char x), "". split_and!; try done. apply D3. lia.
  - destruct (IH (x / 10)%N ltac:(apply N.div_lt; lia) (String (pretty_N_char (x mod 10)) s) (proj1 (N.neq_0_lt_0 _) NZ)) as (V & c & t & E & C1 & C2 & T).
    split.
    + rewrite V. cbn [digits_value]. f_equal. rewrite D2. assert (X := N.div_mod x 10 ltac:(lia)). lia.
    + exists c, (t +:+ String (pretty_N_char (x mod 10)) ""). rewrite append_assoc. split_and!; try done.
      clear E V. induction t as [|a t IHt]; cbn in *; [by rewrite D1|]. apply andb_true_iff in T as [-> T]. cbn. auto.
Qed.

Lemma Itoa_ok z : 0 <= z -> digits_value 0 (Itoa z) = z /\
  exists c t, Itoa z = String c t /\ is_digit c = true /\ string_forallb is_digit t = true /\ (c = "0"%char -> t = "").
Proof.
  intros Hz. destruct z as [|p|p]; [| |lia].
  - split; [done|]. by exists "0"%char, "".
  - change (Itoa (Z.pos p)) with (pretty_N_go (N.pos p) ""). destruct (pretty_go_ok (N.pos p) "") as (V & c & t & E & C1 & C2 & T); [done|].
    rewrite V. split; [done|]. exists c, t. rewrite E, append_nil. split_and!; try done.
Qed.

Lemma forallb_digits_cons c t : is_digit c = true -> string_forallb is_digit t = true -> string_forallb is_digit (String c t) = true.
Proof. cbn. by intros -> ->. Qed.

Lemma ParseUint_Itoa z : 0 <= z <= max_uint64 -> ParseUint (Itoa z) = Some z.
Proof.
  intros [Hz Hm]. destruct (Itoa_ok z Hz) as (V & c & t & E & C & T & _). unfold ParseUint. rewrite V, E.
  rewrite forallb_digits_cons by done. cbn -[max_uint64]. by rewrite (proj2 (Z.leb_le z max_uint64)).
Qed.

Lemma take_digits_ends t r : string_forallb is_digit t = true -> ends r -> take_digits (t +:+ r) = (t, r).
Proof.
  intros T Er. induction t as [|c t IH]; cbn in *.
  - destruct Er as [-> | (c & s & -> & Hc)]; [done|]. cbn.
    assert (is_digit c = false) as ->; [|done]. rewrite !elem_of_cons, elem_of_nil in Hc. naive_solver.
  - apply andb_true_iff in T as [-> T]. by rewrite IH.
Qed.

Lemma Itoa_number z : 0 <= z -> number_text (Itoa z).
Proof.
  intros Hz. destruct (Itoa_ok z Hz) as (_ & c & t & E & C & T & Z0). rewrite E. split; [eauto|]. intros r Er.
  assert (Nm : (c == "-"%char) = false) by (apply bool_decide_eq_false; intros ->; done).
  assert (F : scan_fraction r = Some ("", r) /\ scan_exponent r = Some ("", r)).
  { destruct Er as [-> | (d & s & -> & Hd)]; [done|]. rewrite !elem_of_cons, elem_of_nil in Hd. naive_solver. }
  destruct F as [F1 F2]. unfold scan_number. cbn [String.append]. rewrite Nm.
  assert (I : scan_integer (String c (t +:+ r)) = Some (String c t, r)).
  { cbn [scan_integer]. destruct (c == "0"%char) eqn:Ec.
    - apply bool_decide_eq_true in Ec as ->. by rewrite Z0.
    - unfold scan_digits. change (String c (t +:+ r)) with (String c t +:+ r). by rewrite take_digits_ends by (try apply forallb_digits_cons; done). }
  rewrite I. cbn. rewrite F1. cbn. rewrite F2. cbn. by rewrite !append_nil.
Qed.

(** * RFC 3339 timestamps: reading back (package time)

    [ParseRFC3339] is the parser the decoder of [time.Time] tries first; the
    few more spellings that [time.Parse] takes when it fails (an hour of one
    digit, a comma before the fraction) are not modelled. *)

(** The number of a date's day, from 1 January of year 1. *)
Definition days_of_civil (y m d : Z) : Z :=
  let y := if m <=? 2 then y - 1 else y in
  let doy := (153 * ((m + 9) mod 12) + 2) / 5 + d - 1 in
  let yoe := y mod 400 in
  y / 400 * 146097 + (yoe * 365 + yoe / 4 - yoe / 100 + doy) - 306.

Definition isLeap (y : Z) : bool := (y mod 4 =? 0) && (negb (y mod 100 =? 0) || (y mod 400 =? 0)).

Definition daysIn (m y : Z) : Z :=
  if m =? 2 then (if isLeap y then 29 else 28) else if (m =? 4) || (m =? 6) || (m =? 9) || (m =? 11) then 30 else 31.

(** [n] digits, between bounds, and what follows them. *)
Fixpoint read_digits (n : nat) (acc : Z) (s : string) : option (Z * string) :=
  match n with
  | O => Some (acc, s)
  | S n => match s with
           | String c r => if is_digit c then read_digits n (acc * 10 + (byte_code c - 48)) r else None
           | EmptyString => None
           end
  end.

Definition read_number (n : nat) (lo hi : Z) (s : string) : option (Z * string) :=
  '(v, r) ← read_digits n 0 s; if (lo <=? v) && (v <=? hi) then Some (v, r) else None.

Definition read_char (c : ascii) (s : string) : option string :=
  match s with String a r => if a == c then Some r else None | EmptyString => None end.

(** Nanoseconds: nine digits count. *)
Definition read_fraction (s : string) : Z * string :=
  match s with
  | String "." r =>
      let '(digits, rest) := take_digits r in
      if digits == "" then (0, s)
      else let kept := string_take 9 digits in
           (digits_value 0 kept * 10 ^ (9 - string_len kept), rest)
  | _ => (0, s)
  end.

Definition read_zone (s : string) : option Z :=
  if s == "Z" then Some 0 else
  match s with
  | String sign r =>
      '(hr, r) ← read_number 2 0 23 r; r ← read_char ":" r; '(mm, r) ← read_number 2 0 59 r;
      if r != "" then None
      else if sign == "-"%char then Some (- ((hr * 60 + mm) * 60))
      else if sign == "+"%char then Some ((hr * 60 + mm) * 60) else None
  | EmptyString => None
  end.

Definition ParseRFC3339 (s : string) : option Time :=
  '(y, s) ← read_number 4 0 9999 s; s ← read_char "-" s;
  '(m, s) ← read_number 2 1 12 s; s ← read_char "-" s;
  '(d, s) ← read_number 2 1 (daysIn m y) s; s ← read_char "T" s;
  '(h, s) ← read_number 2 0 23 s; s ← read_char ":" s;
  '(mi, s) ← read_number 2 0 59 s; s ← read_char ":" s;
  '(sec, s) ← read_number 2 0 59 s;
  let '(nanos, s) := read_fraction s in
  offset ← read_zone s;
  Some ((days_of_civil y m d * 86400 + h * 3600 + mi * 60 + sec - offset) * Second + nanos).

Example ParseRFC3339_zone : ParseRFC3339 "2024-03-15T12:34:56.789+02:00" = ParseRFC3339 "2024-03-15T10:34:56.789Z" /\
  ParseRFC3339 "2023-02-29T00:00:00Z" = None.
Proof. vm_compute. done. Qed.

(** ** The calendar *)

(** Days before the year [y] of an era, whose years begin in March. *)
Definition year_start (y : Z) : Z := 365 * y + y / 4 - y / 100 + y / 400.

Lemma year_of_day doe yoe : 0 <= doe < 146097 -> yoe = (doe - doe / 1460 + doe / 36524 - doe / 146096) / 365 ->
  0 <= yoe < 400 /\ year_start yoe <= doe < year_start (yoe + 1).
Proof. intros R ->. unfold year_start. split; [|split]; Z.div_mod_to_equations; lia. Qed.

Lemma year_length y : year_start (y + 1) <= year_start y + 366 /\
  (year_start (y + 1) = year_start y + 366 -> isLeap (y + 1) = true).
Proof.
  unfold year_start, isLeap. split; [Z.div_mod_to_equations; lia|]. intros E.
  rewrite andb_true_iff, orb_true_iff, negb_true_iff, Z.eqb_neq, !Z.eqb_eq. Z.div_mod_to_equations. lia.
Qed.

(** Month and day of a day of such a year; the last one is 29 February. *)
Definition month_ok (doy : Z) : bool :=
  let mp := (5 * doy + 2) / 153 in
  let d := doy - (153 * mp + 2) / 5 + 1 in
  let m := if mp <? 10 then mp + 3 else mp - 9 in
  (0 <=? mp) && (mp <=? 11) && (1 <=? m) && (m <=? 12) && ((m + 9) mod 12 =? mp) && (1 <=? d)
  && (if m =? 2 then (d <=? 28) || (d =? 29) && (doy =? 365) else d <=? daysIn m 1).

Lemma month_ok_all doy : 0 <= doy <= 365 -> month_ok doy = true.
Proof.
  intros R. assert (F : forallb month_ok (seqZ 0 366) = true) by by vm_compute.
  rewrite forallb_forall in F. apply F, list_elem_of_In, elem_of_seqZ. lia.
Qed.

Lemma civil_inverse days : let '(y, m, d) := civil_of_days days in
  days_of_civil y m d = days /\ 1 <= m <= 12 /\ 1 <= d <= daysIn m y.
Proof.
  unfold civil_of_days. set (era := (days + 306) / 146097). set (doe := (days + 306) mod 146097).
  assert (E : days + 306 = 146097 * era + doe) by (apply Z.div_mod; lia).
  assert (R : 0 <= doe < 146097) by (apply Z.mod_pos_bound; lia). clearbody era doe.
  set (yoe := (doe - doe / 1460 + doe / 36524 - doe / 146096) / 365).
  destruct (year_of_day doe yoe R eq_refl) as [Ry [L U]]. clearbody yoe. cbv zeta.
  assert (Ys : year_start yoe = 365 * yoe + yoe / 4 - yoe / 100) by (unfold year_start; rewrite (Z.div_small yoe 400); lia).
  set (doy := doe - (365 * yoe + yoe / 4 - yoe / 100)). destruct (year_length yoe) as [Yl Yleap].
  assert (Rd : 0 <= doy <= 365) by lia. assert (M := month_ok_all doy Rd). unfold month_ok in M.
  assert (Feb : doy = 365 -> isLeap (yoe + 1) = true) by (intros Hd; apply Yleap; lia).
  assert (Ed : doe = 365 * yoe + yoe / 4 - yoe / 100 + doy) by lia. clearbody doy.
  set (mp := (5 * doy + 2) / 153) in *. set (m := if mp <? 10 then mp + 3 else mp - 9) in *.
  set (d := doy - (153 * mp + 2) / 5 + 1) in *. cbv zeta in M.
  rewrite !andb_true_iff, !Z.leb_le, Z.eqb_eq in M. destruct M as [[[[[[M1 M2] M3] M4] M5] M6] M7].
  set (y := yoe + era * 400 + (if m <=? 2 then 1 else 0)).
  assert (Y : (if m <=? 2 then y - 1 else y) = yoe + era * 400) by (unfold y; destruct (m <=? 2); lia).
  split_and!; try done.
  - unfold days_of_civil. rewrite Y, M5, Z.div_add, Z.mod_add, Z.div_small, Z.mod_small by lia. unfold d. lia.
  - destruct (m =? 2) eqn:Em.
    + apply Z.eqb_eq in Em. unfold daysIn. rewrite Em. cbn [Z.eqb Pos.eqb]. rewrite orb_true_iff, andb_true_iff, Z.leb_le, !Z.eqb_eq in M7.
      assert (Ly : isLeap y = isLeap (yoe + 1)).
      { unfold y. rewrite Em. cbn [Z.leb Z.compare Pos.compare Pos.compare_cont]. unfold isLeap.
        replace (yoe + era * 400 + 1) with (yoe + 1 + era * 400) by lia.
        replace ((yoe + 1 + era * 400) mod 4) with ((yoe + 1) mod 4) by (replace (era * 400) with (era * 100 * 4) by lia; by rewrite Z.mod_add).
        replace ((yoe + 1 + era * 400) mod 100) with ((yoe + 1) mod 100) by (replace (era * 400) with (era * 4 * 100) by lia; by rewrite Z.mod_add).
        by rewrite Z.mod_add. }
      rewrite Ly. destruct M7 as [M7|[M7 D]]; [destruct (isLeap _); lia|]. rewrite Feb by done. lia.
    + apply Z.leb_le in M7. unfold daysIn in *. rewrite Em in *. done.
Qed.

Definition time_Year (t : Time) : Z := let '(y, _, _) := civil_of_days (t / Second / 86400) in y.

(** ** Formatting and parsing *)

Lemma read_digits_app a b acc s : read_digits (a + b) acc s = '(v, r) ← read_digits a acc s; read_digits b v r.
Proof.
  revert acc s. induction a as [|a IH]; intros acc s; [done|]. cbn. destruct s as [|c r]; [done|].
  destruct (is_digit c); [apply IH|done].
Qed.

Lemma hex_digit_decimal n : 0 <= n < 10 -> is_digit (hex_digit n) = true /\ byte_code (hex_digit n) - 48 = n.
Proof.
  intros H. assert (F : forallb (fun n => is_digit (hex_digit n) && (byte_code (hex_digit n) - 48 =? n)) (seqZ 0 10) = true) by by vm_compute.
  rewrite forallb_forall in F. specialize (F n). rewrite andb_true_iff, Z.eqb_eq in F. apply F, list_elem_of_In, elem_of_seqZ. lia.
Qed.

Lemma mod_pow_succ x n : 0 <= n -> x mod 10 ^ (n + 1) = x / 10 mod 10 ^ n * 10 + x mod 10.
Proof. intros Hn. rewrite Z.pow_add_r, Z.mul_comm, Z.rem_mul_r by lia. change (10 ^ 1) with 10. lia. Qed.

Lemma read_pad n x acc r : read_digits n acc (pad_digits n x +:+ r) = Some (acc * 10 ^ Z.of_nat n + x mod 10 ^ Z.of_nat n, r).
Proof.
  revert x acc r. induction n as [|n IH]; intros x acc r; [cbn; by rewrite Z.mod_1_r, Z.mul_1_r, Z.add_0_r|].
  rewrite <- Nat.add_1_r, read_digits_app. cbn [pad_digits Nat.add]. rewrite Nat.add_1_r. cbn [pad_digits].
  rewrite append_assoc, IH. cbn. destruct (hex_digit_decimal (x mod 10)) as [-> ->]; [by apply Z.mod_pos_bound|].
  do 2 f_equal. rewrite Nat2Z.inj_succ, <- Z.add_1_r, mod_pow_succ, Z.pow_add_r by lia. change (10 ^ 1) with 10. ring.
Qed.

Lemma read_number_pad n lo hi x r : 0 <= x < 10 ^ Z.of_nat n -> lo <= x <= hi ->
  read_number n lo hi (pad_digits n x +:+ r) = Some (x, r).
Proof.
  intros Hx Hb. unfold read_number. rewrite read_pad. cbn [mbind option_bind]. rewrite Z.mod_small, Z.mul_0_l, Z.add_0_l by done.
  by rewrite (proj2 (Z.leb_le lo x)), (proj2 (Z.leb_le x hi)) by lia.
Qed.

Lemma digits_value_app acc s t : digits_value acc (s +:+ t) = digits_value (digits_value acc s) t.
Proof. revert acc. induction s as [|c s IH]; intros acc; [done|]. apply IH. Qed.

Lemma digits_value_pad n x : digits_value 0 (pad_digits n x) = x mod 10 ^ Z.of_nat n.
Proof.
  revert x. induction n as [|n IH]; intros x; [cbn; by rewrite Z.mod_1_r|]. cbn [pad_digits].
  rewrite digits_value_app, IH. cbn [digits_value]. destruct (hex_digit_decimal (x mod 10)) as [_ ->]; [by apply Z.mod_pos_bound|].
  rewrite Nat2Z.inj_succ, <- Z.add_1_r, mod_pow_succ by lia. lia.
Qed.

Lemma pad_digits_digits n x : string_forallb is_digit (pad_digits n x) = true /\ String.length (pad_digits n x) = n.
Proof.
  revert x. induction n as [|n IH]; intros x; [done|]. cbn [pad_digits]. destruct (IH (x / 10)) as [D L].
  rewrite length_append, L. cbn [String.length]. split; [|lia].
  destruct (hex_digit_decimal (x mod 10)) as [Hd _]; [by apply Z.mod_pos_bound|].
  revert D. generalize (pad_digits n (x / 10)). intros s. induction s as [|c s IHs]; cbn; [by rewrite Hd|].
  rewrite andb_true_iff. intros [-> D]. auto.
Qed.

Lemma trim_zeros_value s acc : digits_value acc s = digits_value acc (trim_zeros s) * 10 ^ (string_len s - string_len (trim_zeros s)) /\
  string_len (trim_zeros s) <= string_len s.
Proof.
  revert acc. induction s as [|c s IH]; intros acc; [split; [symmetry; apply Z.mul_1_r|done]|]. cbn [trim_zeros digits_value].
  destruct (IH (acc * 10 + (byte_code c - 48))) as [V L]. unfold string_len in *. cbn [String.length].
  destruct (_ && _) eqn:E.
  - rewrite andb_true_iff, !bool_decide_eq_true in E. destruct E as [-> E]. rewrite V, E. cbn [digits_value String.length].
    change (byte_code "0") with 48. rewrite Nat2Z.inj_succ. rewrite !Z.sub_0_r, <- Z.add_1_r, Z.pow_add_r by lia. change (10 ^ 1) with 10. split; [ring|lia].
  - cbn [digits_value String.length]. rewrite V. split; [do 2 f_equal; lia|lia].
Qed.

Lemma trim_zeros_digits s : string_forallb is_digit s = true -> string_forallb is_digit (trim_zeros s) = true.
Proof.
  induction s as [|c s IH]; [done|]. cbn. intros [C S]%andb_true_iff. destruct (_ && _); [done|]. cbn. by rewrite C, IH.
Qed.

Lemma take_digits_stop t c r : string_forallb is_digit t = true -> is_digit c = false ->
  take_digits (t +:+ String c r) = (t, String c r).
Proof. intros T C. induction t as [|a t IH]; cbn in *; [by rewrite C|]. apply andb_true_iff in T as [-> T]. by rewrite IH. Qed.

Lemma string_take_all n s : (String.length s <= n)%nat -> string_take n s = s.
Proof. revert n. induction s as [|c s IH]; intros [|n] L; cbn in *; [done..|lia|]. by rewrite IH by lia. Qed.

Lemma read_fraction_format nanos : 0 <= nanos < Second ->
  read_fraction ((if trim_zeros (pad_digits 9 nanos) == "" then "" else "." +:+ trim_zeros (pad_digits 9 nanos)) +:+ "Z") = (nanos, "Z").
Proof.
  intros R. destruct (pad_digits_digits 9 nanos) as [D L]. assert (T := trim_zeros_digits _ D).
  destruct (trim_zeros_value (pad_digits 9 nanos) 0) as [V Lt]. rewrite digits_value_pad, Z.mod_small in V by done.
  unfold string_len in *. rewrite L in V, Lt. destruct (_ == _) eqn:E.
  - apply bool_decide_eq_true in E. rewrite E in V. cbn. f_equal. cbn in V. lia.
  - change (("." +:+ trim_zeros (pad_digits 9 nanos)) +:+ "Z") with (String "." (trim_zeros (pad_digits 9 nanos) +:+ "Z")).
    cbn [read_fraction]. rewrite take_digits_stop, E by done. rewrite string_take_all by lia. f_equal. by symmetry.
Qed.

#[local] Transparent FormatRFC3339Nano.

Lemma read_char_cons c r : read_char c (String c r) = Some r.
Proof. cbn. by rewrite bool_decide_eq_true_2. Qed.

Lemma RFC3339_round_trip t : 0 <= time_Year t <= 9999 -> ParseRFC3339 (FormatRFC3339Nano t) = Some t.
Proof.
  unfold time_Year, FormatRFC3339Nano, ParseRFC3339. intros Hy. assert (C := civil_inverse (t / Second / 86400)).
  destruct (civil_of_days (t / Second / 86400)) as [[y m] d]. destruct C as (E & Hm & Hd).
  assert (Hd31 : d <= 31) by (revert Hd; unfold daysIn; repeat case_match; lia).
  set (sod := t / Second mod 86400). assert (Hs : 0 <= sod < 86400) by (apply Z.mod_pos_bound; lia).
  assert (H1 : 0 <= sod / 3600 <= 23) by euclid. assert (H2 : 0 <= sod / 60 mod 60 <= 59) by euclid.
  assert (H3 : 0 <= sod mod 60 <= 59) by euclid.
  assert (Hn : 0 <= t mod Second < Second) by (by apply Z.mod_pos_bound).
  assert (Sp : forall n lo hi x (c : ascii) r, 0 <= x < 10 ^ Z.of_nat n -> lo <= x <= hi ->
    read_number n lo hi (pad_digits n x +:+ String c "" +:+ r) = Some (x, String c r)) by (intros; by apply read_number_pad).
  rewrite (Sp 4%nat) by (cbn; lia). cbn [mbind option_bind]. rewrite read_char_cons. cbn [mbind option_bind].
  rewrite (Sp 2%nat) by (cbn; lia). cbn [mbind option_bind]. rewrite read_char_cons. cbn [mbind option_bind].
  rewrite (Sp 2%nat) by (cbn; lia). cbn [mbind option_bind]. rewrite read_char_cons. cbn [mbind option_bind].
  rewrite (Sp 2%nat) by (cbn; lia). cbn [mbind option_bind]. rewrite read_char_cons. cbn [mbind option_bind].
  rewrite (Sp 2%nat) by (cbn; lia). cbn [mbind option_bind]. rewrite read_char_cons. cbn [mbind option_bind].
  rewrite read_number_pad by (cbn; lia). cbn [mbind option_bind]. rewrite read_fraction_format by done.
  change (read_zone "Z") with (Some 0). cbn [mbind option_bind]. rewrite E. f_equal.
  assert (Hsod : sod / 3600 * 3600 + sod / 60 mod 60 * 60 + sod mod 60 = sod) by euclid.
  assert (X := Z.div_mod t Second ltac:(done)). assert (Y := Z.div_mod (t / Second) 86400 ltac:(lia)). fold sod in Y.
  clearbody sod. lia.
Qed.
