(* ===== verification/CaseModel.v ===== *)
(** * Cases and evidence: the data model

    The records of [core/case.go], [core/evidence.go] and [core/retention.go]. *)

From S2P Require Import Prelude GoLang GoFormat Core.

Definition CaseStatusOpen := "OPEN".
Definition CaseStatusInvestigation := "INVESTIGATION".
Definition CaseStatusResponse := "RESPONSE".
Definition CaseStatusClosed := "CLOSED".

Definition CaseTaskOpen := "OPEN".
Definition CaseTaskInProgress := "IN_PROGRESS".
Definition CaseTaskDone := "DONE".
Definition CaseTaskCancelled := "CANCELLED".

Record CaseParticipant : Type := {
  cp_UserID : string;
  cp_Role : string;
  cp_AddedBy : string;
  cp_AddedAt : Time
}.
#[export] Instance eta_CaseParticipant : Eta CaseParticipant := fun r => {|
  cp_UserID := cp_UserID r; cp_Role := cp_Role r; cp_AddedBy := cp_AddedBy r;
  cp_AddedAt := cp_AddedAt r
|}.
Definition zero_CaseParticipant : CaseParticipant := {|
  cp_UserID := ""; cp_Role := ""; cp_AddedBy := "";
  cp_AddedAt := zero_time
|}.

Record CaseObservable : Type := {
  cob_ID : string;
  cob_Type : string;
  cob_Value : string;
  cob_Source : string;
  cob_AddedBy : string;
  cob_CreatedAt : Time
}.
#[export] Instance eta_CaseObservable : Eta CaseObservable := fun r => {|
  cob_ID := cob_ID r; cob_Type := cob_Type r; cob_Value := cob_Value r;
  cob_Source := cob_Source r; cob_AddedBy := cob_AddedBy r; cob_CreatedAt := cob_CreatedAt r
|}.
Definition zero_CaseObservable : CaseObservable := {|
  cob_ID := ""; cob_Type := ""; cob_Value := "";
  cob_Source := ""; cob_AddedBy := ""; cob_CreatedAt := zero_time
|}.

Record CaseTask : Type := {
  ct_ID : string;
  ct_Title : string;
  ct_Description : string;
  ct_Status : string;
  ct_Assignee : string;
  ct_DueAt : option Time;
  ct_CreatedBy : string;
  ct_CompletedBy : string;
  ct_Version : Z;
  ct_CreatedAt : Time;
  ct_UpdatedAt : Time;
  ct_CompletedAt : option Time
}.
#[export] Instance eta_CaseTask : Eta CaseTask := fun r => {|
  ct_ID := ct_ID r; ct_Title := ct_Title r; ct_Description := ct_Description r;
  ct_Status := ct_Status r; ct_Assignee := ct_Assignee r; ct_DueAt := ct_DueAt r;
  ct_CreatedBy := ct_CreatedBy r; ct_CompletedBy := ct_CompletedBy r; ct_Version := ct_Version r;
  ct_CreatedAt := ct_CreatedAt r; ct_UpdatedAt := ct_UpdatedAt r; ct_CompletedAt := ct_CompletedAt r
|}.
Definition zero_CaseTask : CaseTask := {|
  ct_ID := ""; ct_Title := ""; ct_Description := "";
  ct_Status := ""; ct_Assignee := ""; ct_DueAt := None;
  ct_CreatedBy := ""; ct_CompletedBy := ""; ct_Version := 0;
  ct_CreatedAt := zero_time; ct_UpdatedAt := zero_time; ct_CompletedAt := None
|}.

Record CaseComment : Type := {
  cc_ID : string;
  cc_Body : string;
  cc_Author : string;
  cc_CreatedAt : Time
}.
#[export] Instance eta_CaseComment : Eta CaseComment := fun r => {|
  cc_ID := cc_ID r; cc_Body := cc_Body r; cc_Author := cc_Author r;
  cc_CreatedAt := cc_CreatedAt r
|}.
Definition zero_CaseComment : CaseComment := {|
  cc_ID := ""; cc_Body := ""; cc_Author := "";
  cc_CreatedAt := zero_time
|}.

Record CaseHistoryEntry : Type := {
  ch_ID : string;
  ch_Action : string;
  ch_Message : string;
  ch_Actor : string;
  ch_Metadata : Metadata;
  ch_CreatedAt : Time
}.
#[export] Instance eta_CaseHistoryEntry : Eta CaseHistoryEntry := fun r => {|
  ch_ID := ch_ID r; ch_Action := ch_Action r; ch_Message := ch_Message r;
  ch_Actor := ch_Actor r; ch_Metadata := ch_Metadata r; ch_CreatedAt := ch_CreatedAt r
|}.
Definition zero_CaseHistoryEntry : CaseHistoryEntry := {|
  ch_ID := ""; ch_Action := ""; ch_Message := "";
  ch_Actor := ""; ch_Metadata := None; ch_CreatedAt := zero_time
|}.

Record CaseSLA : Type := {
  csla_DueAt : Time;
  csla_Breached : bool
}.
#[export] Instance eta_CaseSLA : Eta CaseSLA := fun r => {|
  csla_DueAt := csla_DueAt r; csla_Breached := csla_Breached r
|}.
Definition zero_CaseSLA : CaseSLA := {|
  csla_DueAt := zero_time; csla_Breached := false
|}.

Record Case : Type := {
  cs_ID : string;
  cs_TenantID : string;
  cs_RequestID : string;
  cs_Title : string;
  cs_Description : string;
  cs_Status : string;
  cs_Severity : Severity;
  cs_Owner : string;
  cs_ClosureSummary : string;
  cs_IncidentIDs : list string;
  cs_EvidenceIDs : list string;
  cs_Participants : list CaseParticipant;
  cs_Observables : list CaseObservable;
  cs_Tasks : list CaseTask;
  cs_Comments : list CaseComment;
  cs_History : list CaseHistoryEntry;
  cs_SLA : CaseSLA;
  cs_AllowedTransitions : list string;
  cs_Version : Z;
  cs_CreatedBy : string;
  cs_UpdatedBy : string;
  cs_CreatedAt : Time;
  cs_UpdatedAt : Time;
  cs_ClosedAt : option Time
}.
#[export] Instance eta_Case : Eta Case := fun r => {|
  cs_ID := cs_ID r; cs_TenantID := cs_TenantID r; cs_RequestID := cs_RequestID r;
  cs_Title := cs_Title r; cs_Description := cs_Description r; cs_Status := cs_Status r;
  cs_Severity := cs_Severity r; cs_Owner := cs_Owner r; cs_ClosureSummary := cs_ClosureSummary r;
  cs_IncidentIDs := cs_IncidentIDs r; cs_EvidenceIDs := cs_EvidenceIDs r; cs_Participants := cs_Participants r;
  cs_Observables := cs_Observables r; cs_Tasks := cs_Tasks r; cs_Comments := cs_Comments r;
  cs_History := cs_History r; cs_SLA := cs_SLA r; cs_AllowedTransitions := cs_AllowedTransitions r;
  cs_Version := cs_Version r; cs_CreatedBy := cs_CreatedBy r; cs_UpdatedBy := cs_UpdatedBy r;
  cs_CreatedAt := cs_CreatedAt r; cs_UpdatedAt := cs_UpdatedAt r; cs_ClosedAt := cs_ClosedAt r
|}.
Definition zero_Case : Case := {|
  cs_ID := ""; cs_TenantID := ""; cs_RequestID := "";
  cs_Title := ""; cs_Description := ""; cs_Status := "";
  cs_Severity := ""; cs_Owner := ""; cs_ClosureSummary := "";
  cs_IncidentIDs := []; cs_EvidenceIDs := []; cs_Participants := [];
  cs_Observables := []; cs_Tasks := []; cs_Comments := [];
  cs_History := []; cs_SLA := zero_CaseSLA; cs_AllowedTransitions := [];
  cs_Version := 0; cs_CreatedBy := ""; cs_UpdatedBy := "";
  cs_CreatedAt := zero_time; cs_UpdatedAt := zero_time; cs_ClosedAt := None
|}.

Record CaseFilter : Type := {
  csf_Query : string;
  csf_Status : string;
  csf_Severity : string;
  csf_Owner : string;
  csf_IncidentID : string;
  csf_Limit : Z
}.
#[export] Instance eta_CaseFilter : Eta CaseFilter := fun r => {|
  csf_Query := csf_Query r; csf_Status := csf_Status r; csf_Severity := csf_Severity r;
  csf_Owner := csf_Owner r; csf_IncidentID := csf_IncidentID r; csf_Limit := csf_Limit r
|}.
Definition zero_CaseFilter : CaseFilter := {|
  csf_Query := ""; csf_Status := ""; csf_Severity := "";
  csf_Owner := ""; csf_IncidentID := ""; csf_Limit := 0
|}.

Record EvidenceItem : Type := {
  evd_ID : string;
  evd_TenantID : string;
  evd_RequestID : string;
  evd_CaseID : string;
  evd_IncidentID : string;
  evd_AlertID : string;
  evd_EventID : string;
  evd_Filename : string;
  evd_ContentType : string;
  evd_Description : string;
  evd_Size : Z;
  evd_SHA256 : string;
  evd_Bucket : string;
  evd_ObjectKey : string;
  evd_ObjectVersion : string;
  evd_ETag : string;
  evd_Status : string;
  evd_Failure : string;
  evd_RetainUntil : Time;
  evd_LegalHold : bool;
  evd_Uploader : string;
  evd_Metadata : Metadata;
  evd_VerifiedAt : option Time;
  evd_CustodyHeadHash : string;
  evd_CreatedAt : Time;
  evd_UpdatedAt : Time
}.
#[export] Instance eta_EvidenceItem : Eta EvidenceItem := fun r => {|
  evd_ID := evd_ID r; evd_TenantID := evd_TenantID r; evd_RequestID := evd_RequestID r;
  evd_CaseID := evd_CaseID r; evd_IncidentID := evd_IncidentID r; evd_AlertID := evd_AlertID r;
  evd_EventID := evd_EventID r; evd_Filename := evd_Filename r; evd_ContentType := evd_ContentType r;
  evd_Description := evd_Description r; evd_Size := evd_Size r; evd_SHA256 := evd_SHA256 r;
  evd_Bucket := evd_Bucket r; evd_ObjectKey := evd_ObjectKey r; evd_ObjectVersion := evd_ObjectVersion r;
  evd_ETag := evd_ETag r; evd_Status := evd_Status r; evd_Failure := evd_Failure r;
  evd_RetainUntil := evd_RetainUntil r; evd_LegalHold := evd_LegalHold r; evd_Uploader := evd_Uploader r;
  evd_Metadata := evd_Metadata r; evd_VerifiedAt := evd_VerifiedAt r; evd_CustodyHeadHash := evd_CustodyHeadHash r;
  evd_CreatedAt := evd_CreatedAt r; evd_UpdatedAt := evd_UpdatedAt r
|}.
Definition zero_EvidenceItem : EvidenceItem := {|
  evd_ID := ""; evd_TenantID := ""; evd_RequestID := "";
  evd_CaseID := ""; evd_IncidentID := ""; evd_AlertID := "";
  evd_EventID := ""; evd_Filename := ""; evd_ContentType := "";
  evd_Description := ""; evd_Size := 0; evd_SHA256 := "";
  evd_Bucket := ""; evd_ObjectKey := ""; evd_ObjectVersion := "";
  evd_ETag := ""; evd_Status := ""; evd_Failure := "";
  evd_RetainUntil := zero_time; evd_LegalHold := false; evd_Uploader := "";
  evd_Metadata := None; evd_VerifiedAt := None; evd_CustodyHeadHash := "";
  evd_CreatedAt := zero_time; evd_UpdatedAt := zero_time
|}.

Record EvidenceMutation : Type := {
  evm_Actor : string;
  evm_Action : string;
  evm_Reason : string;
  evm_RequestID : string;
  evm_Metadata : Metadata
}.
#[export] Instance eta_EvidenceMutation : Eta EvidenceMutation := fun r => {|
  evm_Actor := evm_Actor r; evm_Action := evm_Action r; evm_Reason := evm_Reason r;
  evm_RequestID := evm_RequestID r; evm_Metadata := evm_Metadata r
|}.
Definition zero_EvidenceMutation : EvidenceMutation := {|
  evm_Actor := ""; evm_Action := ""; evm_Reason := "";
  evm_RequestID := ""; evm_Metadata := None
|}.

Record EvidenceCustodyEntry : Type := {
  evc_Sequence : Z;
  evc_ID : string;
  evc_TenantID : string;
  evc_EvidenceID : string;
  evc_Actor : string;
  evc_Action : string;
  evc_Reason : string;
  evc_RequestID : string;
  evc_Metadata : Metadata;
  evc_PreviousHash : string;
  evc_Hash : string;
  evc_CreatedAt : Time
}.
#[export] Instance eta_EvidenceCustodyEntry : Eta EvidenceCustodyEntry := fun r => {|
  evc_Sequence := evc_Sequence r; evc_ID := evc_ID r; evc_TenantID := evc_TenantID r;
  evc_EvidenceID := evc_EvidenceID r; evc_Actor := evc_Actor r; evc_Action := evc_Action r;
  evc_Reason := evc_Reason r; evc_RequestID := evc_RequestID r; evc_Metadata := evc_Metadata r;
  evc_PreviousHash := evc_PreviousHash r; evc_Hash := evc_Hash r; evc_CreatedAt := evc_CreatedAt r
|}.
Definition zero_EvidenceCustodyEntry : EvidenceCustodyEntry := {|
  evc_Sequence := 0; evc_ID := ""; evc_TenantID := "";
  evc_EvidenceID := ""; evc_Actor := ""; evc_Action := "";
  evc_Reason := ""; evc_RequestID := ""; evc_Metadata := None;
  evc_PreviousHash := ""; evc_Hash := ""; evc_CreatedAt := zero_time
|}.

Record EvidenceFilter : Type := {
  evf_CaseID : string;
  evf_IncidentID : string;
  evf_AlertID : string;
  evf_EventID : string;
  evf_Status : string;
  evf_Limit : Z
}.
#[export] Instance eta_EvidenceFilter : Eta EvidenceFilter := fun r => {|
  evf_CaseID := evf_CaseID r; evf_IncidentID := evf_IncidentID r; evf_AlertID := evf_AlertID r;
  evf_EventID := evf_EventID r; evf_Status := evf_Status r; evf_Limit := evf_Limit r
|}.
Definition zero_EvidenceFilter : EvidenceFilter := {|
  evf_CaseID := ""; evf_IncidentID := ""; evf_AlertID := "";
  evf_EventID := ""; evf_Status := ""; evf_Limit := 0
|}.

Record EvidenceVerification : Type := {
  evv_EvidenceID : string;
  evv_Expected : string;
  evv_Actual : string;
  evv_Size : Z;
  evv_Valid : bool;
  evv_VerifiedAt : Time
}.
#[export] Instance eta_EvidenceVerification : Eta EvidenceVerification := fun r => {|
  evv_EvidenceID := evv_EvidenceID r; evv_Expected := evv_Expected r; evv_Actual := evv_Actual r;
  evv_Size := evv_Size r; evv_Valid := evv_Valid r; evv_VerifiedAt := evv_VerifiedAt r
|}.
Definition zero_EvidenceVerification : EvidenceVerification := {|
  evv_EvidenceID := ""; evv_Expected := ""; evv_Actual := "";
  evv_Size := 0; evv_Valid := false; evv_VerifiedAt := zero_time
|}.

Record RetentionPolicy : Type := {
  rp_TenantID : string;
  rp_RawDays : Z;
  rp_NormalizedDays : Z;
  rp_FindingsDays : Z;
  rp_EvidenceDays : Z;
  rp_UpdatedBy : string;
  rp_Version : Z;
  rp_CreatedAt : Time;
  rp_UpdatedAt : Time
}.
#[export] Instance eta_RetentionPolicy : Eta RetentionPolicy := fun r => {|
  rp_TenantID := rp_TenantID r; rp_RawDays := rp_RawDays r; rp_NormalizedDays := rp_NormalizedDays r;
  rp_FindingsDays := rp_FindingsDays r; rp_EvidenceDays := rp_EvidenceDays r; rp_UpdatedBy := rp_UpdatedBy r;
  rp_Version := rp_Version r; rp_CreatedAt := rp_CreatedAt r; rp_UpdatedAt := rp_UpdatedAt r
|}.
Definition zero_RetentionPolicy : RetentionPolicy := {|
  rp_TenantID := ""; rp_RawDays := 0; rp_NormalizedDays := 0;
  rp_FindingsDays := 0; rp_EvidenceDays := 0; rp_UpdatedBy := "";
  rp_Version := 0; rp_CreatedAt := zero_time; rp_UpdatedAt := zero_time
|}.
