(* ===== verification/CaseDb.v ===== *)
(** * The tables of the investigation cases (store/cases.go)

    A row of [cases] is the case its payload holds, with the [request_id] of
    its column; a payload gives the history's metadata back as [JsonColumn]
    says.  Strings are ASCII text, so that SQL's [length] is Go's; times are
    whole microseconds if the clock's readings are; the foreign key to
    [tenants] is not modelled. *)

From S2P Require Import Prelude GoLang GoFormat Core MemoryStore Sql AuditTable CaseModel.

Record CaseLink : Type := {
  cl_TenantID : string;
  cl_CaseID : string;
  cl_IncidentID : string;
  cl_LinkedAt : Time
}.

Record CaseDb : Type := {
  cdb_cases : list Case;
  cdb_links : list CaseLink;
  cdb_incidents : list Incident;
  cdb_evidence : list EvidenceItem;
  cdb_custody : list EvidenceCustodyEntry;
  cdb_sequence : Z;
  cdb_policies : list RetentionPolicy;
  cdb_audit : list AuditEntry;
  cdb_audit_heads : gmap string string
}.
#[export] Instance eta_CaseDb : Eta CaseDb := fun r => {|
  cdb_cases := cdb_cases r; cdb_links := cdb_links r; cdb_incidents := cdb_incidents r;
  cdb_evidence := cdb_evidence r; cdb_custody := cdb_custody r; cdb_sequence := cdb_sequence r;
  cdb_policies := cdb_policies r;  cdb_audit := cdb_audit r; cdb_audit_heads := cdb_audit_heads r
|}.

Definition new_case_db (incidents : list Incident) : CaseDb := {|
  cdb_cases := []; cdb_links := []; cdb_incidents := incidents; cdb_evidence := []; cdb_custody := [];
  cdb_sequence := 1; cdb_policies := []; cdb_audit := []; cdb_audit_heads := ∅
|}.

Abbreviation CaseM := (M (World CaseDb)).

#[export] Instance audit_CaseDb : AuditTables CaseDb := {|
  audit_rows := cdb_audit; put_audit_rows rows db := db {{ cdb_audit := rows }};
  audit_heads := cdb_audit_heads; put_audit_heads heads db := db {{ cdb_audit_heads := heads }};
  rows_of_rows _ _ := eq_refl; rows_of_heads _ _ := eq_refl; heads_of_rows _ _ := eq_refl; heads_of_heads _ _ := eq_refl
|}.

Definition insert_case := insert_row cdb_cases (fun rows db => db {{ cdb_cases := rows }}).
Definition insert_link := insert_row cdb_links (fun rows db => db {{ cdb_links := rows }}).
Definition update_cases := update_returning cdb_cases (fun rows db => db {{ cdb_cases := rows }}).

Definition is_case (tenantID caseID : string) (c : Case) : bool := (cs_TenantID c == tenantID) && (cs_ID c == caseID).

Definition is_case_request (tenantID requestID : string) (c : Case) : bool :=
  (cs_TenantID c == tenantID) && (cs_RequestID c == requestID).

Definition is_link_of (tenantID caseID : string) (l : CaseLink) : bool :=
  (cl_TenantID l == tenantID) && (cl_CaseID l == caseID).

Definition is_link (tenantID caseID incidentID : string) (l : CaseLink) : bool :=
  is_link_of tenantID caseID l && (cl_IncidentID l == incidentID).

Definition is_incident (tenantID incidentID : string) (i : Incident) : bool :=
  (in_TenantID i == tenantID) && (in_ID i == incidentID).

(** The CHECK constraints of the table and the width of [version]. *)
Definition case_checks (c : Case) : bool :=
  (1 <=? string_len (cs_RequestID c)) && (string_len (cs_RequestID c) <=? 200)
  && (cs_Status c ∈? ["OPEN"; "INVESTIGATION"; "RESPONSE"; "CLOSED"])
  && (cs_Severity c ∈? ["CRITICAL"; "HIGH"; "MEDIUM"; "LOW"; "INFORMATIONAL"])
  && (1 <=? string_len (cs_Owner c)) && (string_len (cs_Owner c) <=? 255)
  && (0 <? cs_Version c) && (cs_Version c <=? 2147483647).

Definition ErrForeignKeyViolation := New "insert or update violates foreign key constraint".

(** ** LIKE *)

(** [ILIKE] on ASCII text: [%] is any text, [_] any character, a backslash
    quotes the next character of the pattern. *)
Fixpoint like_suffix (match_rest : string -> bool) (s : string) : bool :=
  match_rest s || match s with EmptyString => false | String _ s' => like_suffix match_rest s' end.

Fixpoint like (pattern s : string) : bool :=
  match pattern with
  | EmptyString => match s with EmptyString => true | _ => false end
  | String p rest =>
      if (p == "%"%char) then like_suffix (like rest) s
      else if (p == "_"%char) then match s with EmptyString => false | String _ s' => like rest s' end
      else if (p == "\"%char) then
        match rest with
        | EmptyString => false
        | String q rest' => match s with EmptyString => false | String c s' => (c == q) && like rest' s' end
        end
      else match s with EmptyString => false | String c s' => (c == p) && like rest s' end
  end.

Definition ILike (s pattern : string) : bool := like (ToLower pattern) (ToLower s).

Definition contains_pattern (query : string) : string := "%" +:+ query +:+ "%".

(** ** The operations *)

Section CaseStore.
Context `{JsonColumn}.

(** A case as its payload gives it back. *)
Definition stored_case (item : Case) : Case :=
  item {{ cs_History ::= List.map (fun h => h {{ ch_Metadata ::= stored_metadata }}) }}.

Definition GetCase (tenantID caseID : string) : CaseM Case :=
  let! row := select (fun db => first_row (is_case tenantID caseID) (cdb_cases db)) in
  match row with Some item => ret item | None => fail ErrNotFound end.

Definition caseByRequestID (tenantID requestID : string) : CaseM Case :=
  let! row := select (fun db => first_row (is_case_request tenantID requestID) (cdb_cases db)) in
  match row with Some item => ret item | None => fail ErrNotFound end.

(** The foreign keys of [case_incidents]. *)
Definition link_references (tenantID caseID incidentID : string) (db : CaseDb) : bool :=
  existsb (is_case tenantID caseID) (cdb_cases db) && existsb (is_incident tenantID incidentID) (cdb_incidents db).

Definition syncCaseIncidents (item : Case) : CaseM unit :=
  do! execute (fun db => db {{ cdb_links ::= where_rows (fun l => negb (is_link_of (cs_TenantID item) (cs_ID item) l)) }}) in
  forM_ (cs_IncidentIDs item) (fun incidentID =>
    wrapping ("link case incident " +:+ incidentID)
      (do! insert_link (is_link (cs_TenantID item) (cs_ID item) incidentID)
         {| cl_TenantID := cs_TenantID item; cl_CaseID := cs_ID item; cl_IncidentID := incidentID;
            cl_LinkedAt := cs_UpdatedAt item |} in
       let! valid := select (link_references (cs_TenantID item) (cs_ID item) incidentID) in
       guard valid ErrForeignKeyViolation)).

Definition CreateCase (item : Case) : CaseM (Case * bool) :=
  if (cs_ID item == "") || (cs_TenantID item == "") || (cs_RequestID item == "") || (cs_Title item == "")
     || (cs_Owner item == "") || (cs_Version item <? 1)
  then fail (New "create case: required fields are missing") else
  let! created := transaction
    (do! wrapping "insert case" (guard (case_checks item) ErrCheckViolation) in
     let! taken := select (fun db => existsb (is_case_request (cs_TenantID item) (cs_RequestID item)) (cdb_cases db)) in
     if taken : bool then ret None else
     do! wrapping "insert case" (insert_case (is_case (cs_TenantID item) (cs_ID item)) (stored_case item)) in
     do! syncCaseIncidents (stored_case item) in
     ret (Some (stored_case item))) in
  match created with
  | Some created => ret (created, false)
  | None => let! existing := caseByRequestID (cs_TenantID item) (cs_RequestID item) in ret (existing, true)
  end.

Definition case_selected (tenantID : string) (filter : CaseFilter) (db : CaseDb) (c : Case) : bool :=
  (cs_TenantID c == tenantID)
  && ((csf_Status filter == "") || (cs_Status c == ToUpper (csf_Status filter)))
  && ((csf_Severity filter == "") || (cs_Severity c == ToUpper (csf_Severity filter)))
  && ((csf_Owner filter == "") || (cs_Owner c == csf_Owner filter))
  && ((csf_IncidentID filter == "") ||
      existsb (is_link (cs_TenantID c) (cs_ID c) (csf_IncidentID filter)) (cdb_links db))
  && ((csf_Query filter == "") ||
      ILike (cs_ID c) (contains_pattern (csf_Query filter)) || ILike (cs_Title c) (contains_pattern (csf_Query filter))
      || ILike (cs_Description c) (contains_pattern (csf_Query filter))).

Definition case_order (a b : Case) : Prop := cs_UpdatedAt b <= cs_UpdatedAt a.
#[export] Instance case_order_dec a b : Decision (case_order a b).
Proof. unfold case_order. apply _. Defined.

Definition ListCases (tenantID : string) (filter : CaseFilter) : CaseM (list Case) :=
  select (fun db => take (Z.to_nat (normalizedLimit (csf_Limit filter)))
    (merge_sort case_order (where_rows (case_selected tenantID filter db) (cdb_cases db)))).

(** The case handed to [mutate] is decoded from the payload, which has no
    request identifier. *)
Definition MutateCase (tenantID caseID : string) (expectedVersion : Z) (mutate : Case -> CaseM Case) : CaseM Case :=
  transaction (
    let! row := select (fun db => first_row (is_case tenantID caseID) (cdb_cases db)) in
    match row with
    | None => fail ErrNotFound
    | Some current =>
        let version := cs_Version current in
        do! guard (negb ((0 <? expectedVersion) && (expectedVersion != version))) ErrVersionConflict in
        let! item := mutate (current {{ cs_RequestID := "" }}) in
        do! guard ((cs_ID item == caseID) && (cs_TenantID item == tenantID)) (New "case mutation changed immutable identity") in
        let! now := Now in
        let item := item {{ cs_Version := version + 1; cs_UpdatedAt := now }} in
        do! guard (case_checks (item {{ cs_RequestID := cs_RequestID current }})) ErrCheckViolation in
        let! rows := update_cases (is_case tenantID caseID)
          (fun row => (stored_case item) {{ cs_RequestID := cs_RequestID row }}) in
        match rows with
        | updated :: _ => do! syncCaseIncidents updated in ret updated
        | [] => fail (New "no rows in result set")
        end
    end).

(** store/postgres.go *)
Definition GetIncident (tenantID incidentID : string) : CaseM Incident :=
  let! row := select (fun db => first_row (is_incident tenantID incidentID) (cdb_incidents db)) in
  match row with Some incident => ret incident | None => fail ErrNotFound end.

End CaseStore.

(** * Retention policies (store/retention.go)

    One row a tenant, made with the defaults when it is first read; updates are
    conditional on the version read. *)

Definition DefaultRawRetentionDays : Z := 30.
Definition DefaultNormalizedRetentionDays : Z := 90.
Definition DefaultFindingsRetentionDays : Z := 180.
Definition DefaultEvidenceRetentionDays : Z := 2555.

Definition ErrInvalidRetentionPolicy := New "invalid retention policy".

Definition update_policies := update_returning cdb_policies (fun rows db => db {{ cdb_policies := rows }}).

(** The loop of the validation, over the fields with their bounds. *)
Fixpoint validate_days (values : list (string * Z * Z)) : outcome unit :=
  match values with
  | [] => Ok tt
  | (name, value, max) :: rest =>
      if (value <? 1) || (max <? value)
      then Err (Wrap (name +:+ " must be between 1 and " +:+ Itoa max) ErrInvalidRetentionPolicy)
      else validate_days rest
  end.

Definition ValidateRetentionPolicy (policy : RetentionPolicy) : outcome unit :=
  let? _ := validate_days [
    ("raw_days", rp_RawDays policy, 3650); ("normalized_days", rp_NormalizedDays policy, 3650);
    ("findings_days", rp_FindingsDays policy, 3650); ("evidence_days", rp_EvidenceDays policy, 36500)] in
  if rp_NormalizedDays policy <? rp_RawDays policy
  then Err (Wrap "raw_days cannot exceed normalized_days" ErrInvalidRetentionPolicy)
  else Ok tt.

Definition is_policy_of (tenantID : string) (p : RetentionPolicy) : bool := rp_TenantID p == tenantID.

Definition default_policy (tenantID : string) (now : Time) : RetentionPolicy := {|
  rp_TenantID := tenantID; rp_RawDays := DefaultRawRetentionDays; rp_NormalizedDays := DefaultNormalizedRetentionDays;
  rp_FindingsDays := DefaultFindingsRetentionDays; rp_EvidenceDays := DefaultEvidenceRetentionDays;
  rp_UpdatedBy := "system:defaults"; rp_Version := 1; rp_CreatedAt := now; rp_UpdatedAt := now |}.

(** The database's [now()] is read with the same clock. *)
Definition GetRetentionPolicy (tenantID : string) : CaseM RetentionPolicy :=
  let! now := Now in
  do! execute (fun db => if existsb (is_policy_of tenantID) (cdb_policies db) then db
                         else db {{ cdb_policies ::= fun l => l ++ [default_policy tenantID now] }}) in
  let! row := select (fun db => first_row (is_policy_of tenantID) (cdb_policies db)) in
  match row with Some policy => ret policy | None => fail ErrNotFound end.

Definition UpdateRetentionPolicy (policy : RetentionPolicy) : CaseM RetentionPolicy :=
  if (rp_TenantID policy == "") || (rp_UpdatedBy policy == "") || (rp_Version policy <? 1)
  then fail (Wrap "tenant, updater and current version are required" ErrInvalidRetentionPolicy) else
  do! lift (ValidateRetentionPolicy policy) in
  do! GetRetentionPolicy (rp_TenantID policy) in
  let! now := Now in
  let! rows := update_policies (fun p => is_policy_of (rp_TenantID policy) p && (rp_Version p =? rp_Version policy))
    (fun p => p {{ rp_RawDays := rp_RawDays policy; rp_NormalizedDays := rp_NormalizedDays policy;
                   rp_FindingsDays := rp_FindingsDays policy; rp_EvidenceDays := rp_EvidenceDays policy;
                   rp_UpdatedBy := rp_UpdatedBy policy; rp_Version ::= fun v => v + 1; rp_UpdatedAt := now }}) in
  match rows with updated :: _ => ret updated | [] => fail ErrVersionConflict end.
