(* ===== verification/EvidenceDb.v ===== *)
(** * The evidence tables (store/evidence.go)

    The rows of [evidence_items] and the chain of custody.  The rows of
    [evidence_custody_entries] are in the order of their sequence numbers; the
    numbers that rolled back transactions skip are not modelled. *)

From S2P Require Import Prelude GoLang GoFormat Core HashChain MemoryStore Sql AuditTable CaseModel CaseDb.

Definition ErrEvidenceState := New "invalid evidence state".

Definition insert_evidence := insert_row cdb_evidence (fun rows db => db {{ cdb_evidence := rows }}).
Definition update_evidence := update_returning cdb_evidence (fun rows db => db {{ cdb_evidence := rows }}).
Definition insert_custody := insert_row cdb_custody (fun rows db => db {{ cdb_custody := rows }}).

Definition is_evidence (tenantID evidenceID : string) (e : EvidenceItem) : bool :=
  (evd_TenantID e == tenantID) && (evd_ID e == evidenceID).

Definition is_evidence_request (tenantID requestID : string) (e : EvidenceItem) : bool :=
  (evd_TenantID e == tenantID) && (evd_RequestID e == requestID).

(** The other uniqueness constraints of a new row. *)
Definition evidence_clash (item e : EvidenceItem) : bool :=
  is_evidence (evd_TenantID item) (evd_ID item) e
  || ((evd_TenantID e == evd_TenantID item) && (evd_ObjectKey e == evd_ObjectKey item)).

Definition is_custody_of (tenantID evidenceID : string) (e : EvidenceCustodyEntry) : bool :=
  (evc_TenantID e == tenantID) && (evc_EvidenceID e == evidenceID).

Definition is_custody (tenantID custodyID : string) (e : EvidenceCustodyEntry) : bool :=
  (evc_TenantID e == tenantID) && (evc_ID e == custodyID).

(** The CHECK constraints of the table. *)
Definition evidence_checks (e : EvidenceItem) : bool :=
  (1 <=? string_len (evd_RequestID e)) && (string_len (evd_RequestID e) <=? 200)
  && (1 <=? string_len (evd_Filename e)) && (string_len (evd_Filename e) <=? 255)
  && (1 <=? string_len (evd_ContentType e)) && (string_len (evd_ContentType e) <=? 255)
  && (string_len (evd_Description e) <=? 4000) && (0 <=? evd_Size e)
  && (string_len (evd_SHA256 e) =? 64) && (evd_Status e ∈? ["PENDING"; "AVAILABLE"; "FAILED"])
  && (string_len (evd_Failure e) <=? 2000)
  && ((evd_CaseID e != "") || (evd_IncidentID e != "") || (evd_AlertID e != "") || (evd_EventID e != "")).

Definition truncateEvidenceFailure (value : string) : string :=
  let value := TrimSpace value in
  if 2000 <? string_len value then string_take 2000 value else value.

(** The JSON document the digest of a custody entry is over. *)
Definition custody_preimage (entry : EvidenceCustodyEntry) : string :=
  json_object [
    ("tenant_id", json_string (evc_TenantID entry)); ("evidence_id", json_string (evc_EvidenceID entry));
    ("custody_id", json_string (evc_ID entry)); ("actor", json_string (evc_Actor entry));
    ("action", json_string (evc_Action entry)); ("reason", json_string (evc_Reason entry));
    ("request_id", json_string (evc_RequestID entry)); ("metadata", json_metadata (evc_Metadata entry));
    ("previous_hash", json_string (evc_PreviousHash entry));
    ("created_at", json_string (FormatRFC3339Nano (evc_CreatedAt entry)))].

Definition evidenceCustodyHash (entry : EvidenceCustodyEntry) : string := sha256_hex (custody_preimage entry).

Section EvidenceStore.
Context `{JsonColumn}.

(** ** The chain of custody *)

Definition appendEvidenceCustodyTx (tenantID evidenceID : string) (mutation : EvidenceMutation) : CaseM EvidenceCustodyEntry :=
  let actor := TrimSpace (evm_Actor mutation) in
  let action := TrimSpace (evm_Action mutation) in
  let reason := TrimSpace (evm_Reason mutation) in
  if (actor == "") || (action == "") || (reason == "") || (2000 <? string_len reason)
  then fail (New "evidence custody actor, action and reason are required") else
  let! row := select (fun db => first_row (is_evidence tenantID evidenceID) (cdb_evidence db)) in
  match row with
  | None => fail ErrNotFound
  | Some item =>
      let! random := Random in
      let! now := Now in
      let entry := {| evc_Sequence := 0; evc_ID := NewID "chain" random; evc_TenantID := tenantID;
        evc_EvidenceID := evidenceID; evc_Actor := actor; evc_Action := action; evc_Reason := reason;
        evc_RequestID := evm_RequestID mutation; evc_Metadata := evm_Metadata mutation;
        evc_PreviousHash := evd_CustodyHeadHash item; evc_Hash := "";
        evc_CreatedAt := time_Truncate now Microsecond |} in
      let entry := entry {{ evc_Hash := evidenceCustodyHash entry }} in
      let! sequence := select cdb_sequence in
      do! execute (fun db => db {{ cdb_sequence ::= Z.add 1 }}) in
      let entry := entry {{ evc_Sequence := sequence }} in
      do! wrapping "append evidence custody"
        (insert_custody (is_custody tenantID (evc_ID entry)) (entry {{ evc_Metadata ::= option_map stored }})) in
      do! update_evidence (is_evidence tenantID evidenceID)
        (fun e => e {{ evd_CustodyHeadHash := evc_Hash entry; evd_UpdatedAt := evc_CreatedAt entry }}) in
      ret entry
  end.

Definition AppendEvidenceCustody (tenantID evidenceID : string) (mutation : EvidenceMutation) : CaseM EvidenceCustodyEntry :=
  transaction (appendEvidenceCustodyTx tenantID evidenceID mutation).

Definition ListEvidenceCustody (tenantID evidenceID : string) : CaseM (list EvidenceCustodyEntry) :=
  select (fun db => where_rows (is_custody_of tenantID evidenceID) (cdb_custody db)).

(** ** Items *)

Definition Evidence (tenantID evidenceID : string) : CaseM EvidenceItem :=
  let! row := select (fun db => first_row (is_evidence tenantID evidenceID) (cdb_evidence db)) in
  match row with Some item => ret item | None => fail ErrNotFound end.

Definition evidenceByRequestID (tenantID requestID : string) : CaseM EvidenceItem :=
  let! row := select (fun db => first_row (is_evidence_request tenantID requestID) (cdb_evidence db)) in
  match row with Some item => ret item | None => fail ErrNotFound end.

Definition evidence_selected (tenantID : string) (filter : EvidenceFilter) (e : EvidenceItem) : bool :=
  (evd_TenantID e == tenantID)
  && ((evf_CaseID filter == "") || (evd_CaseID e == evf_CaseID filter))
  && ((evf_IncidentID filter == "") || (evd_IncidentID e == evf_IncidentID filter))
  && ((evf_AlertID filter == "") || (evd_AlertID e == evf_AlertID filter))
  && ((evf_EventID filter == "") || (evd_EventID e == evf_EventID filter))
  && ((ToUpper (evf_Status filter) == "") || (evd_Status e == ToUpper (evf_Status filter))).

Definition evidence_order (a b : EvidenceItem) : Prop := evd_CreatedAt b <= evd_CreatedAt a.
#[export] Instance evidence_order_dec a b : Decision (evidence_order a b).
Proof. unfold evidence_order. apply _. Defined.

Definition ListEvidence (tenantID : string) (filter : EvidenceFilter) : CaseM (list EvidenceItem) :=
  select (fun db => take (Z.to_nat (normalizedLimit (evf_Limit filter)))
    (merge_sort evidence_order (where_rows (evidence_selected tenantID filter) (cdb_evidence db)))).

(** The row [ReserveEvidence] inserts. *)
Definition reserved_row (item : EvidenceItem) (now : Time) : EvidenceItem :=
  item {{ evd_ObjectVersion := ""; evd_ETag := ""; evd_Status := "PENDING"; evd_Failure := "";
          evd_Metadata ::= option_map stored; evd_VerifiedAt := None; evd_CustodyHeadHash := "";
          evd_CreatedAt := now; evd_UpdatedAt := now }}.

Definition evidence_incomplete (item : EvidenceItem) : bool :=
  (evd_ID item == "") || (evd_TenantID item == "") || (evd_RequestID item == "") || (evd_Filename item == "")
  || (evd_ContentType item == "") || (evd_SHA256 item == "") || (evd_Bucket item == "") || (evd_ObjectKey item == "")
  || (evd_Uploader item == "") || IsZero (evd_RetainUntil item)
  || ((evd_CaseID item == "") && (evd_IncidentID item == "") && (evd_AlertID item == "") && (evd_EventID item == "")).

(** The case an item names exists. *)
Definition check_evidence_case (item : EvidenceItem) : CaseM unit :=
  if evd_CaseID item != "" then
    let! exists_ := select (fun db => existsb (is_case (evd_TenantID item) (evd_CaseID item)) (cdb_cases db)) in
    guard exists_ ErrNotFound
  else ret tt.

(** The transaction: [None] where the request has its row already. *)
Definition insert_reservation (item : EvidenceItem) (mutation : EvidenceMutation) : CaseM (option EvidenceItem) :=
  transaction
    (let! now := Now in
     let row := reserved_row item now in
     do! wrapping "reserve evidence" (guard (evidence_checks row) ErrCheckViolation) in
     let! taken := select (fun db => existsb (is_evidence_request (evd_TenantID item) (evd_RequestID item)) (cdb_evidence db)) in
     if taken : bool then ret None else
     do! wrapping "reserve evidence" (insert_evidence (evidence_clash row) row) in
     let! valid := select (fun db => (evd_CaseID item == "") || existsb (is_case (evd_TenantID item) (evd_CaseID item)) (cdb_cases db)) in
     do! wrapping "reserve evidence" (guard valid ErrForeignKeyViolation) in
     let! entry := appendEvidenceCustodyTx (evd_TenantID row) (evd_ID row) mutation in
     ret (Some (row {{ evd_CustodyHeadHash := evc_Hash entry }}))).

Definition ReserveEvidence (item : EvidenceItem) (mutation : EvidenceMutation) : CaseM (EvidenceItem * bool) :=
  if evidence_incomplete item then fail (New "reserve evidence: required fields are missing") else
  do! check_evidence_case item in
  let! reserved := insert_reservation item mutation in
  match reserved with
  | Some reserved => ret (reserved, true)
  | None => let! existing := evidenceByRequestID (evd_TenantID item) (evd_RequestID item) in ret (existing, false)
  end.

Definition transitionEvidence (tenantID evidenceID status objectVersion etag failure : string) (mutation : EvidenceMutation)
    : CaseM EvidenceItem :=
  transaction (
    let! row := select (fun db => first_row (is_evidence tenantID evidenceID) (cdb_evidence db)) in
    match row with
    | None => fail ErrNotFound
    | Some current =>
        if evd_Status current != "PENDING" then fail (Wrap ("evidence is " +:+ evd_Status current) ErrEvidenceState) else
        let! now := Now in
        let! rows := update_evidence (is_evidence tenantID evidenceID)
          (fun e => e {{ evd_Status := status; evd_ObjectVersion := objectVersion; evd_ETag := etag;
                         evd_Failure := failure; evd_UpdatedAt := now }}) in
        match rows with
        | item :: _ =>
            let! entry := appendEvidenceCustodyTx tenantID evidenceID mutation in
            ret (item {{ evd_CustodyHeadHash := evc_Hash entry }})
        | [] => fail (New "no rows in result set")
        end
    end).

Definition FinalizeEvidence (tenantID evidenceID objectVersion etag : string) (mutation : EvidenceMutation) : CaseM EvidenceItem :=
  transitionEvidence tenantID evidenceID "AVAILABLE" objectVersion etag "" mutation.

Definition FailEvidence (tenantID evidenceID failure : string) (mutation : EvidenceMutation) : CaseM EvidenceItem :=
  transitionEvidence tenantID evidenceID "FAILED" "" "" (truncateEvidenceFailure failure) mutation.

Definition RecordEvidenceVerification (tenantID evidenceID : string) (valid : bool) (mutation : EvidenceMutation)
    : CaseM EvidenceItem :=
  transaction (
    let! row := select (fun db => first_row (is_evidence tenantID evidenceID) (cdb_evidence db)) in
    match row with
    | None => fail ErrNotFound
    | Some current =>
        if evd_Status current != "AVAILABLE" then fail (Wrap ("evidence is " +:+ evd_Status current) ErrEvidenceState) else
        let! verifiedAt := Now in
        do! (if valid then
               let! _ := update_evidence (is_evidence tenantID evidenceID)
                 (fun e => e {{ evd_VerifiedAt := Some verifiedAt; evd_UpdatedAt := verifiedAt }}) in ret tt
             else ret tt) in
        do! appendEvidenceCustodyTx tenantID evidenceID mutation in
        Evidence tenantID evidenceID
    end).

(** The chain of the item's entries checks up to the digest in its row. *)
Definition VerifyEvidenceCustody (tenantID evidenceID : string) : CaseM bool :=
  let! items := ListEvidenceCustody tenantID evidenceID in
  match items with
  | [] => ret false
  | _ =>
      match verify_links evc_PreviousHash evc_Hash custody_preimage "" items with
      | None => ret false
      | Some previous => let! item := Evidence tenantID evidenceID in ret (evd_CustodyHeadHash item == previous)
      end
  end.

End EvidenceStore.
