(* ===== verification/EvidenceService.v ===== *)
(** * The evidence service (evidence/service.go)

    Uploads, reads and verifications of evidence.  The object store is the
    interface [BlobStore]: what it answers is an arbitrary function of the call
    and of the runtime.  The spool file of an upload is its content: errors of
    the local disk are not modelled. *)

From S2P Require Import Prelude GoLang GoFormat Core HashChain MemoryStore Sql AuditTable.
From S2P Require Import CaseModel CaseDb EvidenceDb.

Definition ErrInvalidEvidence := New "invalid evidence".
Definition ErrEvidencePending := New "evidence upload is in progress".
Definition ErrEvidenceIntegrity := New "evidence integrity check failed".
Definition ErrIdempotencyMismatch := New "evidence idempotency request does not match original content".
Definition ErrBlobNotFound := New "evidence blob not found".

Definition DefaultMaximumBytes : Z := 100 * 1048576.

(** The bytes a reader gives and the error it ends with, if any. *)
Record Reader : Type := { rd_bytes : string; rd_error : option error }.

Record UploadInput : Type := {
  up_TenantID : string;
  up_RequestID : string;
  up_Actor : string;
  up_Filename : string;
  up_ContentType : string;
  up_Description : string;
  up_CaseID : string;
  up_IncidentID : string;
  up_AlertID : string;
  up_EventID : string;
  up_ExpectedSHA256 : string;
  up_Reader : option Reader
}.
#[export] Instance eta_UploadInput : Eta UploadInput := fun r => {|
  up_TenantID := up_TenantID r; up_RequestID := up_RequestID r; up_Actor := up_Actor r;
  up_Filename := up_Filename r; up_ContentType := up_ContentType r; up_Description := up_Description r;
  up_CaseID := up_CaseID r; up_IncidentID := up_IncidentID r; up_AlertID := up_AlertID r;
  up_EventID := up_EventID r; up_ExpectedSHA256 := up_ExpectedSHA256 r; up_Reader := up_Reader r
|}.

(** [BlobInfo]; the metadata are listed in the order a range over them takes. *)
Record BlobInfo : Type := {
  bi_Bucket : string;
  bi_Key : string;
  bi_VersionID : string;
  bi_ETag : string;
  bi_Size : Z;
  bi_Metadata : list (string * string)
}.

(** An opened object: its bytes, the error reading ends with, the error of [Close]. *)
Record BlobReader : Type := { br_content : Reader; br_close : option error }.

Class BlobStore : Type := {
  blob_Bucket : string;
  blob_Put : Runtime -> string -> string -> Z -> string -> list (string * string) -> Time -> outcome BlobInfo;
  blob_Stat : Runtime -> string -> string -> outcome BlobInfo;
  blob_Open : Runtime -> string -> string -> outcome (BlobReader * BlobInfo)
}.

(** ** Names *)

(** [ReplaceAllString] of the runs of unsafe characters; [inside] is whether
    the character before was one. *)
Definition safe_char (c : ascii) : bool :=
  let n := byte_code c in
  (65 <=? n) && (n <=? 90) || (97 <=? n) && (n <=? 122) || (48 <=? n) && (n <=? 57) || (c ∈? ["."; "_"; "-"]%char).

Fixpoint replace_unsafe (inside : bool) (s : string) : string :=
  match s with
  | EmptyString => ""
  | String c r =>
      if safe_char c then String c (replace_unsafe false r)
      else if inside then replace_unsafe true r else String "_" (replace_unsafe true r)
  end.

Definition safeFilename (value : string) : outcome string :=
  let value := TrimSpace (string_map (fun c => if c == "\"%char then "/"%char else c) value) in
  let value := strings_Trim (replace_unsafe false (path_Base value)) ["."; "_"; "-"]%char in
  if (value == "") || (255 <? string_len value)
  then Err (Wrap "filename must contain between 1 and 255 safe characters" ErrInvalidEvidence)
  else Ok value.

Definition safeContentType (value : string) : outcome string :=
  let value := TrimSpace value in
  if value == "" then Ok "application/octet-stream" else
  match ParseMediaType value with
  | Some mediaType =>
      if 255 <? string_len mediaType then Err (Wrap "invalid content type" ErrInvalidEvidence) else Ok mediaType
  | None => Err (Wrap "invalid content type" ErrInvalidEvidence)
  end.

Definition evidenceObjectKey (tenantID evidenceID filename : string) (now : Time) : string :=
  let '(y, m, d) := civil_of_days (now / Second / 86400) in
  replace_unsafe false tenantID +:+ "/" +:+ pad_digits 4 y +:+ "/" +:+ pad_digits 2 m +:+ "/" +:+ pad_digits 2 d
  +:+ "/" +:+ evidenceID +:+ "/" +:+ filename.

(** A string of hexadecimal digits that is in lower case anyway. *)
Definition normalizeSHA256 (value : string) : string :=
  let value := ToLower (TrimSpace (TrimPrefix (TrimSpace value) "sha256:")) in
  if (string_len value =? 64) && string_forallb hex_byte value then value else "".

Fixpoint metadataSHA (metadata : list (string * string)) : string :=
  match metadata with
  | [] => ""
  | (key, value) :: rest =>
      if EqualFold (TrimPrefix key "x-amz-meta-") "sha256" then ToLower value else metadataSHA rest
  end.

(** ** The calls *)

Section Service.
Context `{JsonColumn} `{BlobStore} (maximum : Z).

Definition blob {A} (call : Runtime -> outcome A) : CaseM A := fun w => (call (w_rt w), w).

(** [io.Copy(..., io.LimitReader(input.Reader, s.maximum+1))] *)
Definition spool (reader : Reader) : outcome string :=
  if maximum + 1 <=? string_len (rd_bytes reader) then Ok (string_take (Z.to_nat (maximum + 1)) (rd_bytes reader))
  else match rd_error reader with
       | Some e => Err (Wrap "spool evidence" e)
       | None => Ok (rd_bytes reader)
       end.

Definition upload_mutation (input : UploadInput) (action reason : string) (metadata : list (string * GoValue)) : EvidenceMutation :=
  {| evm_Actor := up_Actor input; evm_Action := action; evm_Reason := reason; evm_RequestID := up_RequestID input;
     evm_Metadata := Some (list_to_map metadata) |}.

(** A repeated request: the reservation it finds, and what became of it. *)
Definition upload_again (input : UploadInput) (digest : string) (size : Z) (reserved : EvidenceItem)
    : CaseM (EvidenceItem * bool) :=
  if (evd_SHA256 reserved != digest) || (evd_Size reserved != size) then fail ErrIdempotencyMismatch else
  if evd_Status reserved == "AVAILABLE" then ret (reserved, true) else
  if evd_Status reserved != "PENDING"
  then fail (Wrap ("existing request is " +:+ evd_Status reserved) ErrEvidenceState) else
  let! found := fun w => match blob (fun rt => blob_Stat rt (evd_ObjectKey reserved) (evd_ObjectVersion reserved)) w with
                         | (Err e, w') => (Err (if errors_Is e ErrBlobNotFound then ErrEvidencePending else e), w')
                         | r => r
                         end in
  let! finalized := FinalizeEvidence (evd_TenantID reserved) (evd_ID reserved) (bi_VersionID found) (bi_ETag found)
    (upload_mutation input "evidence.recovered" "Recovered completed object upload after metadata retry"
       [("object_version", VString (bi_VersionID found))]) in
  ret (finalized, true).

(** The upload of a new reservation. *)
Definition upload_object (input : UploadInput) (item : EvidenceItem) (content : string) : CaseM (EvidenceItem * bool) :=
  fun w => match blob (fun rt => blob_Put rt (evd_ObjectKey item) content (evd_Size item) (evd_ContentType item)
      [("evidence-id", evd_ID item); ("tenant-id", evd_TenantID item); ("sha256", evd_SHA256 item);
       ("request-id", evd_RequestID item)] (evd_RetainUntil item)) w with
  | (Panic, w) => (Panic, w)
  | (Err e, w) =>
      let '(_, w) := FailEvidence (evd_TenantID item) (evd_ID item) (error_text e)
        (upload_mutation input "evidence.upload_failed" "Immutable object upload failed"
           [("error", VString (error_text e))]) w in
      (Err e, w)
  | (Ok stored, w) =>
      (let! finalized := FinalizeEvidence (evd_TenantID item) (evd_ID item) (bi_VersionID stored) (bi_ETag stored)
         (upload_mutation input "evidence.uploaded" "Evidence stored in immutable object storage"
            [("object_version", VString (bi_VersionID stored)); ("etag", VString (bi_ETag stored))]) in
       ret (finalized, false)) w
  end.

(** [Upload] from the digest of the content on. *)
Definition upload_content (input : UploadInput) (filename contentType content : string) : CaseM (EvidenceItem * bool) :=
  let size := string_len content in
  let digest := sha256_hex content in
  let expected := normalizeSHA256 (up_ExpectedSHA256 input) in
  if (TrimSpace (up_ExpectedSHA256 input) != "") && (expected == "")
  then fail (Wrap "supplied SHA-256 is malformed" ErrInvalidEvidence) else
  if (expected != "") && (expected != digest)
  then fail (Wrap "supplied SHA-256 does not match content" ErrEvidenceIntegrity) else
  let! policy := GetRetentionPolicy (up_TenantID input) in
  let! now := Now in
  let! random := Random in
  let evidenceID := NewID "evd" random in
  let item := zero_EvidenceItem {{
    evd_ID := evidenceID; evd_TenantID := up_TenantID input; evd_RequestID := up_RequestID input;
    evd_CaseID := up_CaseID input; evd_IncidentID := up_IncidentID input; evd_AlertID := up_AlertID input;
    evd_EventID := up_EventID input; evd_Filename := filename; evd_ContentType := contentType;
    evd_Description := up_Description input; evd_Size := size; evd_SHA256 := digest; evd_Bucket := blob_Bucket;
    evd_ObjectKey := evidenceObjectKey (up_TenantID input) evidenceID filename now; evd_Status := "PENDING";
    evd_RetainUntil := time_Add now (rp_EvidenceDays policy * (24 * Hour)); evd_Uploader := up_Actor input;
    evd_Metadata := Some (list_to_map [("retention_policy_version", VInt (rp_Version policy))]) }} in
  let! (reserved, created) := ReserveEvidence item
    (upload_mutation input "evidence.reserved" "Evidence upload reserved"
       [("sha256", VString digest); ("size", VInt size)]) in
  if negb created then upload_again input digest size reserved else upload_object input item content.

Definition Upload (input : UploadInput) : CaseM (EvidenceItem * bool) :=
  let input := input {{ up_TenantID ::= TrimSpace; up_RequestID ::= TrimSpace; up_Actor ::= TrimSpace;
    up_Description ::= TrimSpace; up_CaseID ::= TrimSpace; up_IncidentID ::= TrimSpace; up_AlertID ::= TrimSpace;
    up_EventID ::= TrimSpace }} in
  let! filename := lift (safeFilename (up_Filename input)) in
  let! contentType := lift (safeContentType (up_ContentType input)) in
  match up_Reader input with
  | Some reader =>
      if (up_TenantID input == "") || (up_RequestID input == "") || (up_Actor input == "")
         || ((up_CaseID input == "") && (up_IncidentID input == "") && (up_AlertID input == "") && (up_EventID input == ""))
         || (4000 <? string_len (up_Description input))
      then fail (Wrap "tenant, request, actor, content and one investigation link are required" ErrInvalidEvidence) else
      let! content := lift (spool reader) in
      if maximum <? string_len content
      then fail (Wrap ("content exceeds " +:+ Itoa maximum +:+ " bytes") ErrInvalidEvidence)
      else upload_content input filename contentType content
  | None => fail (Wrap "tenant, request, actor, content and one investigation link are required" ErrInvalidEvidence)
  end.

(** [Service.Open] *)
Definition OpenEvidence (tenantID evidenceID actor reason requestID : string) : CaseM (BlobReader * EvidenceItem) :=
  if (TrimSpace actor == "") || (string_len (TrimSpace reason) <? 3)
  then fail (Wrap "actor and access reason are required" ErrInvalidEvidence) else
  let! item := Evidence tenantID evidenceID in
  if evd_Status item != "AVAILABLE" then fail (Wrap ("evidence is " +:+ evd_Status item) ErrEvidenceState) else
  let! (reader, info) := blob (fun rt => blob_Open rt (evd_ObjectKey item) (evd_ObjectVersion item)) in
  if (bi_Size info != evd_Size item) || (metadataSHA (bi_Metadata info) != evd_SHA256 item) then fail ErrEvidenceIntegrity else
  do! AppendEvidenceCustody tenantID evidenceID
    {| evm_Actor := actor; evm_Action := "evidence.accessed"; evm_Reason := TrimSpace reason; evm_RequestID := requestID;
       evm_Metadata := Some (list_to_map [("object_version", VString (evd_ObjectVersion item))]) |} in
  ret (reader, item).

(** [Service.Verify] *)
Definition VerifyEvidence (tenantID evidenceID actor reason requestID : string) : CaseM EvidenceVerification :=
  if (TrimSpace actor == "") || (string_len (TrimSpace reason) <? 3)
  then fail (Wrap "actor and verification reason are required" ErrInvalidEvidence) else
  let! item := Evidence tenantID evidenceID in
  if evd_Status item != "AVAILABLE" then fail (Wrap ("evidence is " +:+ evd_Status item) ErrEvidenceState) else
  let! (reader, _) := blob (fun rt => blob_Open rt (evd_ObjectKey item) (evd_ObjectVersion item)) in
  do! (match rd_error (br_content reader) with Some e => fail e | None => ret tt end) in
  do! (match br_close reader with Some e => fail e | None => ret tt end) in
  let size := string_len (rd_bytes (br_content reader)) in
  let actual := sha256_hex (rd_bytes (br_content reader)) in
  let valid := (size =? evd_Size item) && (actual == evd_SHA256 item) in
  let! verifiedAt := Now in
  let action := if valid then "evidence.verified" else "evidence.verification_failed" in
  do! RecordEvidenceVerification tenantID evidenceID valid
    {| evm_Actor := actor; evm_Action := action; evm_Reason := TrimSpace reason; evm_RequestID := requestID;
       evm_Metadata := Some (list_to_map [("expected_sha256", VString (evd_SHA256 item)); ("actual_sha256", VString actual);
                                          ("size", VInt size)]) |} in
  ret {| evv_EvidenceID := evidenceID; evv_Expected := evd_SHA256 item; evv_Actual := actual; evv_Size := size;
         evv_Valid := valid; evv_VerifiedAt := verifiedAt |}.

Definition Custody (tenantID evidenceID : string) : CaseM (list EvidenceCustodyEntry * bool) :=
  let! items := ListEvidenceCustody tenantID evidenceID in
  let! valid := VerifyEvidenceCustody tenantID evidenceID in
  ret (items, valid).

End Service.
