(* ===== verification/CaseService.v ===== *)
(** * The case service (cases/service.go)

    Every call is a computation on the database: it checks its input, runs the
    transactions of the repository and records an audit entry.  The functions
    [MutateCase] is given draw the identifiers of what they add. *)

From S2P Require Import Prelude GoLang GoFormat Core MemoryStore Sql AuditTable CaseModel CaseDb EvidenceDb.

Definition ErrInvalidCase := New "invalid case".
Definition ErrInvalidTransition := New "invalid case transition".
Definition ErrClosureDetails := New "case closure summary is required".
Definition ErrTaskTransition := New "invalid case task transition".

(** ** Inputs *)

Record ParticipantInput : Type := {
  pin_UserID : string;
  pin_Role : string
}.
#[export] Instance eta_ParticipantInput : Eta ParticipantInput := fun r => {|
  pin_UserID := pin_UserID r; pin_Role := pin_Role r
|}.
Definition zero_ParticipantInput : ParticipantInput := {|
  pin_UserID := ""; pin_Role := ""
|}.

Record ObservableInput : Type := {
  oin_Type : string;
  oin_Value : string;
  oin_Source : string
}.
#[export] Instance eta_ObservableInput : Eta ObservableInput := fun r => {|
  oin_Type := oin_Type r; oin_Value := oin_Value r; oin_Source := oin_Source r
|}.
Definition zero_ObservableInput : ObservableInput := {|
  oin_Type := ""; oin_Value := ""; oin_Source := ""
|}.

Record CreateInput : Type := {
  cin_Title : string;
  cin_Description : string;
  cin_Severity : Severity;
  cin_Owner : string;
  cin_IncidentIDs : list string;
  cin_Participants : list ParticipantInput;
  cin_Observables : list ObservableInput;
  cin_RequestID : string
}.
#[export] Instance eta_CreateInput : Eta CreateInput := fun r => {|
  cin_Title := cin_Title r; cin_Description := cin_Description r; cin_Severity := cin_Severity r;
  cin_Owner := cin_Owner r; cin_IncidentIDs := cin_IncidentIDs r; cin_Participants := cin_Participants r;
  cin_Observables := cin_Observables r; cin_RequestID := cin_RequestID r
|}.
Definition zero_CreateInput : CreateInput := {|
  cin_Title := ""; cin_Description := ""; cin_Severity := "";
  cin_Owner := ""; cin_IncidentIDs := []; cin_Participants := [];
  cin_Observables := []; cin_RequestID := ""
|}.

Record Patch : Type := {
  cpa_Title : string;
  cpa_Description : option string;
  cpa_Status : string;
  cpa_Severity : Severity;
  cpa_Owner : string;
  cpa_ClosureSummary : string;
  cpa_Version : Z;
  cpa_RequestID : string
}.
#[export] Instance eta_Patch : Eta Patch := fun r => {|
  cpa_Title := cpa_Title r; cpa_Description := cpa_Description r; cpa_Status := cpa_Status r;
  cpa_Severity := cpa_Severity r; cpa_Owner := cpa_Owner r; cpa_ClosureSummary := cpa_ClosureSummary r;
  cpa_Version := cpa_Version r; cpa_RequestID := cpa_RequestID r
|}.
Definition zero_Patch : Patch := {|
  cpa_Title := ""; cpa_Description := None; cpa_Status := "";
  cpa_Severity := ""; cpa_Owner := ""; cpa_ClosureSummary := "";
  cpa_Version := 0; cpa_RequestID := ""
|}.

Record TaskInput : Type := {
  tin_Title : string;
  tin_Description : string;
  tin_Assignee : string;
  tin_DueAt : option Time;
  tin_Version : Z
}.
#[export] Instance eta_TaskInput : Eta TaskInput := fun r => {|
  tin_Title := tin_Title r; tin_Description := tin_Description r; tin_Assignee := tin_Assignee r;
  tin_DueAt := tin_DueAt r; tin_Version := tin_Version r
|}.
Definition zero_TaskInput : TaskInput := {|
  tin_Title := ""; tin_Description := ""; tin_Assignee := "";
  tin_DueAt := None; tin_Version := 0
|}.

Record TaskPatch : Type := {
  tpa_Status : string;
  tpa_Assignee : string;
  tpa_Description : option string;
  tpa_DueAt : option Time;
  tpa_Version : Z
}.
#[export] Instance eta_TaskPatch : Eta TaskPatch := fun r => {|
  tpa_Status := tpa_Status r; tpa_Assignee := tpa_Assignee r; tpa_Description := tpa_Description r;
  tpa_DueAt := tpa_DueAt r; tpa_Version := tpa_Version r
|}.
Definition zero_TaskPatch : TaskPatch := {|
  tpa_Status := ""; tpa_Assignee := ""; tpa_Description := None;
  tpa_DueAt := None; tpa_Version := 0
|}.

(** ** Rules *)

Definition AllowedTransitions (status : string) : list string :=
  let status := ToUpper status in
  if status == CaseStatusOpen then [CaseStatusInvestigation; CaseStatusClosed]
  else if status == CaseStatusInvestigation then [CaseStatusResponse; CaseStatusClosed]
  else if status == CaseStatusResponse then [CaseStatusInvestigation; CaseStatusClosed]
  else [].

Definition validTaskTransition (current next : string) : bool :=
  if current == CaseTaskOpen then next ∈? [CaseTaskInProgress; CaseTaskDone; CaseTaskCancelled]
  else if current == CaseTaskInProgress then next ∈? [CaseTaskDone; CaseTaskCancelled]
  else false.

Definition validSeverity (value : Severity) : bool :=
  (value == SeverityCritical) || (value == SeverityHigh) || (value == SeverityMedium)
  || (value == SeverityLow) || (value == SeverityInformational).

Definition caseWindow (value : Severity) : Duration :=
  if value == SeverityCritical then 4 * Hour
  else if value == SeverityHigh then 12 * Hour
  else if value == SeverityMedium then 48 * Hour
  else 7 * 24 * Hour.

(** The loop of store/memory.go's [appendUnique], on trimmed additions. *)
Definition appendUnique (values additions : list string) : list string :=
  MemoryStore.appendUnique values (List.map TrimSpace additions).

Definition uniqueSorted (values : list string) : list string := sort_Strings (appendUnique [] values).

(** A [[]string] as a metadata value: the empty ones here are nil. *)
Definition strings_value (l : list string) : GoValue := match l with [] => VNil | _ => VStrings l end.

Fixpoint set_participant_role (values : list CaseParticipant) (userID role : string) : option (list CaseParticipant) :=
  match values with
  | [] => None
  | p :: rest =>
      if cp_UserID p == userID then Some (p {{ cp_Role := role }} :: rest)
      else option_map (cons p) (set_participant_role rest userID role)
  end.

Definition appendParticipant (values : list CaseParticipant) (input : ParticipantInput) (actor : string) (now : Time)
    : list CaseParticipant :=
  let userID := TrimSpace (pin_UserID input) in
  let role := ToUpper (TrimSpace (pin_Role input)) in
  if userID == "" then values else
  let role := if role == "" then "MEMBER" else role in
  match set_participant_role values userID role with
  | Some values => values
  | None => values ++ [{| cp_UserID := userID; cp_Role := role; cp_AddedBy := actor; cp_AddedAt := now |}]
  end.

Definition observableExists (values : list CaseObservable) (kind value : string) : bool :=
  existsb (fun item => (cob_Type item == kind) && EqualFold (cob_Value item) value) values.

Definition newObservable (input : ObservableInput) (actor : string) (now : Time) : CaseM CaseObservable :=
  let kind := ToUpper (TrimSpace (oin_Type input)) in
  let value := TrimSpace (oin_Value input) in
  let source := TrimSpace (oin_Source input) in
  if (kind == "") || (value == "") || (2048 <? string_len value)
  then fail (Wrap "observable type and bounded value are required" ErrInvalidCase) else
  let! random := Random in
  ret {| cob_ID := NewID "obs" random; cob_Type := kind; cob_Value := value; cob_Source := source;
         cob_AddedBy := actor; cob_CreatedAt := now |}.

Definition newHistory (action message actor : string) (metadata : Metadata) (at_ : Time) : CaseM CaseHistoryEntry :=
  let! random := Random in
  ret {| ch_ID := NewID "hist" random; ch_Action := action; ch_Message := message; ch_Actor := actor;
         ch_Metadata := metadata; ch_CreatedAt := at_ |}.

(** [item.History = append(item.History, newHistory(...))] *)
Definition record_history (action message actor : string) (metadata : Metadata) (now : Time) (item : Case) : CaseM Case :=
  let! entry := newHistory action message actor metadata now in
  ret (item {{ cs_History ::= fun h => h ++ [entry] }}).

(** ** Reading *)

Section CaseService.
Context `{JsonColumn}.

Definition audit (tenantID actor action caseID requestID : string) (metadata : Metadata) : CaseM unit :=
  do! wrapping "append case audit" (AppendAudit (zero_AuditEntry {{
    au_TenantID := tenantID; au_Actor := actor; au_Action := action; au_ResourceType := "case";
    au_ResourceID := caseID; au_Outcome := "SUCCESS"; au_RequestID := requestID; au_Metadata := metadata }})) in
  ret tt.

Definition Cases (tenantID : string) (filter : CaseFilter) : CaseM (list Case) :=
  let filter := filter {{ csf_Query ::= TrimSpace; csf_Status ::= fun s => ToUpper (TrimSpace s);
    csf_Severity ::= fun s => ToUpper (TrimSpace s); csf_Owner ::= TrimSpace; csf_IncidentID ::= TrimSpace }} in
  if (csf_Limit filter <? 0) || (1000 <? csf_Limit filter)
  then fail (Wrap "limit must be between 0 and 1000" ErrInvalidCase)
  else ListCases tenantID filter.

(** [Service.Case] *)
Definition CaseDetails (tenantID caseID : string) : CaseM Case :=
  let! item := GetCase tenantID (TrimSpace caseID) in
  let! evidence := ListEvidence tenantID (zero_EvidenceFilter {{ evf_CaseID := cs_ID item; evf_Limit := 1000 }}) in
  ret (item {{ cs_EvidenceIDs := List.map evd_ID evidence }}).

(** ** Creation *)

(** The severity a case takes over from its incidents. *)
Definition raise_severity (tenantID : string) (severity : Severity) (incidentID : string) : CaseM Severity :=
  let! incident := GetIncident tenantID incidentID in
  ret (if SeverityRank severity <? SeverityRank (in_Severity incident) then in_Severity incident else severity).

Definition collect_observable (actor : string) (now : Time) (observables : list CaseObservable) (value : ObservableInput)
    : CaseM (list CaseObservable) :=
  let! observable := newObservable value actor now in
  ret (if observableExists observables (cob_Type observable) (cob_Value observable) then observables
       else observables ++ [observable]).

Definition Create (tenantID actor : string) (input : CreateInput) : CaseM (Case * bool) :=
  let tenantID := TrimSpace tenantID in
  let actor := TrimSpace actor in
  let input := input {{ cin_Title ::= TrimSpace; cin_Description ::= TrimSpace; cin_Owner ::= TrimSpace;
                        cin_RequestID ::= TrimSpace }} in
  if (tenantID == "") || (actor == "") || (cin_Title input == "") || (300 <? string_len (cin_Title input))
     || (10000 <? string_len (cin_Description input)) || (cin_RequestID input == "")
  then fail (Wrap "tenant, actor, title and request identity are required" ErrInvalidCase) else
  let incidentIDs := uniqueSorted (cin_IncidentIDs input) in
  let severity := if cin_Severity input == "" then SeverityMedium else cin_Severity input in
  let! severity := foldM (raise_severity tenantID) severity incidentIDs in
  if negb (validSeverity severity) then fail (Wrap "unsupported severity" ErrInvalidCase) else
  let owner := if cin_Owner input == "" then actor else cin_Owner input in
  let! now := Now in
  let participants := fold_left (fun participants value => appendParticipant participants value actor now)
    (cin_Participants input) [{| cp_UserID := owner; cp_Role := "OWNER"; cp_AddedBy := actor; cp_AddedAt := now |}] in
  let! observables := foldM (collect_observable actor now) [] (cin_Observables input) in
  let! random := Random in
  let! created := newHistory "case.created" "Case opened" actor
    (Some (list_to_map [("incident_ids", strings_value incidentIDs)])) now in
  let item := {|
    cs_ID := NewID "case" random; cs_TenantID := tenantID; cs_RequestID := cin_RequestID input;
    cs_Title := cin_Title input; cs_Description := cin_Description input; cs_Status := CaseStatusOpen;
    cs_Severity := severity; cs_Owner := owner; cs_ClosureSummary := ""; cs_IncidentIDs := incidentIDs;
    cs_EvidenceIDs := []; cs_Participants := participants; cs_Observables := observables; cs_Tasks := [];
    cs_Comments := []; cs_History := [created];
    cs_SLA := {| csla_DueAt := time_Add now (caseWindow severity); csla_Breached := false |};
    cs_AllowedTransitions := AllowedTransitions CaseStatusOpen; cs_Version := 1; cs_CreatedBy := actor;
    cs_UpdatedBy := actor; cs_CreatedAt := now; cs_UpdatedAt := now; cs_ClosedAt := None |} in
  let! (created, duplicate) := CreateCase item in
  if duplicate : bool then let! existing := CaseDetails tenantID (cs_ID created) in ret (existing, true) else
  do! audit tenantID actor "case.created" (cs_ID created) (cin_RequestID input)
    (Some (list_to_map [("incident_ids", strings_value incidentIDs); ("severity", VString severity)])) in
  ret (created, false).

(** ** Changes *)

Definition update_title (patch : Patch) (item : Case) : CaseM Case :=
  let title := TrimSpace (cpa_Title patch) in
  if title == "" then ret item else
  if 300 <? string_len title then fail (Wrap "title exceeds 300 characters" ErrInvalidCase)
  else ret (item {{ cs_Title := title }}).

Definition update_description (patch : Patch) (item : Case) : CaseM Case :=
  match cpa_Description patch with
  | None => ret item
  | Some description =>
      let description := TrimSpace description in
      if 10000 <? string_len description then fail (Wrap "description exceeds 10000 characters" ErrInvalidCase)
      else ret (item {{ cs_Description := description }})
  end.

Definition update_severity (patch : Patch) (item : Case) : CaseM Case :=
  if cpa_Severity patch == "" then ret item else
  if negb (validSeverity (cpa_Severity patch)) then fail (Wrap "unsupported severity" ErrInvalidCase)
  else ret (item {{ cs_Severity := cpa_Severity patch }}).

Definition update_owner (actor : string) (patch : Patch) (now : Time) (item : Case) : CaseM Case :=
  let owner := TrimSpace (cpa_Owner patch) in
  if (owner == "") || (owner == cs_Owner item) then ret item else
  record_history "case.assigned" "Case owner changed" actor (Some (list_to_map [("owner", VString owner)])) now
    (item {{ cs_Owner := owner;
             cs_Participants ::= fun ps => appendParticipant ps {| pin_UserID := owner; pin_Role := "OWNER" |} actor now }}).

Definition close_case (patch : Patch) (now : Time) (item : Case) : CaseM Case :=
  let summary := TrimSpace (cpa_ClosureSummary patch) in
  if summary == "" then fail ErrClosureDetails else
  ret (item {{ cs_ClosureSummary := summary; cs_ClosedAt := Some now;
               cs_SLA ::= fun sla => sla {{ csla_Breached := After now (csla_DueAt sla) }} }}).

Definition update_status (actor : string) (patch : Patch) (now : Time) (item : Case) : CaseM Case :=
  if cpa_Status patch == "" then ret item else
  let next := ToUpper (TrimSpace (cpa_Status patch)) in
  if (next != cs_Status item) && negb (next ∈? AllowedTransitions (cs_Status item))
  then fail (Wrap (cs_Status item +:+ " -> " +:+ next) ErrInvalidTransition) else
  let! item := if next == CaseStatusClosed then close_case patch now item else ret item in
  if next == cs_Status item then ret item else
  let previous := cs_Status item in
  record_history "case.status_changed" (previous +:+ " -> " +:+ next) actor None now (item {{ cs_Status := next }}).

(** The function [Update] hands to [MutateCase]. *)
Definition apply_patch (actor : string) (patch : Patch) (now : Time) (item : Case) : CaseM Case :=
  let! item := update_title patch item in
  let! item := update_description patch item in
  let! item := update_severity patch item in
  let! item := update_owner actor patch now item in
  let! item := update_status actor patch now item in
  ret (item {{ cs_AllowedTransitions := AllowedTransitions (cs_Status item); cs_UpdatedBy := actor }}).

Definition Update (tenantID caseID actor : string) (patch : Patch) : CaseM Case :=
  let! now := Now in
  let! item := MutateCase tenantID caseID (cpa_Version patch) (apply_patch actor patch now) in
  do! audit tenantID actor "case.updated" (cs_ID item) (cpa_RequestID patch)
    (Some (list_to_map [("status", VString (cs_Status item)); ("owner", VString (cs_Owner item))])) in
  CaseDetails tenantID (cs_ID item).

Definition add_comment (actor body : string) (now : Time) (item : Case) : CaseM Case :=
  let! random := Random in
  let comment := {| cc_ID := NewID "cmt" random; cc_Body := body; cc_Author := actor; cc_CreatedAt := now |} in
  let! item := record_history "case.comment_added" "Investigation comment added" actor
    (Some (list_to_map [("comment_id", VString (cc_ID comment))])) now
    (item {{ cs_Comments ::= fun l => l ++ [comment] }}) in
  ret (item {{ cs_UpdatedBy := actor }}).

Definition AddComment (tenantID caseID actor body requestID : string) (version : Z) : CaseM Case :=
  let body := TrimSpace body in
  if (body == "") || (10000 <? string_len body)
  then fail (Wrap "comment must contain 1..10000 characters" ErrInvalidCase) else
  let! now := Now in
  let! item := MutateCase tenantID caseID version (add_comment actor body now) in
  do! audit tenantID actor "case.comment_added" (cs_ID item) requestID None in
  CaseDetails tenantID (cs_ID item).

Definition add_task (actor : string) (input : TaskInput) (now : Time) (item : Case) : CaseM Case :=
  let! random := Random in
  let task := {| ct_ID := NewID "task" random; ct_Title := tin_Title input; ct_Description := tin_Description input;
    ct_Status := CaseTaskOpen; ct_Assignee := tin_Assignee input; ct_DueAt := tin_DueAt input; ct_CreatedBy := actor;
    ct_CompletedBy := ""; ct_Version := 1; ct_CreatedAt := now; ct_UpdatedAt := now; ct_CompletedAt := None |} in
  let! item := record_history "case.task_created" ("Task created: " +:+ ct_Title task) actor
    (Some (list_to_map [("task_id", VString (ct_ID task))])) now
    (item {{ cs_Tasks ::= fun l => l ++ [task] }}) in
  ret (item {{ cs_UpdatedBy := actor }}).

Definition AddTask (tenantID caseID actor requestID : string) (input : TaskInput) : CaseM Case :=
  let input := input {{ tin_Title ::= TrimSpace; tin_Description ::= TrimSpace; tin_Assignee ::= TrimSpace }} in
  if (tin_Title input == "") || (300 <? string_len (tin_Title input)) || (5000 <? string_len (tin_Description input))
  then fail (Wrap "task title and bounded description are required" ErrInvalidCase) else
  let! now := Now in
  let! item := MutateCase tenantID caseID (tin_Version input) (add_task actor input now) in
  do! audit tenantID actor "case.task_created" (cs_ID item) requestID None in
  CaseDetails tenantID (cs_ID item).

Definition task_status (actor : string) (patch : TaskPatch) (now : Time) (task : CaseTask) : outcome CaseTask :=
  if tpa_Status patch == "" then Ok task else
  let next := ToUpper (TrimSpace (tpa_Status patch)) in
  if (next != ct_Status task) && negb (validTaskTransition (ct_Status task) next)
  then Err (Wrap (ct_Status task +:+ " -> " +:+ next) ErrTaskTransition) else
  let task := task {{ ct_Status := next }} in
  Ok (if next == CaseTaskDone then task {{ ct_CompletedAt := Some now; ct_CompletedBy := actor }} else task).

Definition patch_task (actor : string) (patch : TaskPatch) (now : Time) (task : CaseTask) : outcome CaseTask :=
  let? task := task_status actor patch now task in
  let task := if tpa_Assignee patch == "" then task else task {{ ct_Assignee := TrimSpace (tpa_Assignee patch) }} in
  let task := match tpa_Description patch with Some d => task {{ ct_Description := TrimSpace d }} | None => task end in
  let task := match tpa_DueAt patch with Some due => task {{ ct_DueAt := Some due }} | None => task end in
  Ok (task {{ ct_Version ::= fun v => wrap64 (v + 1); ct_UpdatedAt := now }}).

(** The loop over the tasks: the first of that identifier is changed;
    [None] if there is none. *)
Fixpoint patch_tasks (taskID actor : string) (patch : TaskPatch) (now : Time) (tasks : list CaseTask)
    : outcome (option (CaseTask * list CaseTask)) :=
  match tasks with
  | [] => Ok None
  | task :: rest =>
      if ct_ID task == taskID
      then let? task := patch_task actor patch now task in Ok (Some (task, task :: rest))
      else let? found := patch_tasks taskID actor patch now rest in
           Ok (option_map (fun '(changed, rest) => (changed, task :: rest)) found)
  end.

Definition update_task (taskID actor : string) (patch : TaskPatch) (now : Time) (item : Case) : CaseM Case :=
  let! found := lift (patch_tasks taskID actor patch now (cs_Tasks item)) in
  match found with
  | None => fail (Wrap "task does not exist" ErrInvalidCase)
  | Some (task, tasks) =>
      let! item := record_history "case.task_updated" ("Task updated: " +:+ ct_Title task) actor
        (Some (list_to_map [("task_id", VString (ct_ID task)); ("status", VString (ct_Status task))])) now
        (item {{ cs_Tasks := tasks }}) in
      ret (item {{ cs_UpdatedBy := actor }})
  end.

Definition UpdateTask (tenantID caseID taskID actor requestID : string) (patch : TaskPatch) : CaseM Case :=
  let! now := Now in
  let! item := MutateCase tenantID caseID (tpa_Version patch) (update_task taskID actor patch now) in
  do! audit tenantID actor "case.task_updated" (cs_ID item) requestID
    (Some (list_to_map [("task_id", VString taskID)])) in
  CaseDetails tenantID (cs_ID item).

Definition add_participant (actor : string) (input : ParticipantInput) (now : Time) (item : Case) : CaseM Case :=
  let! item := record_history "case.participant_added" "Participant added" actor
    (Some (list_to_map [("user_id", VString (pin_UserID input)); ("role", VString (pin_Role input))])) now
    (item {{ cs_Participants ::= fun ps => appendParticipant ps input actor now }}) in
  ret (item {{ cs_UpdatedBy := actor }}).

Definition AddParticipant (tenantID caseID actor requestID : string) (input : ParticipantInput) (version : Z) : CaseM Case :=
  let! now := Now in
  let input := input {{ pin_UserID ::= TrimSpace; pin_Role ::= fun s => ToUpper (TrimSpace s) }} in
  if pin_UserID input == "" then fail (Wrap "participant identity is required" ErrInvalidCase) else
  let! item := MutateCase tenantID caseID version (add_participant actor input now) in
  do! audit tenantID actor "case.participant_added" (cs_ID item) requestID
    (Some (list_to_map [("user_id", VString (pin_UserID input))])) in
  CaseDetails tenantID (cs_ID item).

Definition add_observable (actor : string) (value : CaseObservable) (now : Time) (item : Case) : CaseM Case :=
  let item := if observableExists (cs_Observables item) (cob_Type value) (cob_Value value) then item
              else item {{ cs_Observables ::= fun l => l ++ [value] }} in
  let! item := record_history "case.observable_added" "Observable added" actor
    (Some (list_to_map [("type", VString (cob_Type value)); ("value", VString (cob_Value value))])) now item in
  ret (item {{ cs_UpdatedBy := actor }}).

Definition AddObservable (tenantID caseID actor requestID : string) (input : ObservableInput) (version : Z) : CaseM Case :=
  let! now := Now in
  let! value := newObservable input actor now in
  let! item := MutateCase tenantID caseID version (add_observable actor value now) in
  do! audit tenantID actor "case.observable_added" (cs_ID item) requestID
    (Some (list_to_map [("observable_id", VString (cob_ID value))])) in
  CaseDetails tenantID (cs_ID item).

Definition link_incident (actor incidentID : string) (now : Time) (item : Case) : CaseM Case :=
  let! item := record_history "case.incident_linked" "Incident linked" actor
    (Some (list_to_map [("incident_id", VString incidentID)])) now
    (item {{ cs_IncidentIDs ::= fun l => appendUnique l [incidentID] }}) in
  ret (item {{ cs_UpdatedBy := actor }}).

Definition LinkIncident (tenantID caseID incidentID actor requestID : string) (version : Z) : CaseM Case :=
  let incidentID := TrimSpace incidentID in
  let! _ := GetIncident tenantID incidentID in
  let! now := Now in
  let! item := MutateCase tenantID caseID version (link_incident actor incidentID now) in
  do! audit tenantID actor "case.incident_linked" (cs_ID item) requestID
    (Some (list_to_map [("incident_id", VString incidentID)])) in
  CaseDetails tenantID (cs_ID item).

End CaseService.
