(* ===== verification/CaseRules.v ===== *)
(** * What a case is and how it may change

    The well-formedness of a case, the abstract specification of a change of
    one, and that every function the service hands to [MutateCase] is such a
    change. *)

From S2P Require Import Prelude GoLang GoFormat Core MemoryStore MemoryFacts.
From S2P Require Import Sql AuditTable CaseModel CaseDb EvidenceDb CaseService.

(** ** Specification *)

Definition task_statuses : list string := ["OPEN"; "IN_PROGRESS"; "DONE"; "CANCELLED"].

Record task_ok (t : CaseTask) : Prop := {
  to_title : ct_Title t <> "";
  to_status : ct_Status t ∈ task_statuses;
  to_done : ct_Status t = CaseTaskDone <-> is_Some (ct_CompletedAt t)
}.

(** Observables are told apart by their type and, whatever its case, their value. *)
Definition observable_key (o : CaseObservable) : string * string := (cob_Type o, ToLower (cob_Value o)).

Record case_ok (c : Case) : Prop := {
  co_title : cs_Title c <> "" /\ string_len (cs_Title c) <= 300;
  co_description : string_len (cs_Description c) <= 10000;
  co_severity : validSeverity (cs_Severity c) = true;
  co_owner : cs_Owner c ∈ List.map cp_UserID (cs_Participants c);
  co_participants : NoDup (List.map cp_UserID (cs_Participants c));
  co_observables : NoDup (List.map observable_key (cs_Observables c));
  co_incidents : NoDup (cs_IncidentIDs c);
  co_transitions : cs_AllowedTransitions c = AllowedTransitions (cs_Status c);
  co_closed : cs_Status c = CaseStatusClosed <-> is_Some (cs_ClosedAt c);
  co_summary : is_Some (cs_ClosedAt c) -> cs_ClosureSummary c <> "";
  co_breached : csla_Breached (cs_SLA c) = match cs_ClosedAt c with Some t => After t (csla_DueAt (cs_SLA c)) | None => false end;
  co_tasks : Forall task_ok (cs_Tasks c)
}.

(** A task keeps its identity and moves along the transitions. *)
Record task_advances (t t' : CaseTask) : Prop := {
  ta_identity : ct_ID t' = ct_ID t /\ ct_Title t' = ct_Title t /\ ct_CreatedBy t' = ct_CreatedBy t /\
    ct_CreatedAt t' = ct_CreatedAt t;
  ta_status : ct_Status t' = ct_Status t \/ validTaskTransition (ct_Status t) (ct_Status t') = true
}.

(** What every change of a case respects: identity and deadline stay, the
    status moves along the allowed transitions and the history says so, and the
    history, the comments, the incidents, the observables, the people and the
    tasks of the case are only added to. *)
Record advances (c c' : Case) : Prop := {
  adv_identity : cs_ID c' = cs_ID c /\ cs_TenantID c' = cs_TenantID c /\ cs_CreatedBy c' = cs_CreatedBy c /\
    cs_CreatedAt c' = cs_CreatedAt c /\ csla_DueAt (cs_SLA c') = csla_DueAt (cs_SLA c);
  adv_status : cs_Status c' = cs_Status c \/ cs_Status c' ∈ AllowedTransitions (cs_Status c);
  adv_recorded : cs_Status c' <> cs_Status c -> exists h, last (cs_History c') = Some h /\
    ch_Action h = "case.status_changed" /\ ch_Message h = cs_Status c +:+ " -> " +:+ cs_Status c';
  adv_history : cs_History c `prefix_of` cs_History c';
  adv_comments : cs_Comments c `prefix_of` cs_Comments c';
  adv_incidents : cs_IncidentIDs c `prefix_of` cs_IncidentIDs c';
  adv_observables : cs_Observables c `prefix_of` cs_Observables c';
  adv_participants : List.map cp_UserID (cs_Participants c) `prefix_of` List.map cp_UserID (cs_Participants c');
  adv_tasks : exists tasks, tasks `prefix_of` cs_Tasks c' /\ Forall2 task_advances (cs_Tasks c) tasks
}.

(** ** Changes of a part *)

(** The parts [advances] talks about. *)
Definition same_parts (c c' : Case) : Prop :=
  cs_ID c' = cs_ID c /\ cs_TenantID c' = cs_TenantID c /\ cs_CreatedBy c' = cs_CreatedBy c /\
  cs_CreatedAt c' = cs_CreatedAt c /\ csla_DueAt (cs_SLA c') = csla_DueAt (cs_SLA c) /\
  cs_Status c' = cs_Status c /\ cs_History c' = cs_History c /\ cs_Comments c' = cs_Comments c /\
  cs_IncidentIDs c' = cs_IncidentIDs c /\ cs_Observables c' = cs_Observables c /\
  cs_Participants c' = cs_Participants c /\ cs_Tasks c' = cs_Tasks c.

#[export] Instance task_advances_refl : Reflexive task_advances.
Proof. intros t. constructor; [done|by left]. Qed.

Lemma Forall2_refl {A} (P : A -> A -> Prop) `{!Reflexive P} l : Forall2 P l l.
Proof. induction l; by constructor. Qed.

(** A change that leaves the status alone. *)
Lemma advances_quiet c c' :
  (cs_ID c' = cs_ID c /\ cs_TenantID c' = cs_TenantID c /\ cs_CreatedBy c' = cs_CreatedBy c /\
   cs_CreatedAt c' = cs_CreatedAt c /\ csla_DueAt (cs_SLA c') = csla_DueAt (cs_SLA c)) ->
  cs_Status c' = cs_Status c ->
  cs_History c `prefix_of` cs_History c' -> cs_Comments c `prefix_of` cs_Comments c' ->
  cs_IncidentIDs c `prefix_of` cs_IncidentIDs c' -> cs_Observables c `prefix_of` cs_Observables c' ->
  List.map cp_UserID (cs_Participants c) `prefix_of` List.map cp_UserID (cs_Participants c') ->
  (exists tasks, tasks `prefix_of` cs_Tasks c' /\ Forall2 task_advances (cs_Tasks c) tasks) ->
  advances c c'.
Proof. intros. constructor; try done. by left. Qed.

Lemma same_tasks (l : list CaseTask) : exists tasks, tasks `prefix_of` l /\ Forall2 task_advances l tasks.
Proof. exists l. split; [done|]. apply Forall2_refl, _. Qed.

Lemma advances_same c c' : same_parts c c' -> advances c c'.
Proof.
  intros (E1 & E2 & E3 & E4 & E5 & E6 & E7 & E8 & E9 & E10 & E11 & E12). apply advances_quiet; try done.
  all: rewrite ?E7, ?E8, ?E9, ?E10, ?E11, ?E12; done || apply same_tasks.
Qed.

(** ** Participants *)

Lemma set_participant_role_ids values userID role values' : set_participant_role values userID role = Some values' ->
  List.map cp_UserID values' = List.map cp_UserID values /\ userID ∈ List.map cp_UserID values.
Proof.
  revert values'. induction values as [|p rest IH]; intros values'; [done|]. cbn. case_bool_decide as E.
  - intros [= <-]. cbn. split; [done|]. subst. left.
  - destruct (set_participant_role rest userID role) as [l|]; [|done]. intros [= <-]. destruct (IH l) as [E1 E2]; [done|].
    cbn. rewrite E1. split; [done|by right].
Qed.

Lemma set_participant_role_None values userID role : set_participant_role values userID role = None ->
  userID ∉ List.map cp_UserID values.
Proof.
  induction values as [|p rest IH]; [intros _; apply not_elem_of_nil|]. cbn. case_bool_decide as E; [done|].
  destruct (set_participant_role rest userID role) as [l|]; [done|]. intros _. apply not_elem_of_cons. split; [done|by apply IH].
Qed.

Section Participants.
Context (values : list CaseParticipant) (input : ParticipantInput) (actor : string) (now : Time).

Lemma appendParticipant_prefix :
  List.map cp_UserID values `prefix_of` List.map cp_UserID (appendParticipant values input actor now).
Proof.
  unfold appendParticipant. case_bool_decide; [done|]. destruct (set_participant_role _ _ _) eqn:E.
  - apply set_participant_role_ids in E as [-> _]. done.
  - rewrite map_app. by apply prefix_app_r.
Qed.

Lemma appendParticipant_NoDup : NoDup (List.map cp_UserID values) ->
  NoDup (List.map cp_UserID (appendParticipant values input actor now)).
Proof.
  intros N. unfold appendParticipant. case_bool_decide; [done|]. destruct (set_participant_role _ _ _) eqn:E.
  - by apply set_participant_role_ids in E as [-> _].
  - apply set_participant_role_None in E. rewrite map_app. apply NoDup_app. split_and!; [done| |apply NoDup_singleton].
    intros x Hx ->%list_elem_of_singleton. done.
Qed.

Lemma appendParticipant_elem : TrimSpace (pin_UserID input) <> "" ->
  TrimSpace (pin_UserID input) ∈ List.map cp_UserID (appendParticipant values input actor now).
Proof.
  intros N. unfold appendParticipant. rewrite bool_decide_false by done. destruct (set_participant_role _ _ _) eqn:E.
  - apply set_participant_role_ids in E as [-> E]. done.
  - rewrite map_app. apply elem_of_app. right. left.
Qed.

End Participants.

(** ** Observables and incidents *)

Lemma observableExists_spec l kind value :
  observableExists l kind value = true <-> (kind, ToLower value) ∈ List.map observable_key l.
Proof.
  unfold observableExists, observable_key, EqualFold. rewrite existsb_exists, list_elem_of_In, in_map_iff. split.
  - intros (o & Ho & [E1%bool_decide_eq_true_1 E2%bool_decide_eq_true_1]%andb_true_iff). exists o. by rewrite E1, E2.
  - intros (o & [= E1 E2] & Ho). exists o. split; [done|]. by rewrite !bool_decide_true.
Qed.

Lemma observables_snoc l o : observableExists l (cob_Type o) (cob_Value o) = false ->
  NoDup (List.map observable_key l) -> NoDup (List.map observable_key (l ++ [o])).
Proof.
  intros E N. rewrite map_app. apply NoDup_app. split_and!; [done| |apply NoDup_singleton].
  intros x Hx ->%list_elem_of_singleton. apply not_true_iff_false in E. by apply E, observableExists_spec.
Qed.


Lemma case_incidents_NoDup l : NoDup (uniqueSorted l).
Proof. unfold uniqueSorted, sort_Strings. rewrite (merge_sort_Permutation _ _). apply appendUnique_NoDup. constructor. Qed.

Lemma validTaskTransition_status s s' : validTaskTransition s s' = true -> s' ∈ task_statuses /\ s <> CaseTaskDone.
Proof.
  unfold validTaskTransition, task_statuses. case_bool_decide as E; [|case_bool_decide as E2; [|done]].
  all: intros M%bool_decide_eq_true_1; subst; split; [|done]. all: set_solver.
Qed.

Lemma AllowedTransitions_closed : AllowedTransitions CaseStatusClosed = [].
Proof. done. Qed.

Lemma AllowedTransitions_target s s' : s' ∈ AllowedTransitions s -> s <> CaseStatusClosed.
Proof. intros E ->. by apply not_elem_of_nil in E. Qed.

(** ** The functions handed to [MutateCase] *)

(** A function that leaves the database alone and changes a well-formed case
    as specified. *)
Definition changes (f : Case -> CaseM Case) : Prop :=
  forall c w c' w', f c w = (Ok c', w') -> w_repo w' = w_repo w /\ (case_ok c -> case_ok c' /\ advances c c').

(** One of the statements of such a function that leaves the status and the
    tasks alone. *)
Definition adjusts (f : Case -> CaseM Case) : Prop :=
  forall c w c' w', f c w = (Ok c', w') -> w_repo w' = w_repo w /\
    (case_ok c -> case_ok c' /\ advances c c' /\ cs_Status c' = cs_Status c /\ cs_Tasks c' = cs_Tasks c).

Lemma advances_after c c1 c2 : advances c c1 -> cs_Status c1 = cs_Status c -> cs_Tasks c1 = cs_Tasks c ->
  advances c1 c2 -> advances c c2.
Proof.
  intros [I1 S1 R1 H1 C1 N1 O1 P1 T1] Es Et [I2 S2 R2 H2 C2 N2 O2 P2 T2]. constructor.
  - naive_solver congruence.
  - by rewrite Es in S2.
  - by rewrite Es in R2.
  - by etrans.
  - by etrans.
  - by etrans.
  - by etrans.
  - by etrans.
  - by rewrite Et in T2.
Qed.

Lemma adjusts_then f g c w c' w' : adjusts f -> changes g -> bind (f c) g w = (Ok c', w') ->
  w_repo w' = w_repo w /\ (case_ok c -> case_ok c' /\ advances c c').
Proof.
  intros F G (c1 & w1 & E1 & E2)%bind_Ok. destruct (F _ _ _ _ E1) as [W1 K1], (G _ _ _ _ E2) as [W2 K2].
  split; [congruence|]. intros K. destruct (K1 K) as (K' & A & S & T). destruct (K2 K') as [K'' A'].
  split; [done|]. by eapply advances_after.
Qed.

Lemma record_history_Ok action message actor metadata now c w c' w' :
  record_history action message actor metadata now c w = (Ok c', w') ->
  w_repo w' = w_repo w /\ exists h, c' = c {{ cs_History ::= fun l => l ++ [h] }} /\ ch_Action h = action /\ ch_Message h = message.
Proof.
  unfold record_history, newHistory. intros E. run_inv E. apply ret_Ok in E as [-> ->]. apply ret_Ok in Hr as [-> ->].
  apply Random_Ok in Hr0. split; [done|]. by eexists.
Qed.

Lemma fail_Ok {St A} e (s : St) (a : A) s' : fail e s = (Ok a, s') -> False.
Proof. done. Qed.

Ltac case_step E :=
  match type of E with
  | (if ?b then _ else _) _ = _ => let K := fresh "K" in destruct b eqn:K
  | fail _ _ = _ => by apply fail_Ok in E
  | ret _ _ = _ => apply ret_Ok in E as [-> ->]
  end.

Ltac lengths := rewrite ?orb_false_iff, ?Z.ltb_ge, ?bool_decide_eq_false in *.

Lemma update_title_adjusts patch : adjusts (update_title patch).
Proof.
  intros c w c' w'. unfold update_title. intros E. repeat case_step E; (split; [done|]); intros [].
  - split_and!; [by constructor|by apply advances_same|done..].
  - lengths. split_and!; [by constructor|by apply advances_same|done..].
Qed.

Lemma update_description_adjusts patch : adjusts (update_description patch).
Proof.
  intros c w c' w'. unfold update_description. destruct (cpa_Description patch); intros E; repeat case_step E; (split; [done|]); intros [].
  - lengths. split_and!; [by constructor|by apply advances_same|done..].
  - split_and!; [by constructor|by apply advances_same|done..].
Qed.

Lemma update_severity_adjusts patch : adjusts (update_severity patch).
Proof.
  intros c w c' w'. unfold update_severity. intros E. repeat case_step E; (split; [done|]); intros [].
  - split_and!; [by constructor|by apply advances_same|done..].
  - rewrite negb_false_iff in *. split_and!; [by constructor|by apply advances_same|done..].
Qed.

Lemma update_owner_adjusts actor patch now : adjusts (update_owner actor patch now).
Proof.
  intros c w c' w'. unfold update_owner. intros E. case_step E; [case_step E|].
  - split; [done|]. intros []. split_and!; [by constructor|by apply advances_same|done..].
  - apply record_history_Ok in E as (Ew & h & -> & _ & _). split; [done|]. intros []. lengths. destruct K as [K1 K2].
    split_and!; [|apply advances_quiet; cbn; try done|done..].
    + constructor; cbn; try done; [|by apply appendParticipant_NoDup].
      match goal with |- _ ∈ List.map _ (appendParticipant ?ps ?i _ _) => assert (J := appendParticipant_elem ps i actor now) end.
      cbn in J. rewrite TrimSpace_idemp in J. by apply J.
    + by apply prefix_app_r.
    + apply appendParticipant_prefix.
    + apply same_tasks.
Qed.

(** [AllowedTransitions] is written after the status. *)
Definition with_transitions (actor : string) (item : Case) : Case :=
  item {{ cs_AllowedTransitions := AllowedTransitions (cs_Status item); cs_UpdatedBy := actor }}.

Lemma close_case_Ok patch now c w c' w' : close_case patch now c w = (Ok c', w') ->
  w' = w /\ TrimSpace (cpa_ClosureSummary patch) <> "" /\
  c' = c {{ cs_ClosureSummary := TrimSpace (cpa_ClosureSummary patch); cs_ClosedAt := Some now;
            cs_SLA ::= fun sla => sla {{ csla_Breached := After now (csla_DueAt sla) }} }}.
Proof. unfold close_case. intros E. case_step E; [done|]. case_step E. by lengths. Qed.

Lemma closed_target c next : next ∈ AllowedTransitions (cs_Status c) -> case_ok c -> cs_ClosedAt c = None.
Proof.
  intros T%AllowedTransitions_target K. destruct (cs_ClosedAt c) eqn:E; [|done]. exfalso. by apply T, (co_closed _ K).
Qed.

(** A case that moves on to an open status. *)
Lemma status_moves actor c next h : next ∈ AllowedTransitions (cs_Status c) -> next <> CaseStatusClosed ->
  ch_Action h = "case.status_changed" -> ch_Message h = cs_Status c +:+ " -> " +:+ next ->
  case_ok c -> let c' := with_transitions actor (c {{ cs_Status := next; cs_History ::= fun l => l ++ [h] }}) in
  case_ok c' /\ advances c c'.
Proof.
  intros T N Ha Hm K. assert (E := closed_target c next T K). destruct K. cbn. split; constructor; cbn; try done.
  - rewrite E. split; [done|by intros [? [=]]].
  - by right.
  - intros _. exists h. by rewrite last_snoc.
  - by apply prefix_app_r.
  - apply same_tasks.
Qed.

(** A case that is closed, or closed again. *)
Lemma status_closes actor now summary c new : summary <> "" ->
  (cs_Status c = CaseStatusClosed /\ new = [] \/
   CaseStatusClosed ∈ AllowedTransitions (cs_Status c) /\ exists h, new = [h] /\
     ch_Action h = "case.status_changed" /\ ch_Message h = cs_Status c +:+ " -> " +:+ CaseStatusClosed) ->
  case_ok c -> let c' := with_transitions actor (c {{ cs_ClosureSummary := summary; cs_ClosedAt := Some now;
    cs_SLA ::= fun sla => sla {{ csla_Breached := After now (csla_DueAt sla) }};
    cs_Status := CaseStatusClosed; cs_History ::= fun l => l ++ new }}) in
  case_ok c' /\ advances c c'.
Proof.
  intros N Hnew K. destruct K. cbn. split; constructor; cbn; try done.
  - destruct Hnew as [[-> _]|[T _]]; [by left|by right].
  - intros S. destruct Hnew as [[E _]|(T & h & -> & Ha & Hm)]; [congruence|]. exists h. by rewrite last_snoc.
  - by apply prefix_app_r.
  - apply same_tasks.
Qed.

Lemma status_stays actor c : case_ok c -> case_ok (with_transitions actor c) /\ advances c (with_transitions actor c).
Proof. intros []. split; [by constructor|by apply advances_same]. Qed.

Lemma update_status_changes actor patch now :
  changes (fun c => let! item := update_status actor patch now c in ret (with_transitions actor item)).
Proof.
  intros c w c' w' (item & w1 & E & E2)%bind_Ok. apply ret_Ok in E2 as [-> ->]. unfold update_status in E.
  case_step E; [case_step E; split; [done|apply status_stays]|]. set (next := ToUpper (TrimSpace (cpa_Status patch))) in *.
  case_step E; [done|]. assert (T : next = cs_Status c \/ next ∈ AllowedTransitions (cs_Status c)).
  { apply andb_false_iff in K0 as [K0|K0]; rewrite negb_false_iff, bool_decide_eq_true in K0; auto. }
  clear K K0. case_bool_decide as C.
  - apply bind_Ok in E as (c1 & w2 & E1 & E). apply close_case_Ok in E1 as (-> & N & ->). cbn in E. rewrite C in *.
    case_bool_decide as S.
    + apply ret_Ok in E as [-> ->]. split; [done|]. intros K.
      destruct (status_closes actor now _ c [] N) as [K' A]; [by left|done|]. rewrite S in *. cbn in *.
      rewrite app_nil_r in *. by rewrite <- S in *.
    + apply record_history_Ok in E as (Ew & h & -> & Ha & Hm). split; [done|]. intros K.
      apply (status_closes actor now _ c [h] N); [|done]. right. destruct T as [|T]; [done|]. split; [done|]. by exists h.
  - apply bind_Ok in E as (c1 & w2 & E1 & E). apply ret_Ok in E1 as [-> ->]. case_bool_decide as S.
    + apply ret_Ok in E as [-> ->]. split; [done|apply status_stays].
    + apply record_history_Ok in E as (Ew & h & -> & Ha & Hm). split; [done|]. intros K. destruct T as [|T]; [done|].
      by apply (status_moves actor c next h).
Qed.

Lemma apply_patch_changes actor patch now : changes (apply_patch actor patch now).
Proof.
  assert (J : forall f g, adjusts f -> changes g -> changes (fun c => bind (f c) g)).
  { intros f g F G c w c' w'. by apply adjusts_then. }
  unfold apply_patch. apply (J _ _ (update_title_adjusts patch)). apply (J _ _ (update_description_adjusts patch)).
  apply (J _ _ (update_severity_adjusts patch)). apply (J _ _ (update_owner_adjusts actor patch now)).
  apply update_status_changes.
Qed.

(** The end of most changes: a history entry and the author. *)
Lemma recorded_Ok action message actor metadata now c w c' w' :
  (let! item := record_history action message actor metadata now c in ret (item {{ cs_UpdatedBy := actor }})) w = (Ok c', w') ->
  w_repo w' = w_repo w /\ exists h, c' = c {{ cs_History ::= fun l => l ++ [h]; cs_UpdatedBy := actor }}.
Proof.
  intros (item & w1 & E & E2)%bind_Ok. apply ret_Ok in E2 as [-> ->].
  apply record_history_Ok in E as (Ew & h & -> & _). split; [done|]. by exists h.
Qed.

Ltac quiet_change := apply advances_quiet; cbn; try done; try (by apply prefix_app_r); try apply same_tasks.

Lemma add_comment_changes actor body now : changes (add_comment actor body now).
Proof.
  intros c w c' w' (random & w1 & Er%Random_Ok & (Ew & h & ->)%recorded_Ok)%bind_Ok. split; [congruence|].
  intros []. split; [by constructor|quiet_change].
Qed.

Lemma add_task_changes actor input now : tin_Title input <> "" -> changes (add_task actor input now).
Proof.
  intros N c w c' w' (random & w1 & Er%Random_Ok & (Ew & h & ->)%recorded_Ok)%bind_Ok. split; [congruence|].
  intros []. split; [constructor; try done|quiet_change].
  - apply Forall_app. split; [done|]. apply Forall_singleton. constructor; cbn; [done|by_decide|].
    split; [done|by intros [? [=]]].
  - exists (cs_Tasks c). split; [by apply prefix_app_r|apply Forall2_refl, _].
Qed.

Lemma add_participant_changes actor input now : changes (add_participant actor input now).
Proof.
  intros c w c' w' (Ew & h & ->)%recorded_Ok. split; [done|]. intros [].
  split; [constructor; cbn; try done|quiet_change].
  - eapply elem_of_prefix; [done|apply appendParticipant_prefix].
  - by apply appendParticipant_NoDup.
  - apply appendParticipant_prefix.
Qed.

Lemma add_observable_changes actor value now : changes (add_observable actor value now).
Proof.
  intros c w c' w' (Ew & h & ->)%recorded_Ok. split; [done|]. intros [].
  destruct (observableExists _ _ _) eqn:X; (split; [constructor; cbn; try done|quiet_change]). by apply observables_snoc.
Qed.

Lemma link_incident_changes actor incidentID now : changes (link_incident actor incidentID now).
Proof.
  intros c w c' w' (Ew & h & ->)%recorded_Ok. split; [done|]. intros [].
  split; [constructor; cbn; try done|quiet_change].
  - by apply appendUnique_NoDup.
  - apply appendUnique_prefix.
Qed.

(** ** Tasks *)

Lemma task_status_Ok actor patch now t t' : task_status actor patch now t = Ok t' -> task_ok t -> task_ok t' /\ task_advances t t'.
Proof.
  unfold task_status. case_bool_decide as E; [by intros [= <-]|]. set (next := ToUpper (TrimSpace (tpa_Status patch))).
  destruct (_ && _) eqn:C; [done|]. intros [= <-] K.
  assert (T : next = ct_Status t \/ validTaskTransition (ct_Status t) next = true).
  { apply andb_false_iff in C as [C|C]; rewrite negb_false_iff in C; [left; by apply bool_decide_eq_true in C|by right]. }
  assert (S : next ∈ task_statuses) by (destruct T as [->|T]; [apply K|by apply validTaskTransition_status in T as [? _]]).
  assert (A : forall t', ct_ID t' = ct_ID t -> ct_Title t' = ct_Title t -> ct_CreatedBy t' = ct_CreatedBy t ->
    ct_CreatedAt t' = ct_CreatedAt t -> ct_Status t' = next -> task_advances t t').
  { intros t' E1 E2 E3 E4 E5. constructor; [done|]. rewrite E5. destruct T as [->|T]; [by left|by right]. }
  destruct (next == CaseTaskDone) eqn:D; [apply bool_decide_eq_true_1 in D|apply bool_decide_eq_false_1 in D];
    (split; [constructor; cbn; [apply K|done|]|by apply A]).
  - by rewrite D.
  - split; [done|]. intros C2%(to_done _ K). destruct T as [T|T%validTaskTransition_status]; [congruence|naive_solver].
Qed.

Lemma patch_task_Ok actor patch now t t' : patch_task actor patch now t = Ok t' -> task_ok t -> task_ok t' /\ task_advances t t'.
Proof.
  unfold patch_task. destruct (task_status actor patch now t) as [t1| |] eqn:E; [cbn|done..]. intros [= <-] K.
  destruct (task_status_Ok _ _ _ _ _ E K) as [[] []].
  case_bool_decide; destruct (tpa_Description patch), (tpa_DueAt patch); (split; constructor; done).
Qed.

Lemma patch_tasks_Ok taskID actor patch now tasks t tasks' :
  patch_tasks taskID actor patch now tasks = Ok (Some (t, tasks')) -> Forall task_ok tasks ->
  Forall task_ok tasks' /\ Forall2 task_advances tasks tasks'.
Proof.
  revert tasks'. induction tasks as [|x rest IH]; intros tasks'; [done|]. cbn. case_bool_decide.
  - destruct (patch_task actor patch now x) as [x'| |] eqn:E; [cbn|done..]. intros [= <- <-] [K Kr]%Forall_cons.
    destruct (patch_task_Ok _ _ _ _ _ E K) as [K' A]. split; [by constructor|]. constructor; [done|apply Forall2_refl, _].
  - destruct (patch_tasks taskID actor patch now rest) as [[[x' rest']|]| |]; [cbn|done..]. intros [= <- <-] [K Kr]%Forall_cons.
    destruct (IH rest') as [K' A]; [done..|]. split; [by constructor|]. by constructor.
Qed.

Lemma update_task_changes taskID actor patch now : changes (update_task taskID actor patch now).
Proof.
  intros c w c' w' (found & w1 & E1 & E)%bind_Ok. injection E1 as E1 <-. destruct found as [[t tasks]|]; [|done].
  apply recorded_Ok in E as (Ew & h & ->). split; [done|]. intros [].
  destruct (patch_tasks_Ok _ _ _ _ _ _ _ E1) as [K' A]; [done|].
  split; [by constructor|quiet_change]. by exists tasks.
Qed.
