(* ===== verification/CaseTables.v ===== *)
(** * The case tables: invariant and transactions

    The abstract specification of the table of cases is a step relation: a new
    case joins, or one case advances by one version.  The transactions of the
    repository keep the invariant and refine that relation. *)

From S2P Require Import Prelude GoLang GoFormat Core MemoryStore MemoryFacts.
From S2P Require Import Sql AuditTable CaseModel CaseDb EvidenceDb CaseService CaseRules.

(** ** Specification *)

Definition case_key (c : Case) : string * string := (cs_TenantID c, cs_ID c).
Definition case_request (c : Case) : string * string := (cs_TenantID c, cs_RequestID c).
Definition link_key (l : CaseLink) : string * string * string := (cl_TenantID l, cl_CaseID l, cl_IncidentID l).
Definition incident_key (i : Incident) : string * string := (in_TenantID i, in_ID i).

Inductive cases_step : list Case -> list Case -> Prop :=
  | step_create rows c :
      cs_Status c = CaseStatusOpen -> cs_Version c = 1 -> cs_Comments c = [] -> cs_Tasks c = [] ->
      case_key c ∉ List.map case_key rows -> case_request c ∉ List.map case_request rows -> cases_step rows (rows ++ [c])
  | step_change before c c' after :
      advances c c' -> cs_Version c' = cs_Version c + 1 -> cs_RequestID c' = cs_RequestID c ->
      cases_step (before ++ c :: after) (before ++ c' :: after).

Ltac serve := evolve; try apply _; eauto with evolves.

Section Tables.
Context `{JsonColumn}.

Record cases_wf (db : CaseDb) : Prop := {
  cw_case c : c ∈ cdb_cases db -> case_ok c /\ case_checks c = true;
  cw_stored c : c ∈ cdb_cases db -> stored_case c = c;
  cw_key : NoDup (List.map case_key (cdb_cases db));
  cw_request : NoDup (List.map case_request (cdb_cases db));
  cw_linked c i : c ∈ cdb_cases db ->
    (i ∈ cs_IncidentIDs c <-> (cs_TenantID c, cs_ID c, i) ∈ List.map link_key (cdb_links db));
  cw_link l : l ∈ cdb_links db -> exists c i, c ∈ cdb_cases db /\ i ∈ cdb_incidents db /\
    case_key c = (cl_TenantID l, cl_CaseID l) /\ incident_key i = (cl_TenantID l, cl_IncidentID l)
}.

(** What every call does to the database. *)
Definition serves (w w' : World CaseDb) : Prop :=
  cases_wf (w_repo w) -> cases_wf (w_repo w') /\ rtc cases_step (cdb_cases (w_repo w)) (cdb_cases (w_repo w')).

#[export] Instance serves_preorder : PreOrder serves.
Proof.
  split.
  - intros w W. split; [done|apply rtc_refl].
  - intros w1 w2 w3 S1 S2 W. destruct (S1 W) as [W2 R1], (S2 W2) as [W3 R2]. split; [done|by etrans].
Qed.

(** A change of the other tables. *)
Lemma serves_rest w w' : cdb_cases (w_repo w') = cdb_cases (w_repo w) -> cdb_links (w_repo w') = cdb_links (w_repo w) ->
  cdb_incidents (w_repo w') = cdb_incidents (w_repo w) -> serves w w'.
Proof.
  intros E1 E2 E3 W. split; [|rewrite E1; apply rtc_refl]. destruct W. by constructor; rewrite ?E1, ?E2, ?E3.
Qed.

Lemma serves_same w w' : w_repo w' = w_repo w -> serves w w'.
Proof. intros E. by apply serves_rest; rewrite E. Qed.

(** ** Rows *)

Lemma is_case_spec t i c : is_case t i c = true <-> case_key c = (t, i).
Proof. unfold is_case, case_key. rewrite andb_true_iff, !bool_decide_eq_true. naive_solver. Qed.

Lemma is_case_request_spec t r c : is_case_request t r c = true <-> case_request c = (t, r).
Proof. unfold is_case_request, case_request. rewrite andb_true_iff, !bool_decide_eq_true. naive_solver. Qed.

Lemma is_link_of_spec t c l : is_link_of t c l = true <-> (cl_TenantID l, cl_CaseID l) = (t, c).
Proof. unfold is_link_of. rewrite andb_true_iff, !bool_decide_eq_true. naive_solver. Qed.

(** The row with a key, and what setting it does to the table. *)
Lemma set_row {A K} (key : A -> K) (P : A -> bool) k (f : A -> A) rows row :
  (forall x, P x = true <-> key x = k) -> NoDup (List.map key rows) -> first_row P rows = Some row ->
  exists before after, rows = before ++ row :: after /\ set_where P f rows = before ++ f row :: after /\
    List.map f (where_rows P rows) = [f row] /\ key row = k.
Proof.
  intros HP. unfold first_row, where_rows, set_where.
  assert (None_in : forall l, k ∉ List.map key l -> List.map (fun x => if P x then f x else x) l = l /\ List.filter P l = []).
  { induction l as [|x l IH]; [done|]. cbn. intros [N1 N2]%not_elem_of_cons. destruct (P x) eqn:E.
    - apply HP in E. by destruct N1.
    - destruct (IH N2) as [-> ->]. done. }
  induction rows as [|x l IH]; [done|]. cbn. intros [N ND]%NoDup_cons. destruct (P x) eqn:E.
  - intros [= ->]. assert (k ∉ List.map key l) as [E1 E2]%None_in by (by apply HP in E as <-).
    exists [], l. cbn. rewrite E1, E2. split_and!; [done..|by apply HP].
  - intros F. destruct (IH ND F) as (b & a & -> & E2 & E3 & E4). exists (x :: b), a. cbn. by rewrite E2.
Qed.

Lemma map_around {A B} (g : A -> B) before after x y : g y = g x ->
  List.map g (before ++ y :: after) = List.map g (before ++ x :: after).
Proof. intros E. rewrite !map_app. cbn. by rewrite E. Qed.

(** ** The links of a case *)

Definition link_rows (item : Case) (ids : list string) : list CaseLink :=
  List.map (fun i => {| cl_TenantID := cs_TenantID item; cl_CaseID := cs_ID item; cl_IncidentID := i;
                        cl_LinkedAt := cs_UpdatedAt item |}) ids.

Lemma insert_links_Ok (item : Case) (ids : list string) w w' :
  forM_ ids (fun incidentID => wrapping ("link case incident " +:+ incidentID)
      (do! insert_link (is_link (cs_TenantID item) (cs_ID item) incidentID)
         {| cl_TenantID := cs_TenantID item; cl_CaseID := cs_ID item; cl_IncidentID := incidentID;
            cl_LinkedAt := cs_UpdatedAt item |} in
       let! valid := select (link_references (cs_TenantID item) (cs_ID item) incidentID) in
       guard valid ErrForeignKeyViolation)) w = (Ok tt, w') ->
  w_repo w' = (w_repo w) {{ cdb_links ::= fun l => l ++ link_rows item ids }} /\
  forall i, i ∈ ids -> link_references (cs_TenantID item) (cs_ID item) i (w_repo w) = true.
Proof.
  revert w. induction ids as [|x ids IH]; intros w.
  - intros [_ ->]%ret_Ok. cbn. rewrite app_nil_r. split; [by destruct (w_repo w)|]. intros i Hi. by apply not_elem_of_nil in Hi.
  - intros ([] & w1 & E & E2)%bind_Ok. apply IH in E2 as [-> V]. apply wrapping_Ok in E.
    apply bind_Ok in E as ([] & w2 & [_ E1]%insert_row_Ok & E). apply bind_Ok in E as (valid & w3 & [-> ->]%select_Ok & E).
    unfold guard in E. destruct (link_references _ _ _ (w_repo w2)) eqn:L; [|done]. apply ret_Ok in E as [_ ->].
    rewrite E1 in *. split.
    + cbn. by rewrite <- app_assoc.
    + intros i [->|Hi]%elem_of_cons; [exact L|by apply V].
Qed.

Lemma syncCaseIncidents_Ok item w w' : syncCaseIncidents item w = (Ok tt, w') ->
  w_repo w' = (w_repo w) {{ cdb_links ::= fun l =>
    where_rows (fun l => negb (is_link_of (cs_TenantID item) (cs_ID item) l)) l ++ link_rows item (cs_IncidentIDs item) }} /\
  forall i, i ∈ cs_IncidentIDs item -> link_references (cs_TenantID item) (cs_ID item) i (w_repo w) = true.
Proof.
  intros (u & w1 & ->%execute_Ok & E)%bind_Ok. apply insert_links_Ok in E as [E V]. split; [exact E|exact V].
Qed.

Lemma link_rows_keys item ids k : k ∈ List.map link_key (link_rows item ids) <->
  exists i, i ∈ ids /\ k = (cs_TenantID item, cs_ID item, i).
Proof.
  unfold link_rows. rewrite map_map, list_elem_of_In, in_map_iff. unfold link_key. cbn.
  setoid_rewrite <- list_elem_of_In. naive_solver.
Qed.

Lemma link_references_spec t c i db : link_references t c i db = true ->
  exists x y, x ∈ cdb_cases db /\ y ∈ cdb_incidents db /\ case_key x = (t, c) /\ incident_key y = (t, i).
Proof.
  unfold link_references. intros [(x & Hx & Kx)%existsb_exists (y & Hy & Ky)%existsb_exists]%andb_true_iff.
  exists x, y. rewrite !list_elem_of_In. split_and!; [done..|by apply is_case_spec|].
  unfold is_incident in Ky. apply andb_true_iff in Ky as [<-%bool_decide_eq_true_1 <-%bool_decide_eq_true_1]. done.
Qed.

(** Rows and the links of all cases but one are well-formed; synchronising that
    one completes the invariant. *)
Lemma synced_links_wf item (db : CaseDb) :
  (forall c, c ∈ cdb_cases db -> case_ok c /\ case_checks c = true) ->
  (forall c, c ∈ cdb_cases db -> stored_case c = c) ->
  NoDup (List.map case_key (cdb_cases db)) -> NoDup (List.map case_request (cdb_cases db)) -> item ∈ cdb_cases db ->
  (forall c i, c ∈ cdb_cases db -> case_key c <> case_key item ->
     (i ∈ cs_IncidentIDs c <-> (cs_TenantID c, cs_ID c, i) ∈ List.map link_key (cdb_links db))) ->
  (forall l, l ∈ cdb_links db -> (cl_TenantID l, cl_CaseID l) <> case_key item -> exists c i, c ∈ cdb_cases db /\
     i ∈ cdb_incidents db /\ case_key c = (cl_TenantID l, cl_CaseID l) /\ incident_key i = (cl_TenantID l, cl_IncidentID l)) ->
  (forall i, i ∈ cs_IncidentIDs item -> link_references (cs_TenantID item) (cs_ID item) i db = true) ->
  cases_wf (db {{ cdb_links ::= fun l =>
    where_rows (fun l => negb (is_link_of (cs_TenantID item) (cs_ID item) l)) l ++ link_rows item (cs_IncidentIDs item) }}).
Proof.
  intros Hok Hst Hk Hr Hi Hl1 Hl2 Hv.
  assert (F : forall l, l ∈ where_rows (fun l => negb (is_link_of (cs_TenantID item) (cs_ID item) l)) (cdb_links db) <->
    l ∈ cdb_links db /\ (cl_TenantID l, cl_CaseID l) <> case_key item).
  { intros l. rewrite elem_of_where, negb_true_iff, <- not_true_iff_false, is_link_of_spec. unfold case_key. tauto. }
  constructor; cbn; try done.
  - intros c i Hc. rewrite map_app, elem_of_app, link_rows_keys. destruct (decide (case_key c = case_key item)) as [E|N].
    + assert (c = item) as -> by (by apply (NoDup_unique case_key (cdb_cases db))).
      split; [intros Hin; right; by exists i|]. intros [Hin|(i' & Hin & [= ->])]; [|done]. exfalso.
      apply list_elem_of_In, in_map_iff in Hin as (l & [= E1 E2 E3] & Hl%list_elem_of_In%F). apply Hl. unfold case_key. congruence.
    + rewrite (Hl1 c i Hc N). rewrite !list_elem_of_In, !in_map_iff. split.
      * intros (l & El & Hl). left. exists l. split; [done|]. apply list_elem_of_In, F. rewrite list_elem_of_In.
        split; [done|]. unfold link_key in El. injection El as -> -> _. exact N.
      * intros [(l & El & [Hl _]%list_elem_of_In%F)|(i' & _ & [= E1 E2 E3])]; [|by destruct N; unfold case_key; congruence].
        exists l. split; [done|]. by apply list_elem_of_In.
  - intros l [[Hl N]%F|Hl]%elem_of_app; [by apply Hl2|].
    apply list_elem_of_In, in_map_iff in Hl as (i & <- & Hin%list_elem_of_In). cbn. by apply link_references_spec, Hv.
Qed.

(** ** The transactions *)

Lemma serves_transaction {A} (m : CaseM A) : (forall w a w', m w = (Ok a, w') -> serves w w') -> evolves serves (transaction m).
Proof.
  intros Hm w. unfold transaction. destruct (m w) as [[a|e|] w'] eqn:E; cbn; [by eapply Hm|by apply serves_same..].
Qed.

Lemma guard_Ok {St} (b : bool) e u (s s' : St) : guard b e s = (Ok u, s') <-> b = true /\ s' = s.
Proof. unfold guard, ret, fail. destruct b, u; naive_solver. Qed.

Lemma update_returning_Ok {R A} table put (P : A -> bool) f rows (w w' : World R) :
  update_returning table put P f w = (Ok rows, w') <->
  rows = List.map f (where_rows P (table (w_repo w))) /\ w' = mkWorld (put (set_where P f (table (w_repo w))) (w_repo w)) (w_rt w).
Proof.
  unfold update_returning. split.
  - intros (l & w1 & [-> ->]%select_Ok & (u & w2 & ->%execute_Ok & [-> ->]%ret_Ok)%bind_Ok)%bind_Ok. done.
  - intros [-> ->]. apply bind_Ok. eexists _, w. split; [by apply select_Ok|]. apply bind_Ok.
    eexists tt, _. split; [by apply execute_Ok|]. by apply ret_Ok.
Qed.

(** The case a change of [current] leaves in its row. *)
Definition changed_row (current item : Case) (now : Time) : Case :=
  (stored_case (item {{ cs_Version := cs_Version current + 1; cs_UpdatedAt := now }})) {{ cs_RequestID := cs_RequestID current }}.

(** A successful [MutateCase]. *)
Lemma MutateCase_Ok t i v f w row w' : changes f -> NoDup (List.map case_key (cdb_cases (w_repo w))) ->
  MutateCase t i v f w = (Ok row, w') ->
  exists current item now before after w1 w2, let db1 := (w_repo w) {{ cdb_cases := before ++ row :: after }} in
    (0 < v -> v = cs_Version current) /\ f (current {{ cs_RequestID := "" }}) w1 = (Ok item, w2) /\
    case_key current = (t, i) /\ case_key row = (t, i) /\ row = changed_row current item now /\ case_checks row = true /\
    cdb_cases (w_repo w) = before ++ current :: after /\
    w_repo w' = db1 {{ cdb_links ::= fun l =>
      where_rows (fun l => negb (is_link_of (cs_TenantID row) (cs_ID row) l)) l ++ link_rows row (cs_IncidentIDs row) }} /\
    forall x, x ∈ cs_IncidentIDs row -> link_references (cs_TenantID row) (cs_ID row) x db1 = true.
Proof.
  intros F ND. unfold MutateCase, transaction. destruct (bind _ _ w) as [[r|e|] w2] eqn:E; [|done..]. intros [= <- <-].
  apply bind_Ok in E as (cur & w1 & [-> ->]%select_Ok & E). destruct (first_row _ _) as [current|] eqn:Fr; [|done].
  apply bind_Ok in E as (u & w3 & [G ->]%guard_Ok & E). apply bind_Ok in E as (item & w4 & Ef & E).
  assert (Ew4 : w_repo w4 = w_repo w) by (by apply F in Ef as [? _]).
  apply bind_Ok in E as (u2 & w5 & [Id ->]%guard_Ok & E). apply bind_Ok in E as (now & w6 & En & E).
  assert (Ew6 : w_repo w6 = w_repo w) by (apply Now_Ok in En; congruence).
  apply bind_Ok in E as (u3 & w7 & [Ck ->]%guard_Ok & E). apply bind_Ok in E as (rows & w8 & Eu & E).
  apply update_returning_Ok in Eu as [-> ->]. rewrite Ew6 in *.
  match type of E with context [set_where ?P ?f _] =>
    destruct (set_row case_key P (t, i) f (cdb_cases (w_repo w)) current) as (b & a & Eb & Es & Er & Kc);
    [by intros; apply is_case_spec|done..|] end.
  rewrite Er, Es in E. apply bind_Ok in E as (u4 & w9 & Esy & [-> ->]%ret_Ok). destruct u4.
  apply syncCaseIncidents_Ok in Esy as [-> V]. apply andb_true_iff in Id as [<-%bool_decide_eq_true_1 <-%bool_decide_eq_true_1].
  exists current, item, now, b, a, w, w4. split_and!; try done.
  intros Hv. rewrite negb_true_iff, andb_false_iff, Z.ltb_ge, negb_false_iff, bool_decide_eq_true in G. lia.
Qed.

Lemma stored_case_idemp c : stored_case (stored_case c) = stored_case c.
Proof.
  unfold stored_case. cbn. f_equal. rewrite map_map. apply map_ext. intros h. cbn. by rewrite stored_metadata_idemp.
Qed.

Lemma stored_history c : stored_case c = c -> List.map (fun h => h {{ ch_Metadata ::= stored_metadata }}) (cs_History c) = cs_History c.
Proof. intros E. apply (f_equal cs_History) in E. exact E. Qed.

Lemma case_ok_changed_row current item now : case_ok item -> case_ok (changed_row current item now).
Proof. intros []. by constructor. Qed.

Lemma advances_changed_row current item now : stored_case current = current ->
  advances (current {{ cs_RequestID := "" }}) item -> advances current (changed_row current item now).
Proof.
  intros St [I S R Hh C N O P T]. cbn in *. constructor; cbn; try done.
  - intros D. destruct (R D) as (h & L & A & M). exists (h {{ ch_Metadata ::= stored_metadata }}). split; [|done].
    change (List.map ?f ?l) with (f <$> l). by rewrite fmap_last, L.
  - rewrite <- (stored_history current St) at 1. destruct Hh as [k ->]. rewrite map_app. by apply prefix_app_r.
Qed.

Lemma changed_row_stored current item now : stored_case (changed_row current item now) = changed_row current item now.
Proof.
  unfold changed_row. rewrite <- (stored_case_idemp (item {{ cs_Version := _; cs_UpdatedAt := _ }})) at 2. reflexivity.
Qed.

(** A change of the case [current] into [row], and the links of [row]. *)
Lemma changed_case_wf (db : CaseDb) current row before after : cases_wf db ->
  cdb_cases db = before ++ current :: after -> case_ok row -> case_checks row = true -> stored_case row = row ->
  case_key row = case_key current -> case_request row = case_request current ->
  (forall x, x ∈ cs_IncidentIDs row ->
     link_references (cs_TenantID row) (cs_ID row) x (db {{ cdb_cases := before ++ row :: after }}) = true) ->
  cases_wf (db {{ cdb_cases := before ++ row :: after; cdb_links ::= fun l =>
    where_rows (fun l => negb (is_link_of (cs_TenantID row) (cs_ID row) l)) l ++ link_rows row (cs_IncidentIDs row) }}).
Proof.
  intros [Wc Ws Wk Wr Wl Wi] E Ok Ck St Kk Kr V.
  assert (Sub : forall c, c ∈ before ++ row :: after -> c = row \/ c ∈ cdb_cases db).
  { intros c. rewrite E, !elem_of_app, !elem_of_cons. tauto. }
  apply (synced_links_wf row (db {{ cdb_cases := before ++ row :: after }})); cbn; try done.
  - intros c [->|Hc]%Sub; [done|by apply Wc].
  - intros c [->|Hc]%Sub; [done|by apply Ws].
  - rewrite (map_around _ _ _ current row), <- E; done.
  - rewrite (map_around _ _ _ current row), <- E; done.
  - set_solver.
  - intros c i [->|Hc]%Sub N; [done|by apply Wl].
  - intros l Hl N. destruct (Wi l Hl) as (c & i & Hc & Hi & K1 & K2). exists c, i. split_and!; [|done..].
    rewrite E in Hc. rewrite elem_of_app, elem_of_cons in *. destruct Hc as [?|[->|?]]; [by left| |by right; right].
    destruct N. congruence.
Qed.

Lemma MutateCase_serves t i v f : changes f -> evolves serves (MutateCase t i v f).
Proof.
  intros F w. destruct (MutateCase t i v f w) as [[row|e|] w'] eqn:E.
  2, 3: apply serves_same; unfold MutateCase, transaction in E; destruct (bind _ _ w) as [[?|?|] ?]; by simplify_eq.
  intros W. apply MutateCase_Ok in E as (cur & item & now & b & a & w1 & w2 & _ & Ef & Kc & Kr & -> & Ck & Eb & Ew & V);
    [|done|apply W]. cbn [snd]. rewrite Ew.
  assert (Hc : cur ∈ cdb_cases (w_repo w)) by (rewrite Eb; set_solver). destruct (F _ _ _ _ Ef) as [_ A].
  destruct A as [Ok A]; [destruct (cw_case _ W cur Hc) as [[] _]; by constructor|]. split.
  - apply (changed_case_wf (w_repo w) cur); try done; [by apply case_ok_changed_row|apply changed_row_stored|congruence|].
    unfold case_request, case_key in *. cbn in *. congruence.
  - apply rtc_once. cbn. rewrite Eb. apply step_change; [|done..]. apply advances_changed_row; [by apply (cw_stored _ W)|done].
Qed.

Lemma existsb_false {A} (P : A -> bool) l : existsb P l = false -> forall x, x ∈ l -> P x = false.
Proof.
  intros E x Hx. destruct (P x) eqn:Px; [|done]. assert (existsb P l = true); [|congruence].
  apply existsb_exists. exists x. by rewrite <- list_elem_of_In.
Qed.

Lemma not_elem_of_keys {A K} (key : A -> K) rows k : (forall x, x ∈ rows -> key x <> k) -> k ∉ List.map key rows.
Proof. intros Hn (x & <- & Hx%list_elem_of_In)%list_elem_of_In%in_map_iff. by apply (Hn x). Qed.

Lemma NoDup_keys_snoc {A K} (key : A -> K) rows x : NoDup (List.map key rows) -> key x ∉ List.map key rows ->
  NoDup (List.map key (rows ++ [x])).
Proof.
  intros ND N. rewrite map_app. apply NoDup_app. split_and!; [done| |apply NoDup_singleton].
  by intros k Hk ->%list_elem_of_singleton.
Qed.

(** A new case and its links. *)
Lemma created_case_wf (db : CaseDb) c : cases_wf db -> case_ok c -> case_checks c = true -> stored_case c = c ->
  case_key c ∉ List.map case_key (cdb_cases db) -> case_request c ∉ List.map case_request (cdb_cases db) ->
  (forall x, x ∈ cs_IncidentIDs c ->
     link_references (cs_TenantID c) (cs_ID c) x (db {{ cdb_cases ::= fun l => l ++ [c] }}) = true) ->
  cases_wf (db {{ cdb_cases ::= fun l => l ++ [c]; cdb_links ::= fun l =>
    where_rows (fun l => negb (is_link_of (cs_TenantID c) (cs_ID c) l)) l ++ link_rows c (cs_IncidentIDs c) }}).
Proof.
  intros [Wc Ws Wk Wr Wl Wi] Ok Ck St Nk Nr V.
  assert (Sub : forall x, x ∈ cdb_cases db ++ [c] -> x = c \/ x ∈ cdb_cases db) by set_solver.
  apply (synced_links_wf c (db {{ cdb_cases ::= fun l => l ++ [c] }})); cbn; try done.
  - intros x [->|Hx]%Sub; [done|by apply Wc].
  - intros x [->|Hx]%Sub; [done|by apply Ws].
  - by apply NoDup_keys_snoc.
  - by apply NoDup_keys_snoc.
  - set_solver.
  - intros x i [->|Hx]%Sub N; [done|by apply Wl].
  - intros l Hl N. destruct (Wi l Hl) as (x & i & Hx & Hi & K1 & K2). exists x, i. split_and!; [set_solver|done..].
Qed.

Lemma serves_read {A} (m : CaseM A) : (forall w, w_repo (m w).2 = w_repo w) -> evolves serves m.
Proof. intros Hm w. apply serves_same, Hm. Qed.

Lemma serves_select {A} (f : CaseDb -> A) : evolves serves (select f).
Proof. apply serves_read. by intros [db rt]. Qed.

Lemma serves_Now : evolves serves Now.
Proof. by apply serves_read. Qed.

Lemma serves_Random : evolves serves Random.
Proof. by apply serves_read. Qed.

#[local] Hint Resolve serves_select serves_Now serves_Random : evolves.

Lemma caseByRequestID_serves t r : evolves serves (caseByRequestID t r).
Proof. unfold caseByRequestID. by serve. Qed.

#[local] Hint Resolve caseByRequestID_serves : evolves.

Lemma CreateCase_serves item : case_ok item -> cs_Status item = CaseStatusOpen -> cs_Version item = 1 ->
  cs_Comments item = [] -> cs_Tasks item = [] -> evolves serves (CreateCase item).
Proof.
  intros Ok S V C T. unfold CreateCase. apply evolves_if; [by serve|].
  apply evolves_bind; [apply _| |intros [c|]; by serve].
  apply serves_transaction. intros w r w' E W.
  apply bind_Ok in E as (u & w1 & [Ck ->]%wrapping_Ok%guard_Ok & E). apply bind_Ok in E as (taken & w2 & [-> ->]%select_Ok & E).
  destruct (existsb _ (cdb_cases _)) eqn:Tk; [by apply ret_Ok in E as [-> ->]; split; [|apply rtc_refl]|].
  apply bind_Ok in E as ([] & w3 & [Cl Ei]%wrapping_Ok%insert_row_Ok & E).
  apply bind_Ok in E as ([] & w4 & [Ew Vl]%syncCaseIncidents_Ok & [-> ->]%ret_Ok).
  assert (Nk : case_key (stored_case item) ∉ List.map case_key (cdb_cases (w_repo w))).
  { apply not_elem_of_keys. intros x Hx Ex%is_case_spec. by rewrite Cl in Ex. }
  assert (Nr : case_request (stored_case item) ∉ List.map case_request (cdb_cases (w_repo w))).
  { apply not_elem_of_keys. intros x Hx Ex%is_case_request_spec. by rewrite (existsb_false _ _ Tk) in Ex. }
  rewrite Ei in *. rewrite Ew. split.
  - apply (created_case_wf (w_repo w)); try done; [by destruct Ok; constructor|apply stored_case_idemp].
  - apply rtc_once. by apply step_create.
Qed.

(** ** Statements on the other tables *)

(** A function of the database that leaves the cases, links and incidents alone. *)
Definition aside (f : CaseDb -> CaseDb) : Prop :=
  forall db, cdb_cases (f db) = cdb_cases db /\ cdb_links (f db) = cdb_links db /\ cdb_incidents (f db) = cdb_incidents db.

Lemma serves_execute f : aside f -> evolves serves (execute f).
Proof. intros F w. destruct (F (w_repo w)) as (E1 & E2 & E3). by apply serves_rest. Qed.

Lemma serves_insert {A} (table : CaseDb -> list A) put clash row : (forall rows, aside (put rows)) ->
  evolves serves (insert_row table put clash row).
Proof. intros P. unfold insert_row. serve. by apply serves_execute. Qed.

Lemma serves_update {A} (table : CaseDb -> list A) put P f : (forall rows, aside (put rows)) ->
  evolves serves (update_returning table put P f).
Proof. intros Pu. unfold update_returning. serve. by apply serves_execute. Qed.

Lemma serves_nested {A} (m : CaseM A) : evolves serves m -> evolves serves (transaction m).
Proof. intros Hm. apply serves_transaction. intros w a w' E. specialize (Hm w). by rewrite E in Hm. Qed.

Lemma AppendAudit_serves entry : evolves serves (AppendAudit entry).
Proof.
  unfold AppendAudit, appendAuditTx, insert_audit. apply serves_nested.
  serve; first [apply serves_execute; intros db; cbn; by repeat case_match|by apply serves_insert].
Qed.

Lemma audit_serves t a act c r m : evolves serves (audit t a act c r m).
Proof. unfold audit. serve. apply AppendAudit_serves. Qed.

Lemma GetCase_serves t c : evolves serves (GetCase t c).
Proof. unfold GetCase. by serve. Qed.

Lemma CaseDetails_serves t c : evolves serves (CaseDetails t c).
Proof. unfold CaseDetails, ListEvidence. by serve. Qed.

Lemma GetIncident_serves t i : evolves serves (GetIncident t i).
Proof. unfold GetIncident. by serve. Qed.

Lemma newObservable_serves input actor now : evolves serves (newObservable input actor now).
Proof. unfold newObservable. by serve. Qed.

#[local] Hint Resolve audit_serves CaseDetails_serves GetIncident_serves newObservable_serves MutateCase_serves : evolves.

(** ** The calls of the service *)

Lemma Update_serves t c a patch : evolves serves (Update t c a patch).
Proof. unfold Update. serve. apply MutateCase_serves, apply_patch_changes. Qed.

Lemma AddComment_serves t c a body r v : evolves serves (AddComment t c a body r v).
Proof. unfold AddComment. serve. apply MutateCase_serves, add_comment_changes. Qed.

Lemma AddTask_serves t c a r input : evolves serves (AddTask t c a r input).
Proof.
  unfold AddTask. destruct (_ || _) eqn:E; [by serve|]. rewrite !orb_false_iff, bool_decide_eq_false in E.
  serve. apply MutateCase_serves, add_task_changes. cbn in *. naive_solver.
Qed.

Lemma UpdateTask_serves t c k a r patch : evolves serves (UpdateTask t c k a r patch).
Proof. unfold UpdateTask. serve. apply MutateCase_serves, update_task_changes. Qed.

Lemma AddParticipant_serves t c a r input v : evolves serves (AddParticipant t c a r input v).
Proof. unfold AddParticipant. serve. apply MutateCase_serves, add_participant_changes. Qed.

Lemma AddObservable_serves t c a r input v : evolves serves (AddObservable t c a r input v).
Proof. unfold AddObservable. serve. apply MutateCase_serves, add_observable_changes. Qed.

Lemma LinkIncident_serves t c i a r v : evolves serves (LinkIncident t c i a r v).
Proof. unfold LinkIncident. serve. apply MutateCase_serves, link_incident_changes. Qed.

(** ** Creation *)

Lemma collect_observable_Ok actor now l value w l' w' : collect_observable actor now l value w = (Ok l', w') ->
  NoDup (List.map observable_key l) -> NoDup (List.map observable_key l').
Proof.
  unfold collect_observable. intros (o & w1 & _ & [-> ->]%ret_Ok)%bind_Ok N.
  destruct (observableExists _ _ _) eqn:E; [done|]. by apply observables_snoc.
Qed.

Lemma participants_NoDup inputs actor now l : NoDup (List.map cp_UserID l) ->
  NoDup (List.map cp_UserID (fold_left (fun ps value => appendParticipant ps value actor now) inputs l)).
Proof. revert l. induction inputs as [|x r IH]; intros l N; [done|]. by apply IH, appendParticipant_NoDup. Qed.

Lemma participants_elem inputs actor now l x : x ∈ List.map cp_UserID l ->
  x ∈ List.map cp_UserID (fold_left (fun ps value => appendParticipant ps value actor now) inputs l).
Proof.
  revert l. induction inputs as [|y r IH]; intros l Hx; [done|]. apply IH. eapply elem_of_prefix; [done|].
  apply appendParticipant_prefix.
Qed.

Lemma Create_serves t a input : evolves serves (Create t a input).
Proof.
  unfold Create. destruct (_ || _) eqn:G; [by serve|]. rewrite !orb_false_iff, !bool_decide_eq_false, !Z.ltb_ge in G.
  destruct G as [[[[[G1 G2] G3] G4] G5] G6]. cbn in G3, G4, G5.
  apply evolves_bind; [apply _|unfold raise_severity; by serve|]. intros severity.
  destruct (negb (validSeverity severity)) eqn:Sv; [by serve|]. rewrite negb_false_iff in Sv.
  apply evolves_bind; [apply _|by serve|]. intros now. set (owner := if _ == "" then _ else _).
  apply (evolves_bind_post serves (fun l => NoDup (List.map observable_key l))).
  - unfold collect_observable. by serve.
  - intros w l w' E. eapply (foldM_Ok_inv (fun l => NoDup (List.map observable_key l))); [| |exact E]; [|constructor].
    intros; by eapply collect_observable_Ok.
  - intros observables No. apply evolves_bind; [apply _|by serve|]. intros random.
    unfold newHistory. apply evolves_bind; [apply _|by serve|]. intros created.
    apply evolves_bind; [apply _| |intros [c []]; by serve]. apply CreateCase_serves; try done. constructor; cbn; try done.
    + by apply participants_elem; left.
    + apply participants_NoDup. constructor; [apply not_elem_of_nil|constructor].
    + apply case_incidents_NoDup.
Qed.

End Tables.

#[export] Hint Resolve serves_select serves_Now serves_Random caseByRequestID_serves audit_serves GetCase_serves
  CaseDetails_serves GetIncident_serves newObservable_serves AppendAudit_serves Create_serves Update_serves
  AddComment_serves AddTask_serves UpdateTask_serves AddParticipant_serves AddObservable_serves LinkIncident_serves : evolves.
