(* ===== verification/EvidenceTables.v ===== *)
(** * The evidence tables: invariant and transactions

    The abstract specification is a step relation on the items: one is reserved
    or advances, its content and its links never change.  Every transaction
    keeps the chains of custody intact and only adds to them. *)

From S2P Require Import Prelude GoLang GoFormat Core HashChain MemoryStore MemoryFacts.
From S2P Require Import Sql AuditTable CaseModel CaseDb EvidenceDb CaseService CaseRules CaseTables.

(** ** Specification *)

Definition evidence_key (e : EvidenceItem) : string * string := (evd_TenantID e, evd_ID e).
Definition evidence_request (e : EvidenceItem) : string * string := (evd_TenantID e, evd_RequestID e).
Definition custody_key (c : EvidenceCustodyEntry) : string * string := (evc_TenantID c, evc_EvidenceID c).

(** What an item is about and where its content lies. *)
Definition content_of (e : EvidenceItem) :=
  (evidence_key e, evidence_request e, evd_CaseID e, evd_IncidentID e, evd_AlertID e, evd_EventID e,
   evd_Filename e, evd_ContentType e, evd_Description e, evd_Size e, evd_SHA256 e, evd_Bucket e, evd_ObjectKey e,
   evd_RetainUntil e, evd_LegalHold e, evd_Uploader e, evd_Metadata e, evd_CreatedAt e).

(** The object of an item, as known since the upload ended. *)
Definition object_of (e : EvidenceItem) := (evd_Status e, evd_ObjectVersion e, evd_ETag e, evd_Failure e).

Record evidence_advances (e e' : EvidenceItem) : Prop := {
  ea_content : content_of e' = content_of e;
  ea_object : object_of e' = object_of e \/
    evd_Status e = "PENDING" /\ (evd_Status e' = "AVAILABLE" \/ evd_Status e' = "FAILED");
  ea_verified : evd_VerifiedAt e' = evd_VerifiedAt e \/ evd_Status e = "AVAILABLE"
}.

Inductive evidence_step : list EvidenceItem -> list EvidenceItem -> Prop :=
  | evidence_reserved rows e :
      evd_Status e = "PENDING" -> evd_VerifiedAt e = None -> evidence_key e ∉ List.map evidence_key rows ->
      evidence_request e ∉ List.map evidence_request rows -> evidence_step rows (rows ++ [e])
  | evidence_changed before e e' after :
      evidence_advances e e' -> evidence_step (before ++ e :: after) (before ++ e' :: after).

(** A change of the digest of the chain only. *)
Definition touched (e e' : EvidenceItem) : Prop :=
  content_of e' = content_of e /\ object_of e' = object_of e /\ evd_VerifiedAt e' = evd_VerifiedAt e.

Lemma advances_touched e e1 e2 : evidence_advances e e1 -> touched e1 e2 -> evidence_advances e e2.
Proof.
  intros [C O V] (T1 & T2 & T3). constructor; [congruence| |by rewrite T3].
  destruct O as [O|[P S]]; [left; congruence|right]. unfold object_of in T2. injection T2 as -> _ _ _. done.
Qed.

Lemma touched_advances e e' : touched e e' -> evidence_advances e e'.
Proof. intros (T1 & T2 & T3). constructor; [done|by left..]. Qed.

#[local] Arguments set_where : simpl never.

Ltac keep := evolve; try apply _; eauto with evolves.

Section Tables.
Context `{JsonColumn}.

(** Metadata that digest alike after the column of the chain. *)
Definition durable_column (m : Metadata) : Prop := json_metadata (option_map stored m) = json_metadata m.

Definition chain_of (key : string * string) (db : CaseDb) : list EvidenceCustodyEntry :=
  where_rows (is_custody_of key.1 key.2) (cdb_custody db).

Definition verify_chain (entries : list EvidenceCustodyEntry) : option string :=
  verify_links evc_PreviousHash evc_Hash custody_preimage "" entries.

Record ev_chains (db : CaseDb) : Prop := {
  ec_key : NoDup (List.map evidence_key (cdb_evidence db));
  ec_request : NoDup (List.map evidence_request (cdb_evidence db));
  ec_chain e : e ∈ cdb_evidence db -> verify_chain (chain_of (evidence_key e) db) = Some (evd_CustodyHeadHash e);
  ec_custody c : c ∈ cdb_custody db -> custody_key c ∈ List.map evidence_key (cdb_evidence db)
}.

Record ev_wf (db : CaseDb) : Prop := {
  ew_chains : ev_chains db;
  ew_started e : e ∈ cdb_evidence db -> chain_of (evidence_key e) db <> [];
  ew_checks e : e ∈ cdb_evidence db -> evidence_checks e = true;
  ew_verified e : e ∈ cdb_evidence db -> is_Some (evd_VerifiedAt e) -> evd_Status e = "AVAILABLE"
}.

(** ** Rows *)

Lemma is_evidence_spec t i e : is_evidence t i e = true <-> evidence_key e = (t, i).
Proof. unfold is_evidence, evidence_key. rewrite andb_true_iff, !bool_decide_eq_true. naive_solver. Qed.

Lemma is_evidence_request_spec t r e : is_evidence_request t r e = true <-> evidence_request e = (t, r).
Proof. unfold is_evidence_request, evidence_request. rewrite andb_true_iff, !bool_decide_eq_true. naive_solver. Qed.

Lemma is_custody_of_spec t i c : is_custody_of t i c = true <-> custody_key c = (t, i).
Proof. unfold is_custody_of, custody_key. rewrite andb_true_iff, !bool_decide_eq_true. naive_solver. Qed.

Lemma chain_snoc key db db' c : cdb_custody db' = cdb_custody db ++ [c] ->
  chain_of key db' = chain_of key db ++ (if is_custody_of key.1 key.2 c then [c] else []).
Proof. intros E. unfold chain_of. by rewrite E, where_rows_app. Qed.

Lemma chain_same key db db' : cdb_custody db' = cdb_custody db -> chain_of key db' = chain_of key db.
Proof. intros E. unfold chain_of. by rewrite E. Qed.

(** ** Appending to a chain *)

Definition custody_row (c : EvidenceCustodyEntry) : EvidenceCustodyEntry := c {{ evc_Metadata ::= option_map stored }}.

Record appended (t i : string) (m : EvidenceMutation) (c : EvidenceCustodyEntry) (db db' : CaseDb) : Prop := {
  ap_rows : exists before e after, cdb_evidence db = before ++ e :: after /\ evidence_key e = (t, i) /\
    cdb_evidence db' = before ++ (e {{ evd_CustodyHeadHash := evc_Hash c; evd_UpdatedAt := evc_CreatedAt c }}) :: after /\
    evc_PreviousHash c = evd_CustodyHeadHash e;
  ap_custody : cdb_custody db' = cdb_custody db ++ [custody_row c];
  ap_key : custody_key c = (t, i);
  ap_hash : evc_Hash c = evidenceCustodyHash c;
  ap_fields : evc_Actor c = TrimSpace (evm_Actor m) /\ evc_Action c = TrimSpace (evm_Action m) /\
    evc_Reason c = TrimSpace (evm_Reason m) /\ evc_Metadata c = evm_Metadata m;
  ap_rest : cdb_cases db' = cdb_cases db /\ cdb_links db' = cdb_links db /\ cdb_incidents db' = cdb_incidents db
}.

Lemma appendEvidenceCustodyTx_Ok t i m w c w' : NoDup (List.map evidence_key (cdb_evidence (w_repo w))) ->
  appendEvidenceCustodyTx t i m w = (Ok c, w') -> appended t i m c (w_repo w) (w_repo w').
Proof.
  intros ND. unfold appendEvidenceCustodyTx. destruct (_ || _) eqn:G; [done|].
  intros (row & w1 & [-> ->]%select_Ok & E)%bind_Ok. destruct (first_row _ _) as [item|] eqn:F; [|done].
  apply bind_Ok in E as (random & w2 & Er%Random_Ok & E). apply bind_Ok in E as (now & w3 & En%Now_Ok & E).
  apply bind_Ok in E as (seq & w4 & [-> ->]%select_Ok & E). apply bind_Ok in E as (u & w5 & ->%execute_Ok & E).
  apply bind_Ok in E as ([] & w6 & [_ Ei]%wrapping_Ok%insert_row_Ok & E).
  apply bind_Ok in E as (rows & w7 & [_ ->]%update_returning_Ok & [-> ->]%ret_Ok). rewrite En, Er in *. cbn in Ei.
  rewrite Ei. cbn.
  match goal with |- appended _ _ _ _ _ ?db' => match db' with context [set_where ?P ?f _] =>
    destruct (set_row evidence_key P (t, i) f (cdb_evidence (w_repo w)) item) as (b & a & Eb & Es & _ & Kc);
    [by intros; apply is_evidence_spec|done..|] end end.
  constructor; cbn; try done. exists b, item, a. by rewrite Es.
Qed.

Lemma keys_around {A B} (g : A -> B) before after x y z : g y = g x ->
  z ∈ before ++ y :: after -> z = y \/ z ∈ before ++ x :: after.
Proof. rewrite !elem_of_app, !elem_of_cons. tauto. Qed.

(** The other rows have other keys. *)
Lemma other_key {A K} (key : A -> K) before x after z : NoDup (List.map key (before ++ x :: after)) ->
  z ∈ before \/ z ∈ after -> key z <> key x.
Proof.
  rewrite map_app. cbn. intros (N1 & N2 & [N3 N4]%NoDup_cons)%NoDup_app [Hz|Hz] E.
  - apply (N2 (key z)); [by apply list_elem_of_In, in_map, list_elem_of_In|]. rewrite E. left.
  - apply N3. rewrite <- E. by apply list_elem_of_In, in_map, list_elem_of_In.
Qed.

Lemma custody_row_digest c : durable_column (evc_Metadata c) -> digest custody_preimage (custody_row c) = evidenceCustodyHash c.
Proof.
  intros D. unfold digest, evidenceCustodyHash. f_equal. unfold custody_preimage, custody_row. cbn. by rewrite D.
Qed.

Lemma appended_chains t i m c db db' : ev_chains db -> durable_column (evm_Metadata m) -> appended t i m c db db' ->
  ev_chains db' /\ chain_of (t, i) db' <> [] /\ forall key, chain_of key db <> [] -> chain_of key db' <> [].
Proof.
  intros W D [(b & e & a & E & K & E' & P) C Kc Hc (_ & _ & _ & Hm) _].
  assert (Hd := custody_row_digest c). rewrite Hm in Hd. specialize (Hd D).
  assert (Own : is_custody_of t i (custody_row c) = true) by by apply is_custody_of_spec.
  assert (Ch : chain_of (t, i) db' = chain_of (t, i) db ++ [custody_row c]) by (by rewrite (chain_snoc _ _ _ _ C); cbn [fst snd]; rewrite Own).
  assert (Ot : forall key, key <> (t, i) -> chain_of key db' = chain_of key db).
  { intros key N. rewrite (chain_snoc _ _ _ _ C). destruct (is_custody_of key.1 key.2 (custody_row c)) eqn:X; [|apply app_nil_r].
    apply is_custody_of_spec in X. destruct N. rewrite <- Kc. by destruct key. }
  assert (Km : List.map evidence_key (cdb_evidence db') = List.map evidence_key (cdb_evidence db)) by (rewrite E, E'; by apply map_around).
  destruct W as [Wk Wr Wc Wo]. split_and!.
  - constructor.
    + by rewrite Km.
    + rewrite E', (map_around _ _ _ e), <- E; done.
    + intros x Hx. rewrite E', elem_of_app, elem_of_cons in Hx. rewrite E in Wk.
      assert (x = (e {{ evd_CustodyHeadHash := evc_Hash c; evd_UpdatedAt := evc_CreatedAt c }}) \/ (x ∈ b \/ x ∈ a)) as [->|Ho] by tauto.
      * cbn. change (evidence_key _) with (evidence_key e) at 1. rewrite K, Ch. unfold verify_chain.
        rewrite verify_links_snoc. rewrite Hd. cbn. rewrite Hc, P. split_and!; try done.
        rewrite <- K. apply Wc. rewrite E. set_solver.
      * rewrite Ot; [apply Wc; rewrite E; set_solver|]. rewrite <- K. by eapply other_key.
    + intros x Hx. rewrite Km. rewrite C in Hx. apply elem_of_app in Hx as [Hx|Hx]; [by apply Wo|].
      apply list_elem_of_singleton in Hx as ->. change (custody_key (custody_row c)) with (custody_key c).
      rewrite Kc, <- K, E, map_app. set_solver.
  - rewrite Ch. by destruct (chain_of (t, i) db).
  - intros key N. destruct (decide (key = (t, i))) as [->|Ne]; [rewrite Ch; by destruct (chain_of (t, i) db)|by rewrite Ot].
Qed.

(** ** Changes of the rows *)

Lemma changed_chains (db db' : CaseDb) b e e' a : ev_chains db -> cdb_evidence db = b ++ e :: a ->
  cdb_evidence db' = b ++ e' :: a -> cdb_custody db' = cdb_custody db -> evidence_key e' = evidence_key e ->
  evidence_request e' = evidence_request e -> evd_CustodyHeadHash e' = evd_CustodyHeadHash e -> ev_chains db'.
Proof.
  intros [Wk Wr Wc Wo] E E' C K R Hh.
  assert (Km : List.map evidence_key (cdb_evidence db') = List.map evidence_key (cdb_evidence db)) by (rewrite E, E'; by apply map_around).
  constructor.
  - by rewrite Km.
  - rewrite E', (map_around _ _ _ e), <- E; done.
  - intros x Hx. rewrite (chain_same _ db db' C). rewrite E' in Hx.
    apply (keys_around evidence_key b a e e' x K) in Hx as [->|Hx]; [|apply Wc; by rewrite E].
    rewrite K, Hh. apply Wc. rewrite E. set_solver.
  - intros x. rewrite C, Km. apply Wo.
Qed.

Lemma reserved_chains (db db' : CaseDb) e : ev_chains db -> cdb_evidence db' = cdb_evidence db ++ [e] ->
  cdb_custody db' = cdb_custody db -> evidence_key e ∉ List.map evidence_key (cdb_evidence db) ->
  evidence_request e ∉ List.map evidence_request (cdb_evidence db) -> evd_CustodyHeadHash e = "" -> ev_chains db'.
Proof.
  intros [Wk Wr Wc Wo] E C K R Hh. constructor.
  - rewrite E. by apply NoDup_keys_snoc.
  - rewrite E. by apply NoDup_keys_snoc.
  - intros x Hx. rewrite (chain_same _ db db' C). rewrite E, elem_of_app, list_elem_of_singleton in Hx.
    destruct Hx as [Hx| ->]; [by apply Wc|]. rewrite Hh.
    assert (chain_of (evidence_key e) db = []) as ->; [|done].
    unfold chain_of, where_rows. destruct (List.filter _ _) as [|c l] eqn:F; [done|]. exfalso.
    assert (Hc : c ∈ where_rows (is_custody_of (evidence_key e).1 (evidence_key e).2) (cdb_custody db)).
    { unfold where_rows. rewrite F. left. }
    apply elem_of_where in Hc as [Q%is_custody_of_spec Hc]. apply K.
    assert (evidence_key e = custody_key c) as -> by (rewrite Q; by destruct (evidence_key e)). by apply Wo.
  - intros x. rewrite C, E, map_app, elem_of_app. intros Hx. left. by apply Wo.
Qed.

(** ** The transactions *)

Definition keeps (w w' : World CaseDb) : Prop :=
  ev_wf (w_repo w) -> ev_wf (w_repo w') /\
    rtc evidence_step (cdb_evidence (w_repo w)) (cdb_evidence (w_repo w')) /\
    cdb_custody (w_repo w) `prefix_of` cdb_custody (w_repo w').

#[export] Instance keeps_preorder : PreOrder keeps.
Proof.
  split.
  - intros w W. split_and!; [done|apply rtc_refl|done].
  - intros w1 w2 w3 S1 S2 W. destruct (S1 W) as (W2 & R1 & P1), (S2 W2) as (W3 & R2 & P2). split_and!; [done|by etrans..].
Qed.

Lemma keeps_rest w w' : cdb_evidence (w_repo w') = cdb_evidence (w_repo w) ->
  cdb_custody (w_repo w') = cdb_custody (w_repo w) -> keeps w w'.
Proof.
  intros E C [[] Ws Wk Wv]. split_and!; [|rewrite E; apply rtc_refl|by rewrite C].
  constructor; [constructor|..]; rewrite ?E, ?C; try done; intros e He; rewrite (chain_same _ _ _ C); auto.
Qed.

Lemma keeps_same w w' : w_repo w' = w_repo w -> keeps w w'.
Proof. intros E. by apply keeps_rest; rewrite E. Qed.

Lemma keeps_transaction {A} (m : CaseM A) : (forall w a w', m w = (Ok a, w') -> keeps w w') -> evolves keeps (transaction m).
Proof.
  intros Hm w. unfold transaction. destruct (m w) as [[a|e|] w'] eqn:E; cbn; [by eapply Hm|by apply keeps_same..].
Qed.

(** Changing the row [e] into [e1] and then appending to its chain. *)
Lemma changed_then_appended (db db1 db2 : CaseDb) t i m c b e e1 a : ev_wf db -> durable_column (evm_Metadata m) ->
  cdb_evidence db = b ++ e :: a -> evidence_key e = (t, i) ->
  cdb_evidence db1 = b ++ e1 :: a -> cdb_custody db1 = cdb_custody db -> evidence_advances e e1 ->
  evd_CustodyHeadHash e1 = evd_CustodyHeadHash e -> evidence_checks e1 = true ->
  (is_Some (evd_VerifiedAt e1) -> evd_Status e1 = "AVAILABLE") -> appended t i m c db1 db2 ->
  ev_wf db2 /\ evidence_step (cdb_evidence db) (cdb_evidence db2) /\ cdb_custody db `prefix_of` cdb_custody db2.
Proof.
  intros W D E K E1 C A Hh Ck V Ap.
  assert (Kr : evidence_key e1 = evidence_key e /\ evidence_request e1 = evidence_request e).
  { assert (J := ea_content _ _ A). unfold content_of, evidence_key, evidence_request in *. injection J. intros. split; congruence. }
  assert (W1 : ev_chains db1) by (eapply changed_chains; [apply W|done..|apply Kr|apply Kr|done]).
  destruct (appended_chains t i m c db1 db2 W1 D Ap) as (W2 & Own & Keep).
  destruct Ap as [(b' & x & a' & Ex & Kx & E2 & _) C2 _ _ _ _].
  assert (b' = b /\ x = e1 /\ a' = a) as (-> & -> & ->).
  { rewrite E1 in Ex. assert (ND := ec_key _ W1). rewrite E1 in ND. destruct Kr as [Kr _]. apply symmetry in Ex.
    clear -Ex Kx Kr K ND. revert b Ex ND. induction b' as [|y b' IH]; intros [|z b] Ex ND; cbn in *; injection Ex as -> Ex.
    - by subst.
    - apply NoDup_cons in ND as [N _]. destruct N. rewrite Kx, <- K, <- Kr, map_app. set_solver.
    - apply NoDup_cons in ND as [N _]. destruct N. rewrite <- Ex, Kr, K, <- Kx, map_app. set_solver.
    - apply NoDup_cons in ND as [_ ND]. destruct (IH b) as (-> & -> & ->); done. }
  set (e2 := e1 {{ evd_CustodyHeadHash := evc_Hash c; evd_UpdatedAt := evc_CreatedAt c }}) in *.
  assert (Sub : forall y, y ∈ cdb_evidence db2 -> y = e2 \/ y ∈ cdb_evidence db).
  { intros y. rewrite E2, E, !elem_of_app, !elem_of_cons. tauto. }
  split_and!.
  - constructor; [done|..].
    + intros y [->|Hy]%Sub.
      * change (evidence_key e2) with (evidence_key e1). destruct Kr as [-> _]. by rewrite K.
      * apply Keep. rewrite (chain_same _ _ _ C). by apply W.
    + intros y [->|Hy]%Sub; [exact Ck|by apply W].
    + intros y [->|Hy]%Sub; [exact V|by apply W].
  - rewrite E, E2. apply evidence_changed. by eapply advances_touched.
  - rewrite C2, C. by apply prefix_app_r.
Qed.

Lemma AppendEvidenceCustody_keeps t i m : durable_column (evm_Metadata m) -> evolves keeps (AppendEvidenceCustody t i m).
Proof.
  intros D. apply keeps_transaction. intros w c w' E W. assert (Ap := appendEvidenceCustodyTx_Ok _ _ _ _ _ _ (ec_key _ (ew_chains _ W)) E).
  destruct (ap_rows _ _ _ _ _ _ Ap) as (b & e & a & Eb & K & _).
  destruct (changed_then_appended (w_repo w) (w_repo w) (w_repo w') t i m c b e e a) as (W' & S & P); try done.
  - by apply touched_advances.
  - apply (ew_checks _ W). rewrite Eb. set_solver.
  - apply (ew_verified _ W). rewrite Eb. set_solver.
  - split_and!; [done|by apply rtc_once|done].
Qed.

(** The row of a key is set in one place. *)
Lemma set_evidence_row (db : CaseDb) t i f e : ev_wf db -> first_row (is_evidence t i) (cdb_evidence db) = Some e ->
  exists b a, cdb_evidence db = b ++ e :: a /\ set_where (is_evidence t i) f (cdb_evidence db) = b ++ f e :: a /\
    List.map f (where_rows (is_evidence t i) (cdb_evidence db)) = [f e] /\ evidence_key e = (t, i) /\ e ∈ cdb_evidence db.
Proof.
  intros W F. destruct (set_row evidence_key (is_evidence t i) (t, i) f (cdb_evidence db) e) as (b & a & Eb & Es & Er & K);
    [by intros; apply is_evidence_spec|apply (ec_key _ (ew_chains _ W))|done|].
  exists b, a. split_and!; try done. rewrite Eb. set_solver.
Qed.

(** A transaction that changes the row [e] with [f] and appends. *)
Lemma set_then_append w0 w1 w2 t i m c e f : ev_wf (w_repo w0) -> durable_column (evm_Metadata m) ->
  first_row (is_evidence t i) (cdb_evidence (w_repo w0)) = Some e ->
  cdb_evidence (w_repo w1) = set_where (is_evidence t i) f (cdb_evidence (w_repo w0)) ->
  cdb_custody (w_repo w1) = cdb_custody (w_repo w0) -> evidence_advances e (f e) ->
  evd_CustodyHeadHash (f e) = evd_CustodyHeadHash e -> evidence_checks (f e) = true ->
  (is_Some (evd_VerifiedAt (f e)) -> evd_Status (f e) = "AVAILABLE") ->
  appendEvidenceCustodyTx t i m w1 = (Ok c, w2) ->
  ev_wf (w_repo w2) /\ rtc evidence_step (cdb_evidence (w_repo w0)) (cdb_evidence (w_repo w2)) /\
    cdb_custody (w_repo w0) `prefix_of` cdb_custody (w_repo w2).
Proof.
  intros W D F E1 C1 A Hh Ck V E. destruct (set_evidence_row _ t i f e W F) as (b & a & Eb & Es & _ & K & _). rewrite Es in E1.
  assert (Kf : evidence_key (f e) = evidence_key e).
  { assert (J := ea_content _ _ A). unfold content_of, evidence_key in *. injection J. congruence. }
  assert (ND : NoDup (List.map evidence_key (cdb_evidence (w_repo w1)))).
  { rewrite E1, (map_around _ _ _ e), <- Eb; [apply (ec_key _ (ew_chains _ W))|done]. }
  destruct (changed_then_appended (w_repo w0) (w_repo w1) (w_repo w2) t i m c b e (f e) a) as (W' & S & P); try done.
  { by apply appendEvidenceCustodyTx_Ok. }
  split_and!; [done|by apply rtc_once|done].
Qed.

Lemma evidence_checks_status (e : EvidenceItem) status version etag failure now : evidence_checks e = true ->
  status ∈ ["PENDING"; "AVAILABLE"; "FAILED"] -> string_len failure <= 2000 ->
  evidence_checks (e {{ evd_Status := status; evd_ObjectVersion := version; evd_ETag := etag; evd_Failure := failure;
                        evd_UpdatedAt := now }}) = true.
Proof.
  unfold evidence_checks. cbn. rewrite !andb_true_iff, !bool_decide_eq_true, !Z.leb_le. tauto.
Qed.

Lemma transitionEvidence_keeps t i status version etag failure m : durable_column (evm_Metadata m) ->
  status = "AVAILABLE" \/ status = "FAILED" -> string_len failure <= 2000 ->
  evolves keeps (transitionEvidence t i status version etag failure m).
Proof.
  intros D S L. apply keeps_transaction. intros w item w' E W.
  apply bind_Ok in E as (row & w1 & [-> ->]%select_Ok & E). destruct (first_row _ _) as [e|] eqn:F; [|done].
  destruct (evd_Status e != "PENDING") eqn:P; [done|]. rewrite negb_false_iff, bool_decide_eq_true in P.
  assert (He := proj2 (first_row_Some _ _ _ F)). apply bind_Ok in E as (now & w2 & En%Now_Ok & E). apply bind_Ok in E as (rows & w3 & [-> ->]%update_returning_Ok & E).
  rewrite En in E. destruct (List.map _ (where_rows _ _)) as [|r rows]; [done|].
  apply bind_Ok in E as (c & w4 & E & [-> ->]%ret_Ok). eapply set_then_append; [done|exact D|exact F|..|exact E]; cbn.
  - reflexivity.
  - done.
  - constructor; cbn; [done|right|by left]. split; [done|]. destruct S as [-> | ->]; auto.
  - done.
  - apply evidence_checks_status; [exact (ew_checks _ W e He)|set_solver|done].
  - intros V. apply (ew_verified _ W e He) in V. congruence.
Qed.

Lemma string_take_length n s : string_len (string_take n s) <= Z.of_nat n.
Proof.
  unfold string_len. revert s. induction n as [|n IH]; intros [|c s]; cbn [string_take String.length]; try lia.
  specialize (IH s). lia.
Qed.

Lemma truncateEvidenceFailure_length s : string_len (truncateEvidenceFailure s) <= 2000.
Proof. unfold truncateEvidenceFailure. destruct (Z.ltb_spec 2000 (string_len (TrimSpace s))); [apply (string_take_length 2000)|done]. Qed.

Lemma FinalizeEvidence_keeps t i version etag m : durable_column (evm_Metadata m) -> evolves keeps (FinalizeEvidence t i version etag m).
Proof. intros D. apply transitionEvidence_keeps; [done|by left|done]. Qed.

Lemma FailEvidence_keeps t i failure m : durable_column (evm_Metadata m) -> evolves keeps (FailEvidence t i failure m).
Proof. intros D. apply transitionEvidence_keeps; [done|by right|apply truncateEvidenceFailure_length]. Qed.

Lemma RecordEvidenceVerification_keeps t i valid m : durable_column (evm_Metadata m) ->
  evolves keeps (RecordEvidenceVerification t i valid m).
Proof.
  intros D. apply keeps_transaction. intros w item w' E W.
  apply bind_Ok in E as (row & w1 & [-> ->]%select_Ok & E). destruct (first_row _ _) as [e|] eqn:F; [|done].
  destruct (evd_Status e != "AVAILABLE") eqn:P; [done|]. rewrite negb_false_iff, bool_decide_eq_true in P.
  assert (He := proj2 (first_row_Some _ _ _ F)).
  apply bind_Ok in E as (now & w2 & En%Now_Ok & E). apply bind_Ok in E as (u & w3 & Eu & E).
  apply bind_Ok in E as (c & w4 & E & Er). assert (w' = w4) as ->.
  { unfold Evidence in Er. apply bind_Ok in Er as (r & w5 & [-> ->]%select_Ok & Er). destruct (first_row _ (cdb_evidence (w_repo w4))); [|done].
    by apply ret_Ok in Er as [_ ->]. }
  destruct valid.
  - apply bind_Ok in Eu as (rows & w5 & [-> ->]%update_returning_Ok & [_ ->]%ret_Ok). rewrite En in E.
    eapply set_then_append; [done|exact D|exact F|..|exact E]; cbn; try done.
    + constructor; cbn; [done|by left|by right].
    + exact (ew_checks _ W e He).
  - apply ret_Ok in Eu as [_ ->]. destruct (set_evidence_row _ t i (fun x => x) e W F) as (b & a & Eb & Es & _).
    eapply (set_then_append w w2 w4 t i m c e (fun x => x)); [done|exact D|exact F|..|exact E]; rewrite ?En; try done.
    + by rewrite Es.
    + by apply touched_advances.
    + exact (ew_checks _ W e He).
Qed.

(** ** Reservations *)

Lemma reserved_then_appended (db db1 db2 : CaseDb) m c e : ev_wf db -> durable_column (evm_Metadata m) ->
  evd_Status e = "PENDING" -> evd_VerifiedAt e = None -> evd_CustodyHeadHash e = "" -> evidence_checks e = true ->
  evidence_key e ∉ List.map evidence_key (cdb_evidence db) -> evidence_request e ∉ List.map evidence_request (cdb_evidence db) ->
  cdb_evidence db1 = cdb_evidence db ++ [e] -> cdb_custody db1 = cdb_custody db ->
  appended (evd_TenantID e) (evd_ID e) m c db1 db2 ->
  ev_wf db2 /\ evidence_step (cdb_evidence db) (cdb_evidence db2) /\ cdb_custody db `prefix_of` cdb_custody db2.
Proof.
  intros W D S V Hh Ck Nk Nr E1 C1 Ap.
  assert (W1 : ev_chains db1) by (apply (reserved_chains db db1 e); [apply W|done..]).
  destruct (appended_chains _ _ m c db1 db2 W1 D Ap) as (W2 & Own & Keep).
  destruct Ap as [(b & x & a & Ex & Kx & E2 & _) C2 _ _ _ _].
  assert (b = cdb_evidence db /\ x = e /\ a = []) as (-> & -> & ->).
  { rewrite E1 in Ex. assert (ND := ec_key _ W1). rewrite E1 in ND. change (evidence_key x = evidence_key e) in Kx.
    clear -Ex Kx Nk. revert b Ex. induction (cdb_evidence db) as [|y l IH]; intros [|z b] Ex; cbn in *; injection Ex as -> Ex.
    - by subst.
    - by apply (f_equal length) in Ex; rewrite length_app in Ex; cbn in Ex; lia.
    - destruct Nk. rewrite Kx. left.
    - apply not_elem_of_cons in Nk as [_ Nk]. destruct (IH Nk b) as (-> & -> & ->); done. }
  set (e2 := e {{ evd_CustodyHeadHash := evc_Hash c; evd_UpdatedAt := evc_CreatedAt c }}) in *.
  assert (Sub : forall y, y ∈ cdb_evidence db2 -> y = e2 \/ y ∈ cdb_evidence db).
  { intros y. rewrite E2, elem_of_app, list_elem_of_singleton. tauto. }
  split_and!.
  - constructor; [done|..].
    + intros y [->|Hy]%Sub; [exact Own|]. apply Keep. rewrite (chain_same _ _ _ C1). by apply W.
    + intros y [->|Hy]%Sub; [exact Ck|by apply W].
    + intros y [->|Hy]%Sub; [|by apply W]. cbn. rewrite V. by intros [? [=]].
  - rewrite E2. by apply evidence_reserved.
  - rewrite C2, C1. by apply prefix_app_r.
Qed.

Lemma keeps_read {A} (m : CaseM A) : (forall w, w_repo (m w).2 = w_repo w) -> evolves keeps m.
Proof. intros Hm w. apply keeps_same, Hm. Qed.

Lemma keeps_select {A} (f : CaseDb -> A) : evolves keeps (select f).
Proof. apply keeps_read. by intros [db rt]. Qed.

Lemma keeps_Now : evolves keeps Now.
Proof. by apply keeps_read. Qed.

Lemma keeps_Random : evolves keeps Random.
Proof. by apply keeps_read. Qed.

#[local] Hint Resolve keeps_select keeps_Now keeps_Random : evolves.

Lemma ReserveEvidence_keeps item m : durable_column (evm_Metadata m) -> evolves keeps (ReserveEvidence item m).
Proof.
  intros D. unfold ReserveEvidence, check_evidence_case, insert_reservation. apply evolves_if; [by keep|]. apply evolves_bind; [apply _|by keep|]. intros u.
  apply evolves_bind; [apply _| |intros [r|]; unfold evidenceByRequestID; by keep].
  apply keeps_transaction. intros w r w' E W.
  apply bind_Ok in E as (now & w1 & En%Now_Ok & E). apply bind_Ok in E as (u1 & w2 & [Ck ->]%wrapping_Ok%guard_Ok & E).
  apply bind_Ok in E as (taken & w3 & [-> ->]%select_Ok & E). rewrite En in E.
  destruct (existsb _ (cdb_evidence _)) eqn:Tk.
  { apply ret_Ok in E as [-> ->]. rewrite En. split_and!; [done|apply rtc_refl|done]. }
  apply bind_Ok in E as ([] & w4 & [Cl Ei]%wrapping_Ok%insert_row_Ok & E).
  apply bind_Ok in E as (valid & w5 & [-> ->]%select_Ok & E). apply bind_Ok in E as (u2 & w6 & [_ ->]%wrapping_Ok%guard_Ok & E).
  apply bind_Ok in E as (c & w7 & E & [-> ->]%ret_Ok). rewrite En in *.
  set (row := reserved_row item now) in *.
  assert (Nk : evidence_key row ∉ List.map evidence_key (cdb_evidence (w_repo w))).
  { apply not_elem_of_keys. intros x Hx Ex. assert (Cx := Cl x Hx). unfold evidence_clash in Cx. apply orb_false_iff in Cx as [Cx _].
    assert (Y : is_evidence (evd_TenantID row) (evd_ID row) x = true) by by apply is_evidence_spec. congruence. }
  assert (Nr : evidence_request row ∉ List.map evidence_request (cdb_evidence (w_repo w))).
  { apply not_elem_of_keys. intros x Hx Ex. assert (Y : is_evidence_request (evd_TenantID item) (evd_RequestID item) x = true)
      by by apply is_evidence_request_spec. by rewrite (existsb_false _ _ Tk) in Y. }
  destruct (reserved_then_appended (w_repo w) (w_repo w4) (w_repo w7) m c row) as (W' & S & P); try done.
  - by rewrite Ei.
  - by rewrite Ei.
  - apply appendEvidenceCustodyTx_Ok; [|done]. rewrite Ei. cbn. apply NoDup_keys_snoc; [apply (ec_key _ (ew_chains _ W))|done].
  - split_and!; [done|by apply rtc_once|done].
Qed.

(** ** Statements on the other tables *)

(** A function of the database that leaves the evidence alone. *)
Definition apart (f : CaseDb -> CaseDb) : Prop :=
  forall db, cdb_evidence (f db) = cdb_evidence db /\ cdb_custody (f db) = cdb_custody db.

Lemma keeps_execute f : apart f -> evolves keeps (execute f).
Proof. intros F w. destruct (F (w_repo w)) as (E1 & E2). by apply keeps_rest. Qed.

Lemma keeps_insert {A} (table : CaseDb -> list A) put clash row : (forall rows, apart (put rows)) ->
  evolves keeps (insert_row table put clash row).
Proof. intros P. unfold insert_row. keep. by apply keeps_execute. Qed.

Lemma keeps_update {A} (table : CaseDb -> list A) put P f : (forall rows, apart (put rows)) ->
  evolves keeps (update_returning table put P f).
Proof. intros Pu. unfold update_returning. keep. by apply keeps_execute. Qed.

Lemma keeps_nested {A} (m : CaseM A) : evolves keeps m -> evolves keeps (transaction m).
Proof. intros Hm. apply keeps_transaction. intros w a w' E. specialize (Hm w). by rewrite E in Hm. Qed.

Lemma AppendAudit_keeps entry : evolves keeps (AppendAudit entry).
Proof.
  unfold AppendAudit, appendAuditTx, insert_audit. apply keeps_nested.
  keep; first [apply keeps_execute; intros db; cbn; by repeat case_match|by apply keeps_insert].
Qed.

Lemma GetRetentionPolicy_keeps t : evolves keeps (GetRetentionPolicy t).
Proof. unfold GetRetentionPolicy. keep. apply keeps_execute. intros db. by destruct (existsb _ _). Qed.

Lemma UpdateRetentionPolicy_keeps policy : evolves keeps (UpdateRetentionPolicy policy).
Proof.
  unfold UpdateRetentionPolicy. keep; apply keeps_execute; intros db; [by destruct (existsb _ _)|done].
Qed.

Lemma syncCaseIncidents_keeps item : evolves keeps (syncCaseIncidents item).
Proof. unfold syncCaseIncidents, insert_link, guard. keep; first [by apply keeps_execute|by apply keeps_insert]. Qed.

Lemma keeps_guard (b : bool) e : evolves keeps (guard b e).
Proof. unfold guard. by keep. Qed.

#[local] Hint Resolve AppendAudit_keeps GetRetentionPolicy_keeps UpdateRetentionPolicy_keeps syncCaseIncidents_keeps keeps_guard : evolves.

Lemma MutateCase_keeps t i v f : changes f -> evolves keeps (MutateCase t i v f).
Proof.
  intros F. unfold MutateCase. apply keeps_transaction. apply lands_bind; [apply _|apply lands_evolves; by keep|].
  intros [current|]; [|apply lands_evolves; by keep]. apply lands_bind; [apply _|apply lands_evolves; by keep|]. intros _.
  apply lands_bind; [apply _| |].
  - intros w c w' E. apply keeps_same. by apply F in E as [-> _].
  - intros item. apply lands_evolves. unfold update_cases. keep. by apply keeps_execute.
Qed.

(** ** Verifying a chain *)

Lemma first_evidence (db : CaseDb) e : ev_wf db -> e ∈ cdb_evidence db ->
  first_row (is_evidence (evd_TenantID e) (evd_ID e)) (cdb_evidence db) = Some e.
Proof.
  intros W He. unfold first_row. destruct (where_rows _ _) as [|x l] eqn:F.
  - assert (Hx : e ∈ where_rows (is_evidence (evd_TenantID e) (evd_ID e)) (cdb_evidence db)).
    { apply elem_of_where. split; [by apply is_evidence_spec|done]. }
    rewrite F in Hx. by apply not_elem_of_nil in Hx.
  - assert (Hx : x ∈ where_rows (is_evidence (evd_TenantID e) (evd_ID e)) (cdb_evidence db)) by (rewrite F; left).
    apply elem_of_where in Hx as [K%is_evidence_spec Hx]. cbn. f_equal.
    by apply (NoDup_unique evidence_key (cdb_evidence db) (ec_key _ (ew_chains _ W))).
Qed.

Lemma verify_custody_true w e : ev_wf (w_repo w) -> e ∈ cdb_evidence (w_repo w) ->
  VerifyEvidenceCustody (evd_TenantID e) (evd_ID e) w = (Ok true, w).
Proof.
  intros W He. assert (C := ec_chain _ (ew_chains _ W) e He). assert (N := ew_started _ W e He).
  assert (F := first_evidence _ e W He). destruct w as [db rt].
  unfold VerifyEvidenceCustody, ListEvidenceCustody, Evidence, select, on_repo, gets, bind, chain_of, verify_chain in *.
  cbn in *. destruct (where_rows _ (cdb_custody db)) as [|x l]; [done|]. rewrite C. cbn. rewrite F. unfold ret.
  by rewrite bool_decide_true.
Qed.

(** A recorded verification: one entry more, and the time of a success. *)
Lemma RecordEvidenceVerification_Ok t i valid m w x w' e : ev_wf (w_repo w) ->
  first_row (is_evidence t i) (cdb_evidence (w_repo w)) = Some e -> RecordEvidenceVerification t i valid m w = (Ok x, w') ->
  exists c now e', cdb_custody (w_repo w') = cdb_custody (w_repo w) ++ [custody_row c] /\ custody_key c = (t, i) /\
    evc_Actor c = TrimSpace (evm_Actor m) /\ evc_Action c = TrimSpace (evm_Action m) /\
    e' ∈ cdb_evidence (w_repo w') /\ evidence_key e' = (t, i) /\
    evd_VerifiedAt e' = (if valid then Some now else evd_VerifiedAt e).
Proof.
  intros W F. unfold RecordEvidenceVerification, transaction. destruct (bind _ _ w) as [[y| |] w2] eqn:E; [|done..].
  intros [= <- <-]. apply bind_Ok in E as (row & w1 & [-> ->]%select_Ok & E). rewrite F in E. case_step E; [done|].
  apply bind_Ok in E as (now & w3 & En%Now_Ok & E). apply bind_Ok in E as (u & w4 & Eu & E).
  apply bind_Ok in E as (c & w5 & E & Er). assert (w2 = w5) as ->.
  { unfold Evidence in Er. apply bind_Ok in Er as (r & w6 & [-> ->]%select_Ok & Er).
    destruct (first_row _ (cdb_evidence (w_repo w5))); [by apply ret_Ok in Er as [_ ->]|done]. }
  set (f := fun e => if valid then e {{ evd_VerifiedAt := Some now; evd_UpdatedAt := now }} else e).
  destruct (set_evidence_row _ t i f e W F) as (b & a & Eb & Es & _ & Ke & _).
  assert (E4 : cdb_evidence (w_repo w4) = b ++ f e :: a /\ cdb_custody (w_repo w4) = cdb_custody (w_repo w)).
  { destruct valid.
    - apply bind_Ok in Eu as (rows & w6 & [-> ->]%update_returning_Ok & [_ ->]%ret_Ok). cbn. rewrite En. split; [exact Es|done].
    - apply ret_Ok in Eu as [_ ->]. by rewrite En, Eb. }
  destruct E4 as [E4 C4].
  assert (Kf : evidence_key (f e) = evidence_key e) by by destruct valid.
  apply appendEvidenceCustodyTx_Ok in E as [(b' & e1 & a' & Eb' & K1 & E5 & _) C5 Kc _ (Fa & Fc & _) _].
  2: { rewrite E4, (map_around _ _ _ e), <- Eb; [apply (ec_key _ (ew_chains _ W))|done]. }
  exists c, now, (e1 {{ evd_CustodyHeadHash := evc_Hash c; evd_UpdatedAt := evc_CreatedAt c }}).
  split_and!; [by rewrite C5, C4|done|done|done|rewrite E5; set_solver|exact K1|]. cbn.
  assert (e1 = f e) as ->; [|by destruct valid].
  apply (NoDup_unique evidence_key (cdb_evidence (w_repo w4))).
  - rewrite E4, (map_around _ _ _ e), <- Eb; [apply (ec_key _ (ew_chains _ W))|done].
  - rewrite Eb'. set_solver.
  - rewrite E4. set_solver.
  - congruence.
Qed.

End Tables.

#[export] Hint Resolve keeps_select keeps_Now keeps_Random AppendAudit_keeps GetRetentionPolicy_keeps
  UpdateRetentionPolicy_keeps : evolves.
