(* ===== verification/Desk.v ===== *)
(** * The investigation desk: cases, evidence and retention as one system

    Any sequence of calls of the case service and of the evidence service, by
    any callers, on one database, with any clock, random source and answers of
    the object store. *)

From S2P Require Import Prelude GoLang GoFormat Core HashChain MemoryStore MemoryFacts Sql AuditTable.
From S2P Require Import CaseModel CaseDb EvidenceDb EvidenceService CaseService CaseRules CaseTables EvidenceTables.

Inductive desk_call : Type :=
  | CallCreate (tenantID actor : string) (input : CreateInput)
  | CallUpdate (tenantID caseID actor : string) (patch : Patch)
  | CallAddComment (tenantID caseID actor body requestID : string) (version : Z)
  | CallAddTask (tenantID caseID actor requestID : string) (input : TaskInput)
  | CallUpdateTask (tenantID caseID taskID actor requestID : string) (patch : TaskPatch)
  | CallAddParticipant (tenantID caseID actor requestID : string) (input : ParticipantInput) (version : Z)
  | CallAddObservable (tenantID caseID actor requestID : string) (input : ObservableInput) (version : Z)
  | CallLinkIncident (tenantID caseID incidentID actor requestID : string) (version : Z)
  | CallCase (tenantID caseID : string)
  | CallCases (tenantID : string) (filter : CaseFilter)
  | CallUpload (input : UploadInput)
  | CallOpen (tenantID evidenceID actor reason requestID : string)
  | CallVerify (tenantID evidenceID actor reason requestID : string)
  | CallCustody (tenantID evidenceID : string)
  | CallUpdateRetention (policy : RetentionPolicy).

(** What JSON and a JSONB column do to strings and to numbers that a float64
    holds exactly. *)
Definition plain (v : GoValue) : Prop :=
  match v with VString _ => True | VInt z => Z.abs z <= 2 ^ 53 | _ => False end.

Class ExactColumn `{JsonColumn} : Prop :=
  stored_plain (fields : list (string * GoValue)) : Forall (fun kv => plain kv.2) fields ->
    durable_column (Some (list_to_map fields)).

Section Desk.
Context `{JsonColumn} `{BlobStore} (maximum : Z).

Definition ignore {A} (m : CaseM A) : CaseM unit := let! _ := m in ret tt.

Definition run_call (c : desk_call) : CaseM unit :=
  match c with
  | CallCreate t a input => ignore (Create t a input)
  | CallUpdate t c a patch => ignore (Update t c a patch)
  | CallAddComment t c a body r v => ignore (AddComment t c a body r v)
  | CallAddTask t c a r input => ignore (AddTask t c a r input)
  | CallUpdateTask t c k a r patch => ignore (UpdateTask t c k a r patch)
  | CallAddParticipant t c a r input v => ignore (AddParticipant t c a r input v)
  | CallAddObservable t c a r input v => ignore (AddObservable t c a r input v)
  | CallLinkIncident t c i a r v => ignore (LinkIncident t c i a r v)
  | CallCase t c => ignore (CaseDetails t c)
  | CallCases t filter => ignore (Cases t filter)
  | CallUpload input => ignore (Upload maximum input)
  | CallOpen t e a reason r => ignore (OpenEvidence t e a reason r)
  | CallVerify t e a reason r => ignore (VerifyEvidence t e a reason r)
  | CallCustody t e => ignore (Custody t e)
  | CallUpdateRetention policy => ignore (UpdateRetentionPolicy policy)
  end.

(** A call that fails leaves the others to go on. *)
Definition run_calls (calls : list desk_call) (w : World CaseDb) : World CaseDb :=
  fold_left (fun w c => (run_call c w).2) calls w.

Lemma run_calls_evolves (rel : World CaseDb -> World CaseDb -> Prop) `{!PreOrder rel} :
  (forall c, evolves rel (run_call c)) -> forall calls w, rel w (run_calls calls w).
Proof.
  intros Hc calls. induction calls as [|c calls IH]; intros w; [cbn; reflexivity|].
  etransitivity; [apply (Hc c)|apply IH].
Qed.

Lemma evolves_ignore (rel : World CaseDb -> World CaseDb -> Prop) `{!PreOrder rel} {A} (m : CaseM A) :
  evolves rel m -> evolves rel (ignore m).
Proof. intros Hm. apply evolves_bind; [done|done|]. intros; by apply evolves_ret. Qed.

(** ** The calls of the evidence service leave the cases alone *)

Lemma custody_serves t i m : evolves serves (appendEvidenceCustodyTx t i m).
Proof.
  unfold appendEvidenceCustodyTx, insert_custody, update_evidence.
  serve; first [by apply serves_execute|by apply serves_insert].
Qed.

Lemma guard_serves (b : bool) e : evolves serves (guard b e).
Proof. unfold guard. by serve. Qed.

#[local] Hint Resolve custody_serves guard_serves : evolves.

Lemma ReserveEvidence_serves item m : evolves serves (ReserveEvidence item m).
Proof.
  unfold ReserveEvidence, check_evidence_case, insert_reservation, insert_evidence, evidenceByRequestID. serve. apply serves_nested.
  serve; by apply serves_execute.
Qed.

Lemma transitionEvidence_serves t i status version etag failure m : evolves serves (transitionEvidence t i status version etag failure m).
Proof. unfold transitionEvidence, update_evidence. apply serves_nested. serve; by apply serves_execute. Qed.

Lemma RecordEvidenceVerification_serves t i valid m : evolves serves (RecordEvidenceVerification t i valid m).
Proof.
  unfold RecordEvidenceVerification, update_evidence, Evidence. apply serves_nested. serve; by apply serves_execute.
Qed.

Lemma AppendEvidenceCustody_serves t i m : evolves serves (AppendEvidenceCustody t i m).
Proof. unfold AppendEvidenceCustody. apply serves_nested. by serve. Qed.

Lemma GetRetentionPolicy_serves t : evolves serves (GetRetentionPolicy t).
Proof. unfold GetRetentionPolicy. serve. apply serves_execute. intros db. by destruct (existsb _ _). Qed.

Lemma UpdateRetentionPolicy_serves policy : evolves serves (UpdateRetentionPolicy policy).
Proof.
  unfold UpdateRetentionPolicy, update_policies. serve; apply serves_execute; intros db; [by destruct (existsb _ _)|done].
Qed.

#[local] Hint Resolve ReserveEvidence_serves transitionEvidence_serves RecordEvidenceVerification_serves
  AppendEvidenceCustody_serves GetRetentionPolicy_serves UpdateRetentionPolicy_serves : evolves.

(** ** The evidence service, along any relation its transactions respect *)

Section Along.
Context (rel : World CaseDb -> World CaseDb -> Prop) `{!PreOrder rel} (good : EvidenceMutation -> Prop).
Hypothesis Hsame : forall w w', w_repo w' = w_repo w -> rel w w'.
Hypothesis Hreserve : forall item m, good m -> evolves rel (ReserveEvidence item m).
Hypothesis Htransition : forall t i status version etag failure m, status = "AVAILABLE" \/ status = "FAILED" ->
  string_len failure <= 2000 -> good m -> evolves rel (transitionEvidence t i status version etag failure m).
Hypothesis Hrecord : forall t i valid m, good m -> evolves rel (RecordEvidenceVerification t i valid m).
Hypothesis Happend : forall t i m, good m -> evolves rel (AppendEvidenceCustody t i m).
Hypothesis Hpolicy : forall t, evolves rel (GetRetentionPolicy t).

(** The mutations of an upload of content of that size are good. *)
Hypothesis Hfields : forall m fields, evm_Metadata m = Some (list_to_map fields) ->
  Forall (fun kv => match kv.2 with VString _ => True | VInt z => 0 <= z <= maximum | _ => False end) fields -> good m.

Lemma rel_same {A} (m : CaseM A) : (forall w, w_repo (m w).2 = w_repo w) -> evolves rel m.
Proof. intros Hm w. apply Hsame, Hm. Qed.

Lemma rel_select {A} (f : CaseDb -> A) : evolves rel (select f).
Proof. apply rel_same. by intros [db rt]. Qed.

Lemma rel_Now : evolves rel Now.
Proof. by apply rel_same. Qed.

Lemma rel_Random : evolves rel Random.
Proof. by apply rel_same. Qed.

Lemma rel_lift {A} (m : outcome A) : evolves rel (lift m).
Proof. by apply rel_same. Qed.

Lemma rel_blob {A} (call : Runtime -> outcome A) : evolves rel (blob call).
Proof. by apply rel_same. Qed.

Ltac along := evolve; try apply _; try first [apply rel_select|apply rel_Now|apply rel_Random|apply rel_lift|apply rel_blob|apply Hpolicy].

Lemma upload_again_along input digest size reserved : evolves rel (upload_again input digest size reserved).
Proof.
  unfold upload_again. along.
  - intros w. apply Hsame. unfold blob. by destruct (blob_Stat _ _ _).
  - apply Htransition; [by left|done|]. eapply Hfields; [done|]. by repeat constructor.
Qed.

Lemma upload_object_along input item content : evolves rel (upload_object input item content).
Proof.
  intros w. unfold upload_object, blob. destruct (blob_Put _ _ _ _ _ _ _) as [stored|e|].
  - assert (J : evolves rel (let! finalized := FinalizeEvidence (evd_TenantID item) (evd_ID item) (bi_VersionID stored) (bi_ETag stored)
      (upload_mutation input "evidence.uploaded" "Evidence stored in immutable object storage"
         [("object_version", VString (bi_VersionID stored)); ("etag", VString (bi_ETag stored))]) in ret (finalized, false))).
    { along. apply Htransition; [by left|done|]. eapply Hfields; [done|]. by repeat constructor. }
    apply J.
  - match goal with |- context [FailEvidence ?t ?i ?f ?m w] => assert (J : evolves rel (FailEvidence t i f m)) end.
    { apply Htransition; [by right|apply truncateEvidenceFailure_length|]. eapply Hfields; [done|]. by repeat constructor. }
    specialize (J w). by destruct (FailEvidence _ _ _ _ w).
  - by apply Hsame.
Qed.

Lemma upload_content_along input filename contentType content : string_len content <= maximum ->
  evolves rel (upload_content input filename contentType content).
Proof.
  intros L. assert (0 <= string_len content) by (unfold string_len; lia). unfold upload_content.
  do 2 (apply evolves_if; [by along|]). do 3 (apply evolves_bind; [apply _|by along|]; intros ?).
  apply evolves_bind; [apply _| |intros [reserved []]; [apply upload_object_along|apply upload_again_along]].
  apply Hreserve. eapply Hfields; [done|]. repeat constructor; cbn; lia.
Qed.

Lemma Upload_along input : evolves rel (Upload maximum input).
Proof.
  unfold Upload. apply evolves_bind; [apply _|apply rel_lift|]. intros filename.
  apply evolves_bind; [apply _|apply rel_lift|]. intros contentType.
  destruct (up_Reader _); [|by along]. apply evolves_if; [by along|].
  apply evolves_bind; [apply _|apply rel_lift|]. intros content.
  destruct (Z.ltb_spec maximum (string_len content)); [by along|]. by apply upload_content_along.
Qed.

Lemma OpenEvidence_along t i a reason r : evolves rel (OpenEvidence t i a reason r).
Proof.
  unfold OpenEvidence. apply evolves_if; [by along|]. apply evolves_bind; [apply _|unfold Evidence; by along|]. intros item.
  apply evolves_if; [by along|]. apply evolves_bind; [apply _|by along|]. intros [reader info].
  apply evolves_if; [by along|]. apply evolves_bind; [apply _| |by along].
  apply Happend. eapply Hfields; [done|]. by repeat constructor.
Qed.

(** A verification records the size of the object it read. *)
Lemma VerifyEvidence_along t i a reason r :
  (forall rt k v reader info m expected actual, blob_Open rt k v = Ok (reader, info) ->
     evm_Metadata m = Some (list_to_map [("expected_sha256", VString expected); ("actual_sha256", VString actual);
       ("size", VInt (string_len (rd_bytes (br_content reader))))]) -> good m) ->
  evolves rel (VerifyEvidence t i a reason r).
Proof.
  intros Hm. unfold VerifyEvidence. apply evolves_if; [by along|].
  apply evolves_bind; [apply _|unfold Evidence; by along|]. intros item. apply evolves_if; [by along|].
  apply (evolves_bind_post rel (fun p => exists rt k v, blob_Open rt k v = Ok p)); [by along| |].
  - intros w p w' [= E <-]. by exists (w_rt w), (evd_ObjectKey item), (evd_ObjectVersion item).
  - intros [reader info] (rt & k & v & E). do 3 (apply evolves_bind; [apply _|by along|]; intros ?).
    apply evolves_bind; [apply _| |by along]. apply Hrecord. by eapply Hm.
Qed.

Lemma Custody_along t i : evolves rel (Custody t i).
Proof. unfold Custody, ListEvidenceCustody, VerifyEvidenceCustody, ListEvidenceCustody, Evidence. by along. Qed.

End Along.

Lemma run_call_serves c : evolves serves (run_call c).
Proof.
  assert (S : forall w w', w_repo w' = w_repo w -> serves w w') by apply serves_same.
  destruct c; cbn [run_call]; apply evolves_ignore; try apply _; eauto with evolves.
  - apply (Upload_along serves (fun _ => True)); eauto with evolves.
  - apply (OpenEvidence_along serves (fun _ => True)); eauto with evolves.
  - apply (VerifyEvidence_along serves (fun _ => True)); eauto with evolves.
  - by apply (Custody_along serves).
Qed.

(** ** The evidence calls keep the chains of custody, the case calls leave them alone *)

Lemma audit_keeps t a act c r m : evolves keeps (audit t a act c r m).
Proof. unfold audit. by keep. Qed.

Lemma GetIncident_keeps t i : evolves keeps (GetIncident t i).
Proof. unfold GetIncident. by keep. Qed.

Lemma CaseDetails_keeps t c : evolves keeps (CaseDetails t c).
Proof. unfold CaseDetails, ListEvidence, GetCase. by keep. Qed.

Lemma newObservable_keeps input actor now : evolves keeps (newObservable input actor now).
Proof. unfold newObservable. by keep. Qed.

Lemma CreateCase_keeps item : evolves keeps (CreateCase item).
Proof.
  unfold CreateCase, caseByRequestID. apply evolves_if; [by keep|]. apply evolves_bind; [apply _| |intros [c|]; by keep].
  apply keeps_nested. unfold guard, insert_case. keep; first [apply syncCaseIncidents_keeps|by apply keeps_execute].
Qed.

#[local] Hint Resolve audit_keeps GetIncident_keeps CaseDetails_keeps newObservable_keeps CreateCase_keeps : evolves.

Lemma Create_keeps t a input : evolves keeps (Create t a input).
Proof.
  unfold Create, raise_severity, collect_observable, newHistory. apply evolves_if; [by keep|].
  do 1 (apply evolves_bind; [apply _|by keep|]; intros ?). apply evolves_if; [by keep|].
  do 4 (apply evolves_bind; [apply _|by keep|]; intros ?). apply evolves_bind; [apply _|by keep|]. intros [c []]; by keep.
Qed.

Lemma case_calls_keep t c a :
  (forall patch, evolves keeps (Update t c a patch)) /\ (forall body r v, evolves keeps (AddComment t c a body r v)) /\
  (forall r input, evolves keeps (AddTask t c a r input)) /\ (forall k r patch, evolves keeps (UpdateTask t c k a r patch)) /\
  (forall r input v, evolves keeps (AddParticipant t c a r input v)) /\
  (forall r input v, evolves keeps (AddObservable t c a r input v)) /\
  (forall i r v, evolves keeps (LinkIncident t c i a r v)).
Proof.
  split_and!; intros.
  - unfold Update. keep. apply MutateCase_keeps, apply_patch_changes.
  - unfold AddComment. keep. apply MutateCase_keeps, add_comment_changes.
  - unfold AddTask. destruct (_ || _) eqn:E; [by keep|]. rewrite !orb_false_iff, bool_decide_eq_false in E.
    keep. apply MutateCase_keeps, add_task_changes. cbn in *. naive_solver.
  - unfold UpdateTask. keep. apply MutateCase_keeps, update_task_changes.
  - unfold AddParticipant. keep. apply MutateCase_keeps, add_participant_changes.
  - unfold AddObservable. keep. apply MutateCase_keeps, add_observable_changes.
  - unfold LinkIncident. keep. apply MutateCase_keeps, link_incident_changes.
Qed.

(** Uploads and objects are smaller than the numbers a float64 holds exactly. *)
Definition sizes_exact : Prop :=
  maximum <= 2 ^ 53 /\
  forall rt k v r i, blob_Open rt k v = Ok (r, i) -> string_len (rd_bytes (br_content r)) <= 2 ^ 53.

Lemma run_call_keeps `{!ExactColumn} c : sizes_exact -> evolves keeps (run_call c).
Proof.
  intros [Hmax Hobj]. assert (S : forall w w', w_repo w' = w_repo w -> keeps w w') by apply keeps_same.
  set (good := fun m : EvidenceMutation => durable_column (evm_Metadata m)).
  assert (F : forall m fields, evm_Metadata m = Some (list_to_map fields) ->
    Forall (fun kv => match kv.2 with VString _ => True | VInt z => 0 <= z <= maximum | _ => False end) fields -> good m).
  { intros m fields E Fs. unfold good. rewrite E. apply stored_plain. eapply Forall_impl; [exact Fs|].
    intros [k []]; cbn; try done. lia. }
  destruct c; cbn [run_call]; apply evolves_ignore; try apply _; eauto using Create_keeps with evolves;
    try by apply case_calls_keep.
  - apply (Upload_along keeps good); eauto with evolves.
    + intros. by apply ReserveEvidence_keeps.
    + intros. by apply transitionEvidence_keeps.
  - apply (OpenEvidence_along keeps good); eauto with evolves. intros. by apply AppendEvidenceCustody_keeps.
  - apply (VerifyEvidence_along keeps good); eauto with evolves.
    + intros. by apply RecordEvidenceVerification_keeps.
    + intros rt k v reader info m expected actual Eo Em. unfold good. rewrite Em. apply stored_plain.
      repeat constructor; cbn; try done. specialize (Hobj _ _ _ _ _ Eo). unfold string_len in *. lia.
  - by apply (Custody_along keeps).
Qed.

End Desk.
