(* ===== verification/DeskProps.v ===== *)
(** * What the investigation desk guarantees *)

From S2P Require Import Prelude GoLang GoFormat Core HashChain MemoryStore MemoryFacts Sql AuditTable.
From S2P Require Import CaseModel CaseDb EvidenceDb EvidenceService CaseService CaseRules CaseTables EvidenceTables Desk.

(** ** Following one case through the steps *)

(** What all later states of a case have in common with it. *)
Record follows (c c' : Case) : Prop := {
  fo_key : case_key c' = case_key c /\ case_request c' = case_request c;
  fo_version : cs_Version c <= cs_Version c';
  fo_history : cs_History c `prefix_of` cs_History c';
  fo_comments : cs_Comments c `prefix_of` cs_Comments c';
  fo_closed : cs_Status c = CaseStatusClosed -> cs_Status c' = CaseStatusClosed
}.

#[export] Instance follows_preorder : PreOrder follows.
Proof.
  split.
  - intros c. by constructor.
  - intros a b c [K1 V1 H1 C1 S1] [K2 V2 H2 C2 S2]. constructor; [destruct K1, K2; split; congruence|lia|by etrans|by etrans|auto].
Qed.

Lemma advances_follows c c' : advances c c' -> cs_Version c' = cs_Version c + 1 -> cs_RequestID c' = cs_RequestID c -> follows c c'.
Proof.
  intros [(I1 & I2 & _) S _ Hh Hc _ _ _ _] V R. constructor; try done.
  - unfold case_key, case_request. by rewrite I1, I2, R.
  - lia.
  - intros E. rewrite E in S. destruct S as [S|S]; [done|by apply not_elem_of_nil in S].
Qed.

Lemma case_followed l l' : rtc cases_step l l' -> forall c, c ∈ l -> exists c', c' ∈ l' /\ follows c c'.
Proof.
  intros R. induction R as [l|l l1 l2 S _ IH]; intros c Hc; [by exists c|].
  assert (exists c1, c1 ∈ l1 /\ follows c c1) as (c1 & H1 & F1).
  { destruct S as [rows x _ _ _ _ _ _|b x x' a A V Rq].
    - exists c. split; [set_solver|done].
    - apply elem_of_app in Hc as [Hc|[->|Hc]%elem_of_cons].
      + exists c. split; [set_solver|done].
      + exists x'. split; [set_solver|by apply advances_follows].
      + exists c. split; [set_solver|done]. }
  destruct (IH c1 H1) as (c2 & H2 & F2). exists c2. split; [done|by etrans].
Qed.

Lemma new_case_db_wf `{JsonColumn} incidents : cases_wf (new_case_db incidents) /\ ev_wf (new_case_db incidents).
Proof.
  assert (E : forall A (x : A), x ∈ [] -> False) by (intros A x; apply not_elem_of_nil).
  split; [|constructor; [constructor|..]]; [constructor|..]; cbn; try apply NoDup_nil_2; intros; exfalso; eauto.
Qed.

Section Guarantees.
Context `{JsonColumn} `{BlobStore} (maximum : Z).

(** ** Lemmas *)

Lemma first_case (db : CaseDb) c : cases_wf db -> c ∈ cdb_cases db ->
  first_row (is_case (cs_TenantID c) (cs_ID c)) (cdb_cases db) = Some c /\
  first_row (is_case_request (cs_TenantID c) (cs_RequestID c)) (cdb_cases db) = Some c.
Proof.
  intros W Hc.
  assert (J : forall (P : Case -> bool), P c = true -> (forall x, x ∈ cdb_cases db -> P x = true -> x = c) ->
    first_row P (cdb_cases db) = Some c).
  { intros P Pc Hu. unfold first_row. destruct (where_rows P (cdb_cases db)) as [|x l] eqn:F.
    - assert (Hx : c ∈ where_rows P (cdb_cases db)) by by apply elem_of_where. rewrite F in Hx. by apply not_elem_of_nil in Hx.
    - assert (Hx : x ∈ where_rows P (cdb_cases db)) by (rewrite F; left). apply elem_of_where in Hx as [Px Hx]. cbn. f_equal. auto. }
  split; apply J.
  - by apply is_case_spec.
  - intros x Hx Kx%is_case_spec. by apply (NoDup_unique case_key (cdb_cases db) (cw_key _ W)).
  - by apply is_case_request_spec.
  - intros x Hx Kx%is_case_request_spec. by apply (NoDup_unique case_request (cdb_cases db) (cw_request _ W)).
Qed.

(** A stale change is refused and leaves nothing behind. *)
Lemma MutateCase_stale t i v f w c : first_row (is_case t i) (cdb_cases (w_repo w)) = Some c -> 0 < v -> v <> cs_Version c ->
  exists rt, MutateCase t i v f w = (Err ErrVersionConflict, mkWorld (w_repo w) rt).
Proof.
  intros F V N. exists (w_rt w). destruct w as [db rt]. unfold MutateCase, transaction, select, on_repo, gets, bind, guard in *. cbn in *.
  rewrite F. cbn. assert (negb ((0 <? v) && (v != cs_Version c)) = false) as ->; [|done].
  rewrite negb_false_iff, andb_true_iff, Z.ltb_lt, negb_true_iff, bool_decide_eq_false. done.
Qed.

(** Statements that only read. *)
Definition untouched (w w' : World CaseDb) : Prop := w_repo w' = w_repo w.

#[local] Instance untouched_preorder : PreOrder untouched.
Proof. split; unfold untouched; [done|]. intros w1 w2 w3 -> ->. done. Qed.

Lemma untouched_select {A} (f : CaseDb -> A) : evolves untouched (select f).
Proof. by intros [db rt]. Qed.

Lemma untouched_Now : evolves untouched Now.
Proof. by intros w. Qed.

Lemma untouched_Random : evolves untouched Random.
Proof. by intros w. Qed.

#[local] Hint Resolve untouched_select untouched_Now untouched_Random : evolves.

Ltac untouch := evolve; try apply _; eauto with evolves.

Lemma untouched_run {A} (m : CaseM A) w r w' : evolves untouched m -> m w = (r, w') -> w_repo w' = w_repo w.
Proof. intros S E. specialize (S w). by rewrite E in S. Qed.

(** The request identity is taken: nothing is inserted. *)
Lemma CreateCase_taken item w r w' c : cases_wf (w_repo w) -> c ∈ cdb_cases (w_repo w) ->
  case_request c = (cs_TenantID item, cs_RequestID item) -> CreateCase item w = (Ok r, w') -> r = (c, true) /\ w_repo w' = w_repo w.
Proof.
  intros W Hc K. unfold CreateCase. destruct (_ || _); [done|]. intros (created & w1 & E1 & E2)%bind_Ok.
  destruct (first_case _ c W Hc) as [_ F]. unfold case_request in K. injection K as K1 K2. rewrite K1, K2 in F.
  unfold transaction in E1. destruct (bind _ _ w) as [[x| |] w2] eqn:E; [|done..]. injection E1 as -> ->.
  apply bind_Ok in E as (u & w3 & [_ ->]%wrapping_Ok%guard_Ok & E). apply bind_Ok in E as (taken & w4 & [-> ->]%select_Ok & E).
  destruct (existsb _ (cdb_cases _)) eqn:Tk.
  2: { apply first_row_Some in F as [F _]. by rewrite (existsb_false _ _ Tk c Hc) in F. }
  apply ret_Ok in E as [-> ->]. apply bind_Ok in E2 as (e & w5 & E & [-> ->]%ret_Ok).
  unfold caseByRequestID in E. apply bind_Ok in E as (row & w6 & [-> ->]%select_Ok & E). rewrite F in E.
  by apply ret_Ok in E as [-> ->].
Qed.

(** A call that leaves the database alone, and what its answer satisfies. *)
Definition answers {A} (P : A -> Prop) (w : World CaseDb) (run : outcome A * World CaseDb) : Prop :=
  w_repo run.2 = w_repo w /\ forall a, run.1 = Ok a -> P a.

Lemma answers_bind {A B} (P : B -> Prop) (m : CaseM A) (k : A -> CaseM B) w :
  w_repo (m w).2 = w_repo w -> (forall a w1, m w = (Ok a, w1) -> answers P w1 (k a w1)) -> answers P w (bind m k w).
Proof.
  intros E K. unfold bind. destruct (m w) as [[a|e|] w1] eqn:Em; cbn in E; [|by split|by split].
  destruct (K a w1 eq_refl) as [K1 K2]. split; [by rewrite K1|done].
Qed.

(** A call that fails and leaves the items alone. *)
Definition dead {A} (w : World CaseDb) (run : outcome A * World CaseDb) : Prop :=
  is_ok run.1 = false /\ cdb_evidence (w_repo run.2) = cdb_evidence (w_repo w).

Lemma dead_bind {A B} (m : CaseM A) (k : A -> CaseM B) w :
  cdb_evidence (w_repo (m w).2) = cdb_evidence (w_repo w) ->
  (forall a w1, m w = (Ok a, w1) -> dead w1 (k a w1)) -> dead w (bind m k w).
Proof.
  intros E K. unfold bind. destruct (m w) as [[a|e|] w1] eqn:Em; cbn in E; [|done..].
  destruct (K a w1 eq_refl) as [K1 K2]. split; [done|]. by rewrite K2.
Qed.

Lemma dead_fail {A} e (w : World CaseDb) : dead w (@fail _ A e w).
Proof. done. Qed.

Lemma first_request db e t r : ev_wf db -> e ∈ cdb_evidence db -> evidence_request e = (t, r) ->
  first_row (is_evidence_request t r) (cdb_evidence db) = Some e.
Proof.
  intros W He K. assert (Hx : e ∈ where_rows (is_evidence_request t r) (cdb_evidence db)).
  { apply elem_of_where. split; [by apply is_evidence_request_spec|done]. }
  unfold first_row. destruct (where_rows _ _) as [|x l] eqn:F; [by apply not_elem_of_nil in Hx|]. cbn. f_equal.
  assert (Hy : x ∈ where_rows (is_evidence_request t r) (cdb_evidence db)) by (rewrite F; left).
  apply elem_of_where in Hy as [Kx%is_evidence_request_spec Hy].
  apply (NoDup_unique evidence_request (cdb_evidence db) (ec_request _ (ew_chains _ W))); [done..|congruence].
Qed.

(** The request identity is taken: nothing is inserted. *)
Lemma reservation_taken item m w :
  existsb (is_evidence_request (evd_TenantID item) (evd_RequestID item)) (cdb_evidence (w_repo w)) = true ->
  answers (fun x => x = None) w (insert_reservation item m w).
Proof.
  intros Tk. unfold insert_reservation, transaction. destruct (bind _ _ w) as [[x| |] w2] eqn:E; [|by split|by split].
  apply bind_Ok in E as (now & w3 & En%Now_Ok & E). apply bind_Ok in E as (u & w4 & [_ ->]%wrapping_Ok%guard_Ok & E).
  apply bind_Ok in E as (taken & w5 & [-> ->]%select_Ok & E). rewrite En, Tk in E. apply ret_Ok in E as [-> ->].
  split; [by rewrite <- En|]. by intros x [= <-].
Qed.

Lemma ReserveEvidence_taken item m w e : ev_wf (w_repo w) -> e ∈ cdb_evidence (w_repo w) ->
  evidence_request e = (evd_TenantID item, evd_RequestID item) ->
  answers (fun r => r = (e, false)) w (ReserveEvidence item m w).
Proof.
  intros W He K. assert (F := first_request _ _ _ _ W He K). unfold ReserveEvidence. destruct (evidence_incomplete _); [done|].
  assert (Ec : w_repo (check_evidence_case item w).2 = w_repo w).
  { eapply untouched_run; [|apply surjective_pairing]. unfold check_evidence_case, guard. by untouch. }
  apply answers_bind; [done|]. intros u w1 E1. rewrite E1 in Ec. cbn in Ec. rewrite <- Ec in F.
  assert (Tk : existsb (is_evidence_request (evd_TenantID item) (evd_RequestID item)) (cdb_evidence (w_repo w1)) = true).
  { apply existsb_exists. exists e. apply first_row_Some in F as [F He']. split; [by apply list_elem_of_In|done]. }
  destruct (reservation_taken item m w1 Tk) as [E2 HN]. apply answers_bind; [done|]. intros x w2 Ex. rewrite Ex in E2, HN.
  cbn in E2, HN. rewrite (HN x eq_refl). rewrite <- E2 in F. unfold evidenceByRequestID.
  apply answers_bind; [|intros y w3 Ey].
  - eapply untouched_run; [|apply surjective_pairing]. by untouch.
  - apply bind_Ok in Ey as (row & w4 & [-> ->]%select_Ok & Ey). rewrite F in Ey. apply ret_Ok in Ey as [-> ->].
    split; [done|]. by intros z [= <-].
Qed.

(** A repetition of a pending upload whose object is missing. *)
Lemma upload_again_missing input digest size e w : evd_Status e = "PENDING" ->
  blob_Stat (w_rt w) (evd_ObjectKey e) (evd_ObjectVersion e) = Err ErrBlobNotFound -> dead w (upload_again input digest size e w).
Proof.
  intros P M. unfold upload_again. destruct (_ || _); [done|]. rewrite P.
  change ("PENDING" == "AVAILABLE") with false. change ("PENDING" != "PENDING") with false. cbn match.
  apply dead_bind; unfold blob; rewrite M; done.
Qed.

Lemma GetRetentionPolicy_items t w : cdb_evidence (w_repo (GetRetentionPolicy t w).2) = cdb_evidence (w_repo w).
Proof.
  unfold GetRetentionPolicy, execute, select, on_repo, gets, bind, ret. cbn. destruct w as [db rt]. cbn.
  destruct (existsb _ _); cbn; by destruct (first_row _ _).
Qed.

Lemma upload_content_missing input filename contentType content w e : ev_wf (w_repo w) -> e ∈ cdb_evidence (w_repo w) ->
  evd_Status e = "PENDING" -> evidence_request e = (up_TenantID input, up_RequestID input) ->
  (forall rt, blob_Stat rt (evd_ObjectKey e) (evd_ObjectVersion e) = Err ErrBlobNotFound) ->
  dead w (upload_content input filename contentType content w).
Proof.
  intros W He P K M. unfold upload_content. do 2 (destruct (_ && _); [apply dead_fail|]).
  destruct (GetRetentionPolicy_keeps (up_TenantID input) w W) as (W1 & _ & _).
  assert (E := GetRetentionPolicy_items (up_TenantID input) w).
  apply dead_bind; [done|]. intros policy w1 E1. rewrite E1 in W1, E. cbn in W1, E. rewrite <- E in He.
  apply dead_bind; [done|]. intros now w2 E2%Now_Ok. apply dead_bind; [done|]. intros random w3 E3%Random_Ok.
  rewrite <- E2, <- E3 in W1, He. cbn zeta.
  match goal with |- dead _ (bind (ReserveEvidence ?i ?m) _ _) => destruct (ReserveEvidence_taken i m w3 e W1 He K) as [E4 A] end.
  apply dead_bind; [by rewrite E4|]. intros [r b] w4 E5. rewrite E5 in A. cbn in A. injection (A (r, b) eq_refl) as -> ->.
  cbn. by apply upload_again_missing.
Qed.

Lemma serves_followed {A} (m : CaseM A) w c : evolves serves m -> cases_wf (w_repo w) -> c ∈ cdb_cases (w_repo w) ->
  cases_wf (w_repo (m w).2) /\ exists c', c' ∈ cdb_cases (w_repo (m w).2) /\ follows c c'.
Proof. intros S W Hc. destruct (S w W) as [W' R]. split; [done|]. by eapply case_followed. Qed.

(** ** Properties *)

(** C21. Whatever calls the services serve, in any order and from any callers, the
    table of cases moves along the specification: cases join open, and one
    changes at a time, by one version, along the allowed transitions, with its
    history and comments only growing; a closed case stays closed.  The
    invariant of the tables holds throughout: people, observables and incidents
    of a case are listed once, closed cases have a summary and a closing time,
    and the incident links are those of the cases. *)
Theorem cases_follow_lifecycle (calls : list desk_call) (w : World CaseDb) (Hwf : cases_wf (w_repo w)) :
  let w' := run_calls maximum calls w in
  cases_wf (w_repo w') /\ rtc cases_step (cdb_cases (w_repo w)) (cdb_cases (w_repo w')) /\
  forall c, c ∈ cdb_cases (w_repo w) -> exists c', c' ∈ cdb_cases (w_repo w') /\ follows c c'.
Proof.
  intros w'. destruct (run_calls_evolves maximum serves (run_call_serves maximum) calls w Hwf) as [W R].
  split_and!; [done..|]. by apply case_followed.
Qed.

(** C22. After any calls every item of evidence has a chain of custody that
    [VerifyEvidenceCustody] accepts; entries are only appended to the chains, and
    the items' content, links and retention never change. *)
Theorem custody_always_verifies `{!ExactColumn} (calls : list desk_call) (w : World CaseDb)
    (Hwf : ev_wf (w_repo w)) (Hsizes : sizes_exact maximum) :
  let w' := run_calls maximum calls w in
  (forall e, e ∈ cdb_evidence (w_repo w') -> VerifyEvidenceCustody (evd_TenantID e) (evd_ID e) w' = (Ok true, w')) /\
  cdb_custody (w_repo w) `prefix_of` cdb_custody (w_repo w') /\
  rtc evidence_step (cdb_evidence (w_repo w)) (cdb_evidence (w_repo w')).
Proof.
  intros w'.
  destruct (run_calls_evolves maximum keeps (fun c => run_call_keeps maximum c Hsizes) calls w Hwf) as (W & R & P).
  split_and!; [|done..]. intros e He. by apply verify_custody_true.
Qed.

(** Creating a case again with the request identity of an existing case
    answers that case, whatever else the second request asks for, and creates
    nothing: neither cases nor links nor audit entries. *)
Theorem case_creation_idempotent (w w' : World CaseDb) (tenantID actor : string) (input : CreateInput) (c result : Case)
    (duplicate : bool) (Hwf : cases_wf (w_repo w)) (Hc : c ∈ cdb_cases (w_repo w)) (Hid : TrimSpace (cs_ID c) = cs_ID c)
    (Hrequest : case_request c = (TrimSpace tenantID, TrimSpace (cin_RequestID input)))
    (Hrun : Create tenantID actor input w = (Ok (result, duplicate), w')) :
  duplicate = true /\ case_key result = case_key c /\ cdb_cases (w_repo w') = cdb_cases (w_repo w) /\
  cdb_links (w_repo w') = cdb_links (w_repo w) /\ cdb_audit (w_repo w') = cdb_audit (w_repo w).
Proof.
  unfold Create in Hrun. destruct (_ || _); [done|]. apply bind_Ok in Hrun as (severity & w1 & E1 & E).
  apply untouched_run in E1; [|unfold raise_severity, GetIncident; by untouch]. destruct (negb _); [done|].
  apply bind_Ok in E as (now & w2 & E2%Now_Ok & E). apply bind_Ok in E as (obs & w3 & E3 & E).
  apply untouched_run in E3; [|unfold collect_observable, newObservable; by untouch].
  apply bind_Ok in E as (random & w4 & E4%Random_Ok & E). apply bind_Ok in E as (h & w5 & E5 & E).
  apply untouched_run in E5; [|unfold newHistory; by untouch]. apply bind_Ok in E as ([created dup] & w6 & E6 & E).
  assert (E0 : w_repo w5 = w_repo w) by congruence. rewrite <- E0 in Hwf, Hc.
  eapply CreateCase_taken in E6; [|exact Hwf|exact Hc|exact Hrequest]. destruct E6 as [Ec E7]. injection Ec as Ec Ed. subst created dup.
  apply bind_Ok in E as (existing & w7 & E8 & [[= -> ->] ->]%ret_Ok).
  assert (E9 := E8). apply untouched_run in E9; [|unfold CaseDetails, GetCase, ListEvidence; by untouch].
  rewrite E9, E7, E0. split_and!; try done. unfold CaseDetails, GetCase in E8. rewrite Hid in E8.
  apply bind_Ok in E8 as (item & w8 & E8 & E10). apply bind_Ok in E8 as (row & w9 & [-> ->]%select_Ok & E8).
  rewrite E7 in E8. unfold case_request in Hrequest. injection Hrequest as Ht _. rewrite <- Ht in E8.
  destruct (first_case _ c Hwf Hc) as [F _]. rewrite F in E8. apply ret_Ok in E8 as [-> ->].
  apply bind_Ok in E10 as (ev & w10 & _ & [-> _]%ret_Ok). done.
Qed.

(** C23. Optimistic locking: once an update of a case that names the version it
    is based on has succeeded, every other update based on that version is
    refused with a version conflict and changes nothing, whatever happened in
    between. *)
Theorem stale_case_update_refused (calls : list desk_call) (w w1 : World CaseDb) (tenantID caseID actor1 actor2 : string)
    (patch1 patch2 : Patch) (updated : Case) (Hwf : cases_wf (w_repo w))
    (Hversion : 0 < cpa_Version patch1) (Hsame : cpa_Version patch2 = cpa_Version patch1)
    (Hfirst : Update tenantID caseID actor1 patch1 w = (Ok updated, w1)) :
  let w2 := run_calls maximum calls w1 in
  exists rt, Update tenantID caseID actor2 patch2 w2 = (Err ErrVersionConflict, mkWorld (w_repo w2) rt).
Proof.
  assert (W1 : cases_wf (w_repo w1)) by (destruct (Update_serves tenantID caseID actor1 patch1 w Hwf) as [W1 _]; by rewrite Hfirst in W1).
  unfold Update in Hfirst. apply bind_Ok in Hfirst as (now & wa & Ea%Now_Ok & Hfirst).
  apply bind_Ok in Hfirst as (row & wb & Eb & Hfirst). rewrite <- Ea in Hwf.
  assert (Wb : cases_wf (w_repo wb)).
  { destruct (MutateCase_serves tenantID caseID (cpa_Version patch1) _ (apply_patch_changes actor1 patch1 now) wa Hwf) as [Wb _].
    by rewrite Eb in Wb. }
  apply MutateCase_Ok in Eb as (cur & item & now' & b & a & w3 & w4 & Hv & _ & _ & Kr & Er & _ & _ & Ew & _);
    [|apply apply_patch_changes|apply Hwf]. specialize (Hv Hversion).
  assert (Hrow : row ∈ cdb_cases (w_repo wb)) by (rewrite Ew; cbn; set_solver).
  match type of Hfirst with ?m wb = _ => assert (S : evolves serves m) by (by serve) end.
  destruct (serves_followed _ wb row S Wb Hrow) as (_ & c1 & H1 & F1). rewrite Hfirst in H1. cbn in H1.
  destruct (run_calls_evolves maximum serves (run_call_serves maximum) calls w1 W1) as [W2 R].
  destruct (case_followed _ _ R c1 H1) as (c2 & H2 & F2). intros w2. assert (F : follows row c2) by (by etrans).
  assert (K2 : case_key c2 = (tenantID, caseID)) by (rewrite (proj1 (fo_key _ _ F)); done).
  destruct (first_case _ c2 W2 H2) as [F3 _]. unfold case_key in K2. injection K2 as K2 K3. rewrite K2, K3 in F3.
  assert (V : cs_Version row = cs_Version cur + 1) by (by rewrite Er). assert (V2 := fo_version _ _ F).
  destruct (MutateCase_stale tenantID caseID (cpa_Version patch2)
    (apply_patch actor2 patch2 (rt_clock (w_rt w2) (rt_ticks (w_rt w2)))) (Now w2).2 c2) as [rt E]; [exact F3|lia|lia|].
  exists rt. unfold Update. by rewrite (bind_run Now _ w2 _ (Now w2).2 eq_refl), (bind_err _ _ _ _ _ E).
Qed.

(** C24. A verification of evidence is exact and leaves its trace: it answers
    [Valid] if and only if the object read has the size and the SHA-256 digest
    recorded at the upload; the chain of custody of the item gets one entry that
    says which, by whom, and only a success is noted as the time of the last
    verification. *)
Theorem evidence_verification_exact (w w' : World CaseDb) (tenantID evidenceID actor reason requestID : string)
    (v : EvidenceVerification) (Hwf : ev_wf (w_repo w))
    (Hrun : VerifyEvidence tenantID evidenceID actor reason requestID w = (Ok v, w')) :
  exists item reader info entry item' now,
    item ∈ cdb_evidence (w_repo w) /\ evidence_key item = (tenantID, evidenceID) /\ evd_Status item = "AVAILABLE" /\
    blob_Open (w_rt w) (evd_ObjectKey item) (evd_ObjectVersion item) = Ok (reader, info) /\
    (evv_Valid v = true <-> string_len (rd_bytes (br_content reader)) = evd_Size item /\
                            sha256_hex (rd_bytes (br_content reader)) = evd_SHA256 item) /\
    cdb_custody (w_repo w') = cdb_custody (w_repo w) ++ [custody_row entry] /\
    custody_key entry = (tenantID, evidenceID) /\ evc_Actor entry = TrimSpace actor /\
    evc_Action entry = (if evv_Valid v then "evidence.verified" else "evidence.verification_failed") /\
    item' ∈ cdb_evidence (w_repo w') /\ evidence_key item' = (tenantID, evidenceID) /\
    evd_VerifiedAt item' = (if evv_Valid v then Some now else evd_VerifiedAt item).
Proof.
  unfold VerifyEvidence in Hrun. case_step Hrun; [done|]. apply bind_Ok in Hrun as (item & w1 & E1 & E).
  unfold Evidence in E1. apply bind_Ok in E1 as (row & w2 & [-> ->]%select_Ok & E1).
  destruct (first_row _ _) as [e|] eqn:F; [|done]. apply ret_Ok in E1 as [-> ->]. case_step E; [done|].
  rewrite negb_false_iff, bool_decide_eq_true in K0. apply bind_Ok in E as ([reader info] & w2 & Eo & E).
  injection Eo as Eo <-. apply bind_Ok in E as (u & w3 & E2 & E). apply bind_Ok in E as (u2 & w4 & E3 & E).
  destruct (rd_error _); [done|]. destruct (br_close _); [done|]. apply ret_Ok in E2 as [_ ->]. apply ret_Ok in E3 as [_ ->].
  apply bind_Ok in E as (at_ & w5 & E4%Now_Ok & E). apply bind_Ok in E as (x & w6 & E5 & [-> ->]%ret_Ok).
  rewrite <- E4 in Hwf, F.
  destruct (RecordEvidenceVerification_Ok _ _ _ _ _ _ _ e Hwf F E5) as (c & now & e' & C & Kc & Ca & Cc & He' & Ke' & V).
  rewrite E4 in *. destruct (first_row_Some _ _ _ F) as [Ke%is_evidence_spec He].
  exists e, reader, info, c, e', now. split_and!; try done.
  - cbn. by rewrite andb_true_iff, Z.eqb_eq, bool_decide_eq_true.
  - rewrite Cc. cbn. by destruct (_ && _).
Qed.

(** C40. An upload that was interrupted between its reservation and the object
    store is lost: as long as the store has no such object, every repetition of
    the request fails, and the item stays pending. *)
Theorem interrupted_upload_stays_pending (w w' : World CaseDb) (input : UploadInput) (e : EvidenceItem)
    (result : outcome (EvidenceItem * bool)) (Hwf : ev_wf (w_repo w)) (He : e ∈ cdb_evidence (w_repo w))
    (Hpending : evd_Status e = "PENDING")
    (Hrequest : evidence_request e = (TrimSpace (up_TenantID input), TrimSpace (up_RequestID input)))
    (Hmissing : forall rt, blob_Stat rt (evd_ObjectKey e) (evd_ObjectVersion e) = Err ErrBlobNotFound)
    (Hrun : Upload maximum input w = (result, w')) :
  is_ok result = false /\ cdb_evidence (w_repo w') = cdb_evidence (w_repo w).
Proof.
  assert (D : dead w (Upload maximum input w)); [|by rewrite Hrun in D]. unfold Upload.
  apply dead_bind; [done|]. intros filename w1 [= E1 <-]. apply dead_bind; [done|]. intros contentType w1 [= E2 <-].
  destruct (up_Reader _); [|apply dead_fail]. destruct (_ || _); [apply dead_fail|].
  apply dead_bind; [done|]. intros content w1 [= E3 <-]. destruct (maximum <? _); [apply dead_fail|].
  apply upload_content_missing with e; try done.
Qed.

End Guarantees.
