(* ===== verification/DeskExamples.v ===== *)
(** * The investigation desk at work

    Concrete runs of the desk that the theorems of DeskProps.v apply to. *)

From S2P Require Import Prelude GoLang GoFormat Core HashChain MemoryStore MemoryFacts Sql AuditTable.
From S2P Require Import CaseModel CaseDb EvidenceDb EvidenceService CaseService CaseRules CaseTables EvidenceTables Desk DeskProps.

Definition exact_column : JsonColumn :=
  {| stored := fun o => o; stored_idemp := fun o => eq_refl; stored_empty := eq_refl; stored_nonempty := fun o E => E |}.
#[local] Existing Instance exact_column.

#[local] Instance exact_column_exact : ExactColumn.
Proof. intros fields _. done. Qed.

(** An object store that holds one object, whatever the key; an object without
    a version is not there. *)
Definition one_object : BlobStore := {|
  blob_Bucket := "evidence";
  blob_Put _ key content size _ metadata _ := Ok {| bi_Bucket := "evidence"; bi_Key := key; bi_VersionID := "v1"; bi_ETag := "etag"; bi_Size := size; bi_Metadata := metadata |};
  blob_Stat _ key version := if version == "" then Err ErrBlobNotFound
    else Ok {| bi_Bucket := "evidence"; bi_Key := key; bi_VersionID := version; bi_ETag := "etag"; bi_Size := 7; bi_Metadata := [] |};
  blob_Open _ key version := Ok ({| br_content := {| rd_bytes := "the log"; rd_error := None |}; br_close := None |},
    {| bi_Bucket := "evidence"; bi_Key := key; bi_VersionID := version; bi_ETag := "etag"; bi_Size := 7; bi_Metadata := [] |})
|}.
#[local] Existing Instance one_object.

Lemma one_object_sizes : sizes_exact DefaultMaximumBytes.
Proof. split; [done|]. by intros rt k v r i [= <- <-]. Qed.

Definition empty_world : World CaseDb := mkWorld (new_case_db []) steady_runtime.

Definition a_case : CreateInput := zero_CreateInput {{ cin_Title := "Phishing wave"; cin_Severity := SeverityHigh; cin_RequestID := "req-1" }}.

Definition a_repeat : CreateInput := a_case {{ cin_Title := "Something else" }}.

Abbreviation opened := (run_calls DefaultMaximumBytes [CallCreate "acme" "ana" a_case] empty_world).
Definition case_id : string := match cdb_cases (w_repo opened) with c :: _ => cs_ID c | [] => "" end.

Definition an_upload (caseID : string) : UploadInput := {|
  up_TenantID := "acme"; up_RequestID := "up-1"; up_Actor := "ana"; up_Filename := "proxy log.txt"; up_ContentType := "";
  up_Description := ""; up_CaseID := caseID; up_IncidentID := ""; up_AlertID := ""; up_EventID := ""; up_ExpectedSHA256 := "";
  up_Reader := Some {| rd_bytes := "the log"; rd_error := None |} |}.

Definition a_move (status summary : string) (version : Z) : Patch :=
  zero_Patch {{ cpa_Status := status; cpa_ClosureSummary := summary; cpa_Version := version; cpa_RequestID := "req-2" }}.

(** A case is opened, gets evidence, is investigated and closed; one move is
    made twice. *)
Definition a_day : list desk_call := [
  CallCreate "acme" "ana" a_case; CallUpload (an_upload case_id); CallUpdate "acme" case_id "ana" (a_move "INVESTIGATION" "" 1);
  CallUpdate "acme" case_id "bob" (a_move "INVESTIGATION" "" 1); CallUpdate "acme" case_id "ana" (a_move "CLOSED" "Contained" 2)].

Abbreviation after_the_day := (run_calls DefaultMaximumBytes a_day empty_world).

Definition sketch (w : World CaseDb) : list (string * Z * list string) * list (string * string) * list string :=
  (List.map (fun c => (cs_Status c, cs_Version c, List.map ch_Action (cs_History c))) (cdb_cases (w_repo w)),
   List.map (fun e => (evd_Filename e, evd_Status e)) (cdb_evidence (w_repo w)),
   List.map evc_Action (cdb_custody (w_repo w))).

Example a_day_sketch : sketch after_the_day =
  ([("CLOSED", 3, ["case.created"; "case.status_changed"; "case.status_changed"])],
   [("proxy_log.txt", "AVAILABLE")], ["evidence.reserved"; "evidence.uploaded"]).
Proof. vm_compute. reflexivity. Qed.

(** ** Well-formed worlds *)

Lemma run_fact {A} (m : CaseM A) w : is_ok (m w).1 = true -> exists a w', m w = (Ok a, w').
Proof. destruct (m w) as [[a|e|] w']; cbn; [|congruence..]. eauto. Qed.

Lemma run_pair {A B} (m : CaseM (A * B)) w : is_ok (m w).1 = true -> exists a b w', m w = (Ok (a, b), w').
Proof. intros ([a b] & w' & E)%run_fact. eauto. Qed.

Lemma empty_cases_wf : cases_wf (w_repo empty_world).
Proof. apply (new_case_db_wf []). Qed.

Lemma empty_ev_wf : ev_wf (w_repo empty_world).
Proof. apply (new_case_db_wf []). Qed.

Lemma calls_cases_wf calls : cases_wf (w_repo (run_calls DefaultMaximumBytes calls empty_world)).
Proof.
  exact (proj1 (run_calls_evolves DefaultMaximumBytes serves (run_call_serves DefaultMaximumBytes) calls empty_world empty_cases_wf)).
Qed.

Lemma calls_ev_wf calls : ev_wf (w_repo (run_calls DefaultMaximumBytes calls empty_world)).
Proof.
  exact (proj1 (run_calls_evolves DefaultMaximumBytes keeps (fun c => run_call_keeps DefaultMaximumBytes c one_object_sizes)
    calls empty_world empty_ev_wf)).
Qed.

Definition the_case : Case := match cdb_cases (w_repo opened) with c :: _ => c | [] => zero_Case end.
Definition the_item : EvidenceItem := match cdb_evidence (w_repo after_the_day) with e :: _ => e | [] => zero_EvidenceItem end.

Lemma some_case : exists c, c ∈ cdb_cases (w_repo opened) /\ TrimSpace (cs_ID c) = cs_ID c /\ case_request c = (TrimSpace "acme", TrimSpace (cin_RequestID a_repeat)).
Proof.
  assert (E : cdb_cases (w_repo opened) = [the_case]) by (vm_compute; reflexivity).
  exists the_case. split; [rewrite E; left|]. split; vm_compute; reflexivity.
Qed.

Lemma some_item : exists e, e ∈ cdb_evidence (w_repo after_the_day).
Proof.
  assert (E : cdb_evidence (w_repo after_the_day) = [the_item]) by (vm_compute; reflexivity).
  exists the_item. rewrite E. left.
Qed.

Lemma some_again : exists c b w', Create "acme" "bob" a_repeat opened = (Ok (c, b), w').
Proof. apply run_pair. vm_compute. reflexivity. Qed.

Lemma some_move : exists c w', Update "acme" case_id "ana" (a_move "INVESTIGATION" "" 1) opened = (Ok c, w').
Proof. apply run_fact. vm_compute. reflexivity. Qed.

Lemma some_verification : exists v w',
  VerifyEvidence "acme" (evd_ID the_item) "bob" "Quarterly check" "req-4" after_the_day = (Ok v, w').
Proof. apply run_fact. vm_compute. reflexivity. Qed.

(** The process died between the reservation and the object store. *)
Definition a_reservation : EvidenceItem := zero_EvidenceItem {{
  evd_ID := "evd_1"; evd_TenantID := "acme"; evd_RequestID := "up-1"; evd_EventID := "evt_9"; evd_Filename := "proxy_log.txt";
  evd_ContentType := "text/plain"; evd_Size := 7; evd_SHA256 := sha256_hex "the log"; evd_Bucket := "evidence";
  evd_ObjectKey := "acme/evd_1"; evd_Status := "PENDING"; evd_RetainUntil := 64000000000 * Second; evd_Uploader := "ana" }}.

Abbreviation interrupted := (ReserveEvidence a_reservation
  (upload_mutation (an_upload "") "evidence.reserved" "Evidence upload reserved" []) empty_world).2.
Definition pending_item : EvidenceItem := match cdb_evidence (w_repo interrupted) with e :: _ => e | [] => zero_EvidenceItem end.

Lemma interrupted_wf : ev_wf (w_repo interrupted).
Proof. apply (ReserveEvidence_keeps a_reservation); [|exact empty_ev_wf]. apply stored_plain. constructor. Qed.

Lemma some_pending : exists e, e ∈ cdb_evidence (w_repo interrupted) /\ evd_Status e = "PENDING" /\
  evd_ObjectVersion e = "" /\ evidence_request e = (TrimSpace (up_TenantID (an_upload case_id)), TrimSpace (up_RequestID (an_upload case_id))).
Proof.
  assert (E : cdb_evidence (w_repo interrupted) = [pending_item]) by (vm_compute; reflexivity).
  exists pending_item. split; [rewrite E; left|]. split_and!; vm_compute; reflexivity.
Qed.

(** ** Witnesses *)

Lemma cases_follow_lifecycle_witness :
  cases_wf (w_repo after_the_day) /\ rtc cases_step (cdb_cases (w_repo empty_world)) (cdb_cases (w_repo after_the_day)).
Proof.
  assert (T := cases_follow_lifecycle DefaultMaximumBytes a_day empty_world empty_cases_wf). cbv zeta in T.
  exact (conj (proj1 T) (proj1 (proj2 T))).
Defined.

Lemma custody_always_verifies_witness : exists e, e ∈ cdb_evidence (w_repo after_the_day) /\
  VerifyEvidenceCustody (evd_TenantID e) (evd_ID e) after_the_day = (Ok true, after_the_day).
Proof.
  assert (T := custody_always_verifies DefaultMaximumBytes a_day empty_world empty_ev_wf one_object_sizes).
  cbv zeta in T. destruct some_item as [e He]. exists e. exact (conj He (proj1 T e He)).
Defined.

Lemma case_creation_idempotent_witness : exists c result w',
  Create "acme" "bob" a_repeat opened = (Ok (result, true), w') /\
  case_key result = case_key c /\ cdb_cases (w_repo w') = cdb_cases (w_repo opened).
Proof.
  destruct some_case as (c & Hc & Hid & Hr). destruct some_again as (result & b & w' & E).
  destruct (case_creation_idempotent opened w' "acme" "bob" a_repeat c result b
    (calls_cases_wf _) Hc Hid Hr E) as (D & K & C & _).
  subst b. exists c, result, w'. exact (conj E (conj K C)).
Defined.

Lemma stale_case_update_refused_witness : exists w1 rt,
  let w2 := run_calls DefaultMaximumBytes [CallAddComment "acme" case_id "eve" "Blocked the sender" "req-3" 2] w1 in
  Update "acme" case_id "bob" (a_move "RESPONSE" "" 1) w2 = (Err ErrVersionConflict, mkWorld (w_repo w2) rt).
Proof.
  destruct some_move as (c & w1 & E). exists w1.
  exact (stale_case_update_refused DefaultMaximumBytes [CallAddComment "acme" case_id "eve" "Blocked the sender" "req-3" 2]
    opened w1 "acme" case_id "ana" "bob" (a_move "INVESTIGATION" "" 1) (a_move "RESPONSE" "" 1) c
    (calls_cases_wf _) eq_refl eq_refl E).
Defined.

Lemma evidence_verification_exact_witness : exists item reader info v,
  item ∈ cdb_evidence (w_repo after_the_day) /\
  blob_Open (w_rt after_the_day) (evd_ObjectKey item) (evd_ObjectVersion item) = Ok (reader, info) /\
  (evv_Valid v = true <->
   string_len (rd_bytes (br_content reader)) = evd_Size item /\ sha256_hex (rd_bytes (br_content reader)) = evd_SHA256 item).
Proof.
  destruct some_verification as (v & w' & E).
  destruct (evidence_verification_exact after_the_day w' "acme" (evd_ID the_item) "bob" "Quarterly check" "req-4"
    v (calls_ev_wf _) E) as (item & reader & info & _ & _ & _ & Hi & _ & _ & Ho & Hv & _).
  exists item, reader, info, v. exact (conj Hi (conj Ho Hv)).
Defined.

Lemma interrupted_upload_stays_pending_witness : exists e, e ∈ cdb_evidence (w_repo interrupted) /\
  let run := Upload DefaultMaximumBytes (an_upload case_id) interrupted in
  is_ok run.1 = false /\ cdb_evidence (w_repo run.2) = cdb_evidence (w_repo interrupted).
Proof.
  destruct some_pending as (e & Hi & Hp & Hv & Hr). exists e. split; [exact Hi|]. cbv zeta.
  apply (interrupted_upload_stays_pending DefaultMaximumBytes interrupted _ (an_upload case_id) e _
    interrupted_wf Hi Hp Hr); [intros rt; rewrite Hv; reflexivity|apply surjective_pairing].
Defined.
