(* ===== verification/AgentEvent.v ===== *)
(** * Queued events and their files (agent/queue.go)

    An event, the item of the queue that carries it, and the JSON document a
    file of the queue holds. *)

From S2P Require Import Prelude GoLang GoFormat GoUtf8 Json GoTime.

Record AgentEvent : Type := {
  ev_Format : string;
  ev_ContentType : string;
  ev_EventID : string;
  ev_EventTimestamp : Time;
  ev_SourceID : string;
  ev_SourceAddress : string;
  ev_Payload : option string;  (* [None] is a nil slice *)
  ev_Cursor : Z;
  ev_Checkpoint : string
}.
#[export] Instance eta_AgentEvent : Eta AgentEvent := fun r => {|
  ev_Format := ev_Format r; ev_ContentType := ev_ContentType r; ev_EventID := ev_EventID r;
  ev_EventTimestamp := ev_EventTimestamp r; ev_SourceID := ev_SourceID r; ev_SourceAddress := ev_SourceAddress r;
  ev_Payload := ev_Payload r; ev_Cursor := ev_Cursor r; ev_Checkpoint := ev_Checkpoint r
|}.
Definition zero_AgentEvent : AgentEvent := {|
  ev_Format := ""; ev_ContentType := ""; ev_EventID := "";
  ev_EventTimestamp := zero_time; ev_SourceID := ""; ev_SourceAddress := "";
  ev_Payload := None; ev_Cursor := 0; ev_Checkpoint := ""
|}.

Record QueueItem : Type := {
  qi_QueueID : string;
  qi_Event : AgentEvent;
  qi_file : string
}.
#[export] Instance eta_QueueItem : Eta QueueItem := fun r => {|
  qi_QueueID := qi_QueueID r; qi_Event := qi_Event r; qi_file := qi_file r
|}.
Definition zero_QueueItem : QueueItem := {| qi_QueueID := ""; qi_Event := zero_AgentEvent; qi_file := "" |}.

Definition payload_bytes (e : AgentEvent) : string := default "" (ev_Payload e).

#[export] Instance AgentEvent_eq_dec : EqDecision AgentEvent.
Proof. solve_decision. Defined.

(** ** Encoding ([json.Marshal] with the tags of the fields) *)

Definition text_value (s : string) : Json := JString (json_text s).

Definition omit_empty (name s : string) : list (string * Json) := if s == "" then [] else [(name, text_value s)].

Definition event_json (e : AgentEvent) : Json := JObject (
  [("format", text_value (ev_Format e)); ("content_type", text_value (ev_ContentType e));
   ("event_id", text_value (ev_EventID e)); ("event_timestamp", JString (FormatRFC3339Nano (ev_EventTimestamp e)))]
  ++ omit_empty "source_id" (ev_SourceID e) ++ omit_empty "source_address" (ev_SourceAddress e)
  ++ [("payload", match ev_Payload e with Some bytes => JString (base64_encode bytes) | None => JNull end)]
  ++ (if ev_Cursor e =? 0 then [] else [("cursor", JNumber (Itoa (ev_Cursor e)))])
  ++ omit_empty "checkpoint" (ev_Checkpoint e)).

Definition item_json (item : QueueItem) : Json :=
  JObject [("queue_id", text_value (qi_QueueID item)); ("event", event_json (qi_Event item))].

(** A time outside of the years 0 to 9999 has no encoding. *)
Definition marshal_item (item : QueueItem) : outcome string :=
  let y := time_Year (ev_EventTimestamp (qi_Event item)) in
  if (y <? 0) || (9999 <? y) then Err (New "Time.MarshalJSON: year outside of range [0,9999]")
  else Ok (json_print (item_json item)).

(** ** Decoding ([json.Unmarshal] into a struct) *)

(** The field a member is for: a name that is equal, or else equal under case
    folding. *)
Definition field_name (names : list string) (key : string) : option string :=
  if key ∈? names then Some key else List.find (EqualFold key) names.

Definition as_string (old : string) (v : Json) : option string :=
  match v with JString raw => Some (unquote raw) | JNull => Some old | _ => None end.

Definition as_time (old : Time) (v : Json) : option Time :=
  match v with JString raw => ParseRFC3339 raw | JNull => Some old | _ => None end.

Definition as_uint64 (old : Z) (v : Json) : option Z :=
  match v with JNumber literal => ParseUint literal | JNull => Some old | _ => None end.

Definition as_byte (v : Json) : option ascii :=
  match v with
  | JNumber literal => n ← ParseUint literal; if n <=? 255 then Some (byte_char n) else None
  | JNull => Some (byte_char 0)
  | _ => None
  end.

Fixpoint as_bytes_items (items : list Json) : option string :=
  match items with
  | [] => Some ""
  | v :: items => c ← as_byte v; r ← as_bytes_items items; Some (String c r)
  end.

Definition as_bytes (v : Json) : option (option string) :=
  match v with
  | JString raw => bytes ← base64_decode (unquote raw); Some (Some bytes)
  | JArray items => bytes ← as_bytes_items items; Some (Some bytes)
  | JNull => Some None
  | _ => None
  end.

(** Members that name no field are skipped, a later one overwrites. *)
Fixpoint decode_members {R} (names : list string) (set : string -> Json -> R -> option R) (members : list (string * Json)) (r : R)
    : option R :=
  match members with
  | [] => Some r
  | (key, v) :: members =>
      match field_name names (unquote key) with
      | Some name => r ← set name v r; decode_members names set members r
      | None => decode_members names set members r
      end
  end.

Definition decode_struct {R} (names : list string) (set : string -> Json -> R -> option R) (v : Json) (r : R) : option R :=
  match v with JObject members => decode_members names set members r | JNull => Some r | _ => None end.

Definition event_names : list string :=
  ["format"; "content_type"; "event_id"; "event_timestamp"; "source_id"; "source_address"; "payload"; "cursor"; "checkpoint"].

Definition set_event (name : string) (v : Json) (e : AgentEvent) : option AgentEvent :=
  if name == "format" then s ← as_string (ev_Format e) v; Some (e {{ ev_Format := s }})
  else if name == "content_type" then s ← as_string (ev_ContentType e) v; Some (e {{ ev_ContentType := s }})
  else if name == "event_id" then s ← as_string (ev_EventID e) v; Some (e {{ ev_EventID := s }})
  else if name == "event_timestamp" then t ← as_time (ev_EventTimestamp e) v; Some (e {{ ev_EventTimestamp := t }})
  else if name == "source_id" then s ← as_string (ev_SourceID e) v; Some (e {{ ev_SourceID := s }})
  else if name == "source_address" then s ← as_string (ev_SourceAddress e) v; Some (e {{ ev_SourceAddress := s }})
  else if name == "payload" then b ← as_bytes v; Some (e {{ ev_Payload := b }})
  else if name == "cursor" then n ← as_uint64 (ev_Cursor e) v; Some (e {{ ev_Cursor := n }})
  else s ← as_string (ev_Checkpoint e) v; Some (e {{ ev_Checkpoint := s }}).

Definition set_item (name : string) (v : Json) (item : QueueItem) : option QueueItem :=
  if name == "queue_id" then s ← as_string (qi_QueueID item) v; Some (item {{ qi_QueueID := s }})
  else e ← decode_struct event_names set_event v (qi_Event item); Some (item {{ qi_Event := e }}).

Definition unmarshal_item (body : string) : option QueueItem :=
  v ← json_parse body; decode_struct ["queue_id"; "event"] set_item v zero_QueueItem.

(** ** What can be written can be read back *)

(** A string after a document: its invalid bytes are replaced. *)
Definition clean (s : string) : string := unquote (json_text s).

Lemma clean_utf8 s : utf8 s -> clean s = s.
Proof. apply json_text_unquote. Qed.

Definition clean_event (e : AgentEvent) : AgentEvent := e {{
  ev_Format ::= clean; ev_ContentType ::= clean; ev_EventID ::= clean; ev_SourceID ::= clean; ev_SourceAddress ::= clean;
  ev_Checkpoint ::= clean }}.

Definition clean_item (item : QueueItem) : QueueItem := item {{ qi_QueueID ::= clean; qi_Event ::= clean_event; qi_file := "" }}.

(** A [uint64]. *)
Definition event_ok (e : AgentEvent) : Prop := 0 <= ev_Cursor e <= max_uint64.

(** Characters that stand for themselves in a document. *)
Definition plain_char (c : ascii) : bool := byte_in 32 126 c && negb (c ∈? ["034"; "092"]%char).

Lemma string_forallb_app P s t : string_forallb P (s +:+ t) = string_forallb P s && string_forallb P t.
Proof. induction s as [|c s IH]; [done|]. cbn. rewrite IH. by destruct (P c). Qed.

Lemma plain_text s : string_forallb plain_char s = true -> scans s /\ unquote s = s.
Proof.
  induction s as [|c s IH]; [split; [apply scans_nil|done]|]. cbn [string_forallb]. intros [C S]%andb_true_iff.
  destruct (IH S) as [IH1 IH2]. unfold plain_char in C. apply andb_true_iff in C as [C1 C2].
  apply byte_in_spec in C1. rewrite negb_true_iff, bool_decide_eq_false, !not_elem_of_cons in C2. destruct C2 as (Q & B & _).
  assert (A : byte_in 0 127 c = true) by (apply byte_in_spec; lia). split.
  - intros r. cbn [String.append scan_string]. rewrite !bool_decide_eq_false_2 by done.
    rewrite (proj2 (Z.ltb_ge (byte_code c) 32)) by lia. rewrite IH1. by destruct (scan_string r) as [[more rest]|].
  - cbn [unquote]. rewrite bool_decide_eq_false_2 by done. unfold utf8_width. rewrite A. by rewrite IH2.
Qed.

Lemma base64_plain s : string_forallb plain_char (base64_encode s) = true.
Proof.
  assert (D : forall n, 0 <= n < 64 -> plain_char (base64_digit n) = true).
  { intros n H. assert (F : forallb (fun n => plain_char (base64_digit n)) (seqZ 0 64) = true) by by vm_compute.
    rewrite forallb_forall in F. apply F, list_elem_of_In, elem_of_seqZ. lia. }
  assert (J : forall n s, (String.length s <= n)%nat -> string_forallb plain_char (base64_encode s) = true); [|eauto].
  clear s. intros n. induction n as [|n IH]; intros s L; [destruct s; [done|cbn in L; lia]|].
  destruct s as [|a [|b [|c s]]]; [done|..]; cbn [base64_encode string_forallb];
    assert (Ra := byte_code_range a); try assert (Rb := byte_code_range b); try assert (Rc := byte_code_range c);
    rewrite ?(D (byte_code a / 4)), ?(D (byte_code a mod 4 * 16)), ?(D (byte_code a mod 4 * 16 + byte_code b / 16)),
      ?(D (byte_code b mod 16 * 4)), ?(D (byte_code b mod 16 * 4 + byte_code c / 64)), ?(D (byte_code c mod 64)) by euclid; try done.
  cbn in L. by rewrite IH by lia.
Qed.

Lemma digits_plain s : string_forallb is_digit s = true -> string_forallb plain_char s = true.
Proof.
  induction s as [|c s IH]; [done|]. cbn. intros [C S]%andb_true_iff. rewrite IH by done. rewrite andb_true_r.
  all_bytes c; try (vm_compute in C; discriminate C); done.
Qed.

Lemma pad_plain n x : string_forallb plain_char (pad_digits n x) = true.
Proof. apply digits_plain, pad_digits_digits. Qed.

#[local] Transparent FormatRFC3339Nano.

Lemma RFC3339_plain t : string_forallb plain_char (FormatRFC3339Nano t) = true.
Proof.
  unfold FormatRFC3339Nano. destruct (civil_of_days _) as [[y m] d]. rewrite !string_forallb_app, !pad_plain.
  assert (F : string_forallb plain_char (trim_zeros (pad_digits 9 (t mod Second))) = true)
    by apply digits_plain, trim_zeros_digits, pad_digits_digits.
  destruct (_ == _); [done|]. by rewrite string_forallb_app, F.
Qed.

#[local] Opaque FormatRFC3339Nano.

Lemma decode_app {R} names set (m1 m2 : list (string * Json)) (r r' : R) :
  decode_members names set m1 r = Some r' -> decode_members names set (m1 ++ m2) r = decode_members names set m2 r'.
Proof.
  revert r. induction m1 as [|[k v] m1 IH]; intros r; cbn; [by intros [= ->]|].
  destruct (field_name _ _); [|apply IH]. destruct (set _ v r) as [x|]; [apply IH|done].
Qed.

Lemma omit_empty_wf name s : scans name -> foldr (fun m Q => (scans m.1 /\ json_wf m.2) /\ Q) True (omit_empty name s).
Proof. intros N. unfold omit_empty. destruct (_ == _); cbn; [done|]. split_and!; [done|apply json_text_scans|done]. Qed.

Lemma wf_app (l1 l2 : list (string * Json)) : foldr (fun m Q => (scans m.1 /\ json_wf m.2) /\ Q) True l1 ->
  foldr (fun m Q => (scans m.1 /\ json_wf m.2) /\ Q) True l2 -> foldr (fun m Q => (scans m.1 /\ json_wf m.2) /\ Q) True (l1 ++ l2).
Proof. induction l1 as [|m l1 IH]; cbn; naive_solver. Qed.

Lemma scans_plain s : string_forallb plain_char s = true -> scans s.
Proof. intros H. by apply plain_text. Qed.

Lemma event_json_wf e : event_ok e -> json_wf (event_json e).
Proof.
  intros C. unfold event_ok in C. assert (N : forall s, string_forallb plain_char s = true -> scans s) by apply scans_plain.
  cbn [json_wf event_json]. repeat apply wf_app; try (apply omit_empty_wf; by apply N).
  - cbn. split_and!; try (by apply N); try (by apply json_text_scans); [apply N, RFC3339_plain|done].
  - cbn. split_and!; [by apply N| |done]. destruct (ev_Payload e); [|done]. apply N, base64_plain.
  - destruct (_ =? 0); cbn; [done|]. split_and!; [by apply N| |done]. apply Itoa_number. lia.
Qed.

Lemma item_json_wf item : event_ok (qi_Event item) -> json_wf (item_json item).
Proof.
  intros E. cbn -[event_json]. split_and!; try (by apply scans_plain); [apply json_text_scans|by apply event_json_wf|done].
Qed.

Lemma depth_app (l1 l2 : list (string * Json)) d : 0 <= d ->
  foldr Z.max 0 (List.map (fun m => json_depth m.2) l1) <= d -> foldr Z.max 0 (List.map (fun m => json_depth m.2) l2) <= d ->
  foldr Z.max 0 (List.map (fun m => json_depth m.2) (l1 ++ l2)) <= d.
Proof. intros D. induction l1 as [|m l1 IH]; cbn; lia. Qed.

Lemma event_depth e : json_depth (event_json e) <= 1.
Proof.
  cbn [json_depth event_json].
  assert (O : forall n s, foldr Z.max 0 (List.map (fun m => json_depth m.2) (omit_empty n s)) <= 0)
    by (intros n s; unfold omit_empty; destruct (_ == _); cbn; lia).
  assert (foldr Z.max 0 (List.map (fun m => json_depth m.2) (match event_json e with JObject l => l | _ => [] end)) <= 0); [|cbn [event_json] in *; lia].
  cbn [event_json]. repeat apply depth_app; try done; try apply O.
  - cbn. by destruct (ev_Payload e).
  - by destruct (_ =? 0).
Qed.

(** A member that is left out when empty is read back, present or not. *)
Lemma decode_omitted name (set : string -> AgentEvent -> AgentEvent) s e rest :
  field_name event_names (unquote name) = Some name ->
  (forall raw, set_event name (JString raw) e = Some (set (unquote raw) e)) -> set "" e = e ->
  decode_members event_names set_event (omit_empty name s ++ rest) e = decode_members event_names set_event rest (set (clean s) e).
Proof.
  intros N S E. unfold omit_empty. destruct (s == "") eqn:Es.
  - apply bool_decide_eq_true in Es as ->. change (clean "") with "". by rewrite E.
  - cbn [app decode_members]. rewrite N. unfold text_value. by rewrite S.
Qed.

Lemma decode_field {R} names (set : string -> Json -> R -> option R) name v rest r r' :
  field_name names (unquote name) = Some name -> set name v r = Some r' ->
  decode_members names set ((name, v) :: rest) r = decode_members names set rest r'.
Proof. intros N S. cbn [decode_members]. by rewrite N, S. Qed.

Lemma as_string_text s old : as_string old (text_value s) = Some (clean s).
Proof. done. Qed.

Lemma decode_event e : event_ok e -> 0 <= time_Year (ev_EventTimestamp e) <= 9999 ->
  decode_struct event_names set_event (event_json e) zero_AgentEvent = Some (clean_event e).
Proof.
  intros C T. unfold event_ok in C. unfold decode_struct, event_json.
  cbn [app].
  assert (F : forall name v set x, field_name event_names (unquote name) = Some name -> set_event name v x = Some (set x) ->
    forall rest, decode_members event_names set_event ((name, v) :: rest) x = decode_members event_names set_event rest (set x))
    by (intros; by apply decode_field).
  rewrite (F "format" _ (fun e' => e' {{ ev_Format := clean (ev_Format e) }})); [|by vm_compute|].
  2: { change (set_event "format" ?v ?x) with (s ← as_string (ev_Format x) v; Some (x {{ ev_Format := s }})). by rewrite as_string_text. }
  rewrite (F "content_type" _ (fun e' => e' {{ ev_ContentType := clean (ev_ContentType e) }})); [|by vm_compute|].
  2: { change (set_event "content_type" ?v ?x) with (s ← as_string (ev_ContentType x) v; Some (x {{ ev_ContentType := s }})). by rewrite as_string_text. }
  rewrite (F "event_id" _ (fun e' => e' {{ ev_EventID := clean (ev_EventID e) }})); [|by vm_compute|].
  2: { change (set_event "event_id" ?v ?x) with (s ← as_string (ev_EventID x) v; Some (x {{ ev_EventID := s }})). by rewrite as_string_text. }
  rewrite (F "event_timestamp" _ (fun e' => e' {{ ev_EventTimestamp := ev_EventTimestamp e }})); [|by vm_compute|].
  2: { change (set_event "event_timestamp" (JString ?s) ?x) with (t ← ParseRFC3339 s; Some (x {{ ev_EventTimestamp := t }})). by rewrite RFC3339_round_trip. }
  rewrite (decode_omitted "source_id" (fun s e => e {{ ev_SourceID := s }})) by first [done|by vm_compute].
  rewrite (decode_omitted "source_address" (fun s e => e {{ ev_SourceAddress := s }})) by first [done|by vm_compute].
  cbn [app]. rewrite (F "payload" _ (fun e' => e' {{ ev_Payload := ev_Payload e }})); [|by vm_compute|].
  2: { change (set_event "payload" ?v ?x) with (b ← as_bytes v; Some (x {{ ev_Payload := b }})).
       destruct (ev_Payload e) as [bytes|]; [|done]. unfold as_bytes.
       by rewrite (proj2 (plain_text _ (base64_plain bytes))), base64_round_trip. }
  assert (Cu : forall x, ev_Cursor x = 0 -> decode_members event_names set_event
    (if ev_Cursor e =? 0 then [] else [("cursor", JNumber (Itoa (ev_Cursor e)))]) x = Some (x {{ ev_Cursor := ev_Cursor e }})).
  { intros x Hx. destruct (Z.eqb_spec (ev_Cursor e) 0) as [->|]; [destruct x; cbn in *; by subst|].
    rewrite (F "cursor" _ (fun e' => e' {{ ev_Cursor := ev_Cursor e }})); [done|by vm_compute|].
    change (set_event "cursor" (JNumber ?l) ?y) with (n ← ParseUint l; Some (y {{ ev_Cursor := n }})). by rewrite ParseUint_Itoa. }
  erewrite decode_app by (apply Cu; reflexivity).
  rewrite <- (app_nil_r (omit_empty "checkpoint" _)).
  rewrite (decode_omitted "checkpoint" (fun s e => e {{ ev_Checkpoint := s }})) by first [done|by vm_compute].
  cbn. by destruct e.
Qed.

(** What a queue file holds is what was put into it. *)
Lemma unmarshal_marshal item body : event_ok (qi_Event item) -> marshal_item item = Ok body ->
  unmarshal_item body = Some (clean_item item).
Proof.
  intros W. unfold marshal_item. destruct (_ || _) eqn:Y; [done|]. intros B. rewrite orb_false_iff, !Z.ltb_ge in Y.
  assert (body = json_print (item_json item)) as -> by congruence. clear B. unfold unmarshal_item.
  rewrite json_round_trip; [|by apply item_json_wf|].
  - cbn [mbind option_bind]. assert (D := decode_event _ W Y).
    change (decode_struct ["queue_id"; "event"] set_item (item_json item) zero_QueueItem) with
      (decode_members ["queue_id"; "event"] set_item
        [("queue_id", text_value (qi_QueueID item)); ("event", event_json (qi_Event item))] zero_QueueItem).
    rewrite (decode_field _ _ "queue_id" _ _ _ (zero_QueueItem {{ qi_QueueID := clean (qi_QueueID item) }})); [|by vm_compute|].
    2: { change (set_item "queue_id" ?v ?x) with (s ← as_string (qi_QueueID x) v; Some (x {{ qi_QueueID := s }})). by rewrite as_string_text. }
    rewrite (decode_field _ _ "event" _ _ _ (clean_item item)); [done|by vm_compute|].
    change (set_item "event" ?v ?x) with (e ← decode_struct event_names set_event v (qi_Event x); Some (x {{ qi_Event := e }})).
    change (qi_Event (zero_QueueItem {{ qi_QueueID := clean (qi_QueueID item) }})) with zero_AgentEvent. by rewrite D.
  - assert (D := event_depth (qi_Event item)). change (json_depth (item_json item)) with (1 + (0 `max` (json_depth (event_json (qi_Event item)) `max` 0))).
    unfold maxNestingDepth. lia.
Qed.
