(* ===== verification/HostFiles.v ===== *)
(** * The files of a host process (package os)

    An agent or collector process with its directories.  Every system call may
    work, fail with an error, or be the point where the process dies: an
    arbitrary function decides.  A call that fails or dies in the middle of a
    write leaves a prefix behind.  Death is the outcome [Panic]: it runs no deferred
    call and ends every computation, and what it leaves are the directories.
    The death of the operating system, which may take back a rename that was
    not synced with its directory, is not modelled. *)

From S2P Require Import Prelude GoLang GoFormat Core AgentEvent GoUtf8 Json GoTime.

Inductive Fault : Type := Works | Fails | Dies.

(** A folder has the size the file system reports for it. *)
Inductive Entry : Type :=
  | File (body : string)
  | Folder (size : Z).

Definition entry_size (e : Entry) : Z := match e with File body => string_len body | Folder size => size end.

(** [DiskQueue], the memory of the queue. *)
Record DiskQueue : Type := {
  dq_directory : string;
  dq_maxBytes : Z;
  dq_measured : bool;
  dq_count : Z;
  dq_bytes : Z
}.
#[export] Instance eta_DiskQueue : Eta DiskQueue := fun r => {|
  dq_directory := dq_directory r; dq_maxBytes := dq_maxBytes r; dq_measured := dq_measured r;
  dq_count := dq_count r; dq_bytes := dq_bytes r
|}.

(** [fileCheckpoint] (collector/filetail.go) *)
Record fileCheckpoint : Type := {
  fc_Path : string;
  fc_Offset : Z;
  fc_Fingerprint : string;
  fc_UpdatedAt : Time
}.
#[export] Instance eta_fileCheckpoint : Eta fileCheckpoint := fun r => {|
  fc_Path := fc_Path r; fc_Offset := fc_Offset r; fc_Fingerprint := fc_Fingerprint r; fc_UpdatedAt := fc_UpdatedAt r
|}.

(** The directory of the queue and the one of checkpoints, the memory of the
    queue, of the file tailer and of the API poller, the faults to come, and
    the events the gateway has acknowledged. *)
Record Host : Type := {
  ho_queue : gmap string Entry;
  ho_state : gmap string Entry;
  ho_memory : DiskQueue;
  ho_tails : gmap string fileCheckpoint;
  ho_cursors : gmap string string;
  ho_fault : nat -> Fault;
  ho_cut : nat -> nat;
  ho_temporary : nat -> N;
  ho_calls : nat;
  ho_accepted : list AgentEvent
}.
#[export] Instance eta_Host : Eta Host := fun r => {|
  ho_queue := ho_queue r; ho_state := ho_state r; ho_memory := ho_memory r; ho_tails := ho_tails r;
  ho_cursors := ho_cursors r; ho_fault := ho_fault r;
  ho_cut := ho_cut r; ho_temporary := ho_temporary r; ho_calls := ho_calls r; ho_accepted := ho_accepted r
|}.

Abbreviation HostM := (M (World Host)).

Definition ErrIO := New "input/output error".
Definition ErrNotExist := New "file does not exist".
Definition ErrExist := New "file exists".

Definition on_host {A} (f : Host -> A * Host) : HostM A := fun w =>
  let '(a, h) := f (w_repo w) in (Ok a, mkWorld h (w_rt w)).

Definition read_host {A} (f : Host -> A) : HostM A := fun w => (Ok (f (w_repo w)), w).
Definition change_host (f : Host -> Host) : HostM unit := fun w => (Ok tt, mkWorld (f (w_repo w)) (w_rt w)).

(** One system call; [n] is its number. *)
Definition syscall {A} (op : HostM A) : HostM A := fun w =>
  let h := w_repo w in
  let n := ho_calls h in
  let w := mkWorld (h {{ ho_calls ::= S }}) (w_rt w) in
  match ho_fault h n with
  | Works => op w
  | Fails => (Err ErrIO, w)
  | Dies => (Panic, w)
  end.

(** [defer]: the call runs unless the process dies, its outcome is dropped. *)
Definition deferred {A} (m : HostM A) (d : HostM unit) : HostM A := fun w =>
  match m w with
  | (Panic, w) => (Panic, w)
  | (r, w) => match d w with (Panic, w) => (Panic, w) | (_, w) => (r, w) end
  end.

(** [_ = call()] *)
Definition ignored {A} (m : HostM A) : HostM unit := fun w =>
  match m w with (Panic, w) => (Panic, w) | (_, w) => (Ok tt, w) end.

(** [if err := m; err != nil { ...; return }]: what is done with the error. *)
Definition catch {A} (m : HostM A) (handle : error -> HostM A) : HostM A := fun w =>
  match m w with (Err e, w) => handle e w | r => r end.

Inductive Place : Type := QueueDir | StateDir.

Definition entries (p : Place) (h : Host) : gmap string Entry := match p with QueueDir => ho_queue h | StateDir => ho_state h end.
Definition put_entries (p : Place) (d : gmap string Entry) (h : Host) : Host :=
  match p with QueueDir => h {{ ho_queue := d }} | StateDir => h {{ ho_state := d }} end.

Section Files.
Context (p : Place).

Definition update_entries (f : gmap string Entry -> gmap string Entry) : HostM unit :=
  change_host (fun h => put_entries p (f (entries p h)) h).

Definition lookup_entry (name : string) : HostM (option Entry) := read_host (fun h => entries p h !! name).

Definition entry_le (a b : string * Entry) : Prop := String.le a.1 b.1.
#[export] Instance entry_le_dec a b : Decision (entry_le a b).
Proof. unfold entry_le. apply _. Defined.

(** [os.ReadDir] sorts by name. *)
Definition sorted_entries (d : gmap string Entry) : list (string * Entry) := merge_sort entry_le (map_to_list d).

Definition ReadDir : HostM (list (string * Entry)) := syscall (read_host (fun h => sorted_entries (entries p h))).

(** [os.Stat] and [DirEntry.Info] *)
Definition Stat (name : string) : HostM Z :=
  syscall (let! e := lookup_entry name in
           match e with Some e => ret (entry_size e) | None => fail ErrNotExist end).

Definition ReadFile (name : string) : HostM string :=
  syscall (let! e := lookup_entry name in
           match e with Some (File body) => ret body | Some (Folder _) => fail ErrIO | None => fail ErrNotExist end).

Definition Remove (name : string) : HostM unit :=
  syscall (let! e := lookup_entry name in
           match e with Some _ => update_entries (base.delete name) | None => fail ErrNotExist end).

(** [os.CreateTemp] tries the names its random numbers give until one is free. *)
Fixpoint create_temp (tries : nat) (prefix : string) : HostM string :=
  match tries with
  | O => fail ErrExist
  | S tries =>
      fun w =>
        let name := prefix +:+ Itoa (Z.of_N (ho_temporary (w_repo w) (ho_calls (w_repo w)))) in
        syscall (let! e := lookup_entry name in
                 match e with
                 | Some _ => create_temp tries prefix
                 | None => do! update_entries <[name := File ""]> in ret name
                 end) w
  end.

Definition CreateTemp (prefix : string) : HostM string := create_temp (Z.to_nat 10000) prefix.

(** A write that does not succeed may have written a part. *)
Definition Write (name body : string) : HostM unit := fun w =>
  let h := w_repo w in
  let n := ho_calls h in
  let append s := put_entries p (alter (fun e => match e with File old => File (old +:+ s) | e => e end) name (entries p h)) in
  let written s := mkWorld (append s (h {{ ho_calls ::= S }})) (w_rt w) in
  match ho_fault h n with
  | Works => (Ok tt, written body)
  | Fails => (Err ErrIO, written (string_take (ho_cut h n) body))
  | Dies => (Panic, written (string_take (ho_cut h n) body))
  end.

(** Calls without an effect on the model: permissions, [fsync], [close]. *)
Definition Chmod : HostM unit := syscall (ret tt).
Definition Sync : HostM unit := syscall (ret tt).
Definition Close : HostM unit := syscall (ret tt).

Definition Rename (old new : string) : HostM unit :=
  syscall (let! e := lookup_entry old in
           let! target := lookup_entry new in
           match e, target with
           | None, _ => fail ErrNotExist
           | Some _, Some (Folder _) => fail ErrIO
           | Some e, _ => update_entries (fun d => <[new := e]> (base.delete old d))
           end).

(** The way every file is committed: a temporary file is written, synced and
    renamed to its place.  [context] words the error of a step, if it does. *)
Definition worded {A} (context : option string) (m : HostM A) : HostM A :=
  match context with Some c => wrapping c m | None => m end.

Record commit_words : Type := {
  on_create : option string; on_secure : option string; on_write : option string;
  on_sync : option string; on_close : option string; on_rename : option string
}.

Definition or_close {A} (m : HostM A) : HostM A := catch m (fun e => do! ignored Close in fail e).

Definition commit_file (prefix name body : string) (words : commit_words) : HostM unit :=
  let! temporary := worded (on_create words) (CreateTemp prefix) in
  deferred
    (do! worded (on_secure words) (or_close Chmod) in
     do! worded (on_write words) (or_close (Write temporary body)) in
     do! worded (on_sync words) (or_close Sync) in
     do! worded (on_close words) Close in
     worded (on_rename words) (Rename temporary name))
    (ignored (Remove temporary)).

End Files.

(** What is left when a process has died and is started again. *)
Definition crashed (directory : string) (maxBytes : Z) (h : Host) : Host :=
  h {{ ho_memory := {| dq_directory := directory; dq_maxBytes := maxBytes; dq_measured := false; dq_count := 0; dq_bytes := 0 |} }}.

(** * Reasoning about calls that may fail or die

    [leaves p P m Q E]: started in a directory that satisfies [P], a call that
    succeeds leaves one that satisfies [Q], and a call that fails or dies leaves
    one that satisfies [E], its crash condition. *)

Definition leaves {A} (p : Place) (P : gmap string Entry -> Prop) (m : HostM A) (Q : A -> gmap string Entry -> Prop)
    (E : gmap string Entry -> Prop) : Prop :=
  forall w, P (entries p (w_repo w)) ->
    match m w with
    | (Ok a, w') => Q a (entries p (w_repo w'))
    | (_, w') => E (entries p (w_repo w'))
    end.

Section Rules.
Context (p : Place).
Implicit Types P E : gmap string Entry -> Prop.

Lemma leaves_ret {A} (a : A) P E : leaves p P (ret a) (fun b d => b = a /\ P d) E.
Proof. by intros w. Qed.

Lemma leaves_fail {A} e P Q E : (forall d, P d -> E d) -> leaves p P (@fail _ A e) Q E.
Proof. intros H w Hw. cbn. auto. Qed.

Lemma leaves_bind {A B} (m : HostM A) (k : A -> HostM B) P Q R E :
  leaves p P m Q E -> (forall a, leaves p (Q a) (k a) R E) -> leaves p P (bind m k) R E.
Proof. intros Hm Hk w Hw. specialize (Hm w Hw). unfold bind. destruct (m w) as [[a|e|] w']; [by apply Hk|done..]. Qed.

Lemma leaves_weaken {A} (m : HostM A) P P' (Q Q' : A -> gmap string Entry -> Prop) E E' :
  leaves p P m Q E -> (forall d, P' d -> P d) -> (forall a d, Q a d -> Q' a d) -> (forall d, E d -> E' d) -> leaves p P' m Q' E'.
Proof. intros Hm HP HQ HE w Hw. specialize (Hm w (HP _ Hw)). destruct (m w) as [[a|e|] w']; auto. Qed.

Lemma leaves_worded {A} c (m : HostM A) P Q E : leaves p P m Q E -> leaves p P (worded c m) Q E.
Proof.
  intros Hm w Hw. specialize (Hm w Hw). destruct c as [c|]; [|exact Hm]. unfold worded, wrapping. by destruct (m w) as [[a|e|] w'].
Qed.

Lemma leaves_wrapping {A} c (m : HostM A) P Q E : leaves p P m Q E -> leaves p P (wrapping c m) Q E.
Proof. exact (leaves_worded (Some c) m P Q E). Qed.

Lemma leaves_syscall {A} (op : HostM A) P Q E : (forall d, P d -> E d) -> leaves p P op Q E -> leaves p P (syscall op) Q E.
Proof.
  intros HE Hop [h rt] Hw. unfold syscall. cbn in *.
  assert (Hw' : P (entries p (h {{ ho_calls ::= S }}))) by by destruct p.
  destruct (ho_fault h (ho_calls h)); cbn; [|auto..]. by apply Hop.
Qed.

Lemma leaves_catch {A} (m : HostM A) handle P Q E E' :
  leaves p P m Q E' -> (forall d, E' d -> E d) -> (forall e, leaves p E' (handle e) Q E) -> leaves p P (catch m handle) Q E.
Proof.
  intros Hm HE Hh w Hw. specialize (Hm w Hw). unfold catch. destruct (m w) as [[a|e|] w']; [done|by apply Hh|auto].
Qed.

Lemma leaves_ignored {A} (m : HostM A) P Q E :
  leaves p P m (fun _ => Q) Q -> (forall d, Q d -> E d) -> leaves p P (ignored m) (fun _ => Q) E.
Proof. intros Hm HE w Hw. specialize (Hm w Hw). unfold ignored. destruct (m w) as [[a|e|] w']; auto. Qed.

Lemma leaves_deferred {A B} (m : HostM A) (d : HostM B) P (Q Q' : A -> gmap string Entry -> Prop) E E' :
  leaves p P m Q E -> (forall a, leaves p (Q a) (ignored d) (fun _ => Q' a) E') -> leaves p E (ignored d) (fun _ => E') E' ->
  (forall x, E x -> E' x) -> leaves p P (deferred m (ignored d)) Q' E'.
Proof.
  intros Hm HQ HE EE w Hw. specialize (Hm w Hw). unfold deferred. destruct (m w) as [[a|e|] w1]; [| |auto].
  - specialize (HQ a w1 Hm). unfold ignored in *. by destruct (d w1) as [[b|e|] w2].
  - specialize (HE w1 Hm). unfold ignored in *. by destruct (d w1) as [[b|e'|] w2].
Qed.

(** What the calls do. *)
Lemma leaves_lookup name P E : leaves p P (lookup_entry p name) (fun e d => e = d !! name /\ P d) E.
Proof. by intros w. Qed.

Lemma leaves_update f P Q E : (forall d, P d -> Q (f d)) -> leaves p P (update_entries p f) (fun _ => Q) E.
Proof. intros H [h rt] Hw. cbn in *. destruct p; cbn in *; auto. Qed.

Lemma leaves_Chmod P E : (forall d, P d -> E d) -> leaves p P Chmod (fun _ => P) E.
Proof. intros H. apply leaves_syscall; [done|]. by intros w. Qed.

Lemma leaves_or_close {A} (m : HostM A) P Q E : leaves p P m Q E -> leaves p P (or_close m) Q E.
Proof.
  intros Hm. eapply leaves_catch; [exact Hm|done|]. intros e.
  apply (leaves_bind _ _ E (fun _ => E)); [|intros a; by apply leaves_fail].
  apply leaves_ignored; [|done]. by apply leaves_Chmod.
Qed.

Lemma leaves_Remove name P Q E : (forall d, P d -> Q (base.delete name d)) -> (forall d, P d -> E d) ->
  leaves p P (Remove p name) (fun _ => Q) E.
Proof.
  intros HQ HE. apply leaves_syscall; [done|]. eapply leaves_bind; [apply leaves_lookup|].
  intros [e|]; [|apply leaves_fail; naive_solver]. apply leaves_update. naive_solver.
Qed.

Lemma leaves_Write name body P Q E :
  (forall d, P d -> Q (alter (fun e => match e with File old => File (old +:+ body) | e => e end) name d)) ->
  (forall d n, P d -> E (alter (fun e => match e with File old => File (old +:+ string_take n body) | e => e end) name d)) ->
  leaves p P (Write p name body) (fun _ => Q) E.
Proof.
  intros HQ HE [h rt] Hw. unfold Write. cbn in *. destruct (ho_fault h (ho_calls h)), p; cbn in *; auto.
Qed.

Lemma leaves_Rename old new P Q E : (forall d, P d -> E d) ->
  (forall d e, P d -> d !! old = Some e -> Q (<[new := e]> (base.delete old d))) ->
  leaves p P (Rename p old new) (fun _ => Q) E.
Proof.
  intros HE HQ. apply leaves_syscall; [done|]. eapply leaves_bind; [apply leaves_lookup|]. intros e.
  eapply leaves_bind; [apply leaves_lookup|]. intros target.
  destruct e as [e|]; [|apply leaves_fail; naive_solver]. destruct target as [[]|]; try (apply leaves_fail; naive_solver);
    (apply leaves_update; intros d (_ & E1 & Pd); by apply HQ).
Qed.

Lemma leaves_CreateTemp prefix P Q E : (forall d, P d -> E d) ->
  (forall d n, P d -> d !! (prefix +:+ Itoa (Z.of_N n)) = None -> Q (prefix +:+ Itoa (Z.of_N n)) (<[prefix +:+ Itoa (Z.of_N n) := File ""]> d)) ->
  leaves p P (CreateTemp p prefix) Q E.
Proof.
  intros HE HQ. unfold CreateTemp. generalize (Z.to_nat 10000). intros tries.
  induction tries as [|tries IH]; [by apply leaves_fail|]. intros w Hw. cbn [create_temp].
  set (n := ho_temporary _ _). revert w Hw n.
  assert (J : forall n, leaves p P (syscall (let! e := lookup_entry p (prefix +:+ Itoa (Z.of_N n)) in
    match e with Some _ => create_temp p tries prefix
    | None => do! update_entries p <[prefix +:+ Itoa (Z.of_N n) := File ""]> in ret (prefix +:+ Itoa (Z.of_N n)) end)) Q E); [|intros w Hw n; by apply J].
  intros n. apply leaves_syscall; [done|]. eapply leaves_bind; [apply leaves_lookup|]. intros [e|].
  - eapply leaves_weaken; [exact IH|naive_solver|done|done].
  - eapply leaves_bind.
    + apply (leaves_update _ _ (Q (prefix +:+ Itoa (Z.of_N n)))). intros d [Hn Pd]. by apply HQ.
    + intros []. eapply leaves_weaken; [apply leaves_ret|done|by intros a d [-> ?]|]. by intros d.
Qed.

End Rules.

(** ** Committing a file *)

(** The entries readers look at: not the temporary files. *)
Definition visible (keep : string -> bool) (d : gmap string Entry) : gmap string Entry :=
  filter (fun kv => keep kv.1 = true) d.

Section Commit.
Context (p : Place) (keep : string -> bool) (prefix : string).
Hypothesis Htemporary : forall n, keep (prefix +:+ Itoa (Z.of_N n)) = false.

Lemma visible_insert name e d : keep name = true -> visible keep (<[name := e]> d) = <[name := e]> (visible keep d).
Proof. intros K. unfold visible. by rewrite map_filter_insert_True. Qed.

Lemma visible_delete name d : keep name = false -> visible keep (base.delete name d) = visible keep d.
Proof.
  intros K. unfold visible. rewrite map_filter_delete. apply delete_id. apply map_lookup_filter_None. right. intros x _.
  cbn. by rewrite K.
Qed.

Lemma visible_hidden name e d : keep name = false -> visible keep (<[name := e]> d) = visible keep d.
Proof.
  intros K. unfold visible. rewrite map_filter_insert_False by (cbn; by rewrite K). by apply visible_delete.
Qed.

Lemma visible_alter f name d : keep name = false -> visible keep (alter f name d) = visible keep d.
Proof.
  intros K. apply map_eq. intros i. unfold visible. rewrite !map_lookup_filter.
  destruct (decide (i = name)) as [->|N]; [|by rewrite lookup_alter_ne].
  rewrite lookup_alter_eq. destruct (d !! name); cbn; [|done]. by rewrite !option_guard_False by (by rewrite K).
Qed.

(** All or nothing: the file is there with its whole content, or nothing that
    can be seen has changed. *)
Lemma commit_file_leaves name body words d0 : keep name = true ->
  leaves p (fun d => visible keep d = d0) (commit_file p prefix name body words)
    (fun _ d => visible keep d = <[name := File body]> d0)
    (fun d => visible keep d = d0 \/ visible keep d = <[name := File body]> d0).
Proof.
  intros K. set (I := fun d => visible keep d = d0). set (C := fun d => visible keep d = <[name := File body]> d0).
  set (E := fun d => I d \/ C d). assert (IE : forall d, I d -> E d) by (by left). unfold commit_file.
  apply (leaves_bind _ _ _ _ (fun t d => keep t = false /\ I d /\ d !! t = Some (File ""))).
  { apply leaves_worded, leaves_CreateTemp; [done|]. intros d n Hd Hn. split_and!; [done| |by rewrite lookup_insert_eq].
    unfold I. by rewrite visible_hidden. }
  intros t. destruct (keep t) eqn:Kt; [intros w [[=] _]|].
  apply (leaves_deferred _ _ _ _ (fun _ => C) _ E E).
  - apply (leaves_bind _ _ _ _ (fun _ d => I d /\ d !! t = Some (File ""))).
    { apply (leaves_weaken _ _ (fun d => I d /\ d !! t = Some (File "")) _ (fun _ d => I d /\ d !! t = Some (File "")) _ E);
        [|by intros d (_ & ?)|done|done].
      apply leaves_worded, leaves_or_close, leaves_Chmod. naive_solver. }
    intros _. apply (leaves_bind _ _ _ _ (fun _ d => I d /\ d !! t = Some (File body))).
    { apply leaves_worded, leaves_or_close, leaves_Write.
      - intros d (Hd & Ht). split; [unfold I; by rewrite visible_alter|]. by rewrite lookup_alter_eq, Ht.
      - intros d n (Hd & Ht). left. unfold I. by rewrite visible_alter. }
    intros _. apply (leaves_bind _ _ _ _ (fun _ d => I d /\ d !! t = Some (File body))).
    { apply leaves_worded, leaves_or_close, leaves_Chmod. naive_solver. }
    intros _. apply (leaves_bind _ _ _ _ (fun _ d => I d /\ d !! t = Some (File body))).
    { apply leaves_worded, leaves_Chmod. naive_solver. }
    intros _. apply leaves_worded. apply leaves_Rename; [naive_solver|]. intros d e (Hd & Ht) He.
    assert (e = File body) as -> by congruence. unfold C. rewrite visible_insert, visible_delete by done. by rewrite Hd.
  - intros _. apply leaves_ignored; [|by right]. apply leaves_Remove; [|done]. intros d Hd. unfold C. by rewrite visible_delete.
  - apply leaves_ignored; [|done]. apply leaves_Remove; [|done]. intros d Hd. unfold E, I, C. by rewrite visible_delete.
  - done.
Qed.

End Commit.
