(* ===== verification/DiskQueue.v ===== *)
(** * The persistent queue of agents and collectors (agent/queue.go) *)

From S2P Require Import Prelude GoLang GoFormat GoUtf8 Json GoTime Core AgentEvent HostFiles.

Definition ErrQueueFull := New "agent persistent queue is full".

(** Nanoseconds from 1970 to [t], as an [int64]. *)
Definition unix_epoch : Time := 62135596800 * Second.
Definition UnixNano (t : Time) : Z := wrap64 (t - unix_epoch).

(** [fmt.Sprintf("%020d", n)] *)
Definition sprintf_020d (n : Z) : string := if n <? 0 then "-" +:+ pad_digits 19 (- n) else pad_digits 20 n.

Definition event_file (entry : string * Entry) : bool :=
  match entry.2 with Folder _ => false | File _ => HasSuffix entry.1 ".event" end.

Definition put_memory (f : DiskQueue -> DiskQueue) : HostM unit := change_host (fun h => h {{ ho_memory ::= f }}).
Definition get_memory {A} (f : DiskQueue -> A) : HostM A := read_host (fun h => f (ho_memory h)).

(** ** Measuring *)

Fixpoint measure_entries (l : list (string * Entry)) (count bytes : Z) : HostM (Z * Z) :=
  match l with
  | [] => ret (count, bytes)
  | entry :: l =>
      if negb (event_file entry) then measure_entries l count bytes else
      let! size := Stat QueueDir entry.1 in
      measure_entries l (count + 1) (wrap64 (bytes + size))
  end.

Definition measureLocked : HostM unit :=
  let! l := wrapping "measure agent queue" (ReadDir QueueDir) in
  let! (count, bytes) := measure_entries l 0 0 in
  put_memory (fun q => q {{ dq_count := count; dq_bytes := bytes; dq_measured := true }}).

Definition ensureMeasuredLocked : HostM unit :=
  let! measured := get_memory dq_measured in
  if measured : bool then ret tt else measureLocked.

Definition Depth : HostM (Z * Z) :=
  do! ensureMeasuredLocked in
  get_memory (fun q => (dq_count q, dq_bytes q)).

Definition sizeLocked : HostM Z :=
  do! ensureMeasuredLocked in
  get_memory dq_bytes.

(** A call of the constructor starts with the memory of a new process. *)
Definition OpenDiskQueue (directory : string) (maxBytes : Z) : HostM unit :=
  let directory := TrimSpace directory in
  if (directory == "") || (maxBytes <=? 0) then fail (New "queue directory and positive byte limit are required") else
  do! wrapping "create agent queue" (syscall (ret tt)) in
  do! change_host (crashed directory maxBytes) in
  do! Depth in
  ret tt.

(** ** Adding *)

Definition queue_words : commit_words := {|
  on_create := Some "create queued event"; on_secure := Some "secure queued event"; on_write := Some "write queued event";
  on_sync := Some "sync queued event"; on_close := Some "close queued event"; on_rename := Some "commit queued event" |}.

Definition enqueueLocked (item : QueueItem) (name : string) : HostM QueueItem :=
  let! body := wrapping "encode queued event" (lift (marshal_item item)) in
  let! used := sizeLocked in
  let! maxBytes := get_memory dq_maxBytes in
  if maxBytes <? wrap64 (used + string_len body)
  then fail (Wrap ("used=" +:+ Itoa used +:+ " incoming=" +:+ Itoa (string_len body) +:+ " limit=" +:+ Itoa maxBytes) ErrQueueFull) else
  do! commit_file QueueDir ".pending-" name body queue_words in
  do! put_memory (fun q => q {{ dq_count ::= fun n => n + 1; dq_bytes ::= fun n => wrap64 (n + string_len body) }}) in
  ret (item {{ qi_file := name }}).

Definition queue_name (now : Time) (queueID : string) : string :=
  sprintf_020d (UnixNano now) +:+ "-" +:+ queueID +:+ ".event".

Definition Enqueue (event : AgentEvent) : HostM QueueItem :=
  let! random := Random in
  let item := {| qi_QueueID := NewID "queue" random; qi_Event := event; qi_file := "" |} in
  let! now := Now in
  enqueueLocked item (queue_name now (qi_QueueID item)).

Definition unique_key (eventID : string) : string := EncodeToString (take 16 (Sha256.digest (string_bytes eventID))).
Definition unique_name (eventID : string) : string := "unique-" +:+ unique_key eventID +:+ ".event".

Definition EnqueueUnique (event : AgentEvent) : HostM QueueItem :=
  if TrimSpace (ev_EventID event) == "" then fail (New "stable event ID is required for unique enqueue") else
  let name := unique_name (ev_EventID event) in
  fun w => match ReadFile QueueDir name w with
  | (Panic, w) => (Panic, w)
  | (Ok body, w) =>
      match unmarshal_item body with
      | Some existing =>
          if ev_EventID (qi_Event existing) != ev_EventID event then (Err (New "invalid unique queued event"), w)
          else (Ok (existing {{ qi_file := name }}), w)
      | None => (Err (New "invalid unique queued event"), w)
      end
  | (Err e, w) =>
      if negb (errors_Is e ErrNotExist) then (Err (Wrap "read unique queued event" e), w)
      else enqueueLocked {| qi_QueueID := "queue_unique_" +:+ unique_key (ev_EventID event); qi_Event := event; qi_file := "" |} name w
  end.

(** ** Taking *)

Fixpoint peek_entries (l : list (string * Entry)) (limit : Z) (items : list QueueItem) : HostM (list QueueItem) :=
  match l with
  | [] => ret items
  | entry :: l =>
      if negb (event_file entry) then peek_entries l limit items else
      let! body := wrapping ("read queued event " +:+ entry.1) (ReadFile QueueDir entry.1) in
      match unmarshal_item body with
      | None => fail (New ("decode queued event " +:+ entry.1))
      | Some item =>
          let items := items ++ [item {{ qi_file := entry.1 }}] in
          if Z.of_nat (length items) =? limit then ret items else peek_entries l limit items
      end
  end.

Definition Peek (limit : Z) : HostM (list QueueItem) :=
  let limit := if limit <=? 0 then 100 else limit in
  let! l := wrapping "read agent queue" (ReadDir QueueDir) in
  peek_entries l limit [].

(** The totals after a removal; an implausible one is measured again. *)
Definition forget (removed : Z) (q : DiskQueue) : DiskQueue :=
  let count := if 0 <? dq_count q then dq_count q - 1 else dq_count q in
  let bytes := wrap64 (dq_bytes q - removed) in
  q {{ dq_count := count; dq_bytes := bytes;
       dq_measured ::= fun m => m && negb ((bytes <? 0) || (count =? 0) && negb (bytes =? 0)) }}.

Definition Ack (item : QueueItem) : HostM unit :=
  if (qi_file item == "") || (path_Base (qi_file item) != qi_file item) || negb (HasSuffix (qi_file item) ".event")
  then fail (New "invalid queued event reference") else
  let! removed := catch (Stat QueueDir (qi_file item)) (fun e =>
    if errors_Is e ErrNotExist then ret 0
    else do! put_memory (fun q => q {{ dq_measured := false }}) in ret 0) in
  do! catch (Remove QueueDir (qi_file item)) (fun e =>
    if errors_Is e ErrNotExist then ret tt
    else do! put_memory (fun q => q {{ dq_measured := false }}) in fail (Wrap "acknowledge queued event" e)) in
  put_memory (forget removed).

(** The time of a name that begins with one. *)
Fixpoint before_dash (s : string) : option string :=
  match s with
  | EmptyString => None
  | String c r => if c == "-"%char then Some "" else p ← before_dash r; Some (String c p)
  end.

Fixpoint oldest (l : list (string * Entry)) : option Time :=
  match l with
  | [] => None
  | entry :: l =>
      if negb (event_file entry) then oldest l else
      match before_dash entry.1 with
      | None | Some "" => oldest l
      | Some digits =>
          match ParseInt digits with
          | Some nanoseconds => if nanoseconds <=? 0 then oldest l else Some (unix_epoch + nanoseconds)
          | None => oldest l
          end
      end
  end.

Definition OldestQueuedAt : HostM (option Time) :=
  let! l := wrapping "read agent queue" (ReadDir QueueDir) in
  ret (oldest l).
