(* ===== verification/Forwarding.v ===== *)
(** * Delivery to the gateway (agent/forwarder.go and the loops of cmd/agent
    and cmd/collector)

    The gateway is an interface: its answers are an arbitrary function of the
    call and of the runtime.  An answer is the status of the response and the
    receipts its body decodes to, if it does.  Tokens, TLS and headers are not
    modelled beyond the error of the token source. *)

From S2P Require Import Prelude GoLang GoFormat GoUtf8 Json GoTime Core AgentEvent HostFiles DiskQueue.

Definition MaxBatchEvents : Z := 500.
Definition MaxBatchRequestBytes : Z := 16 * 1048576.

(** [ingest.Receipt] *)
Record Receipt : Type := {
  re_MessageID : string;
  re_EventID : string;
  re_Status : string;
  re_Topic : string;
  re_AcceptedAt : Time
}.

Record Response (A : Type) : Type := { rs_StatusCode : Z; rs_decoded : option A }.
Arguments rs_StatusCode {A} _.
Arguments rs_decoded {A} _.

Class Gateway : Type := {
  gw_token : Runtime -> option error;
  gw_event : Runtime -> AgentEvent -> outcome (Response Receipt);
  gw_batch : Runtime -> string -> outcome (Response (list Receipt));
  gw_cancelled : Runtime -> option error
}.

(** ** Requests *)

(** [RawBatchItem] *)
Definition batch_item_json (e : AgentEvent) : Json := JObject (
  [("format", text_value (ev_Format e))]
  ++ omit_empty "content_type" (ev_ContentType e) ++ omit_empty "event_id" (ev_EventID e)
  ++ [("event_timestamp", JString (FormatRFC3339Nano (ev_EventTimestamp e)))]
  ++ omit_empty "source_id" (ev_SourceID e) ++ omit_empty "source_address" (ev_SourceAddress e)
  ++ [("payload", match ev_Payload e with Some bytes => JString (base64_encode bytes) | None => JNull end)]).

Definition valid_year (e : AgentEvent) : bool := (0 <=? time_Year (ev_EventTimestamp e)) && (time_Year (ev_EventTimestamp e) <=? 9999).

Definition marshal_batch (events : list AgentEvent) : outcome string :=
  if forallb valid_year events
  then Ok (json_print (JObject [("items", JArray (List.map batch_item_json events))]))
  else Err (New "Time.MarshalJSON: year outside of range [0,9999]").

Section Forwarder.
Context `{Gateway}.

Definition external {A} (call : Runtime -> outcome A) : HostM A := syscall (fun w => (call (w_rt w), w)).

Definition authorize : HostM unit := fun w =>
  match gw_token (w_rt w) with
  | Some e => (Err (Wrap "obtain collector access token" e), w)
  | None => (Ok tt, w)
  end.

(** The agent knows the events accepted. *)
Definition acknowledged (events : list AgentEvent) : HostM unit :=
  change_host (fun h => h {{ ho_accepted ::= fun l => l ++ events }}).

Definition Send (event : AgentEvent) : HostM Receipt :=
  do! authorize in
  let! response := wrapping "send event to KCSP" (external (fun rt => gw_event rt event)) in
  if rs_StatusCode response != 202 then fail (New ("KCSP ingest returned " +:+ Itoa (rs_StatusCode response))) else
  match rs_decoded response with
  | None => fail (New "decode KCSP receipt")
  | Some receipt =>
      if (re_Status receipt != "QUEUED") || (re_EventID receipt != ev_EventID event)
      then fail (New ("invalid KCSP receipt for event " +:+ ev_EventID event))
      else do! acknowledged [event] in ret receipt
  end.

Fixpoint check_receipts (index : Z) (receipts : list Receipt) (events : list AgentEvent) : outcome unit :=
  match receipts, events with
  | receipt :: receipts, event :: events =>
      if (re_Status receipt != "QUEUED") || (re_EventID receipt != ev_EventID event)
      then Err (New ("invalid KCSP batch receipt at index " +:+ Itoa index +:+ " for event " +:+ ev_EventID event))
      else check_receipts (index + 1) receipts events
  | _, _ => Ok tt
  end.

Definition SendBatch (events : list AgentEvent) : HostM (list Receipt) :=
  let count := Z.of_nat (length events) in
  if (count =? 0) || (MaxBatchEvents <? count)
  then fail (New ("agent batch must contain between 1 and " +:+ Itoa MaxBatchEvents +:+ " events")) else
  let! body := wrapping "encode agent ingest batch" (lift (marshal_batch events)) in
  if MaxBatchRequestBytes <? string_len body
  then fail (New ("encoded agent ingest batch exceeds " +:+ Itoa MaxBatchRequestBytes +:+ " bytes")) else
  do! authorize in
  let! response := wrapping "send event batch to KCSP" (external (fun rt => gw_batch rt body)) in
  if rs_StatusCode response != 202 then fail (New ("KCSP batch ingest returned " +:+ Itoa (rs_StatusCode response))) else
  match rs_decoded response with
  | None => fail (New "decode KCSP batch receipt")
  | Some receipts =>
      if Z.of_nat (length receipts) != count
      then fail (New ("KCSP batch receipt count " +:+ Itoa (Z.of_nat (length receipts)) +:+ " does not match submitted count " +:+ Itoa count)) else
      do! lift (check_receipts 0 receipts events) in
      do! acknowledged events in
      ret receipts
  end.

(** ** The agent's loops (cmd/agent/main.go) *)

Definition estimate (item : QueueItem) : Z := string_len (payload_bytes (qi_Event item)) * 4 / 3 + 1024.

(** The items of a batch: as many of the oldest as the byte limit takes. *)
Fixpoint select_batch (maximumBytes : Z) (items : list QueueItem) (selected : list QueueItem) (estimatedBytes : Z)
    : outcome (list QueueItem) :=
  match items with
  | [] => Ok selected
  | item :: items =>
      let size := estimate item in
      if maximumBytes <? size
      then Err (New ("queued event " +:+ ev_EventID (qi_Event item) +:+ " exceeds configured batch byte limit"))
      else if (0 <? Z.of_nat (length selected)) && (maximumBytes <? estimatedBytes + size) then Ok selected
      else select_batch maximumBytes items (selected ++ [item]) (estimatedBytes + size)
  end.

Definition flush (batchSize maximumBytes : Z) : HostM Z :=
  let! items := Peek batchSize in
  let! selected := lift (select_batch maximumBytes items [] 0) in
  if bool_decide (selected = []) then ret 0 else
  do! SendBatch (List.map qi_Event selected) in
  do! forM_ selected Ack in
  ret (Z.of_nat (length selected)).

(** The number delivered and the error that ended the loop. *)
Fixpoint drain_loop (fuel : nat) (batchSize maximumBytes : Z) (deadline : Time) (delivered : Z) : HostM (Z * option error) :=
  match fuel with
  | O => fail (New "out of fuel")
  | S fuel => fun w =>
      match gw_cancelled (w_rt w) with
      | Some e => (Ok (delivered, Some e), w)
      | None =>
          match flush batchSize maximumBytes w with
          | (Panic, w) => (Panic, w)
          | (Err e, w) => (Ok (delivered, Some e), w)
          | (Ok sent, w) =>
              let delivered := delivered + sent in
              if sent <? batchSize then (Ok (delivered, None), w) else
              (let! now := Now in
               if negb (Before now deadline) then ret (delivered, None)
               else drain_loop fuel batchSize maximumBytes deadline delivered) w
          end
      end
  end.

Definition drain (fuel : nat) (batchSize maximumBytes : Z) (budget : Duration) : HostM (Z * option error) :=
  let! now := Now in drain_loop fuel batchSize maximumBytes (time_Add now budget) 0.

(** The events a source has read: each is queued before its checkpoint moves.
    A full queue ends the loop. *)
Fixpoint persist_events (commit : AgentEvent -> HostM unit) (events : list AgentEvent) (persisted : Z) : HostM (Z * bool) :=
  match events with
  | [] => ret (persisted, false)
  | event :: events => fun w =>
      match Enqueue event w with
      | (Panic, w) => (Panic, w)
      | (Err e, w) => if errors_Is e ErrQueueFull then (Ok (persisted, true), w) else (Err e, w)
      | (Ok _, w) => (do! commit event in persist_events commit events (persisted + 1)) w
      end
  end.

(** ** The collector's loop (cmd/collector/main.go) *)

Definition collector_flush (batchSize : Z) : HostM unit :=
  let! items := Peek batchSize in
  forM_ items (fun item => do! Send (qi_Event item) in Ack item).

End Forwarder.
