(* ===== verification/JournalSource.v ===== *)
(** * The journal of a Linux host as a source (agent/journal.go)

    [journalctl] is an interface: what a run of it prints and how it ends are
    an arbitrary function of its arguments.  The checkpoint is a file of the
    state directory. *)

From S2P Require Import Prelude GoLang GoFormat GoUtf8 Json GoTime Core AgentEvent HostFiles DiskQueue.

Definition MaxEventBytes : Z := 1048576.
Definition FormatJournaldJSON : string := "linux-journald-json-v1".
Definition ErrUnsupportedSource := New "event source is not supported on this operating system".

Definition carriage_return : ascii := "013".
Definition newline : ascii := "010".
Definition crlf : string := String carriage_return (String newline "").

Record JournalSource : Type := { js_matches : list string }.

(** ** Matches *)

(** [strings.Cut(s, "=")] *)
Fixpoint cut_equals (s : string) : option (string * string) :=
  match s with
  | EmptyString => None
  | String c s => if c == "="%char then Some ("", s) else '(field, value) ← cut_equals s; Some (String c field, value)
  end.

Definition journal_field_char (index : Z) (c : ascii) : bool :=
  (c == "_"%char) || byte_in 65 90 c || (0 <? index) && is_digit c.

Fixpoint journal_field_name (index : Z) (field : string) : bool :=
  match field with
  | EmptyString => true
  | String c field => journal_field_char index c && journal_field_name (index + 1) field
  end.

Definition validJournalMatch (s : string) : bool :=
  match cut_equals s with
  | None => false
  | Some (field, value) =>
      if (string_len field =? 0) || (64 <? string_len field) || (value == "") || ContainsAny value (String "000" crlf) then false
      else journal_field_name 0 field
  end.

Fixpoint validate_matches (l : list string) : outcome (list string) :=
  match l with
  | [] => Ok []
  | s :: l =>
      let s := TrimSpace s in
      if s == "" then validate_matches l else
      if negb (validJournalMatch s) then Err (New "invalid journald match; expected FIELD=value") else
      match validate_matches l with Ok l => Ok (s :: l) | r => r end
  end.

Definition NewJournalSource (stateDirectory : string) (matches : list string) : HostM JournalSource :=
  if TrimSpace stateDirectory == "" then fail (New "agent state directory is required") else
  do! wrapping "create agent state directory" (syscall (ret tt)) in
  let! validated := lift (validate_matches matches) in
  ret {| js_matches := validated |}.

(** ** The checkpoint *)

Definition checkpointFile : string := "journald.checkpoint".

Definition checkpoint : HostM string := fun w =>
  match ReadFile StateDir checkpointFile w with
  | (Panic, w) => (Panic, w)
  | (Err e, w) => if errors_Is e ErrNotExist then (Ok "", w) else (Err (Wrap "read journald checkpoint" e), w)
  | (Ok body, w) =>
      let stored := TrimSpace body in
      if ContainsAny stored crlf then (Err (New "stored journald checkpoint is invalid"), w) else (Ok stored, w)
  end.

Definition checkpoint_words : commit_words := {|
  on_create := Some "create journald checkpoint"; on_secure := Some "secure journald checkpoint";
  on_write := Some "write journald checkpoint"; on_sync := Some "sync journald checkpoint";
  on_close := Some "close journald checkpoint"; on_rename := Some "commit journald checkpoint" |}.

Definition CommitEvent (event : AgentEvent) : HostM unit :=
  let next := TrimSpace (ev_Checkpoint event) in
  if (next == "") || ContainsAny next crlf then fail (New "cannot commit empty or invalid journald checkpoint") else
  let! current := checkpoint in
  if next == current then ret tt else
  commit_file StateDir ".journald-checkpoint-" checkpointFile next checkpoint_words.

(** ** Entries *)

Definition as_octet (v : Json) : option Z :=
  match v with JNumber literal => ParseInt literal | JNull => Some 0 | _ => None end.

Fixpoint octets_string (octets : list Z) : string :=
  match octets with
  | [] => ""
  | v :: octets => if (v <? 0) || (255 <? v) then "" else String (byte_char v) (octets_string octets)
  end.

(** The members of a map: a later one replaces an earlier one. *)
Definition raw_fields (members : list (string * Json)) : gmap string Json :=
  fold_left (fun m kv => <[unquote kv.1 := kv.2]> m) members ∅.

Definition journalField (fields : gmap string Json) (key : string) : string :=
  match fields !! key with
  | None => ""
  | Some (JString raw) => unquote raw
  | Some (JArray items) =>
      match mapM as_octet items with
      | Some octets => if forallb (fun v => (0 <=? v) && (v <=? 255)) octets then octets_string octets else ""
      | None => ""
      end
  | Some _ => ""
  end.

Fixpoint firstJournalValue (values : list string) : string :=
  match values with
  | [] => ""
  | value :: values => let value := TrimSpace value in if value != "" then value else firstJournalValue values
  end.

Definition parseJournalEvent (raw : string) : outcome AgentEvent :=
  if (string_len raw =? 0) || (MaxEventBytes <? string_len raw) then Err (New "decode journald event: valid bounded JSON is required") else
  match json_parse raw with
  | None => Err (New "decode journald event: valid bounded JSON is required")
  | Some v =>
      match (match v with JObject members => Some (raw_fields members) | JNull => Some ∅ | _ => None end) with
      | None => Err (New "decode journald event")
      | Some fields =>
          let cursor := journalField fields "__CURSOR" in
          if (cursor == "") || ContainsAny cursor crlf then Err (New "decode journald event: __CURSOR is required") else
          let source := journalField fields "_SOURCE_REALTIME_TIMESTAMP" in
          let timestamp := if source == "" then journalField fields "__REALTIME_TIMESTAMP" else source in
          match ParseInt timestamp with
          | None => Err (New "decode journald event: realtime timestamp is required")
          | Some microseconds =>
              if microseconds <=? 0 then Err (New "decode journald event: realtime timestamp is required") else
              let hostname := TrimSpace (journalField fields "_HOSTNAME") in
              let machineID := TrimSpace (journalField fields "_MACHINE_ID") in
              let hostIdentity := ToLower (firstJournalValue [machineID; hostname]) in
              if hostIdentity == "" then Err (New "decode journald event: machine or host identity is required") else
              let identity := Sha256.digest (string_bytes (hostIdentity +:+ "|" +:+ cursor)) in
              Ok {| ev_Format := FormatJournaldJSON; ev_ContentType := "application/json";
                    ev_EventID := "journal_" +:+ EncodeToString (take 12 identity);
                    ev_EventTimestamp := unix_epoch + microseconds * Microsecond;
                    ev_SourceID := "host:" +:+ hostIdentity; ev_SourceAddress := hostname;
                    ev_Payload := Some raw; ev_Cursor := 0; ev_Checkpoint := cursor |}
          end
      end
  end.

(** ** Reading *)

(** [bufio.Scanner] with lines: what it yields and whether it gives up on a
    line that its buffer cannot hold. *)
Fixpoint scan_lines (limit : Z) (s line : string) : list string * bool :=
  match s with
  | EmptyString =>
      if line == "" then ([], false) else if limit <=? string_len line then ([], true) else ([TrimSuffix line (String carriage_return "")], false)
  | String c s =>
      if limit <=? string_len line then ([], true)
      else if c == newline then let '(lines, long) := scan_lines limit s "" in (TrimSuffix line (String carriage_return "") :: lines, long)
      else scan_lines limit s (line +:+ String c "")
  end.

Record JournalRun : Type := {
  jr_stdout : string;
  jr_broken : bool;  (* its output could not be read to the end *)
  jr_wait : option error;  (* the exit of the process *)
  jr_cancelled : bool  (* the context of the call has ended *)
}.

Class Journalctl : Type := {
  jc_linux : bool;
  jc_start : Runtime -> list string -> outcome JournalRun
}.

(** The loop over the lines: the events, and the outcome when it is decided. *)
Fixpoint scan_events (limit : Z) (lines : list string) (events : list AgentEvent) : outcome (list AgentEvent * bool) :=
  match lines with
  | [] => Ok (events, false)
  | line :: lines =>
      match parseJournalEvent line with
      | Ok event =>
          let events := events ++ [event] in
          if Z.of_nat (length events) =? limit then Ok (events, true) else scan_events limit lines events
      | Err e => Err e
      | Panic => Panic
      end
  end.

Definition Read `{Journalctl} (source : JournalSource) (limit : Z) : HostM (list AgentEvent) :=
  if negb jc_linux then fail (Wrap "journald requires Linux" ErrUnsupportedSource) else
  let limit := if (limit <=? 0) || (1000 <? limit) then 100 else limit in
  let! current := checkpoint in
  let arguments := ["--output=json"; "--no-pager"; "--quiet"; "--utc"]
    ++ (if current == "" then ["--lines"; Itoa limit] else ["--after-cursor"; current]) ++ js_matches source in
  let! run := wrapping "start journalctl" (syscall (fun w => (jc_start (w_rt w) arguments, w))) in
  let '(lines, long) := scan_lines MaxEventBytes (jr_stdout run) "" in
  let! (events, full) := lift (scan_events limit lines []) in
  if full then ret events else
  if long || jr_broken run then fail (New "read journalctl output") else
  match jr_wait run with
  | Some e => if negb (jr_cancelled run) then fail (Wrap "query journald" e) else ret events
  | None => ret events
  end.
