(* ===== verification/Syslog.v ===== *)
(** * Network events (collector/syslog.go)

    How a stream or a datagram is split into payloads, and how a payload
    becomes an event of the queue.  The time that a payload states for itself
    ([originalEventTimestamp], which reads floating-point numbers) is an
    arbitrary function of the payload and of the time it was received. *)

From S2P Require Import Prelude GoLang GoFormat GoUtf8 Json GoTime Core AgentEvent HostFiles DiskQueue Forwarding JournalSource.

Definition FormatSyslog : string := "syslog-v1".
Definition FormatCEF : string := "cef-v1".
Definition FormatLEEF : string := "leef-v2".
Definition FormatSuricataEVE : string := "suricata-eve-json-v1".
Definition FormatZeekJSON : string := "zeek-json-v1".
Definition FormatGenericJSON : string := "generic-json-v1".

Definition nul : ascii := "000".

(** ** Events *)

(** [strings.Index] *)
Fixpoint string_index (s sub : string) : option Z :=
  if HasPrefix s sub then Some 0 else
  match s with EmptyString => None | String _ r => i ← string_index r sub; Some (i + 1) end.

(** The marker of a format at the start, or after a header of less than 128
    bytes. *)
Definition has_marker (trimmed marker : string) : bool :=
  HasPrefix trimmed marker || match string_index trimmed marker with Some i => (0 <? i) && (i <? 128) | None => false end.

Definition detectFormat (payload : string) : string * string :=
  let trimmed := TrimSpace payload in
  if has_marker trimmed "CEF:" then (FormatCEF, "text/plain")
  else if has_marker trimmed "LEEF:" then (FormatLEEF, "text/plain")
  else match json_parse payload with
  | Some v =>
      let fields := match v with JObject members => raw_fields members | _ => ∅ end in
      let has key := bool_decide (is_Some (fields !! key)) in
      if has "event_type" && existsb has ["src_ip"; "dest_ip"; "flow_id"; "alert"; "dns"; "http"; "tls"] then (FormatSuricataEVE, "application/json")
      else if has "ts" && has "id.orig_h" then (FormatZeekJSON, "application/json")
      else (FormatGenericJSON, "application/json")
  | None => (FormatSyslog, "text/plain")
  end.

Class PayloadTime : Type := { originalEventTimestamp : string -> Time -> Time }.

Section Events.
Context `{PayloadTime}.

Definition networkEvent (sourceID sourceAddress payload : string) (receivedAt : Time) : outcome AgentEvent :=
  let payload := trim_right_set [carriage_return; newline; nul] payload in
  if (string_len (TrimSpace payload) =? 0) || (MaxEventBytes <? string_len payload)
  then Err (New "network event payload size is invalid") else
  let '(format, contentType) := detectFormat payload in
  let eventTimestamp := originalEventTimestamp payload receivedAt in
  let identity := Sha256.digest (string_bytes
    (sourceID +:+ String nul (FormatRFC3339Nano eventTimestamp +:+ String nul payload))) in
  Ok {| ev_Format := format; ev_ContentType := contentType; ev_EventID := "net_" +:+ EncodeToString (take 12 identity);
        ev_EventTimestamp := eventTimestamp; ev_SourceID := sourceID; ev_SourceAddress := sourceAddress;
        ev_Payload := Some payload; ev_Cursor := 0; ev_Checkpoint := "" |}.

(** A datagram that is empty, too large or no event is dropped. *)
Definition receive_datagram (maximumBytes : Z) (sourceID sourceAddress datagram : string) (receivedAt : Time) : option AgentEvent :=
  if (string_len datagram =? 0) || (maximumBytes <? string_len datagram) then None else
  match networkEvent sourceID sourceAddress datagram receivedAt with Ok event => Some event | _ => None end.

Lemma networkEvent_Ok sourceID sourceAddress payload t e : networkEvent sourceID sourceAddress payload t = Ok e ->
  event_ok e /\ ev_SourceID e = sourceID /\ ev_SourceAddress e = sourceAddress /\
  ev_Payload e = Some (trim_right_set [carriage_return; newline; nul] payload).
Proof.
  unfold networkEvent. destruct (_ || _); [done|]. destruct (detectFormat _) as [f c]. intros [= <-]. split; [|done].
  unfold event_ok, max_uint64, two64. cbn. lia.
Qed.

End Events.

(** ** Frames *)

(** [bufio.Reader.ReadSlice] with a buffer of [size] bytes, on what the
    connection still brings. *)
Inductive Slice : Type :=
  | SliceLine (line rest : string)  (* up to and with the newline *)
  | SliceEnd (line : string)  (* the input has ended *)
  | SliceFull.

Fixpoint read_slice (size : Z) (s : string) : Slice :=
  if size <=? 0 then SliceFull else
  match s with
  | EmptyString => SliceEnd ""
  | String c s =>
      if c == newline then SliceLine (String c "") s else
      match read_slice (size - 1) s with
      | SliceLine line rest => SliceLine (String c line) rest
      | SliceEnd line => SliceEnd (String c line)
      | SliceFull => SliceFull
      end
  end.

(** [bufio.NewReaderSize(r, size)] *)
Definition reader_size (size : Z) : Z := Z.max 16 size.

Definition EOF := New "EOF".

(** The length of an octet-counted frame, and the payload it announces. *)
Fixpoint counted_frame (index : nat) (maximumBytes : Z) (length s : string) : outcome (string * string) :=
  match index with
  | O => Err (New "RFC 6587 frame length is too long")
  | S index =>
      match s with
      | EmptyString => Err EOF
      | String character s =>
          if character == " "%char then
            if string_len length =? 0 then Err (New "empty RFC 6587 frame length") else
            match Atoi length with
            | Some count =>
                if (count <=? 0) || (maximumBytes <? count) then Err (New "invalid RFC 6587 frame length")
                else if string_len s <? count then Err (New "unexpected EOF")
                else Ok (string_take (Z.to_nat count) s, string_drop (Z.to_nat count) s)
            | None => Err (New "invalid RFC 6587 frame length")
            end
          else if negb (is_digit character) then Err (New "invalid RFC 6587 frame prefix")
          else counted_frame index maximumBytes (length +:+ String character "") s
      end
  end.

(** The payload and what follows it. *)
Definition readSyslogFrame (maximumBytes : Z) (s : string) : outcome (string * string) :=
  match s with
  | EmptyString => Err EOF
  | String first _ =>
      if is_digit first then counted_frame 10 maximumBytes "" s else
      let line (text rest : string) :=
        if maximumBytes + 2 <? string_len text then Err (New "non-transparent syslog frame is too large")
        else Ok (trim_right_set [carriage_return; newline] text, rest) in
      match read_slice (reader_size (maximumBytes + 2)) s with
      | SliceFull => Err (New "non-transparent syslog frame is too large")
      | SliceLine text rest => line text rest
      | SliceEnd text => line text ""
      end
  end.

(** The loop of [receiveStream]: the payloads until an error closes the
    connection. *)
Fixpoint stream_payloads (fuel : nat) (maximumBytes : Z) (s : string) : list string :=
  match fuel with
  | O => []
  | S fuel =>
      match readSyslogFrame maximumBytes s with
      | Ok (payload, rest) => payload :: stream_payloads fuel maximumBytes rest
      | _ => []
      end
  end.

Definition receive_stream (maximumBytes : Z) (s : string) : list string := stream_payloads (S (String.length s)) maximumBytes s.

(** ** What a sender frames is what the receiver gets *)

Inductive Frame : Type :=
  | Counted (payload : string)  (* RFC 6587: the length, a blank, the payload *)
  | Terminated (payload : string).  (* up to the newline *)

Definition frame_payload (f : Frame) : string := match f with Counted p | Terminated p => p end.

Definition frame_bytes (f : Frame) : string :=
  match f with
  | Counted p => Itoa (string_len p) +:+ " " +:+ p
  | Terminated p => p +:+ String newline ""
  end.

Definition starts_with_digit (s : string) : bool := match s with String c _ => is_digit c | EmptyString => false end.

(** A terminated payload has no newline, does not end with a carriage return
    and does not start with a digit. *)
Definition frame_ok (maximumBytes : Z) (f : Frame) : Prop :=
  match f with
  | Counted p => 0 < string_len p <= maximumBytes
  | Terminated p => string_len p <= maximumBytes + 1 /\ string_forallb (fun c => c != newline) p = true /\
      trim_right_set [carriage_return; newline] p = p /\ starts_with_digit p = false
  end.

Lemma digits_value_ge acc s : string_forallb is_digit s = true -> 0 <= acc -> acc * 10 ^ string_len s <= digits_value acc s.
Proof.
  revert acc. induction s as [|c s IH]; intros acc D A; [change (10 ^ string_len "") with 1; cbn [digits_value]; lia|]. cbn [string_forallb] in D. apply andb_true_iff in D as [C D].
  cbn [digits_value]. change (string_len (String c s)) with (Z.of_nat (S (String.length s))). rewrite Nat2Z.inj_succ, Z.pow_succ_r by lia.
  unfold is_digit in C. apply andb_true_iff in C as [C1 C2]. apply Z.leb_le in C1, C2.
  specialize (IH (acc * 10 + (byte_code c - 48)) D ltac:(lia)). unfold string_len in IH.
  assert (P : 0 < 10 ^ Z.of_nat (String.length s)) by (apply Z.pow_pos_nonneg; lia). nia.
Qed.

Lemma Itoa_digits z : 0 <= z -> string_forallb is_digit (Itoa z) = true /\ starts_with_digit (Itoa z) = true /\ 0 < string_len (Itoa z).
Proof.
  intros H. destruct (Itoa_ok z H) as (_ & c & t & -> & C & T & _). cbn [starts_with_digit]. split_and!; [by apply forallb_digits_cons|done|].
  unfold string_len. cbn. lia.
Qed.

Lemma Itoa_short z : 0 <= z < 1000000000 -> string_len (Itoa z) <= 9.
Proof.
  intros [H L]. change 1000000000 with (10 ^ 9) in L. destruct (Itoa_ok z H) as (V & c & t & E & C & T & Z0). rewrite E in *. unfold string_len. cbn [String.length].
  destruct (decide (c = "0"%char)) as [->|N]; [rewrite (Z0 eq_refl); cbn; lia|]. cbn [digits_value] in V.
  assert (D : 1 <= byte_code c - 48).
  { unfold is_digit in C. apply andb_true_iff in C as [C1 C2]. apply Z.leb_le in C1, C2.
    destruct (Z.eq_dec (byte_code c) 48) as [E0|]; [|lia]. destruct N. revert E0. clear. all_bytes c; vm_compute; congruence. }
  assert (G := digits_value_ge (0 * 10 + (byte_code c - 48)) t T ltac:(lia)). rewrite V in G.
  assert (P : 10 ^ string_len t < 10 ^ 9) by nia. apply Z.pow_lt_mono_r_iff in P; unfold string_len in *; lia.
Qed.

Lemma Atoi_Itoa z : 0 <= z <= max_int -> Atoi (Itoa z) = Some z.
Proof.
  intros [H L]. destruct (Itoa_ok z H) as (V & c & t & E & C & T & _). rewrite E in *. unfold Atoi, ParseInt.
  assert (N1 : (c == "-"%char) = false) by (apply bool_decide_eq_false; intros ->; done).
  assert (N2 : (c == "+"%char) = false) by (apply bool_decide_eq_false; intros ->; done). rewrite N1, N2.
  rewrite (forallb_digits_cons c t C T), V. cbn [negb orb]. change (String c t == "") with (bool_decide (String c t = "")).
  rewrite bool_decide_eq_false_2 by done. cbn [orb]. by rewrite (proj2 (Z.leb_le z max_int)).
Qed.

Lemma take_append p rest : string_take (String.length p) (p +:+ rest) = p.
Proof. induction p as [|c p IH]; cbn; [by destruct rest|by rewrite IH]. Qed.

Lemma drop_append p rest : string_drop (String.length p) (p +:+ rest) = rest.
Proof. induction p as [|c p IH]; cbn; [by destruct rest|done]. Qed.

Lemma counted_frame_digits index maximumBytes acc ds rest : string_forallb is_digit ds = true -> (String.length ds < index)%nat ->
  counted_frame index maximumBytes acc (ds +:+ " " +:+ rest) = counted_frame (index - String.length ds) maximumBytes (acc +:+ ds) (" " +:+ rest).
Proof.
  revert index acc. induction ds as [|c ds IH]; intros index acc D L.
  { cbn [String.length]. by rewrite Nat.sub_0_r, append_nil. }
  destruct index as [|index]; [cbn in L; lia|]. cbn [string_forallb] in D. apply andb_true_iff in D as [C D]. cbn [String.length] in *.
  change (String c ds +:+ " " +:+ rest) with (String c (ds +:+ " " +:+ rest)). cbn [counted_frame Nat.sub].
  assert (N : (c == " "%char) = false) by (apply bool_decide_eq_false; intros ->; done). rewrite N, C. cbn [negb].
  rewrite IH by (try done; lia). by rewrite append_assoc.
Qed.

Lemma counted_reads maximumBytes p rest : 0 < string_len p <= maximumBytes -> maximumBytes <= MaxEventBytes ->
  readSyslogFrame maximumBytes (frame_bytes (Counted p) +:+ rest) = Ok (p, rest).
Proof.
  intros P M. destruct (Itoa_digits (string_len p)) as (D & S & L); [lia|].
  assert (Sh : string_len (Itoa (string_len p)) <= 9) by (apply Itoa_short; unfold MaxEventBytes in M; lia).
  cbn [frame_bytes]. rewrite !append_assoc. unfold readSyslogFrame.
  destruct (Itoa (string_len p)) as [|c ds] eqn:E; [done|]. cbn [starts_with_digit] in S. cbn [String.append]. rewrite S.
  change (String c (ds +:+ String " " (p +:+ rest))) with (String c ds +:+ " " +:+ (p +:+ rest)).
  unfold string_len in Sh. rewrite counted_frame_digits by (try done; lia).
  destruct (10 - String.length (String c ds))%nat as [|index] eqn:I; [lia|].
  change (" " +:+ p +:+ rest) with (String " " (p +:+ rest)). cbn [counted_frame]. rewrite bool_decide_eq_true_2 by done.
  change ("" +:+ String c ds) with (String c ds). rewrite (proj2 (Z.eqb_neq (string_len (String c ds)) 0)) by lia.
  rewrite <- E, Atoi_Itoa by (unfold max_int, two63, MaxEventBytes in *; lia).
  rewrite (proj2 (Z.leb_gt (string_len p) 0)), (proj2 (Z.ltb_ge maximumBytes (string_len p))) by lia. cbn [orb].
  rewrite (proj2 (Z.ltb_ge (string_len (p +:+ rest)) (string_len p))) by (unfold string_len; rewrite length_append; lia).
  unfold string_len at 1 2. by rewrite Nat2Z.id, take_append, drop_append.
Qed.

Lemma read_slice_line size p rest : string_forallb (fun c => c != newline) p = true -> string_len p < size ->
  read_slice size (p +:+ String newline rest) = SliceLine (p +:+ String newline "") rest.
Proof.
  revert size. induction p as [|c p IH]; intros size F L.
  - cbn [String.append read_slice]. change (string_len "") with 0 in L. rewrite (proj2 (Z.leb_gt size 0)) by lia. by rewrite bool_decide_eq_true_2.
  - cbn [string_forallb] in F. apply andb_true_iff in F as [C F]. unfold string_len in L. cbn [String.length] in L.
    cbn [String.append read_slice]. rewrite (proj2 (Z.leb_gt size 0)) by lia. apply negb_true_iff in C. rewrite C.
    rewrite IH by (try done; unfold string_len; lia). done.
Qed.

Lemma trim_terminated p : trim_right_set [carriage_return; newline] p = p ->
  trim_right_set [carriage_return; newline] (p +:+ String newline "") = p.
Proof.
  induction p as [|c p IH]; [done|]. cbn [trim_right_set String.append]. intros E.
  assert (Ep : trim_right_set [carriage_return; newline] p = p) by (destruct (_ && _); [done|by injection E]).
  rewrite IH by done. by rewrite Ep in E.
Qed.

Lemma terminated_reads maximumBytes p rest : 0 < maximumBytes -> frame_ok maximumBytes (Terminated p) ->
  readSyslogFrame maximumBytes (frame_bytes (Terminated p) +:+ rest) = Ok (p, rest).
Proof.
  intros M (L & F & T & S). cbn [frame_bytes]. rewrite append_assoc. change (String newline "" +:+ rest) with (String newline rest).
  assert (R : read_slice (reader_size (maximumBytes + 2)) (p +:+ String newline rest) = SliceLine (p +:+ String newline "") rest)
    by (apply read_slice_line; [done|unfold reader_size; lia]).
  assert (E : (let line (text rest : string) := if maximumBytes + 2 <? string_len text then Err (New "non-transparent syslog frame is too large")
      else Ok (trim_right_set [carriage_return; newline] text, rest) in
    match read_slice (reader_size (maximumBytes + 2)) (p +:+ String newline rest) with
    | SliceFull => Err (New "non-transparent syslog frame is too large") | SliceLine text rest => line text rest | SliceEnd text => line text "" end)
    = Ok (p, rest)).
  { rewrite R. cbv zeta beta. destruct (_ <? _) eqn:B; [|by rewrite trim_terminated].
    apply Z.ltb_lt in B. unfold string_len in *. rewrite length_append in B. cbn in B. lia. }
  unfold readSyslogFrame. destruct p as [|c p]; [exact E|]. cbn [starts_with_digit] in S. cbn [String.append] in *. by rewrite S.
Qed.

Lemma frame_bytes_nonempty f : frame_bytes f <> "".
Proof.
  destruct f as [p|p]; cbn [frame_bytes]; [|by destruct p].
  destruct (Itoa_digits (string_len p)) as (_ & _ & L); [unfold string_len; lia|]. by destruct (Itoa (string_len p)).
Qed.

Definition stream_bytes (frames : list Frame) : string := foldr String.append "" (List.map frame_bytes frames).

Lemma stream_bytes_length frames : (length frames <= String.length (stream_bytes frames))%nat.
Proof.
  induction frames as [|f frames IH]; [done|]. unfold stream_bytes in *. cbn [List.map foldr length]. rewrite length_append.
  assert (N := frame_bytes_nonempty f). destruct (frame_bytes f); [done|]. cbn. lia.
Qed.

(** C18. The receiver splits a stream of well-formed frames of both kinds, in
    any mixture, into exactly their payloads. *)
Theorem stream_splits_into_payloads maximumBytes frames : 0 < maximumBytes <= MaxEventBytes -> Forall (frame_ok maximumBytes) frames ->
  receive_stream maximumBytes (stream_bytes frames) = List.map frame_payload frames.
Proof.
  intros [M1 M2] F. unfold receive_stream. assert (L := stream_bytes_length frames). revert L. generalize (String.length (stream_bytes frames)).
  induction F as [|f frames Hf F IH]; intros n L; [done|]. cbn [length] in L. destruct n as [|n]; [lia|].
  assert (R : readSyslogFrame maximumBytes (frame_bytes f +:+ stream_bytes frames) = Ok (frame_payload f, stream_bytes frames))
    by (destruct f as [p|p]; [by apply counted_reads|by apply terminated_reads]).
  cbn [stream_payloads]. change (stream_bytes (f :: frames)) with (frame_bytes f +:+ stream_bytes frames). rewrite R.
  cbn [List.map]. f_equal. apply IH. lia.
Qed.

Lemma stream_splits_into_payloads_witness :
  receive_stream 64 (stream_bytes [Counted "<13>one"; Terminated "<13>two"; Counted "3 three"; Terminated ""]) = ["<13>one"; "<13>two"; "3 three"; ""].
Proof.
  refine (stream_splits_into_payloads 64 [Counted "<13>one"; Terminated "<13>two"; Counted "3 three"; Terminated ""] _ _).
  - split; vm_compute; congruence.
  - repeat constructor; vm_compute; congruence.
Defined.
