(* ===== verification/FileTail.v ===== *)
(** * Following log files (collector/filetail.go)

    The files that are followed belong to other programs: what [os.Lstat] says
    of one and what reading it yields are arbitrary functions of the runtime.
    A poll reads the content it finds when it opens the file.  The
    checkpoints are files of the state directory, under [file-checkpoints/]. *)

From S2P Require Import Prelude GoLang GoFormat GoUtf8 Json GoTime Core AgentEvent HostFiles DiskQueue Forwarding JournalSource Syslog.

Record FileSource : Type := {
  fs_Path : string;
  fs_SourceID : string;
  fs_Format : string;
  fs_StartAtEnd : bool
}.

Record FileTailConfig : Type := {
  ft_Sources : list FileSource;
  ft_MaximumEventBytes : Z;
  ft_MaximumLinesPerPoll : Z
}.

Record FileInfo : Type := { fi_Size : Z; fi_Regular : bool }.

Class LogFiles : Type := {
  lg_lstat : Runtime -> string -> outcome FileInfo;
  lg_content : Runtime -> string -> outcome string;
  lg_cancelled : Runtime -> option error
}.

(** ** Checkpoints *)

Definition file_checkpoint_names : list string := ["path"; "offset"; "fingerprint"; "updated_at"].

Definition checkpoint_json (c : fileCheckpoint) : Json := JObject (
  [("path", text_value (fc_Path c)); ("offset", JNumber (Itoa (fc_Offset c)))]
  ++ omit_empty "fingerprint" (fc_Fingerprint c) ++ [("updated_at", JString (FormatRFC3339Nano (fc_UpdatedAt c)))]).

Definition marshal_checkpoint (c : fileCheckpoint) : outcome string :=
  let y := time_Year (fc_UpdatedAt c) in
  if (y <? 0) || (9999 <? y) then Err (New "Time.MarshalJSON: year outside of range [0,9999]")
  else Ok (json_print (checkpoint_json c)).

Definition as_int64 (old : Z) (v : Json) : option Z :=
  match v with JNumber literal => ParseInt literal | JNull => Some old | _ => None end.

Definition set_checkpoint (name : string) (v : Json) (c : fileCheckpoint) : option fileCheckpoint :=
  if name == "path" then s ← as_string (fc_Path c) v; Some (c {{ fc_Path := s }})
  else if name == "offset" then n ← as_int64 (fc_Offset c) v; Some (c {{ fc_Offset := n }})
  else if name == "fingerprint" then s ← as_string (fc_Fingerprint c) v; Some (c {{ fc_Fingerprint := s }})
  else t ← as_time (fc_UpdatedAt c) v; Some (c {{ fc_UpdatedAt := t }}).

(** [DisallowUnknownFields] *)
Definition known_fields (names : list string) (v : Json) : bool :=
  match v with
  | JObject members => forallb (fun m => if field_name names (unquote m.1) is Some _ then true else false) members
  | _ => true
  end.

Definition zero_fileCheckpoint : fileCheckpoint := {| fc_Path := ""; fc_Offset := 0; fc_Fingerprint := ""; fc_UpdatedAt := zero_time |}.

(** A decoder reads one value and leaves what follows it. *)
Definition decode_first (body : string) : option Json := '(v, _) ← parse_value (2 * String.length body + 2) 0 body; Some v.

Definition decode_checkpoint (body : string) : option fileCheckpoint :=
  v ← decode_first body;
  if known_fields file_checkpoint_names v then decode_struct file_checkpoint_names set_checkpoint v zero_fileCheckpoint else None.

Definition fileCheckpointPath (sourcePath : string) : string :=
  "file-checkpoints/" +:+ EncodeToString (take 16 (Sha256.digest (string_bytes sourcePath))) +:+ ".json".

Definition file_checkpoint_words : commit_words := {|
  on_create := Some "create file checkpoint"; on_secure := None; on_write := None; on_sync := None; on_close := None;
  on_rename := Some "commit file checkpoint" |}.

Definition commitCheckpoint (checkpoint : fileCheckpoint) : HostM unit :=
  let! now := Now in
  let checkpoint := checkpoint {{ fc_UpdatedAt := now }} in
  let! body := lift (marshal_checkpoint checkpoint) in
  do! commit_file StateDir "file-checkpoints/.checkpoint-" (fileCheckpointPath (fc_Path checkpoint)) body file_checkpoint_words in
  change_host (fun h => h {{ ho_tails ::= <[fc_Path checkpoint := checkpoint]> }}).

Definition loadFileCheckpoint (sourcePath : string) : HostM (option fileCheckpoint) := fun w =>
  match ReadFile StateDir (fileCheckpointPath sourcePath) w with
  | (Panic, w) => (Panic, w)
  | (Err e, w) => if errors_Is e ErrNotExist then (Ok None, w) else (Err (Wrap "read file checkpoint" e), w)
  | (Ok body, w) =>
      match decode_checkpoint body with
      | Some checkpoint =>
          if (fc_Path checkpoint != sourcePath) || (fc_Offset checkpoint <? 0)
          then (Err (New ("invalid checkpoint for file source " +:+ sourcePath)), w)
          else (Ok (Some checkpoint), w)
      | None => (Err (New ("invalid checkpoint for file source " +:+ sourcePath)), w)
      end
  end.

(** ** The tailer *)

Definition collector_format_char (c : ascii) : bool :=
  byte_in 97 122 c || is_digit c || (c ∈? ["-"; "_"; "."]%char).

Definition validCollectorFormat (value : string) : bool :=
  negb ((value == "") || (64 <? string_len value)) && string_forallb collector_format_char value.

(** [filepath.Clean] on Unix: the parts that stay, the last one first. *)
Fixpoint clean_parts (rooted : bool) (parts kept : list string) : list string :=
  match parts with
  | [] => kept
  | part :: parts =>
      if (part == "") || (part == ".") then clean_parts rooted parts kept
      else if part == ".." then
        match kept with
        | last :: rest => if last == ".." then clean_parts rooted parts (part :: kept) else clean_parts rooted parts rest
        | [] => if rooted then clean_parts rooted parts kept else clean_parts rooted parts [part]
        end
      else clean_parts rooted parts (part :: kept)
  end.

Definition path_Clean (path : string) : string :=
  let rooted := HasPrefix path "/" in
  let body := Join (List.rev (clean_parts rooted (Split path "/"%char) [])) "/" in
  if rooted then "/" +:+ body else if body == "" then "." else body.

Example path_Clean_parts : List.map path_Clean [""; "/a/../../b//./c/"; "a/../../b"; "/.."] = ["."; "/b/c"; "../b"; "/"].
Proof. vm_compute. reflexivity. Qed.

Definition normalize_source (source : FileSource) : FileSource :=
  {| fs_Path := path_Clean (TrimSpace (fs_Path source)); fs_SourceID := TrimSpace (fs_SourceID source);
     fs_Format := TrimSpace (fs_Format source); fs_StartAtEnd := fs_StartAtEnd source |}.

Definition source_valid (source : FileSource) : bool :=
  HasPrefix (fs_Path source) "/" && (fs_Path source != "/") && (string_len (fs_Path source) <=? 256)
  && (fs_SourceID source != "") && (string_len (fs_SourceID source) <=? 128) && negb (ContainsAny (fs_SourceID source) crlf).

Fixpoint prepare_sources (sources : list FileSource) (seen : list string) : HostM (list FileSource) :=
  match sources with
  | [] => ret []
  | source :: sources =>
      let source := normalize_source source in
      if negb (source_valid source) then fail (New ("invalid file source " +:+ Itoa (Z.of_nat (length seen)) +:+ ": absolute path and canonical source_id are required")) else
      if (fs_Format source != "") && negb (validCollectorFormat (fs_Format source))
      then fail (New ("invalid file source format " +:+ fs_Format source)) else
      if fs_Path source ∈? seen then fail (New ("duplicate file source path " +:+ fs_Path source)) else
      let! found := loadFileCheckpoint (fs_Path source) in
      do! match found with
          | Some checkpoint => change_host (fun h => h {{ ho_tails ::= <[fs_Path source := checkpoint]> }})
          | None => ret tt
          end in
      let! rest := prepare_sources sources (fs_Path source :: seen) in
      ret (source :: rest)
  end.

Definition NewFileTailer (directory : string) (config : FileTailConfig) : HostM FileTailConfig :=
  if bool_decide (ft_Sources config = []) then fail (New "file sources and persistent queue are required") else
  if TrimSpace directory == "" then fail (New "file checkpoint directory is required") else
  let bytes := ft_MaximumEventBytes config in
  let lines := ft_MaximumLinesPerPoll config in
  let bytes := if (bytes <=? 0) || (MaxEventBytes <? bytes) then MaxEventBytes else bytes in
  let lines := if (lines <=? 0) || (10000 <? lines) then 1000 else lines in
  do! wrapping "create file checkpoint directory" (syscall (ret tt)) in
  let! sources := prepare_sources (ft_Sources config) [] in
  ret {| ft_Sources := sources; ft_MaximumEventBytes := bytes; ft_MaximumLinesPerPoll := lines |}.

Definition fingerprintBytes : Z := 64.

Definition filePrefixFingerprint (content : string) (size : Z) : outcome string :=
  if size <? fingerprintBytes then Ok ""
  else if string_len content <? fingerprintBytes then Err (Wrap "fingerprint file source" EOF)
  else Ok ("sha256:" +:+ sha256_hex (string_take (Z.to_nat fingerprintBytes) content)).

(** Where a poll starts: a file that has shrunk or whose first bytes are others
    is read from its start. *)
Definition resume (checkpoint : fileCheckpoint) (size : Z) (fingerprint : string) : fileCheckpoint :=
  let checkpoint :=
    if (size <? fc_Offset checkpoint)
       || (fc_Fingerprint checkpoint != "") && (fingerprint != "") && (fc_Fingerprint checkpoint != fingerprint)
    then checkpoint {{ fc_Offset := 0 }} else checkpoint in
  if (fc_Fingerprint checkpoint == "") && (fingerprint != "") then checkpoint {{ fc_Fingerprint := fingerprint }} else checkpoint.

Definition line_payload (line : string) : string := trim_right_set [carriage_return; newline] line.

Section Tail.
Context `{PayloadTime} `{LogFiles}.

Definition commit_dirty (dirty : bool) (checkpoint : fileCheckpoint) : HostM unit :=
  if dirty then commitCheckpoint checkpoint else ret tt.

(** A line that is not blank is queued.  If no event can be made of it the
    poll ends at once; if the event cannot be queued it ends after the
    checkpoint of the lines before is written; of joined errors the first
    is kept here. *)
Definition tail_line (source : FileSource) (line : string) (dirty : bool) (checkpoint : fileCheckpoint) : HostM bool := fun w =>
  let payload := line_payload line in
  if TrimSpace payload == "" then (Ok false, w) else
  (let! now := Now in
   let! event := lift (networkEvent (fs_SourceID source) (fs_Path source) payload now) in
   let event := if fs_Format source != "" then event {{ ev_Format := fs_Format source }} else event in
   do! catch (do! Enqueue event in ret tt) (fun queueErr => do! catch (commit_dirty dirty checkpoint) (fun _ => fail queueErr) in fail queueErr) in
   ret true) w.

Fixpoint tail_lines (lines : nat) (config : FileTailConfig) (source : FileSource) (fingerprint rest : string)
    (checkpoint : fileCheckpoint) (processed : Z) (dirty : bool) : HostM Z :=
  match lines with
  | O => do! commit_dirty dirty checkpoint in ret processed
  | S lines => fun w =>
      match lg_cancelled (w_rt w) with
      | Some e => (Err e, w)
      | None =>
          (do! wrapping ("read file source " +:+ fs_Path source) (syscall (ret tt)) in
           match read_slice (reader_size (ft_MaximumEventBytes config + 2)) rest with
           | SliceFull => fail (New ("file source contains an event larger than " +:+ Itoa (ft_MaximumEventBytes config) +:+ " bytes"))
           | SliceEnd line =>
               if ft_MaximumEventBytes config + 2 <? string_len line
               then fail (New ("file source contains an event larger than " +:+ Itoa (ft_MaximumEventBytes config) +:+ " bytes"))
               else do! commit_dirty dirty checkpoint in ret processed
           | SliceLine line rest =>
               if ft_MaximumEventBytes config + 2 <? string_len line
               then fail (New ("file source contains an event larger than " +:+ Itoa (ft_MaximumEventBytes config) +:+ " bytes"))
               else
               let! queued := tail_line source line dirty checkpoint in
               tail_lines lines config source fingerprint rest
                 (checkpoint {{ fc_Offset ::= fun n => n + string_len line; fc_Fingerprint := fingerprint }})
                 (if queued : bool then processed + 1 else processed) true
           end) w
      end
  end.

Definition pollSource (config : FileTailConfig) (source : FileSource) : HostM Z :=
  let! info := syscall (fun w => (lg_lstat (w_rt w) (fs_Path source), w)) in
  if negb (fi_Regular info) then fail (New ("file source " +:+ fs_Path source +:+ " must be a regular non-symlink file")) else
  let! content := syscall (fun w => (lg_content (w_rt w) (fs_Path source), w)) in
  let! fingerprint := lift (filePrefixFingerprint content (fi_Size info)) in
  let! found := read_host (fun h => ho_tails h !! fs_Path source) in
  let fresh := {| fc_Path := fs_Path source; fc_Offset := 0; fc_Fingerprint := ""; fc_UpdatedAt := zero_time |} in
  match found, fs_StartAtEnd source with
  | None, true => do! commitCheckpoint (fresh {{ fc_Offset := fi_Size info; fc_Fingerprint := fingerprint }}) in ret 0
  | _, _ =>
      let checkpoint := resume (default fresh found) (fi_Size info) fingerprint in
      tail_lines (Z.to_nat (ft_MaximumLinesPerPoll config)) config source fingerprint
        (string_drop (Z.to_nat (fc_Offset checkpoint)) content) checkpoint 0 false
  end.

(** One turn of [Run] over the sources. *)
Fixpoint tail_pass (config : FileTailConfig) (sources : list FileSource) : HostM unit :=
  match sources with
  | [] => ret tt
  | source :: sources =>
      do! catch (do! pollSource config source in ret tt)
        (fun e => if errors_Is e ErrQueueFull || errors_Is e ErrNotExist then ret tt else fail e) in
      tail_pass config sources
  end.

End Tail.
