(* ===== verification/HttpReceiver.v ===== *)
(** * Events received over HTTP (collector/http.go)

    One handler: a request with the headers it reads, a body and the peer's
    certificate, against the queue of the host.  Routing, listening and the
    bytes of a response are not modelled. *)

From S2P Require Import Prelude GoLang GoFormat GoUtf8 Json GoTime Core AgentEvent HostFiles DiskQueue Forwarding JournalSource Syslog FileTail.

(** ** Who sends *)

Fixpoint last_index (c : ascii) (s : string) : option Z :=
  match s with
  | EmptyString => None
  | String d r => match last_index c r with Some i => Some (i + 1) | None => if d == c then Some 0 else None end
  end.

Definition has_byte (c : ascii) (s : string) : bool := Contains s (String c "").

(** The host of [net.SplitHostPort]. *)
Definition split_host (hostport : string) : option string :=
  match last_index ":"%char hostport with
  | None => None
  | Some i =>
      if HasPrefix hostport "[" then
        match string_index hostport "]" with
        | None => None
        | Some last =>
            if last + 1 != i then None else
            let host := string_take (Z.to_nat (last - 1)) (string_drop 1 hostport) in
            if has_byte "["%char (string_drop 1 hostport) || has_byte "]"%char (string_drop (Z.to_nat (last + 1)) hostport) then None
            else Some host
        end
      else
        let host := string_take (Z.to_nat i) hostport in
        if has_byte ":"%char host || has_byte "["%char hostport || has_byte "]"%char hostport then None else Some host
  end.

Definition networkSourceIdentity (remote : string) : string * string :=
  let address := TrimSpace remote in
  let address := match split_host address with Some host => strings_Trim host ["["; "]"]%char | None => address end in
  ("ip:" +:+ address, address).

Example networkSourceIdentity_v6 : networkSourceIdentity "[2001:db8::1]:514" = ("ip:2001:db8::1", "2001:db8::1").
Proof. vm_compute. reflexivity. Qed.

(** The fields of [x509.Certificate] that identify its owner. *)
Record Certificate : Type := {
  ct_URIs : list string;
  ct_DNSNames : list string;
  ct_CommonName : string;
  ct_Raw : string
}.

Definition certificateSourceIdentity (certificate : Certificate) : string :=
  let identity := match ct_URIs certificate, ct_DNSNames certificate with
    | uri :: _, _ => uri | [], name :: _ => name | [], [] => ct_CommonName certificate end in
  let identity := TrimSpace identity in
  let identity := if (identity == "") || (220 <? string_len identity) || ContainsAny identity crlf
                  then "sha256:" +:+ sha256_hex (ct_Raw certificate) else identity in
  "mtls:" +:+ identity.

Record HTTPConfig : Type := {
  hc_AccessToken : string;
  hc_MaximumEventBytes : Z;
  hc_MaximumRequest : Z;
  hc_MaximumBatch : Z
}.

(** [rq_read_error]: the body could not be read to its end. *)
Record HTTPRequest : Type := {
  rq_RemoteAddr : string;
  rq_Peer : option Certificate;
  rq_Authorization : string;
  rq_SourceID : string;
  rq_EventFormat : string;
  rq_EventID : string;
  rq_ContentType : string;
  rq_Body : string;
  rq_read_error : option error
}.

Definition sourceIdentity (config : HTTPConfig) (request : HTTPRequest) : string * string * bool :=
  let '(networkID, address) := networkSourceIdentity (rq_RemoteAddr request) in
  let authIdentity :=
    match rq_Peer request with
    | Some certificate => Some (certificateSourceIdentity certificate)
    | None =>
        let authorization := TrimSpace (rq_Authorization request) in
        if negb (HasPrefix authorization "Bearer ") then None else
        let provided := TrimSpace (TrimPrefix authorization "Bearer ") in
        let expected := TrimSpace (hc_AccessToken config) in
        if (expected == "") || (string_len provided != string_len expected) || (provided != expected) then None
        else Some ("token:" +:+ EncodeToString (take 6 (Sha256.digest (string_bytes expected))))
    end in
  match authIdentity with
  | None => ("", address, false)
  | Some authIdentity =>
      let declared := TrimSpace (rq_SourceID request) in
      if declared == "" then (authIdentity +:+ "/" +:+ networkID, address, true)
      else if (128 <? string_len declared) || ContainsAny declared crlf then ("", address, false)
      else (authIdentity +:+ "/source:" +:+ declared, address, true)
  end.

(** ** The payloads of a request *)

(** The texts of the values of an array, after its opening bracket:
    [json.Unmarshal] into raw messages. *)
Fixpoint raw_array (fuel : nat) (s : string) : option (list string) :=
  match fuel with
  | O => None
  | S fuel =>
      let s := skip_space s in
      '(_, rest) ← parse_value (2 * String.length s + 2) 1 s;
      let item := string_take (String.length s - String.length rest) s in
      match skip_space rest with
      | String c rest =>
          if c == "]"%char then if skip_space rest == "" then Some [item] else None
          else if c == ","%char then items ← raw_array fuel rest; Some (item :: items)
          else None
      | EmptyString => None
      end
  end.

Definition raw_batch (trimmed : string) : option (list string) :=
  let s := skip_space (string_drop 1 trimmed) in
  match s with
  | String "]" rest => if skip_space rest == "" then Some [] else None
  | _ => raw_array (S (String.length s)) s
  end.

Example raw_batch_items : raw_batch "[ {} , [1, 2],null]" = Some ["{}"; "[1, 2]"; "null"].
Proof. vm_compute. reflexivity. Qed.

Definition nonempty (s : string) : bool := s != "".

Fixpoint check_payloads (config : HTTPConfig) (mediaType : string) (payloads : list string) : outcome unit :=
  match payloads with
  | [] => Ok tt
  | payload :: payloads =>
      if (string_len payload =? 0) || (hc_MaximumEventBytes config <? string_len payload) then Err (New "invalid_event_size") else
      let trimmed := TrimSpace payload in
      if Contains mediaType "json" && (negb (json_valid trimmed) || negb (HasPrefix trimmed "{"))
      then Err (New "invalid_json_event") else
      check_payloads config mediaType payloads
  end.

Definition errHTTPRequestTooLarge := New "request_too_large".

Definition payloads (config : HTTPConfig) (request : HTTPRequest) : outcome (list string * string) :=
  match rq_read_error request with
  | Some e => Err (Wrap "read request" e)
  | None =>
      let body := rq_Body request in
      if hc_MaximumRequest config <? string_len body then Err errHTTPRequestTooLarge else
      let mediaType := match ParseMediaType (rq_ContentType request) with Some m => if m == "" then "application/json" else m | None => "application/json" end in
      let lines :=
        if (mediaType == "application/x-ndjson") || (mediaType == "application/ndjson")
        then Ok (List.filter nonempty (List.map TrimSpace (Split body newline)))
        else
          let trimmed := TrimSpace body in
          if HasPrefix trimmed "[" then match raw_batch trimmed with Some items => Ok items | None => Err (New "invalid_json_batch") end
          else if trimmed == "" then Ok [] else Ok [trimmed] in
      match lines with
      | Ok lines =>
          if (Z.of_nat (length lines) =? 0) || (hc_MaximumBatch config <? Z.of_nat (length lines)) then Err (New "invalid_batch_size") else
          match check_payloads config mediaType lines with
          | Ok _ => Ok (lines, mediaType)
          | Err e => Err e
          | Panic => Panic
          end
      | Err e => Err e
      | Panic => Panic
      end
  end.

(** ** The handler *)

Record HTTPResponse : Type := {
  rp_status : Z;
  rp_problem : string;
  rp_accepted : list string
}.

Definition problem (status : Z) (code : string) : HTTPResponse := {| rp_status := status; rp_problem := code; rp_accepted := [] |}.

Section Receive.
Context `{PayloadTime}.

Definition received_event (sourceID sourceAddress format contentType externalID payload : string) (now : Time) : outcome AgentEvent :=
  match networkEvent sourceID sourceAddress payload now with
  | Ok event =>
      let event := if format != "" then event {{ ev_Format := format }} else event in
      let event := if contentType != "" then event {{ ev_ContentType := contentType }} else event in
      Ok (if externalID != "" then event {{ ev_EventID := externalID }} else event)
  | r => r
  end.

Fixpoint sink_events (sourceID sourceAddress format contentType externalID : string) (payloads : list string) (accepted : list string)
    : HostM HTTPResponse :=
  match payloads with
  | [] => ret {| rp_status := 202; rp_problem := ""; rp_accepted := accepted |}
  | payload :: payloads =>
      let! now := Now in
      match received_event sourceID sourceAddress format contentType externalID payload now with
      | Panic => panic
      | Err e => ret (problem 400 (error_text e))
      | Ok event => fun w =>
          match Enqueue event w with
          | (Panic, w) => (Panic, w)
          | (Err e, w) =>
              (Ok (if errors_Is e ErrQueueFull then problem 503 "collector_queue_full" else problem 500 "collector_queue_write_failed"), w)
          | (Ok _, w) => sink_events sourceID sourceAddress format contentType externalID payloads (accepted ++ [ev_EventID event]) w
          end
      end
  end.

Definition receive (config : HTTPConfig) (request : HTTPRequest) : HostM HTTPResponse :=
  let '(sourceID, sourceAddress, authorized) := sourceIdentity config request in
  if negb authorized then ret (problem 401 "collector_authentication_failed") else
  match payloads config request with
  | Panic => panic
  | Err e => ret (problem (if errors_Is e errHTTPRequestTooLarge then 413 else 400) (error_text e))
  | Ok (batch, contentType) =>
      let format := TrimSpace (rq_EventFormat request) in
      if (format != "") && negb (validCollectorFormat format) then ret (problem 400 "invalid_event_format") else
      let externalID := if Z.of_nat (length batch) != 1 then "" else TrimSpace (rq_EventID request) in
      if (256 <? string_len externalID) || ContainsAny externalID crlf then ret (problem 400 "invalid_event_id") else
      sink_events sourceID sourceAddress format contentType externalID batch []
  end.

End Receive.
