(* ===== verification/ApiPoll.v ===== *)
(** * Polling vendor APIs (collector/apipoll.go)

    A server is an interface: the status, the body and the retry time of its
    answers are an arbitrary function of the source and the cursor.  Documents
    are trees with the texts of their strings ([Json]); [interface{}] values are
    their canonical trees, where a map has sorted keys and every string is
    encoded anew.  Checkpoints are files under [api-checkpoints/]. *)

From S2P Require Import Prelude GoLang GoFormat GoUtf8 Json GoTime Core AgentEvent HostFiles DiskQueue Forwarding JournalSource Syslog FileTail.

Record APISource : Type := {
  as_SourceID : string;
  as_URL : string;
  as_Format : string;
  as_EventsPath : string;
  as_EventIDPath : string;
  as_CursorPath : string;
  as_HasMorePath : string;
  as_CursorQueryParameter : string;
  as_PageSizeQueryParameter : string;
  as_PageSize : Z;
  as_IntervalSeconds : Z;
  as_AuthType : string;
  as_SecretEnv : string;
  as_APIKeyHeader : string;
  as_CAFile : string;
  as_CertificateFile : string;
  as_PrivateKeyFile : string
}.
#[export] Instance eta_APISource : Eta APISource := fun r => {|
  as_SourceID := as_SourceID r; as_URL := as_URL r; as_Format := as_Format r; as_EventsPath := as_EventsPath r;
  as_EventIDPath := as_EventIDPath r; as_CursorPath := as_CursorPath r; as_HasMorePath := as_HasMorePath r;
  as_CursorQueryParameter := as_CursorQueryParameter r; as_PageSizeQueryParameter := as_PageSizeQueryParameter r;
  as_PageSize := as_PageSize r; as_IntervalSeconds := as_IntervalSeconds r; as_AuthType := as_AuthType r;
  as_SecretEnv := as_SecretEnv r; as_APIKeyHeader := as_APIKeyHeader r; as_CAFile := as_CAFile r;
  as_CertificateFile := as_CertificateFile r; as_PrivateKeyFile := as_PrivateKeyFile r |}.

Record APIPollConfig : Type := {
  pc_PollInterval : Duration;
  pc_MaximumBackoff : Duration;
  pc_MaximumResponse : Z;
  pc_MaximumEventBytes : Z;
  pc_MaximumEvents : Z;
  pc_MaximumPages : Z
}.

Record apiPage : Type := { ap_events : list Json; ap_nextCursor : string; ap_hasMore : bool }.

(** [ar_RetryAfter] is a header. *)
Record ApiResponse : Type := { ar_status : Z; ar_RetryAfter : string; ar_body : string }.

(** [url_absolute] is the check of the source's URL with [net/url]; [url_address]
    its scheme, host and path; [api_client] the answer of [apiHTTPClient], which
    reads certificates and the environment; [http_ParseTime] that of net/http. *)
Class ApiServer : Type := {
  api_fetch : Runtime -> APISource -> string -> outcome ApiResponse;
  url_absolute : string -> bool;
  url_address : string -> string;
  api_client : APISource -> outcome unit;
  http_ParseTime : string -> option Time
}.

(** ** Documents *)

Definition member_le (a b : string * Json) : Prop := String.le a.1 b.1.
#[export] Instance member_le_dec a b : Decision (member_le a b).
Proof. unfold member_le. apply _. Defined.

Fixpoint canonical (v : Json) : Json :=
  match v with
  | JString raw => JString (json_text (unquote raw))
  | JArray items => JArray (List.map canonical items)
  | JObject members =>
      JObject (List.map (fun kv => (json_text kv.1, kv.2))
        (merge_sort member_le (map_to_list (raw_fields (List.map (fun kv => (kv.1, canonical kv.2)) members)))))
  | v => v
  end.

Example canonical_sorts : json_print (canonical (JObject [("b", JNumber "1"); ("a", JNull); ("b", JBool true)])) =
  "{" +:+ quote +:+ "a" +:+ quote +:+ ":null," +:+ quote +:+ "b" +:+ quote +:+ ":true}".
Proof. vm_compute. reflexivity. Qed.

Definition json_member (v : Json) (key : string) : option Json :=
  match v with JObject members => raw_fields members !! key | _ => None end.

Fixpoint json_path (v : Json) (segments : list string) : option Json :=
  match segments with
  | [] => Some v
  | segment :: segments => w ← json_member v segment; json_path w segments
  end.

Definition jsonPathValue (document : Json) (path : string) : option Json :=
  if path == "$" then Some document else json_path document (Split path "."%char).

Definition canonicalCursor (value : Json) : outcome string :=
  match (match value with JString raw => Some (unquote raw) | JNumber literal => Some literal | JNull => Some "" | _ => None end) with
  | None => Err (New "API cursor must be a string or number")
  | Some cursor =>
      let cursor := TrimSpace cursor in
      if (2048 <? string_len cursor) || ContainsAny cursor crlf then Err (New "API cursor is invalid") else Ok cursor
  end.

(** ** Configuration *)

Definition name_char (c : ascii) : bool :=
  byte_in 97 122 c || byte_in 65 90 c || is_digit c || (c ∈? ["_"; "-"]%char).
Definition validName (value : string) : bool := negb ((value == "") || (64 <? string_len value)) && string_forallb name_char value.

Definition validJSONPath (value : string) : bool :=
  if value == "$" then true
  else if (value == "") || (128 <? string_len value) then false
  else forallb validName (Split value "."%char).

Definition environment_char (c : ascii) : bool := byte_in 65 90 c || byte_in 97 122 c || is_digit c || (c == "_"%char).
Definition validEnvironmentName (value : string) : bool :=
  negb ((value == "") || (128 <? string_len value) || starts_with_digit value) && string_forallb environment_char value.

Definition header_char (c : ascii) : bool := byte_in 65 90 c || byte_in 97 122 c || is_digit c || (c == "-"%char).
Definition validHeaderName (value : string) : bool :=
  negb ((value == "") || (128 <? string_len value)) && string_forallb header_char value.

(** [http.CanonicalHeaderKey] *)
Fixpoint canonical_header (upper : bool) (s : string) : string :=
  match s with
  | EmptyString => ""
  | String c r => String (if upper then upper_ascii c else lower_ascii c) (canonical_header (c == "-"%char) r)
  end.
Definition CanonicalHeaderKey (s : string) : string :=
  if string_forallb (fun c => isTokenChar c && negb (c ∈? ["{"; "}"]%char)) s then canonical_header true s else s.

Definition or_default (value fallback : string) : string := let value := TrimSpace value in if value == "" then fallback else value.

Section Api.
Context `{PayloadTime} `{ApiServer} `{LogFiles}.

Definition api_source_id_ok (source : APISource) : bool :=
  negb ((as_SourceID source == "") || (128 <? string_len (as_SourceID source)) || ContainsAny (as_SourceID source) crlf).

(** The checks of [normalizeAPISource] in their order, on trimmed fields. *)
Definition normalizeAPISource (source : APISource) : outcome APISource :=
  let source := source {{ as_SourceID ::= TrimSpace; as_URL ::= TrimSpace; as_Format ::= TrimSpace }} in
  if negb (api_source_id_ok source) then Err (New "canonical source_id is required") else
  if negb (url_absolute (as_URL source)) || (2048 <? string_len (as_URL source))
  then Err (New "url must be an absolute HTTPS URL without userinfo or fragment") else
  let source := if as_Format source == "" then source {{ as_Format := "json" }} else source in
  if negb (validCollectorFormat (as_Format source)) then Err (New "invalid event format") else
  let source := source {{
    as_EventsPath ::= fun v => or_default v "events"; as_EventIDPath ::= fun v => or_default v "id";
    as_CursorPath ::= fun v => or_default v "next_cursor"; as_HasMorePath ::= fun v => or_default v "has_more";
    as_CursorQueryParameter ::= fun v => or_default v "cursor"; as_PageSizeQueryParameter ::= fun v => or_default v "limit" }} in
  if negb (forallb validJSONPath [as_EventsPath source; as_EventIDPath source; as_CursorPath source; as_HasMorePath source])
  then Err (New "invalid JSON path") else
  if negb (forallb validName [as_CursorQueryParameter source; as_PageSizeQueryParameter source])
  then Err (New "invalid query parameter") else
  if as_CursorQueryParameter source == as_PageSizeQueryParameter source
  then Err (New "cursor and page size query parameters must differ") else
  let source := if as_PageSize source <=? 0 then source {{ as_PageSize := 500 }} else source in
  if (5000 <? as_PageSize source) || (as_IntervalSeconds source <? 0) || (86400 <? as_IntervalSeconds source)
  then Err (New "page_size or interval_seconds is outside the allowed range") else
  let source := source {{ as_AuthType ::= fun v => ToUpper (TrimSpace v); as_SecretEnv ::= TrimSpace }} in
  let source := if as_AuthType source == "" then source {{ as_AuthType := if as_SecretEnv source != "" then "BEARER" else "MTLS" }} else source in
  if negb (as_AuthType source ∈? ["BEARER"; "API_KEY"; "MTLS"]) then Err (New "auth_type must be BEARER, API_KEY, or MTLS") else
  if (as_AuthType source ∈? ["BEARER"; "API_KEY"]) && negb (validEnvironmentName (as_SecretEnv source))
  then Err (New "secret_env must reference an environment variable") else
  let source := if as_AuthType source == "API_KEY"
    then source {{ as_APIKeyHeader ::= fun v => let v := CanonicalHeaderKey (TrimSpace v) in if v == "" then "X-Api-Key" else v }} else source in
  if (as_AuthType source == "API_KEY") && (negb (validHeaderName (as_APIKeyHeader source))
       || EqualFold (as_APIKeyHeader source) "Host" || EqualFold (as_APIKeyHeader source) "Content-Length")
  then Err (New "invalid api_key_header") else
  let source := source {{ as_CAFile ::= TrimSpace; as_CertificateFile ::= TrimSpace; as_PrivateKeyFile ::= TrimSpace }} in
  if negb (bool_decide ((as_CertificateFile source == "") = (as_PrivateKeyFile source == "")))
  then Err (New "mTLS certificate and private key must be configured together") else
  if (as_AuthType source == "MTLS") && (as_CertificateFile source == "")
  then Err (New "MTLS authentication requires a certificate and private key") else
  Ok source.

(** The bounds of [NewAPIPoller]. *)
Definition normalize_config (config : APIPollConfig) : APIPollConfig :=
  let interval := if pc_PollInterval config <=? 0 then 30 * Second else pc_PollInterval config in
  let bounded (value limit fallback : Z) := if (value <=? 0) || (limit <? value) then fallback else value in
  {| pc_PollInterval := interval;
     pc_MaximumBackoff := if pc_MaximumBackoff config <? interval then 5 * Minute else pc_MaximumBackoff config;
     pc_MaximumResponse := bounded (pc_MaximumResponse config) 67108864 16777216;
     pc_MaximumEventBytes := bounded (pc_MaximumEventBytes config) MaxEventBytes MaxEventBytes;
     pc_MaximumEvents := bounded (pc_MaximumEvents config) 5000 500;
     pc_MaximumPages := bounded (pc_MaximumPages config) 100 10 |}.

(** ** Checkpoints *)

Record apiCheckpoint : Type := {
  ac_SourceID : string;
  ac_URL : string;
  ac_Cursor : string;
  ac_UpdatedAt : Time
}.
#[local] Instance eta_apiCheckpoint : Eta apiCheckpoint := fun r => {|
  ac_SourceID := ac_SourceID r; ac_URL := ac_URL r; ac_Cursor := ac_Cursor r; ac_UpdatedAt := ac_UpdatedAt r |}.

Definition api_checkpoint_names : list string := ["source_id"; "url"; "cursor"; "updated_at"].

Definition api_checkpoint_json (c : apiCheckpoint) : Json := JObject
  [("source_id", text_value (ac_SourceID c)); ("url", text_value (ac_URL c)); ("cursor", text_value (ac_Cursor c));
   ("updated_at", JString (FormatRFC3339Nano (ac_UpdatedAt c)))].

Definition set_api_checkpoint (name : string) (v : Json) (c : apiCheckpoint) : option apiCheckpoint :=
  if name == "source_id" then s ← as_string (ac_SourceID c) v; Some (c {{ ac_SourceID := s }})
  else if name == "url" then s ← as_string (ac_URL c) v; Some (c {{ ac_URL := s }})
  else if name == "cursor" then s ← as_string (ac_Cursor c) v; Some (c {{ ac_Cursor := s }})
  else t ← as_time (ac_UpdatedAt c) v; Some (c {{ ac_UpdatedAt := t }}).

Definition decode_api_checkpoint (body : string) : option apiCheckpoint :=
  v ← decode_first body;
  if known_fields api_checkpoint_names v
  then decode_struct api_checkpoint_names set_api_checkpoint v {| ac_SourceID := ""; ac_URL := ""; ac_Cursor := ""; ac_UpdatedAt := zero_time |}
  else None.

Definition apiCheckpointPath (source : APISource) : string :=
  "api-checkpoints/" +:+ EncodeToString (take 16 (Sha256.digest (string_bytes (as_SourceID source +:+ String nul (as_URL source))))) +:+ ".json".

Definition loadAPICheckpoint (source : APISource) : HostM (option apiCheckpoint) := fun w =>
  match ReadFile StateDir (apiCheckpointPath source) w with
  | (Panic, w) => (Panic, w)
  | (Err e, w) => if errors_Is e ErrNotExist then (Ok None, w) else (Err (Wrap "read API checkpoint" e), w)
  | (Ok body, w) =>
      match decode_api_checkpoint body with
      | Some c =>
          if (ac_SourceID c != as_SourceID source) || (ac_URL c != as_URL source) || (2048 <? string_len (ac_Cursor c))
          then (Err (New ("invalid checkpoint for API source " +:+ as_SourceID source)), w) else (Ok (Some c), w)
      | None => (Err (New ("invalid checkpoint for API source " +:+ as_SourceID source)), w)
      end
  end.

Definition api_checkpoint_words : commit_words := {|
  on_create := Some "create API checkpoint"; on_secure := None; on_write := None; on_sync := None; on_close := None;
  on_rename := Some "commit API checkpoint" |}.

Definition commitAPICheckpoint (source : APISource) (cursor : string) : HostM unit :=
  let! now := Now in
  let y := time_Year now in
  let! body := lift (if (y <? 0) || (9999 <? y) then Err (New "Time.MarshalJSON: year outside of range [0,9999]")
    else Ok (json_print (api_checkpoint_json {| ac_SourceID := as_SourceID source; ac_URL := as_URL source; ac_Cursor := cursor; ac_UpdatedAt := now |}))) in
  commit_file StateDir "api-checkpoints/.checkpoint-" (apiCheckpointPath source) body api_checkpoint_words.

(** ** Pages *)

Definition is_object (v : Json) : bool := match v with JObject _ => true | _ => false end.

Definition parse_page (config : APIPollConfig) (source : APISource) (body : string) : outcome apiPage :=
  match json_parse body with
  | None => Err (New "API response is not valid JSON")
  | Some document =>
      let document := canonical document in
      match jsonPathValue document (as_EventsPath source) with
      | None => Err (New ("API response is missing events_path " +:+ as_EventsPath source))
      | Some (JArray rawEvents) =>
          if pc_MaximumEvents config <? Z.of_nat (length rawEvents)
          then Err (New "API events_path must be an array within the configured event limit") else
          if negb (forallb is_object rawEvents) then Err (New "API events must be JSON objects") else
          let? nextCursor := match jsonPathValue document (as_CursorPath source) with
            | Some cursorValue => canonicalCursor cursorValue | None => Ok "" end in
          match jsonPathValue document (as_HasMorePath source) with
          | Some (JBool hasMore) => Ok {| ap_events := rawEvents; ap_nextCursor := nextCursor; ap_hasMore := hasMore |}
          | Some _ => Err (New "API has_more_path must resolve to a boolean")
          | None => Ok {| ap_events := rawEvents; ap_nextCursor := nextCursor; ap_hasMore := false |}
          end
      | Some _ => Err (New "API events_path must be an array within the configured event limit")
      end
  end.

(** [max(time.Until(deadline), 0)] for a date. *)
Definition parseRetryAfter (value : string) : HostM Duration :=
  let value := TrimSpace value in
  let until := match http_ParseTime value with
    | Some deadline => let! now := Now in ret (Z.max (time_Sub deadline now) 0)
    | None => ret 0 end in
  match Atoi value with
  | Some seconds => if 0 <? seconds then ret (wrap64 (seconds * Second)) else until
  | None => until
  end.

Definition fetchPage (config : APIPollConfig) (source : APISource) (cursor : string) : HostM apiPage :=
  let! response := wrapping "request API source" (syscall (fun w => (api_fetch (w_rt w) source cursor, w))) in
  if (ar_status response <? 200) || (300 <=? ar_status response)
  then let! retryAfter := parseRetryAfter (ar_RetryAfter response) in fail (StatusError (ar_status response) retryAfter) else
  if pc_MaximumResponse config <? string_len (ar_body response) then fail (New "API response exceeds configured byte limit") else
  lift (parse_page config source (ar_body response)).

Definition stableAPIEventID (source : APISource) (event : Json) (cursor : string) (index : Z) (payload : string) : string :=
  let identity := match jsonPathValue event (as_EventIDPath source) with
    | Some value => match canonicalCursor value with Ok s => s | _ => "" end | None => "" end in
  let identity := if identity == "" then cursor +:+ String nul (Itoa index +:+ String nul payload) else identity in
  "api_" +:+ EncodeToString (take 16 (Sha256.digest (string_bytes (as_SourceID source +:+ String nul identity)))).

Definition api_event (source : APISource) (document : Json) (cursor nextCursor : string) (index : Z) (now : Time) : outcome AgentEvent :=
  let payload := json_print document in
  match networkEvent (as_SourceID source) (url_address (as_URL source)) payload now with
  | Ok event => Ok (event {{ ev_Format := as_Format source; ev_ContentType := "application/json";
      ev_EventID := stableAPIEventID source document cursor index payload; ev_Checkpoint := nextCursor }})
  | r => r
  end.

Fixpoint queue_page (config : APIPollConfig) (source : APISource) (cursor nextCursor : string) (index : Z) (documents : list Json) : HostM unit :=
  match documents with
  | [] => ret tt
  | document :: documents =>
      if (string_len (json_print document) =? 0) || (pc_MaximumEventBytes config <? string_len (json_print document))
      then fail (New ("API event exceeds " +:+ Itoa (pc_MaximumEventBytes config) +:+ " bytes")) else
      let! now := Now in
      let! event := lift (api_event source document cursor nextCursor index now) in
      do! EnqueueUnique event in
      queue_page config source cursor nextCursor (index + 1) documents
  end.

Definition get_cursor (source : APISource) : HostM string := read_host (fun h => default "" (ho_cursors h !! as_SourceID source)).
Definition put_cursor (source : APISource) (cursor : string) : HostM unit :=
  change_host (fun h => h {{ ho_cursors ::= <[as_SourceID source := cursor]> }}).

Definition advance_cursor (source : APISource) (cursor nextCursor : string) : HostM string :=
  if (nextCursor != "") && (nextCursor != cursor)
  then do! commitAPICheckpoint source nextCursor in do! put_cursor source nextCursor in ret nextCursor
  else ret cursor.

Fixpoint poll_pages (pages : nat) (config : APIPollConfig) (source : APISource) (cursor : string) : HostM unit :=
  match pages with
  | O => fail (New ("API source exceeded " +:+ Itoa (pc_MaximumPages config) +:+ " pages in one poll"))
  | S pages =>
      let! page := fetchPage config source cursor in
      if (0 <? Z.of_nat (length (ap_events page))) && ((ap_nextCursor page == "") || (ap_nextCursor page == cursor))
      then fail (New "API response with events must advance the cursor") else
      do! queue_page config source cursor (ap_nextCursor page) 0 (ap_events page) in
      let! cursor := advance_cursor source cursor (ap_nextCursor page) in
      if negb (ap_hasMore page) then ret tt else
      let! stored := get_cursor source in
      if (ap_nextCursor page == "") || (ap_nextCursor page == stored) && (Z.of_nat (length (ap_events page)) =? 0)
      then fail (New "paginated API response did not advance the cursor") else
      poll_pages pages config source cursor
  end.

Definition poll_api (config : APIPollConfig) (source : APISource) : HostM unit :=
  let! cursor := get_cursor source in
  poll_pages (Z.to_nat (pc_MaximumPages config)) config source cursor.

(** ** When to poll again *)

Definition sourceInterval (config : APIPollConfig) (source : APISource) : Duration :=
  if 0 <? as_IntervalSeconds source then as_IntervalSeconds source * Second else pc_PollInterval config.

Fixpoint double_delay (attempts : nat) (maximum delay : Duration) : Duration :=
  match attempts with
  | O => delay
  | S attempts => if delay <? maximum / 2 then double_delay attempts maximum (delay * 2) else delay
  end.

(** [errors.As(err, &responseErr)] *)
Fixpoint retry_after (err : error) : option Duration :=
  match err with
  | StatusError _ retryAfter => Some retryAfter
  | Wrap _ cause => retry_after cause
  | _ => None
  end.

Definition retryDelay (config : APIPollConfig) (failures : Z) (err : error) : Duration :=
  let delay := double_delay (Z.to_nat (failures - 1)) (pc_MaximumBackoff config) (pc_PollInterval config) in
  let delay := if pc_MaximumBackoff config <? delay then pc_MaximumBackoff config else delay in
  match retry_after err with
  | Some retryAfter => if delay <? retryAfter then Z.min retryAfter (pc_MaximumBackoff config) else delay
  | None => delay
  end.

(** ** The poller

    Of [apiSourceRuntime], the cursor is in the memory of the process. *)

Record apiSourceRuntime : Type := {
  rn_source : APISource;
  rn_failures : Z;
  rn_nextAttempt : Time
}.

Fixpoint prepare_api_sources (sources : list APISource) (seen : list string) : HostM (list apiSourceRuntime) :=
  match sources with
  | [] => ret []
  | source :: sources =>
      let! source := wrapping ("invalid API source " +:+ Itoa (Z.of_nat (length seen))) (lift (normalizeAPISource source)) in
      if as_SourceID source ∈? seen then fail (New ("duplicate API source_id " +:+ as_SourceID source)) else
      do! wrapping ("configure API source " +:+ as_SourceID source) (lift (api_client source)) in
      let! found := loadAPICheckpoint source in
      do! put_cursor source (match found with Some checkpoint => ac_Cursor checkpoint | None => "" end) in
      let! rest := prepare_api_sources sources (as_SourceID source :: seen) in
      ret ({| rn_source := source; rn_failures := 0; rn_nextAttempt := zero_time |} :: rest)
  end.

Definition NewAPIPoller (directory : string) (config : APIPollConfig) (sources : list APISource) : HostM (APIPollConfig * list apiSourceRuntime) :=
  if bool_decide (sources = []) then fail (New "API sources and persistent queue are required") else
  if TrimSpace directory == "" then fail (New "API checkpoint directory is required") else
  do! wrapping "create API checkpoint directory" (syscall (ret tt)) in
  let! sources := prepare_api_sources sources [] in
  ret (normalize_config config, sources).

Definition earlier (t nextWake : Time) : Time := if Before t nextWake then t else nextWake.

(** A source in the turn of [Run] that began at [now]. *)
Definition poll_due (config : APIPollConfig) (source : apiSourceRuntime) (now nextWake : Time) : HostM (apiSourceRuntime * Time) := fun w =>
  if After (rn_nextAttempt source) now then (Ok (source, earlier (rn_nextAttempt source) nextWake), w) else
  match poll_api config (rn_source source) w with
  | (Panic, w) => (Panic, w)
  | (r, w) =>
      match lg_cancelled (w_rt w) with
      | Some e => (Err e, w)
      | None =>
          let failures := match r with Err _ => wrap64 (rn_failures source + 1) | _ => 0 end in
          let delay := match r with Err e => retryDelay config failures e | _ => sourceInterval config (rn_source source) end in
          (let! now := Now in
           let nextAttempt := time_Add now delay in
           ret ({| rn_source := rn_source source; rn_failures := failures; rn_nextAttempt := nextAttempt |}, earlier nextAttempt nextWake)) w
      end
  end.

Fixpoint poll_sources (config : APIPollConfig) (sources : list apiSourceRuntime) (now nextWake : Time) : HostM (list apiSourceRuntime * Time) :=
  match sources with
  | [] => ret ([], nextWake)
  | source :: sources =>
      let! polled := poll_due config source now nextWake in
      let! others := poll_sources config sources now polled.2 in
      ret (polled.1 :: others.1, others.2)
  end.

(** One turn of [Run], up to its timer: the sources and when to wake. *)
Definition api_turn (config : APIPollConfig) (sources : list apiSourceRuntime) : HostM (list apiSourceRuntime * Time) :=
  let! now := Now in
  poll_sources config sources now (time_Add now (pc_MaximumBackoff config)).

End Api.
