(* ===== verification/CollectorConfig.v ===== *)
(** * The configuration of a collector (collector/syslog.go, http.go, filetail.go, apipoll.go)

    The checks and defaults of the constructors and the lists of sources in
    the environment.  A listener or a checkpoint directory is configured here
    and opened elsewhere. *)

From S2P Require Import Prelude GoLang GoFormat GoUtf8 Json GoTime Core AgentEvent HostFiles DiskQueue Forwarding JournalSource Syslog FileTail HttpReceiver ApiPoll.

(** ** Lists of sources *)

(** The elements of a slice that a strict decoder reads: each starts from the
    zero value. *)
Fixpoint decode_elements {R} (names : list string) (set : string -> Json -> R -> option R) (zero : R) (items : list Json) : option (list R) :=
  match items with
  | [] => Some []
  | item :: items =>
      if negb (known_fields names item) then None else
      r ← decode_struct names set item zero;
      rs ← decode_elements names set zero items;
      Some (r :: rs)
  end.

Definition decode_slice {R} (names : list string) (set : string -> Json -> R -> option R) (zero : R) (v : Json) : option (list R) :=
  match v with
  | JArray items => decode_elements names set zero items
  | JNull => Some []
  | _ => None
  end.

(** One value, nothing but blanks after it, and at most [limit] sources. *)
Definition parse_sources {R} (names : list string) (set : string -> Json -> R -> option R) (zero : R) (variable many : string) (limit : Z)
    (value : string) : outcome (list R) :=
  let value := TrimSpace value in
  if (value == "") || (value == "[]") then Ok [] else
  match parse_value (2 * String.length value + 2) 0 value with
  | None => Err (Wrap ("decode " +:+ variable) (New "json"))
  | Some (v, rest) =>
      match decode_slice names set zero v with
      | None => Err (Wrap ("decode " +:+ variable) (New "json"))
      | Some sources =>
          if skip_space rest != "" then Err (New (variable +:+ " contains trailing data"))
          else if limit <? Z.of_nat (length sources) then Err (New many)
          else Ok sources
      end
  end.

Definition as_bool (old : bool) (v : Json) : option bool := match v with JBool b => Some b | JNull => Some old | _ => None end.

#[local] Instance eta_FileSource : Eta FileSource := fun r => {|
  fs_Path := fs_Path r; fs_SourceID := fs_SourceID r; fs_Format := fs_Format r; fs_StartAtEnd := fs_StartAtEnd r |}.

Definition file_source_names : list string := ["path"; "source_id"; "format"; "start_at_end"].

Definition set_file_source (name : string) (v : Json) (s : FileSource) : option FileSource :=
  if name == "path" then x ← as_string (fs_Path s) v; Some (s {{ fs_Path := x }})
  else if name == "source_id" then x ← as_string (fs_SourceID s) v; Some (s {{ fs_SourceID := x }})
  else if name == "format" then x ← as_string (fs_Format s) v; Some (s {{ fs_Format := x }})
  else x ← as_bool (fs_StartAtEnd s) v; Some (s {{ fs_StartAtEnd := x }}).

Definition ParseFileSourcesJSON : string -> outcome (list FileSource) :=
  parse_sources file_source_names set_file_source {| fs_Path := ""; fs_SourceID := ""; fs_Format := ""; fs_StartAtEnd := false |}
    "KCSP_COLLECTOR_FILE_SOURCES_JSON" "at most 256 file sources are allowed per collector" 256.

Definition api_source_names : list string :=
  ["source_id"; "url"; "format"; "events_path"; "event_id_path"; "cursor_path"; "has_more_path"; "cursor_query_parameter";
   "page_size_query_parameter"; "page_size"; "interval_seconds"; "auth_type"; "secret_env"; "api_key_header"; "ca_file";
   "certificate_file"; "private_key_file"].

Definition set_api_source (name : string) (v : Json) (s : APISource) : option APISource :=
  if name == "source_id" then x ← as_string (as_SourceID s) v; Some (s {{ as_SourceID := x }})
  else if name == "url" then x ← as_string (as_URL s) v; Some (s {{ as_URL := x }})
  else if name == "format" then x ← as_string (as_Format s) v; Some (s {{ as_Format := x }})
  else if name == "events_path" then x ← as_string (as_EventsPath s) v; Some (s {{ as_EventsPath := x }})
  else if name == "event_id_path" then x ← as_string (as_EventIDPath s) v; Some (s {{ as_EventIDPath := x }})
  else if name == "cursor_path" then x ← as_string (as_CursorPath s) v; Some (s {{ as_CursorPath := x }})
  else if name == "has_more_path" then x ← as_string (as_HasMorePath s) v; Some (s {{ as_HasMorePath := x }})
  else if name == "cursor_query_parameter" then x ← as_string (as_CursorQueryParameter s) v; Some (s {{ as_CursorQueryParameter := x }})
  else if name == "page_size_query_parameter" then x ← as_string (as_PageSizeQueryParameter s) v; Some (s {{ as_PageSizeQueryParameter := x }})
  else if name == "page_size" then x ← as_int64 (as_PageSize s) v; Some (s {{ as_PageSize := x }})
  else if name == "interval_seconds" then x ← as_int64 (as_IntervalSeconds s) v; Some (s {{ as_IntervalSeconds := x }})
  else if name == "auth_type" then x ← as_string (as_AuthType s) v; Some (s {{ as_AuthType := x }})
  else if name == "secret_env" then x ← as_string (as_SecretEnv s) v; Some (s {{ as_SecretEnv := x }})
  else if name == "api_key_header" then x ← as_string (as_APIKeyHeader s) v; Some (s {{ as_APIKeyHeader := x }})
  else if name == "ca_file" then x ← as_string (as_CAFile s) v; Some (s {{ as_CAFile := x }})
  else if name == "certificate_file" then x ← as_string (as_CertificateFile s) v; Some (s {{ as_CertificateFile := x }})
  else x ← as_string (as_PrivateKeyFile s) v; Some (s {{ as_PrivateKeyFile := x }}).

Definition zero_APISource : APISource := {|
  as_SourceID := ""; as_URL := ""; as_Format := ""; as_EventsPath := ""; as_EventIDPath := ""; as_CursorPath := ""; as_HasMorePath := "";
  as_CursorQueryParameter := ""; as_PageSizeQueryParameter := ""; as_PageSize := 0; as_IntervalSeconds := 0; as_AuthType := "";
  as_SecretEnv := ""; as_APIKeyHeader := ""; as_CAFile := ""; as_CertificateFile := ""; as_PrivateKeyFile := "" |}.

Definition ParseAPISourcesJSON : string -> outcome (list APISource) :=
  parse_sources api_source_names set_api_source zero_APISource
    "KCSP_COLLECTOR_API_SOURCES_JSON" "at most 64 API sources are allowed per collector" 64.

Example parsed_sources : List.map ParseFileSourcesJSON [""; "[null] x"; "[{}, 1]"] =
  [Ok []; Err (New "KCSP_COLLECTOR_FILE_SOURCES_JSON contains trailing data"); Err (Wrap "decode KCSP_COLLECTOR_FILE_SOURCES_JSON" (New "json"))].
Proof. vm_compute. reflexivity. Qed.

(** ** Listeners *)

Record SyslogConfig : Type := {
  sc_UDPAddress : string;
  sc_TCPAddress : string;
  sc_TLSAddress : string;
  sc_TLSCertificate : string;
  sc_TLSPrivateKey : string;
  sc_TLSClientCA : string;
  sc_MaximumBytes : Z;
  sc_EventBuffer : Z
}.

Definition NewSyslogReceiver (config : SyslogConfig) : outcome SyslogConfig :=
  let udp := TrimSpace (sc_UDPAddress config) in
  let tcp := TrimSpace (sc_TCPAddress config) in
  let tls := TrimSpace (sc_TLSAddress config) in
  if (udp == "") && (tcp == "") && (tls == "") then Err (New "at least one syslog UDP, TCP, or TLS listener is required") else
  if (tls != "") && ((sc_TLSCertificate config == "") || (sc_TLSPrivateKey config == "") || (sc_TLSClientCA config == ""))
  then Err (New "syslog TLS listener requires certificate, private key, and client CA") else
  Ok {| sc_UDPAddress := udp; sc_TCPAddress := tcp; sc_TLSAddress := tls; sc_TLSCertificate := sc_TLSCertificate config;
        sc_TLSPrivateKey := sc_TLSPrivateKey config; sc_TLSClientCA := sc_TLSClientCA config;
        sc_MaximumBytes := if (sc_MaximumBytes config <=? 0) || (MaxEventBytes <? sc_MaximumBytes config) then MaxEventBytes else sc_MaximumBytes config;
        sc_EventBuffer := if sc_EventBuffer config <=? 0 then 1024 else sc_EventBuffer config |}.

Record HTTPListener : Type := {
  hl_Address : string;
  hl_Path : string;
  hl_TLSCertificate : string;
  hl_TLSPrivateKey : string;
  hl_TLSClientCA : string;
  hl_AllowInsecureHTTP : bool;
  hl_config : HTTPConfig
}.

(** The sink of the collector is never nil. *)
Definition NewHTTPReceiver (listener : HTTPListener) : outcome HTTPListener :=
  let config := hl_config listener in
  let address := TrimSpace (hl_Address listener) in
  let path := TrimSpace (hl_Path listener) in
  if address == "" then Err (New "HTTP collector address and persistent event sink are required") else
  let path := if path == "" then "/v1/events" else path in
  if (path_Clean path != path) || negb (HasPrefix path "/") then Err (New "HTTP collector path must be canonical and absolute") else
  let tlsFields := length (List.filter (fun value => TrimSpace value != "")
    [hl_TLSCertificate listener; hl_TLSPrivateKey listener; hl_TLSClientCA listener]) in
  if negb (Nat.eqb tlsFields 0) && negb (Nat.eqb tlsFields 3) then Err (New "HTTP mTLS requires certificate, private key, and client CA") else
  if Nat.eqb tlsFields 0 && (negb (hl_AllowInsecureHTTP listener) || (TrimSpace (hc_AccessToken config) == ""))
  then Err (New "plain HTTP requires an explicit development override and access token") else
  Ok {| hl_Address := address; hl_Path := path; hl_TLSCertificate := hl_TLSCertificate listener; hl_TLSPrivateKey := hl_TLSPrivateKey listener;
        hl_TLSClientCA := hl_TLSClientCA listener; hl_AllowInsecureHTTP := hl_AllowInsecureHTTP listener;
        hl_config := {|
          hc_AccessToken := hc_AccessToken config;
          hc_MaximumEventBytes := if (hc_MaximumEventBytes config <=? 0) || (MaxEventBytes <? hc_MaximumEventBytes config) then MaxEventBytes else hc_MaximumEventBytes config;
          hc_MaximumRequest := if (hc_MaximumRequest config <=? 0) || (67108864 <? hc_MaximumRequest config) then 16777216 else hc_MaximumRequest config;
          hc_MaximumBatch := if (hc_MaximumBatch config <=? 0) || (5000 <? hc_MaximumBatch config) then 500 else hc_MaximumBatch config |} |}.

(** A collector that is configured can only be fed by peers it authenticates:
    without TLS there is an access token. *)
Lemma plain_http_has_token listener configured : NewHTTPReceiver listener = Ok configured ->
  hl_TLSCertificate configured = "" -> TrimSpace (hc_AccessToken (hl_config configured)) <> "" /\ hl_AllowInsecureHTTP configured = true.
Proof.
  unfold NewHTTPReceiver. destruct (TrimSpace (hl_Address listener) == ""); [done|]. destruct (_ || _); [done|].
  set (n := length _). destruct (negb (Nat.eqb n 0) && negb (Nat.eqb n 3)) eqn:N; [done|].
  destruct (_ && (_ || _)) eqn:T; [done|]. intros E C. assert (Z : Nat.eqb n 0 = true).
  { injection E as <-. cbn in C. unfold n in *. rewrite C in *. change (TrimSpace "" != "") with false in N. cbn [List.filter] in N |- *.
    change (TrimSpace "" != "") with false in *. cbn [List.filter] in *.
    by destruct (TrimSpace (hl_TLSPrivateKey listener) != ""), (TrimSpace (hl_TLSClientCA listener) != ""). }
  rewrite Z in T. cbn [andb] in T. apply orb_false_iff in T as [A B]. apply negb_false_iff in A. apply bool_decide_eq_false in B.
  injection E as <-. cbn. by split.
Qed.
