(* ===== verification/QueueFacts.v ===== *)
(** * What the calls of the queue do to its files *)

From S2P Require Import Prelude GoLang GoFormat GoUtf8 Json GoTime Core AgentEvent HostFiles DiskQueue Forwarding.

Definition event_name (name : string) : bool := HasSuffix name ".event".
Arguments event_name : simpl never.

(** The events on disk: file names and contents. *)
Definition queued_files (d : gmap string Entry) : gmap string string :=
  omap (fun e => match e with File body => Some body | Folder _ => None end) (visible event_name d).

Definition files (w : World Host) : gmap string string := queued_files (ho_queue (w_repo w)).

Lemma queued_files_lookup d name body : queued_files d !! name = Some body <-> d !! name = Some (File body) /\ event_name name = true.
Proof.
  unfold queued_files, visible. rewrite lookup_omap_Some. split.
  - intros ([b|] & Hb & E); [|done]. apply map_lookup_filter_Some in E as [E K]. by injection Hb as ->.
  - intros [E K]. exists (File body). split; [done|]. by apply map_lookup_filter_Some.
Qed.

Lemma visible_queued d d' : visible event_name d = visible event_name d' -> queued_files d = queued_files d'.
Proof. unfold queued_files. by intros ->. Qed.

Lemma visible_queued_insert name body d d' : visible event_name d' = <[name := File body]> (visible event_name d) ->
  queued_files d' = <[name := body]> (queued_files d).
Proof. unfold queued_files. intros ->. by rewrite (omap_insert_Some _ _ _ _ body). Qed.

(** ** Names *)

Lemma HasSuffix_app s suf : HasSuffix s suf = true -> exists pre, s = pre +:+ suf.
Proof.
  induction s as [|c s IH]; cbn; rewrite ?orb_true_iff, ?bool_decide_eq_true.
  - intros H. destruct suf; [by exists ""|]. naive_solver.
  - intros [E|H]; [by exists ""|]. destruct (IH H) as [pre ->]. by exists (String c pre).
Qed.

Lemma HasSuffix_of_app pre suf : HasSuffix (pre +:+ suf) suf = true.
Proof.
  induction pre as [|c pre IH]; cbn [String.append].
  - destruct suf; cbn; by rewrite bool_decide_eq_true_2.
  - cbn. by rewrite IH, orb_true_r.
Qed.

Fixpoint last_char (s : string) : option ascii :=
  match s with EmptyString => None | String c EmptyString => Some c | String _ r => last_char r end.

Lemma last_char_app s c t : last_char (s +:+ String c t) = last_char (String c t).
Proof. induction s as [|a s IH]; [done|]. cbn [String.append last_char]. rewrite IH. by destruct s. Qed.

Lemma last_char_digits c t : string_forallb is_digit (String c t) = true -> exists d, last_char (String c t) = Some d /\ is_digit d = true.
Proof.
  revert c. induction t as [|a t IH]; intros c; cbn; rewrite andb_true_iff; intros [C T]; [by exists c|].
  destruct (IH a) as (d & E & D); [done|]. by exists d.
Qed.

(** Temporary files are no events. *)
Lemma temporary_no_event prefix n : event_name (prefix +:+ Itoa (Z.of_N n)) = false.
Proof.
  apply not_true_iff_false. intros H. apply HasSuffix_app in H as [pre E].
  destruct (Itoa_ok (Z.of_N n)) as (_ & c & t & Ei & C & T & _); [lia|].
  assert (L := f_equal last_char E). rewrite Ei, !last_char_app in L.
  destruct (last_char_digits c t) as (d & Ed & D); [cbn; by rewrite C, T|]. rewrite Ed in L. cbn in L. by injection L as ->.
Qed.

Lemma sprintf_length n : String.length (sprintf_020d n) = 20%nat.
Proof. unfold sprintf_020d. destruct (n <? 0); rewrite ?length_append, (proj2 (pad_digits_digits _ _)); done. Qed.

Lemma append_inj a b s t : String.length a = String.length b -> a +:+ s = b +:+ t -> a = b /\ s = t.
Proof.
  revert b. induction a as [|c a IH]; intros [|d b] L E; try done. injection E as -> E. injection L as L.
  by destruct (IH b L E) as [-> ->].
Qed.

Lemma append_inj_r a b s : a +:+ s = b +:+ s -> a = b.
Proof.
  revert b. induction a as [|c a IH]; intros [|d b] E; cbn in E; try done.
  - assert (L := f_equal String.length E). cbn in L. rewrite length_append in L. lia.
  - assert (L := f_equal String.length E). cbn in L. rewrite length_append in L. lia.
  - injection E as -> E. by rewrite (IH b E).
Qed.

Lemma queue_name_inj t t' a b : queue_name t a = queue_name t' b -> a = b.
Proof.
  intros E. apply append_inj in E as [_ E]; [|by rewrite !sprintf_length]. injection E as E. by apply append_inj_r in E.
Qed.

Lemma queue_name_event t id : event_name (queue_name t id) = true.
Proof. unfold queue_name. rewrite <- !append_assoc. apply HasSuffix_of_app. Qed.

Lemma unique_name_event id : event_name (unique_name id) = true.
Proof. unfold unique_name. rewrite <- append_assoc. apply HasSuffix_of_app. Qed.

Lemma unique_name_ne t id eventID : queue_name t id <> unique_name eventID.
Proof.
  unfold queue_name, unique_name, sprintf_020d. destruct (_ <? 0); [done|].
  destruct (pad_digits_digits 20 (UnixNano t)) as [D L]. destruct (pad_digits 20 (UnixNano t)) as [|c s]; [done|].
  cbn in D. apply andb_true_iff in D as [D _]. intros E. cbn in E. injection E as -> _. done.
Qed.

(** ** What a call leaves alone *)

(** The memory of the tailer and of the API poller. *)
Definition sources_of (w : World Host) : gmap string fileCheckpoint * gmap string string := (ho_tails (w_repo w), ho_cursors (w_repo w)).

(** Only the files of [p] may change. *)
Record apart (p : Place) (w w' : World Host) : Prop := {
  ap_rt : w_rt w' = w_rt w;
  ap_memory : ho_memory (w_repo w') = ho_memory (w_repo w);
  ap_accepted : ho_accepted (w_repo w') = ho_accepted (w_repo w);
  ap_sources : sources_of w' = sources_of w;
  ap_other : forall q, q <> p -> entries q (w_repo w') = entries q (w_repo w)
}.

#[export] Instance apart_preorder p : PreOrder (apart p).
Proof.
  split; [by intros w|]. intros w1 w2 w3 [R1 M1 A1 S1 O1] [R2 M2 A2 S2 O2].
  split; [congruence..|]. intros q Hq. by rewrite O2, O1.
Qed.

(** Nothing but the number of calls and the memory of the queue changes. *)
Record still (w w' : World Host) : Prop := {
  st_rt : w_rt w' = w_rt w;
  st_accepted : ho_accepted (w_repo w') = ho_accepted (w_repo w);
  st_sources : sources_of w' = sources_of w;
  st_entries : forall q, entries q (w_repo w') = entries q (w_repo w)
}.

#[export] Instance still_preorder : PreOrder still.
Proof. split; [by intros w|]. intros w1 w2 w3 [R1 A1 S1 O1] [R2 A2 S2 O2]. split; [congruence..|]. intros q. by rewrite O2, O1. Qed.

Section Frames.
Context (rel : World Host -> World Host -> Prop) `{!PreOrder rel}.

Definition ticks : Prop := forall w, rel w (mkWorld ((w_repo w) {{ ho_calls ::= S }}) (w_rt w)).

Lemma evolves_syscall {A} (op : HostM A) : ticks -> evolves rel op -> evolves rel (syscall op).
Proof.
  intros T Hop w. unfold syscall. destruct (ho_fault _ _); cbn; [|apply T..]. etransitivity; [apply T|apply Hop].
Qed.

Lemma evolves_deferred {A} (m : HostM A) d : evolves rel m -> evolves rel d -> evolves rel (deferred m d).
Proof.
  intros Hm Hd w. specialize (Hm w). unfold deferred. destruct (m w) as [[a|e|] w1]; [| |done].
  - specialize (Hd w1). destruct (d w1) as [[b|e'|] w2]; by etransitivity.
  - specialize (Hd w1). destruct (d w1) as [[b|e'|] w2]; by etransitivity.
Qed.

Lemma evolves_ignored {A} (m : HostM A) : evolves rel m -> evolves rel (ignored m).
Proof. intros Hm w. specialize (Hm w). unfold ignored. by destruct (m w) as [[a|e|] w1]. Qed.

Lemma evolves_catch {A} (m : HostM A) h : evolves rel m -> (forall e, evolves rel (h e)) -> evolves rel (catch m h).
Proof. intros Hm Hh w. specialize (Hm w). unfold catch. destruct (m w) as [[a|e|] w1]; [done| |done]. etransitivity; [done|apply Hh]. Qed.

Lemma evolves_worded {A} c (m : HostM A) : evolves rel m -> evolves rel (worded c m).
Proof. intros Hm. destruct c; [by apply evolves_wrapping|done]. Qed.

Lemma evolves_read {A} (f : Host -> A) : evolves rel (read_host f).
Proof. intros w. reflexivity. Qed.

End Frames.

(** Goes along the structure of a call. *)
Ltac frame := repeat first
  [ progress intros | solve [eauto 2 with evolves] | apply evolves_bind | apply evolves_wrapping | apply evolves_worded
  | apply evolves_catch | apply evolves_deferred | apply evolves_ignored | apply evolves_syscall
  | apply evolves_read | apply evolves_ret | apply evolves_fail | apply evolves_panic
  | apply evolves_if | apply evolves_forM | case_match | solve [typeclasses eauto] ].

Lemma apart_ticks p : ticks (apart p).
Proof. intros w. split; try done; by intros []. Qed.

Lemma still_ticks : ticks still.
Proof. intros w. split; try done; by intros []. Qed.

#[export] Hint Resolve apart_ticks still_ticks : evolves.

Lemma apart_update p f : evolves (apart p) (update_entries p f).
Proof. intros w. destruct p; (split; [done..|]); intros []; done. Qed.

Lemma apart_Write p name body : evolves (apart p) (Write p name body).
Proof.
  intros w. unfold Write. destruct (ho_fault _ _); cbn; destruct p; (split; [done..|]); intros []; done.
Qed.

Lemma apart_CreateTemp p prefix : evolves (apart p) (CreateTemp p prefix).
Proof.
  unfold CreateTemp. generalize (Z.to_nat 10000). intros tries. induction tries as [|tries IH]; [by frame|]. intros w. cbn [create_temp].
  set (m := syscall _). assert (J : evolves (apart p) m) by (unfold m, lookup_entry; frame; apply apart_update). apply J.
Qed.

#[export] Hint Resolve apart_update apart_Write apart_CreateTemp : evolves.

Lemma apart_commit p prefix name body words : evolves (apart p) (commit_file p prefix name body words).
Proof. unfold commit_file, or_close, Chmod, Sync, Close, Rename, Remove, lookup_entry. by frame. Qed.

Lemma apart_Remove p name : evolves (apart p) (Remove p name).
Proof. unfold Remove, lookup_entry. by frame. Qed.

Lemma still_put_memory f : evolves still (put_memory f).
Proof. intros w. split; try done; by intros []. Qed.

#[export] Hint Resolve apart_commit apart_Remove still_put_memory : evolves.

Lemma still_Stat p name : evolves still (Stat p name).
Proof. unfold Stat, lookup_entry. by frame. Qed.

Lemma still_ReadDir p : evolves still (ReadDir p).
Proof. unfold ReadDir. by frame. Qed.

Lemma still_ReadFile p name : evolves still (ReadFile p name).
Proof. unfold ReadFile, lookup_entry. by frame. Qed.

#[export] Hint Resolve still_Stat still_ReadDir still_ReadFile : evolves.

Lemma still_measure_entries l c b : evolves still (measure_entries l c b).
Proof. revert c b. induction l as [|e l IH]; intros c b; cbn; by frame. Qed.

#[export] Hint Resolve still_measure_entries : evolves.

Lemma still_measure : evolves still ensureMeasuredLocked.
Proof. unfold ensureMeasuredLocked, measureLocked, get_memory. by frame. Qed.

#[export] Hint Resolve still_measure : evolves.

Lemma still_Depth : evolves still Depth.
Proof. unfold Depth, get_memory. by frame. Qed.

Lemma still_peek l limit items : evolves still (peek_entries l limit items).
Proof. revert items. induction l as [|e l IH]; intros items; cbn; by frame. Qed.

#[export] Hint Resolve still_peek : evolves.

Lemma still_Peek limit : evolves still (Peek limit).
Proof. unfold Peek. by frame. Qed.

Lemma still_sizeLocked : evolves still sizeLocked.
Proof. unfold sizeLocked, get_memory. by frame. Qed.

#[export] Hint Resolve still_Depth still_Peek still_sizeLocked : evolves.

(** ** Adding and removing *)

Lemma still_files w w' : still w w' -> files w' = files w.
Proof. intros [_ _ _ E]. unfold files. by rewrite (E QueueDir : ho_queue _ = ho_queue _). Qed.

(** A run keeps what the two kinds of reasoning say. *)
Lemma run_evolves (rel : World Host -> World Host -> Prop) {A} (m : HostM A) w r w' : evolves rel m -> m w = (r, w') -> rel w w'.
Proof. intros H E. specialize (H w). by rewrite E in H. Qed.

Lemma commit_event name body words w r w' : event_name name = true ->
  commit_file QueueDir ".pending-" name body words w = (r, w') ->
  apart QueueDir w w' /\ (files w' = <[name := body]> (files w) \/ is_ok r = false /\ files w' = files w).
Proof.
  intros K E. split; [eapply run_evolves; [apply apart_commit|exact E]|].
  assert (L := commit_file_leaves QueueDir event_name ".pending-" (temporary_no_event ".pending-") name body words _ K w eq_refl).
  rewrite E in L. unfold files. destruct r as [[]|e|].
  - left. by apply visible_queued_insert.
  - destruct L as [L|L]; [right; split; [done|by apply visible_queued]|left; by apply visible_queued_insert].
  - destruct L as [L|L]; [right; split; [done|by apply visible_queued]|left; by apply visible_queued_insert].
Qed.

Lemma visible_delete_event name d : visible event_name (base.delete name d) = base.delete name (visible event_name d).
Proof. unfold visible. by rewrite map_filter_delete. Qed.

Lemma queued_delete name d : queued_files (base.delete name d) = base.delete name (queued_files d).
Proof. unfold queued_files. by rewrite visible_delete_event, omap_delete. Qed.

Lemma Remove_files name w r w' : Remove QueueDir name w = (r, w') ->
  apart QueueDir w w' /\
  (files w' = base.delete name (files w) \/ is_ok r = false /\ files w' = files w /\
    forall e, r = Err e -> errors_Is e ErrNotExist = true -> files w !! name = None).
Proof.
  intros E. split; [eapply run_evolves; [apply apart_Remove|exact E]|]. revert E.
  destruct w as [h rt]. unfold Remove, syscall, lookup_entry, update_entries, change_host, read_host, bind, fail. cbn.
  destruct (ho_fault h (ho_calls h)); [|intros [= <- <-]; right; (split_and!; [done..|]); by intros e [= <-]|intros [= <- <-]; by right].
  destruct (ho_queue h !! name) as [e|] eqn:El; intros [= <- <-].
  - left. apply queued_delete.
  - right. split_and!; [done..|]. intros _ _ _. apply eq_None_not_Some. intros [b Hb]. unfold files in Hb. cbn in Hb.
    apply queued_files_lookup in Hb as [Hb _]. congruence.
Qed.

(** Everything but the queue, its memory and the count of calls is as before. *)
Record queue_only (w w' : World Host) : Prop := {
  qo_rt : w_rt w' = w_rt w;
  qo_accepted : ho_accepted (w_repo w') = ho_accepted (w_repo w);
  qo_sources : sources_of w' = sources_of w;
  qo_state : ho_state (w_repo w') = ho_state (w_repo w)
}.

#[export] Instance queue_only_preorder : PreOrder queue_only.
Proof. split; [by intros w|]. intros w1 w2 w3 [R1 A1 S1 O1] [R2 A2 S2 O2]. split; congruence. Qed.

Lemma apart_queue_only w w' : apart QueueDir w w' -> queue_only w w'.
Proof. intros [R _ A S O]. split; [done..|]. by apply (O StateDir). Qed.

Lemma still_queue_only w w' : still w w' -> queue_only w w'.
Proof. intros [R A S E]. split; [done..|]. apply (E StateDir). Qed.

(** The two ends of a fallible sequence. *)
Lemma bind_cases {A B} (m : HostM A) (k : A -> HostM B) w r w' : bind m k w = (r, w') ->
  (exists a w1, m w = (Ok a, w1) /\ k a w1 = (r, w')) \/ (is_ok r = false /\ exists r1, m w = (r1, w') /\ is_ok r1 = false).
Proof.
  unfold bind. destruct (m w) as [[a|e|] w1]; intros E; [left; eauto|right..]; injection E as <- <-; eauto.
Qed.

Lemma enqueueLocked_files item name w r w' : event_name name = true -> enqueueLocked item name w = (r, w') ->
  queue_only w w' /\
  ((exists body, marshal_item item = Ok body /\ files w' = <[name := body]> (files w) /\
     forall it, r = Ok it -> it = item {{ qi_file := name }}) \/
   is_ok r = false /\ files w' = files w).
Proof.
  intros K. unfold enqueueLocked. intros [(body & w1 & E1 & E)|[F (r1 & E1 & _)]]%bind_cases.
  2: { unfold wrapping, lift in E1. destruct (marshal_item item); injection E1 as _ <-; (split; [reflexivity|by right]). }
  apply wrapping_Ok in E1. injection E1 as E1 <-.
  apply bind_cases in E as [(used & w2 & E2 & E)|[F (r1 & E2 & _)]]; assert (S2 := run_evolves _ _ _ _ _ still_sizeLocked E2).
  2: { split; [by apply still_queue_only|right]. by rewrite (still_files _ _ S2). }
  assert (Q2 := still_queue_only _ _ S2). assert (F2 := still_files _ _ S2). clear E2 S2.
  apply bind_cases in E as [(m & w3 & E3 & E)|[_ (r1 & E3 & F)]]; [|by injection E3 as <- _].
  injection E3 as <- <-. destruct (_ <? _); [injection E as <- <-; split; [done|by right]|].
  apply bind_cases in E as [([] & w4 & E4 & E)|[F (r1 & E4 & F1)]]; apply commit_event in E4 as [A4 F4]; try done.
  - destruct F4 as [F4|[? _]]; [|done]. apply bind_cases in E as [(u & w5 & E5 & E)|[_ (r1 & E5 & F)]]; [|by injection E5 as <- _].
    assert (S5 := run_evolves _ _ _ _ _ (still_put_memory _) E5). injection E as <- <-.
    split.
    + etransitivity; [exact Q2|]. etransitivity; [by apply apart_queue_only|by apply still_queue_only].
    + left. exists body. split_and!; [done|by rewrite (still_files _ _ S5), F4, F2|]. by intros it [= <-].
  - split; [etransitivity; [exact Q2|by apply apart_queue_only]|]. destruct F4 as [F4|[_ F4]]; rewrite F2 in F4; [left|by right].
    exists body. split_and!; [done..|]. by intros it ->.
Qed.

Lemma catch_cases {A} (m : HostM A) handle w r w' : catch m handle w = (r, w') ->
  (m w = (r, w') /\ forall e, r <> Err e) \/ exists e w1, m w = (Err e, w1) /\ handle e w1 = (r, w').
Proof. unfold catch. destruct (m w) as [[a|e|] w1] eqn:E; intros H; [left; by injection H as <- <-|right; eauto|left; by injection H as <- <-]. Qed.

Lemma Ack_files item w r w' : Ack item w = (r, w') ->
  queue_only w w' /\
  (files w' = base.delete (qi_file item) (files w) \/ is_ok r = false /\ files w' = files w).
Proof.
  unfold Ack. destruct (_ || _); [intros [= <- <-]; split; [reflexivity|by right]|].
  intros [(removed & w1 & E1 & E)|[Fr (r1 & E1 & _)]]%bind_cases.
  2: { assert (S : still w w'); [|split; [by apply still_queue_only|right; split; [done|by apply still_files]]].
       eapply run_evolves; [|exact E1]. by frame. }
  assert (S1 : still w w1) by (eapply run_evolves; [|exact E1]; by frame). clear E1.
  assert (F1 := still_files _ _ S1). assert (Q1 := still_queue_only _ _ S1). rewrite <- F1.
  assert (J : forall w2 r2, catch (Remove QueueDir (qi_file item)) (fun e => if errors_Is e ErrNotExist then ret tt
      else do! put_memory (fun q => q {{ dq_measured := false }}) in fail (Wrap "acknowledge queued event" e)) w1 = (r2, w2) ->
    queue_only w1 w2 /\ (files w2 = base.delete (qi_file item) (files w1) \/ is_ok r2 = false /\ files w2 = files w1)).
  { intros w2 r2 [[E2 _]|(e & w3 & E2 & E3)]%catch_cases.
    - apply Remove_files in E2 as [A2 F2]. split; [by apply apart_queue_only|]. naive_solver.
    - apply Remove_files in E2 as [A2 F2]. destruct (errors_Is e ErrNotExist) eqn:N.
      + injection E3 as <- <-. split; [by apply apart_queue_only|]. left. destruct F2 as [F2|(_ & F2 & F3)]; [done|].
        rewrite F2. symmetry. by apply delete_id, (F3 e).
      + unfold put_memory, change_host, bind, fail in E3. injection E3 as <- <-. split.
        * etransitivity; [by apply apart_queue_only|]. by split.
        * destruct F2 as [F2|(_ & F2 & _)]; [left; exact F2|right; by split]. }
  apply bind_cases in E as [([] & w2 & E2 & E)|[Fr (r1 & E2 & _)]]; apply J in E2 as [Q2 F2].
  - injection E as <- <-. split; [etransitivity; [exact Q1|]; etransitivity; [exact Q2|by split]|]. destruct F2 as [F2|[? _]]; [by left|done].
  - split; [by etransitivity|]. destruct F2 as [F2|[_ F2]]; [by left|by right].
Qed.

Lemma ReadFile_cases p name w r w' : ReadFile p name w = (r, w') ->
  (exists body, r = Ok body /\ entries p (w_repo w) !! name = Some (File body)) \/
  (r = Err ErrNotExist /\ entries p (w_repo w) !! name = None) \/ r = Err ErrIO \/ r = Panic.
Proof.
  destruct w as [h rt]. unfold ReadFile, syscall, lookup_entry, read_host, bind, fail. cbn.
  destruct (ho_fault h (ho_calls h)); [|intros [= <- _]; auto..].
  assert (Hq : entries p (h {{ ho_calls ::= S }}) = entries p h) by by destruct p. cbn in Hq. rewrite Hq.
  destruct (entries p h !! name) as [[b|]|]; intros [= <- _]; eauto.
Qed.

(** ** Reading the queue *)

(** The events in the order of their names. *)
Definition queue_list (d : gmap string Entry) : list (string * string) :=
  omap (fun entry => match entry.2 with File body => if event_name entry.1 then Some (entry.1, body) else None | Folder _ => None end)
    (sorted_entries d).

Lemma sorted_entries_perm d : sorted_entries d ≡ₚ map_to_list d.
Proof. apply merge_sort_Permutation. Qed.

Lemma sorted_entries_elem d name e : (name, e) ∈ sorted_entries d <-> d !! name = Some e.
Proof. by rewrite sorted_entries_perm, elem_of_map_to_list. Qed.

Lemma queue_list_elem d name body : (name, body) ∈ queue_list d <-> queued_files d !! name = Some body.
Proof.
  unfold queue_list. rewrite list_elem_of_omap, queued_files_lookup. split.
  - intros ([n [b|]] & He & E); cbn in E; [|done]. destruct (event_name n) eqn:K; [|done]. injection E as -> ->.
    split; [by apply sorted_entries_elem|done].
  - intros [E K]. exists (name, File body). split; [by apply sorted_entries_elem|]. cbn. by rewrite K.
Qed.

(** The item a file is read as. *)
Definition item_of (file : string * string) : option QueueItem := it ← unmarshal_item file.2; Some (it {{ qi_file := file.1 }}).

Lemma peek_entries_Ok d l limit items w out w' :
  ho_queue (w_repo w) = d -> (forall name e, (name, e) ∈ l -> d !! name = Some e) -> Z.of_nat (length items) < limit ->
  peek_entries l limit items w = (Ok out, w') ->
  exists new, out = items ++ new /\
    List.map Some new = List.map item_of (take (Z.to_nat (limit - Z.of_nat (length items)))
      (omap (fun entry => match entry.2 with File body => if event_name entry.1 then Some (entry.1, body) else None | Folder _ => None end) l)).
Proof.
  intros Hd Hl Lt E. revert items w Hd Lt E. induction l as [|[name e] l IH]; intros items w Hd Lt E.
  { cbn in E. injection E as <- _. exists []. rewrite app_nil_r. split; [done|]. cbn. by rewrite take_nil. }
  assert (Hl' : forall name e, (name, e) ∈ l -> d !! name = Some e) by (intros; apply Hl; by right).
  cbn [peek_entries] in E. unfold event_file in E. cbn [fst snd] in E. destruct e as [body|size]; [|by apply (IH Hl' items w)].
  fold (event_name name) in E. cbn. destruct (event_name name); [|by apply (IH Hl' items w)].
  cbn [negb] in E. apply bind_Ok in E as (b & w1 & E1%wrapping_Ok & E).
  assert (S1 := run_evolves _ _ _ _ _ (still_ReadFile _ _) E1).
  assert (b = body) as ->.
  { assert (Hn : d !! name = Some (File body)) by (apply Hl; left).
    apply ReadFile_cases in E1 as [(b' & [= <-] & El)|[[[=] _]|[[=]|[=]]]]. cbn in El. congruence. }
  destruct (unmarshal_item body) as [it|] eqn:U; [|done].
  replace (Z.to_nat (limit - Z.of_nat (length items))) with (S (Z.to_nat (limit - Z.of_nat (length items) - 1))) by lia.
  cbn [take List.map]. unfold item_of at 1. cbn [fst snd]. rewrite U. cbn [mbind option_bind].
  destruct (Z.eqb_spec (Z.of_nat (length (items ++ [it {{ qi_file := name }}]))) limit) as [Eq|Ne].
  - injection E as <- _. exists [it {{ qi_file := name }}]. split; [done|]. rewrite length_app in Eq. cbn in Eq.
    replace (Z.to_nat (limit - Z.of_nat (length items) - 1)) with 0%nat by lia. done.
  - destruct (IH Hl' (items ++ [it {{ qi_file := name }}]) w1) as (new & -> & M); [|rewrite length_app in *; cbn in *; lia|done|].
    { rewrite (st_entries _ _ S1 QueueDir : ho_queue _ = ho_queue _). done. }
    exists (it {{ qi_file := name }} :: new). rewrite <- app_assoc. split; [done|]. cbn [List.map]. f_equal. rewrite M. f_equal. f_equal.
    rewrite length_app. cbn. lia.
Qed.

(** [Peek] answers the first events in the order of their names. *)
Lemma Peek_Ok limit w items w' : Peek limit w = (Ok items, w') ->
  still w w' /\
  List.map Some items = List.map item_of (take (Z.to_nat (if limit <=? 0 then 100 else limit)) (queue_list (ho_queue (w_repo w)))).
Proof.
  intros E. split; [eapply run_evolves; [apply still_Peek|exact E]|]. unfold Peek in E.
  apply bind_Ok in E as (l & w1 & E1%wrapping_Ok & E). assert (S1 := run_evolves _ _ _ _ _ (still_ReadDir _) E1).
  assert (Hl : l = sorted_entries (ho_queue (w_repo w))).
  { revert E1. clear. destruct w as [h rt]. unfold ReadDir, syscall, read_host. cbn. destruct (ho_fault h (ho_calls h)); [|done..].
    by intros [= <- _]. }
  assert (Q1 := st_entries _ _ S1 QueueDir : ho_queue _ = ho_queue _). subst l.
  apply (peek_entries_Ok (ho_queue (w_repo w))) in E as (new & -> & M); [|done| |].
  - cbn [app length Z.of_nat] in *. by rewrite Z.sub_0_r in M.
  - intros name e. by rewrite sorted_entries_elem.
  - cbn. destruct (Z.leb_spec limit 0); lia.
Qed.

(** Each of them is the content of its file. *)
Definition from_file (m : gmap string string) (item : QueueItem) : Prop :=
  exists body it, m !! qi_file item = Some body /\ unmarshal_item body = Some it /\ qi_Event it = qi_Event item.

Lemma Peek_from_files limit w items w' : Peek limit w = (Ok items, w') -> still w w' /\ Forall (from_file (files w)) items.
Proof.
  intros E. apply Peek_Ok in E as [S M]. split; [done|]. apply Forall_forall. intros item Hi.
  assert (H : Some item ∈ List.map Some items) by (apply list_elem_of_fmap; by exists item).
  rewrite M in H. apply list_elem_of_fmap in H as ([name body] & Ei & H). unfold item_of in Ei. symmetry in Ei.
  apply bind_Some in Ei as (it & U & [= <-]). exists body, it. split_and!; [|done..].
  apply queue_list_elem. eapply elem_of_take in H as (i & H & _). by eapply list_elem_of_lookup_2.
Qed.

(** ** Unique events *)

Lemma EnqueueUnique_files event w r w' : EnqueueUnique event w = (r, w') ->
  queue_only w w' /\
  ((exists body item, marshal_item item = Ok body /\ qi_Event item = event /\ files w' = <[unique_name (ev_EventID event) := body]> (files w) /\
      files w !! unique_name (ev_EventID event) = None) \/
   files w' = files w /\ (is_ok r = true -> exists body it, files w !! unique_name (ev_EventID event) = Some body /\
      unmarshal_item body = Some it /\ ev_EventID (qi_Event it) = ev_EventID event)).
Proof.
  unfold EnqueueUnique. destruct (_ == _); [intros [= <- <-]; split; [reflexivity|by right]|].
  set (name := unique_name (ev_EventID event)).
  destruct (ReadFile QueueDir name w) as [[body|e|] w1] eqn:E1; assert (S1 := run_evolves _ _ _ _ _ (still_ReadFile _ _) E1);
    assert (F1 := still_files _ _ S1); assert (Q1 := still_queue_only _ _ S1).
  - assert (Hb : files w !! name = Some body).
    { apply ReadFile_cases in E1 as [(b & [= <-] & El)|[[[=] _]|[[=]|[=]]]]. apply queued_files_lookup.
      split; [exact El|apply unique_name_event]. }
    destruct (unmarshal_item body) as [it|] eqn:U; [|intros [= <- <-]; split; [done|right; by split]].
    destruct (_ != _) eqn:N; intros [= <- <-]; (split; [done|right; split; [done|]]); [done|]. intros _. exists body, it. split_and!; [done..|].
    by rewrite negb_false_iff, bool_decide_eq_true in N.
  - destruct (negb _) eqn:N; [intros [= <- <-]; split; [done|right; by split]|]. intros E.
    apply enqueueLocked_files in E as [Q2 F2]; [|apply unique_name_event]. split; [by etransitivity|]. rewrite F1 in F2.
    destruct F2 as [(body & M & F2 & _)|[R F2]]; [left|right; split; [done|by rewrite R]].
    eexists body, _. split_and!; [exact M|done..|].
    apply ReadFile_cases in E1 as [(b & [=] & _)|[[[= ->] El]|[[= ->]|[=]]]]; [|by vm_compute in N].
    apply eq_None_not_Some. intros [b Hb]. apply queued_files_lookup in Hb as [Hb _]. change (ho_queue (w_repo w) !! name = None) in El. by rewrite El in Hb.
  - intros [= <- <-]. split; [done|right; by split].
Qed.
