(* ===== verification/Delivery.v ===== *)
(** * Store and forward: the queue, the gateway and the crashes together *)

From S2P Require Import Prelude GoLang GoFormat GoUtf8 Json GoTime Core AgentEvent HostFiles DiskQueue Forwarding JournalSource QueueFacts.

(** An event the queue holds, and one that is held or acknowledged. *)
Definition queued (e : AgentEvent) (m : gmap string string) : Prop :=
  exists name body it, m !! name = Some body /\ unmarshal_item body = Some it /\ qi_Event it = e.

Definition secured (e : AgentEvent) (w : World Host) : Prop := queued e (files w) \/ e ∈ ho_accepted (w_repo w).

(** Every file can be read back, and identifiers are drawn once. *)
Record queue_wf (w : World Host) : Prop := {
  qw_random : Inj (=) (=) (rt_random (w_rt w));
  qw_fresh k t : (rt_draws (w_rt w) <= k)%nat -> files w !! queue_name t (NewID "queue" (rt_random (w_rt w) k)) = None;
  qw_reads name body : files w !! name = Some body -> is_Some (unmarshal_item body)
}.

(** What no call breaks: no event that was secured is lost. *)
Definition keeps_events (w w' : World Host) : Prop :=
  queue_wf w -> queue_wf w' /\ forall e, secured e w -> secured e w'.

#[export] Instance keeps_events_preorder : PreOrder keeps_events.
Proof.
  split; [by intros w W|]. intros w1 w2 w3 H1 H2 W1. destruct (H1 W1) as [W2 S1]. destruct (H2 W2) as [W3 S2]. auto.
Qed.

Lemma queue_keeps_same w w' : queue_only w w' -> files w' = files w -> keeps_events w w'.
Proof.
  intros [R A _ _] F [Wr Wf Wd]. split; [split; rewrite ?R, ?F; eauto|]. intros e [Q|Q]; [left; by rewrite F|right; by rewrite A].
Qed.

Lemma keeps_still w w' : still w w' -> keeps_events w w'.
Proof. intros S. apply queue_keeps_same; [by apply still_queue_only|by apply still_files]. Qed.

Lemma keeps_apart_state w w' : apart StateDir w w' -> keeps_events w w'.
Proof.
  intros [R M A _ O] [Wr Wf Wd]. assert (F : files w' = files w) by (unfold files; by rewrite (O QueueDir ltac:(done) : ho_queue _ = ho_queue _)).
  split; [split; rewrite ?R, ?F; eauto|]. intros e [Q|Q]; [left; by rewrite F|right; by rewrite A].
Qed.

Lemma queue_keeps_Now w : keeps_events w (Now w).2.
Proof. intros [Wr Wf Wd]. split; [by split|done]. Qed.

(** A new file under a name that no identifier to come can have. *)
Lemma queue_keeps_insert w w' name body : queue_only w w' -> files w' = <[name := body]> (files w) -> files w !! name = None ->
  is_Some (unmarshal_item body) ->
  (forall k t, (rt_draws (w_rt w) <= k)%nat -> name <> queue_name t (NewID "queue" (rt_random (w_rt w) k))) -> keeps_events w w'.
Proof.
  intros [R A _ _] F N U Fr [Wr Wf Wd]. split.
  - split; rewrite ?R, ?F; [done| |].
    + intros k t Hk. rewrite lookup_insert_ne; [by apply Wf|by apply Fr].
    + intros n b. destruct (decide (n = name)) as [->|Hn]; [rewrite lookup_insert_eq; by intros [= <-]|]. rewrite lookup_insert_ne by done. apply Wd.
  - intros e [(n & b & it & Hn & H)|Q]; [left|right; by rewrite A]. exists n, b, it. split; [|done]. rewrite F, lookup_insert_ne; [done|].
    intros ->. congruence.
Qed.

(** A file may go once its event is acknowledged. *)
Lemma keeps_delete w w' name : queue_only w w' -> files w' = base.delete name (files w) \/ files w' = files w ->
  (forall body it, files w !! name = Some body -> unmarshal_item body = Some it -> qi_Event it ∈ ho_accepted (w_repo w)) ->
  keeps_events w w'.
Proof.
  intros Q [F|F] Hacc; [|by apply queue_keeps_same]. destruct Q as [R A _ _]. intros [Wr Wf Wd]. split.
  - split; rewrite ?R, ?F; [done| |].
    + intros k t Hk. apply lookup_delete_None. right. by apply Wf.
    + intros n b [_ Hb]%lookup_delete_Some. by eapply Wd.
  - intros e [(n & b & it & Hn & U & He)|Q]; [|right; by rewrite A]. destruct (decide (n = name)) as [->|N].
    + right. rewrite A, <- He. by eapply Hacc.
    + left. exists n, b, it. by rewrite F, lookup_delete_ne.
Qed.

(** ** The calls *)

Lemma marshal_reads item body : event_ok (qi_Event item) -> marshal_item item = Ok body -> is_Some (unmarshal_item body).
Proof. intros W M. exists (clean_item item). by apply unmarshal_marshal. Qed.

(** The identifier and the time are drawn, then the item is written. *)
Definition new_item (event : AgentEvent) (w : World Host) : QueueItem :=
  {| qi_QueueID := NewID "queue" (rt_random (w_rt w) (rt_draws (w_rt w))); qi_Event := event; qi_file := "" |}.
Definition new_name (w : World Host) : string :=
  queue_name (rt_clock (w_rt w) (rt_ticks (w_rt w))) (NewID "queue" (rt_random (w_rt w) (rt_draws (w_rt w)))).
Definition drawn (w : World Host) : World Host := mkWorld (w_repo w) ((w_rt w) {{ rt_draws ::= S }} {{ rt_ticks ::= S }}).

Lemma Enqueue_run event w : Enqueue event w = enqueueLocked (new_item event w) (new_name w) (drawn w).
Proof. by destruct w as [h []]. Qed.

Lemma Enqueue_files event w r w' : Enqueue event w = (r, w') ->
  queue_only (drawn w) w' /\
  ((exists body, marshal_item (new_item event w) = Ok body /\ files w' = <[new_name w := body]> (files w)) \/
   is_ok r = false /\ files w' = files w).
Proof.
  rewrite Enqueue_run. intros [Q F]%enqueueLocked_files; [|apply queue_name_event]. split; [done|].
  destruct F as [(body & M & F & _)|F]; [left; by exists body|by right].
Qed.

Lemma keeps_drawn w : keeps_events w (drawn w).
Proof. intros [Wr Wf Wd]. split; [split; try done|done]. intros k t Hk. apply Wf. cbn in Hk. lia. Qed.

Lemma new_name_fresh w : queue_wf w -> files w !! new_name w = None.
Proof. intros W. by apply qw_fresh. Qed.

Lemma new_name_ne w k t : queue_wf w -> (rt_draws (w_rt (drawn w)) <= k)%nat ->
  new_name w <> queue_name t (NewID "queue" (rt_random (w_rt (drawn w)) k)).
Proof. intros W Hk E. apply queue_name_inj, NewID_inj, (qw_random _ W) in E. cbn in Hk. lia. Qed.

Lemma Enqueue_keeps event : event_ok event -> evolves keeps_events (Enqueue event).
Proof.
  intros Ok w W. destruct (Enqueue event w) as [r w'] eqn:E. apply Enqueue_files in E as [Q F].
  refine (_ (proj1 (keeps_drawn w W))). change (forall e, secured e w -> secured e (r, w').2) with (forall e, secured e (drawn w) -> secured e w').
  change (keeps_events (drawn w) w'). destruct F as [(body & M & F)|[_ F]]; [|by apply queue_keeps_same].
  eapply queue_keeps_insert; [exact Q|exact F|exact (new_name_fresh w W)|exact (marshal_reads (new_item event w) _ Ok M)|]. intros k t. by apply new_name_ne.
Qed.

Lemma EnqueueUnique_keeps event : event_ok event -> evolves keeps_events (EnqueueUnique event).
Proof.
  intros Ok w. destruct (EnqueueUnique event w) as [r w'] eqn:E. apply EnqueueUnique_files in E as [Q F]. cbn [snd].
  destruct F as [(body & item & M & <- & F & N)|[F _]]; [|by apply queue_keeps_same].
  eapply queue_keeps_insert; [exact Q|exact F|exact N|by eapply marshal_reads|]. intros k t _ E. by apply (unique_name_ne t _ _ (eq_sym E)).
Qed.

(** Removing the files of acknowledged events. *)
Lemma Acks_keep items w r w' : forM_ items Ack w = (r, w') ->
  Forall (fun item => forall body it, files w !! qi_file item = Some body -> unmarshal_item body = Some it -> qi_Event it ∈ ho_accepted (w_repo w)) items ->
  keeps_events w w'.
Proof.
  revert w. induction items as [|item items IH]; intros w E Hs.
  { injection E as _ <-. reflexivity. }
  apply Forall_cons in Hs as [Hi Hs]. cbn [forM_] in E.
  assert (J : forall w1 r1, Ack item w = (r1, w1) -> keeps_events w w1 /\
    Forall (fun item => forall body it, files w1 !! qi_file item = Some body -> unmarshal_item body = Some it -> qi_Event it ∈ ho_accepted (w_repo w1)) items).
  { intros w1 r1 [Q F]%Ack_files. split; [apply (keeps_delete _ _ (qi_file item) Q); [naive_solver|exact Hi]|].
    eapply Forall_impl; [exact Hs|]. intros x Hx body it Hb U. rewrite (qo_accepted _ _ Q). apply (Hx body it); [|done].
    destruct F as [F|[_ F]]; rewrite F in Hb; [by apply lookup_delete_Some in Hb as [_ Hb]|done]. }
  apply bind_cases in E as [([] & w1 & E1 & E)|[_ (r1 & E1 & _)]]; destruct (J _ _ E1) as [K1 Hs1]; [|done].
  etransitivity; [exact K1|by apply IH].
Qed.

Section Gateway.
Context `{Gateway}.

(** An outcome of the gateway: the acknowledged events are noted, nothing else. *)
Definition noted (events : list AgentEvent) (w w' : World Host) : Prop :=
  w_rt w' = w_rt w /\ (forall q, entries q (w_repo w') = entries q (w_repo w)) /\
  ho_accepted (w_repo w') = ho_accepted (w_repo w) ++ events.

Lemma noted_files events w w' : noted events w w' -> files w' = files w.
Proof. intros (_ & E & _). unfold files. by rewrite (E QueueDir : ho_queue _ = ho_queue _). Qed.

Lemma noted_keeps events w w' : noted events w w' -> keeps_events w w'.
Proof.
  intros N [Wr Wf Wd]. assert (F := noted_files _ _ _ N). destruct N as (R & _ & A). split; [split; rewrite ?R, ?F; eauto|].
  intros e [Q|Q]; [left; by rewrite F|right; rewrite A; set_solver].
Qed.

Lemma still_external {A} (call : Runtime -> outcome A) : evolves still (external call).
Proof. unfold external. frame. by intros w. Qed.

Lemma still_authorize : evolves still authorize.
Proof. intros w. unfold authorize. by destruct (gw_token _). Qed.

Lemma still_lift {A} (m : outcome A) : evolves still (lift m).
Proof. by intros w. Qed.

#[local] Hint Resolve still_external still_authorize still_lift : evolves.

(** The last step of a request is the note. *)
Definition notes {A} (events : list AgentEvent) (m : HostM A) : Prop := forall w r w', m w = (r, w') ->
  if is_ok r then noted events w w' else still w w'.

Lemma notes_bind {A B} events (m : HostM A) (k : A -> HostM B) :
  evolves still m -> (forall a, notes events (k a)) -> notes events (bind m k).
Proof.
  intros Hm Hk w r w' [(a & w1 & E1 & E)|[F (r1 & E1 & _)]]%bind_cases; assert (S1 := run_evolves _ _ _ _ _ Hm E1); [|by rewrite F].
  specialize (Hk a _ _ _ E). destruct (is_ok r); [|exact (transitivity S1 Hk)]. destruct S1 as [R A1 _ En], Hk as (R2 & En2 & A2).
  split_and!; [congruence|intros q; by rewrite En2, En|by rewrite A2, A1].
Qed.

Lemma notes_fail {A} events e : notes events (@fail _ A e).
Proof. intros w r w' [= <- <-]. by split. Qed.

Lemma notes_if {A} events (b : bool) (m n : HostM A) : notes events m -> notes events n -> notes events (if b then m else n).
Proof. by destruct b. Qed.

Lemma notes_acknowledged {A} events (a : A) : notes events (do! acknowledged events in ret a).
Proof. intros w r w' [= <- <-]. split_and!; [done| |done]. by intros []. Qed.

Ltac noting := repeat first
  [ progress intros | apply notes_fail | apply notes_acknowledged | apply notes_if | apply notes_bind | case_match | solve [frame] ].

Lemma Send_notes event : notes [event] (Send event).
Proof. unfold Send. by noting. Qed.

Lemma SendBatch_notes events : notes events (SendBatch events).
Proof. unfold SendBatch. by noting. Qed.

(** A batch is the first of the items. *)
Lemma select_batch_prefix m items selected n out : select_batch m items selected n = Ok out ->
  exists k, out = selected ++ take k items.
Proof.
  revert selected n. induction items as [|item items IH]; intros selected n; cbn [select_batch].
  { intros [= <-]. exists O. by rewrite app_nil_r. }
  destruct (_ <? _); [done|]. destruct (_ && _); [intros [= <-]; exists O; by rewrite app_nil_r|].
  intros [k ->]%IH. exists (S k). by rewrite <- app_assoc.
Qed.

(** A batch of a queue that is not empty has an item. *)
Lemma select_batch_nil m items out : select_batch m items [] 0 = Ok out -> out = [] -> items = [].
Proof.
  destruct items as [|item items]; [done|]. cbn [select_batch]. destruct (_ <? _); [done|].
  change (0 <? Z.of_nat (length (@nil QueueItem))) with false. cbn [andb app].
  intros [k ->]%select_batch_prefix. done.
Qed.

(** A flush ends before anything is sent, or sends and removes a batch. *)
Lemma flush_cases b m w r w' : flush b m w = (r, w') ->
  (still w w' /\ (is_ok r = false \/ r = Ok 0 /\ exists w1, Peek b w = (Ok [], w1))) \/
  exists items k w1 w2 w3 r3, Peek b w = (Ok items, w1) /\ select_batch m items [] 0 = Ok (take k items) /\
    noted (List.map qi_Event (take k items)) w2 w3 /\ still w w2 /\
    forM_ (take k items) Ack w3 = (r3, w') /\ (r = Ok (Z.of_nat (length (take k items))) /\ is_ok r3 = true \/ is_ok r = false).
Proof.
  unfold flush. intros [(items & w1 & E1 & E)|[F (r1 & E1 & _)]]%bind_cases; assert (S1 := run_evolves _ _ _ _ _ (still_Peek b) E1);
    [|left; split; [done|by left]].
  apply bind_cases in E as [(selected & w2 & [= Es <-] & E)|[F (r1 & [= _ <-] & _)]]; [|left; split; [done|by left]].
  destruct (select_batch_prefix _ _ _ _ _ Es) as [k ->]. cbn [app] in *.
  destruct (bool_decide _) eqn:N.
  { apply bool_decide_eq_true in N. injection E as <- <-. left. split; [done|right; split; [done|]]. exists w1.
    by rewrite (select_batch_nil _ _ _ Es N) in E1. }
  apply bind_cases in E as [(receipts & w2 & E2 & E)|[F (r1 & E2 & F1)]]; assert (N2 := SendBatch_notes _ _ _ _ E2); cbn in N2.
  - right. apply bind_cases in E as [(u & w3 & E3 & E)|[F (r3 & E3 & _)]].
    + injection E as <- <-. exists items, k, w1, w1, w2, (Ok u). split_and!; [done..|by left].
    + exists items, k, w1, w1, w2, r3. split_and!; [done..|by right].
  - rewrite F1 in N2. left. split; [exact (transitivity S1 N2)|by left].
Qed.

(** The file of an item holds its event, as long as it is there. *)
Definition reads_as (m : gmap string string) (item : QueueItem) : Prop :=
  forall body it, m !! qi_file item = Some body -> unmarshal_item body = Some it -> qi_Event it = qi_Event item.

Lemma Peek_reads b w items w1 : Peek b w = (Ok items, w1) -> still w w1 /\ Forall (reads_as (files w)) items.
Proof.
  intros [S Hf]%Peek_from_files. split; [done|]. eapply Forall_impl; [exact Hf|].
  intros item (body & it & Hb & U & E) body' it' Hb' U'. congruence.
Qed.

Lemma reads_as_delete m m' name item : m' = m \/ m' = base.delete name m -> reads_as m item -> reads_as m' item.
Proof. intros [->| ->] R body it Hb U; [by eapply R|]. apply lookup_delete_Some in Hb as [_ Hb]. by eapply R. Qed.

Lemma Acks_accepted items w w2 w3 r3 w' : Forall (reads_as (files w)) items -> still w w2 ->
  noted (List.map qi_Event items) w2 w3 -> forM_ items Ack w3 = (r3, w') -> keeps_events w w'.
Proof.
  intros Hf S N E. etransitivity; [by apply keeps_still|]. etransitivity; [by eapply noted_keeps|].
  eapply Acks_keep; [exact E|]. apply Forall_forall. intros item Hi body it Hb U.
  rewrite (noted_files _ _ _ N), (still_files _ _ S) in Hb. destruct N as (_ & _ & ->).
  rewrite Forall_forall in Hf. rewrite (Hf item Hi body it Hb U). apply elem_of_app. right. apply list_elem_of_fmap. by exists item.
Qed.

Lemma flush_keeps b m : evolves keeps_events (flush b m).
Proof.
  intros w. destruct (flush b m w) as [r w'] eqn:E. cbn [snd].
  destruct (flush_cases _ _ _ _ _ E) as [[S _]|(items & k & w1 & w2 & w3 & r3 & E1 & _ & N & S & E3 & _)]; [by apply keeps_still|].
  apply Peek_reads in E1 as [_ Hf]. eapply Acks_accepted; [|exact S|exact N|exact E3]. by apply Forall_take.
Qed.

Lemma drain_keeps fuel b m budget : evolves keeps_events (drain fuel b m budget).
Proof.
  unfold drain. apply evolves_bind; [apply _|intros w; apply queue_keeps_Now|]. intros now.
  generalize (time_Add now budget), 0. clear now. induction fuel as [|fuel IH]; intros deadline delivered; [by apply evolves_fail; apply _|].
  intros w. cbn [drain_loop]. destruct (gw_cancelled _); [reflexivity|]. assert (K := flush_keeps b m w).
  destruct (flush b m w) as [[sent|e|] w1]; [|done..]. cbn [snd] in K. destruct (_ <? _); [done|].
  etransitivity; [exact K|]. set (rest := bind _ _). assert (J : evolves keeps_events rest); [|apply J].
  apply evolves_bind; [apply _|intros w2; apply queue_keeps_Now|]. intros now. destruct (negb _); [apply evolves_ret; apply _|apply IH].
Qed.

(** The collector sends and removes one by one. *)
Lemma collector_flush_keeps b : evolves keeps_events (collector_flush b).
Proof.
  intros w. destruct (collector_flush b w) as [r w'] eqn:E. cbn [snd]. unfold collector_flush in E.
  apply bind_cases in E as [(items & w1 & E1 & E)|[_ (r1 & E1 & _)]];
    [|apply keeps_still; by eapply run_evolves; [apply still_Peek|exact E1]].
  apply Peek_reads in E1 as [S1 Hf]. etransitivity; [by apply keeps_still|]. rewrite <- (still_files _ _ S1) in Hf. clear S1 w.
  revert w1 E Hf. induction items as [|item items IH]; intros w E Hf; [injection E as _ <-; reflexivity|].
  cbn [forM_] in E. assert (Hs := Hf). apply Forall_cons in Hs as [Hi Hs].
  assert (J : forall w2 r2, (do! Send (qi_Event item) in Ack item) w = (r2, w2) -> keeps_events w w2 /\
    (files w2 = files w \/ files w2 = base.delete (qi_file item) (files w))).
  { intros w2 r2 E2. apply bind_cases in E2 as [(rc & w1 & E1 & E2)|[F (r1 & E1 & F1)]]; assert (N1 := Send_notes _ _ _ _ E1); cbn in N1.
    - split.
      + apply (Acks_accepted [item] w w w1 r2); [by constructor|reflexivity|exact N1|]. cbn [forM_]. unfold bind. rewrite E2. by destruct r2 as [[]|e|].
      + rewrite <- (noted_files _ _ _ N1). apply Ack_files in E2 as [_ [F|[_ F]]]; auto.
    - rewrite F1 in N1. split; [by apply keeps_still|left; by apply still_files]. }
  apply bind_cases in E as [([] & w2 & E2 & E)|[_ (r1 & E2 & _)]]; [|by destruct (J _ _ E2)].
  destruct (J _ _ E2) as [K F2]. etransitivity; [exact K|]. apply (IH w2 E).
  eapply Forall_impl; [exact Hs|]. intros x. by eapply reads_as_delete.
Qed.

End Gateway.
