(* ===== verification/QueueOrder.v ===== *)
(** * The order in which the queue delivers *)

From S2P Require Import Prelude GoLang GoFormat GoUtf8 Json GoTime Core AgentEvent HostFiles DiskQueue Forwarding JournalSource QueueFacts Delivery.

(** ** The list of a directory *)

Definition name_le (a b : string * string) : Prop := String.le a.1 b.1.

#[export] Instance entry_le_total : Total entry_le.
Proof. intros a b. unfold entry_le. apply (total String.le). Qed.

#[export] Instance entry_le_trans : Transitive entry_le.
Proof. intros a b c. unfold entry_le. apply transitivity. Qed.

Lemma sorted_entries_sorted d : StronglySorted entry_le (sorted_entries d).
Proof. apply StronglySorted_merge_sort; apply _. Qed.

Definition as_event (entry : string * Entry) : option (string * string) :=
  match entry.2 with File body => if event_name entry.1 then Some (entry.1, body) else None | Folder _ => None end.

Lemma as_event_name entry file : as_event entry = Some file -> file.1 = entry.1.
Proof. destruct entry as [n [b|]]; cbn; [|done]. destruct (event_name n); [|done]. by intros [= <-]. Qed.

Lemma omap_sorted l : StronglySorted entry_le l -> StronglySorted name_le (omap as_event l).
Proof.
  induction 1 as [|e l S IH F]; [constructor|]. cbn. destruct (as_event e) as [file|] eqn:E; [|done].
  constructor; [done|]. apply Forall_forall. intros file' (e' & He' & E')%list_elem_of_omap.
  unfold name_le. rewrite (as_event_name _ _ E), (as_event_name _ _ E'). rewrite Forall_forall in F. by apply F.
Qed.

Lemma queue_list_sorted d : StronglySorted name_le (queue_list d).
Proof. apply omap_sorted, sorted_entries_sorted. Qed.

Lemma queue_list_NoDup d : NoDup (queue_list d).*1.
Proof.
  assert (J : forall l, NoDup l.*1 -> NoDup (omap as_event l).*1).
  { induction l as [|e l IH]; [done|]. intros [N D]%NoDup_cons. cbn. destruct (as_event e) as [file|] eqn:E; [|by apply IH].
    cbn. constructor; [|by apply IH]. intros (file' & Hn & (e' & He' & E')%list_elem_of_omap)%list_elem_of_fmap. apply N.
    rewrite <- (as_event_name _ _ E), Hn, (as_event_name _ _ E'). apply list_elem_of_fmap. by exists e'. }
  apply J. rewrite sorted_entries_perm. apply NoDup_fst_map_to_list.
Qed.

(** A list that is sorted by distinct names and has the files of a directory
    is its list. *)
Lemma queue_list_unique d l : StronglySorted name_le l -> NoDup l.*1 ->
  (forall name body, (name, body) ∈ l <-> queued_files d !! name = Some body) -> l = queue_list d.
Proof.
  intros S N H. apply (StronglySorted_unique_strong name_le); [|done|apply queue_list_sorted|].
  - intros [n1 b1] [n2 b2] H1 H2 L1 L2. assert (n1 = n2) as -> by by apply (anti_symm String.le). f_equal.
    apply H in H1. apply queue_list_elem in H2. congruence.
  - apply NoDup_Permutation; [by eapply NoDup_fmap_1|eapply NoDup_fmap_1, queue_list_NoDup|].
    intros [n b]. rewrite (H n b). symmetry. apply queue_list_elem.
Qed.

Lemma queue_list_drop d d' n :
  (forall name, queued_files d' !! name = if decide (name ∈ (take n (queue_list d)).*1) then None else queued_files d !! name) ->
  queue_list d' = drop n (queue_list d).
Proof.
  intros H. symmetry. assert (N := queue_list_NoDup d). assert (S := queue_list_sorted d).
  assert (E := queue_list_elem d). revert H N S E. generalize (queue_list d). intros l H N S E.
  rewrite <- (take_drop n l) in N, S. rewrite fmap_app in N. apply NoDup_app in N as (N1 & N2 & N3).
  apply queue_list_unique; [|done|].
  - clear -S. revert S. generalize (take n l) as a. induction a as [|x a IH]; [done|]. intros [S _]%StronglySorted_inv. by apply IH.
  - intros name body. rewrite H. destruct (decide _) as [I|I].
    + split; [|done]. intros D. destruct (N2 name I). apply list_elem_of_fmap. by exists (name, body).
    + rewrite <- E. rewrite <- (take_drop n l) at 2. rewrite elem_of_app. split; [by right|]. intros [T|T]; [|done].
      destruct I. apply list_elem_of_fmap. by exists (name, body).
Qed.

(** ** Flushing *)

Lemma Acks_Ok items w u w' : forM_ items Ack w = (Ok u, w') -> queue_only w w' /\
  forall name, files w' !! name = if decide (name ∈ List.map qi_file items) then None else files w !! name.
Proof.
  revert w. induction items as [|item items IH]; intros w E; cbn [forM_ List.map] in *.
  { injection E as _ <-. split; [reflexivity|]. intros name. by rewrite decide_False by set_solver. }
  apply bind_Ok in E as ([] & w1 & E1 & E). apply IH in E as [Q F]. apply Ack_files in E1 as [Q1 [F1|[? _]]]; [|done].
  split; [by etransitivity|]. intros name. rewrite F, F1. destruct (decide (name ∈ List.map qi_file items)) as [I|I].
  - by rewrite decide_True by set_solver.
  - destruct (decide (name = qi_file item)) as [->|N].
    + by rewrite lookup_delete_eq, decide_True by set_solver.
    + by rewrite lookup_delete_ne, decide_False by set_solver.
Qed.

Lemma item_of_names items files : List.map Some items = List.map item_of files -> List.map qi_file items = files.*1.
Proof.
  revert files. induction items as [|it items IH]; intros [|f files]; cbn; try done. intros [= E Es]. f_equal; [|by apply IH].
  symmetry in E. unfold item_of in E. apply bind_Some in E as (x & _ & [= <-]). done.
Qed.

Lemma take_map {A B} (f : A -> B) n l : take n (List.map f l) = List.map f (take n l).
Proof. revert n. induction l as [|a l IH]; intros [|n]; cbn; [done..|]. by rewrite IH. Qed.

Section Flush.
Context `{Gateway}.

(** What a flush that succeeds has done. *)
Record flushed (b m n : Z) (w w' : World Host) : Prop := {
  fl_items : exists items, List.map Some items = List.map item_of (take (length items) (queue_list (ho_queue (w_repo w)))) /\
    n = Z.of_nat (length items) /\ (0 < b -> n <= b) /\
    ho_accepted (w_repo w') = ho_accepted (w_repo w) ++ List.map qi_Event items;
  fl_rest : queue_list (ho_queue (w_repo w')) = drop (Z.to_nat n) (queue_list (ho_queue (w_repo w)));
  fl_progress : n = 0 -> queue_list (ho_queue (w_repo w)) = []
}.

Lemma queue_list_files w w' : files w' = files w -> queue_list (ho_queue (w_repo w')) = queue_list (ho_queue (w_repo w)).
Proof.
  intros F. rewrite (queue_list_drop (ho_queue (w_repo w)) _ 0); [done|]. intros name. cbn.
  rewrite decide_False by set_solver. unfold files in F. by rewrite F.
Qed.

Lemma Peek_take b w items w1 : Peek b w = (Ok items, w1) ->
  (0 < b -> Z.of_nat (length items) <= b) /\ (items = [] -> queue_list (ho_queue (w_repo w)) = []) /\
  forall k, List.map Some (take k items) = List.map item_of (take (length (take k items)) (queue_list (ho_queue (w_repo w)))).
Proof.
  intros [_ M]%Peek_Ok. set (limit := if b <=? 0 then 100 else b) in *. set (l := queue_list _) in *.
  assert (L : length items = length (take (Z.to_nat limit) l)) by (rewrite <- (length_map Some items), M; apply length_map).
  assert (P : 0 < limit) by (unfold limit; destruct (Z.leb_spec b 0); lia).
  assert (B : 0 < b -> limit = b) by (unfold limit; destruct (Z.leb_spec b 0); lia).
  rewrite length_take in L. split_and!.
  - intros Hb. specialize (B Hb). lia.
  - intros ->. cbn in L. destruct l; [done|]. cbn in L. lia.
  - intros k. rewrite <- take_map, M, take_map, take_take, length_take. f_equal.
    destruct (Nat.le_gt_cases (length l) (k `min` length items)) as [G|G].
    + rewrite !take_ge by lia. done.
    + f_equal. lia.
Qed.

Lemma flush_Ok b m w n w' : flush b m w = (Ok n, w') -> flushed b m n w w'.
Proof.
  intros E. destruct (flush_cases _ _ _ _ _ E) as [[S [?|[[= ->] (w1 & E1)]]]|(items & k & w1 & w2 & w3 & r3 & E1 & Es & N & S & E3 & R)];
    [done| |].
  - destruct (Peek_take _ _ _ _ E1) as (_ & Hn & _). assert (L := Hn eq_refl). split; [|by rewrite (queue_list_files w w' (still_files _ _ S))|done].
    exists []. cbn. split_and!; [done..|lia|]. by rewrite app_nil_r, (st_accepted _ _ S).
  - destruct R as [[[= ->] R]|?]; [|done]. destruct r3 as [u| |]; [|done..]. clear R.
    destruct (Peek_take _ _ _ _ E1) as (B & Hn & T). specialize (T k). apply Acks_Ok in E3 as [Q F].
    assert (Hlen : (length (take k items) <= length items)%nat) by (rewrite length_take; lia). split.
    + exists (take k items). split_and!; [done|done|intros Hb; specialize (B Hb); lia|].
      rewrite (qo_accepted _ _ Q). destruct N as (_ & _ & ->). by rewrite (st_accepted _ _ S).
    + rewrite Nat2Z.id. apply queue_list_drop. intros name. change (queued_files (ho_queue (w_repo w'))) with (files w').
      rewrite F, (item_of_names _ _ T), (noted_files _ _ _ N), (still_files _ _ S). done.
    + intros Z0. apply Hn. eapply select_batch_nil; [exact Es|]. destruct (take k items); [done|cbn in Z0; lia].
Qed.

End Flush.

(** ** Draining *)

Section Drain.
Context `{Gateway}.

(** Each turn that goes on has removed a file, so a turn more than there are
    files ends the loop. *)
Lemma drain_loop_ends fuel b m deadline n w : 0 < b -> (length (queue_list (ho_queue (w_repo w))) < fuel)%nat ->
  forall e, (drain_loop fuel b m deadline n w).1 <> Err e.
Proof.
  intros Hb. revert n w. induction fuel as [|fuel IH]; intros n w L e; [lia|]. cbn [drain_loop].
  destruct (gw_cancelled _); [done|]. destruct (flush b m w) as [[sent|er|] w1] eqn:E; [|done..].
  apply flush_Ok in E as [(items & M & N & _) R _]. destruct (Z.ltb_spec sent b) as [|G]; [done|].
  apply (f_equal length) in M. rewrite !length_map, length_take in M.
  unfold bind, Now. cbn -[drain_loop Before]. destruct (negb _); [done|]. apply IH. cbn [w_repo].
  rewrite R, length_drop. lia.
Qed.

(** A drain that ends without an error has delivered the oldest events, in
    their order, and nothing else. *)
Definition delivered_prefix (n : Z) (w w' : World Host) : Prop :=
  exists items, List.map Some items = List.map item_of (take (length items) (queue_list (ho_queue (w_repo w)))) /\
    n = Z.of_nat (length items) /\
    ho_accepted (w_repo w') = ho_accepted (w_repo w) ++ List.map qi_Event items /\
    queue_list (ho_queue (w_repo w')) = drop (length items) (queue_list (ho_queue (w_repo w))).

Lemma delivered_prefix_app n1 n2 w1 w2 w3 : delivered_prefix n1 w1 w2 -> delivered_prefix n2 w2 w3 -> delivered_prefix (n1 + n2) w1 w3.
Proof.
  intros (i1 & M1 & -> & A1 & Q1) (i2 & M2 & -> & A2 & Q2). exists (i1 ++ i2). rewrite length_app. split_and!.
  - rewrite map_app, M1, M2, Q1. rewrite <- map_app. by rewrite take_take_drop.
  - lia.
  - by rewrite A2, A1, map_app, <- app_assoc.
  - by rewrite Q2, Q1, drop_drop.
Qed.

Lemma drain_loop_prefix fuel b m deadline n w k w' : drain_loop fuel b m deadline n w = (Ok (k, None), w') ->
  exists d, k = n + d /\ delivered_prefix d w w'.
Proof.
  revert n w. induction fuel as [|fuel IH]; intros n w E; [done|]. cbn [drain_loop] in E.
  destruct (gw_cancelled _); [done|]. destruct (flush b m w) as [[sent|er|] w1] eqn:F; [|done..].
  apply flush_Ok in F as [(items & M & N & _ & A) R _].
  assert (D : delivered_prefix sent w w1) by (exists items; split_and!; [done..|by rewrite R, N, Nat2Z.id]).
  destruct (sent <? b); [injection E as <- <-; by exists sent|].
  apply bind_Ok in E as (now & w2 & [= _ <-] & E).
  assert (D2 : forall d w2, delivered_prefix d (mkWorld (w_repo w1) ((w_rt w1) {{ rt_ticks ::= S }})) w2 -> delivered_prefix (sent + d) w w2)
    by (intros d w2 H2; eapply delivered_prefix_app; [exact D|exact H2]).
  destruct (negb _).
  - injection E as <- <-. exists sent. by split.
  - apply IH in E as (d & -> & H2). exists (sent + d). split; [lia|]. by apply D2.
Qed.

End Drain.
