(* ===== verification/StoreForward.v ===== *)
(** * Store and forward: agents and collectors between crashes

    Any sequence of calls on one host, each of which may be the last of its
    process; the next one finds the files and an empty memory. *)

From S2P Require Import Prelude GoLang GoFormat GoUtf8 Json GoTime Core AgentEvent HostFiles DiskQueue Forwarding JournalSource Syslog FileTail HttpReceiver ApiPoll QueueFacts.
From S2P Require Import Delivery QueueOrder.

Section Host.
Context `{Gateway} `{Journalctl} `{PayloadTime} `{LogFiles} `{ApiServer}.

(** One turn of the agent for a journal source. *)
Definition poll_journal (source : JournalSource) (batchSize : Z) : HostM (Z * bool) :=
  let! events := Read source batchSize in
  persist_events CommitEvent events 0.

(** What the collector does with an event of a listener; a full queue is
    flushed once.  Of two joined errors the first is kept. *)
Definition collector_receive (batchSize : Z) (event : AgentEvent) : HostM unit :=
  catch (do! Enqueue event in ret tt) (fun e =>
    if errors_Is e ErrQueueFull then
      do! ignored Depth in
      do! catch (collector_flush batchSize) (fun _ => fail e) in
      do! Enqueue event in
      ret tt
    else fail e).

Inductive host_call : Type :=
  | CallEnqueue (event : AgentEvent)
  | CallEnqueueUnique (event : AgentEvent)
  | CallDrain (fuel : nat) (batchSize maximumBytes : Z) (budget : Duration)
  | CallCollectorFlush (batchSize : Z)
  | CallPollJournal (source : JournalSource) (batchSize : Z)
  | CallReceive (batchSize maximumBytes : Z) (sourceID sourceAddress datagram : string)
  | CallTail (config : FileTailConfig) (sources : list FileSource)
  | CallNewTailer (directory : string) (config : FileTailConfig)
  | CallHTTP (config : HTTPConfig) (request : HTTPRequest)
  | CallNewPoller (directory : string) (config : APIPollConfig) (sources : list APISource)
  | CallPollTurn (config : APIPollConfig) (sources : list apiSourceRuntime)
  | CallDepth
  | CallOldest
  | CallOpen (directory : string) (maxBytes : Z).

Definition quiet {A} (m : HostM A) : HostM unit := let! _ := m in ret tt.

Definition host_step (c : host_call) : HostM unit :=
  match c with
  | CallEnqueue event => quiet (Enqueue event)
  | CallEnqueueUnique event => quiet (EnqueueUnique event)
  | CallDrain fuel b m budget => quiet (drain fuel b m budget)
  | CallCollectorFlush b => collector_flush b
  | CallPollJournal source b => quiet (poll_journal source b)
  | CallReceive b maximumBytes sourceID sourceAddress datagram =>
      let! now := Now in
      match receive_datagram maximumBytes sourceID sourceAddress datagram now with
      | Some event => collector_receive b event
      | None => ret tt
      end
  | CallTail config sources => tail_pass config sources
  | CallNewTailer directory config => quiet (NewFileTailer directory config)
  | CallHTTP config request => quiet (receive config request)
  | CallNewPoller directory config sources => quiet (NewAPIPoller directory config sources)
  | CallPollTurn config sources => quiet (api_turn config sources)
  | CallDepth => quiet Depth
  | CallOldest => quiet OldestQueuedAt
  | CallOpen directory maxBytes => OpenDiskQueue directory maxBytes
  end.

(** A process that dies is started again. *)
Definition restarted (w : World Host) : World Host :=
  let q := ho_memory (w_repo w) in 
  mkWorld (crashed (dq_directory q) (dq_maxBytes q) (w_repo w) {{ ho_tails := ∅; ho_cursors := ∅ }}) (w_rt w).

Definition run_host (calls : list host_call) (w : World Host) : World Host :=
  fold_left (fun w c => match host_step c w with (Panic, w) => restarted w | (_, w) => w end) calls w.

Definition call_ok (c : host_call) : Prop :=
  match c with CallEnqueue event | CallEnqueueUnique event => event_ok event | _ => True end.

(** ** No event is lost *)

Lemma still_keeps {A} (m : HostM A) : evolves still m -> evolves keeps_events m.
Proof. intros Hm w. by apply keeps_still, Hm. Qed.

Lemma apart_keeps {A} (m : HostM A) : evolves (apart StateDir) m -> evolves keeps_events m.
Proof. intros Hm w. by apply keeps_apart_state, Hm. Qed.

Lemma evolves_quiet (rel : World Host -> World Host -> Prop) `{!PreOrder rel} {A} (m : HostM A) : evolves rel m -> evolves rel (quiet m).
Proof. intros Hm. apply evolves_bind; [done|done|]. intros; by apply evolves_ret. Qed.

Lemma still_checkpoint : evolves still checkpoint.
Proof.
  intros w. assert (S := still_ReadFile StateDir checkpointFile w). unfold checkpoint.
  destruct (ReadFile _ _ w) as [[body|e|] w1]; [|by destruct (errors_Is e ErrNotExist)|done]. by destruct (ContainsAny _ _).
Qed.

Lemma still_apart_state {A} (m : HostM A) : evolves still m -> (forall w, ho_memory (w_repo (m w).2) = ho_memory (w_repo w)) ->
  evolves (apart StateDir) m.
Proof. intros Hm M w. destruct (Hm w) as [R A1 S1 E]. split; auto. Qed.

Lemma CommitEvent_keeps event : evolves keeps_events (CommitEvent event).
Proof.
  unfold CommitEvent. destruct (_ || _); [apply evolves_fail; apply _|].
  apply evolves_bind; [apply _|apply still_keeps, still_checkpoint|]. intros current. destruct (_ == _); [apply evolves_ret; apply _|].
  apply apart_keeps, apart_commit.
Qed.

Lemma persist_keeps commit events n : (forall e, evolves keeps_events (commit e)) -> Forall event_ok events ->
  evolves keeps_events (persist_events commit events n).
Proof.
  intros Hc. revert n. induction events as [|e events IH]; intros n Ho; [apply evolves_ret; apply _|].
  apply Forall_cons in Ho as [He Ho]. intros w. cbn [persist_events]. assert (K := Enqueue_keeps e He w).
  destruct (Enqueue e w) as [[it|er|] w1]; [|by destruct (errors_Is er ErrQueueFull)|done]. etransitivity; [exact K|].
  assert (J : evolves keeps_events (do! commit e in persist_events commit events (n + 1))); [|apply J].
  apply evolves_bind; [apply _|apply Hc|]. intros _. by apply IH.
Qed.

(** Events of the journal carry no cursor number. *)
Lemma parseJournalEvent_ok raw e : parseJournalEvent raw = Ok e -> event_ok e.
Proof.
  unfold parseJournalEvent. repeat case_match; try done; intros [= <-]; unfold event_ok; cbn; unfold max_uint64, two64; lia.
Qed.

Lemma scan_events_ok limit lines events out full : scan_events limit lines events = Ok (out, full) ->
  Forall event_ok events -> Forall event_ok out.
Proof.
  revert events. induction lines as [|line lines IH]; intros events; cbn [scan_events]; [by intros [= <- <-]|].
  destruct (parseJournalEvent line) as [e|er|] eqn:P; [|done..]. intros E F.
  assert (F' : Forall event_ok (events ++ [e])) by (apply Forall_app; split; [done|]; constructor; [by eapply parseJournalEvent_ok|done]).
  destruct (_ =? _); [by injection E as <- <-|by eapply IH].
Qed.

Lemma Read_still source limit : evolves still (Read source limit).
Proof.
  unfold Read. repeat first [apply still_checkpoint | progress frame]; by intros w.
Qed.

Lemma Read_ok source limit w events w' : Read source limit w = (Ok events, w') -> Forall event_ok events.
Proof.
  unfold Read. destruct (negb _); [done|]. intros (cp & w1 & _ & (run & w2 & _ & E)%bind_Ok)%bind_Ok.
  destruct (scan_lines _ _ _) as [lines long]. apply bind_Ok in E as ([out full] & w3 & E & E').
  assert (S : Forall event_ok out) by (injection E as E _; eapply scan_events_ok; [exact E|constructor]).
  destruct full; [by injection E' as <- _|]. destruct (long || _); [done|].
  destruct (jr_wait run); [destruct (negb _); [done|]|]; by injection E' as <- _.
Qed.

Lemma poll_journal_keeps source b : evolves keeps_events (poll_journal source b).
Proof.
  intros w. unfold poll_journal. destruct (bind _ _ w) as [r w'] eqn:E. cbn [snd].
  apply bind_cases in E as [(events & w1 & E1 & E)|[_ (r1 & E1 & _)]]; assert (S1 := run_evolves _ _ _ _ _ (Read_still source b) E1);
    (etransitivity; [by apply keeps_still|]); [|reflexivity].
  eapply run_evolves; [|exact E]. apply persist_keeps; [apply CommitEvent_keeps|by eapply Read_ok].
Qed.

Lemma keeps_crashed directory maxBytes w : keeps_events w (mkWorld (crashed directory maxBytes (w_repo w)) (w_rt w)).
Proof. by intros [Wr Wf Wd]. Qed.

(** ** The collector's sources *)

Lemma keeps_ticks : ticks keeps_events.
Proof. intros w. apply keeps_still, still_ticks. Qed.

Lemma keeps_lift {A} (m : outcome A) : evolves keeps_events (lift m).
Proof. by intros w. Qed.

Lemma asks_Now : evolves keeps_events Now.
Proof. intros w. apply queue_keeps_Now. Qed.

(** What a value is known to be is known in the rest of the call. *)
Lemma keeps_lift_bind {A B} (m : outcome A) (k : A -> HostM B) :
  (forall a, m = Ok a -> evolves keeps_events (k a)) -> evolves keeps_events (bind (lift m) k).
Proof. intros Hk w. unfold bind, lift. destruct m as [a|e|]; [by apply Hk|reflexivity..]. Qed.

Lemma keeps_external {A} (f : Runtime -> outcome A) : evolves keeps_events (syscall (fun w => (f (w_rt w), w))).
Proof. apply still_keeps, evolves_syscall; [apply _|apply still_ticks|by intros w]. Qed.

Lemma keeps_commit prefix name body words : evolves keeps_events (commit_file StateDir prefix name body words).
Proof. apply apart_keeps, apart_commit. Qed.

Lemma keeps_Depth : evolves keeps_events Depth.
Proof. apply still_keeps, still_Depth. Qed.

Lemma keeps_change_tails f : evolves keeps_events (change_host (fun h => h {{ ho_tails ::= f }})).
Proof. intros w [Wr Wf Wd]. by split. Qed.

Lemma keeps_put_cursor source cursor : evolves keeps_events (put_cursor source cursor).
Proof. intros w [Wr Wf Wd]. by split. Qed.

Lemma keeps_ReadFile p name : evolves keeps_events (ReadFile p name).
Proof. apply still_keeps, still_ReadFile. Qed.

#[local] Hint Resolve keeps_ticks keeps_lift asks_Now keeps_external keeps_commit keeps_Depth keeps_change_tails keeps_put_cursor
  keeps_ReadFile CommitEvent_keeps collector_flush_keeps : evolves.

Lemma commitCheckpoint_keeps c : evolves keeps_events (commitCheckpoint c).
Proof. unfold commitCheckpoint. by frame. Qed.

Lemma loadFileCheckpoint_still path : evolves still (loadFileCheckpoint path).
Proof.
  intros w. assert (S := still_ReadFile StateDir (fileCheckpointPath path) w). unfold loadFileCheckpoint.
  destruct (ReadFile _ _ w) as [[body|e|] w1]; cbn [snd] in S; [|by destruct (errors_Is e ErrNotExist)|done].
  destruct (decode_checkpoint body) as [c|]; [|done]. by destruct (_ || _).
Qed.

Lemma keeps_load path : evolves keeps_events (loadFileCheckpoint path).
Proof. apply still_keeps, loadFileCheckpoint_still. Qed.

#[local] Hint Resolve commitCheckpoint_keeps keeps_load : evolves.

Lemma prepare_sources_keeps sources seen : evolves keeps_events (prepare_sources sources seen).
Proof. revert seen. induction sources as [|source sources IH]; intros seen; cbn [prepare_sources]; by frame. Qed.

#[local] Hint Resolve prepare_sources_keeps : evolves.

Lemma networkEvent_ok s a p t e : networkEvent s a p t = Ok e -> event_ok e.
Proof. intros E. by apply networkEvent_Ok in E as [? _]. Qed.

Lemma tail_line_keeps source line dirty c : evolves keeps_events (tail_line source line dirty c).
Proof.
  intros w. unfold tail_line. destruct (_ == _); [reflexivity|]. set (m := bind _ _). assert (J : evolves keeps_events m); [|apply J].
  apply evolves_bind; [apply _|apply asks_Now|]. intros now. apply keeps_lift_bind. intros e E%networkEvent_ok.
  assert (K : evolves keeps_events (Enqueue (if fs_Format source != "" then e {{ ev_Format := fs_Format source }} else e)))
    by (apply Enqueue_keeps; by destruct (_ != _)).
  unfold commit_dirty. frame; done.
Qed.

#[local] Hint Resolve tail_line_keeps : evolves.

Lemma tail_lines_keeps n config source fp rest c k dirty : evolves keeps_events (tail_lines n config source fp rest c k dirty).
Proof.
  revert rest c k dirty. induction n as [|n IH]; intros rest c k dirty; cbn [tail_lines].
  - unfold commit_dirty. by frame.
  - intros w. destruct (lg_cancelled _); [reflexivity|]. set (m := bind _ _). assert (J : evolves keeps_events m); [|apply J].
    unfold m, commit_dirty. frame; done.
Qed.

#[local] Hint Resolve tail_lines_keeps : evolves.

Lemma pollSource_keeps config source : evolves keeps_events (pollSource config source).
Proof. unfold pollSource. frame; done. Qed.

#[local] Hint Resolve pollSource_keeps : evolves.

Lemma tail_pass_keeps config sources : evolves keeps_events (tail_pass config sources).
Proof. induction sources as [|source sources IH]; cbn [tail_pass]; by frame. Qed.

Lemma received_event_ok s a f c x p t e : received_event s a f c x p t = Ok e -> event_ok e.
Proof.
  unfold received_event. destruct (networkEvent s a p t) as [e0| |] eqn:E; [|done..]. apply networkEvent_ok in E.
  intros [= <-]. by destruct (x != ""), (c != ""), (f != "").
Qed.

Lemma sink_events_keeps s a f c x payloads accepted : evolves keeps_events (sink_events s a f c x payloads accepted).
Proof.
  revert accepted. induction payloads as [|payload payloads IH]; intros accepted; cbn [sink_events]; [by frame|].
  apply evolves_bind; [apply _|apply asks_Now|]. intros now. destruct (received_event s a f c x payload now) as [e|e|] eqn:E; [|by frame..].
  apply received_event_ok in E. intros w. assert (K := Enqueue_keeps e E w). destruct (Enqueue e w) as [[it|er|] w1]; [|done..].
  etransitivity; [exact K|apply IH].
Qed.

#[local] Hint Resolve sink_events_keeps : evolves.

Lemma receive_keeps config request : evolves keeps_events (receive config request).
Proof. unfold receive. by frame. Qed.

Lemma api_event_ok source document cursor next i now e : api_event source document cursor next i now = Ok e -> event_ok e.
Proof.
  unfold api_event. destruct (networkEvent _ _ _ _) as [e0| |] eqn:E; [|done..]. apply networkEvent_ok in E. by intros [= <-].
Qed.

Lemma queue_page_keeps config source cursor next i documents : evolves keeps_events (queue_page config source cursor next i documents).
Proof.
  revert i. induction documents as [|document documents IH]; intros i; cbn [queue_page]; [by frame|].
  apply evolves_if; [by frame|]. apply evolves_bind; [apply _|apply asks_Now|]. intros now.
  apply keeps_lift_bind. intros e E%api_event_ok. apply evolves_bind; [apply _|by apply EnqueueUnique_keeps|]. intros _. apply IH.
Qed.

#[local] Hint Resolve queue_page_keeps : evolves.

Lemma advance_cursor_keeps source cursor next : evolves keeps_events (advance_cursor source cursor next).
Proof. unfold advance_cursor, commitAPICheckpoint. by frame. Qed.

#[local] Hint Resolve advance_cursor_keeps : evolves.

(** Nothing is written, though the clock may be read. *)
Definition asking (w w' : World Host) : Prop :=
  keeps_events w w' /\ sources_of w' = sources_of w /\ ho_state (w_repo w') = ho_state (w_repo w).

#[local] Instance asking_preorder : PreOrder asking.
Proof.
  split; [done|]. intros w1 w2 w3 (K1 & S1 & T1) (K2 & S2 & T2). split; [by etransitivity|]. split; congruence.
Qed.

Lemma asking_still {A} (m : HostM A) : evolves still m -> evolves asking m.
Proof. intros Hm w. specialize (Hm w). split; [by apply keeps_still|]. split; [apply Hm|apply (st_entries _ _ Hm StateDir)]. Qed.

Lemma asking_Now : evolves asking Now.
Proof. intros w. split; [apply asks_Now|done]. Qed.

Lemma fetchPage_asking config source cursor : evolves asking (fetchPage config source cursor).
Proof.
  unfold fetchPage. apply evolves_bind; [apply _|apply asking_still; frame; by intros w|]. intros response.
  apply evolves_if; [|by apply asking_still; frame; intros w].
  unfold parseRetryAfter. assert (N := asking_Now). frame; by intros w.
Qed.

Lemma fetchPage_keeps config source cursor : evolves keeps_events (fetchPage config source cursor).
Proof. intros w. apply fetchPage_asking. Qed.

#[local] Hint Resolve fetchPage_keeps : evolves.

Lemma poll_pages_keeps pages config source cursor : evolves keeps_events (poll_pages pages config source cursor).
Proof. revert cursor. induction pages as [|pages IH]; intros cursor; cbn [poll_pages]; unfold get_cursor; by frame. Qed.

Lemma poll_due_keeps config source now nextWake : evolves keeps_events (poll_due config source now nextWake).
Proof.
  intros w. unfold poll_due. destruct (After _ _); [reflexivity|].
  assert (K : evolves keeps_events (poll_api config (rn_source source)))
    by (unfold poll_api, get_cursor; apply evolves_bind; [apply _|by frame|intros cursor; apply poll_pages_keeps]).
  specialize (K w). destruct (poll_api _ _ w) as [[u|e|] w1]; [..|exact K]; (destruct (lg_cancelled _); [exact K|]); (etransitivity; [exact K|]);
    (set (m := bind Now _); assert (J : evolves keeps_events m); [unfold m; assert (N := asks_Now); by frame|apply J]).
Qed.

Lemma poll_sources_keeps config sources now nextWake : evolves keeps_events (poll_sources config sources now nextWake).
Proof.
  revert nextWake. induction sources as [|source sources IH]; intros nextWake; cbn [poll_sources]; [by frame|].
  apply evolves_bind; [apply _|apply poll_due_keeps|]. intros p. apply evolves_bind; [apply _|apply IH|]. intros ?. by frame.
Qed.

Lemma loadAPICheckpoint_still source : evolves still (loadAPICheckpoint source).
Proof.
  intros w. assert (S := still_ReadFile StateDir (apiCheckpointPath source) w). unfold loadAPICheckpoint.
  destruct (ReadFile _ _ w) as [[body|e|] w1]; [|by destruct (errors_Is e ErrNotExist)|done].
  destruct (decode_api_checkpoint body) as [c|]; [|done]. by destruct (_ || _).
Qed.

Lemma prepare_api_sources_keeps sources seen : evolves keeps_events (prepare_api_sources sources seen).
Proof.
  assert (L := fun source => still_keeps _ (loadAPICheckpoint_still source)).
  revert seen. induction sources as [|source sources IH]; intros seen; cbn [prepare_api_sources]; by frame.
Qed.

#[local] Hint Resolve prepare_api_sources_keeps : evolves.

Lemma collector_receive_keeps b e : event_ok e -> evolves keeps_events (collector_receive b e).
Proof. intros Ho. assert (K := Enqueue_keeps e Ho). unfold collector_receive. by frame. Qed.

Lemma keeps_restarted w : keeps_events w (restarted w).
Proof. by intros [Wr Wf Wd]. Qed.

Lemma OpenDiskQueue_keeps directory maxBytes : evolves keeps_events (OpenDiskQueue directory maxBytes).
Proof.
  unfold OpenDiskQueue. apply evolves_if; [by frame|]. apply evolves_bind; [apply _|by frame|]. intros _.
  apply evolves_bind; [apply _|intros w; apply keeps_crashed|]. intros _. by frame.
Qed.

Lemma host_step_keeps c : call_ok c -> evolves keeps_events (host_step c).
Proof.
  destruct c as [e|e|fuel b m budget|b|source b|b m s a d|config sources|directory config|config request|directory config sources|config sources| | |directory maxBytes];
    intros Hc; cbn [host_step]; try (apply evolves_quiet; [apply _|]).
  - by apply Enqueue_keeps.
  - by apply EnqueueUnique_keeps.
  - apply drain_keeps.
  - apply collector_flush_keeps.
  - apply poll_journal_keeps.
  - apply evolves_bind; [apply _|apply asks_Now|]. intros now. unfold receive_datagram.
    destruct (_ || _); [by frame|]. destruct (networkEvent s a d now) as [e| |] eqn:E; [|by frame..].
    by eapply collector_receive_keeps, networkEvent_ok.
  - apply tail_pass_keeps.
  - unfold NewFileTailer. by frame.
  - apply receive_keeps.
  - unfold NewAPIPoller. by frame.
  - apply evolves_bind; [apply _|apply asks_Now|]. intros now. apply poll_sources_keeps.
  - apply keeps_Depth.
  - apply still_keeps. unfold OldestQueuedAt. by frame.
  - apply OpenDiskQueue_keeps.
Qed.

Lemma run_host_keeps calls w : Forall call_ok calls -> keeps_events w (run_host calls w).
Proof.
  revert w. induction calls as [|c calls IH]; intros w Hc; [reflexivity|]. apply Forall_cons in Hc as [Hc Hs].
  cbn [run_host fold_left]. assert (K := host_step_keeps c Hc w). destruct (host_step c w) as [[u|e|] w1]; cbn [snd] in K;
    (etransitivity; [exact K|]); [by apply IH..|]. etransitivity; [apply keeps_restarted|by apply IH].
Qed.

(** An event that was queued is on disk. *)
Lemma Enqueue_queued event w it w1 : event_ok event -> Enqueue event w = (Ok it, w1) -> queued (clean_event event) (files w1).
Proof.
  intros Ho E. apply Enqueue_files in E as [_ [(body & M & F)|[F _]]]; [|done].
  exists (new_name w), body, (clean_item (new_item event w)). split_and!; [by rewrite F, lookup_insert_eq| |done].
  by apply unmarshal_marshal.
Qed.

End Host.

(** ** Texts that are UTF-8 *)

Definition event_utf8 (e : AgentEvent) : Prop :=
  utf8 (ev_Format e) /\ utf8 (ev_ContentType e) /\ utf8 (ev_EventID e) /\ utf8 (ev_SourceID e) /\ utf8 (ev_SourceAddress e) /\
  utf8 (ev_Checkpoint e).

Definition item_utf8 (item : QueueItem) : Prop := utf8 (qi_QueueID item) /\ event_utf8 (qi_Event item).

Lemma clean_event_utf8 e : event_utf8 e -> clean_event e = e.
Proof.
  destruct e. intros (H1 & H2 & H3 & H4 & H5 & H6). cbn -[clean] in *. by rewrite !clean_utf8.
Qed.

Lemma clean_item_utf8 item : item_utf8 item -> clean_item item = item {{ qi_file := "" }}.
Proof. destruct item. intros [H1 H2]. cbn -[clean clean_event] in *. by rewrite clean_utf8, clean_event_utf8. Qed.

(** * The checkpoint of a source and the events behind it *)

(** What a reader of the checkpoint gets. *)
Definition stored_in (d : gmap string Entry) : string :=
  match d !! checkpointFile with Some (File body) => TrimSpace body | _ => "" end.
Definition stored_checkpoint (w : World Host) : string := stored_in (ho_state (w_repo w)).

Definition next_checkpoint (e : AgentEvent) : string := TrimSpace (ev_Checkpoint e).

Definition is_checkpoint (name : string) : bool := name == checkpointFile.
Arguments is_checkpoint : simpl never.

Lemma temporary_no_checkpoint n : is_checkpoint (".journald-checkpoint-" +:+ Itoa (Z.of_N n)) = false.
Proof. by apply bool_decide_eq_false. Qed.

Lemma visible_stored d d' : visible is_checkpoint d = visible is_checkpoint d' -> stored_in d = stored_in d'.
Proof.
  intros E. assert (L := f_equal (lookup checkpointFile) E). unfold visible in L. rewrite !map_lookup_filter in L. unfold stored_in.
  cbn in L. assert (K : is_checkpoint checkpointFile = true) by by apply bool_decide_eq_true.
  destruct (d !! checkpointFile) as [e|], (d' !! checkpointFile) as [e'|]; cbn in L; rewrite ?option_guard_True in L by done; try done.
  by injection L as ->.
Qed.

Lemma visible_stored_insert body d d' : visible is_checkpoint d' = <[checkpointFile := File body]> (visible is_checkpoint d) ->
  stored_in d' = TrimSpace body.
Proof.
  intros E. rewrite (visible_stored d' (<[checkpointFile := File body]> d)).
  - unfold stored_in. by rewrite lookup_insert_eq.
  - rewrite E. symmetry. apply visible_insert. by apply bool_decide_eq_true.
Qed.

Lemma checkpoint_Ok w c w' : checkpoint w = (Ok c, w') -> c = stored_checkpoint w.
Proof.
  unfold checkpoint, stored_checkpoint, stored_in. destruct (ReadFile _ _ w) as [[body|e|] w1] eqn:E; [| |done].
  - apply ReadFile_cases in E as [(b & [= <-] & L)|[[[=] _]|[[=]|[=]]]]. change (ho_state (w_repo w) !! checkpointFile = Some (File body)) in L.
    rewrite L. destruct (ContainsAny _ _); [done|]. by intros [= <- _].
  - destruct (errors_Is e ErrNotExist) eqn:N; [|done]. intros [= <- _].
    apply ReadFile_cases in E as [(b & [=] & _)|[[_ L]|[[= ->]|[=]]]]; [|done].
    change (ho_state (w_repo w) !! checkpointFile = None) in L. by rewrite L.
Qed.

(** Nothing but the checkpoint changes, and it is the old one or the new. *)
Lemma CommitEvent_cases e w r w' : CommitEvent e w = (r, w') ->
  files w' = files w /\
  (stored_checkpoint w' = next_checkpoint e \/ is_ok r = false /\ stored_checkpoint w' = stored_checkpoint w).
Proof.
  unfold CommitEvent. fold (next_checkpoint e). destruct (_ || _); [intros [= <- <-]; split; [done|by right]|].
  assert (J1 : forall w1 r1, checkpoint w = (r1, w1) -> files w1 = files w /\ stored_checkpoint w1 = stored_checkpoint w).
  { intros w1 r1 E. assert (S := run_evolves _ _ _ _ _ still_checkpoint E). split; [by apply still_files|].
    unfold stored_checkpoint. by rewrite (st_entries _ _ S StateDir : ho_state _ = ho_state _). }
  intros [(c & w1 & E1 & E)|[F (r1 & E1 & _)]]%bind_cases; destruct (J1 _ _ E1) as [F1 K1]; [|split; [done|by right]].
  apply checkpoint_Ok in E1. destruct (_ == _) eqn:N.
  - injection E as <- <-. split; [done|left]. rewrite K1, <- E1. by apply bool_decide_eq_true in N as <-.
  - assert (L := commit_file_leaves StateDir is_checkpoint ".journald-checkpoint-" temporary_no_checkpoint checkpointFile
      (next_checkpoint e) checkpoint_words _ (bool_decide_eq_true_2 _ eq_refl) w1 eq_refl).
    assert (A := run_evolves _ _ _ _ _ (apart_commit StateDir _ _ _ _) E). rewrite E in L. split.
    { rewrite <- F1. unfold files. by rewrite (ap_other _ _ _ A QueueDir ltac:(done) : ho_queue _ = ho_queue _). }
    assert (J : forall d, visible is_checkpoint d = <[checkpointFile := File (next_checkpoint e)]> (visible is_checkpoint (ho_state (w_repo w1))) ->
      stored_in d = next_checkpoint e) by (intros d ->%visible_stored_insert; apply TrimSpace_idemp).
    rewrite <- K1. destruct r as [[]|er|]; [left; by apply J|..]; (destruct L as [L|L]; [right; split; [done|by apply visible_stored]|left; by apply J]).
Qed.

Lemma last_cons_default {A} (x d : A) l : default d (last (x :: l)) = default x (last l).
Proof. revert x d. induction l as [|y l IH]; intros x d; [done|]. change (last (x :: y :: l)) with (last (y :: l)). by rewrite !IH. Qed.

Section Persist.
Context `{Gateway}.

(** However the loop ends: the checkpoint is the one of the last of some first
    events of the batch, and all of these are on disk. *)
Lemma persist_checkpoint events n w r w' : queue_wf w -> Forall event_ok events ->
  persist_events CommitEvent events n w = (r, w') ->
  exists k, (k <= length events)%nat /\ (forall e, e ∈ take k events -> secured (clean_event e) w') /\
    stored_checkpoint w' = default (stored_checkpoint w) (last (List.map next_checkpoint (take k events))) /\
    forall m full, r = Ok (m, full) -> m = n + Z.of_nat k /\ (full = false -> k = length events).
Proof.
  intros W Ho. revert n w W r w'. induction events as [|e events IH]; intros n w W r w' E.
  { injection E as <- <-. exists O. split_and!; [done|by intros e ?%not_elem_of_nil|done|]. intros m full [= <- <-]. split; [lia|done]. }
  apply Forall_cons in Ho as [He Ho]. cbn [persist_events] in E.
  assert (Stop : forall r1, is_ok r1 = false \/ r1 = Ok (n, true) -> stored_checkpoint w' = stored_checkpoint w -> r = r1 ->
    exists k, (k <= length (e :: events))%nat /\ (forall e', e' ∈ take k (e :: events) -> secured (clean_event e') w') /\
      stored_checkpoint w' = default (stored_checkpoint w) (last (List.map next_checkpoint (take k (e :: events)))) /\
      forall m full, r = Ok (m, full) -> m = n + Z.of_nat k /\ (full = false -> k = length (e :: events))).
  { intros r1 Hr S ->. exists O. split_and!; [lia|by intros e' ?%not_elem_of_nil|done|].
    intros m full ->. destruct Hr as [?|[= -> ->]]; [done|]. split; [lia|done]. }
  destruct (Enqueue e w) as [r1 w1] eqn:E1. assert (K1 := run_evolves _ _ _ _ _ (Enqueue_keeps e He) E1).
  assert (S1 : stored_checkpoint w1 = stored_checkpoint w)
    by (apply Enqueue_files in E1 as [Q _]; unfold stored_checkpoint; by rewrite (qo_state _ _ Q)).
  destruct r1 as [it|er|].
  - assert (Q1 := Enqueue_queued _ _ _ _ He E1). destruct (K1 W) as [W1 _].
    apply bind_cases in E as [([] & w2 & E2 & E)|[F (r2 & E2 & F2)]]; assert (K2 := run_evolves _ _ _ _ _ (CommitEvent_keeps e) E2);
      destruct (K2 W1) as [W2 X2]; specialize (X2 _ (or_introl Q1)); apply CommitEvent_cases in E2 as [_ [S2|[F3 S2]]]; try done.
    + assert (K3 := run_evolves _ _ _ _ _ (persist_keeps CommitEvent events (n + 1) CommitEvent_keeps Ho) E).
      destruct (IH Ho _ _ W2 _ _ E) as (k & L & Se & St & R). exists (S k). cbn [length take List.map]. split_and!; [lia| | |].
      * intros e' [->|I]%elem_of_cons; [by apply (K3 W2)|by apply Se].
      * by rewrite last_cons_default, St, S2.
      * intros m full Hr. apply R in Hr as [-> Hf]. split; [lia|]. intros Hx. by rewrite Hf.
    + exists 1%nat. cbn [length take List.map last default]. split_and!; [lia| |done|by intros m full ->].
      intros e' ->%list_elem_of_singleton. done.
    + apply (Stop r); [by left|congruence|done].
  - destruct (errors_Is er ErrQueueFull); injection E as <- <-; (eapply Stop; [|done|reflexivity]); [by right|by left].
  - injection E as <- <-. apply (Stop Panic); [by left|done|reflexivity].
Qed.

End Persist.
