(* ===== verification/StoreForwardProps.v ===== *)
(** * What store and forward promises *)

From S2P Require Import Prelude GoLang GoFormat GoUtf8 Json GoTime Core AgentEvent HostFiles DiskQueue Forwarding JournalSource Syslog FileTail HttpReceiver ApiPoll QueueFacts.
From S2P Require Import Delivery QueueOrder StoreForward.

Section Promises.
Context `{Gateway} `{Journalctl} `{PayloadTime} `{LogFiles} `{ApiServer}.

(** C8. Once [Enqueue] has answered without an error, the event is on disk or
    acknowledged by the gateway after any further calls, whichever system
    calls fail and wherever the process dies and starts again. *)
Theorem enqueued_event_survives event w it w1 calls : queue_wf w -> event_ok event -> Forall call_ok calls ->
  Enqueue event w = (Ok it, w1) -> secured (clean_event event) (run_host calls w1).
Proof.
  intros W Ho Hc E. assert (Q := Enqueue_queued _ _ _ _ Ho E). assert (K := run_evolves _ _ _ _ _ (Enqueue_keeps event Ho) E).
  apply (run_host_keeps calls w1 Hc); [by apply K|by left].
Qed.

(** C9. A poll of the journal, however it ends, leaves the checkpoint where it
    was or moves it to the last of the first [k] events it read, and those are
    safe from then on: the checkpoint never passes an event that was not
    queued. *)
Theorem checkpoint_follows_the_queue source b w r w' : queue_wf w -> poll_journal source b w = (r, w') ->
  match Read source b w with
  | (Ok events, _) => exists k, (k <= length events)%nat /\
      (forall e calls, e ∈ take k events -> Forall call_ok calls -> secured (clean_event e) (run_host calls w')) /\
      stored_checkpoint w' = default (stored_checkpoint w) (last (List.map next_checkpoint (take k events))) /\
      forall n full, r = Ok (n, full) -> n = Z.of_nat k /\ (full = false -> k = length events)
  | _ => stored_checkpoint w' = stored_checkpoint w /\ is_ok r = false
  end.
Proof.
  intros W E. unfold poll_journal in E. destruct (Read source b w) as [r1 w1] eqn:E1.
  assert (S1 := run_evolves _ _ _ _ _ (Read_still source b) E1). destruct (keeps_still _ _ S1 W) as [W1 _].
  assert (C1 : stored_checkpoint w1 = stored_checkpoint w)
    by (unfold stored_checkpoint; by rewrite (st_entries _ _ S1 StateDir : ho_state _ = ho_state _)).
  unfold bind in E. rewrite E1 in E. destruct r1 as [events|e|]; [|by injection E as <- <-..].
  assert (Ho := Read_ok _ _ _ _ _ E1). rewrite <- C1.
  assert (K := run_evolves _ _ _ _ _ (persist_keeps CommitEvent events 0 CommitEvent_keeps Ho) E).
  destruct (persist_checkpoint events 0 w1 r w' W1 Ho E) as (k & L & Se & St & R). exists k. split_and!; [done| |done|done].
  intros e calls I Hc. apply (run_host_keeps calls w' Hc); [by apply (K W1)|by apply Se].
Qed.

(** C10. A drain that reports [n] deliveries and no error has delivered the [n]
    oldest events of the queue, in the order of their files, and removed these
    files and no other. *)
Theorem drain_delivers_in_order fuel b m budget n w w' : drain fuel b m budget w = (Ok (n, None), w') ->
  delivered_prefix n w w'.
Proof.
  unfold drain. intros (now & w1 & [= _ <-] & E)%bind_Ok. apply drain_loop_prefix in E as (d & -> & D). exact D.
Qed.

(** C11. The loop of [drain] ends: one turn more than there are files is
    enough, whatever the gateway and the file system do. *)
Theorem drain_terminates b m budget w fuel : 0 < b -> (length (queue_list (ho_queue (w_repo w))) < fuel)%nat ->
  (exists n stopped, (drain fuel b m budget w).1 = Ok (n, stopped)) \/ (drain fuel b m budget w).1 = Panic.
Proof.
  intros Hb L. assert (N := fun d => drain_loop_ends fuel b m d 0 (mkWorld (w_repo w) ((w_rt w) {{ rt_ticks ::= S }})) Hb L).
  unfold drain, bind, Now. cbn -[drain_loop]. specialize (N (time_Add (rt_clock (w_rt w) (rt_ticks (w_rt w))) budget)).
  destruct (drain_loop _ _ _ _ _ _) as [[[n stopped]|e|] w'] eqn:E; cbn in *; [left; eauto|by destruct (N e)|by right].
Qed.

(** What [Peek] decodes from a file is the item that was written to it;
    only bytes that are no UTF-8 are replaced. *)
Theorem queue_item_round_trip item body : event_ok (qi_Event item) -> marshal_item item = Ok body ->
  unmarshal_item body = Some (clean_item item) /\ (item_utf8 item -> clean_item item = item {{ qi_file := "" }}).
Proof. intros Ho M. split; [by apply unmarshal_marshal|apply clean_item_utf8]. Qed.

End Promises.

(** * An agent at work

    Concrete runs that the theorems of StoreForwardProps.v apply to: a host
    with three queued events, a gateway that acknowledges what it can read, a
    journal of two entries, and a disk whose calls fail or end the process. *)

(** ** A gateway *)

Definition member (name : string) (members : list (string * Json)) : string :=
  match List.find (fun m => m.1 == name) members with Some (_, JString raw) => unquote raw | _ => "" end.

Definition receipt_of (eventID : string) : Receipt :=
  {| re_MessageID := "m"; re_EventID := eventID; re_Status := "QUEUED"; re_Topic := "raw"; re_AcceptedAt := zero_time |}.

Definition receipts_of (body : string) : option (list Receipt) :=
  match json_parse body with
  | Some (JObject [(_, JArray items)]) =>
      Some (List.map (fun item => match item with JObject members => receipt_of (member "event_id" members) | _ => receipt_of "" end) items)
  | _ => None
  end.

#[local] Instance reading_gateway : Gateway := {|
  gw_token _ := None;
  gw_event _ event := Ok {| rs_StatusCode := 202; rs_decoded := Some (receipt_of (ev_EventID event)) |};
  gw_batch _ body := Ok {| rs_StatusCode := 202; rs_decoded := receipts_of body |};
  gw_cancelled _ := None
|}.

(** ** A journal *)

Definition text_member (name text : string) : string * Json := (json_text name, text_value text).
Definition journal_line (cursor : string) : string :=
  json_print (JObject [text_member "__CURSOR" cursor; text_member "__REALTIME_TIMESTAMP" "1750000000000000"; text_member "_HOSTNAME" "web-1"]).

#[local] Instance two_entries : Journalctl := {|
  jc_linux := true;
  jc_start _ arguments := Ok {|
    jr_stdout := journal_line "s=1;i=1" +:+ String newline (journal_line "s=1;i=2" +:+ String newline "");
    jr_broken := false; jr_wait := None; jr_cancelled := false |}
|}.

(** ** What a collector reads *)

#[local] Instance receipt_time : PayloadTime := {| originalEventTimestamp _ receivedAt := receivedAt |}.

Definition line_text (s : string) : string := s +:+ String newline "".

(** A log with a blank line and a line that is not complete. *)
Definition log_text : string := line_text "first" +:+ line_text "  " +:+ line_text "second" +:+ "thi".

#[local] Instance one_log : LogFiles := {|
  lg_lstat _ _ := Ok {| fi_Size := string_len log_text; fi_Regular := true |};
  lg_content _ _ := Ok log_text;
  lg_cancelled _ := None
|}.

(** Two pages of one event each. *)
Definition api_page (id cursor : string) (more : bool) : string :=
  json_print (JObject [("events", JArray [JObject [text_member "id" id]]); text_member "next_cursor" cursor; ("has_more", JBool more)]).

#[local] Instance two_pages : ApiServer := {|
  api_fetch _ _ cursor := Ok {| ar_status := 200; ar_RetryAfter := ""; ar_body := if cursor == "" then api_page "a1" "c1" true else api_page "a2" "c2" false |};
  url_absolute _ := true;
  url_address url := url;
  api_client _ := Ok tt;
  http_ParseTime _ := None
|}.

Definition the_journal : JournalSource := {| js_matches := [] |}.

(** ** A host *)

Definition an_event (id : string) : AgentEvent := {|
  ev_Format := "linux-journald-json-v1"; ev_ContentType := "application/json"; ev_EventID := id; ev_EventTimestamp := unix_epoch;
  ev_SourceID := "host:web-1"; ev_SourceAddress := "web-1"; ev_Payload := Some "{}"; ev_Cursor := 0; ev_Checkpoint := "s=1;i=0" |}.

Lemma an_event_ok id : event_ok (an_event id).
Proof. unfold event_ok, max_uint64, two64. cbn. lia. Qed.

Definition a_host (faults : nat -> Fault) : World Host := mkWorld {|
  ho_queue := ∅; ho_state := ∅;
  ho_memory := {| dq_directory := "/var/lib/kcsp/queue"; dq_maxBytes := 4096; dq_measured := false; dq_count := 0; dq_bytes := 0 |};
  ho_tails := ∅; ho_cursors := ∅; ho_fault := faults; ho_cut := fun _ => 3%nat; ho_temporary := fun n => N.of_nat n; ho_calls := 0; ho_accepted := [] |} steady_runtime.

Definition healthy : nat -> Fault := fun _ => Works.
Definition dies_at (n : nat) : nat -> Fault := fun k => if decide (k = n) then Dies else Works.

Lemma a_host_wf faults : queue_wf (a_host faults).
Proof. split; [exact tally_inj|done|done]. Qed.

Abbreviation three_queued := (run_host [CallEnqueue (an_event "e1"); CallEnqueue (an_event "e2"); CallEnqueue (an_event "e3")] (a_host healthy)).

Definition sketch_host (w : World Host) : list (option string) * list string * string :=
  (List.map (fun f => it ← item_of f; Some (ev_EventID (qi_Event it))) (queue_list (ho_queue (w_repo w))),
   List.map ev_EventID (ho_accepted (w_repo w)), stored_checkpoint w).

Example three_queued_sketch : sketch_host three_queued = ([Some "e1"; Some "e2"; Some "e3"], [], "").
Proof. vm_compute. reflexivity. Qed.

(** A batch of two, and the rest. *)
Example drained_sketch : sketch_host (drain 4 2 1000000 Second three_queued).2 = ([], ["e1"; "e2"; "e3"], "").
Proof. vm_compute. reflexivity. Qed.

(** The write of the second event ends the process: a temporary file is left,
    the event is not in the queue. *)
Example died_sketch : sketch_host (run_host [CallEnqueue (an_event "e1"); CallEnqueue (an_event "e2")] (a_host (dies_at 9))) = ([Some "e1"], [], "").
Proof. vm_compute. reflexivity. Qed.

(** A limit that two of the events reach: the batch is short though the queue
    is not empty, and the loop ends. *)
Example short_batch_sketch : sketch_host (drain 4 100 2100 Second three_queued).2 = ([Some "e3"], ["e1"; "e2"], "").
Proof. vm_compute. reflexivity. Qed.

(** An event that is larger than the limit by itself stops all that follow. *)
Example blocked_sketch : sketch_host (drain 4 2 1024 Second three_queued).2 = ([Some "e1"; Some "e2"; Some "e3"], [], "").
Proof. vm_compute. reflexivity. Qed.

Example polled_sketch : sketch_host (poll_journal the_journal 10 (a_host healthy)).2 =
  ([Some "journal_63fd53f547cad4f69ee5c68f"; Some "journal_0186282b65122e9713f633fc"], [], "s=1;i=2").
Proof. vm_compute. reflexivity. Qed.

(** ** The theorems at these runs *)

Lemma host_fact {A} (m : HostM A) w : is_ok (m w).1 = true -> exists a w', m w = (Ok a, w').
Proof. destruct (m w) as [[a|e|] w']; cbn; [|congruence..]. eauto. Qed.

Lemma some_enqueue : exists it w1, Enqueue (an_event "e1") (a_host (dies_at 9)) = (Ok it, w1).
Proof. apply host_fact. vm_compute. reflexivity. Qed.

Definition after_e1 : list host_call := [CallEnqueue (an_event "e2"); CallDrain 4 2 1000000 Second; CallPollJournal the_journal 10].

Lemma after_e1_ok : Forall call_ok after_e1.
Proof. repeat constructor; apply an_event_ok. Qed.

Lemma enqueued_event_survives_witness : exists w1, secured (clean_event (an_event "e1")) (run_host after_e1 w1).
Proof.
  destruct some_enqueue as (it & w1 & E). exists w1.
  exact (enqueued_event_survives (an_event "e1") (a_host (dies_at 9)) it w1 after_e1 (a_host_wf _) (an_event_ok _) after_e1_ok E).
Defined.

Lemma some_poll : exists r w', poll_journal the_journal 10 (a_host (dies_at 20)) = (r, w').
Proof. destruct (poll_journal _ _ _) as [r w']. eauto. Qed.

Lemma checkpoint_follows_the_queue_witness : exists r w', match Read the_journal 10 (a_host (dies_at 20)) with
  | (Ok events, _) => exists k, (k <= length events)%nat /\
      (forall e calls, e ∈ take k events -> Forall call_ok calls -> secured (clean_event e) (run_host calls w')) /\
      stored_checkpoint w' = default (stored_checkpoint (a_host (dies_at 20))) (last (List.map next_checkpoint (take k events))) /\
      forall n full, r = Ok (n, full) -> n = Z.of_nat k /\ (full = false -> k = length events)
  | _ => stored_checkpoint w' = stored_checkpoint (a_host (dies_at 20)) /\ is_ok r = false
  end.
Proof.
  destruct some_poll as (r & w' & E). exists r, w'.
  exact (checkpoint_follows_the_queue the_journal 10 (a_host (dies_at 20)) r w' (a_host_wf _) E).
Defined.

Lemma some_drain : exists n w', drain 4 2 1000000 Second three_queued = (Ok (n, None), w').
Proof.
  assert (E : exists w', drain 4 2 1000000 Second three_queued = (Ok (3, None), w')); [|destruct E as [w' E]; eauto].
  assert (F : (drain 4 2 1000000 Second three_queued).1 = Ok (3, None)) by (vm_compute; reflexivity).
  destruct (drain 4 2 1000000 Second three_queued) as [r w']. cbn in F. subst r. eauto.
Qed.

Lemma drain_delivers_in_order_witness : exists n w', delivered_prefix n three_queued w'.
Proof.
  destruct some_drain as (n & w' & E). exists n, w'. exact (drain_delivers_in_order 4 2 1000000 Second n three_queued w' E).
Defined.

Lemma three_files : (length (queue_list (ho_queue (w_repo three_queued))) < 4)%nat.
Proof. assert (E : length (queue_list (ho_queue (w_repo three_queued))) = 3%nat) by (vm_compute; reflexivity). lia. Qed.

Lemma drain_terminates_witness :
  (exists n stopped, (drain 4 2 1000000 Second three_queued).1 = Ok (n, stopped)) \/ (drain 4 2 1000000 Second three_queued).1 = Panic.
Proof. exact (drain_terminates 2 1000000 Second three_queued 4 ltac:(lia) three_files). Defined.

Definition an_item : QueueItem := {| qi_QueueID := "queue_1"; qi_Event := an_event "e1"; qi_file := "name" |}.

Lemma some_body : exists body, marshal_item an_item = Ok body.
Proof.
  assert (F : is_ok (marshal_item an_item) = true) by (vm_compute; reflexivity). destruct (marshal_item an_item) as [body| |]; [eauto|done..].
Qed.

Lemma queue_item_round_trip_witness : exists body, unmarshal_item body = Some (clean_item an_item) /\
  (item_utf8 an_item -> clean_item an_item = an_item {{ qi_file := "" }}).
Proof. destruct some_body as [body E]. exists body. exact (queue_item_round_trip an_item body (an_event_ok _) E). Defined.
