(* ===== verification/CollectorFacts.v ===== *)
(** * What the sources of a collector leave behind

    Each source queues what it has read before it moves its checkpoint. *)

From S2P Require Import Prelude GoLang GoFormat GoUtf8 Json GoTime Core AgentEvent HostFiles DiskQueue Forwarding JournalSource Syslog FileTail HttpReceiver ApiPoll QueueFacts Delivery QueueOrder StoreForward.

(** ** Checkpoint files *)

Definition json_file (name : string) : bool := HasSuffix name ".json".
Arguments json_file : simpl never.

Lemma temporary_no_json prefix n : json_file (prefix +:+ Itoa (Z.of_N n)) = false.
Proof.
  apply not_true_iff_false. intros E. apply HasSuffix_app in E as [pre E].
  destruct (Itoa_ok (Z.of_N n)) as (_ & c & t & Ei & C & T & _); [lia|].
  assert (L := f_equal last_char E). rewrite Ei, !last_char_app in L.
  destruct (last_char_digits c t) as (d & Ed & D); [cbn; by rewrite C, T|]. rewrite Ed in L. cbn in L. by injection L as ->.
Qed.

Definition state_file (name : string) (w : World Host) : option Entry := ho_state (w_repo w) !! name.

Lemma visible_lookup d d' name : visible json_file d' = visible json_file d -> json_file name = true -> d' !! name = d !! name.
Proof.
  intros E K. assert (L := f_equal (lookup name) E). unfold visible in L. rewrite !map_lookup_filter in L.
  destruct (d !! name) as [e|], (d' !! name) as [e'|]; cbn in L; rewrite ?option_guard_True in L by done; congruence.
Qed.

(** Committing a file writes this one, all of it, or nothing. *)
Lemma commit_state_file prefix name body words w r w' : json_file name = true ->
  commit_file StateDir prefix name body words w = (r, w') ->
  apart StateDir w w' /\
  (state_file name w' = Some (File body) \/ is_ok r = false /\ state_file name w' = state_file name w).
Proof.
  intros K E. split; [eapply run_evolves; [apply apart_commit|exact E]|].
  assert (L := commit_file_leaves StateDir json_file prefix (temporary_no_json prefix) name body words _ K w eq_refl).
  rewrite E in L. change (entries StateDir (w_repo w)) with (ho_state (w_repo w)) in L. change (entries StateDir (w_repo w')) with (ho_state (w_repo w')) in L.
  assert (New : visible json_file (ho_state (w_repo w')) = <[name := File body]> (visible json_file (ho_state (w_repo w))) ->
    state_file name w' = Some (File body)).
  { intros V. unfold state_file. rewrite (visible_lookup (<[name := File body]> (ho_state (w_repo w)))); [by rewrite lookup_insert_eq| |done].
    rewrite V. symmetry. by apply visible_insert. }
  destruct r as [[]|e|]; [left; by apply New|..];
    (destruct L as [L|L]; [right; split; [done|by apply visible_lookup]|left; by apply New]).
Qed.

Lemma decode_first_parse s v : json_parse s = Some v -> decode_first s = Some v.
Proof.
  unfold json_parse, decode_first. destruct (parse_value _ _ _) as [[v' rest]|]; [|done]. cbn. destruct (_ == _); [|done]. by intros [= ->].
Qed.

Lemma ParseInt_Itoa z : 0 <= z <= max_int -> ParseInt (Itoa z) = Some z.
Proof. apply Atoi_Itoa. Qed.

(** What is read back of a checkpoint of the tailer. *)
Lemma checkpoint_reads_back c body : 0 <= fc_Offset c <= max_int -> marshal_checkpoint c = Ok body ->
  exists c', decode_checkpoint body = Some c' /\ fc_Offset c' = fc_Offset c /\ fc_Path c' = clean (fc_Path c).
Proof.
  intros O. unfold marshal_checkpoint. destruct (_ || _) eqn:Y; [done|]. intros B. rewrite orb_false_iff, !Z.ltb_ge in Y.
  assert (body = json_print (checkpoint_json c)) as -> by congruence. clear B.
  assert (S : forall s, string_forallb plain_char s = true -> scans s) by apply scans_plain.
  unfold decode_checkpoint. rewrite (decode_first_parse _ (checkpoint_json c)).
  2: { apply json_round_trip.
       - unfold checkpoint_json. cbn [json_wf]. repeat apply wf_app.
         + cbn. split_and!; try (by apply S); [by apply json_text_scans|apply Itoa_number; lia|done].
         + apply omit_empty_wf. by apply S.
         + cbn. split_and!; [by apply S|apply S, RFC3339_plain|done].
       - unfold checkpoint_json, omit_empty. destruct (_ == _); vm_compute; congruence. }
  cbn [mbind option_bind].
  assert (T : set_checkpoint "updated_at" (JString (FormatRFC3339Nano (fc_UpdatedAt c))) = fun x => t ← ParseRFC3339 (FormatRFC3339Nano (fc_UpdatedAt c)); Some (x {{ fc_UpdatedAt := t }})) by done.
  assert (K : known_fields file_checkpoint_names (checkpoint_json c) = true) by (unfold checkpoint_json, omit_empty; destruct (_ == _); vm_compute; reflexivity).
  rewrite K. clear K.
  unfold decode_struct, checkpoint_json. cbn [app].
  rewrite (decode_field _ _ "path" _ _ _ (zero_fileCheckpoint {{ fc_Path := clean (fc_Path c) }})); [|by vm_compute|reflexivity].
  rewrite (decode_field _ _ "offset" _ _ _ (zero_fileCheckpoint {{ fc_Path := clean (fc_Path c) }} {{ fc_Offset := fc_Offset c }})); [|by vm_compute|].
  2: { change (set_checkpoint "offset" (JNumber ?l) ?x) with (n ← ParseInt l; Some (x {{ fc_Offset := n }})). by rewrite ParseInt_Itoa. }
  set (x := _ {{ fc_Offset := _ }}).
  assert (F : exists y, decode_members file_checkpoint_names set_checkpoint (omit_empty "fingerprint" (fc_Fingerprint c)) x = Some y /\
    fc_Offset y = fc_Offset c /\ fc_Path y = clean (fc_Path c)).
  { unfold omit_empty. destruct (_ == _); [by exists x|]. exists (x {{ fc_Fingerprint := clean (fc_Fingerprint c) }}). split; [|done].
    rewrite (decode_field _ _ "fingerprint" _ _ _ (x {{ fc_Fingerprint := clean (fc_Fingerprint c) }})); [reflexivity|by vm_compute|reflexivity]. }
  destruct F as (y & F & O' & P'). rewrite (decode_app _ _ _ _ _ _ F).
  rewrite (decode_field _ _ "updated_at" _ _ _ (y {{ fc_UpdatedAt := fc_UpdatedAt c }})); [|by vm_compute|by rewrite T, RFC3339_round_trip].
  eexists. split; [reflexivity|]. done.
Qed.

(** ** Following a file *)

Definition concat_lines (lines : list string) (rest : string) : string := foldr String.append rest lines.
Definition lines_len (lines : list string) : Z := string_len (concat_lines lines "").

Lemma concat_lines_length lines rest : string_len (concat_lines lines rest) = lines_len lines + string_len rest.
Proof.
  unfold lines_len. induction lines as [|l lines IH]; cbn [concat_lines foldr] in *; [done|]. unfold concat_lines, string_len in *.
  rewrite !length_append. lia.
Qed.

Lemma lines_len_cons l lines : lines_len (l :: lines) = string_len l + lines_len lines.
Proof. unfold lines_len, concat_lines, string_len. cbn [foldr]. rewrite length_append. lia. Qed.

Lemma lines_len_nonneg lines : 0 <= lines_len lines.
Proof. unfold lines_len, string_len. lia. Qed.

(** A line with its newline. *)
Definition is_line (line : string) : Prop :=
  exists text, line = text +:+ String newline "" /\ string_forallb (fun c => c != newline) text = true.

Lemma read_slice_split size s line rest : read_slice size s = SliceLine line rest -> s = line +:+ rest /\ is_line line.
Proof.
  revert size line. induction s as [|c s IH]; intros size line; cbn [read_slice]; (destruct (_ <=? _); [done|]); [done|].
  destruct (c == newline) eqn:N.
  - intros [= <- <-]. split; [done|]. exists "". split; [|done]. apply bool_decide_eq_true in N as ->. done.
  - destruct (read_slice (size - 1) s) as [l r| |] eqn:E; [|done..].
    intros [= <- <-]. destruct (IH _ _ E) as [-> (text & -> & F)]. split; [done|]. exists (String c text). split; [done|].
    cbn [string_forallb]. by rewrite N, F.
Qed.

Definition no_newline (s : string) : bool := string_forallb (fun c => c != newline) s.

Lemma read_slice_end size s line : read_slice size s = SliceEnd line -> no_newline s = true.
Proof.
  unfold no_newline. revert size line. induction s as [|c s IH]; intros size line; cbn [read_slice string_forallb]; [done|].
  destruct (_ <=? _); [done|]. destruct (c == newline) eqn:N; [done|]. destruct (read_slice (size - 1) s) as [l r|l|] eqn:E; [done| |done].
  intros _. cbn. by eapply IH.
Qed.

Section Tail.
Context `{Gateway} `{Journalctl} `{PayloadTime} `{LogFiles} `{ApiServer}.

Definition is_blank_line (line : string) : bool := TrimSpace (line_payload line) == "".

(** A line whose event is queued or delivered. *)
Definition line_secured (source : FileSource) (line : string) (w : World Host) : Prop :=
  is_blank_line line = true \/
  exists e, secured e w /\ ev_SourceID e = clean (fs_SourceID source) /\ ev_SourceAddress e = clean (fs_Path source) /\
    ev_Payload e = Some (trim_right_set [carriage_return; newline; nul] (line_payload line)).

Definition tail_offset (path : string) (w : World Host) : option Z := fc_Offset <$> ho_tails (w_repo w) !! path.
Definition disk_offset (path : string) (w : World Host) : option Z :=
  match state_file (fileCheckpointPath path) w with Some (File body) => fc_Offset <$> decode_checkpoint body | _ => None end.

(** Each of the two offsets is the old one or the one after some lines. *)
Definition offsets_moved (path : string) (offset : Z) (w w' : World Host) : Prop :=
  (tail_offset path w' = tail_offset path w \/ tail_offset path w' = Some offset) /\
  (disk_offset path w' = disk_offset path w \/ disk_offset path w' = Some offset).

Definition offsets_same (path : string) (w w' : World Host) : Prop :=
  tail_offset path w' = tail_offset path w /\ disk_offset path w' = disk_offset path w.

#[export] Instance offsets_same_preorder path : PreOrder (offsets_same path).
Proof. split; [done|]. intros w1 w2 w3 [T1 D1] [T2 D2]. split; congruence. Qed.

Lemma offsets_moved_from path offset w1 w2 w3 : offsets_same path w1 w2 -> offsets_moved path offset w2 w3 -> offsets_moved path offset w1 w3.
Proof. intros [T D] [M1 M2]. split; rewrite <- ?T, <- ?D; done. Qed.

Lemma offsets_same_moved path offset w1 w2 : offsets_same path w1 w2 -> offsets_moved path offset w1 w2.
Proof. intros [T D]. split; by left. Qed.

Lemma fileCheckpointPath_json path : json_file (fileCheckpointPath path) = true.
Proof. unfold fileCheckpointPath. rewrite <- !append_assoc. apply HasSuffix_of_app. Qed.

Lemma queue_only_offsets path w w' : queue_only w w' -> offsets_same path w w'.
Proof.
  intros [_ _ S St]. unfold offsets_same, tail_offset, disk_offset, state_file. rewrite St. by injection S as -> _.
Qed.

Lemma still_offsets path w w' : still w w' -> offsets_same path w w'.
Proof. intros S. by apply queue_only_offsets, still_queue_only. Qed.

(** A commit moves both offsets to the one of the checkpoint, or the file's
    only, or none. *)
Lemma commitCheckpoint_moves c w r w' : 0 <= fc_Offset c <= max_int -> commitCheckpoint c w = (r, w') ->
  offsets_moved (fc_Path c) (fc_Offset c) w w'.
Proof.
  intros O. unfold commitCheckpoint. set (w1 := (Now w).2). intros E.
  assert (S1 : offsets_same (fc_Path c) w w1) by done. apply (offsets_moved_from _ _ _ _ _ S1).
  apply bind_cases in E as [(now & w2 & [= <- <-] & E)|[_ (r1 & [= <- _] & [=])]]. fold w1 in E.
  set (c1 := c {{ fc_UpdatedAt := _ }}) in E.
  apply bind_cases in E as [(body & w2 & [= M <-] & E)|[_ (r1 & [= _ <-] & _)]]; [|by apply offsets_same_moved].
  change (fc_Path c1) with (fc_Path c) in E.
  assert (J : forall w2 r2, commit_file StateDir "file-checkpoints/.checkpoint-" (fileCheckpointPath (fc_Path c)) body file_checkpoint_words w1 = (r2, w2) ->
    tail_offset (fc_Path c) w2 = tail_offset (fc_Path c) w1 /\
    (disk_offset (fc_Path c) w2 = disk_offset (fc_Path c) w1 \/ disk_offset (fc_Path c) w2 = Some (fc_Offset c))).
  { intros w2 r2 E2. apply commit_state_file in E2 as [A F]; [|apply fileCheckpointPath_json]. split; [unfold tail_offset; assert (T := ap_sources _ _ _ A); by injection T as -> _|].
    destruct (checkpoint_reads_back c1 body O M) as (c' & D & Oc & _).
    unfold disk_offset. destruct F as [F|[_ F]]; rewrite F; [right|by left]. rewrite D. cbn. by rewrite Oc. }
  apply bind_cases in E as [([] & w2 & E2 & E)|[_ (r1 & E2 & _)]]; destruct (J _ _ E2) as [T D].
  - injection E as _ <-. split; [right|exact D]. unfold tail_offset. cbn. by rewrite lookup_insert_eq.
  - split; [by left|exact D].
Qed.

Definition offsets_at (path : string) (offset : Z) (w : World Host) : Prop :=
  tail_offset path w = Some offset /\ disk_offset path w = Some offset.

Lemma commitCheckpoint_Ok c w w' : 0 <= fc_Offset c <= max_int -> commitCheckpoint c w = (Ok tt, w') -> offsets_at (fc_Path c) (fc_Offset c) w'.
Proof.
  intros O. unfold commitCheckpoint. intros (now & w1 & [= <- <-] & E)%bind_Ok.
  apply bind_Ok in E as (body & w2 & M & E). unfold lift in M. injection M as M <-. apply bind_Ok in E as ([] & w3 & E3 & [= <-]).
  set (c1 := c {{ fc_UpdatedAt := _ }}) in *. destruct (checkpoint_reads_back c1 body O M) as (c' & D & Oc & _).
  apply commit_state_file in E3 as [A [F|[? _]]]; [|done|apply fileCheckpointPath_json].
  split; [unfold tail_offset; cbn; by rewrite lookup_insert_eq|]. unfold disk_offset, state_file, change_host. cbn -[fileCheckpointPath decode_checkpoint].
  unfold state_file in F. change (fc_Path c1) with (fc_Path c) in F. rewrite F, D. cbn. by rewrite Oc.
Qed.

Lemma commit_dirty_moves dirty c w r w' : 0 <= fc_Offset c <= max_int -> commit_dirty dirty c w = (r, w') ->
  offsets_moved (fc_Path c) (fc_Offset c) w w'.
Proof.
  intros O. unfold commit_dirty. destruct dirty; [by apply commitCheckpoint_moves|]. intros [= _ <-]. by apply offsets_same_moved.
Qed.

Lemma tail_line_cases source line dirty c w r w' : queue_wf w -> fc_Path c = fs_Path source -> 0 <= fc_Offset c <= max_int ->
  tail_line source line dirty c w = (r, w') ->
  match r with
  | Ok queued => queued = negb (is_blank_line line) /\ offsets_same (fs_Path source) w w' /\ line_secured source line w'
  | _ => offsets_moved (fs_Path source) (fc_Offset c) w w'
  end.
Proof.
  intros W P O. unfold tail_line. destruct (TrimSpace (line_payload line) == "") eqn:B; fold (is_blank_line line) in B;
    [intros [= <- <-]; rewrite B; split_and!; [done..|by left]|].
  intros E. apply bind_cases in E as [(now & w1 & [= <- <-] & E)|[_ (r1 & [= <- _] & [=])]].
  set (w1 := mkWorld _ _) in E. assert (W1 : queue_wf w1) by (by apply (queue_keeps_Now w)). clear W.
  change (offsets_same (fs_Path source) w w') with (offsets_same (fs_Path source) w1 w').
  change (offsets_moved (fs_Path source) (fc_Offset c) w w') with (offsets_moved (fs_Path source) (fc_Offset c) w1 w').
  apply bind_cases in E as [(e & w2 & [= Ev <-] & E)|[F (r1 & [= _ <-] & _)]];
    [|assert (M := offsets_same_moved (fs_Path source) (fc_Offset c) w1 w1 ltac:(done)); by destruct r].
  apply networkEvent_Ok in Ev as (Ok & Sid & Sad & Pl).
  set (event := if fs_Format source != "" then _ else e) in E.
  assert (Ev : event_ok event /\ ev_SourceID event = fs_SourceID source /\ ev_SourceAddress event = fs_Path source /\
    ev_Payload event = Some (trim_right_set [carriage_return; newline; nul] (line_payload line))) by (unfold event; by destruct (_ != _)).
  clearbody event. destruct Ev as (Ok' & Sid' & Sad' & Pl').
  assert (J : forall w2 r2, catch (do! Enqueue event in ret tt) (fun queueErr => do! catch (commit_dirty dirty c) (fun _ => fail queueErr) in fail queueErr) w1 = (r2, w2) ->
    if is_ok r2 then offsets_same (fs_Path source) w1 w2 /\ line_secured source line w2 else offsets_moved (fs_Path source) (fc_Offset c) w1 w2).
  { intros w2 r2 E2. apply catch_cases in E2 as [[E2 N]|(er & w3 & E2 & E3)].
    - apply bind_cases in E2 as [(it & w3 & E3 & [= <- <-])|[F (r3 & E3 & F3)]]; assert (Q := E3); apply Enqueue_files in Q as [Q _].
      + split; [by apply (queue_only_offsets _ (drawn w1))|]. right. exists (clean_event event). split.
        * left. by eapply Enqueue_queued.
        * cbn. by rewrite Sid', Sad', Pl'.
      + rewrite F. apply offsets_same_moved. by apply (queue_only_offsets _ (drawn w1)).
    - assert (S3 : offsets_same (fs_Path source) w1 w3).
      { apply bind_cases in E2 as [(it & w4 & _ & [=])|[_ (r3 & E4 & _)]]. apply Enqueue_files in E4 as [Q _]. by apply (queue_only_offsets _ (drawn w1)). }
      assert (C : is_ok r2 = false /\ exists r4, commit_dirty dirty c w3 = (r4, w2)).
      { apply bind_cases in E3 as [(u & w4 & E4 & [= <- <-])|[F (r4 & E4 & _)]]; (split; [done|]);
          apply catch_cases in E4 as [[E4 _]|(er' & w5 & E4 & [= _ <-])]; by eexists. }
      destruct C as [-> (r4 & C)]. apply (offsets_moved_from _ _ _ _ _ S3). rewrite <- P. by eapply commit_dirty_moves. }
  apply bind_cases in E as [([] & w2 & E2 & [= <- <-])|[F (r2 & E2 & F2)]]; apply J in E2; [by rewrite B|]. rewrite F2 in E2. by destruct r.
Qed.

Definition queued_count (lines : list string) : Z := Z.of_nat (length (List.filter (fun line => negb (is_blank_line line)) lines)).

(** What an answer without an error says of the lines that were read: how many
    were queued, that none is left before the limit, and where the offsets
    are. *)
Definition poll_done (limit : nat) (path : string) (lines : list string) (rest : string) (offset k : Z) (dirty : bool)
    (r : outcome Z) (w : World Host) : Prop :=
  forall n, r = Ok n -> n = k + queued_count lines /\ (length lines = limit \/ no_newline rest = true) /\
    (dirty = true \/ lines <> [] -> offsets_at path offset w).

Lemma poll_done_commit limit path rest c k dirty w r w' : fc_Path c = path -> 0 <= fc_Offset c <= max_int ->
  (limit = O \/ no_newline rest = true) -> (do! commit_dirty dirty c in ret k) w = (r, w') ->
  poll_done limit path [] rest (fc_Offset c) k dirty r w'.
Proof.
  intros <- O L E n ->. apply bind_Ok in E as ([] & w1 & E1 & [= -> ->]). split_and!; [change (queued_count []) with 0; lia|destruct L; auto|].
  intros [->|]; [|done]. by eapply commitCheckpoint_Ok.
Qed.

Lemma queued_count_cons line lines : queued_count (line :: lines) = (if negb (is_blank_line line) then 1 else 0) + queued_count lines.
Proof. unfold queued_count. cbn [List.filter]. destruct (is_blank_line line); cbn [negb length]; lia. Qed.

(** However a poll ends after its start: the offsets are the old ones or those
    after the first lines, and these lines are safe. *)
Lemma tail_lines_cases n config source fp rest c k dirty w r w' : queue_wf w -> fc_Path c = fs_Path source -> 0 <= fc_Offset c ->
  fc_Offset c + string_len rest <= max_int -> tail_lines n config source fp rest c k dirty w = (r, w') ->
  exists lines rest', rest = concat_lines lines rest' /\ Forall is_line lines /\ (forall line, line ∈ lines -> line_secured source line w') /\
    offsets_moved (fs_Path source) (fc_Offset c + lines_len lines) w w' /\
    poll_done n (fs_Path source) lines rest' (fc_Offset c + lines_len lines) k dirty r w'.
Proof.
  revert rest c k dirty w. induction n as [|n IH]; intros rest c k dirty w W P O B E;
    (assert (R : 0 <= string_len rest) by (unfold string_len; lia)).
  all: assert (Halt : forall limit, offsets_moved (fs_Path source) (fc_Offset c) w w' -> poll_done limit (fs_Path source) [] rest (fc_Offset c) k dirty r w' ->
      exists lines rest', rest = concat_lines lines rest' /\ Forall is_line lines /\ (forall line, line ∈ lines -> line_secured source line w') /\
        offsets_moved (fs_Path source) (fc_Offset c + lines_len lines) w w' /\
        poll_done limit (fs_Path source) lines rest' (fc_Offset c + lines_len lines) k dirty r w')
    by (intros limit M D; exists [], rest; rewrite Z.add_0_r; split_and!; [done|constructor|by intros l ?%not_elem_of_nil|done|done]).
  - cbn [tail_lines] in E. apply Halt; [|eapply poll_done_commit; [done|lia|by left|exact E]]. rewrite <- P.
    apply bind_cases in E as [(u & w1 & E1 & [= _ <-])|[_ (r1 & E1 & _)]]; (eapply commit_dirty_moves; [|exact E1]; lia).
  - assert (Stop : offsets_moved (fs_Path source) (fc_Offset c) w w' -> is_ok r = false -> _) by (intros M F; apply (Halt (S n) M); intros m ->; done).
    clear Halt. cbn [tail_lines] in E. destruct (lg_cancelled _); [injection E as <- <-; apply Stop; [by apply offsets_same_moved|done]|].
    assert (S0 : evolves still (wrapping ("read file source " +:+ fs_Path source) (syscall (@ret (World Host) unit tt)))) by by frame.
    apply bind_cases in E as [(u & w1 & E1 & E)|[F (r1 & E1 & _)]]; assert (S1 := run_evolves _ _ _ _ _ S0 E1);
      assert (T1 := still_offsets (fs_Path source) _ _ S1); [|apply Stop; [by apply offsets_same_moved|done]].
    destruct (keeps_still _ _ S1 W) as [W1 _]. clear E1.
    destruct (read_slice _ rest) as [line rest1|line|] eqn:Sl.
    + destruct (_ <? _); [injection E as <- <-; apply Stop; [by apply offsets_same_moved|done]|]. 
      apply read_slice_split in Sl as [-> Il]. unfold string_len in B, R. rewrite length_append in B, R.
      apply bind_cases in E as [(queued & w2 & E2 & E)|[F (r2 & E2 & F2)]]; assert (L := E2);
        apply (tail_line_cases _ _ _ _ _ _ _ W1 P) in L; try lia; [|apply Stop; [eapply offsets_moved_from; [exact T1|]; by destruct r2|done]].
      destruct L as (Q2 & T2 & L2). assert (K2 := run_evolves _ _ _ _ _ (tail_line_keeps source line dirty c) E2). destruct (K2 W1) as [W2 _].
      assert (K3 := run_evolves _ _ _ _ _ (tail_lines_keeps _ _ _ _ _ _ _ _) E).
      apply IH in E as (lines & rest2 & -> & Ils & Sec & M & D); [|done|done|cbn; unfold string_len; lia|cbn; unfold string_len in *; lia].
      change (fc_Offset (c {{ fc_Offset ::= _; fc_Fingerprint := _ }})) with (fc_Offset c + string_len line) in M, D.
      rewrite <- Z.add_assoc, <- lines_len_cons in M, D.
      exists (line :: lines), rest2. split_and!; [done|by constructor| | |].
      * intros l [->|I]%elem_of_cons; [|by apply Sec]. destruct L2 as [L2|(e & Se & Re)]; [by left|right]. exists e. split; [by apply (K3 W2)|done].
      * eapply offsets_moved_from; [exact T1|]. eapply offsets_moved_from; [exact T2|exact M].
      * intros m Hm. destruct (D m Hm) as (C & Li & At). rewrite queued_count_cons, <- Q2. split_and!; [|by destruct Li; [left; cbn; lia|right]|].
        -- destruct queued; lia.
        -- intros _. apply At. by left.
    + destruct (_ <? _); [injection E as <- <-; apply Stop; [by apply offsets_same_moved|done]|]. clear Stop.
      apply read_slice_end in Sl. exists [], rest. rewrite Z.add_0_r. split_and!; [done|constructor|by intros l ?%not_elem_of_nil| |].
      * eapply offsets_moved_from; [exact T1|]. rewrite <- P.
        apply bind_cases in E as [(u' & w2 & E2 & [= _ <-])|[_ (r2 & E2 & _)]]; (eapply commit_dirty_moves; [|exact E2]; lia).
      * eapply poll_done_commit; [done|lia|by right|exact E].
    + injection E as <- <-. apply Stop; [by apply offsets_same_moved|done].
Qed.

End Tail.

(** ** Requests *)

Section Requests.
Context `{Gateway} `{Journalctl} `{PayloadTime} `{LogFiles} `{ApiServer}.

(** An event of the host with this payload. *)
Definition payload_secured (payload : string) (w : World Host) : Prop :=
  exists e, secured e w /\ ev_Payload e = Some (trim_right_set [carriage_return; newline; nul] payload).

Lemma received_event_payload s a f c x p t e : received_event s a f c x p t = Ok e ->
  ev_Payload e = Some (trim_right_set [carriage_return; newline; nul] p).
Proof.
  unfold received_event. destruct (networkEvent s a p t) as [e0| |] eqn:E; [|done..]. apply networkEvent_Ok in E as (_ & _ & _ & P).
  intros [= <-]. by destruct (x != ""), (c != ""), (f != "").
Qed.

(** An answer of 202 comes after every payload was queued. *)
Lemma sink_events_202 s a f c x payloads accepted w resp w' : queue_wf w ->
  sink_events s a f c x payloads accepted w = (Ok resp, w') -> rp_status resp = 202 ->
  length (rp_accepted resp) = (length accepted + length payloads)%nat /\ forall p, p ∈ payloads -> payload_secured p w'.
Proof.
  revert accepted w. induction payloads as [|payload payloads IH]; intros accepted w W E S; cbn [sink_events] in E.
  { injection E as <- <-. cbn. split; [lia|]. by intros p ?%not_elem_of_nil. }
  apply bind_Ok in E as (now & w1 & [= _ <-] & E). set (w1 := mkWorld _ _) in E. assert (W1 : queue_wf w1) by by apply (queue_keeps_Now w).
  destruct (received_event s a f c x payload now) as [e|e|] eqn:R; [|injection E as <- _; done|done].
  assert (Ho := received_event_ok _ _ _ _ _ _ _ _ R). assert (P := received_event_payload _ _ _ _ _ _ _ _ R).
  destruct (Enqueue e w1) as [[it|er|] w2] eqn:E2; [|injection E as <- _; by destruct (errors_Is er ErrQueueFull)|done].
  assert (K := run_evolves _ _ _ _ _ (Enqueue_keeps e Ho) E2). assert (W2 := proj1 (K W1)).
  assert (K2 := run_evolves _ _ _ _ _ (sink_events_keeps s a f c x payloads (accepted ++ [ev_EventID e])) E).
  apply (IH _ _ W2) in E as [L Sec]; [|done]. rewrite length_app in L. cbn [length] in L |- *. split; [lia|].
  intros p [->|I]%elem_of_cons; [|by apply Sec]. exists (clean_event e). split; [|exact P].
  apply (K2 W2). left. by eapply Enqueue_queued.
Qed.

Lemma receive_202 config request w resp w' : queue_wf w -> receive config request w = (Ok resp, w') -> rp_status resp = 202 ->
  exists batch contentType, payloads config request = Ok (batch, contentType) /\ length (rp_accepted resp) = length batch /\
    forall p, p ∈ batch -> payload_secured p w'.
Proof.
  intros W. unfold receive. destruct (sourceIdentity config request) as [[sid sad] auth].
  destruct (negb auth); [by intros [= <- _]|]. destruct (payloads config request) as [[batch ct]|e|] eqn:P; [|by intros [= <- _]; cbn; destruct (errors_Is e _)|done].
  destruct (_ && _); [by intros [= <- _]|]. destruct (_ || _); [by intros [= <- _]|]. intros E S.
  apply sink_events_202 in E as [L Sec]; [|done..]. by exists batch, ct.
Qed.

(** ** Pages *)

Definition id_secured (id : string) (w : World Host) : Prop := exists e, secured e w /\ (ev_EventID e = id \/ ev_EventID e = clean id).

Lemma EnqueueUnique_secured event w it w' : event_ok event -> EnqueueUnique event w = (Ok it, w') -> id_secured (ev_EventID event) w'.
Proof.
  intros Ho E. apply EnqueueUnique_files in E as [_ [(body & item & M & Ev & F & _)|[F X]]].
  - exists (clean_event event). split; [|by right]. left. exists (unique_name (ev_EventID event)), body, (clean_item item).
    split_and!; [by rewrite F, lookup_insert_eq| |by subst event]. apply unmarshal_marshal; [by subst event|done].
  - destruct (X eq_refl) as (body & it' & Hb & U & Eq). exists (qi_Event it'). split; [|by left]. left.
    exists (unique_name (ev_EventID event)), body, it'. split_and!; [by rewrite F|done..].
Qed.

Definition page_ids (source : APISource) (cursor : string) (index : Z) (documents : list Json) : list string :=
  imap (fun i document => stableAPIEventID source document cursor (index + Z.of_nat i) (json_print document)) documents.

Lemma page_ids_cons source cursor index document documents :
  page_ids source cursor index (document :: documents) =
  stableAPIEventID source document cursor index (json_print document) :: page_ids source cursor (index + 1) documents.
Proof.
  unfold page_ids. cbn [imap]. f_equal; [f_equal; lia|]. apply imap_ext. intros i d _. unfold compose. f_equal. lia.
Qed.

Lemma api_event_id source document cursor next i now e : api_event source document cursor next i now = Ok e ->
  ev_EventID e = stableAPIEventID source document cursor i (json_print document).
Proof. unfold api_event. destruct (networkEvent _ _ _ _); [|done..]. by intros [= <-]. Qed.

Lemma id_secured_keeps id w w' : queue_wf w -> keeps_events w w' -> id_secured id w -> id_secured id w'.
Proof. intros W K (e & S & E). exists e. split; [by apply (K W)|done]. Qed.

Lemma queue_page_secured config source cursor next i documents w w' : queue_wf w ->
  queue_page config source cursor next i documents w = (Ok tt, w') -> forall id, id ∈ page_ids source cursor i documents -> id_secured id w'.
Proof.
  revert i w. induction documents as [|document documents IH]; intros i w W E id I; [by apply not_elem_of_nil in I|].
  rewrite page_ids_cons in I. cbn [queue_page] in E. destruct (_ || _); [done|].
  apply bind_Ok in E as (now & w1 & [= _ <-] & E). set (w1 := mkWorld _ _) in E. assert (W1 : queue_wf w1) by by apply (queue_keeps_Now w).
  apply bind_Ok in E as (e & w2 & [= Ev <-] & E). assert (Ho := api_event_ok _ _ _ _ _ _ _ Ev). apply api_event_id in Ev.
  apply bind_Ok in E as (it & w2 & E2 & E). assert (W2 := proj1 (run_evolves _ _ _ _ _ (EnqueueUnique_keeps e Ho) E2 W1)).
  apply elem_of_cons in I as [->|I]; [|by eapply IH]. eapply id_secured_keeps; [exact W2| |].
  - eapply run_evolves; [|exact E]. apply queue_page_keeps.
  - rewrite <- Ev. by eapply EnqueueUnique_secured.
Qed.

Definition api_cursor (source : APISource) (w : World Host) : string := default "" (ho_cursors (w_repo w) !! as_SourceID source).
Definition disk_cursor (source : APISource) (w : World Host) : option string :=
  match state_file (apiCheckpointPath source) w with Some (File body) => ac_Cursor <$> decode_api_checkpoint body | _ => None end.

Definition cursors_same (source : APISource) (w w' : World Host) : Prop :=
  api_cursor source w' = api_cursor source w /\ disk_cursor source w' = disk_cursor source w.

#[export] Instance cursors_same_preorder source : PreOrder (cursors_same source).
Proof. split; [done|]. intros w1 w2 w3 [T1 D1] [T2 D2]. split; congruence. Qed.

Lemma queue_only_cursors source w w' : queue_only w w' -> cursors_same source w w'.
Proof.
  intros [_ _ S St]. unfold cursors_same, api_cursor, disk_cursor, state_file. rewrite St. by injection S as _ ->.
Qed.

Lemma asking_cursors source w w' : asking w w' -> cursors_same source w w'.
Proof. intros (_ & S & St). unfold cursors_same, api_cursor, disk_cursor, state_file. rewrite St. by injection S as _ ->. Qed.

Lemma queue_page_cursors config source cursor next i documents : evolves (cursors_same source) (queue_page config source cursor next i documents).
Proof.
  revert i. induction documents as [|document documents IH]; intros i; cbn [queue_page]; [by apply evolves_ret; apply _|].
  apply evolves_if; [by apply evolves_fail; apply _|]. apply evolves_bind; [apply _|by intros w|]. intros now.
  apply evolves_bind; [apply _|by intros w|]. intros e. apply evolves_bind; [apply _| |intros _; apply IH].
  intros w. destruct (EnqueueUnique e w) as [r w'] eqn:E. apply EnqueueUnique_files in E as [Q _]. by apply queue_only_cursors.
Qed.

Lemma apiCheckpointPath_json source : json_file (apiCheckpointPath source) = true.
Proof. unfold apiCheckpointPath. rewrite <- !append_assoc. apply HasSuffix_of_app. Qed.

Lemma api_checkpoint_reads_back c : 0 <= time_Year (ac_UpdatedAt c) <= 9999 ->
  exists c', decode_api_checkpoint (json_print (api_checkpoint_json c)) = Some c' /\ ac_Cursor c' = clean (ac_Cursor c).
Proof.
  intros Y. assert (S : forall s, string_forallb plain_char s = true -> scans s) by apply scans_plain.
  unfold decode_api_checkpoint. rewrite (decode_first_parse _ (api_checkpoint_json c)).
  2: { apply json_round_trip; [|vm_compute; congruence]. unfold api_checkpoint_json. cbn.
       split_and!; try (by apply S); try (by apply json_text_scans); [apply S, RFC3339_plain|done]. }
  cbn [mbind option_bind]. replace (known_fields api_checkpoint_names (api_checkpoint_json c)) with true by (vm_compute; reflexivity).
  unfold decode_struct, api_checkpoint_json. set (z := {| ac_SourceID := ""; ac_URL := ""; ac_Cursor := ""; ac_UpdatedAt := zero_time |}).
  rewrite (decode_field _ _ "source_id" _ _ _ (z {{ ac_SourceID := clean (ac_SourceID c) }})); [|by vm_compute|reflexivity].
  set (z1 := z {{ ac_SourceID := _ }}). rewrite (decode_field _ _ "url" _ _ _ (z1 {{ ac_URL := clean (ac_URL c) }})); [|by vm_compute|reflexivity].
  set (z2 := z1 {{ ac_URL := _ }}). rewrite (decode_field _ _ "cursor" _ _ _ (z2 {{ ac_Cursor := clean (ac_Cursor c) }})); [|by vm_compute|reflexivity].
  set (z3 := z2 {{ ac_Cursor := _ }}).
  rewrite (decode_field _ _ "updated_at" _ _ _ (z3 {{ ac_UpdatedAt := ac_UpdatedAt c }})); [|by vm_compute|].
  2: { change (set_api_checkpoint "updated_at" (JString ?s) ?x) with (t ← ParseRFC3339 s; Some (x {{ ac_UpdatedAt := t }})). by rewrite RFC3339_round_trip. }
  eexists. split; [reflexivity|]. done.
Qed.

Definition next_cursor (cursor : string) (page : apiPage) : string := if ap_nextCursor page != "" then ap_nextCursor page else cursor.
Definition cursor_after (cursor : string) (pages : list apiPage) : string := fold_left next_cursor pages cursor.

(** Each page was answered at the cursor after the ones before it. *)
Fixpoint fetched (config : APIPollConfig) (source : APISource) (cursor : string) (pages : list apiPage) : Prop :=
  match pages with
  | [] => True
  | page :: pages => (exists w1 w2, fetchPage config source cursor w1 = (Ok page, w2)) /\ fetched config source (next_cursor cursor page) pages
  end.

(** Every event of the pages is queued or delivered. *)
Fixpoint pages_secured (source : APISource) (cursor : string) (pages : list apiPage) (w : World Host) : Prop :=
  match pages with
  | [] => True
  | page :: pages => (forall id, id ∈ page_ids source cursor 0 (ap_events page) -> id_secured id w) /\
      pages_secured source (next_cursor cursor page) pages w
  end.

(** The cursor in memory and the one on disk are at the ends of some pages. *)
Definition cursors_moved (source : APISource) (cursor : string) (pages : list apiPage) (w w' : World Host) : Prop :=
  (exists k, api_cursor source w' = cursor_after cursor (take k pages)) /\
  (disk_cursor source w' = disk_cursor source w \/ exists k, disk_cursor source w' = Some (clean (cursor_after cursor (take k pages)))).

Lemma cursors_stay source cursor pages w w' : api_cursor source w = cursor -> cursors_same source w w' -> cursors_moved source cursor pages w w'.
Proof. intros C [A D]. split; [exists O; change (cursor_after cursor (take 0 pages)) with cursor; congruence|by left]. Qed.

Lemma commitAPICheckpoint_cases source cursor w r w' : commitAPICheckpoint source cursor w = (r, w') ->
  api_cursor source w' = api_cursor source w /\
  (disk_cursor source w' = disk_cursor source w \/ disk_cursor source w' = Some (clean cursor)).
Proof.
  unfold commitAPICheckpoint. intros E. apply bind_cases in E as [(now & w1 & [= <- <-] & E)|[_ (r1 & [= <- _] & [=])]].
  set (w1 := mkWorld _ _) in E. change (api_cursor source w) with (api_cursor source w1). change (disk_cursor source w) with (disk_cursor source w1).
  set (now := rt_clock _ _) in E. clearbody now w1.
  apply bind_cases in E as [(body & w2 & B & E)|[_ (r1 & B & _)]]; unfold lift in B; destruct (_ || _) eqn:Y in B;
    [congruence| |split; [congruence|left; congruence]..].
  rewrite orb_false_iff, !Z.ltb_ge in Y. assert (w2 = w1) as -> by congruence.
  set (c := {| ac_SourceID := _ |}) in B. assert (Eb : body = json_print (api_checkpoint_json c)) by congruence. clear B.
  apply commit_state_file in E as [A F]; [|apply apiCheckpointPath_json]. split.
  - unfold api_cursor. assert (T := ap_sources _ _ _ A). by injection T as _ ->.
  - destruct (api_checkpoint_reads_back c Y) as (c' & D & Cu). unfold disk_cursor. destruct F as [F|[_ F]]; rewrite F; [right|by left].
    rewrite Eb, D. cbn. by rewrite Cu.
Qed.

Lemma advance_cursor_cases source page w r w' : advance_cursor source (api_cursor source w) (ap_nextCursor page) w = (r, w') ->
  (disk_cursor source w' = disk_cursor source w \/ disk_cursor source w' = Some (clean (next_cursor (api_cursor source w) page))) /\
  match r with
  | Ok c => c = next_cursor (api_cursor source w) page /\ api_cursor source w' = c
  | _ => api_cursor source w' = api_cursor source w
  end.
Proof.
  unfold advance_cursor, next_cursor. destruct (ap_nextCursor page != "") eqn:N; cbn [andb].
  2: { intros [= <- <-]. split; [by left|done]. }
  destruct (ap_nextCursor page != api_cursor source w) eqn:Ne.
  - intros E. apply bind_cases in E as [([] & w1 & E1 & E)|[F (r1 & E1 & F1)]]; apply commitAPICheckpoint_cases in E1 as [A D].
    + injection E as <- <-. split; [exact D|]. split; [done|]. unfold api_cursor, put_cursor, change_host. cbn. by rewrite lookup_insert_eq.
    + split; [exact D|]. by destruct r.
  - apply negb_false_iff, bool_decide_eq_true in Ne. intros [= <- <-]. split; [by left|]. by rewrite Ne.
Qed.

Lemma poll_pages_cases n config source w r w' : queue_wf w -> poll_pages n config source (api_cursor source w) w = (r, w') ->
  exists pages, fetched config source (api_cursor source w) pages /\ pages_secured source (api_cursor source w) pages w' /\
    cursors_moved source (api_cursor source w) pages w w' /\
    (is_ok r = true -> api_cursor source w' = cursor_after (api_cursor source w) pages).
Proof.
  revert w. induction n as [|n IH]; intros w W E.
  { injection E as <- <-. exists []. split_and!; [done..| |done]. by apply cursors_stay. }
  set (cursor := api_cursor source w) in *. assert (Cw : api_cursor source w = cursor) by done. clearbody cursor. cbn [poll_pages] in E.
  assert (Stop : cursors_same source w w' -> is_ok r = false -> exists pages, fetched config source cursor pages /\ pages_secured source cursor pages w' /\
    cursors_moved source cursor pages w w' /\ (is_ok r = true -> api_cursor source w' = cursor_after cursor pages))
    by (intros S F; exists []; split_and!; [done..|by apply cursors_stay|congruence]).
  apply bind_cases in E as [(page & w1 & E1 & E)|[F (r1 & E1 & _)]]; assert (S1 := run_evolves _ _ _ _ _ (fetchPage_asking config source cursor) E1);
    assert (C1 := asking_cursors source _ _ S1); [|by apply Stop].
  assert (W1 := proj1 (proj1 S1 W)). destruct (_ && (_ || _)); [injection E as <- <-; by apply Stop|].
  apply bind_cases in E as [([] & w2 & E2 & E)|[F (r1 & E2 & _)]];
    assert (C2 := run_evolves _ _ _ _ _ (queue_page_cursors config source cursor (ap_nextCursor page) 0 (ap_events page)) E2);
    [|apply Stop; [by etransitivity|done]].
  assert (W2 := proj1 (run_evolves _ _ _ _ _ (queue_page_keeps config source cursor (ap_nextCursor page) 0 (ap_events page)) E2 W1)).
  assert (Sec := queue_page_secured _ _ _ _ _ _ _ _ W1 E2).
  assert (Cw2 : api_cursor source w2 = cursor) by (destruct C1, C2; congruence).
  assert (D2 : disk_cursor source w2 = disk_cursor source w) by (destruct C1, C2; congruence).
  rewrite <- Cw2 in E at 1. assert (Fp : exists w1 w2, fetchPage config source cursor w1 = (Ok page, w2)) by eauto.
  apply bind_cases in E as [(c3 & w3 & E3 & E)|[F (r3 & E3 & F3)]];
    assert (K3 := run_evolves _ _ _ _ _ (advance_cursor_keeps source _ (ap_nextCursor page)) E3);
    apply advance_cursor_cases in E3 as [D3 R3]; rewrite Cw2, D2 in *.
  2: { exists [page]. split_and!; [by split|split; [intros id I; by eapply id_secured_keeps; [exact W2|exact K3|apply Sec]|done]|..].
       - split; [exists O; destruct r3; [done|exact R3..]|]. destruct D3 as [D3|D3]; [by left|right]. by exists 1%nat.
       - congruence. }
  destruct R3 as [-> Cw3]. assert (W3 := proj1 (K3 W2)). set (c3 := next_cursor cursor page) in *.
  assert (One : cursors_same source w3 w' -> (forall id, id_secured id w3 -> id_secured id w') ->
    exists pages, fetched config source cursor pages /\ pages_secured source cursor pages w' /\ cursors_moved source cursor pages w w' /\
      (is_ok r = true -> api_cursor source w' = cursor_after cursor pages)).
  { intros [A4 D4] K4. exists [page]. split_and!; [by split|split; [intros id I; apply K4; by eapply id_secured_keeps; [exact W2|exact K3|apply Sec]|done]|..].
    - split; [exists 1%nat; change (cursor_after cursor (take 1 [page])) with c3; congruence|]. rewrite D4. destruct D3 as [D3|D3]; [by left|right]. by exists 1%nat.
    - intros _. change (cursor_after cursor [page]) with c3. congruence. }
  destruct (negb _); [injection E as _ <-; by apply One|].
  apply bind_cases in E as [(st & w4 & [= _ <-] & E)|[_ (r4 & [= <- _] & [=])]].
  destruct (_ || _ && _); [injection E as _ <-; by apply One|].
  assert (K4 := run_evolves _ _ _ _ _ (poll_pages_keeps n config source c3) E). rewrite <- Cw3 in E.
  apply (IH w3 W3) in E as (pages & Fe & Se & ((k & M) & D4) & Co). rewrite Cw3 in *. exists (page :: pages). split_and!; [by split| | |exact Co].
  - split; [|exact Se]. intros id I. eapply id_secured_keeps; [exact W3|exact K4|]. by eapply id_secured_keeps; [exact W2|exact K3|apply Sec].
  - split; [by exists (S k)|]. destruct D4 as [D4|[k4 D4]]; [rewrite D4|right; by exists (S k4)].
    destruct D3 as [D3|D3]; [by left|right]. by exists 1%nat.
Qed.

End Requests.
