(* ===== verification/CollectorProps.v ===== *)
(** * What a collector promises

    Theorems about the listeners and pollers of the collector over the queue
    of one host, and the runs they are tried on. *)

From S2P Require Import Prelude GoLang GoFormat GoUtf8 Json GoTime Core AgentEvent HostFiles DiskQueue Forwarding JournalSource Syslog FileTail HttpReceiver ApiPoll QueueFacts.
From S2P Require Import Delivery QueueOrder StoreForward StoreForwardProps CollectorFacts.

Section Sources.
Context `{Gateway} `{Journalctl} `{PayloadTime} `{LogFiles} `{ApiServer}.

Lemma secured_later e calls w : queue_wf w -> Forall call_ok calls -> secured e w -> secured e (run_host calls w).
Proof. intros W Hc. by apply (run_host_keeps calls w Hc). Qed.

Lemma line_secured_later source line calls w : queue_wf w -> Forall call_ok calls -> line_secured source line w ->
  line_secured source line (run_host calls w).
Proof. intros W Hc [B|(e & S & R)]; [by left|right]. exists e. split; [by apply secured_later|done]. Qed.

(** ** Log files *)

(** A file the tailer has started on, or starts at its first byte. *)
Definition tail_ready (source : FileSource) (w : World Host) : Prop :=
  match ho_tails (w_repo w) !! fs_Path source with
  | Some c => fc_Path c = fs_Path source /\ 0 <= fc_Offset c < 2 ^ 62
  | None => fs_StartAtEnd source = false
  end.

Definition logs_small : Prop := forall rt path content, lg_content rt path = Ok content -> string_len content <= 2 ^ 62.

Lemma resume_start c size fingerprint :
  fc_Path (resume c size fingerprint) = fc_Path c /\
  (fc_Offset (resume c size fingerprint) = fc_Offset c \/ fc_Offset (resume c size fingerprint) = 0).
Proof. unfold resume. destruct (_ || _); destruct (_ && _); split; auto. Qed.

Lemma string_drop_len n s : string_len (string_drop n s) <= string_len s.
Proof. unfold string_len. revert s. induction n as [|n IH]; intros [|c s]; cbn; [lia..|]. specialize (IH s). lia. Qed.

(** What is asked of other programs leaves the host as it is. *)
Lemma still_query {A} (q : Runtime -> outcome A) : evolves still (syscall (fun w : World Host => (q (w_rt w), w))).
Proof. frame; by intros w. Qed.

Lemma query_Ok {A} (q : Runtime -> outcome A) (w : World Host) a w' : syscall (fun w => (q (w_rt w), w)) w = (Ok a, w') -> exists rt, q rt = Ok a.
Proof. unfold syscall. destruct (ho_fault _ _); [|done..]. intros [= E _]. by eexists. Qed.

(** C12. A poll of a log file, however it ends, has read some first complete
    lines of the content from the offset it started at.  Every one of them that
    is not blank is queued or delivered, now and after any further calls,
    crashes and restarts; the offset in memory and the one on disk are the old
    ones or exactly the end of these lines.  A poll that ends without an error
    reports how many it queued, has left no complete line before its limit, and
    both offsets are at the end of what it read. *)
Theorem tail_offset_follows_queue config source w r w' : queue_wf w -> logs_small -> tail_ready source w ->
  pollSource config source w = (r, w') ->
  (is_ok r = false /\ offsets_same (fs_Path source) w w') \/
  exists start content lines rest,
    (start = 0 \/ tail_offset (fs_Path source) w = Some start) /\
    (exists rt, lg_content rt (fs_Path source) = Ok content) /\
    string_drop (Z.to_nat start) content = concat_lines lines rest /\ Forall is_line lines /\
    (forall line calls, line ∈ lines -> Forall call_ok calls -> line_secured source line (run_host calls w')) /\
    offsets_moved (fs_Path source) (start + lines_len lines) w w' /\
    poll_done (Z.to_nat (ft_MaximumLinesPerPoll config)) (fs_Path source) lines rest (start + lines_len lines) 0 false r w'.
Proof.
  intros W Small Ready E. assert (K := run_evolves _ _ _ _ _ (pollSource_keeps config source) E). unfold pollSource in E.
  apply bind_cases in E as [(info & w1 & E1 & E)|[F (r1 & E1 & _)]]; assert (S1 := run_evolves _ _ _ _ _ (still_query (fun rt => lg_lstat rt (fs_Path source))) E1); clear E1;
    [|left; split; [done|by apply still_offsets]].
  destruct (negb (fi_Regular info)); [injection E as <- <-; left; split; [done|by apply still_offsets]|].
  apply bind_cases in E as [(content & w2 & E2 & E)|[F (r2 & E2 & _)]]; assert (S2 := run_evolves _ _ _ _ _ (still_query (fun rt => lg_content rt (fs_Path source))) E2);
    assert (S := transitivity S1 S2); clear S1 S2; [apply (query_Ok (fun rt => lg_content rt (fs_Path source))) in E2|left; split; [done|by apply still_offsets]].
  apply bind_cases in E as [(fingerprint & w3 & [= _ <-] & E)|[F (r3 & [= _ <-] & _)]]; [|left; split; [done|by apply still_offsets]].
  apply bind_cases in E as [(found & w3 & [= <- <-] & E)|[F (r3 & [= <- _] & [=])]]. 
  assert (T := st_sources _ _ S). injection T as T _. rewrite T in E. clear T. assert (W2 := proj1 (keeps_still _ _ S W)).
  right. unfold tail_ready in Ready. set (fresh := {| fc_Path := fs_Path source; fc_Offset := 0; fc_Fingerprint := ""; fc_UpdatedAt := zero_time |}) in E.
  set (c0 := default fresh (ho_tails (w_repo w) !! fs_Path source)) in E.
  assert (J : (let checkpoint := resume c0 (fi_Size info) fingerprint in
      tail_lines (Z.to_nat (ft_MaximumLinesPerPoll config)) config source fingerprint
        (string_drop (Z.to_nat (fc_Offset checkpoint)) content) checkpoint 0 false) w2 = (r, w') /\
    fc_Path c0 = fs_Path source /\ 0 <= fc_Offset c0 < 2 ^ 62 /\ (fc_Offset c0 = 0 \/ tail_offset (fs_Path source) w = Some (fc_Offset c0))).
  { unfold c0, tail_offset. destruct (ho_tails (w_repo w) !! fs_Path source) as [c|]; [destruct Ready as [P O]|]; cbn [default].
    - split_and!; [done|done|apply O|apply O|by right].
    - rewrite Ready in E. split_and!; [done|done|done|done|by left]. }
  clear E. destruct J as (E & P & O & St). cbv zeta in E. destruct (resume_start c0 (fi_Size info) fingerprint) as [Rp Ro].
  set (c := resume _ _ _) in *. clearbody c. assert (Len := string_drop_len (Z.to_nat (fc_Offset c)) content).
  destruct E2 as [rt E2]. assert (Small1 := Small _ _ _ E2).
  apply tail_lines_cases in E as (lines & rest & Eq & Ils & Sec & M & D); [|done|congruence|lia|unfold max_int, two63 in *; lia].
  exists (fc_Offset c), content, lines, rest. split_and!; [|by exists rt|done|done| | |done].
  - destruct Ro as [->| ->]; [|by left]. destruct St as [->|St]; [by left|by right].
  - intros line calls I Hc. apply line_secured_later; [by apply K|done|by apply Sec].
  - eapply offsets_moved_from; [by apply still_offsets|done].
Qed.
(** ** Requests *)

Lemma payload_secured_later p calls w : queue_wf w -> Forall call_ok calls -> payload_secured p w -> payload_secured p (run_host calls w).
Proof. intros W Hc (e & S & R). exists e. split; [by apply secured_later|done]. Qed.

(** C14. An answer of 202 lists as many events as the request had payloads, and
    each payload is in an event that is queued or delivered, from the answer
    on: whatever runs, fails or crashes later. *)
Theorem http_202_means_persisted config request w response w' : queue_wf w ->
  receive config request w = (Ok response, w') -> rp_status response = 202 ->
  exists batch contentType, payloads config request = Ok (batch, contentType) /\ length (rp_accepted response) = length batch /\
    forall payload calls, payload ∈ batch -> Forall call_ok calls -> payload_secured payload (run_host calls w').
Proof.
  intros W E S. assert (K := run_evolves _ _ _ _ _ (receive_keeps config request) E).
  destruct (receive_202 _ _ _ _ _ W E S) as (batch & ct & P & L & Sec). exists batch, ct. split_and!; [done..|].
  intros p calls I Hc. apply payload_secured_later; [by apply K|done|by apply Sec].
Qed.

(** ** Pages of an API *)

Lemma pages_secured_later source cursor pages calls w : queue_wf w -> Forall call_ok calls -> pages_secured source cursor pages w ->
  pages_secured source cursor pages (run_host calls w).
Proof.
  intros W Hc. revert cursor. induction pages as [|page pages IH]; intros cursor; [done|]. intros [S R]. split; [|by apply IH].
  intros id I. eapply id_secured_keeps; [exact W|by apply run_host_keeps|by apply S].
Qed.

(** C13. A poll of an API, however it ends, has fetched some pages, each at the
    cursor after the ones before it; every event of theirs is queued or
    delivered from then on, and the cursors in memory and on disk are old or
    stand after some of these pages, in memory after all of them if the poll
    ended without an error. *)
Theorem api_cursor_follows_queue config source w r w' : queue_wf w -> poll_api config source w = (r, w') ->
  exists pages, fetched config source (api_cursor source w) pages /\
    (forall calls, Forall call_ok calls -> pages_secured source (api_cursor source w) pages (run_host calls w')) /\
    cursors_moved source (api_cursor source w) pages w w' /\
    (is_ok r = true -> api_cursor source w' = cursor_after (api_cursor source w) pages).
Proof.
  intros W E. unfold poll_api in E. apply bind_cases in E as [(c & w1 & [= <- <-] & E)|[_ (r1 & [= <- _] & [=])]].
  assert (K := run_evolves _ _ _ _ _ (poll_pages_keeps _ _ _ _) E).
  apply poll_pages_cases in E as (pages & Fe & Se & M & Co); [|done]. exists pages. split_and!; [done| |done..].
  intros calls Hc. apply pages_secured_later; [by apply K|done|done].
Qed.

(** ** Waiting for an API *)

Lemma double_delay_bounds n maximum delay : 0 < delay -> 0 < maximum ->
  delay <= double_delay n maximum delay <= Z.max delay maximum /\
  (maximum / 2 <= delay * 2 ^ Z.of_nat n -> maximum / 2 <= double_delay n maximum delay) /\
  double_delay n maximum delay <= double_delay (S n) maximum delay.
Proof.
  revert delay. induction n as [|n IH]; intros delay D M.
  { change (double_delay 0 maximum delay) with delay. cbn [double_delay]. rewrite Z.mul_1_r. split_and!; [lia..|done|]. destruct (_ <? _); lia. }
  assert (Half := Z_div_mod_eq_full maximum 2). assert (Low := Z.mod_pos_bound maximum 2 ltac:(lia)).
  change (double_delay (S (S n)) maximum delay) with (if delay <? maximum / 2 then double_delay (S n) maximum (delay * 2) else delay).
  cbn [double_delay]. destruct (delay <? maximum / 2) eqn:L; [|apply Z.ltb_ge in L; split_and!; [lia..|done|lia]].
  apply Z.ltb_lt in L. destruct (IH (delay * 2) ltac:(lia) M) as ([A B] & C & E). split_and!; [lia..| |exact E].
  intros G. apply C. rewrite Nat2Z.inj_succ, Z.pow_succ_r in G by lia. lia.
Qed.

Lemma double_delay_mono n m maximum delay : 0 < delay -> 0 < maximum -> (n <= m)%nat ->
  double_delay n maximum delay <= double_delay m maximum delay.
Proof. intros D M. induction 1 as [|m L IH]; [lia|]. destruct (double_delay_bounds m maximum delay D M) as (_ & _ & E). lia. Qed.

(** After a failed poll of an API the next one waits no longer than the
    maximum, no less than the poll interval or what the server asks for where
    the maximum allows it, at least half of the maximum once the doubling has
    reached it, and never less after more failures. *)
Theorem retry_delay_bounds config failures more err : 0 < pc_PollInterval config -> 0 < pc_MaximumBackoff config ->
  1 <= failures <= more ->
  let maximum := pc_MaximumBackoff config in
  let delay := retryDelay config failures err in
  Z.min (pc_PollInterval config) maximum <= delay <= maximum /\
  Z.min (default 0 (retry_after err)) maximum <= delay /\
  (maximum / 2 <= pc_PollInterval config * 2 ^ (failures - 1) -> maximum / 2 <= delay) /\
  delay <= retryDelay config more err.
Proof.
  intros P M F. cbv zeta. unfold retryDelay. set (maximum := pc_MaximumBackoff config) in *. set (poll := pc_PollInterval config) in *.
  destruct (double_delay_bounds (Z.to_nat (failures - 1)) maximum poll P M) as ([A B] & C & _).
  assert (E := double_delay_mono (Z.to_nat (failures - 1)) (Z.to_nat (more - 1)) maximum poll P M ltac:(lia)).
  rewrite Z2Nat.id in C by lia. assert (Half := Z.div_le_upper_bound maximum 2 maximum ltac:(lia) ltac:(lia)).
  set (d1 := double_delay _ maximum poll) in A, B, C, E |- *. set (d2 := double_delay _ maximum poll) in E |- *. clearbody d1 d2.
  destruct (Z.ltb_spec maximum d1), (Z.ltb_spec maximum d2); destruct (retry_after err) as [asked|]; unfold from_option, id;
    repeat match goal with |- context [?a <? ?b] => destruct (Z.ltb_spec a b) end; split_and!; lia.
Qed.

End Sources.

(** * A collector at work *)

#[local] Existing Instance reading_gateway.
#[local] Existing Instance two_entries.
#[local] Existing Instance receipt_time.
#[local] Existing Instance one_log.
#[local] Existing Instance two_pages.

Definition app_log : FileSource := {| fs_Path := "/var/log/app.log"; fs_SourceID := "app"; fs_Format := ""; fs_StartAtEnd := false |}.
Definition tail_config : FileTailConfig := {| ft_Sources := [app_log]; ft_MaximumEventBytes := 1024; ft_MaximumLinesPerPoll := 10 |}.

Definition sketch_tail (w : World Host) : list (option string) * option Z * option Z :=
  (List.map (fun f => it ← item_of f; ev_Payload (qi_Event it)) (queue_list (ho_queue (w_repo w))),
   tail_offset (fs_Path app_log) w, disk_offset (fs_Path app_log) w).

(** The blank line is passed over, the line without its end is left. *)
Example tailed_sketch : sketch_tail (pollSource tail_config app_log (a_host healthy)).2 = ([Some "first"; Some "second"], Some 16, Some 16).
Proof. vm_compute. reflexivity. Qed.

(** A system call for the second event fails: the offset is behind the blank line. *)
Example half_tailed_sketch : sketch_tail (pollSource tail_config app_log (a_host (fun k => if decide (k = 15%nat) then Fails else Works))).2 =
  ([Some "first"], Some 9, Some 9).
Proof. vm_compute. reflexivity. Qed.

Definition push_config : HTTPConfig := {| hc_AccessToken := "secret"; hc_MaximumEventBytes := 1024; hc_MaximumRequest := 4096; hc_MaximumBatch := 10 |}.

Definition push_request (body : string) : HTTPRequest := {|
  rq_RemoteAddr := "192.0.2.7:40000"; rq_Peer := None; rq_Authorization := "Bearer secret"; rq_SourceID := "fw-1"; rq_EventFormat := "";
  rq_EventID := ""; rq_ContentType := "application/json"; rq_Body := body; rq_read_error := None |}.

Definition two_payloads : HTTPRequest := push_request "[{}, [1]]".

Example pushed_sketch :
  let response body := match (receive push_config (push_request body) (a_host healthy)).1 with
    | Ok r => (rp_status r, rp_problem r, length (rp_accepted r)) | _ => (0, "", O) end in
  List.map response ["[{}, {}]"; "[{}, [1]]"; "[{}"; ""] =
  [(202, "", 2%nat); (400, "invalid_json_event", O); (400, "invalid_json_batch", O); (400, "invalid_batch_size", O)].
Proof. vm_compute. reflexivity. Qed.

Definition an_api : APISource := {|
  as_SourceID := "cloud"; as_URL := "https://api.example/events"; as_Format := "cloud-json"; as_EventsPath := "events"; as_EventIDPath := "id";
  as_CursorPath := "next_cursor"; as_HasMorePath := "has_more"; as_CursorQueryParameter := "cursor"; as_PageSizeQueryParameter := "limit";
  as_PageSize := 100; as_IntervalSeconds := 0; as_AuthType := "none"; as_SecretEnv := ""; as_APIKeyHeader := ""; as_CAFile := "";
  as_CertificateFile := ""; as_PrivateKeyFile := "" |}.

Definition poll_config : APIPollConfig := {|
  pc_PollInterval := 30 * Second; pc_MaximumBackoff := 300 * Second; pc_MaximumResponse := 4096; pc_MaximumEventBytes := 1024;
  pc_MaximumEvents := 10; pc_MaximumPages := 5 |}.

Definition sketch_api (w : World Host) : nat * string * option string :=
  (length (queue_list (ho_queue (w_repo w))), api_cursor an_api w, disk_cursor an_api w).

Example api_sketch : sketch_api (poll_api poll_config an_api (a_host healthy)).2 = (2%nat, "c2", Some "c2").
Proof. vm_compute. reflexivity. Qed.

(** ** The theorems at these runs *)

Lemma logs_are_small : logs_small.
Proof. intros rt path content [= <-]. vm_compute. congruence. Qed.

Lemma some_tail : exists r w', pollSource tail_config app_log (a_host (dies_at 15)) = (r, w').
Proof. destruct (pollSource _ _ _) as [r w']. eauto. Qed.

Lemma tail_offset_follows_queue_witness : let w := a_host (dies_at 15) in exists (r : outcome Z) w',
  (is_ok r = false /\ offsets_same (fs_Path app_log) w w') \/
  exists start content lines rest,
    (start = 0 \/ tail_offset (fs_Path app_log) w = Some start) /\
    (exists rt, lg_content rt (fs_Path app_log) = Ok content) /\
    string_drop (Z.to_nat start) content = concat_lines lines rest /\ Forall is_line lines /\
    (forall line calls, line ∈ lines -> Forall call_ok calls -> line_secured app_log line (run_host calls w')) /\
    offsets_moved (fs_Path app_log) (start + lines_len lines) w w' /\
    poll_done (Z.to_nat (ft_MaximumLinesPerPoll tail_config)) (fs_Path app_log) lines rest (start + lines_len lines) 0 false r w'.
Proof.
  destruct some_tail as (r & w' & E). exists r, w'.
  exact (tail_offset_follows_queue tail_config app_log (a_host (dies_at 15)) r w' (a_host_wf _) logs_are_small eq_refl E).
Defined.

Lemma some_push : exists response w', receive push_config (push_request "[{}, {}]") (a_host healthy) = (Ok response, w') /\ rp_status response = 202.
Proof.
  assert (F : match (receive push_config (push_request "[{}, {}]") (a_host healthy)).1 with Ok r => rp_status r = 202 | _ => False end)
    by (vm_compute; reflexivity).
  destruct (receive _ _ _) as [[r| |] w']; cbn in F; [|done..]. eauto.
Qed.

Lemma http_202_means_persisted_witness : exists response w' batch contentType,
  payloads push_config (push_request "[{}, {}]") = Ok (batch, contentType) /\ length (rp_accepted response) = length batch /\
  forall payload calls, payload ∈ batch -> Forall call_ok calls -> payload_secured payload (run_host calls w').
Proof.
  destruct some_push as (response & w' & E & S). exists response, w'.
  exact (http_202_means_persisted push_config (push_request "[{}, {}]") (a_host healthy) response w' (a_host_wf _) E S).
Defined.

Lemma some_api_poll : exists r w', poll_api poll_config an_api (a_host healthy) = (r, w').
Proof. destruct (poll_api _ _ _) as [r w']. eauto. Qed.

Lemma api_cursor_follows_queue_witness : let w := a_host healthy in exists (r : outcome unit) w' pages, fetched poll_config an_api (api_cursor an_api w) pages /\
    (forall calls, Forall call_ok calls -> pages_secured an_api (api_cursor an_api w) pages (run_host calls w')) /\
    cursors_moved an_api (api_cursor an_api w) pages w w' /\
    (is_ok r = true -> api_cursor an_api w' = cursor_after (api_cursor an_api w) pages).
Proof.
  destruct some_api_poll as (r & w' & E). exists r, w'.
  exact (api_cursor_follows_queue poll_config an_api (a_host healthy) r w' (a_host_wf _) E).
Defined.

Lemma retry_delay_bounds_witness : let maximum := pc_MaximumBackoff poll_config in let delay := retryDelay poll_config 3 EOF in
  Z.min (pc_PollInterval poll_config) maximum <= delay <= maximum /\
  Z.min (default 0 (retry_after EOF)) maximum <= delay /\
  (maximum / 2 <= pc_PollInterval poll_config * 2 ^ (3 - 1) -> maximum / 2 <= delay) /\
  delay <= retryDelay poll_config 7 EOF.
Proof. apply (retry_delay_bounds poll_config 3 7 EOF); [reflexivity|reflexivity|lia]. Defined.
