(* ===== verification/SourceHealth.v ===== *)
(** * The health of telemetry sources (agent/sourcehealth.go)

    The tracker keeps for each source what its last reads gave, spaces the
    attempts of a failing source and holds back repeated log lines.  Its lock
    makes every call atomic.  A delay is a whole number of seconds, so that
    [BackoffSeconds] is a [Z] here. *)

From S2P Require Import Prelude GoLang GoFormat.

Definition SourceStateStarting : string := "STARTING".
Definition SourceStateHealthy : string := "HEALTHY".
Definition SourceStateDegraded : string := "DEGRADED".
Definition SourceStateUnsupported : string := "UNSUPPORTED".

Definition backoffSchedule : list Duration := [2 * Second; 5 * Second; 10 * Second; 30 * Second; 60 * Second].

Record SourceHealth : Type := {
  sh_Name : string;
  sh_Channel : string;
  sh_State : string;
  sh_LastSuccessAt : Time;
  sh_LastErrorAt : Time;
  sh_LastError : string;
  sh_ErrorCount : Z;
  sh_ConsecutiveErrors : Z;
  sh_EventsRead : Z;
  sh_Checkpoint : Z;
  sh_Quarantined : Z;
  sh_Encoding : string;
  sh_NextAttemptAt : Time;
  sh_BackoffSeconds : Z
}.
#[export] Instance eta_SourceHealth : Eta SourceHealth := fun r => {|
  sh_Name := sh_Name r; sh_Channel := sh_Channel r; sh_State := sh_State r; sh_LastSuccessAt := sh_LastSuccessAt r;
  sh_LastErrorAt := sh_LastErrorAt r; sh_LastError := sh_LastError r; sh_ErrorCount := sh_ErrorCount r;
  sh_ConsecutiveErrors := sh_ConsecutiveErrors r; sh_EventsRead := sh_EventsRead r; sh_Checkpoint := sh_Checkpoint r;
  sh_Quarantined := sh_Quarantined r; sh_Encoding := sh_Encoding r; sh_NextAttemptAt := sh_NextAttemptAt r;
  sh_BackoffSeconds := sh_BackoffSeconds r |}.

Record sourceEntry : Type := {
  se_health : SourceHealth;
  se_backoffIndex : Z;
  se_loggedAtLevel : Z;
  se_suppressed : Z
}.
#[export] Instance eta_sourceEntry : Eta sourceEntry := fun r => {|
  se_health := se_health r; se_backoffIndex := se_backoffIndex r; se_loggedAtLevel := se_loggedAtLevel r;
  se_suppressed := se_suppressed r |}.

Definition starting_entry (name channel : string) : sourceEntry := {|
  se_health := {| sh_Name := name; sh_Channel := channel; sh_State := SourceStateStarting; sh_LastSuccessAt := zero_time;
    sh_LastErrorAt := zero_time; sh_LastError := ""; sh_ErrorCount := 0; sh_ConsecutiveErrors := 0; sh_EventsRead := 0;
    sh_Checkpoint := 0; sh_Quarantined := 0; sh_Encoding := ""; sh_NextAttemptAt := zero_time; sh_BackoffSeconds := 0 |};
  se_backoffIndex := 0; se_loggedAtLevel := 0; se_suppressed := 0 |}.

Record SourceTracker : Type := {
  tr_entries : gmap string sourceEntry;
  tr_order : list string
}.

Definition NewSourceTracker : SourceTracker := {| tr_entries := ∅; tr_order := [] |}.

Definition wrap_uint64 (z : Z) : Z := z mod two64.

(** A source that is not there yet is put at the end of the order. *)
Definition add_source (name channel : string) (t : SourceTracker) : SourceTracker :=
  match tr_entries t !! name with
  | Some _ => t
  | None => {| tr_entries := <[name := starting_entry name channel]> (tr_entries t); tr_order := tr_order t ++ [name] |}
  end.

Definition Register (name channel : string) (t : SourceTracker) : SourceTracker := add_source name channel t.

Definition entry (name : string) (t : SourceTracker) : sourceEntry * SourceTracker :=
  let t := add_source name "" t in (default (starting_entry name "") (tr_entries t !! name), t).

Definition put_entry (name : string) (e : sourceEntry) (t : SourceTracker) : SourceTracker :=
  {| tr_entries := <[name := e]> (tr_entries t); tr_order := tr_order t |}.

Definition ShouldAttempt (name : string) (now : Time) (t : SourceTracker) : bool * SourceTracker :=
  let '(item, t) := entry name t in
  if IsZero (sh_NextAttemptAt (se_health item)) then (true, t)
  else (negb (Before now (sh_NextAttemptAt (se_health item))), t).

Definition RecordSuccess (name : string) (now : Time) (eventsRead checkpoint quarantined : Z) (encoding : string) (t : SourceTracker)
    : SourceTracker :=
  let '(item, t) := entry name t in
  put_entry name (item {{
    se_backoffIndex := 0; se_loggedAtLevel := 0; se_suppressed := 0;
    se_health ::= fun h => h {{
      sh_State := SourceStateHealthy; sh_LastSuccessAt := now; sh_ConsecutiveErrors := 0; sh_LastError := "";
      sh_NextAttemptAt := zero_time; sh_BackoffSeconds := 0; sh_EventsRead ::= fun n => wrap_uint64 (n + wrap_uint64 eventsRead);
      sh_Checkpoint := checkpoint; sh_Quarantined := quarantined; sh_Encoding := encoding }} }}) t.

Definition truncateError (message : string) : string :=
  if string_len message <=? 512 then message else string_take 512 message.

(** [(shouldLog, suppressed, retryAt)]; [err] is the text of the error. *)
Definition RecordFailure (name : string) (now : Time) (err : option string) (unsupported : bool) (t : SourceTracker)
    : bool * Z * Time * SourceTracker :=
  let '(item, t) := entry name t in
  let level := if Z.of_nat (length backoffSchedule) <=? se_backoffIndex item
               then Z.of_nat (length backoffSchedule) - 1 else se_backoffIndex item in
  let delay := nth (Z.to_nat level) backoffSchedule 0 in
  let retryAt := time_Add now delay in
  let item := item {{
    se_health ::= fun h => h {{
      sh_ErrorCount ::= fun n => wrap_uint64 (n + 1);
      sh_ConsecutiveErrors ::= fun n => wrap64 (n + 1);
      sh_LastErrorAt := now;
      sh_LastError ::= fun old => match err with Some e => truncateError e | None => old end;
      sh_State := if unsupported then SourceStateUnsupported else SourceStateDegraded;
      sh_NextAttemptAt := retryAt;
      sh_BackoffSeconds := delay / Second }};
    se_backoffIndex ::= fun n => if n <? Z.of_nat (length backoffSchedule) - 1 then n + 1 else n }} in
  if se_loggedAtLevel item <=? level
  then (true, se_suppressed item, retryAt, put_entry name (item {{ se_loggedAtLevel := level + 1; se_suppressed := 0 }}) t)
  else (false, 0, retryAt, put_entry name (item {{ se_suppressed ::= fun n => wrap_uint64 (n + 1) }}) t).

Definition health_of (t : SourceTracker) (name : string) : SourceHealth :=
  se_health (default (starting_entry name "") (tr_entries t !! name)).

(** Registered names are distinct: a stable sort and any other agree. *)
Definition Snapshot (t : SourceTracker) : list SourceHealth := List.map (health_of t) (sort_Strings (tr_order t)).

Definition has_state (state : string) (t : SourceTracker) (name : string) : bool := sh_State (health_of t name) == state.
Definition count_state (state : string) (t : SourceTracker) : Z := Z.of_nat (length (List.filter (has_state state t) (tr_order t))).

Definition Overall (t : SourceTracker) : string :=
  if bool_decide (tr_order t = []) then SourceStateStarting else
  let healthy := count_state SourceStateHealthy t in
  let degraded := count_state SourceStateDegraded t in
  let supported := healthy + degraded + count_state SourceStateStarting t in
  if supported =? 0 then SourceStateUnsupported
  else if 0 <? degraded then SourceStateDegraded
  else if healthy =? 0 then SourceStateStarting
  else SourceStateHealthy.

Definition DegradedSources (t : SourceTracker) : list string :=
  sort_Strings (List.filter (has_state SourceStateDegraded t) (tr_order t)).

(** ** The tracker as a count of failures

    All that the tracker does with a source depends on how often it has failed
    since its last success, and when it failed last. *)

Inductive health_call : Type :=
  | CallRegister (name channel : string)
  | CallShouldAttempt (name : string) (now : Time)
  | CallSuccess (name : string) (now : Time) (eventsRead checkpoint quarantined : Z) (encoding : string)
  | CallFailure (name : string) (now : Time) (err : option string) (unsupported : bool).

Definition health_step (t : SourceTracker) (c : health_call) : SourceTracker :=
  match c with
  | CallRegister name channel => Register name channel t
  | CallShouldAttempt name now => (ShouldAttempt name now t).2
  | CallSuccess name now n c q e => RecordSuccess name now n c q e t
  | CallFailure name now err unsupported => (RecordFailure name now err unsupported t).2
  end.

Definition track (calls : list health_call) : SourceTracker := fold_left health_step calls NewSourceTracker.

(** The failures in a row, and the time of the last. *)
Definition streak_step (name : string) (s : Z * Time) (c : health_call) : Z * Time :=
  match c with
  | CallSuccess m _ _ _ _ _ => if m == name then (0, s.2) else s
  | CallFailure m now _ _ => if m == name then (s.1 + 1, now) else s
  | _ => s
  end.
Definition streak (calls : list health_call) (name : string) : Z * Time := fold_left (streak_step name) calls (0, zero_time).

(** The delay after [n] failures in a row. *)
Definition backoff (n : Z) : Duration := nth (Z.to_nat (Z.min (n - 1) 4)) backoffSchedule 0.

Definition shows (s : Z * Time) (e : sourceEntry) : Prop :=
  0 <= s.1 /\ se_backoffIndex e = Z.min s.1 4 /\ se_loggedAtLevel e = Z.min s.1 5 /\ (s.1 <= 5 -> se_suppressed e = 0) /\
  sh_NextAttemptAt (se_health e) = if s.1 =? 0 then zero_time else time_Add s.2 (backoff s.1).

Definition entry_shows (s : Z * Time) (o : option sourceEntry) : Prop := match o with Some e => shows s e | None => s = (0, zero_time) end.

Lemma starting_shows name channel : shows (0, zero_time) (starting_entry name channel).
Proof. done. Qed.

Lemma shows_zero at1 at2 e : shows (0, at1) e -> shows (0, at2) e.
Proof. done. Qed.

Lemma add_source_shows s name name' channel t : entry_shows s (tr_entries t !! name) ->
  entry_shows s (tr_entries (add_source name' channel t) !! name).
Proof.
  unfold add_source. destruct (tr_entries t !! name') eqn:E; [done|]. cbn.
  destruct (decide (name = name')) as [->|N]; [|by rewrite lookup_insert_ne].
  rewrite E, lookup_insert_eq. cbn. intros ->. apply starting_shows.
Qed.

Lemma entry_lookup name t : let '(item, t') := entry name t in
  tr_entries t' !! name = Some item /\ t' = add_source name "" t.
Proof.
  unfold entry, add_source. destruct (tr_entries t !! name) as [e|] eqn:E; cbn; [by rewrite E|]. by rewrite lookup_insert_eq.
Qed.

Lemma entry_shown s name t : entry_shows s (tr_entries t !! name) -> shows s (entry name t).1.
Proof.
  intros H. assert (L := entry_lookup name t). destruct (entry name t) as [item t']. destruct L as [L ->]. cbn.
  assert (A := add_source_shows s name name "" t H). by rewrite L in A.
Qed.

(** What a failure does, [n] failures in a row before it. *)
Lemma RecordFailure_shown s name now err unsupported t : entry_shows s (tr_entries t !! name) ->
  exists t', RecordFailure name now err unsupported t = (s.1 <? 5, 0, time_Add now (backoff (s.1 + 1)), t') /\
    entry_shows (s.1 + 1, now) (tr_entries t' !! name) /\
    forall other, other <> name -> tr_entries t' !! other = tr_entries t !! other.
Proof.
  intros H. assert (S := entry_shown s name t H). assert (L := entry_lookup name t). unfold RecordFailure.
  destruct (entry name t) as [item t']. destruct L as [_ ->]. cbn [fst] in S. destruct s as [n at']. destruct S as (N & B & G & U & _). cbn [fst snd] in *.
  change (Z.of_nat (length backoffSchedule)) with 5. rewrite B. rewrite (proj2 (Z.leb_gt 5 (Z.min n 4))) by lia.
  assert (D : nth (Z.to_nat (Z.min n 4)) backoffSchedule 0 = backoff (n + 1)) by (unfold backoff; by replace (n + 1 - 1) with n by lia).
  rewrite D. assert (O : forall e other, other <> name -> tr_entries (put_entry name e (add_source name "" t)) !! other = tr_entries t !! other).
  { intros e other No. unfold put_entry. cbn. rewrite lookup_insert_ne by done. unfold add_source.
    destruct (tr_entries t !! name); [done|]. cbn. by rewrite lookup_insert_ne. }
  set (item' := item {{ se_health ::= _; se_backoffIndex ::= _ }}).
  change (se_loggedAtLevel item') with (se_loggedAtLevel item). change (se_suppressed item') with (se_suppressed item). rewrite G.
  assert (X : se_backoffIndex item' = Z.min (n + 1) 4) by (unfold item'; cbn; rewrite B; destruct (Z.ltb_spec (Z.min n 4) (5 - 1)); lia).
  assert (Y : sh_NextAttemptAt (se_health item') = time_Add now (backoff (n + 1))) by done.
  assert (G' : se_loggedAtLevel item' = Z.min n 5) by done. clearbody item'.
  destruct (Z.leb_spec (Z.min n 5) (Z.min n 4)) as [Le|Gt].
  - rewrite (proj2 (Z.ltb_lt n 5)) by lia. rewrite U by lia. eexists. split; [done|]. split; [|by apply O].
    unfold put_entry. cbn [tr_entries]. rewrite lookup_insert_eq. cbn. unfold shows. cbn. rewrite X, Y, (proj2 (Z.eqb_neq (n + 1) 0)) by lia.
    split_and!; [lia..|done].
  - rewrite (proj2 (Z.ltb_ge n 5)) by lia. eexists. split; [done|]. split; [|by apply O].
    unfold put_entry. cbn [tr_entries]. rewrite lookup_insert_eq. cbn. unfold shows. cbn. rewrite X, Y, G', (proj2 (Z.eqb_neq (n + 1) 0)) by lia.
    split_and!; [lia..|done].
Qed.

Lemma RecordSuccess_shown s name now n c q e t : entry_shows s (tr_entries t !! name) ->
  entry_shows (0, s.2) (tr_entries (RecordSuccess name now n c q e t) !! name) /\
  forall other, other <> name -> tr_entries (RecordSuccess name now n c q e t) !! other = tr_entries t !! other.
Proof.
  intros H. assert (L := entry_lookup name t). unfold RecordSuccess. destruct (entry name t) as [item t']. destruct L as [_ ->].
  unfold put_entry. cbn. split; [by rewrite lookup_insert_eq|]. intros other No. rewrite lookup_insert_ne by done. unfold add_source.
  destruct (tr_entries t !! name); [done|]. cbn. by rewrite lookup_insert_ne.
Qed.

Lemma health_step_shown name s c t : entry_shows s (tr_entries t !! name) ->
  entry_shows (streak_step name s c) (tr_entries (health_step t c) !! name).
Proof.
  intros H. destruct c as [m ch|m now|m now n c q e|m now err u]; cbn [health_step streak_step].
  - by apply add_source_shows.
  - unfold ShouldAttempt. assert (L := entry_lookup m t). destruct (entry m t) as [item t']. destruct L as [_ ->].
    destruct (IsZero _); by apply add_source_shows.
  - case_bool_decide as E; [subst m; by apply RecordSuccess_shown|].
    unfold RecordSuccess. assert (L := entry_lookup m t). destruct (entry m t) as [item t']. destruct L as [_ ->].
    unfold put_entry. cbn. rewrite lookup_insert_ne by done. by apply add_source_shows.
  - case_bool_decide as E.
    + subst m. destruct (RecordFailure_shown s name now err u t H) as (t' & -> & S & _). done.
    + assert (L := entry_lookup m t). unfold RecordFailure. destruct (entry m t) as [item t']. destruct L as [_ ->].
      destruct (_ <=? _); unfold put_entry; cbn; rewrite lookup_insert_ne by done; by apply add_source_shows.
Qed.

Lemma track_shown calls name : entry_shows (streak calls name) (tr_entries (track calls) !! name).
Proof.
  unfold track, streak. assert (J : forall t s, entry_shows s (tr_entries t !! name) ->
    entry_shows (fold_left (streak_step name) calls s) (tr_entries (fold_left health_step calls t) !! name)).
  { induction calls as [|c calls IH]; intros t s H; [done|]. by apply IH, health_step_shown. }
  by apply J.
Qed.

Lemma backoff_range n : 0 < n -> 2 * Second <= backoff n <= 60 * Second.
Proof.
  intros N. unfold backoff. assert (H : 0 <= Z.min (n - 1) 4 <= 4) by lia. revert H. generalize (Z.min (n - 1) 4). intros k H.
  assert (C : k = 0 \/ k = 1 \/ k = 2 \/ k = 3 \/ k = 4) by lia. destruct C as [->|[->|[->|[->| ->]]]]; by vm_compute.
Qed.

(** C20. After any calls, with [n] failures of a source in a row: it is due when
    the delay of the schedule after the last failure is over; the next failure
    puts it off by the next delay, of 2 to 60 seconds, is logged if it is one
    of the first five, and never reports a suppressed repeat. *)
Theorem backoff_follows_schedule calls name now err unsupported :
  let '(n, last) := streak calls name in
  let due := time_Add last (backoff n) in
  (ShouldAttempt name now (track calls)).1 = (n =? 0) || IsZero due || negb (Before now due) /\
  (exists t, RecordFailure name now err unsupported (track calls) = (n <? 5, 0, time_Add now (backoff (n + 1)), t)) /\
  2 * Second <= backoff (n + 1) <= 60 * Second.
Proof.
  assert (H := track_shown calls name). destruct (streak calls name) as [n last].
  destruct (RecordFailure_shown _ name now err unsupported _ H) as (t & E & _).
  assert (S := entry_shown _ _ _ H). destruct S as (N & _ & _ & _ & D). cbn [fst snd] in *. split; [|split; [by exists t|apply backoff_range; lia]].
  unfold ShouldAttempt. destruct (entry name (track calls)) as [item t']. cbn [fst] in D. rewrite D.
  destruct (n =? 0); [done|]. cbn [orb]. by destruct (IsZero _).
Qed.
