(* ===== verification/Ingestion.v ===== *)
(** * Ingestion: gateway, envelopes and processor (internal/ingest)

    A gateway puts what collectors send into an authenticated envelope and
    publishes it to a Kafka topic; a processor takes the envelopes from the
    topic, checks them, stores them, parses them and hands the events to the
    detection pipeline.  Kafka, the store of raw envelopes and the parser are
    interfaces: a call of them may work, be refused, fail after it took
    effect, or be the last of its process.  The topic is one partition. *)

From S2P Require Import Prelude GoLang GoFormat GoUtf8 Json GoTime Core MemoryStore TenantId AgentEvent HostFiles DiskQueue Forwarding JournalSource.

Definition FormatCanonicalJSON : string := "ocsf-json-v1".
Definition ErrInvalidEnvelope : error := New "invalid ingest envelope".
Definition ErrEnvelopeIntegrity : error := New "invalid envelope integrity".

(** ** Envelopes *)

Record RawEnvelope : Type := {
  rv_MessageID : string;
  rv_EventID : string;
  rv_TenantID : string;
  rv_CollectorID : string;
  rv_SourceID : string;
  rv_SourceAddress : string;
  rv_EventTimestamp : Time;
  rv_ReceivedAt : Time;
  rv_Format : string;
  rv_ContentType : string;
  rv_SchemaVersion : string;
  rv_RawHash : string;
  rv_Payload : string;
  rv_RawPayload : string;
  rv_Integrity : string
}.
#[export] Instance eta_RawEnvelope : Eta RawEnvelope := fun r => {|
  rv_MessageID := rv_MessageID r; rv_EventID := rv_EventID r; rv_TenantID := rv_TenantID r; rv_CollectorID := rv_CollectorID r;
  rv_SourceID := rv_SourceID r; rv_SourceAddress := rv_SourceAddress r; rv_EventTimestamp := rv_EventTimestamp r;
  rv_ReceivedAt := rv_ReceivedAt r; rv_Format := rv_Format r; rv_ContentType := rv_ContentType r;
  rv_SchemaVersion := rv_SchemaVersion r; rv_RawHash := rv_RawHash r; rv_Payload := rv_Payload r;
  rv_RawPayload := rv_RawPayload r; rv_Integrity := rv_Integrity r |}.
Definition zero_RawEnvelope : RawEnvelope := {|
  rv_MessageID := ""; rv_EventID := ""; rv_TenantID := ""; rv_CollectorID := ""; rv_SourceID := ""; rv_SourceAddress := "";
  rv_EventTimestamp := zero_time; rv_ReceivedAt := zero_time; rv_Format := ""; rv_ContentType := ""; rv_SchemaVersion := "";
  rv_RawHash := ""; rv_Payload := ""; rv_RawPayload := ""; rv_Integrity := "" |}.

Definition PayloadBytes (e : RawEnvelope) : string := if rv_RawPayload e != "" then rv_RawPayload e else rv_Payload e.

Record RawSubmission : Type := {
  sb_Format : string;
  sb_ContentType : string;
  sb_EventID : string;
  sb_EventTimestamp : Time;
  sb_SourceID : string;
  sb_SourceAddress : string;
  sb_Payload : string
}.

(** What [json.Marshal] makes of a raw message: no blanks, and in strings no
    characters of HTML and no line separators. *)
Definition html_escape (c : ascii) : option string :=
  if c == "<"%char then Some "\u003c" else if c == ">"%char then Some "\u003e" else if c == "&"%char then Some "\u0026" else None.

(** A line or paragraph separator, and what follows it. *)
Definition separator_tail (s : string) : option (string * string) :=
  match s with
  | String a (String b (String c r)) =>
      if (byte_code a =? 226) && (byte_code b =? 128) && ((byte_code c =? 168) || (byte_code c =? 169))
      then Some (if byte_code c =? 168 then "\u2028" else "\u2029", r) else None
  | _ => None
  end.

Fixpoint escape_raw_fuel (fuel : nat) (raw : string) : string :=
  match fuel, raw with
  | S fuel, String a r =>
      match html_escape a, separator_tail raw with
      | Some text, _ => text +:+ escape_raw_fuel fuel r
      | None, Some (text, r) => text +:+ escape_raw_fuel fuel r
      | None, None => String a (escape_raw_fuel fuel r)
      end
  | _, _ => ""
  end.
Definition escape_raw (raw : string) : string := escape_raw_fuel (String.length raw) raw.

Fixpoint escape_json (v : Json) : Json :=
  match v with
  | JString raw => JString (escape_raw raw)
  | JArray items => JArray (List.map escape_json items)
  | JObject members => JObject (List.map (fun kv => (escape_raw kv.1, escape_json kv.2)) members)
  | v => v
  end.

Definition omit_raw (name payload : string) : option (list (string * Json)) :=
  if payload == "" then Some [] else v ← json_parse payload; Some [(name, escape_json v)].

Definition envelope_json (e : RawEnvelope) (payload : list (string * Json)) : Json := JObject (
  [("message_id", text_value (rv_MessageID e)); ("event_id", text_value (rv_EventID e));
   ("tenant_id", text_value (rv_TenantID e)); ("collector_id", text_value (rv_CollectorID e))]
  ++ omit_empty "source_id" (rv_SourceID e) ++ omit_empty "source_address" (rv_SourceAddress e)
  ++ [("event_timestamp", JString (FormatRFC3339Nano (rv_EventTimestamp e))); ("received_at", JString (FormatRFC3339Nano (rv_ReceivedAt e)));
      ("format", text_value (rv_Format e)); ("content_type", text_value (rv_ContentType e));
      ("schema_version", text_value (rv_SchemaVersion e)); ("raw_hash", text_value (rv_RawHash e))]
  ++ payload
  ++ (if rv_RawPayload e == "" then [] else [("raw_payload", JString (base64_encode (rv_RawPayload e)))])
  ++ [("integrity", text_value (rv_Integrity e))]).

Definition year_ok (t : Time) : bool := (0 <=? time_Year t) && (time_Year t <=? 9999).

Definition marshal_envelope (e : RawEnvelope) : outcome string :=
  if negb (year_ok (rv_EventTimestamp e) && year_ok (rv_ReceivedAt e)) then Err (New "Time.MarshalJSON: year outside of range [0,9999]") else
  match omit_raw "payload" (rv_Payload e) with
  | Some payload => Ok (json_print (envelope_json e payload))
  | None => Err (New "json: error calling MarshalJSON for type json.RawMessage")
  end.

(** The members of an object with the texts of their values. *)
Fixpoint raw_members (fuel : nat) (s : string) : option (list (string * string * Json)) :=
  match fuel with
  | O => None
  | S fuel =>
      match skip_space s with
      | String "034" r =>
          '(key, rest) ← scan_string r;
          match skip_space rest with
          | String ":" r =>
              let s := skip_space r in
              '(v, rest) ← parse_value (2 * String.length s + 2) 1 s;
              let text := string_take (String.length s - String.length rest) s in
              match skip_space rest with
              | String "}" _ => Some [(key, text, v)]
              | String "," r => members ← raw_members fuel r; Some ((key, text, v) :: members)
              | _ => None
              end
          | _ => None
          end
      | _ => None
      end
  end.

Definition raw_object (s : string) : option (list (string * string * Json)) :=
  match skip_space s with
  | String "{" r => match skip_space r with String "}" _ => Some [] | _ => raw_members (S (String.length r)) r end
  | _ => None
  end.

Definition envelope_names : list string :=
  ["message_id"; "event_id"; "tenant_id"; "collector_id"; "source_id"; "source_address"; "event_timestamp"; "received_at"; "format";
   "content_type"; "schema_version"; "raw_hash"; "payload"; "raw_payload"; "integrity"].

(** A value of another type is an error that is kept for the end, a text that
    is no time stops the decoding. *)
Inductive field_step : Type :=
  | FieldSet (e : RawEnvelope)
  | FieldSkipped
  | FieldStop.

Definition text_step (v : Json) (old : string) (set : string -> RawEnvelope) : field_step :=
  match as_string old v with Some s => FieldSet (set s) | None => FieldSkipped end.
Definition time_step (v : Json) (old : Time) (set : Time -> RawEnvelope) : field_step :=
  match as_time old v with Some t => FieldSet (set t) | None => FieldStop end.

Definition set_envelope (name text : string) (v : Json) (e : RawEnvelope) : field_step :=
  if name == "message_id" then text_step v (rv_MessageID e) (fun s => e {{ rv_MessageID := s }})
  else if name == "event_id" then text_step v (rv_EventID e) (fun s => e {{ rv_EventID := s }})
  else if name == "tenant_id" then text_step v (rv_TenantID e) (fun s => e {{ rv_TenantID := s }})
  else if name == "collector_id" then text_step v (rv_CollectorID e) (fun s => e {{ rv_CollectorID := s }})
  else if name == "source_id" then text_step v (rv_SourceID e) (fun s => e {{ rv_SourceID := s }})
  else if name == "source_address" then text_step v (rv_SourceAddress e) (fun s => e {{ rv_SourceAddress := s }})
  else if name == "event_timestamp" then time_step v (rv_EventTimestamp e) (fun t => e {{ rv_EventTimestamp := t }})
  else if name == "received_at" then time_step v (rv_ReceivedAt e) (fun t => e {{ rv_ReceivedAt := t }})
  else if name == "format" then text_step v (rv_Format e) (fun s => e {{ rv_Format := s }})
  else if name == "content_type" then text_step v (rv_ContentType e) (fun s => e {{ rv_ContentType := s }})
  else if name == "schema_version" then text_step v (rv_SchemaVersion e) (fun s => e {{ rv_SchemaVersion := s }})
  else if name == "raw_hash" then text_step v (rv_RawHash e) (fun s => e {{ rv_RawHash := s }})
  else if name == "payload" then FieldSet (e {{ rv_Payload := text }})
  else if name == "raw_payload" then match as_bytes v with Some bytes => FieldSet (e {{ rv_RawPayload := default "" bytes }}) | None => FieldSkipped end
  else text_step v (rv_Integrity e) (fun s => e {{ rv_Integrity := s }}).

(** The envelope as far as it was decoded, and whether all of it was. *)
Fixpoint decode_fields (members : list (string * string * Json)) (e : RawEnvelope) (good : bool) : RawEnvelope * bool :=
  match members with
  | [] => (e, good)
  | (key, text, v) :: members =>
      match field_name envelope_names (unquote key) with
      | None => decode_fields members e good
      | Some name =>
          match set_envelope name text v e with
          | FieldSet e => decode_fields members e good
          | FieldSkipped => decode_fields members e false
          | FieldStop => (e, false)
          end
      end
  end.

Definition unmarshal_envelope (value : string) : RawEnvelope * bool :=
  match json_parse value with
  | Some (JObject _) => match raw_object value with Some members => decode_fields members zero_RawEnvelope true | None => (zero_RawEnvelope, false) end
  | Some JNull => (zero_RawEnvelope, true)
  | _ => (zero_RawEnvelope, false)
  end.

(** ** Integrity (integrity.go) *)

Definition envelopeIntegrityPrefix : string := "hmac-sha256:".

(** HMAC-SHA-256 (FIPS 198-1) *)
Definition block_key (key : list Z) : list Z :=
  let key := if (64 <? length key)%nat then Sha256.digest key else key in
  key ++ repeat 0 (64 - length key).
Definition hmac (key message : string) : list Z :=
  let key := block_key (string_bytes key) in
  Sha256.digest (List.map (Z.lxor 92) key ++ Sha256.digest (List.map (Z.lxor 54) key ++ string_bytes message)).

(** RFC 4231, test case 2. *)
Example hmac_jefe : EncodeToString (hmac "Jefe" "what do ya want for nothing?") =
  "5bdcc146bf60754e6a042426089575c75a003f089d2739839dec58b964ec3843".
Proof. vm_compute. reflexivity. Qed.

Definition hex_bytes (s : string) : option (list Z) :=
  (fix go (n : nat) (s : string) : option (list Z) :=
     match s with
     | EmptyString => Some []
     | String a (String b r) => x ← hex_value a; y ← hex_value b;
         match n with O => None | S n => rest ← go n r; Some (x * 16 + y :: rest) end
     | _ => None
     end) (String.length s) s.

Definition NewEnvelopeAuthenticator (key : string) : outcome string :=
  if string_len key <? 32 then Err (Wrap "HMAC key must contain at least 32 bytes" ErrEnvelopeIntegrity) else Ok key.

Definition format_char (c : ascii) : bool := byte_in 97 122 c || is_digit c || (c ∈? ["-"; "_"; "."]%char).
Definition validFormat (value : string) : bool :=
  negb ((value == "") || (64 <? string_len value)) && string_forallb format_char value.

Definition validEnvelopeIdentity (value : string) (maximum : Z) : bool :=
  (value != "") && (string_len value <=? maximum) && (value == TrimSpace value) && negb (ContainsAny value crlf).

Definition integrity_error {A} (text : string) : outcome A := Err (Wrap text ErrEnvelopeIntegrity).

Definition validateEnvelopeForIntegrity (e : RawEnvelope) : outcome unit :=
  if negb (TenantId.Valid (rv_TenantID e)) then integrity_error "tenant ID is not canonical" else
  if negb (validEnvelopeIdentity (rv_MessageID e) 256) || negb (validEnvelopeIdentity (rv_EventID e) 256)
     || negb (validEnvelopeIdentity (rv_CollectorID e) 256) then integrity_error "identity fields are invalid" else
  if IsZero (rv_EventTimestamp e) || IsZero (rv_ReceivedAt e) || negb (validFormat (rv_Format e))
     || (rv_SchemaVersion e == "") || (32 <? string_len (rv_SchemaVersion e)) then integrity_error "envelope metadata is invalid" else
  if (rv_ContentType e == "") || (128 <? string_len (rv_ContentType e)) || ContainsAny (rv_ContentType e) crlf
  then integrity_error "content type is invalid" else
  if (rv_Payload e != "") && (rv_RawPayload e != "") then integrity_error "multiple payload representations" else
  if (PayloadBytes e == "") || (MaxEventBytes <? string_len (PayloadBytes e)) then integrity_error "payload size is invalid" else
  if (rv_Payload e != "") && negb (json_valid (rv_Payload e)) then integrity_error "canonical payload is invalid" else
  if rv_RawHash e != "sha256:" +:+ sha256_hex (PayloadBytes e) then integrity_error "payload hash mismatch" else
  Ok tt.

Definition signed_json (e : RawEnvelope) : Json := JObject
  [("message_id", text_value (rv_MessageID e)); ("event_id", text_value (rv_EventID e)); ("tenant_id", text_value (rv_TenantID e));
   ("collector_id", text_value (rv_CollectorID e)); ("event_timestamp", text_value (FormatRFC3339Nano (rv_EventTimestamp e)));
   ("received_at", text_value (FormatRFC3339Nano (rv_ReceivedAt e))); ("format", text_value (rv_Format e));
   ("content_type", text_value (rv_ContentType e)); ("schema_version", text_value (rv_SchemaVersion e));
   ("raw_hash", text_value (rv_RawHash e))].

Definition mac (key : string) (e : RawEnvelope) : list Z := hmac key (json_print (signed_json e)).

Definition Sign (key : string) (e : RawEnvelope) : outcome RawEnvelope :=
  let? _ := validateEnvelopeForIntegrity e in
  Ok (e {{ rv_Integrity := envelopeIntegrityPrefix +:+ EncodeToString (mac key e) }}).

Definition Verify (key : string) (e : RawEnvelope) : outcome unit :=
  let? _ := validateEnvelopeForIntegrity e in
  if negb (HasPrefix (rv_Integrity e) envelopeIntegrityPrefix) then integrity_error "signature is missing" else
  match hex_bytes (TrimPrefix (rv_Integrity e) envelopeIntegrityPrefix) with
  | Some actual => if (Z.of_nat (length actual) =? 32) && (actual == mac key e) then Ok tt else integrity_error "signature mismatch"
  | None => integrity_error "signature mismatch"
  end.

(** ** The data plane (kafka.go)

    The records of the topic and how many of them are committed, the topic of
    dead letters, the stored envelopes, and what the pipeline runs on. *)

Record KafkaRecord : Type := { kr_Key : string; kr_Value : string }.

Record DeadLetter : Type := { dl_Envelope : RawEnvelope; dl_Stage : string; dl_Error : string; dl_FailedAt : Time }.

Record Plane (P : Type) : Type := {
  pl_topic : list KafkaRecord;
  pl_committed : nat;
  pl_dead : list DeadLetter;
  pl_stored : list RawEnvelope;
  pl_platform : P;
  pl_calls : nat
}.
Arguments pl_topic {P} _.
Arguments pl_committed {P} _.
Arguments pl_dead {P} _.
Arguments pl_stored {P} _.
Arguments pl_platform {P} _.
Arguments pl_calls {P} _.
#[export] Instance eta_Plane P : Eta (Plane P) := fun r => {|
  pl_topic := pl_topic r; pl_committed := pl_committed r; pl_dead := pl_dead r; pl_stored := pl_stored r;
  pl_platform := pl_platform r; pl_calls := pl_calls r |}.

(** How the [n]-th call of Kafka or of the store of envelopes ends; the state
    of the context (a worker's is cancelled once another has failed) when [n]
    calls have been made. *)
Inductive Reply : Type :=
  | Done
  | Refused (e : error)
  | Unsure (e : error)  (* an error, though the call took effect *)
  | Killed (effect : bool).  (* the process ends *)

Class Outside : Type := {
  os_reply : nat -> Reply;
  os_topic : string;
  os_deadLetterTopic : string;
  os_context : nat -> Context;
  os_parse : RawEnvelope -> outcome CanonicalEvent
}.

(** What the processor asks of the pipeline. *)
Class DetectionPipeline (P : Type) : Type := {
  dp_Ingest : Context -> string -> CanonicalEvent -> M (World P) IngestResult
}.

Section DataPlane.
Context {P : Type} `{!DetectionPipeline P} `{!Outside}.

#[local] Abbreviation PlaneM := (M (World (Plane P))).

Definition change_plane (f : Plane P -> Plane P) (w : World (Plane P)) : World (Plane P) := mkWorld (f (w_repo w)) (w_rt w).

Definition outside (effect : Plane P -> Plane P) : PlaneM unit := fun w =>
  let w' := change_plane (fun p => p {{ pl_calls ::= S }}) w in
  match os_reply (pl_calls (w_repo w)) with
  | Done => (Ok tt, change_plane effect w')
  | Refused e => (Err e, w')
  | Unsure e => (Err e, change_plane effect w')
  | Killed took => (Panic, if took : bool then change_plane effect w' else w')
  end.

Definition on_platform {A} (m : M (World P) A) : PlaneM A := fun w =>
  let '(r, v) := m (mkWorld (pl_platform (w_repo w)) (w_rt w)) in
  (r, mkWorld ((w_repo w) {{ pl_platform := w_repo v }}) (w_rt v)).

(** The partition key; of the payload only the name of the device is read. *)
Definition device_hostname (payload : string) : option string :=
  let text (old : string) (v : Json) := as_string old v in
  match json_parse payload with
  | Some v => device ← decode_struct ["device"] (fun _ w h => decode_struct ["hostname"] (fun _ x h => text h x) w h) v ""; Some device
  | None => None
  end.

Definition kafkaPartitionKey (e : RawEnvelope) : string :=
  let base := rv_TenantID e +:+ "|" +:+ rv_CollectorID e in
  let identity := TrimSpace (rv_SourceID e) in
  let identity :=
    if identity != "" then "source:" +:+ identity
    else if rv_Payload e != "" then
      match device_hostname (rv_Payload e) with
      | Some name => let hostname := ToLower (TrimSpace name) in
          if (hostname != "") && (string_len hostname <=? 256) then "device:" +:+ hostname else ""
      | None => ""
      end
    else "" in
  if identity == "" then base else base +:+ "|" +:+ EncodeToString (take 12 (Sha256.digest (string_bytes identity))).

Definition Publish (e : RawEnvelope) : PlaneM unit :=
  let! value := wrapping "encode raw envelope" (lift (marshal_envelope e)) in
  wrapping ("produce " +:+ os_topic) (outside (fun p => p {{ pl_topic ::= fun l => l ++ [{| kr_Key := kafkaPartitionKey e; kr_Value := value |}] }})).

(** A dead letter has no encoding where its envelope has none; its own time is
    the clock's. *)
Definition PublishDeadLetter (d : DeadLetter) : PlaneM unit :=
  do! wrapping "encode dead letter" (lift (let? _ := marshal_envelope (dl_Envelope d) in
    if year_ok (dl_FailedAt d) then Ok tt else Err (New "Time.MarshalJSON: year outside of range [0,9999]"))) in
  wrapping ("produce " +:+ os_deadLetterTopic) (outside (fun p => p {{ pl_dead ::= fun l => l ++ [d] }})).

(** ** The gateway (envelope.go) *)

Definition invalid {A} (text : string) : PlaneM A := fail (Wrap text ErrInvalidEnvelope).

Definition derived_id (tenantID collectorID sourceID format payload : string) : string :=
  let prefix := tenantID +:+ "|" +:+ collectorID +:+ "|" +:+ (if sourceID != "" then sourceID +:+ "|" else "") +:+ format +:+ "|" in
  "evt_" +:+ EncodeToString (take 12 (Sha256.digest (string_bytes (prefix +:+ payload)))).

Definition submit (key tenantID collectorID : string) (submission : RawSubmission) (canonical : bool) : PlaneM Receipt :=
  let tenantID := TrimSpace tenantID in
  let collectorID := TrimSpace collectorID in
  let format := TrimSpace (sb_Format submission) in
  let payload := sb_Payload submission in
  if (tenantID == "") || (collectorID == "") then invalid "tenant and collector identity are required" else
  if negb (TenantId.Valid tenantID) || (256 <? string_len collectorID) || negb (validFormat format)
  then invalid "invalid tenant, collector, or format identity" else
  if (payload == "") || (MaxEventBytes <? string_len payload) then invalid "payload must contain up to 1048576 bytes" else
  let contentType := TrimSpace (sb_ContentType submission) in
  let contentType := if contentType == "" then "application/octet-stream" else contentType in
  if (128 <? string_len contentType) || ContainsAny contentType crlf then invalid "invalid content type" else
  let sourceID := TrimSpace (sb_SourceID submission) in
  let sourceAddress := TrimSpace (sb_SourceAddress submission) in
  if (256 <? string_len sourceID) || (256 <? string_len sourceAddress) || ContainsAny (sourceID +:+ sourceAddress) crlf
  then invalid "invalid source identity" else
  let! now := Now in
  let eventID := TrimSpace (sb_EventID submission) in
  let eventID := if eventID == "" then derived_id tenantID collectorID sourceID format payload else eventID in
  if (256 <? string_len eventID) || ContainsAny eventID crlf then invalid "invalid event identity" else
  let eventTimestamp := if IsZero (sb_EventTimestamp submission) then now else sb_EventTimestamp submission in
  let! random := Random in
  let envelope := {|
    rv_MessageID := NewID "msg" random; rv_EventID := eventID; rv_TenantID := tenantID; rv_CollectorID := collectorID;
    rv_SourceID := sourceID; rv_SourceAddress := sourceAddress; rv_EventTimestamp := eventTimestamp; rv_ReceivedAt := now;
    rv_Format := format; rv_ContentType := contentType; rv_SchemaVersion := "3"; rv_RawHash := "sha256:" +:+ sha256_hex payload;
    rv_Payload := if canonical then payload else ""; rv_RawPayload := if canonical then "" else payload; rv_Integrity := "" |} in
  let! envelope := wrapping "authenticate raw envelope" (lift (Sign key envelope)) in
  do! wrapping "publish raw event" (Publish envelope) in
  ret {| re_MessageID := rv_MessageID envelope; re_EventID := eventID; re_Status := "QUEUED"; re_Topic := os_topic; re_AcceptedAt := now |}.

(** The members of a canonical event the gateway reads. *)
Record eventHeader : Type := {
  hd_EventID : string;
  hd_EventTime : Time;
  hd_CollectorID : string;
  hd_Category : string;
  hd_SourceType : string
}.
#[local] Instance eta_eventHeader : Eta eventHeader := fun r => {|
  hd_EventID := hd_EventID r; hd_EventTime := hd_EventTime r; hd_CollectorID := hd_CollectorID r; hd_Category := hd_Category r;
  hd_SourceType := hd_SourceType r |}.

Definition set_header (name : string) (v : Json) (h : eventHeader) : option eventHeader :=
  if name == "event_id" then s ← as_string (hd_EventID h) v; Some (h {{ hd_EventID := s }})
  else if name == "event_time" then t ← as_time (hd_EventTime h) v; Some (h {{ hd_EventTime := t }})
  else if name == "collector_id" then s ← as_string (hd_CollectorID h) v; Some (h {{ hd_CollectorID := s }})
  else if name == "category" then s ← as_string (hd_Category h) v; Some (h {{ hd_Category := s }})
  else s ← decode_struct ["type"] (fun _ w old => as_string old w) v (hd_SourceType h); Some (h {{ hd_SourceType := s }}).

Definition decode_header (payload : string) : option eventHeader :=
  v ← json_parse payload;
  decode_struct ["event_id"; "event_time"; "collector_id"; "category"; "source"] set_header v
    {| hd_EventID := ""; hd_EventTime := zero_time; hd_CollectorID := ""; hd_Category := ""; hd_SourceType := "" |}.

Definition SubmitJSON (key tenantID collectorID payload : string) : PlaneM Receipt :=
  let tenantID := TrimSpace tenantID in
  let collectorID := TrimSpace collectorID in
  if (tenantID == "") || (collectorID == "") then invalid "tenant and collector identity are required" else
  if (payload == "") || (MaxEventBytes <? string_len payload) || negb (json_valid payload)
  then invalid "payload must be one valid JSON value up to 1048576 bytes" else
  match decode_header payload with
  | None => invalid "json"
  | Some header =>
      if (TrimSpace (hd_Category header) == "") || (TrimSpace (hd_SourceType header) == "")
      then invalid "canonical category and source.type are required" else
      if (hd_CollectorID header != "") && (hd_CollectorID header != collectorID)
      then invalid "collector identity does not match authenticated principal" else
      submit key tenantID collectorID {|
        sb_Format := FormatCanonicalJSON; sb_ContentType := "application/json"; sb_EventID := TrimSpace (hd_EventID header);
        sb_EventTimestamp := hd_EventTime header; sb_SourceID := ""; sb_SourceAddress := ""; sb_Payload := payload |} true
  end.

Definition SubmitRaw (key tenantID collectorID : string) (submission : RawSubmission) : PlaneM Receipt :=
  if (TrimSpace (sb_Format submission) == "") || (sb_Format submission == FormatCanonicalJSON)
  then SubmitJSON key tenantID collectorID (sb_Payload submission)
  else submit key tenantID collectorID submission false.

(** ** The processor (processor.go) *)

Definition deadLetter (e : RawEnvelope) (stage : string) (cause : error) : PlaneM unit :=
  let! now := Now in
  wrapping ("publish dead letter after " +:+ stage +:+ " failure")
    (PublishDeadLetter {| dl_Envelope := e; dl_Stage := stage; dl_Error := error_text cause; dl_FailedAt := now |}).

Definition PutRawEnvelope (e : RawEnvelope) : PlaneM unit := outside (fun p => p {{ pl_stored ::= fun l => l ++ [e] }}).

Definition processRecord (key : string) (record : KafkaRecord) : PlaneM unit :=
  let '(envelope, decoded) := unmarshal_envelope (kr_Value record) in
  if negb decoded then deadLetter envelope "envelope" (Wrap "decode raw envelope" (New "json")) else
  match Verify key envelope with
  | Panic => panic
  | Err e => deadLetter envelope "envelope" e
  | Ok _ =>
      do! wrapping "persist raw envelope before acknowledgement" (PutRawEnvelope envelope) in
      match os_parse envelope with
      | Panic => panic
      | Err e => deadLetter envelope "parser" e
      | Ok event => fun w =>
          match on_platform (dp_Ingest (os_context (pl_calls (w_repo w))) (rv_TenantID envelope) event) w with
          | (Ok _, w) => (Ok tt, w)
          | (Err e, w) => deadLetter envelope "pipeline" e w
          | (Panic, w) => (Panic, w)
          end
      end
  end.

Definition defaultProcessorWorkers : Z := 64.
Definition maximumProcessorWorkers : Z := 256.

Definition normalizeProcessorWorkers (value : Z) : Z :=
  if value <=? 0 then defaultProcessorWorkers
  else if maximumProcessorWorkers <? value then maximumProcessorWorkers else value.

(** Several workers finish the records in some order; after the first error
    [late] more that were in flight may still be finished. *)
Fixpoint in_flight (key : string) (records : list KafkaRecord) (late : nat) : PlaneM unit :=
  match records, late with
  | record :: records, S late => fun w =>
      match processRecord key record w with
      | (Panic, w) => (Panic, w)
      | (_, w) => in_flight key records late w
      end
  | _, _ => ret tt
  end.

Fixpoint process_each (key : string) (word : error -> error) (records : list KafkaRecord) (late : nat) : PlaneM unit :=
  match records with
  | [] => ret tt
  | record :: records => fun w =>
      match processRecord key record w with
      | (Ok _, w) => process_each key word records late w
      | (Err e, w) => (do! in_flight key records late in fail (word e)) w
      | (Panic, w) => (Panic, w)
      end
  end.

Definition workers_for (maxWorkers : Z) (block : list KafkaRecord) : Z := Z.min (normalizeProcessorWorkers maxWorkers) (Z.of_nat (length block)).

(** [order] is the order in which the workers finish: a permutation of the
    block. With one worker it is the order of the block and nothing is in
    flight. *)
Definition schedule_ok (maxWorkers : Z) (block order : list KafkaRecord) (late : nat) : Prop :=
  order ≡ₚ block /\ Z.of_nat late < Z.max 1 (workers_for maxWorkers block) /\ (workers_for maxWorkers block = 1 -> order = block).

(** One turn of [Run] for a fetched block. An error of one of several workers
    is given with the position of its record, which is left out here. *)
Definition process_block (key : string) (maxWorkers : Z) (block order : list KafkaRecord) (late : nat) : PlaneM unit :=
  let word := if workers_for maxWorkers block =? 1 then fun e => e else Wrap "process Kafka record" in
  do! process_each key word order late in
  if bool_decide (block = []) then ret tt
  else wrapping "commit Kafka offsets" (outside (fun p => p {{ pl_committed ::= fun n => (n + length block)%nat }})).

End DataPlane.

(** ** Configuration of the transport (kafka.go)

    Files and certificates are read by the standard library. *)

Record KafkaTLSConfig : Type := { kt_Enabled : bool; kt_CAFile : string; kt_CertFile : string; kt_KeyFile : string; kt_ServerName : string }.
Record KafkaSASLConfig : Type := { ks_Mechanism : string; ks_Username : string; ks_Password : string }.
Record KafkaSecurityConfig : Type := { kf_RequireTLS : bool; kf_TLS : KafkaTLSConfig; kf_SASL : KafkaSASLConfig }.

Record KafkaConfig : Type := {
  kc_Brokers : list string;
  kc_ClientID : string;
  kc_RawTopic : string;
  kc_DeadLetterTopic : string;
  kc_Partitions : Z;
  kc_ReplicationFactor : Z;
  kc_Security : KafkaSecurityConfig
}.

Class TrustFiles : Type := {
  tf_ReadFile : string -> outcome string;
  tf_AppendCertsFromPEM : string -> bool;
  tf_LoadX509KeyPair : string -> string -> outcome unit
}.

(** The protections of a connection. *)
Record TLSSettings : Type := { tls_ServerName : string; tls_Roots : option string; tls_Certificate : option (string * string) }.

Inductive SaslMechanism : Type :=
  | SaslPlain (user password : string)
  | SaslScram256 (user password : string)
  | SaslScram512 (user password : string).

Definition load_roots `{TrustFiles} (config : KafkaTLSConfig) : outcome (option string) :=
  if kt_CAFile config == "" then Ok None else
  match tf_ReadFile (kt_CAFile config) with
  | Ok certificate =>
      if negb (tf_AppendCertsFromPEM certificate) then Err (New "Kafka CA bundle contains no valid certificates") else Ok (Some certificate)
  | Err e => Err (Wrap "read Kafka CA bundle" e)
  | Panic => Panic
  end.

Definition load_certificate `{TrustFiles} (config : KafkaTLSConfig) : outcome (option (string * string)) :=
  if kt_CertFile config == "" then Ok None else
  match tf_LoadX509KeyPair (kt_CertFile config) (kt_KeyFile config) with
  | Ok _ => Ok (Some (kt_CertFile config, kt_KeyFile config))
  | Err e => Err (Wrap "load Kafka mTLS client certificate" e)
  | Panic => Panic
  end.

Definition loadKafkaTLSConfig `{TrustFiles} (config : KafkaTLSConfig) : outcome TLSSettings :=
  if xorb (kt_CertFile config == "") (kt_KeyFile config == "")
  then Err (New "Kafka TLS client certificate and key must be configured together") else
  let? roots := load_roots config in
  let? certificate := load_certificate config in
  Ok {| tls_ServerName := kt_ServerName config; tls_Roots := roots; tls_Certificate := certificate |}.

Definition kafkaSASLMechanism (config : KafkaSASLConfig) : outcome (option SaslMechanism) :=
  let mechanism := ToLower (TrimSpace (ks_Mechanism config)) in
  if mechanism == "" then Ok None
  else if mechanism == "plain" then Ok (Some (SaslPlain (ks_Username config) (ks_Password config)))
  else if mechanism == "scram-sha-256" then Ok (Some (SaslScram256 (ks_Username config) (ks_Password config)))
  else if mechanism == "scram-sha-512" then Ok (Some (SaslScram512 (ks_Username config) (ks_Password config)))
  else Err (New "unsupported Kafka SASL mechanism").

Definition no_tls_settings (config : KafkaTLSConfig) : bool :=
  (kt_CAFile config == "") && (kt_CertFile config == "") && (kt_KeyFile config == "") && (kt_ServerName config == "").

Definition validate_sasl (c : KafkaSecurityConfig) : outcome unit :=
  let mechanism := ToLower (TrimSpace (ks_Mechanism (kf_SASL c))) in
  if mechanism == "" then
    if (ks_Username (kf_SASL c) != "") || (ks_Password (kf_SASL c) != "") then Err (New "Kafka SASL credentials require a SASL mechanism") else
    if kf_RequireTLS c && ((kt_CertFile (kf_TLS c) == "") || (kt_KeyFile (kf_TLS c) == ""))
    then Err (New "secure Kafka requires SASL credentials or an mTLS client certificate") else Ok tt
  else if (TrimSpace (ks_Username (kf_SASL c)) == "") || (ks_Password (kf_SASL c) == "")
  then Err (New "Kafka SASL username and password are required")
  else if (mechanism == "plain") && negb (kt_Enabled (kf_TLS c)) then Err (New "Kafka SASL PLAIN is forbidden without TLS")
  else let? _ := kafkaSASLMechanism (kf_SASL c) in Ok tt.

Definition Validate `{TrustFiles} (c : KafkaSecurityConfig) : outcome unit :=
  if kf_RequireTLS c && negb (kt_Enabled (kf_TLS c)) then Err (New "Kafka TLS is required for a secure runtime profile") else
  if negb (kt_Enabled (kf_TLS c)) && negb (no_tls_settings (kf_TLS c))
  then Err (New "Kafka TLS settings require KCSP_KAFKA_TLS_ENABLED=true") else
  let? _ := (if kt_Enabled (kf_TLS c) then let? _ := loadKafkaTLSConfig (kf_TLS c) in Ok tt else Ok tt) in
  validate_sasl c.

(** The options of a client that bear on its security. *)
Definition kafkaClientOptions `{TrustFiles} (security : KafkaSecurityConfig) : outcome (option TLSSettings * option SaslMechanism) :=
  let? _ := Validate security in
  let? tls := (if kt_Enabled (kf_TLS security) then let? settings := loadKafkaTLSConfig (kf_TLS security) in Ok (Some settings) else Ok None) in
  let? mechanism := kafkaSASLMechanism (kf_SASL security) in
  Ok (tls, mechanism).

(** [strconv.ParseBool] *)
Definition ParseBool (s : string) : option bool :=
  if s ∈? ["1"; "t"; "T"; "TRUE"; "true"; "True"] then Some true
  else if s ∈? ["0"; "f"; "F"; "FALSE"; "false"; "False"] then Some false else None.

Definition KafkaSecurityConfigFromEnvironment `{TrustFiles} (getenv : string -> string) (requireTLS : bool) : outcome KafkaSecurityConfig :=
  let value := TrimSpace (getenv "KCSP_KAFKA_TLS_ENABLED") in
  let? tlsEnabled := (if value == "" then Ok requireTLS else
    match ParseBool value with Some b => Ok b | None => Err (Wrap "parse KCSP_KAFKA_TLS_ENABLED" (New "invalid syntax")) end) in
  let config := {| kf_RequireTLS := requireTLS;
    kf_TLS := {| kt_Enabled := tlsEnabled; kt_CAFile := TrimSpace (getenv "KCSP_KAFKA_TLS_CA_FILE");
      kt_CertFile := TrimSpace (getenv "KCSP_KAFKA_TLS_CERT_FILE"); kt_KeyFile := TrimSpace (getenv "KCSP_KAFKA_TLS_KEY_FILE");
      kt_ServerName := TrimSpace (getenv "KCSP_KAFKA_TLS_SERVER_NAME") |};
    kf_SASL := {| ks_Mechanism := TrimSpace (getenv "KCSP_KAFKA_SASL_MECHANISM"); ks_Username := TrimSpace (getenv "KCSP_KAFKA_SASL_USERNAME");
      ks_Password := getenv "KCSP_KAFKA_SASL_PASSWORD" |} |} in
  let? _ := Validate config in
  Ok config.

Definition normalizeKafkaConfig (config : KafkaConfig) : KafkaConfig := {|
  kc_Brokers := List.filter (fun broker => broker != "") (List.map TrimSpace (kc_Brokers config));
  kc_ClientID := if kc_ClientID config == "" then "kcsp" else kc_ClientID config;
  kc_RawTopic := if kc_RawTopic config == "" then "kcsp.raw.events.v1" else kc_RawTopic config;
  kc_DeadLetterTopic := if kc_DeadLetterTopic config == "" then "kcsp.raw.events.dlq.v1" else kc_DeadLetterTopic config;
  kc_Partitions := if kc_Partitions config <=? 0 then 12 else kc_Partitions config;
  kc_ReplicationFactor := if kc_ReplicationFactor config <=? 0 then 1 else kc_ReplicationFactor config;
  kc_Security := kc_Security config |}.
