(* ===== verification/IngestionProps.v ===== *)
(** * What the ingestion path promises

    An event the gateway accepts is decoded by the processor as it was signed;
    a signature stands for one event; and a record is acknowledged when it is
    dealt with. *)

From S2P Require Import Prelude GoLang GoFormat Core TenantId MemoryStore MemoryFacts DetectionModel SigmaCompile Correlation Pipeline PipelineFacts.
From S2P Require Import GoUtf8 Json GoTime AgentEvent HostFiles DiskQueue Forwarding JournalSource QueueFacts Ingestion.


(** ** Raw messages *)

Lemma separator_tail_some s text r : separator_tail s = Some (text, r) ->
  exists c, s = String "226" (String "128" (String c r)) /\ ((c = "168"%char /\ text = "\u2028") \/ (c = "169"%char /\ text = "\u2029")).
Proof.
  destruct s as [|x [|y [|z s]]]; cbn; try done. destruct (_ && _ && _) eqn:E; [|done]. intros [= <- <-].
  apply line_separator in E as (-> & -> & [-> | ->]); eexists; (split; [reflexivity|by auto]).
Qed.

Lemma escape_fuel n m s : (String.length s <= n)%nat -> (String.length s <= m)%nat -> escape_raw_fuel n s = escape_raw_fuel m s.
Proof.
  revert m s. induction n as [|n IH]; intros m s Ln Lm; [destruct s; [by destruct m|cbn in Ln; lia]|].
  destruct s as [|c s]; [by destruct m|]. destruct m as [|m]; [cbn in Lm; lia|]. cbn [String.length] in Ln, Lm. cbn [escape_raw_fuel].
  destruct (html_escape c); [by rewrite (IH m) by lia|]. destruct (separator_tail _) as [[text r]|] eqn:E.
  - apply separator_tail_some in E as (d & [= -> ->] & _). cbn [String.length] in Ln, Lm. by rewrite (IH m) by lia.
  - by rewrite (IH m) by lia.
Qed.

Lemma escape_raw_cons c s : escape_raw (String c s) =
  match html_escape c, separator_tail (String c s) with
  | Some text, _ => text +:+ escape_raw s
  | None, Some (text, r) => text +:+ escape_raw r
  | None, None => String c (escape_raw s)
  end.
Proof.
  unfold escape_raw. cbn [String.length escape_raw_fuel]. destruct (html_escape c); [done|].
  destruct (separator_tail _) as [[text r]|] eqn:E; [|done].
  apply separator_tail_some in E as (d & [= -> ->] & _). f_equal. apply escape_fuel; cbn; lia.
Qed.

(** Characters that are left alone, whatever follows. *)
Definition unescaped (c : ascii) : bool := (if html_escape c is Some _ then false else true) && (c != "226"%char).

Lemma escape_unescaped c r : unescaped c = true -> escape_raw (String c r) = String c (escape_raw r).
Proof.
  unfold unescaped. rewrite escape_raw_cons. destruct (html_escape c); [done|]. cbn [andb]. intros N.
  destruct (separator_tail _) as [[text r']|] eqn:E; [|done]. by apply separator_tail_some in E as (d & [= -> _] & _).
Qed.

Lemma hex_unescaped h x : hex_value h = Some x -> unescaped h = true.
Proof. intros H. all_bytes h; try (vm_compute in H; discriminate H); reflexivity. Qed.

Lemma hex4_unescaped h1 h2 h3 h4 : is_Some (hex4 h1 h2 h3 h4) ->
  unescaped h1 = true /\ unescaped h2 = true /\ unescaped h3 = true /\ unescaped h4 = true.
Proof.
  intros [x X]. unfold hex4 in X.
  destruct (hex_value h1) eqn:E1, (hex_value h2) eqn:E2, (hex_value h3) eqn:E3, (hex_value h4) eqn:E4; try discriminate X.
  split_and!; by eapply hex_unescaped.
Qed.

Lemma escape_char_unescaped e : is_Some (escape_char e) -> unescaped e = true.
Proof. intros [x X]. all_bytes e; try (vm_compute in X; discriminate X); reflexivity. Qed.

Lemma scanned_plain s raw rest : scanned s raw rest -> forall c raw', raw = String c raw' -> 127 < byte_code c ->
  exists s', scanned s' raw' rest /\ (String.length s' < String.length s)%nat.
Proof.
  destruct 1 as [r|h1 h2 h3 h4 s raw rest H S|e s raw rest U H S|c s raw rest Q B L S]; intros c' raw' E G; [done|..];
    injection E as <- <-; [by vm_compute in G..|]. exists s. split; [done|]. cbn. lia.
Qed.

Lemma html_escape_scans c text raw : html_escape c = Some text -> scans raw -> scans (text +:+ raw).
Proof.
  unfold html_escape. repeat case_match; intros [= <-] R; (apply scans_unicode; [vm_compute; eauto|done]).
Qed.

(** The texts of strings that were accepted are accepted after the escapes. *)
Lemma scanned_escaped s raw rest : scanned s raw rest -> scans (escape_raw raw).
Proof.
  assert (J : forall n s raw rest, (String.length s <= n)%nat -> scanned s raw rest -> scans (escape_raw raw)); [|by eauto].
  clear. induction n as [|n IH]; intros s raw rest L H.
  { destruct H; cbn in L; lia. }
  destruct H as [r|h1 h2 h3 h4 s raw rest H S|e s raw rest U H S|c s raw rest Q B C S]; cbn [String.length] in L.
  - apply scans_nil.
  - rewrite (escape_unescaped "092"), (escape_unescaped "u") by reflexivity. destruct (hex4_unescaped _ _ _ _ H) as (U1 & U2 & U3 & U4).
    rewrite !escape_unescaped by done. apply scans_unicode; [done|]. eapply IH; [|exact S]. lia.
  - rewrite (escape_unescaped "092") by reflexivity. rewrite escape_unescaped by by apply escape_char_unescaped.
    apply scans_escape; [done..|]. eapply IH; [|exact S]. lia.
  - assert (R : scans (escape_raw raw)) by (eapply IH; [|exact S]; lia).
    rewrite escape_raw_cons. destruct (html_escape c) as [text|] eqn:Eh; [by eapply html_escape_scans|].
    destruct (separator_tail _) as [[text r]|] eqn:E; [|by apply scans_char].
    apply separator_tail_some in E as (d & E & D). injection E as -> ->.
    destruct (scanned_plain _ _ _ S _ _ eq_refl eq_refl) as (s1 & S1 & L1).
    destruct (scanned_plain _ _ _ S1 _ _ eq_refl) as (s2 & S2 & L2); [by destruct D as [[-> _]|[-> _]]|].
    assert (R2 : scans (escape_raw r)) by (eapply IH; [|exact S2]; lia).
    destruct D as [[_ ->]|[_ ->]]; (apply scans_unicode; [vm_compute; eauto|done]).
Qed.

Lemma scans_escaped raw : scans raw -> scans (escape_raw raw).
Proof. intros R. eapply scanned_escaped, scan_string_scanned, (scans_quote raw ""), R. Qed.

Lemma escape_json_wf v : json_wf v -> json_wf (escape_json v).
Proof.
  induction v as [|b|l|raw|items IH|members IH] using json_ind'; cbn [json_wf escape_json]; try done; [by apply scans_escaped|..].
  - induction IH as [|w items Hw _ IH]; cbn; [done|]. intros [W R]. split; [by apply Hw|by apply IH].
  - induction IH as [|[k w] members Hw _ IH]; cbn; [done|]. intros [[K W] R]. split; [split; [by apply scans_escaped|by apply Hw]|by apply IH].
Qed.

Lemma escape_json_depth v : json_depth (escape_json v) = json_depth v.
Proof.
  induction v as [|b|l|raw|items IH|members IH] using json_ind'; cbn [json_depth escape_json]; try done; f_equal.
  - induction IH as [|w items Hw _ IH]; [done|]. cbn [List.map foldr]. by rewrite Hw, IH.
  - induction IH as [|[k w] members Hw _ IH]; [done|]. cbn [List.map foldr fst snd] in *. by rewrite Hw, IH.
Qed.

(** ** Envelopes in the topic *)

Lemma string_take_app s t : string_take (String.length s) (s +:+ t) = s.
Proof. induction s as [|c s IH]; [by destruct t|]. cbn. by f_equal. Qed.

Definition raw_member (m : string * Json) : string * string * Json := (m.1, json_print m.2, m.2).

(** One member of a printed object, and what follows. *)
Lemma raw_members_step fuel key v c t : scans key -> json_wf v -> 1 + json_depth v <= maxNestingDepth -> c ∈ [","; "}"]%char ->
  raw_members (S fuel) (print_member (key, v) +:+ String c t) =
  if c == "}"%char then Some [raw_member (key, v)]
  else members ← raw_members fuel t; Some (raw_member (key, v) :: members).
Proof.
  intros K W D C. unfold print_member; cbn [fst snd]. rewrite !append_assoc.
  assert (Q := scans_quote key (":" +:+ json_print v +:+ String c t) K). cbn [raw_members].
  change (skip_space (quote +:+ key +:+ quote +:+ ":" +:+ json_print v +:+ String c t))
    with (String "034" (key +:+ quote +:+ ":" +:+ json_print v +:+ String c t)). cbn match. rewrite Q. cbn [mbind option_bind].
  change (skip_space (":" +:+ json_print v +:+ String c t)) with (String ":" (json_print v +:+ String c t)). cbn match.
  assert (S : skip_space (json_print v +:+ String c t) = json_print v +:+ String c t).
  { destruct (print_head v W) as (x & u & -> & Sp & _). by apply skip_head. }
  assert (E : ends (String c t)) by (apply ends_cons; set_solver).
  rewrite S, (value_reads_back v W _ 1 (String c t)); [|rewrite length_append; assert (F := fuel_length v W); lia|lia|done].
  cbn [mbind option_bind]. rewrite length_append, Nat.add_sub, string_take_app.
  rewrite !elem_of_cons, elem_of_nil in C. destruct C as [->|[->|[]]]; done.
Qed.

Lemma raw_members_print members fuel r : members <> [] -> json_wf (JObject members) ->
  foldr Z.max 0 (List.map (fun m => json_depth m.2) members) < maxNestingDepth -> (length members <= fuel)%nat ->
  raw_members fuel (Join (List.map print_member members) "," +:+ String "}" r) = Some (List.map raw_member members).
Proof.
  revert fuel. induction members as [|[key v] members IH]; [done|]. intros fuel _ W D F.
  cbn [json_wf foldr List.map fst snd] in W, D. destruct W as [[K Wv] W]. destruct fuel as [|fuel]; [cbn in F; lia|].
  destruct members as [|m members].
  - cbn [List.map Join]. rewrite raw_members_step by (done || lia || set_solver). done.
  - change (Join (List.map print_member ((key, v) :: m :: members)) ",") with
      (print_member (key, v) +:+ "," +:+ Join (List.map print_member (m :: members)) ",").
    rewrite !append_assoc. change ("," +:+ ?s) with (String "," s) at 1.
    rewrite raw_members_step by (done || lia || set_solver). change (","%char == "}"%char) with false. cbv iota.
    rewrite (IH fuel) by (done || lia || (cbn in F |- *; lia)). done.
Qed.

Lemma json_print_object members : json_print (JObject members) = "{" +:+ Join (List.map print_member members) "," +:+ "}".
Proof. cbn [json_print]. do 3 f_equal. by apply List.map_ext; intros []. Qed.

Lemma printed_members_length members : (length members <= String.length (Join (List.map print_member members) ","))%nat.
Proof.
  induction members as [|m members IH]; [cbn; lia|].
  assert (L : (1 <= String.length (print_member m))%nat) by (unfold print_member; rewrite !length_append; cbn; lia).
  destruct members as [|m' members]; [cbn [List.map Join length]; lia|].
  change (Join (List.map print_member (m :: m' :: members)) ",") with
    (print_member m +:+ "," +:+ Join (List.map print_member (m' :: members)) ","). rewrite !length_append. cbn [length String.length] in *. lia.
Qed.

Lemma raw_object_print members : members <> [] -> json_wf (JObject members) -> json_depth (JObject members) <= maxNestingDepth ->
  raw_object (json_print (JObject members)) = Some (List.map raw_member members).
Proof.
  intros N W D. rewrite json_print_object. unfold raw_object.
  destruct members as [|m members]; [done|]. clear N.
  assert (exists t, Join (List.map print_member (m :: members)) "," +:+ "}" = String "034" t) as [t Et].
  { destruct members; by eexists. }
  change (skip_space ("{" +:+ Join (List.map print_member (m :: members)) "," +:+ "}")) with
    (String "{" (Join (List.map print_member (m :: members)) "," +:+ "}")). cbn match.
  rewrite Et. change (skip_space (String "034" t)) with (String "034" t). cbn match. rewrite <- Et.
  apply (raw_members_print (m :: members) _ ""); [done|done|cbn [json_depth] in D; lia|].
  rewrite length_append. assert (L := printed_members_length (m :: members)). lia.
Qed.

(** What an accepted envelope says of its texts: invalid bytes are replaced,
    and the payload is the one [json.Marshal] wrote. *)
Definition written_payload (payload : string) : string :=
  match json_parse payload with Some v => json_print (escape_json v) | None => "" end.

Definition clean_envelope (e : RawEnvelope) : RawEnvelope := {|
  rv_MessageID := clean (rv_MessageID e); rv_EventID := clean (rv_EventID e); rv_TenantID := clean (rv_TenantID e);
  rv_CollectorID := clean (rv_CollectorID e); rv_SourceID := clean (rv_SourceID e); rv_SourceAddress := clean (rv_SourceAddress e);
  rv_EventTimestamp := rv_EventTimestamp e; rv_ReceivedAt := rv_ReceivedAt e; rv_Format := clean (rv_Format e);
  rv_ContentType := clean (rv_ContentType e); rv_SchemaVersion := clean (rv_SchemaVersion e); rv_RawHash := clean (rv_RawHash e);
  rv_Payload := written_payload (rv_Payload e); rv_RawPayload := rv_RawPayload e; rv_Integrity := clean (rv_Integrity e) |}.

(** The payload, if any, is nested less deep than a document may be. *)
Definition payload_fits (e : RawEnvelope) : Prop := forall v, json_parse (rv_Payload e) = Some v -> json_depth v < maxNestingDepth.

Lemma envelope_wf e payload : (forall m, m ∈ payload -> scans m.1 /\ json_wf m.2) -> json_wf (envelope_json e payload).
Proof.
  intros P. assert (N : forall s, string_forallb plain_char s = true -> scans s) by apply scans_plain.
  cbn [json_wf envelope_json]. repeat apply wf_app; try (apply omit_empty_wf; by apply N).
  - cbn. split_and!; try (by apply N); try (by apply json_text_scans); done.
  - cbn. split_and!; try (by apply N); try (by apply json_text_scans); try done; apply N, RFC3339_plain.
  - clear -P. induction payload as [|m payload IH]; cbn; [done|]. split; [apply P; set_solver|]. apply IH. intros m' Hm. apply P. set_solver.
  - destruct (_ == ""); cbn; [done|]. split_and!; [by apply N| |done]. apply N, base64_plain.
  - cbn. split_and!; [by apply N|apply json_text_scans|done].
Qed.

Lemma envelope_depth e payload : (forall m, m ∈ payload -> json_depth m.2 < maxNestingDepth) ->
  json_depth (envelope_json e payload) <= maxNestingDepth.
Proof.
  unfold maxNestingDepth. intros P. assert (Dp : foldr Z.max 0 (List.map (fun m => json_depth m.2) payload) <= 9999).
  { induction payload as [|m payload IH]; cbn; [lia|].
    assert (json_depth m.2 < 10000) by (apply P; set_solver).
    assert (foldr Z.max 0 (List.map (fun m => json_depth m.2) payload) <= 9999) by (apply IH; set_solver). lia. }
  assert (O : forall n s, foldr Z.max 0 (List.map (fun m => json_depth m.2) (omit_empty n s)) <= 9999)
    by (intros n s; unfold omit_empty; destruct (_ == _); cbn; lia).
  cbn [json_depth envelope_json].
  match goal with |- 1 + ?x <= _ => assert (x <= 9999); [|lia] end.
  repeat apply depth_app; try done; try apply O. by destruct (_ == "").
Qed.

Lemma decode_fields_app ms1 ms2 e e' good : decode_fields (List.map raw_member ms1) e good = (e', true) ->
  decode_fields (List.map raw_member (ms1 ++ ms2)) e good = decode_fields (List.map raw_member ms2) e' true.
Proof.
  revert e good. induction ms1 as [|[k v] ms1 IH]; intros e good; cbn [List.map app decode_fields raw_member fst snd].
  - by intros [= -> ->].
  - destruct (field_name _ _); [|apply IH]. destruct (set_envelope _ _ _ _); [apply IH..|done].
Qed.

Lemma decode_fields_step name v rest e e' good : field_name envelope_names (unquote name) = Some name ->
  set_envelope name (json_print v) v e = FieldSet e' ->
  decode_fields (List.map raw_member ((name, v) :: rest)) e good = decode_fields (List.map raw_member rest) e' good.
Proof. intros N S. cbn [List.map decode_fields raw_member fst snd]. by rewrite N, S. Qed.

Lemma decode_fields_omitted name s rest e e' good : field_name envelope_names (unquote name) = Some name ->
  (forall raw, raw = json_text s -> set_envelope name (json_print (JString raw)) (JString raw) e = FieldSet e') -> (s = "" -> e' = e) ->
  decode_fields (List.map raw_member (omit_empty name s ++ rest)) e good = decode_fields (List.map raw_member rest) e' good.
Proof.
  intros N S E. unfold omit_empty. destruct (s == "") eqn:Es.
  - apply bool_decide_eq_true in Es as ->. by rewrite E.
  - cbn [app]. by apply decode_fields_step, S.
Qed.

(** The members in the order they are written. *)
Lemma decode_envelope_fields e payload (p := match payload with [] => "" | (_, v) :: _ => json_print v end) :
  (payload = [] \/ exists v, payload = [("payload", v)]) -> year_ok (rv_EventTimestamp e) = true -> year_ok (rv_ReceivedAt e) = true ->
  decode_fields (List.map raw_member (match envelope_json e payload with JObject l => l | _ => [] end)) zero_RawEnvelope true =
  ((clean_envelope e) {{ rv_Payload := p }}, true).
Proof.
  intros P Y1 Y2. unfold year_ok in Y1, Y2. rewrite andb_true_iff, !Z.leb_le in Y1, Y2. unfold envelope_json. cbn [app].
  assert (F : forall name v rest x set, field_name envelope_names (unquote name) = Some name ->
    set_envelope name (json_print v) v x = FieldSet (set x) ->
    decode_fields (List.map raw_member ((name, v) :: rest)) x true = decode_fields (List.map raw_member rest) (set x) true)
    by (intros; by apply decode_fields_step).
  assert (Tm : forall t old set, 0 <= time_Year t <= 9999 -> time_step (JString (FormatRFC3339Nano t)) old set = FieldSet (set t)).
  { intros t old set Y. unfold time_step, as_time. by rewrite RFC3339_round_trip. }
  rewrite (F "message_id" _ _ _ (fun x => x {{ rv_MessageID := clean (rv_MessageID e) }})) by done.
  rewrite (F "event_id" _ _ _ (fun x => x {{ rv_EventID := clean (rv_EventID e) }})) by done.
  rewrite (F "tenant_id" _ _ _ (fun x => x {{ rv_TenantID := clean (rv_TenantID e) }})) by done.
  rewrite (F "collector_id" _ _ _ (fun x => x {{ rv_CollectorID := clean (rv_CollectorID e) }})) by done.
  assert (O : forall name s rest x set, field_name envelope_names (unquote name) = Some name ->
    set_envelope name (json_print (text_value s)) (text_value s) x = FieldSet (set x) -> (s = "" -> set x = x) ->
    decode_fields (List.map raw_member (omit_empty name s ++ rest)) x true = decode_fields (List.map raw_member rest) (set x) true)
    by (intros name s rest x set N S E; apply decode_fields_omitted; [done|by intros raw ->|done]).
  rewrite (O "source_id" _ _ _ (fun x => x {{ rv_SourceID := clean (rv_SourceID e) }})) by (done || by intros ->).
  rewrite (O "source_address" _ _ _ (fun x => x {{ rv_SourceAddress := clean (rv_SourceAddress e) }})) by (done || by intros ->).
  cbn [app].
  rewrite (F "event_timestamp" _ _ _ (fun x => x {{ rv_EventTimestamp := rv_EventTimestamp e }})); [|done|].
  2: { change (set_envelope "event_timestamp" ?u ?v ?x) with (time_step v (rv_EventTimestamp x) (fun t => x {{ rv_EventTimestamp := t }})). by apply Tm. }
  rewrite (F "received_at" _ _ _ (fun x => x {{ rv_ReceivedAt := rv_ReceivedAt e }})); [|done|].
  2: { change (set_envelope "received_at" ?u ?v ?x) with (time_step v (rv_ReceivedAt x) (fun t => x {{ rv_ReceivedAt := t }})). by apply Tm. }
  rewrite (F "format" _ _ _ (fun x => x {{ rv_Format := clean (rv_Format e) }})) by done.
  rewrite (F "content_type" _ _ _ (fun x => x {{ rv_ContentType := clean (rv_ContentType e) }})) by done.
  rewrite (F "schema_version" _ _ _ (fun x => x {{ rv_SchemaVersion := clean (rv_SchemaVersion e) }})) by done.
  rewrite (F "raw_hash" _ _ _ (fun x => x {{ rv_RawHash := clean (rv_RawHash e) }})) by done.
  assert (Pl : forall x rest, rv_Payload x = "" -> decode_fields (List.map raw_member (payload ++ rest)) x true =
    decode_fields (List.map raw_member rest) (x {{ rv_Payload := p }}) true).
  { intros x rest X. unfold p. destruct P as [-> | [v ->]]; [destruct x; cbn in *; by subst|]. cbn [app]. by apply decode_fields_step. }
  rewrite Pl by done.
  assert (R : forall x rest, rv_RawPayload x = "" -> decode_fields (List.map raw_member ((if rv_RawPayload e == "" then [] else
    [("raw_payload", JString (base64_encode (rv_RawPayload e)))]) ++ rest)) x true =
    decode_fields (List.map raw_member rest) (x {{ rv_RawPayload := rv_RawPayload e }}) true).
  { intros x rest X. destruct (rv_RawPayload e == "") eqn:Er.
    - apply bool_decide_eq_true in Er as ->. cbn [app]. destruct x; cbn in *. by subst.
    - cbn [app]. apply decode_fields_step; [done|].
      change (set_envelope "raw_payload" ?u ?v ?x) with (match as_bytes v with
        | Some bytes => FieldSet (x {{ rv_RawPayload := default "" bytes }}) | None => FieldSkipped end).
      unfold as_bytes. by rewrite (proj2 (plain_text _ (base64_plain (rv_RawPayload e)))), base64_round_trip. }
  rewrite R by done.
  rewrite (F "integrity" _ _ _ (fun x => x {{ rv_Integrity := clean (rv_Integrity e) }})) by done.
  done.
Qed.

(** A published envelope is decoded whole. *)
Lemma unmarshal_published e value : payload_fits e -> marshal_envelope e = Ok value -> unmarshal_envelope value = (clean_envelope e, true).
Proof.
  unfold payload_fits, marshal_envelope. intros D. destruct (negb _) eqn:Y; [done|]. apply negb_false_iff, andb_true_iff in Y as [Y1 Y2].
  assert (H : forall payload, omit_raw "payload" (rv_Payload e) = Some payload ->
    (payload = [] \/ exists v, payload = [("payload", v)]) /\
    match payload with [] => "" | (_, v) :: _ => json_print v end = written_payload (rv_Payload e) /\
    forall m, m ∈ payload -> (scans m.1 /\ json_wf m.2) /\ json_depth m.2 < maxNestingDepth).
  { unfold omit_raw, written_payload. intros payload. destruct (rv_Payload e == "") eqn:E.
    { apply bool_decide_eq_true in E as ->. intros [= <-]. split_and!; [by left|done|]. intros m M. by apply elem_of_nil in M. }
    destruct (json_parse (rv_Payload e)) as [v|] eqn:V; [|done]. specialize (D v eq_refl). apply json_parse_wf in V as [W _].
    cbn [mbind option_bind]. intros Ep. assert (payload = [("payload", escape_json v)]) as -> by congruence.
    split_and!; [eauto|done|]. intros m ->%list_elem_of_singleton. cbn [fst snd]. rewrite escape_json_depth.
    split_and!; [by apply scans_plain|by apply escape_json_wf|done]. }
  destruct (omit_raw "payload" (rv_Payload e)) as [payload|] eqn:Om; [|done]. destruct (H _ eq_refl) as (P & Ep & Wp). clear H Om.
  intros Ev. assert (value = json_print (envelope_json e payload)) as -> by congruence. clear Ev.
  assert (W : json_wf (envelope_json e payload)) by (apply envelope_wf; intros m M; by apply Wp).
  assert (Dp : json_depth (envelope_json e payload) <= maxNestingDepth) by (apply envelope_depth; intros m M; by apply Wp).
  unfold unmarshal_envelope. rewrite (json_round_trip _ W Dp).
  change (envelope_json e payload) with (JObject (match envelope_json e payload with JObject l => l | _ => [] end)) in *. cbn match.
  rewrite raw_object_print by done. rewrite (decode_envelope_fields e payload P Y1 Y2), Ep. by destruct e.
Qed.

(** ** Signatures *)

Definition envelope_texts (e : RawEnvelope) : list string :=
  [rv_MessageID e; rv_EventID e; rv_TenantID e; rv_CollectorID e; rv_SourceID e; rv_SourceAddress e; rv_Format e; rv_ContentType e;
   rv_SchemaVersion e; rv_RawHash e; rv_Integrity e].

Lemma clean_envelope_utf8 e : Forall utf8 (envelope_texts e) -> clean_envelope e = e {{ rv_Payload := written_payload (rv_Payload e) }}.
Proof.
  unfold envelope_texts. intros U. repeat (apply Forall_cons in U as [? U]). unfold clean_envelope. by rewrite !clean_utf8.
Qed.

Lemma forallb_utf8 P s : (forall c, P c = true -> byte_in 0 127 c = true) -> string_forallb P s = true -> utf8 s.
Proof.
  intros HP. induction s as [|c s IH]; [intros; apply utf8_nil|]. cbn [string_forallb]. intros [C S]%andb_true_iff.
  apply (utf8_cons (String c "")); [by apply chunk1, HP|by apply IH].
Qed.

Lemma hex_utf8 s : string_forallb hex_byte s = true -> utf8 s.
Proof.
  apply forallb_utf8. intros c. unfold hex_byte. rewrite byte_in_spec. assert (R := byte_code_range c).
  rewrite orb_true_iff, !andb_true_iff, !Z.leb_le. lia.
Qed.

Lemma utf8_app s t : utf8 s -> utf8 t -> utf8 (s +:+ t).
Proof. intros S T. induction S as [|chunk s C _ IH]; [done|]. rewrite append_assoc. by apply utf8_cons. Qed.

Lemma tenant_utf8 t : TenantId.Valid t = true -> utf8 t.
Proof.
  intros V. apply (forallb_utf8 TenantId.tenant_byte).
  { intros c. unfold TenantId.tenant_byte, TenantId.isLowerAlphaNumeric. rewrite byte_in_spec, !orb_true_iff, !andb_true_iff, !Z.leb_le.
    intros [? | ->%bool_decide_eq_true]; [lia|by vm_compute]. }
  assert (B := TenantId.Valid_bytes t V). clear V. induction t as [|c t IH]; [done|]. cbn [string_forallb].
  rewrite (B 0%nat c eq_refl). apply IH. intros i d G. by apply (B (S i)).
Qed.

Lemma format_utf8 s : validFormat s = true -> utf8 s.
Proof.
  unfold validFormat. intros [_ F]%andb_true_iff. revert F. apply forallb_utf8. intros c. unfold format_char, is_digit.
  rewrite !orb_true_iff, !byte_in_spec. rewrite bool_decide_eq_true, !elem_of_cons, elem_of_nil.
  intros [[?|D]|[->|[->|[->|[]]]]]; try by vm_compute.
  - lia.
  - all_bytes c; try (vm_compute in D; discriminate D); by vm_compute.
Qed.

Lemma hex_value_digit n : 0 <= n < 16 -> hex_value (hex_digit n) = Some n.
Proof.
  intros H. assert (F : forallb (fun n => bool_decide (hex_value (hex_digit n) = Some n)) (seqZ 0 16) = true) by by vm_compute.
  rewrite forallb_forall in F. assert (I : In n (seqZ 0 16)) by (apply list_elem_of_In, elem_of_seqZ; lia). exact (bool_decide_eq_true_1 _ (F n I)).
Qed.

Lemma hex_round_trip l : Forall (fun b => 0 <= b < 256) l -> hex_bytes (EncodeToString l) = Some l.
Proof.
  unfold hex_bytes. intros R. assert (L := EncodeToString_length l). revert L. generalize (String.length (EncodeToString l)). intros n L.
  assert (Ln : (length l <= n)%nat) by lia. clear L. revert n Ln. induction R as [|b l Hb _ IH]; intros n Ln; [by destruct n|].
  destruct n as [|n]; [cbn in Ln; lia|]. rewrite EncodeToString_cons.
  rewrite (hex_value_digit (b / 16)) by (split; [apply Z.div_pos|apply Z.div_lt_upper_bound]; lia).
  rewrite (hex_value_digit (b mod 16)) by (apply Z.mod_pos_bound; lia). cbn [mbind option_bind].
  rewrite IH by (cbn in Ln; lia). cbn [mbind option_bind]. do 2 f_equal. rewrite Z.mul_comm. symmetry. by apply Z.div_mod.
Qed.

Lemma hmac_length key message : length (hmac key message) = 32%nat.
Proof. apply digest_length. Qed.

(** The checks that do not look at the payload. *)
Definition metadata_ok (e : RawEnvelope) : bool :=
  TenantId.Valid (rv_TenantID e)
  && (validEnvelopeIdentity (rv_MessageID e) 256 && validEnvelopeIdentity (rv_EventID e) 256 && validEnvelopeIdentity (rv_CollectorID e) 256)
  && negb (IsZero (rv_EventTimestamp e) || IsZero (rv_ReceivedAt e) || negb (validFormat (rv_Format e))
           || (rv_SchemaVersion e == "") || (32 <? string_len (rv_SchemaVersion e)))
  && negb ((rv_ContentType e == "") || (128 <? string_len (rv_ContentType e)) || ContainsAny (rv_ContentType e) crlf).

Definition payload_ok (e : RawEnvelope) : Prop :=
  (rv_Payload e = "" \/ rv_RawPayload e = "") /\ PayloadBytes e <> "" /\ string_len (PayloadBytes e) <= MaxEventBytes /\
  (rv_Payload e <> "" -> json_valid (rv_Payload e) = true) /\ rv_RawHash e = "sha256:" +:+ sha256_hex (PayloadBytes e).

Lemma validate_Ok e : validateEnvelopeForIntegrity e = Ok tt <-> metadata_ok e = true /\ payload_ok e.
Proof.
  unfold validateEnvelopeForIntegrity, metadata_ok, payload_ok, integrity_error.
  destruct (TenantId.Valid _); cbn [negb andb]; [|by split; [|intros [? _]]].
  rewrite <- !negb_andb. destruct (validEnvelopeIdentity _ _ && _ && _); cbn [negb andb]; [|by split; [|intros [? _]]].
  destruct (IsZero _ || _ || _ || _ || _); cbn [negb andb]; [by split; [|intros [? _]]|].
  destruct ((rv_ContentType e == "") || _ || _); cbn [negb andb]; [by split; [|intros [? _]]|].
  destruct (decide (rv_Payload e = "")) as [Pe|Pe].
  - rewrite Pe. change (("" != "")) with false. cbn [andb].
    destruct (decide (PayloadBytes e = "")) as [B|B]; [rewrite B; by split; [|naive_solver]|].
    rewrite (bool_decide_eq_false_2 _ B). cbn [orb]. destruct (Z.ltb_spec MaxEventBytes (string_len (PayloadBytes e))); [split; [done|lia]|].
    case_bool_decide; cbn [negb]; naive_solver.
  - rewrite (bool_decide_eq_false_2 _ Pe). cbn [negb andb].
    destruct (decide (rv_RawPayload e = "")) as [Re|Re]; [rewrite (bool_decide_eq_true_2 _ Re)|rewrite (bool_decide_eq_false_2 _ Re); cbn [negb]; naive_solver].
    cbn [negb]. destruct (decide (PayloadBytes e = "")) as [B|B]; [rewrite B; by split; [|naive_solver]|].
    rewrite (bool_decide_eq_false_2 _ B). cbn [orb]. destruct (Z.ltb_spec MaxEventBytes (string_len (PayloadBytes e))); [split; [done|lia]|].
    destruct (json_valid _); cbn [negb]; [|naive_solver]. case_bool_decide; cbn [negb]; naive_solver.
Qed.

Lemma Verify_Ok key e : Verify key e = Ok tt <-> validateEnvelopeForIntegrity e = Ok tt /\
  exists text, rv_Integrity e = envelopeIntegrityPrefix +:+ text /\ hex_bytes text = Some (mac key e).
Proof.
  unfold Verify. destruct (validateEnvelopeForIntegrity e) as [[]|x|] eqn:V; [|by split; [|intros [? _]]..].
  destruct (HasPrefix _ _) eqn:Hp; cbn [negb].
  - destruct (HasPrefix_app _ _ Hp) as [text E]. unfold TrimPrefix. rewrite Hp. rewrite E.
    change (string_drop (String.length envelopeIntegrityPrefix) (envelopeIntegrityPrefix +:+ text)) with text.
    destruct (hex_bytes text) as [actual|] eqn:H.
    + destruct (decide (actual = mac key e)) as [->|N].
      * rewrite (bool_decide_eq_true_2 (mac key e = mac key e)) by done. 
        rewrite (hmac_length key (json_print (signed_json e)) : length (mac key e) = 32%nat). change (Z.of_nat 32 =? 32) with true. cbn [andb].
        split; [|done]. intros _. split; [done|]. exists text. by split.
      * rewrite (bool_decide_eq_false_2 _ N), andb_false_r. split; [done|]. intros (_ & text' & E' & H').
        destruct (append_inj _ _ _ _ eq_refl E') as [_ <-]. congruence.
    + split; [done|]. intros (_ & text' & E' & H'). destruct (append_inj _ _ _ _ eq_refl E') as [_ <-]. congruence.
  - split; [done|]. intros (_ & text & E & _). rewrite E in Hp. unfold HasPrefix in Hp. by rewrite prefix_app_l in Hp.
Qed.

Lemma Sign_Ok key e signed : Sign key e = Ok signed -> metadata_ok e = true /\ payload_ok e /\
  signed = e {{ rv_Integrity := envelopeIntegrityPrefix +:+ EncodeToString (mac key e) }}.
Proof.
  unfold Sign. destruct (validateEnvelopeForIntegrity e) as [[]|x|] eqn:V; [|done..]. apply validate_Ok in V as [Me P].
  intros E. split_and!; [done..|]. by injection E.
Qed.

(** The signature holds for an envelope with another payload as far as the hash
    and the size allow. *)
Lemma signed_verifies key e signed payload : Sign key e = Ok signed ->
  (rv_Payload e = "" -> payload = "") -> (rv_Payload e <> "" -> payload <> "" /\ json_valid payload = true) ->
  let received := signed {{ rv_Payload := payload }} in
  Verify key received = Ok tt <->
  string_len (PayloadBytes received) <= MaxEventBytes /\ sha256_hex (PayloadBytes received) = sha256_hex (PayloadBytes e).
Proof.
  intros H N P. apply Sign_Ok in H as (Me & (X & B & L & J & R) & ->). cbn zeta. rewrite Verify_Ok, validate_Ok.
  set (received := _ {{ rv_Payload := payload }}).
  assert (Mr : metadata_ok received = true) by exact Me.
  assert (I : exists text, rv_Integrity received = envelopeIntegrityPrefix +:+ text /\ hex_bytes text = Some (mac key received)).
  { exists (EncodeToString (mac key e)). split; [done|]. apply hex_round_trip, digest_range. }
  assert (Rr : rv_RawHash received = "sha256:" +:+ sha256_hex (PayloadBytes e)) by exact R.
  assert (Px : payload = "" \/ rv_RawPayload received = "").
  { destruct (decide (rv_Payload e = "")) as [E|E]; [left; auto|right]. by destruct X. }
  assert (Bx : PayloadBytes received <> "").
  { unfold PayloadBytes in B |- *. change (rv_RawPayload received) with (rv_RawPayload e). change (rv_Payload received) with payload.
    case_bool_decide as E; [|done]. destruct (decide (rv_Payload e = "")); [by rewrite E in B|by apply P]. }
  unfold payload_ok. change (rv_Payload received) with payload. rewrite Rr. split.
  - intros [(_ & _ & _ & Ls & _ & Hh) _]. split; [done|]. by destruct (append_inj _ _ _ _ eq_refl Hh) as [_ ->].
  - intros [Ls Hh]. rewrite Hh. split_and!; try done. intros E. destruct (decide (rv_Payload e = "")) as [E'|E']; [by rewrite N in E|by apply P].
Qed.

Section Gateway.
Context {P : Type} {outer : Outside}.

Lemma outside_Ok (effect : Plane P -> Plane P) (w w' : World (Plane P)) : outside effect w = (Ok tt, w') ->
  w' = change_plane effect (change_plane (fun p => p {{ pl_calls ::= S }}) w).
Proof. unfold outside. destruct (os_reply _) as [|e|e|[]]; by intros [= <-]. Qed.

Lemma Publish_Ok e (w w' : World (Plane P)) : Publish e w = (Ok tt, w') -> exists value, marshal_envelope e = Ok value /\
  pl_topic (w_repo w') = pl_topic (w_repo w) ++ [{| kr_Key := kafkaPartitionKey e; kr_Value := value |}].
Proof.
  unfold Publish. intros H. apply bind_Ok in H as (value & w1 & E & H). apply wrapping_Ok in E. unfold lift in E.
  destruct (marshal_envelope e) as [v| |]; [|done..]. injection E as -> <-. exists value. split; [done|].
  apply wrapping_Ok, outside_Ok in H as ->. done.
Qed.

(** What the gateway signs for a submission. *)
Lemma submit_Ok key tenantID collectorID submission canonical (w : World (Plane P)) receipt w' :
  submit key tenantID collectorID submission canonical w = (Ok receipt, w') ->
  exists e signed w1, Sign key e = Ok signed /\ Publish signed w1 = (Ok tt, w') /\ pl_topic (w_repo w1) = pl_topic (w_repo w) /\
    rv_Payload e = (if canonical then sb_Payload submission else "") /\ rv_RawPayload e = (if canonical then "" else sb_Payload submission) /\
    rv_TenantID e = TrimSpace tenantID /\ rv_CollectorID e = TrimSpace collectorID /\ rv_SourceID e = TrimSpace (sb_SourceID submission) /\
    rv_SourceAddress e = TrimSpace (sb_SourceAddress submission) /\ rv_EventID e = re_EventID receipt /\ rv_MessageID e = re_MessageID receipt /\
    rv_ContentType e = (if TrimSpace (sb_ContentType submission) == "" then "application/octet-stream" else TrimSpace (sb_ContentType submission)) /\
    rv_SchemaVersion e = "3" /\ rv_RawHash e = "sha256:" +:+ sha256_hex (sb_Payload submission) /\
    (exists n, rv_MessageID e = NewID "msg" (rt_random (w_rt w) n)) /\
    (rv_EventID e = TrimSpace (sb_EventID submission) \/ exists bytes, Forall (fun b => 0 <= b < 256) bytes /\ rv_EventID e = "evt_" +:+ EncodeToString bytes).
Proof.
  unfold submit. cbv zeta. intros H.
  repeat (match type of H with (if ?b then invalid _ else _) _ = _ => destruct b; [done|] end).
  apply bind_Ok in H as (now & w1 & N & H). injection N as <- <-.
  match type of H with (if ?b then invalid _ else _) _ = _ => destruct b; [done|] end.
  apply bind_Ok in H as (random & w2 & R & H). injection R as <- <-.
  apply bind_Ok in H as (signed & w3 & S & H). apply wrapping_Ok in S.
  match type of S with lift (Sign _ ?x) _ = _ => set (e := x) in * end.
  unfold lift in S. destruct (Sign key e) as [s| |] eqn:Es; [|done..]. injection S as -> <-.
  apply bind_Ok in H as ([] & w4 & Pb & H). apply wrapping_Ok in Pb. injection H as <- <-.
  assert (Eq := Es). apply Sign_Ok in Eq as (_ & _ & Eq). subst signed.
  eexists e, _, _. split; [exact Es|]. split; [exact Pb|]. split_and!; try done; [eexists; reflexivity|].
  subst e. cbn [rv_EventID]. case_bool_decide; [right|by left].
  eexists. split; [|reflexivity]. apply Forall_take, digest_range.
Qed.

End Gateway.

(** The texts of an envelope the gateway signed. *)
Lemma signed_texts key e : metadata_ok e = true -> Forall utf8 [rv_MessageID e; rv_EventID e; rv_CollectorID e; rv_SourceID e; rv_SourceAddress e;
    rv_ContentType e; rv_SchemaVersion e; rv_RawHash e] ->
  Forall utf8 (envelope_texts (e {{ rv_Integrity := envelopeIntegrityPrefix +:+ EncodeToString (mac key e) }})).
Proof.
  unfold metadata_ok. rewrite !andb_true_iff, negb_true_iff. intros [[[Tv _] Fv] _].
  rewrite !orb_false_iff, negb_false_iff in Fv. destruct Fv as [[[_ Fv] _] _]. rewrite !Forall_cons, Forall_nil. intros U.
  change (envelope_texts _) with [rv_MessageID e; rv_EventID e; rv_TenantID e; rv_CollectorID e; rv_SourceID e; rv_SourceAddress e;
    rv_Format e; rv_ContentType e; rv_SchemaVersion e; rv_RawHash e; envelopeIntegrityPrefix +:+ EncodeToString (mac key e)].
  rewrite !Forall_cons, Forall_nil. assert (utf8 (rv_TenantID e)) by by apply tenant_utf8.
  assert (utf8 (rv_Format e)) by by apply format_utf8. split_and!; try apply U; try done.
  apply utf8_app; [by apply valid_utf8_utf8|]. apply hex_utf8, EncodeToString_hex, digest_range.
Qed.

Lemma written_payload_valid payload : json_valid payload = true -> written_payload payload <> "" /\ json_valid (written_payload payload) = true.
Proof.
  unfold json_valid, written_payload. destruct (json_parse payload) as [v|] eqn:V; [|done]. intros _.
  apply json_parse_wf in V as [W D]. destruct (print_head _ (escape_json_wf v W)) as (c & t & E & _).
  split; [by rewrite E|]. rewrite json_round_trip; [done|by apply escape_json_wf|by rewrite escape_json_depth].
Qed.

Section Published.
Context {P : Type} {outer : Outside}.

(** C16. An event the gateway accepts, under three conditions, is one record at
    the end of the topic, and the processor decodes it whole: the identities,
    the message and event identifiers of the receipt, and the payload, byte for
    byte for any format but the canonical one, whose document is written again
    without blanks and with the characters of HTML escaped.  Its signature holds
    exactly when the payload that arrives has the size and the hash of the one
    submitted: always for raw payloads, and for a canonical event if it was
    already written that way.

    The conditions: the collector, content type, event identifier and source of
    the submission are valid UTF-8 ([UTF8]), as are the random identifiers drawn
    ([RANDOM]), for the encoder replaces other bytes by U+FFFD after the
    signature was made; and a canonical payload is nested less deep than the
    decoder's limit of ten thousand ([DEPTH]), for the envelope adds a level.
    The gateway also accepts submissions outside of them, from which the
    processor cannot recover what was signed. *)
Theorem published_event_verifies key tenantID collectorID submission canonical (w : World (Plane P)) receipt w'
    (ACCEPTED : submit key tenantID collectorID submission canonical w = (Ok receipt, w'))
    (UTF8 : Forall (fun s => utf8 (TrimSpace s))
      [collectorID; sb_ContentType submission; sb_EventID submission; sb_SourceID submission; sb_SourceAddress submission])
    (RANDOM : forall n, utf8 (rt_random (w_rt w) n))
    (DEPTH : canonical = true -> forall v, json_parse (sb_Payload submission) = Some v -> json_depth v < maxNestingDepth) :
  exists record envelope,
    pl_topic (w_repo w') = pl_topic (w_repo w) ++ [record] /\ unmarshal_envelope (kr_Value record) = (envelope, true) /\
    rv_TenantID envelope = TrimSpace tenantID /\ rv_CollectorID envelope = TrimSpace collectorID /\
    rv_SourceID envelope = TrimSpace (sb_SourceID submission) /\ rv_EventID envelope = re_EventID receipt /\
    rv_MessageID envelope = re_MessageID receipt /\
    PayloadBytes envelope = (if canonical then written_payload (sb_Payload submission) else sb_Payload submission) /\
    (Verify key envelope = Ok tt <->
     string_len (PayloadBytes envelope) <= MaxEventBytes /\ sha256_hex (PayloadBytes envelope) = sha256_hex (sb_Payload submission)).
Proof.
  apply submit_Ok in ACCEPTED as (e & signed & w1 & S & Pb & T & Ep & Er & Et & Ec & Es & Ea & Ee & Em & Ect & Ev & Eh & [n En] & Eid).
  apply Publish_Ok in Pb as (value & Mv & Tw). rewrite T in Tw.
  destruct (Sign_Ok _ _ _ S) as (Meta & (_ & B & _ & J & _) & Eq).
  assert (U : Forall utf8 (envelope_texts signed)).
  { assert (K : forall s, valid_utf8 s = true -> utf8 s) by apply valid_utf8_utf8. rewrite !Forall_cons in UTF8. rewrite Eq.
    apply signed_texts; [done|]. rewrite !Forall_cons, Forall_nil, En, Ec, Es, Ea, Ect, Ev, Eh. unfold NewID. split_and!; try apply UTF8; try done.
    - apply utf8_app; [by apply K|]. apply utf8_app; [by apply K|done].
    - destruct Eid as [-> | (bytes & Rb & ->)]; [apply UTF8|]. apply utf8_app; [by apply K|]. by apply hex_utf8, EncodeToString_hex.
    - case_bool_decide; [by apply K|apply UTF8].
    - by apply K.
    - apply utf8_app; [by apply K|]. apply hex_utf8, sha256_hex_hex. }
  assert (D : payload_fits signed).
  { unfold payload_fits. rewrite Eq. change (rv_Payload (e {{ rv_Integrity := _ }})) with (rv_Payload e). rewrite Ep.
    destruct canonical; [by apply DEPTH|done]. }
  assert (Be : PayloadBytes e = sb_Payload submission).
  { unfold PayloadBytes in B |- *. rewrite Er, Ep in *. destruct canonical; [done|]. by case_bool_decide. }
  assert (V := signed_verifies key e signed (written_payload (rv_Payload e)) S ltac:(by intros ->) ltac:(intros X; by apply written_payload_valid, J)).
  cbn zeta in V. rewrite Be in V.
  eexists _, _. split; [exact Tw|]. cbn [kr_Value]. rewrite (unmarshal_published signed value D Mv), clean_envelope_utf8 by done.
  split; [reflexivity|]. rewrite Eq in *. split_and!; [exact Et|exact Ec|exact Es|exact Ee|exact Em| |exact V].
  unfold PayloadBytes in B, Be |- *. cbn. rewrite Er, Ep in *. destruct canonical; [done|]. by case_bool_decide.
Qed.

End Published.

(** ** What a signature protects *)

(** The ten members under the signature. *)
Definition signed_fields (e : RawEnvelope) : list string * (Time * Time) :=
  ([rv_MessageID e; rv_EventID e; rv_TenantID e; rv_CollectorID e; rv_Format e; rv_ContentType e; rv_SchemaVersion e; rv_RawHash e],
   (rv_EventTimestamp e, rv_ReceivedAt e)).

Definition envelope_readable (e : RawEnvelope) : Prop :=
  Forall utf8 (envelope_texts e) /\ year_ok (rv_EventTimestamp e) = true /\ year_ok (rv_ReceivedAt e) = true.

Definition signed_message (e : RawEnvelope) : string := json_print (signed_json e).

Lemma json_text_inj s t : utf8 s -> utf8 t -> json_text s = json_text t -> s = t.
Proof. intros S T E. by rewrite <- (json_text_unquote s S), <- (json_text_unquote t T), E. Qed.

Lemma time_text_inj t u : year_ok t = true -> year_ok u = true ->
  json_text (FormatRFC3339Nano t) = json_text (FormatRFC3339Nano u) -> t = u.
Proof.
  unfold year_ok. rewrite !andb_true_iff, !Z.leb_le. intros T U E.
  assert (Ut : forall t, utf8 (FormatRFC3339Nano t)).
  { intros x. apply (forallb_utf8 plain_char); [|apply RFC3339_plain]. intros c. unfold plain_char. rewrite andb_true_iff, !byte_in_spec. lia. }
  apply json_text_inj in E; [|apply Ut..]. assert (X := RFC3339_round_trip t T). rewrite E, RFC3339_round_trip in X by done. by injection X.
Qed.

Lemma signed_json_wf e : json_wf (signed_json e).
Proof.
  assert (N : forall s, string_forallb plain_char s = true -> scans s) by apply scans_plain.
  cbn [json_wf signed_json foldr fst snd text_value].
  split_and!; first [by apply N|apply json_text_scans|exact I].
Qed.

Lemma signed_json_depth e : json_depth (signed_json e) <= maxNestingDepth.
Proof. change (json_depth (signed_json e)) with 1. unfold maxNestingDepth. lia. Qed.

Lemma cons_eq {A} (x y : A) l k : x :: l = y :: k -> x = y /\ l = k.
Proof. by intros [= -> ->]. Qed.

Definition raw_values (v : Json) : list string :=
  match v with JObject members => List.map (fun m => match m.2 with JString raw => raw | _ => "" end) members | _ => [] end.

Lemma signed_message_inj e1 e2 : envelope_readable e1 -> envelope_readable e2 -> signed_message e1 = signed_message e2 ->
  signed_fields e1 = signed_fields e2.
Proof.
  intros (U1 & Y1 & Z1) (U2 & Y2 & Z2) E.
  assert (J : signed_json e1 = signed_json e2).
  { assert (X := json_round_trip _ (signed_json_wf e1) (signed_json_depth e1)). unfold signed_message in E.
    rewrite E, (json_round_trip _ (signed_json_wf e2) (signed_json_depth e2)) in X.
    generalize dependent (signed_json e1). intros v1 _ X. by injection X as ->. }
  unfold envelope_texts in U1, U2. rewrite !Forall_cons in U1, U2.
  assert (R := f_equal raw_values J). cbv [raw_values signed_json text_value List.map snd] in R. clear J E.
  apply cons_eq in R as [J1 R]. apply cons_eq in R as [J2 R]. apply cons_eq in R as [J3 R]. apply cons_eq in R as [J4 R].
  apply cons_eq in R as [J5 R]. apply cons_eq in R as [J6 R]. apply cons_eq in R as [J7 R]. apply cons_eq in R as [J8 R].
  apply cons_eq in R as [J9 R]. apply cons_eq in R as [J10 _]. apply time_text_inj in J5; [|done..]. apply time_text_inj in J6; [|done..].
  repeat match goal with J : json_text _ = json_text _ |- _ => apply json_text_inj in J; [|apply U1|apply U2] end.
  unfold signed_fields. congruence.
Qed.

(** C17. A signature stands for one event: when two envelopes carry the same
    signature and both verify, their signed messages have the same HMAC, and
    unless these two messages collide the envelopes agree on the identifiers,
    tenant, collector, times, format, content type and schema, and their
    payloads have the same hash. *)
Theorem signature_binds_event key e1 e2
    (VERIFIED1 : Verify key e1 = Ok tt) (VERIFIED2 : Verify key e2 = Ok tt)
    (READABLE1 : envelope_readable e1) (READABLE2 : envelope_readable e2)
    (SAME : rv_Integrity e1 = rv_Integrity e2) :
  hmac key (signed_message e1) = hmac key (signed_message e2) /\
  (signed_message e1 = signed_message e2 ->
   signed_fields e1 = signed_fields e2 /\ sha256_hex (PayloadBytes e1) = sha256_hex (PayloadBytes e2)).
Proof.
  apply Verify_Ok in VERIFIED1 as (V1 & t1 & E1 & H1). apply Verify_Ok in VERIFIED2 as (V2 & t2 & E2 & H2).
  rewrite SAME, E2 in E1. destruct (append_inj _ _ _ _ eq_refl E1) as [_ ->]. split; [unfold mac in *; unfold signed_message; congruence|].
  intros E. assert (F := signed_message_inj e1 e2 READABLE1 READABLE2 E). split; [done|].
  apply validate_Ok in V1 as (_ & _ & _ & _ & _ & R1). apply validate_Ok in V2 as (_ & _ & _ & _ & _ & R2).
  assert (Rh : rv_RawHash e1 = rv_RawHash e2) by (unfold signed_fields in F; by injection F).
  rewrite R1, R2 in Rh. by destruct (append_inj _ _ _ _ eq_refl Rh) as [_ ->].
Qed.

(** The name and the address of the source are not signed. *)
Lemma source_identity_unprotected key e sourceID sourceAddress :
  Verify key (e {{ rv_SourceID := sourceID; rv_SourceAddress := sourceAddress }}) = Verify key e.
Proof. reflexivity. Qed.

Lemma source_identity_unsigned e sourceID sourceAddress :
  signed_message (e {{ rv_SourceID := sourceID; rv_SourceAddress := sourceAddress }}) = signed_message e.
Proof. reflexivity. Qed.

(** ** What the processor acknowledges

    A pipeline promises that an event it has taken is still there after any
    later call. *)

Class PipelineLaws (P : Type) `{!DetectionPipeline P} : Type := {
  dp_has : string -> CanonicalEvent -> P -> Prop;
  dp_Ingest_has : forall ctx t event w r w', TenantId.Valid t = true -> dp_Ingest ctx t event w = (Ok r, w') -> dp_has t event (w_repo w');
  dp_Ingest_keeps : forall ctx t event t' event' w, TenantId.Valid t = true ->
    dp_has t' event' (w_repo w) -> dp_has t' event' (w_repo (dp_Ingest ctx t event w).2)
}.

Section Processing.
Context {P : Type} `{!DetectionPipeline P} {laws : PipelineLaws P} {outer : Outside} (key : string).

#[local] Abbreviation PW := (World (Plane P)).

(** The envelope in a record is whole and its signature holds. *)
Definition admitted (record : KafkaRecord) (e : RawEnvelope) : Prop :=
  unmarshal_envelope (kr_Value record) = (e, true) /\ Verify key e = Ok tt.

(** A record is settled: its envelope is in the dead letters, or it was
    admitted, is stored and its event is in the platform. *)
Definition settled (p : Plane P) (record : KafkaRecord) : Prop :=
  (exists d, d ∈ pl_dead p /\ dl_Envelope d = (unmarshal_envelope (kr_Value record)).1) \/
  exists e event, admitted record e /\ e ∈ pl_stored p /\ os_parse e = Ok event /\ dp_has (rv_TenantID e) event (pl_platform p).

(** What the handling of records does to the data plane. *)
Record handles (allowed : RawEnvelope -> Prop) (w w' : PW) : Prop := {
  hd_topic : pl_topic (w_repo w') = pl_topic (w_repo w);
  hd_committed : pl_committed (w_repo w') = pl_committed (w_repo w);
  hd_dead : pl_dead (w_repo w) ⊆ pl_dead (w_repo w');
  hd_stored : pl_stored (w_repo w) ⊆ pl_stored (w_repo w');
  hd_allowed : forall e, e ∈ pl_stored (w_repo w') -> e ∈ pl_stored (w_repo w) \/ allowed e;
  hd_has : forall t event, dp_has t event (pl_platform (w_repo w)) -> dp_has t event (pl_platform (w_repo w'))
}.

#[local] Instance handles_preorder allowed : PreOrder (handles allowed).
Proof.
  split; [intros w; by split; auto|]. intros w1 w2 w3 [T1 C1 D1 S1 A1 H1] [T2 C2 D2 S2 A2 H2].
  split; [congruence|congruence|by etransitivity|by etransitivity| |by auto]. intros e E. destruct (A2 e E); auto.
Qed.

Lemma handles_weaken (a b : RawEnvelope -> Prop) w w' : (forall e, a e -> b e) -> handles a w w' -> handles b w w'.
Proof. intros I [T C D S A H]. split; [done..| |done]. intros e E. destruct (A e E); auto. Qed.

Lemma handles_settled allowed w w' record : handles allowed w w' -> settled (w_repo w) record -> settled (w_repo w') record.
Proof.
  intros [T C D S A H] [(d & Dd & E) | (e & event & Ad & St & Pa & Ha)].
  - left. exists d. split; [by apply D|done].
  - right. exists e, event. split_and!; [done|by apply S|done|by apply H].
Qed.

Lemma handles_outside allowed (effect : Plane P -> Plane P) :
  (forall w : PW, handles allowed w (change_plane effect w)) -> evolves (handles allowed) (outside effect).
Proof.
  intros E w. assert (K : handles allowed w (change_plane (fun p => p {{ pl_calls ::= S }}) w)) by (split; cbn; auto).
  unfold outside. destruct (os_reply _) as [|e|e|[]]; cbn [fst snd]; try exact K; (etransitivity; [exact K|apply E]).
Qed.

Lemma handles_PutRawEnvelope e : evolves (handles (eq e)) (PutRawEnvelope e).
Proof.
  apply handles_outside. intros w. split; cbn; try done; [set_solver|]. intros x. rewrite elem_of_app, list_elem_of_singleton. naive_solver.
Qed.

Lemma deadLetter_handles allowed e stage cause : evolves (handles allowed) (deadLetter e stage cause).
Proof.
  unfold deadLetter. apply (evolves_bind _); [intros w; by split; auto|]. intros now. apply (evolves_wrapping _).
  unfold PublishDeadLetter. apply (evolves_bind _).
  { apply (evolves_wrapping _). intros w. unfold lift. destruct (let? _ := _ in _); by split; auto. }
  intros _. apply (evolves_wrapping _), handles_outside. intros w. split; cbn; try done; [set_solver|auto].
Qed.

Lemma deadLetter_Ok e stage cause (w w' : PW) : deadLetter e stage cause w = (Ok tt, w') ->
  exists d, d ∈ pl_dead (w_repo w') /\ dl_Envelope d = e.
Proof.
  unfold deadLetter. intros E. apply bind_Ok in E as (now & w1 & _ & E). apply wrapping_Ok in E. unfold PublishDeadLetter in E.
  apply bind_Ok in E as ([] & w2 & _ & E). apply wrapping_Ok, outside_Ok in E as ->. cbn. eexists. split; [apply elem_of_app; right; by apply list_elem_of_singleton|done].
Qed.

Lemma handles_Ingest allowed ctx t event : TenantId.Valid t = true -> evolves (handles allowed) (on_platform (dp_Ingest ctx t event)).
Proof.
  intros V w. unfold on_platform. assert (K := fun t' event' => dp_Ingest_keeps ctx t event t' event' (mkWorld (pl_platform (w_repo w)) (w_rt w)) V).
  destruct (dp_Ingest _ _ _ _) as [r v]. split; cbn; auto.
Qed.

Lemma admitted_tenant record e : admitted record e -> TenantId.Valid (rv_TenantID e) = true.
Proof.
  intros [_ V]. apply Verify_Ok in V as [V _]. apply validate_Ok in V as [M _]. unfold metadata_ok in M. rewrite !andb_true_iff in M. apply M.
Qed.

(** One record: whatever happens only admitted envelopes are stored, and when
    the call works the record is settled. *)
Lemma processRecord_spec record w r w' : processRecord key record w = (r, w') ->
  handles (admitted record) w w' /\ (r = Ok tt -> settled (w_repo w') record).
Proof.
  unfold processRecord, settled. destruct (unmarshal_envelope (kr_Value record)) as [e decoded] eqn:U. cbn [fst].
  assert (DL : forall stage cause (v v' : PW), handles (admitted record) w v -> deadLetter e stage cause v = (r, v') ->
    handles (admitted record) w v' /\ (r = Ok tt -> (exists d, d ∈ pl_dead (w_repo v') /\ dl_Envelope d = e) \/
      exists e0 event, admitted record e0 /\ e0 ∈ pl_stored (w_repo v') /\ os_parse e0 = Ok event /\ dp_has (rv_TenantID e0) event (pl_platform (w_repo v')))).
  { intros stage cause v v' H E. split.
    - etransitivity; [exact H|]. assert (K := deadLetter_handles (admitted record) e stage cause v). by rewrite E in K.
    - intros ->. left. by eapply deadLetter_Ok. }
  destruct decoded; cbn [negb]; [|apply DL; reflexivity].
  destruct (Verify key e) as [[]|x|] eqn:V; [|apply DL; reflexivity|intros [= <- <-]; split; [reflexivity|done]].
  assert (Ad : admitted record e) by done. unfold bind, wrapping.
  assert (Hp := handles_PutRawEnvelope e w). assert (Hk := outside_Ok (fun p => p {{ pl_stored ::= fun l => l ++ [e] }}) w).
  unfold PutRawEnvelope in *. apply (handles_weaken _ (admitted record)) in Hp; [|by intros ? <-].
  destruct (outside _ w) as [[[]|x|] w1]; cbn [snd] in Hp; [|intros [= <- <-]; by split..].
  assert (St : e ∈ pl_stored (w_repo w1)) by (rewrite (Hk w1 eq_refl); cbn; set_solver). clear Hk.
  destruct (os_parse e) as [event|x|] eqn:Pe; [|by apply DL|intros [= <- <-]; by split].
  assert (Hi := handles_Ingest (admitted record) (os_context (pl_calls (w_repo w1))) _ event (admitted_tenant _ _ Ad) w1).
  unfold on_platform in *. destruct (dp_Ingest _ _ _ _) as [o v] eqn:Ei. cbn [snd] in Hi.
  assert (H2 : handles (admitted record) w {| w_repo := (w_repo w1) {{ pl_platform := w_repo v }}; w_rt := w_rt v |}) by by etransitivity.
  destruct o as [ir|x|]; [|by apply DL|intros [= <- <-]; by split].
  intros [= <- <-]. split; [exact H2|]. intros _. right. exists e, event. split_and!; [done|exact St|done|].
  exact (dp_Ingest_has _ _ _ _ _ _ (admitted_tenant _ _ Ad) Ei).
Qed.

Lemma in_flight_spec records late (w : PW) : handles (fun e => exists record, record ∈ records /\ admitted record e) w (in_flight key records late w).2.
Proof.
  revert late w. induction records as [|record records IH]; intros [|late] w; try reflexivity. cbn [in_flight].
  destruct (processRecord key record w) as [r w1] eqn:E. apply processRecord_spec in E as [H _].
  apply (handles_weaken _ (fun e => exists record', record' ∈ record :: records /\ admitted record' e)) in H; [|intros e A; exists record; set_solver].
  destruct r; [|..|exact H]; (etransitivity; [exact H|]; eapply handles_weaken; [|apply IH]; cbn; intros en (x & X & A); exists x; set_solver).
Qed.

Lemma process_each_spec word records late (w : PW) r w' : process_each key word records late w = (r, w') ->
  handles (fun e => exists record, record ∈ records /\ admitted record e) w w' /\
  (r = Ok tt -> forall record, record ∈ records -> settled (w_repo w') record).
Proof.
  revert w. induction records as [|record records IH]; intros w; cbn [process_each].
  { intros [= <- <-]. split; [reflexivity|]. intros _ x X. by apply elem_of_nil in X. }
  destruct (processRecord key record w) as [o w1] eqn:E. apply processRecord_spec in E as [H S].
  apply (handles_weaken _ (fun e => exists record', record' ∈ record :: records /\ admitted record' e)) in H; [|intros e A; exists record; set_solver].
  assert (More : forall v, handles (fun e => exists record', record' ∈ records /\ admitted record' e) w1 v ->
    handles (fun e => exists record', record' ∈ record :: records /\ admitted record' e) w v).
  { intros v K. etransitivity; [exact H|]. eapply handles_weaken; [|exact K]. cbn. intros e (x & X & A). exists x. set_solver. }
  destruct o as [[]|x|].
  - intros E. apply IH in E as [K T]. split; [by apply More|]. intros R y. rewrite elem_of_cons. intros [-> | Y]; [|by apply T].
    eapply handles_settled; [exact K|by apply S].
  - assert (K := in_flight_spec records late w1). unfold bind. destruct (in_flight key records late w1) as [[[]|y|] w2];
      intros [= <- <-]; (split; [by apply More|done]).
  - intros [= <- <-]. by split.
Qed.

End Processing.

Section Plane.
Context {P : Type} `{!DetectionPipeline P} {laws : PipelineLaws P} {outer : Outside} (key : string).

#[local] Abbreviation PW := (World (Plane P)).

(** What a gateway does to the data plane. *)
Record publishes (w w' : PW) : Prop := {
  pb_topic : exists more, pl_topic (w_repo w') = pl_topic (w_repo w) ++ more;
  pb_committed : pl_committed (w_repo w') = pl_committed (w_repo w);
  pb_dead : pl_dead (w_repo w') = pl_dead (w_repo w);
  pb_stored : pl_stored (w_repo w') = pl_stored (w_repo w);
  pb_platform : pl_platform (w_repo w') = pl_platform (w_repo w)
}.

#[local] Instance publishes_preorder : PreOrder publishes.
Proof.
  split; [intros w; split; try done; exists []; by rewrite app_nil_r|].
  intros w1 w2 w3 [[m1 T1] C1 D1 S1 F1] [[m2 T2] C2 D2 S2 F2]. split; try congruence.
  exists (m1 ++ m2). by rewrite T2, T1, app_assoc.
Qed.

Lemma publishes_silent (w w' : PW) : w_repo w' = w_repo w -> publishes w w'.
Proof. intros E. split; try by rewrite E. exists []. by rewrite E, app_nil_r. Qed.

Lemma Publish_publishes e : evolves publishes (Publish e).
Proof.
  unfold Publish. apply (evolves_bind _).
  { apply (evolves_wrapping _). intros w. apply publishes_silent. unfold lift. by destruct (marshal_envelope e). }
  intros value. apply (evolves_wrapping _). intros w. unfold outside.
  destruct (os_reply _) as [|x|x|[]]; (split; [|done..]); cbn; eauto; exists []; by rewrite app_nil_r.
Qed.

Lemma submit_publishes tenantID collectorID submission canonical : evolves publishes (submit key tenantID collectorID submission canonical).
Proof.
  unfold submit. cbv zeta. repeat (apply (evolves_if _); [apply (evolves_fail _)|]).
  apply (evolves_bind _); [intros w; by apply publishes_silent|]. intros now.
  apply (evolves_if _); [apply (evolves_fail _)|].
  apply (evolves_bind _); [intros w; by apply publishes_silent|]. intros random.
  apply (evolves_bind _); [apply (evolves_wrapping _); intros w; apply publishes_silent; unfold lift; by destruct (Sign _ _)|]. intros signed.
  apply (evolves_bind _); [apply (evolves_wrapping _), Publish_publishes|]. intros _. apply (evolves_ret _).
Qed.

Lemma SubmitRaw_publishes tenantID collectorID submission : evolves publishes (SubmitRaw key tenantID collectorID submission).
Proof.
  unfold SubmitRaw. apply (evolves_if _); [|apply submit_publishes].
  unfold SubmitJSON. cbv zeta. do 2 (apply (evolves_if _); [apply (evolves_fail _)|]).
  destruct (decode_header _); [|apply (evolves_fail _)]. do 2 (apply (evolves_if _); [apply (evolves_fail _)|]). apply submit_publishes.
Qed.

(** The records after those committed, as far as they were fetched. *)
Definition fetched (n : nat) (p : Plane P) : list KafkaRecord := take n (drop (pl_committed p) (pl_topic p)).

(** Gateways submit, anyone who reaches the topic appends to it, and a
    processor handles a fetched block; any of these calls may fail half way or
    end its process. *)
Inductive plane_step (maxWorkers : Z) (w : PW) : PW -> Prop :=
  | step_submit tenantID collectorID submission : plane_step maxWorkers w (SubmitRaw key tenantID collectorID submission w).2
  | step_append record : plane_step maxWorkers w (change_plane (fun p => p {{ pl_topic ::= fun l => l ++ [record] }}) w)
  | step_process n order late : schedule_ok maxWorkers (fetched n (w_repo w)) order late ->
      plane_step maxWorkers w (process_block key maxWorkers (fetched n (w_repo w)) order late w).2.

Record plane_ok (p : Plane P) : Prop := {
  po_committed : (pl_committed p <= length (pl_topic p))%nat;
  po_settled : forall record, record ∈ take (pl_committed p) (pl_topic p) -> settled key p record;
  po_admitted : forall e, e ∈ pl_stored p -> exists record, record ∈ pl_topic p /\ admitted key record e
}.

Lemma plane_ok_calls p : plane_ok p -> plane_ok (p {{ pl_calls ::= S }}).
Proof. intros [Co Se Ad]. by split. Qed.

Lemma publishes_ok w w' : publishes w w' -> plane_ok (w_repo w) -> plane_ok (w_repo w').
Proof.
  intros [[more T] C D St Pf] [Co Se Ad]. split; rewrite ?C, ?St, ?T.
  - rewrite length_app. lia.
  - intros record R. rewrite take_app_le in R by done. destruct (Se record R) as [(d & Dd & E)|(e & event & A & Es & Pa & Ha)].
    + left. exists d. by rewrite D.
    + right. exists e, event. by rewrite St, Pf.
  - intros e E. destruct (Ad e E) as (record & R & A). exists record. split; [set_solver|done].
Qed.

Lemma handles_ok (records : list KafkaRecord) (w w' : PW) : (forall record, record ∈ records -> record ∈ pl_topic (w_repo w)) ->
  handles (fun e => exists record, record ∈ records /\ admitted key record e) w w' -> plane_ok (w_repo w) -> plane_ok (w_repo w').
Proof.
  intros F H [Co Se Ad]. assert (H' := H). destruct H' as [T C D St A Ha]. split; rewrite ?T, ?C.
  - done.
  - intros record R. eapply handles_settled; [exact H|by apply Se].
  - intros e Es. destruct (A e Es) as [X|(record & R & X)]; [by apply Ad|]. exists record. split; [by apply F|done].
Qed.

Lemma process_block_ok maxWorkers n order late (w : PW) : order ≡ₚ fetched n (w_repo w) ->
  plane_ok (w_repo w) -> plane_ok (w_repo (process_block key maxWorkers (fetched n (w_repo w)) order late w).2).
Proof.
  intros Perm Ok. set (block := fetched n (w_repo w)) in *. unfold process_block, bind. cbv zeta. set (word := if _ =? 1 then _ else _).
  destruct (process_each key word order late w) as [r w1] eqn:E. apply process_each_spec in E as [H S].
  assert (In : forall record, record ∈ order -> record ∈ pl_topic (w_repo w)).
  { intros record. rewrite Perm. unfold block, fetched. intros R%elem_of_take. destruct R as (i & R & _). rewrite lookup_drop in R.
    by apply list_elem_of_lookup_2 in R. }
  assert (Ok1 := handles_ok order w w1 In H Ok).
  destruct r as [[]|x|]; [|exact Ok1..]. specialize (S eq_refl). destruct (bool_decide (block = [])); [exact Ok1|].
  assert (Commit : plane_ok ((w_repo w1) {{ pl_committed ::= fun n => (n + length block)%nat }})).
  { destruct Ok1 as [Co Se Ad]. destruct H as [T C _ _ _ _].
    assert (L : (pl_committed (w_repo w1) + length block <= length (pl_topic (w_repo w1)))%nat).
    { unfold block, fetched. rewrite length_take, length_drop, T, C in *. lia. }
    split; cbn; [done| |done]. intros record R.
    assert (Sp : take (pl_committed (w_repo w1) + length block) (pl_topic (w_repo w1)) =
      take (pl_committed (w_repo w1)) (pl_topic (w_repo w1)) ++ block).
    { rewrite T, C, <- take_take_drop. f_equal. unfold block, fetched. rewrite length_take.
      destruct (Nat.min_spec n (length (drop (pl_committed (w_repo w)) (pl_topic (w_repo w))))) as [[Ln ->]|[Ln ->]]; [done|].
      by rewrite !take_ge by lia. }
    change (record ∈ take (pl_committed (w_repo w1) + length block) (pl_topic (w_repo w1))) in R.
    rewrite Sp, elem_of_app in R. change (settled key (w_repo w1) record). destruct R as [R|R]; [by apply Se|]. apply S. by rewrite Perm. }
  unfold wrapping, outside. destruct (os_reply _) as [|x|x|[]]; cbn [fst snd]; (exact (plane_ok_calls _ Commit) || exact (plane_ok_calls _ Ok1)).
Qed.

(** C15. No event is acknowledged before it is dealt with: over any calls of
    gateways and processors, with any records that others put into the topic,
    any failures and crashes of Kafka, of the store and of the pipeline, any
    number of workers and any order in which they finish, every committed record
    is either in the dead letters, with the envelope as far as it was decoded, or
    its signature was verified, its envelope is stored and the event parsed from
    it is in the platform.  And nothing is ever stored but verified envelopes of
    the topic. *)
Theorem committed_records_are_settled maxWorkers (w w' : PW)
    (FRESH : pl_committed (w_repo w) = O) (EMPTY : pl_stored (w_repo w) = [])
    (RUN : rtc (plane_step maxWorkers) w w') :
  (pl_committed (w_repo w') <= length (pl_topic (w_repo w')))%nat /\
  (forall i record, (i < pl_committed (w_repo w'))%nat -> pl_topic (w_repo w') !! i = Some record -> settled key (w_repo w') record) /\
  (forall e, e ∈ pl_stored (w_repo w') -> exists record, record ∈ pl_topic (w_repo w') /\ admitted key record e).
Proof.
  assert (Ok : plane_ok (w_repo w')).
  { assert (Start : plane_ok (w_repo w)).
    { split; rewrite ?FRESH, ?EMPTY; [lia|intros record R; by apply elem_of_nil in R|intros e R; by apply elem_of_nil in R]. }
    clear FRESH EMPTY. induction RUN as [|w w1 w2 S _ IH]; [done|]. apply IH. destruct S as [t c s|record|n order late [Perm _]].
    - eapply publishes_ok; [apply SubmitRaw_publishes|done].
    - eapply publishes_ok; [|done]. by split; [exists [record]|..].
    - by apply process_block_ok. }
  destruct Ok as [Co Se Ad]. split_and!; [done| |done]. intros i record I R. apply Se.
  apply elem_of_take. eauto.
Qed.

End Plane.

(** ** The pipeline of the program *)

Section Platform.
Context (content : option ContentProvider) (decode : string -> option sigmaDocument).
#[local] Instance platform_port : PipelineRepository Memory := memory_with content.

#[export] Instance detection_service : DetectionPipeline (Platform Memory) := {| dp_Ingest := Ingest decode |}.

(** The event is in the store, under its identifier or, if it had none, under
    one that was drawn. *)
Definition in_store (t : string) (event : CanonicalEvent) (p : Platform Memory) : Prop :=
  exists id stored, (ev_ID event <> "" -> id = ev_ID event) /\ lookup2 (m_events (pf_store p)) t id = Some stored.

Lemma normalize_id t input (w : PipelineWorld) event w' : normalize t input w = (Ok event, w') -> ev_ID input <> "" -> ev_ID event = ev_ID input.
Proof.
  unfold normalize. intros E N. apply bind_Ok in E as (? & ? & _ & E). apply bind_Ok in E as (now & ? & _ & E).
  apply bind_Ok in E as (id & w1 & I & E). cbn [ev_ID] in I. injection E as <- _. rewrite (bool_decide_eq_false_2 _ N) in I.
  by injection I as <- _.
Qed.

Lemma PutEvent_there ctx event (w : PipelineWorld) stored duplicate w' : on_store (repo_PutEvent ctx event) w = (Ok (stored, duplicate), w') ->
  is_Some (lookup2 (m_events (world_store w')) (ev_TenantID event) (ev_ID event)).
Proof.
  destruct w as [[store engine] rt]. unfold repo_PutEvent, check_ctx, on_store, on_repo, bind, state, fail, ret.
  destruct ctx; [done|]. cbn. unfold PutEvent. destruct (lookup2 _ _ _) eqn:L; intros E; injection E as _ _ <-; cbn.
  - by eexists.
  - rewrite lookup2_put2_eq. by eexists.
Qed.

Lemma Ingest_in_store ctx t event (w : PipelineWorld) r w' : TenantId.Valid t = true -> Ingest decode ctx t event w = (Ok r, w') ->
  in_store t event (w_repo w').
Proof.
  intros V. unfold Ingest. intros E. apply bind_Ok in E as (input & w1 & N & E). assert (T := normalize_tenant _ _ _ _ _ N).
  apply bind_Ok in E as ([stored duplicate] & w2 & Pe & E). apply wrapping_Ok in Pe.
  assert (Th := PutEvent_there _ _ _ _ _ _ Pe). rewrite T in Th. destruct Th as [e L].
  apply bind_Ok in E as (? & w3 & O & E). apply wrapping_Ok in O.
  assert (L3 : lookup2 (m_events (world_store w3)) t (ev_ID input) = Some e).
  { assert (A := acts_check t ctx w2). change (on_store (check_ctx ctx) w2 = (Ok x, w3)) in O. rewrite O in A. by apply (acts_events _ _ _ A). }
  exists (ev_ID input). eexists. split; [by intros H; apply (normalize_id _ _ _ _ _ N)|].
  destruct duplicate; [injection E as _ <-; exact L3|].
  assert (Ts : ev_TenantID stored = t) by (apply PutEvent_new_event in Pe as ->; exact T).
  apply bind_Ok in E as (matches & w4 & D & E).
  assert (A1 : acts_for t w3 (detect decode ctx stored w3).2) by exact (acts_detect content decode t ctx stored V Ts w3). rewrite D in A1.
  assert (A2 : acts_for t w4 w').
  { assert (X : evolves (acts_for t) (foldM (ingest_match ctx t) (ingest_result stored false) matches)).
    { apply (evolves_foldM_inv _ (fun result => ev_TenantID (ir_Event result) = t)); [exact Ts|by intros; apply acts_ingest_match|].
      intros result m v result' v' I K. by apply ingest_match_event in K as ->. }
    specialize (X w4). by rewrite E in X. }
  by apply (acts_events _ _ _ A2), (acts_events _ _ _ A1).
Qed.

#[export] Instance detection_laws : PipelineLaws (Platform Memory).
Proof.
  exists in_store.
  - intros ctx t event w r w' V E. exact (Ingest_in_store ctx t event w r w' V E).
  - intros ctx t event t' event' w V (id & stored & I & L). exists id, stored. split; [done|].
    exact (acts_events _ _ _ (acts_Ingest content decode t ctx event V w) _ _ _ L).
Defined.

End Platform.

(** ** Secure transport *)

Lemma sasl_mechanism_cases config mechanism (text := ToLower (TrimSpace (ks_Mechanism config))) : kafkaSASLMechanism config = Ok mechanism ->
  (mechanism = None <-> text = "") /\ (forall user password, mechanism = Some (SaslPlain user password) -> text = "plain").
Proof.
  unfold kafkaSASLMechanism. fold text. clearbody text.
  destruct (decide (text = "")) as [->|N]; [intros [= <-]; by split|]. rewrite (bool_decide_eq_false_2 _ N).
  destruct (decide (text = "plain")) as [->|Np]; [intros [= <-]; by split|]. rewrite (bool_decide_eq_false_2 _ Np).
  repeat case_bool_decide; intros [= <-]; by split.
Qed.

Lemma load_tls_certificate `{TrustFiles} config settings : loadKafkaTLSConfig config = Ok settings -> kt_CertFile config <> "" ->
  is_Some (tls_Certificate settings).
Proof.
  unfold loadKafkaTLSConfig, load_certificate. intros E N. destruct (xorb _ _); [done|]. destruct (load_roots config) as [roots|x|]; [|done..].
  cbn [outcome_bind] in E. rewrite (bool_decide_eq_false_2 _ N) in E. destruct (tf_LoadX509KeyPair _ _); [|done..]. injection E as <-. by eexists.
Qed.

(** A client of a secure profile connects over TLS and proves who it is, by
    credentials or by a certificate; a password is never sent in the clear by
    the plain mechanism. *)
Lemma secure_kafka_authenticates `{TrustFiles} security tls mechanism :
  kafkaClientOptions security = Ok (tls, mechanism) ->
  (kf_RequireTLS security = true -> exists settings, tls = Some settings /\ (is_Some mechanism \/ is_Some (tls_Certificate settings))) /\
  (forall user password, mechanism = Some (SaslPlain user password) -> is_Some tls).
Proof.
  unfold kafkaClientOptions. intros E. destruct (Validate security) as [[]|x|] eqn:V; [|done..]. cbn [outcome_bind] in E.
  unfold Validate in V. destruct (kf_RequireTLS security && negb (kt_Enabled (kf_TLS security))) eqn:R; [done|].
  destruct (negb _ && _); [done|].
  destruct (if kt_Enabled (kf_TLS security) then let? _ := loadKafkaTLSConfig _ in Ok tt else Ok tt) as [[]|x|]; [|done..]. cbn [outcome_bind] in V.
  destruct (if kt_Enabled (kf_TLS security) then let? settings := _ in Ok (Some settings) else Ok None) as [tls'|x|] eqn:T; [|done..].
  cbn [outcome_bind] in E. destruct (kafkaSASLMechanism (kf_SASL security)) as [mechanism'|x|] eqn:K; [|done..].
  cbn [outcome_bind] in E. injection E as -> ->. destruct (sasl_mechanism_cases _ _ K) as [[_ M] P]. unfold validate_sasl in V.
  destruct (kt_Enabled (kf_TLS security)).
  - destruct (loadKafkaTLSConfig (kf_TLS security)) as [settings|x|] eqn:L; [|done..]. injection T as <-. split; [|by eexists].
    intros Q. exists settings. split; [done|]. destruct mechanism as [m|]; [left; by eexists|right].
    apply (load_tls_certificate _ _ L). intros N. specialize (proj1 (proj1 (sasl_mechanism_cases _ _ K)) eq_refl) as Z.
    rewrite (bool_decide_eq_true_2 _ Z), Q, (bool_decide_eq_true_2 _ N) in V. cbn in V. by destruct (_ || _).
  - rewrite andb_true_r in R. rewrite R. split; [done|]. intros user password X. specialize (P _ _ X). rewrite P in V.
    change ("plain" == "") with false in V. change (("plain" == "plain") && negb false) with true in V. cbn iota in V. by destruct (_ || _).
Qed.

(** ** Examples *)

Section Examples.

Definition quiet_outside : Outside := {|
  os_reply := fun _ => Done; os_topic := "kcsp.raw.events.v1"; os_deadLetterTopic := "kcsp.raw.events.dlq.v1";
  os_context := fun _ => None; os_parse := fun _ => Err (New "unsupported format") |}.
#[local] Existing Instance quiet_outside.

Definition sample_key : string := "0123456789abcdef0123456789abcdef".

Definition sample_submission (payload : string) : RawSubmission := {|
  sb_Format := "syslog-v1"; sb_ContentType := ""; sb_EventID := "e1"; sb_EventTimestamp := zero_time; sb_SourceID := "fw-1";
  sb_SourceAddress := ""; sb_Payload := payload |}.

Definition empty_plane {P} (platform : P) : World (Plane P) :=
  mkWorld {| pl_topic := []; pl_committed := 0; pl_dead := []; pl_stored := []; pl_platform := platform; pl_calls := 0 |} steady_runtime.

Definition quoted (s : string) : string := quote +:+ s +:+ quote.
Definition spaced_event : string := "{" +:+ quoted "a" +:+ ": " +:+ quoted "b" +:+ "}".

Definition published (payload : string) (canonical : bool) : outcome Receipt * World (Plane unit) :=
  submit sample_key "kazutb" "c1" (sample_submission payload) canonical (empty_plane tt).

Definition sample_envelope : RawEnvelope := zero_RawEnvelope {{
  rv_MessageID := "msg_1"; rv_EventID := "e1"; rv_TenantID := "kazutb"; rv_CollectorID := "c1"; rv_SourceID := "fw-1";
  rv_EventTimestamp := 63800000000 * Second; rv_ReceivedAt := 63800000001 * Second; rv_Format := "syslog-v1";
  rv_ContentType := "text/plain"; rv_SchemaVersion := "3"; rv_RawHash := "sha256:" +:+ sha256_hex "hello"; rv_RawPayload := "hello" }}.

Definition sample_signed : RawEnvelope :=
  sample_envelope {{ rv_Integrity := envelopeIntegrityPrefix +:+ EncodeToString (mac sample_key sample_envelope) }}.

Definition some_platform : Platform Memory :=
  mkPlatform NewMemory {| en_rules := ∅; en_dynamicRules := ∅; en_correlationMemory := NewMemoryCorrelationStore |}.

Definition foreign_record : KafkaRecord := {| kr_Key := ""; kr_Value := "not an envelope" |}.

End Examples.

Lemma tally_utf8 n : utf8 (tally n).
Proof. induction n as [|n IH]; [apply utf8_nil|]. by apply (utf8_cons "a"); [apply chunk1|]. Qed.

Lemma some_published payload canonical : is_ok (published payload canonical).1 = true ->
  exists receipt, published payload canonical = (Ok receipt, (published payload canonical).2).
Proof. destruct (published payload canonical) as [[r|e|] w]; [by eexists|done..]. Qed.

(** A raw payload arrives and verifies; the same document with a blank, sent
    as a canonical event, is accepted and never verifies. *)
Lemma published_event_verifies_witness :
  (exists envelope, PayloadBytes envelope = "hello" /\ Verify sample_key envelope = Ok tt) /\
  (exists envelope, PayloadBytes envelope = "{" +:+ quoted "a" +:+ ":" +:+ quoted "b" +:+ "}" /\ Verify sample_key envelope <> Ok tt).
Proof.
  assert (U : forall payload, Forall (fun s => utf8 (TrimSpace s)) ["c1"; sb_ContentType (sample_submission payload);
    sb_EventID (sample_submission payload); sb_SourceID (sample_submission payload); sb_SourceAddress (sample_submission payload)]).
  { intros payload. repeat apply Forall_cons_2; try apply Forall_nil_2; apply valid_utf8_utf8; vm_compute; reflexivity. }
  assert (D : forall v, json_parse spaced_event = Some v -> json_depth v < maxNestingDepth).
  { assert (L : json_depth (default JNull (json_parse spaced_event)) < maxNestingDepth) by (vm_compute; reflexivity).
    intros v E. rewrite E in L. exact L. }
  split.
  - destruct (some_published "hello" false) as [receipt A]; [vm_compute; reflexivity|].
    destruct (published_event_verifies (P := unit) (outer := quiet_outside) sample_key "kazutb" "c1" (sample_submission "hello") false
      (empty_plane tt) receipt _ A (U _) tally_utf8 ltac:(discriminate)) as (record & e & _ & _ & _ & _ & _ & _ & _ & B & V).
    exists e. split; [exact B|]. apply V. rewrite B. split; [vm_compute; discriminate|reflexivity].
  - destruct (some_published spaced_event true) as [receipt A]; [vm_compute; reflexivity|].
    destruct (published_event_verifies (P := unit) (outer := quiet_outside) sample_key "kazutb" "c1" (sample_submission spaced_event) true
      (empty_plane tt) receipt _ A (U _) tally_utf8 (fun _ => D)) as (record & e & _ & _ & _ & _ & _ & _ & _ & B & V).
    exists e. split; [rewrite B; vm_compute; reflexivity|]. intros F. apply V in F as [_ F]. rewrite B in F.
    vm_compute in F. discriminate F.
Defined.

Lemma sample_signs : Sign sample_key sample_envelope = Ok sample_signed.
Proof.
  assert (V : validateEnvelopeForIntegrity sample_envelope = Ok tt).
  { apply validate_Ok. split; [vm_compute; reflexivity|]. split_and!; [by left|done|vm_compute; discriminate|done|reflexivity]. }
  unfold Sign. by rewrite V.
Qed.

Lemma sample_verifies : Verify sample_key sample_signed = Ok tt.
Proof.
  apply (signed_verifies sample_key sample_envelope sample_signed "" sample_signs); [done|done|].
  split; [vm_compute; discriminate|reflexivity].
Qed.

Lemma sample_readable : envelope_readable sample_signed.
Proof.
  split; [|split; vm_compute; reflexivity]. apply (signed_texts sample_key sample_envelope); [vm_compute; reflexivity|].
  repeat apply Forall_cons_2; try apply Forall_nil_2; try (apply valid_utf8_utf8; vm_compute; reflexivity).
Qed.

(** The same signature on an envelope that names another source. *)
Lemma signature_binds_event_witness :
  let other := sample_signed {{ rv_SourceID := "fw-2"; rv_SourceAddress := "" }} in
  rv_SourceID other <> rv_SourceID sample_signed /\ signed_fields sample_signed = signed_fields other.
Proof.
  intros other. split; [discriminate|].
  assert (V : Verify sample_key other = Ok tt) by (unfold other; rewrite source_identity_unprotected; exact sample_verifies).
  assert (R : envelope_readable other).
  { destruct sample_readable as (U & Y). split; [|exact Y]. unfold envelope_texts in U |- *. rewrite !Forall_cons in U |- *.
    destruct U as (U1 & U2 & U3 & U4 & _ & U5 & U).
    refine (conj U1 (conj U2 (conj U3 (conj U4 (conj _ (conj _ U)))))); apply valid_utf8_utf8; vm_compute; reflexivity. }
  apply (signature_binds_event sample_key sample_signed other sample_verifies V sample_readable R eq_refl).
  symmetry. apply source_identity_unsigned.
Defined.

Section Acknowledged.
#[local] Existing Instance quiet_outside.
#[local] Instance sample_service : DetectionPipeline (Platform Memory) := detection_service None (fun _ => None).
#[local] Instance sample_laws : PipelineLaws (Platform Memory) := detection_laws None (fun _ => None).

(** A record that is no envelope is appended, processed and acknowledged; then
    an event is submitted. *)
Lemma committed_records_are_settled_witness :
  exists w : World (Plane (Platform Memory)),
    pl_committed (w_repo w) = 1%nat /\ settled sample_key (w_repo w) foreign_record.
Proof.
  set (w0 := empty_plane some_platform). set (w1 := change_plane (fun p => p {{ pl_topic ::= fun l => l ++ [foreign_record] }}) w0).
  set (w2 := (process_block sample_key 4 (fetched 1 (w_repo w1)) [foreign_record] 0 w1).2).
  set (w3 := (SubmitRaw sample_key "kazutb" "c1" (sample_submission "hello") w2).2).
  assert (R : rtc (plane_step sample_key 4) w0 w3).
  { eapply rtc_l; [apply (step_append sample_key 4 w0 foreign_record)|].
    eapply rtc_l; [apply (step_process sample_key 4 w1 1 [foreign_record] 0)|].
    { split; [reflexivity|]. split; [vm_compute; reflexivity|done]. }
    apply rtc_once. apply (step_submit sample_key 4 w2 "kazutb" "c1"). }
  destruct (committed_records_are_settled sample_key 4 w0 w3 eq_refl eq_refl R) as (_ & S & _).
  assert (C : pl_committed (w_repo w3) = 1%nat) by (vm_compute; reflexivity).
  exists w3. split; [exact C|]. apply (S 0%nat); [rewrite C; lia|vm_compute; reflexivity].
Defined.

End Acknowledged.
